(* ===== verification/_CoqProject ===== *)
-Q . S2P
Prelude.v
PyStr.v
PyFloat.v
Json.v
Sql.v
Keyset.v
Sha256.v
FailurePolicy.v
Store.v
Reservations.v
JobQueue.v
JobQueueWf.v
JobQueueInv.v
QueueMachine.v
QueueClaims.v
QueueFencing.v
QueueScan.v
QueueLife.v
QueueWitness.v
Selection.v
Idempotency.v
Worker.v
WorkerInv.v
WorkerWitness.v
WorkerProcess.v
Schema.v
SchemaProps.v
Eligibility.v
Billing.v
Budgets.v
Batches.v
BatchesProps.v
JobFinality.v
BatchSubmit.v
Quota.v
Router.v
RouterProps.v
OfflineSchedule.v
OfflineScheduleProps.v
OfflineRetry.v
Calendar.v
Cron.v
Schedules.v
SchedulesProps.v
Scheduler.v
SchedulerProps.v
Hmac.v
Devices.v
Delivery.v
Rollouts.v
ContentQueue.v
OfflineStore.v
OfflinePrepare.v
DeviceUpdate.v
DeliveryLife.v
DeliveryRuns.v
DeliveryEvidence.v
RolloutProps.v
PlaylistProps.v
PlaylistText.v
DeliveryWitness.v
DeviceUpdateProps.v
DeviceStatus.v
DeviceStatusProps.v
Pairing.v
PairingInv.v
PairingProps.v
PairingConfig.v
PairingLive.v
PairingWitness.v
Auth.v
AuthProps.v
Layout.v
Panel.v
Stock.v
