(* ===== verification/Prelude.v ===== *)
(** * InkTime: a verification library

    InkTime is a self-hosted photo-frame server: it scans a photo library,
    analyses photos with paid vision models, renders frames for e-ink panels
    and serves them to PhotoPainter devices.  Its core is a durable job queue
    in SQLite that several worker processes share; around it sit the records
    that keep paid requests from being sent twice, the budgets and account
    quotas, the provider router, the response schema, the photo selection and
    release gate, the scheduler that starts jobs by Cron, the enrolment and
    authentication of frames, the accounts, the delivery of frames (content
    queues, acknowledgements, rollouts, offline display schedules and
    playlists), and the frame geometry and panel encodings.  All paths below are under [inktime/app/].

    ** Files and the code they model

    - [Prelude], [PyStr], [PyFloat], [Json], [Sql], [Sha256], [Keyset]: results
      of fallible code, record update, automation; Python text (code points),
      binary64 floats (rounded as IEEE-754 prescribes), JSON values, SQL tables
      as row lists, [hashlib.sha256], and keyset pagination.
    - [Store]: the tables of the queue ([db/migrations.py]); [Reservations]:
      [repositories/analysis_reservations.py].
    - [JobQueue]: [JobRepository] of [repositories/jobs.py], one function per
      method from the database before to the result and the database after;
      [Selection]: its photo selectors; [Idempotency]: its idempotent requests.
      A transaction that raises leaves the database unchanged.
    - [JobQueueWf], [JobQueueInv], [QueueMachine]: the invariant of the queue,
      its preservation by every transaction, and the queue as a transition
      system; [QueueClaims], [QueueFencing], [QueueScan], [QueueLife]: claims
      and recovery, workers that lost a lease, the scan of runnable jobs,
      creation, failure and completion; [QueueWitness]: a concrete run;
      [JobFinality]: finished jobs under all writers of the job table.
    - [FailurePolicy]: [domain/jobs/failure_policy.py] and [settings.py].
    - [Worker], [WorkerInv], [WorkerWitness], [WorkerProcess]: the thread loop
      and the killable-process loop of [BoundedJobWorker] in
      [workers/job_worker.py] on top of [JobQueue].
    - [Schema], [SchemaProps]: [domain/analysis/schema.py], the gates every
      model answer and stored analysis passes.
    - [Eligibility]: [domain/photos/quality_policy.py] and [orientation.py],
      [domain/analysis/content_filter.py], the orientation review of
      [repositories/photos.py] and the release gate of
      [repositories/render_candidates.py].
    - [Billing]: [repositories/billable_operations.py]; [Budgets]:
      [services/budgets.py], [services/openai_budget.py],
      [repositories/usage.py], [domain/analysis/billing_cycle.py]; [Quota]:
      [repositories/provider_quota.py]; [Router], [RouterProps]:
      [providers/router.py].
    - [Batches], [BatchesProps]: the transactions of
      [repositories/analysis_batches.py] on the tables of remote Batches, with
      their constraints, and the lifecycle they implement; [BatchSubmit]:
      [_submit_one] of [services/batch_analysis.py], which uploads and submits
      one Batch, with its exception handler.
    - [OfflineSchedule], [OfflineScheduleProps]:
      [domain/photopainter/offline_schedule.py] and [weekly_schedule.py];
      [OfflineRetry]: the retry advice of [repositories/offline_schedules.py].
    - [Delivery]: the tables of content queues, acknowledgement events,
      rollouts and playlists; [ContentQueue] and [Rollouts]:
      [repositories/resilience.py], the queue of each frame with its
      acknowledgements ([domain/rendering/release_sources.py]) and the staged
      campaigns; [OfflineStore] and [OfflinePrepare]: the transactions of
      [repositories/offline_schedules.py], with the manifest check of
      [services/device_releases.py].
    - [DeliveryLife]: the abstract queue protocol and its simulation by every
      operation; [DeliveryRuns], [DeliveryEvidence]: runs of mixed requests and
      what they keep; [RolloutProps], [PlaylistProps], [PlaylistText]: the
      invariants of campaigns and playlists and the text of a playlist's
      version; [DeliveryWitness]: a household on which the hypotheses hold.
    - [DeviceUpdate], [DeviceUpdateProps]: the settings of frames in
      [repositories/devices.py] with
      [domain/photopainter/device_configuration.py], and the queue items a
      change supersedes; [DeviceStatus], [DeviceStatusProps]: the reports of
      frames in the same repository.
    - [Calendar], [Cron]: dates, and the Cron expressions and next-run search
      of [repositories/schedules.py]; [Schedules], [SchedulesProps]: the rest of
      that repository with [services/display_prepare.py] and
      [core/json_values.py]; [Scheduler], [SchedulerProps]: the tick of
      [workers/scheduler.py] on top of [JobQueue].
    - [Hmac]: the keyed digests of [core/security.py]; [Devices]: creation,
      token renewal and authentication in [repositories/devices.py];
      [Pairing]: [services/device_pairing.py]; [PairingInv]: its invariant;
      [PairingProps], [PairingConfig], [PairingLive], [PairingWitness]: runs of
      the service, the normal form of configurations, completion, examples.
    - [Auth], [AuthProps]: [repositories/auth.py], [domain/auth.py] and the
      handlers of [api/auth.py] that open sessions.
    - [Layout]: [domain/rendering/layout_geometry.py]; [Panel]: the profiles,
      the packing and the six-colour quantizer of [domain/rendering/palette.py];
      [Stock]: [domain/photopainter/stock_protocol.py].

    ** How the components meet

    The worker ([Worker]) only changes the queue through [JobQueue]; each
    repository call is one transaction with its own clock reading, so the
    theorems of [QueueMachine], stated for any interleaving of transactions,
    apply to any number of workers.  [Billing] and [Quota] are transition
    systems of their own, interleaved with arbitrary writes to other tables.
    [Router] takes its shared leases from [Quota] with [Quota]'s own
    operations; [Budgets] decides with the operations of [Billing] which
    reservations are settled and, with the worker's
    [request_definitely_not_sent], which calls cost nothing; [Eligibility]
    re-reads stored analyses through [Schema].
    [BatchSubmit] composes [Batches] with the queue and the reservations of
    [Budgets]; the runs of [BatchesProps] are any interleaving of [Batches],
    and [JobFinality] interleaves them with the queue and with the cycle resume
    of [services/complementary_analysis.py], the third writer of job statuses.
    [Scheduler] reads due tasks from [Schedules] and starts them through
    [JobQueue]; [Pairing] writes the rows [Devices] authenticates, and the runs
    of [PairingProps] interleave both with the LAN trusted or not at each step.
    [Rollouts], [ContentQueue], [OfflineStore] and [OfflinePrepare] share the
    tables of [Delivery] and the device rows of [Devices]: an acknowledgement
    of [ContentQueue] is recorded and judged by [Rollouts] in the same
    transaction, rollouts and playlists insert items into the same queues, and
    [OfflinePrepare] plans its days with [OfflineSchedule].  A request of
    [DeliveryRuns] is any operation of these files or of [DeviceUpdate], the
    only other writer of the delivery tables.
    [Selection] uses the reservation predicate that [JobQueue.create] checks
    again, [Stock] reads the bytes [Panel] packs.

    ** What the theorems show

    - Queue: every reachable state is well-formed; cancelled jobs are final,
      completed ones until a Batch of theirs is closed, other finished jobs
      leave by the two reopening operations; a claim hands out due items and no
      item twice; recovery is exactly the bulk rule, and the worker that lost
      its lease can no longer report on the item, whoever runs it now; the
      scan, reading each page as the table then is, misses no job that stays
      runnable; a job ends exactly when its items have; the
      retry budget; idempotent creation; preview capacity; completed
      idempotent requests are final and live reservations exclusive.
    - Worker: the futures stay within the dispatch capacity, a finished loop
      leaves a well-formed queue and no item running in its name, a request that was never sent costs
      no attempt, and child processes stay bounded and are all reaped.
    - Paid requests: at most one unresolved request per content, no resend
      before it is settled, saved responses are reused, new requests are
      guarded; quota limits, concurrency and circuit under interleaving.
    - Budgets: a reservation is granted only inside every limit in force,
      counted over the rows of the ledger, and adds exactly itself; a
      call's money is recorded or stays reserved, age alone frees nothing, and
      the billing cycle contains the present.
    - Batches: the repository refines a small lifecycle machine with the writes
      of [update_batch] as an explicit part of it; unless such a write moves a
      status back no Batch is uploaded or submitted twice; remote identities never change and belong to
      one row, an owner who lost his claim completes nothing, closing a Batch
      closes its items and with the last one its job, a reserve is released
      only on complete evidence; submitting accounts for its remote work also
      when statements fail for want of storage, the lost file id included.
    - Router: failover never repeats a request that may have started, permits
      return on every path and bound the concurrency of any interleaving, and
      the paid channel waits for the free quota.  A storage failure during the
      reservation is the exception: [storage_failure_keeps_permit].
    - Responses: accepted results are typed, repairs never touch scores or
      safety fields, every malformed answer within the interpreter's limits is
      a validation error.
    - Release gate: every photo it lets through has passed the content, display
      and orientation checks; a photo is held exactly when the renderer would
      ignore a turn.
    - Selection: the pending selection is complete, ordered and free of
      reservations, and the preview counts it.
    - Schedules: accepted schedules are canonical with the cyclic gap; their
      instants keep every slot across DST changes; deadlines outlive slots; the
      next sync, in whole seconds, is never missed where dates do not go back;
      the preparation plan is coherent.
    - Retry advice: a frame without a playlist is never told to sleep past a
      slot it could still serve.
    - Delivery: every operation refines the queue protocol; delivered items
      only move forward, a queue's version and display pointer never go back,
      the server's picture of a panel rests on what the frame reported, and an
      acknowledgement counts once however often it is sent.
    - Rollouts: finished campaigns are final and a frame carries the release
      of at most one live campaign.
    - Playlists: one live playlist per frame and day, each slot backed by its
      own queue item with the release it announces; the version is at every
      time the digest of the content, and its text determines the content.
    - Settings of frames: a change of remote settings, and nothing else,
      raises the version by one and cancels exactly the frame's open future
      items whose mode no longer fits; setting the same render inputs again writes nothing.  Items
      without a display time are never superseded ([undated_items_kept]).
    - Reports: what is known of a frame only moves forward and is never ahead
      of the server; a frame that lost slots is served no playlist.
    - Tasks: the next run is the first matching wall minute after the cursor,
      and exists for every expression with a day all months have; a tick serves
      every due task whatever the others raise, leaves the other rows as they
      are and never doubles a job in flight; stored tasks keep their bounds.
    - Enrolment: outside a trusted LAN only a request an administrator approved
      is confirmed, and every automatic frame let in has such a request; a
      revoked frame stays out until its repair; a superseded credential is
      never valid again; requests stay bounded; in every reachable state an
      approved request can be claimed and an issued one confirmed, after which
      that very frame authenticates; stored configurations are normal forms.
    - Accounts: an enabled administrator always remains and setup happens once,
      revoked sessions stay revoked, a created account logs in by its name and
      nobody else does, and guessing is throttled.
    - Rendering: all slots of a layout lie in the canvas and are disjoint;
      packing round-trips for frames that fill their bytes and is refused for
      others; the quantizer picks a nearest colour and always
      yields an encodable frame; the Stock payload shows the frame.
    - Failure policy: which settings are accepted, and which failures end a job.

    ** Bounds, fuel and conventions

    Instants are integers of microseconds: the code compares ISO-8601 UTC
    text, whose order is chronological (a missing fraction sorts first, as
    ['+'] precedes ['.']), and REAL seconds in [Quota].  [iter_runnable]
    takes the database at each page and tells whether it returned, which is
    proved once the pages outnumber the keys; the selectors have fuel one
    above the number of rows, which is proved to be enough.  The worker loop is a fold over what happened in each turn;
    its theorems hold for every number of turns.  Identifiers ([uuid4]) are
    arguments, and a repeated one is the constraint violation SQLite raises.
    Money and scores are binary64 values with IEEE-754 rounding; SQLite's SUM
    is a parameter.  Which statements of a submission fail for want of storage
    is an argument, as is an answer beyond the interpreter's own limits (digits
    of an integer, depth of the stack).  Caller-supplied hooks, guards and finalizers, time zones,
    [json.dumps] (except the text of a playlist's version), OpenCC, Fernet,
    password hashing and the Unicode tables of the runtime are parameters.  The search for the next run visits the 366 days of minutes the
    source visits.

    ** Not modelled

    The progress, error and result callbacks of the worker; the list views of
    [jobs.py]; the float dithers, Pillow filters and perceptual colour spaces
    of [palette.py]; decoding of stored provider responses; the HTTP clients;
    [record_batch_once], price tables and time-zone periods of the budgets;
    the ranking score of local candidates; the analysis service,
    preparing, polling and importing Batches; the maintenance steps of the
    scheduler's tick; the energy statistics of devices; release files, settings, selection traces, feedback, the shadow
    configuration, retention and cleanup runs, backups, the scanner, the web
    API and migrations; [content_notice_for_device] and the other list views,
    which only read; foreign keys of the delivery tables.  [domain/rendering/adaptive_layout.py] falls back on Edmonds'
    matching algorithm, whose termination and optimality are a development of
    their own.
    The next components would be [domain/analysis/scoring.py] and the polling
    and import of Batches. *)

From stdpp Require Export base tactics list numbers strings.
From Stdlib Require Export ZArith Lia Permutation Sorted.

(** ** Results of fallible code

    A Python function that may raise is modelled by a function into
    [result E A]; a transaction that raises is rolled back, so [Raise]
    carries no state. *)

Inductive result (E A : Type) : Type :=
| Ok (a : A)
| Raise (e : E).
Arguments Ok {E A} a.
Arguments Raise {E A} e.

Definition rbind {E A B} (m : result E A) (k : A → result E B) : result E B :=
  match m with Ok a => k a | Raise e => Raise e end.

Definition is_ok {E A} (m : result E A) : bool :=
  match m with Ok _ => true | Raise _ => false end.

(** [guard] of the source: [if bad: raise e]. *)
Definition raise_if {E} (bad : bool) (e : E) : result E unit :=
  if bad then Raise e else Ok tt.

Declare Scope ink_scope.
Delimit Scope ink_scope with ink.
Open Scope ink_scope.

Notation "'let*' x ':=' m 'in' k" := (rbind m (λ x, k))
  (at level 10, x pattern, m at level 100, k at level 200,
   format "'[v' 'let*'  x  ':='  m  'in' '//' k ']'") : ink_scope.
Notation "m ';;;' k" := (rbind m (λ _, k)) (at level 199, right associativity) : ink_scope.

Lemma rbind_ok {E A B} (m : result E A) (k : A → result E B) b :
  rbind m k = Ok b ↔ ∃ a, m = Ok a ∧ k a = Ok b.
Proof. destruct m; naive_solver. Qed.

Lemma raise_if_ok {E} (bad : bool) (e : E) u : raise_if bad e = Ok u ↔ bad = false.
Proof. destruct bad, u; naive_solver. Qed.

(** Decompose every successful bind and guard in the context. *)
Ltac res_inv :=
  repeat match goal with
  | H : rbind _ _ = Ok _ |- _ => apply rbind_ok in H; destruct H as (? & ? & ?)
  | H : raise_if _ _ = Ok _ |- _ => apply raise_if_ok in H
  | H : Ok _ = Ok _ |- _ => injection H as H; subst
  | H : Raise _ = Ok _ |- _ => discriminate H
  | H : Ok _ = Raise _ |- _ => discriminate H
  | H : (_, _) = (_, _) |- _ => injection H as ??; subst
  end.

(** Case analysis on the innermost [if]/[match] scrutinee. *)
Ltac case_in H :=
  match type of H with
  | context [match ?x with _ => _ end] =>
      lazymatch x with
      | context [match _ with _ => _ end] => fail
      | _ => destruct x eqn:?
      end
  end.
Ltac case_goal :=
  match goal with
  | |- context [match ?x with _ => _ end] =>
      lazymatch x with
      | context [match _ with _ => _ end] => fail
      | _ => destruct x eqn:?
      end
  end.

(** ** Record update

    [r <| f := v |>] is [r] with column [f] replaced; one [Settable]
    instance per column is derived from the record's eta expansion. *)

Class Settable {R A : Type} (proj : R → A) := set_with : (A → A) → R → R.
Arguments set_with {R A} proj {_} _ !_ /.

Ltac derive_setter eta proj :=
  exact (fun f r => ltac:(
    let b := eval cbv beta delta [eta] in (eta r) in
    match (eval pattern (proj r) in b) with
    | ?g _ => let t := eval cbv beta in (g (f (proj r))) in exact t
    end)).

Notation "r <| p := v |>" := (set_with p (λ _, v) r)
  (at level 1, left associativity, format "r <| p  :=  v |>") : ink_scope.

(** ** Booleans *)

Lemma negb_true (b : bool) : negb b = true ↔ b = false.
Proof. by destruct b. Qed.

Create HintDb ink.
Create Rewrite HintDb ink_rw.

#[export] Hint Rewrite Bool.andb_true_iff Bool.andb_false_iff Bool.orb_true_iff
  Bool.orb_false_iff negb_true Bool.negb_false_iff
  Z.leb_le Z.leb_gt Z.ltb_lt Z.ltb_ge Z.eqb_eq Z.eqb_neq
  String.eqb_eq String.eqb_neq : ink_rw.

(** Turn boolean tests of the code into propositions, everywhere. *)
Ltac bprop := autorewrite with ink_rw in *.

Lemma string_eqb_refl s : String.eqb s s = true.
Proof. apply String.eqb_refl. Qed.

(** ** Lists: counting, lookup by predicate, update in place *)

Section counting.
Context {A : Type}.
Implicit Types (p q : A → bool) (l : list A).

Definition countb p l : Z := Z.of_nat (length (List.filter p l)).

Lemma countb_nil p : countb p [] = 0%Z.
Proof. done. Qed.

Lemma countb_cons p x l : countb p (x :: l) = ((if p x then 1 else 0) + countb p l)%Z.
Proof. unfold countb; simpl. destruct (p x); simpl; lia. Qed.

Lemma countb_app p l1 l2 : countb p (l1 ++ l2) = (countb p l1 + countb p l2)%Z.
Proof. induction l1 as [|x l1 IH]; simpl; rewrite ?countb_cons; [done|]. rewrite IH; lia. Qed.

Lemma countb_nonneg p l : (0 ≤ countb p l)%Z.
Proof. unfold countb; lia. Qed.

Lemma countb_le_length p l : (countb p l ≤ Z.of_nat (length l))%Z.
Proof. unfold countb. pose proof (List.filter_length_le p l). lia. Qed.

Lemma countb_zero p l : countb p l = 0%Z ↔ existsb p l = false.
Proof.
  induction l as [|x l IH]; [done|]. rewrite countb_cons; simpl.
  pose proof (countb_nonneg p l). destruct (p x); simpl; [|rewrite <- IH]; split; intros; try lia; done.
Qed.

Lemma countb_pos p l : (0 < countb p l)%Z ↔ existsb p l = true.
Proof.
  pose proof (countb_nonneg p l). pose proof (countb_zero p l) as Hz.
  destruct (existsb p l); split; intros; try done.
  - destruct (decide (countb p l = 0%Z)); [apply Hz in e; done|lia].
  - destruct Hz as [_ Hz]. specialize (Hz eq_refl). lia.
Qed.

Lemma countb_ext p q l : (∀ x, x ∈ l → p x = q x) → countb p l = countb q l.
Proof.
  intros H. induction l as [|x l IH]; [done|]. rewrite !countb_cons, IH, H; [done|left|].
  intros y Hy; apply H; by right.
Qed.

Lemma countb_mono p q l : (∀ x, x ∈ l → p x = true → q x = true) → (countb p l ≤ countb q l)%Z.
Proof.
  intros H. induction l as [|x l IH]; [done|]. rewrite !countb_cons.
  assert (countb p l ≤ countb q l)%Z by (apply IH; intros y Hy; apply H; by right).
  pose proof (H x ltac:(left)) as Hx. destruct (p x), (q x); try lia; by specialize (Hx eq_refl).
Qed.

Lemma countb_split p q l :
  countb p l = (countb (λ x, p x && q x) l + countb (λ x, p x && negb (q x)) l)%Z.
Proof.
  induction l as [|x l IH]; [done|]. rewrite !countb_cons, IH.
  destruct (p x), (q x); simpl; lia.
Qed.

Lemma countb_false l : countb (λ _, false) l = 0%Z.
Proof. induction l; [done|]. by rewrite countb_cons. Qed.
End counting.

(** ** Stable insertion sort by a boolean order (ORDER BY) *)

Section sorting.
Context {A : Type} (leb : A → A → bool).

Fixpoint insert_by (x : A) (l : list A) : list A :=
  match l with
  | [] => [x]
  | y :: l' => if leb x y then x :: l else y :: insert_by x l'
  end.

Fixpoint sort_by (l : list A) : list A :=
  match l with [] => [] | x :: l' => insert_by x (sort_by l') end.

Lemma insert_by_perm x l : insert_by x l ≡ₚ x :: l.
Proof.
  induction l as [|y l IH]; simpl; [done|]. destruct (leb x y); [done|].
  rewrite IH. apply Permutation_swap.
Qed.

Lemma sort_by_perm l : sort_by l ≡ₚ l.
Proof. induction l as [|x l IH]; simpl; [done|]. by rewrite insert_by_perm, IH. Qed.

Lemma sort_by_elem l x : x ∈ sort_by l ↔ x ∈ l.
Proof. by rewrite sort_by_perm. Qed.

Lemma sort_by_length l : length (sort_by l) = length l.
Proof. by rewrite sort_by_perm. Qed.

Context (leb_total : ∀ x y, leb x y = true ∨ leb y x = true).
Context (leb_trans : ∀ x y z, leb x y = true → leb y z = true → leb x z = true).

Lemma insert_by_sorted x l :
  StronglySorted (λ a b, leb a b = true) l →
  StronglySorted (λ a b, leb a b = true) (insert_by x l).
Proof.
  induction 1 as [|y l Hs IH Hf]; simpl; [repeat constructor|].
  destruct (leb x y) eqn:E.
  - constructor; [by constructor|]. constructor; [done|].
    eapply List.Forall_impl; [|done]. intros z Hz; eauto.
  - constructor; [done|]. rewrite insert_by_perm. constructor; [|done].
    destruct (leb_total x y); congruence.
Qed.

Lemma sort_by_sorted l : StronglySorted (λ a b, leb a b = true) (sort_by l).
Proof. induction l; simpl; [constructor|by apply insert_by_sorted]. Qed.

Lemma insert_by_front x l : Forall (λ y, leb x y = true) l → insert_by x l = x :: l.
Proof. by intros [|y l' Hy _]; simpl; [|rewrite Hy]. Qed.

Lemma sort_by_fix l : StronglySorted (λ a b, leb a b = true) l → sort_by l = l.
Proof. induction 1 as [|x l Hs IH Hf]; simpl; [done|]. by rewrite IH, insert_by_front. Qed.

(** Filtering commutes with sorting. *)
Lemma filter_insert_by_skip (q : A → bool) x l :
  q x = false → List.filter q (insert_by x l) = List.filter q l.
Proof.
  intros Hq. induction l as [|y l IH]; simpl; [by rewrite Hq|].
  destruct (leb x y); simpl; [by rewrite Hq|]. by rewrite IH.
Qed.

Lemma filter_insert_by (q : A → bool) x l :
  StronglySorted (λ a b, leb a b = true) l → q x = true →
  List.filter q (insert_by x l) = insert_by x (List.filter q l).
Proof.
  intros Hs Hq. induction Hs as [|y l Hs IH Hf]; simpl; [by rewrite Hq|].
  destruct (leb x y) eqn:E; simpl.
  - rewrite Hq. destruct (q y); simpl; [by rewrite E|]. clear IH Hs.
    induction Hf as [|z l Hz Hf IH]; simpl; [done|]. destruct (q z); [simpl|exact IH].
    by rewrite (leb_trans x y z).
  - rewrite IH. destruct (q y); simpl; [by rewrite E|done].
Qed.

Lemma sort_by_filter (q : A → bool) l : sort_by (List.filter q l) = List.filter q (sort_by l).
Proof.
  induction l as [|x l IH]; simpl; [done|]. destruct (q x) eqn:E; simpl.
  - by rewrite filter_insert_by, IH by (done || apply sort_by_sorted).
  - by rewrite filter_insert_by_skip, IH.
Qed.
End sorting.

Lemma sort_by_ext {A} (r1 r2 : A → A → bool) l :
  (∀ x y, r1 x y = r2 x y) → sort_by r1 l = sort_by r2 l.
Proof.
  intros H. induction l as [|x l IH]; simpl; [done|]. rewrite IH. clear IH.
  induction (sort_by r2 l) as [|y l' IH]; simpl; [done|]. by rewrite H, IH.
Qed.
