(* ===== verification/PyStr.v ===== *)
(** * Python text

    A Python [str] is the list of its code points ([str]), because the code
    measures, slices and strips text by code point; [u "..."] is the literal
    of the source, decoded from the UTF-8 bytes of this file.  Equality and
    the code-point order are boolean and reflected. *)

From S2P Require Import Prelude.
From Stdlib Require Import Ascii.
Local Open Scope Z_scope.

Abbreviation str := (list Z).

(** UTF-8 decoding of a literal (well-formed by construction). *)
Fixpoint bytes_of (s : string) : list Z :=
  match s with
  | EmptyString => []
  | String c s' => Z.of_N (N_of_ascii c) :: bytes_of s'
  end.

Fixpoint utf8_decode (l : list Z) : str :=
  match l with
  | [] => []
  | b :: l1 =>
      if b <? 128 then b :: utf8_decode l1
      else match l1 with
      | [] => []
      | c :: l2 =>
          if b <? 224 then (Z.land b 31 * 64 + Z.land c 63) :: utf8_decode l2
          else match l2 with
          | [] => []
          | d :: l3 =>
              if b <? 240 then
                (Z.land b 15 * 4096 + Z.land c 63 * 64 + Z.land d 63) :: utf8_decode l3
              else match l3 with
              | [] => []
              | e :: l4 =>
                  (Z.land b 7 * 262144 + Z.land c 63 * 4096 + Z.land d 63 * 64
                   + Z.land e 63) :: utf8_decode l4
              end
          end
      end
  end.

Definition u (s : string) : str := utf8_decode (bytes_of s).
Arguments u s : simpl never.

(** ** Equality and order *)

Fixpoint str_eqb (a b : str) : bool :=
  match a, b with
  | [], [] => true
  | x :: a', y :: b' => (x =? y) && str_eqb a' b'
  | _, _ => false
  end.

Lemma str_eqb_eq a b : str_eqb a b = true ↔ a = b.
Proof.
  revert b. induction a as [|x a IH]; intros [|y b]; simpl; try naive_solver.
  bprop. rewrite IH. naive_solver.
Qed.

Lemma str_eqb_neq a b : str_eqb a b = false ↔ a ≠ b.
Proof. rewrite <- str_eqb_eq. destruct (str_eqb a b); naive_solver. Qed.

Lemma str_eqb_refl a : str_eqb a a = true.
Proof. by apply str_eqb_eq. Qed.

#[export] Hint Rewrite str_eqb_eq str_eqb_neq : ink_rw.

(** Code-point lexicographic order: Python's [<=] on str, and SQLite's BINARY
    collation on the UTF-8 encodings. *)
Fixpoint str_leb (a b : str) : bool :=
  match a, b with
  | [], _ => true
  | _ :: _, [] => false
  | x :: a', y :: b' => (x <? y) || ((x =? y) && str_leb a' b')
  end.
Definition str_ltb (a b : str) : bool := negb (str_leb b a).

Lemma str_leb_refl a : str_leb a a = true.
Proof. induction a as [|x a IH]; simpl; [done|]. rewrite IH, Z.eqb_refl. by destruct (x <? x). Qed.

Lemma str_leb_total a b : str_leb a b = true ∨ str_leb b a = true.
Proof.
  revert b. induction a as [|x a IH]; intros [|y b]; simpl; try auto.
  destruct (IH b) as [H|H]; bprop; rewrite H; lia.
Qed.

Lemma str_leb_trans a b c : str_leb a b = true → str_leb b c = true → str_leb a c = true.
Proof.
  revert b c. induction a as [|x a IH]; intros [|y b] [|z c]; simpl; try done.
  bprop. intros [?|[??]] [?|[??]]; try (left; lia). right. split; [lia|eauto].
Qed.

Lemma str_leb_antisym a b : str_leb a b = true → str_leb b a = true → a = b.
Proof.
  revert b. induction a as [|x a IH]; intros [|y b]; simpl; try done.
  bprop. intros [?|[??]] [?|[??]]; try lia. f_equal; [lia|auto].
Qed.

(** Membership in a Python set or tuple of strings. *)
Definition str_in (x : str) (l : list str) : bool := existsb (str_eqb x) l.

Lemma str_in_elem x l : str_in x l = true ↔ x ∈ l.
Proof.
  unfold str_in. rewrite existsb_exists. setoid_rewrite str_eqb_eq.
  rewrite list_elem_of_In. naive_solver.
Qed.

Lemma str_in_false x l : str_in x l = false ↔ x ∉ l.
Proof. rewrite <- str_in_elem. destruct (str_in x l); naive_solver. Qed.

#[export] Hint Rewrite str_in_elem str_in_false : ink_rw.

(** [set(l)] has as many elements as [l]: no duplicates. *)
Fixpoint nodupb (l : list str) : bool :=
  match l with [] => true | x :: l' => negb (str_in x l') && nodupb l' end.

Lemma nodupb_spec l : nodupb l = true ↔ NoDup l.
Proof.
  induction l as [|x l IH]; simpl; [split; [constructor|done]|].
  rewrite NoDup_cons, <- IH. by bprop.
Qed.

(** ** str methods *)

(** [str.isspace] (Unicode white space). *)
Definition is_space (c : Z) : bool :=
  ((9 <=? c) && (c <=? 13)) || ((28 <=? c) && (c <=? 32)) || (c =? 133) || (c =? 160)
  || (c =? 5760) || ((8192 <=? c) && (c <=? 8202)) || (c =? 8232) || (c =? 8233)
  || (c =? 8239) || (c =? 8287) || (c =? 12288).

Fixpoint lstrip (s : str) : str :=
  match s with [] => [] | c :: s' => if is_space c then lstrip s' else s end.
Definition rstrip (s : str) : str := rev (lstrip (rev s)).
Definition strip (s : str) : str := rstrip (lstrip s).

Fixpoint starts_with (p s : str) : bool :=
  match p, s with
  | [], _ => true
  | x :: p', y :: s' => (x =? y) && starts_with p' s'
  | _, [] => false
  end.

Definition slen (s : str) : Z := Z.of_nat (length s).

(** [s or default], for a possibly missing text. *)
Definition str_or (s : option str) (d : str) : str :=
  match s with Some ((_ :: _) as x) => x | _ => d end.

(** Truth value of a possibly missing text. *)
Definition opt_truthy (s : option str) : bool :=
  match s with Some (_ :: _) => true | _ => false end.

(** [lstrip] drops a prefix of white space and nothing else. *)
Lemma lstrip_split s : ∃ w, s = w ++ lstrip s ∧ Forall (λ c, is_space c = true) w.
Proof.
  induction s as [|c s (w & Hw & Hf)]; [by exists []|]. simpl.
  destruct (is_space c) eqn:E; [|by exists []].
  exists (c :: w). split; [simpl; congruence|by constructor].
Qed.

Lemma lstrip_head s c s' : lstrip s = c :: s' → is_space c = false.
Proof. induction s as [|d s IH]; simpl; [done|]. destruct (is_space d) eqn:E; naive_solver. Qed.

Lemma lstrip_fix s : match s with [] => True | c :: _ => is_space c = false end → lstrip s = s.
Proof. destruct s as [|c s]; [done|]. by simpl; intros ->. Qed.

Lemma lstrip_idemp s : lstrip (lstrip s) = lstrip s.
Proof. apply lstrip_fix. destruct (lstrip s) eqn:E; [done|]. by eapply lstrip_head. Qed.

Lemma strip_length s : (length (strip s) ≤ length s)%nat.
Proof.
  unfold strip, rstrip. rewrite length_rev.
  destruct (lstrip_split (rev (lstrip s))) as (w & Hw & _).
  destruct (lstrip_split s) as (v & Hv & _).
  apply (f_equal length) in Hw, Hv. rewrite length_app in Hw, Hv. rewrite length_rev in Hw. lia.
Qed.

Lemma strip_idemp s : strip (strip s) = strip s.
Proof.
  unfold strip. set (a := lstrip s).
  assert (Ha : lstrip (rstrip a) = rstrip a).
  { apply lstrip_fix. unfold rstrip.
    destruct (lstrip_split (rev a)) as (w & Hw & Hf). set (b := lstrip (rev a)) in *.
    assert (Hab : a = rev b ++ rev w) by (rewrite <- rev_app_distr, <- Hw; by rewrite rev_involutive).
    destruct (rev b) as [|c l] eqn:Hb; [done|].
    apply (lstrip_head s c (l ++ rev w)). fold a. rewrite Hab. done. }
  rewrite Ha. unfold rstrip at 1 2. rewrite rev_involutive. by rewrite lstrip_idemp.
Qed.

(** ** Decimal digits *)

Definition digit (n : Z) : Z := 48 + n.

(** [f"{n:02d}"] for 0 <= n < 100. *)
Definition pad2 (n : Z) : str := [digit (n / 10); digit (n mod 10)].

Definition digit_val (c : Z) : option Z :=
  if (48 <=? c) && (c <=? 57) then Some (c - 48) else None.

Lemma digit_val_digit n : 0 ≤ n ≤ 9 → digit_val (digit n) = Some n.
Proof.
  intros H. unfold digit_val, digit. destruct (_ && _) eqn:E; [f_equal; lia|].
  bprop. lia.
Qed.

(** [str(n)] for a natural number [n]. *)
Fixpoint z_digits (fuel : nat) (n : Z) (acc : str) : str :=
  match fuel with
  | O => acc
  | S f => if n <? 10 then digit n :: acc else z_digits f (n / 10) (digit (n mod 10) :: acc)
  end.
Definition z_str (n : Z) : str := z_digits (S (Z.to_nat (Z.log2 n))) n [].

(** [needle in s] *)
Fixpoint contains (needle s : str) : bool :=
  starts_with needle s || match s with [] => false | _ :: s' => contains needle s' end.

(** [list(dict.fromkeys(l))]: first occurrences, in order. *)
Fixpoint fromkeys_from (seen : list str) (l : list str) : list str :=
  match l with
  | [] => []
  | x :: l' => if str_in x seen then fromkeys_from seen l' else x :: fromkeys_from (x :: seen) l'
  end.
Definition fromkeys (l : list str) : list str := fromkeys_from [] l.
