(* ===== verification/PyFloat.v ===== *)
(** * Python floats

    A Python [float] (and a SQLite REAL) is an IEEE-754 binary64 value; it is
    the axiom-free [spec_float] of the Rocq core library at precision 53 and
    emax 1024, so every arithmetic step rounds as the interpreter's does.
    [dec n d] is the literal whose decimal value is [n / d]: numerator and
    denominator are exact, hence the quotient is the correctly rounded one. *)

From S2P Require Import Prelude.
From Corelib Require Import SpecFloat.
Local Open Scope Z_scope.

Definition f64 : Type := spec_float.
Definition f64_of_Z (z : Z) : f64 := binary_normalize 53 1024 z 0 false.
Definition fadd : f64 → f64 → f64 := SFadd 53 1024.
Definition fsub : f64 → f64 → f64 := SFsub 53 1024.
Definition fmul : f64 → f64 → f64 := SFmul 53 1024.
Definition fdiv : f64 → f64 → f64 := SFdiv 53 1024.
Definition fleb : f64 → f64 → bool := SFleb.
Definition fltb : f64 → f64 → bool := SFltb.
Definition feqb : f64 → f64 → bool := SFeqb.
Definition dec (n d : Z) : f64 := fdiv (f64_of_Z n) (f64_of_Z d).
Definition f0 : f64 := S754_zero false.

(** [math.isfinite] *)
Definition ffinite (x : f64) : bool :=
  match x with S754_nan | S754_infinity _ => false | _ => true end.

(** Python's [max(a, b)] and [min(a, b)] keep [a] unless [b] is strictly
    greater (smaller). *)
Definition fmax (a b : f64) : f64 := if fltb a b then b else a.
Definition fmin (a b : f64) : f64 := if fltb b a then b else a.

(** Truth value of a float: everything but the two zeros. *)
Definition ftruthy (x : f64) : bool := match x with S754_zero _ => false | _ => true end.

(** [int(x)]: truncation toward zero (of a finite value). *)
Definition ftrunc (x : f64) : Z :=
  match x with
  | S754_finite s m e =>
      let a := if 0 <=? e then Zpos m * 2 ^ e else Zpos m / 2 ^ (- e) in
      if s then - a else a
  | _ => 0
  end.

(** Nearest integer to [n / d], ties to even, for [0 < d]. *)
Definition rdiv_even (n d : Z) : Z :=
  let q := n / d in
  let r := n mod d in
  match Z.compare (2 * r) d with
  | Lt => q
  | Gt => q + 1
  | Eq => if Z.even q then q else q + 1
  end.

(** The integer nearest to [100 * x], ties to even, on the exact value. *)
Definition hundredths (x : f64) : Z :=
  match x with
  | S754_finite s m e =>
      let a := if 0 <=? e then 100 * (Zpos m * 2 ^ e)
               else rdiv_even (100 * Zpos m) (2 ^ (- e)) in
      if s then - a else a
  | _ => 0
  end.

(** [round(x, 2)]: the float nearest to the two-decimal value nearest to [x].
    (Infinities and NaN are returned unchanged.) *)
Definition round2 (x : f64) : f64 :=
  match x with
  | S754_finite s _ _ =>
      let h := hundredths x in
      if h =? 0 then S754_zero s else dec h 100
  | _ => x
  end.

Lemma rdiv_even_bounds n d : 0 < d → n / d ≤ rdiv_even n d ≤ n / d + 1.
Proof.
  intros H. unfold rdiv_even.
  destruct (Z.compare _ _); [destruct (Z.even _)|..]; lia.
Qed.

Lemma rdiv_even_nonneg n d : 0 < d → 0 ≤ n → 0 ≤ rdiv_even n d.
Proof. intros. pose proof (rdiv_even_bounds n d H). pose proof (Z.div_pos n d). lia. Qed.

(** Rounding an exact bound from above: [n <= k*d] gives [rdiv_even n d <= k]. *)
Lemma rdiv_even_le n d k : 0 < d → n ≤ k * d → rdiv_even n d ≤ k.
Proof.
  intros Hd Hn. unfold rdiv_even.
  pose proof (Z.div_mod n d ltac:(lia)). pose proof (Z.mod_pos_bound n d Hd).
  destruct (decide (n / d = k)) as [Hq|Hq].
  - assert (n mod d = 0) by nia. rewrite H1. simpl.
    destruct d; simpl; lia.
  - assert (n / d < k) by nia. destruct (Z.compare _ _); [destruct (Z.even _)|..]; lia.
Qed.

(** ** The order of the floats that are not NaN

    Comparison is the lexicographic order of (class, exponent, mantissa), the
    latter two negated below zero. *)

Definition is_nan (x : f64) : bool := match x with S754_nan => true | _ => false end.

Definition f_class (x : f64) : Z :=
  match x with
  | S754_infinity s => if s then -2 else 2
  | S754_finite s _ _ => if s then -1 else 1
  | _ => 0
  end.
Definition f_exp (x : f64) : Z :=
  match x with S754_finite s _ e => if s then - e else e | _ => 0 end.
Definition f_man (x : f64) : Z :=
  match x with S754_finite s m _ => if s then Zneg m else Zpos m | _ => 0 end.

Definition f_lt (x y : f64) : Prop :=
  f_class x < f_class y ∨ f_class x = f_class y ∧
    (f_exp x < f_exp y ∨ f_exp x = f_exp y ∧ f_man x < f_man y).
Definition f_eq (x y : f64) : Prop :=
  f_class x = f_class y ∧ f_exp x = f_exp y ∧ f_man x = f_man y.

Lemma fcompare_rank x y :
  is_nan x = false → is_nan y = false →
  match SFcompare x y with
  | Some Lt => f_lt x y | Some Eq => f_eq x y | Some Gt => f_lt y x | None => False
  end.
Proof.
  unfold f_lt, f_eq.
  destruct x as [sx|sx| |sx mx ex], y as [sy|sy| |sy my ey]; cbn; try done; intros _ _;
    destruct sx; try destruct sy; cbn; try lia.
  - destruct (Z.compare_spec ex ey); try lia. change (Pos.compare_cont Eq mx my) with (Pos.compare mx my).
    destruct (Pos.compare_spec mx my); cbn; subst; lia.
  - destruct (Z.compare_spec ex ey); try lia. change (Pos.compare_cont Eq mx my) with (Pos.compare mx my).
    destruct (Pos.compare_spec mx my); cbn; subst; lia.
Qed.

Lemma fltb_rank x y : is_nan x = false → is_nan y = false → fltb x y = true ↔ f_lt x y.
Proof.
  intros Hx Hy. pose proof (fcompare_rank x y Hx Hy) as H. unfold fltb, SFltb.
  destruct (SFcompare x y) as [[]|]; unfold f_lt, f_eq in *; split; try done; lia.
Qed.

Lemma feqb_rank x y : is_nan x = false → is_nan y = false → feqb x y = true ↔ f_eq x y.
Proof.
  intros Hx Hy. pose proof (fcompare_rank x y Hx Hy) as H. unfold feqb, SFeqb.
  destruct (SFcompare x y) as [[]|]; unfold f_lt, f_eq in *; split; try done; lia.
Qed.
