(* ===== verification/Json.v ===== *)
(** * JSON values

    The values [json.loads] produces.  Objects keep their members in order;
    a column that stores [json.dumps v] is modelled by [v] itself. *)

From S2P Require Import Prelude PyStr PyFloat.
Local Open Scope Z_scope.

Inductive json : Type :=
| JNull
| JBool (b : bool)
| JInt (z : Z)
| JFloat (f : f64)
| JStr (s : str)
| JList (l : list json)
| JObj (m : list (str * json)).

(** Python truth value. *)
Definition truthy (j : json) : bool :=
  match j with
  | JNull => false
  | JBool b => b
  | JInt z => negb (z =? 0)
  | JFloat f => ftruthy f
  | JStr s => match s with [] => false | _ => true end
  | JList l => match l with [] => false | _ => true end
  | JObj m => match m with [] => false | _ => true end
  end.

Fixpoint assoc_get {V} (k : str) (m : list (str * V)) : option V :=
  match m with
  | [] => None
  | (k', v) :: m' => if str_eqb k k' then Some v else assoc_get k m'
  end.

(** [d[k] = v] on a dict that keeps insertion order. *)
Fixpoint assoc_set {V} (k : str) (v : V) (m : list (str * V)) : list (str * V) :=
  match m with
  | [] => [(k, v)]
  | (k', v') :: m' => if str_eqb k k' then (k', v) :: m' else (k', v') :: assoc_set k v m'
  end.

Definition assoc_del {V} (k : str) (m : list (str * V)) : list (str * V) :=
  List.filter (λ kv, negb (str_eqb k (fst kv))) m.

Lemma assoc_get_set {V} k (v : V) m : assoc_get k (assoc_set k v m) = Some v.
Proof.
  induction m as [|[k' v'] m IH]; simpl; [by rewrite str_eqb_refl|].
  destruct (str_eqb k k') eqn:E; simpl; rewrite E; done.
Qed.

Lemma assoc_get_set_ne {V} k k' (v : V) m :
  k ≠ k' → assoc_get k (assoc_set k' v m) = assoc_get k m.
Proof.
  intros Hne. induction m as [|[k2 v2] m IH]; simpl.
  - destruct (str_eqb k k') eqn:E; bprop; done.
  - destruct (str_eqb k' k2) eqn:E; simpl.
    + apply str_eqb_eq in E as <-. destruct (str_eqb k k') eqn:E'; [bprop; done|done].
    + by rewrite IH.
Qed.

(** [keys] of an object and the effect of an update on them. *)
Lemma assoc_set_keys {V} k (v : V) m :
  is_Some (assoc_get k m) → map fst (assoc_set k v m) = map fst m.
Proof.
  induction m as [|[k' v'] m IH]; simpl; [intros []; done|].
  destruct (str_eqb k k') eqn:E; simpl; [done|]. intros H. by rewrite IH.
Qed.

Lemma assoc_get_In {V} k (m : list (str * V)) : is_Some (assoc_get k m) ↔ k ∈ map fst m.
Proof.
  induction m as [|[k' v'] m IH]; simpl; [split; [intros []; done|intros H; inversion H]|].
  rewrite elem_of_cons. destruct (str_eqb k k') eqn:E; bprop; naive_solver.
Qed.

Lemma assoc_get_elem {V} k v (m : list (str * V)) : assoc_get k m = Some v → (k, v) ∈ m.
Proof.
  induction m as [|[k' v'] m IH]; simpl; [done|]. destruct (str_eqb k k') eqn:E; bprop.
  - intros [= ->]. subst. left.
  - intros H. right. auto.
Qed.

(** Induction on JSON values through the nested lists. *)
Section json_induction.
Context (P : json → Prop).
Hypothesis Hnull : P JNull.
Hypothesis Hbool : ∀ b, P (JBool b).
Hypothesis Hint : ∀ z, P (JInt z).
Hypothesis Hfloat : ∀ f, P (JFloat f).
Hypothesis Hstr : ∀ s, P (JStr s).
Hypothesis Hlist : ∀ l, Forall P l → P (JList l).
Hypothesis Hobj : ∀ m, Forall (λ kv, P (snd kv)) m → P (JObj m).

Fixpoint json_nested_ind (j : json) : P j :=
  match j with
  | JNull => Hnull
  | JBool b => Hbool b
  | JInt z => Hint z
  | JFloat f => Hfloat f
  | JStr s => Hstr s
  | JList l => Hlist l ((fix go (l : list json) : Forall P l :=
      match l with
      | [] => List.Forall_nil _
      | x :: l' => List.Forall_cons _ _ _ (json_nested_ind x) (go l')
      end) l)
  | JObj m => Hobj m ((fix go (m : list (str * json)) : Forall (λ kv, P (snd kv)) m :=
      match m with
      | [] => List.Forall_nil _
      | kv :: m' => List.Forall_cons _ _ _ (json_nested_ind (snd kv)) (go m')
      end) m)
  end.
End json_induction.
