(* ===== verification/Sql.v ===== *)
(** * SQL tables

    A table is the list of its rows in rowid order.  [update_where p f] is
    [UPDATE .. SET f WHERE p], [countb p] its rowcount (and SELECT COUNT),
    [existsb p] EXISTS, [find_where p] a SELECT of the first matching row,
    [sort_by] ORDER BY, [take] LIMIT and [++ [r]] INSERT. *)

From S2P Require Import Prelude PyStr.
Local Open Scope Z_scope.

Section table.
Context {A : Type}.
Implicit Types (p q : A → bool) (f : A → A) (l : list A).

Definition update_where p f l : list A := map (λ r, if p r then f r else r) l.

Definition find_where p l : option A := List.find p l.

Lemma update_where_app p f l1 l2 :
  update_where p f (l1 ++ l2) = update_where p f l1 ++ update_where p f l2.
Proof. apply map_app. Qed.

Lemma update_where_length p f l : length (update_where p f l) = length l.
Proof. apply length_map. Qed.

Lemma update_where_elem p f l r :
  r ∈ update_where p f l ↔ ∃ r0, r0 ∈ l ∧ r = (if p r0 then f r0 else r0).
Proof.
  unfold update_where. rewrite list_elem_of_In, in_map_iff.
  setoid_rewrite list_elem_of_In. naive_solver.
Qed.

(** A column that [f] does not touch is unchanged by the update. *)
Lemma update_where_map {B} (col : A → B) p f l :
  (∀ r, col (f r) = col r) → map col (update_where p f l) = map col l.
Proof.
  intros H. unfold update_where. rewrite map_map. apply map_ext.
  intros r. destruct (p r); [apply H|done].
Qed.

Lemma update_where_omap {B} (col : A → option B) p f l :
  (∀ r, col (f r) = col r) → omap col (update_where p f l) = omap col l.
Proof.
  intros H. induction l as [|r l IH]; [done|].
  assert (col (if p r then f r else r) = col r) as E by (by destruct (p r)).
  simpl. rewrite E. destruct (col r); [f_equal|]; exact IH.
Qed.

Lemma update_where_filter (q : A → bool) p f l :
  (∀ r, q (if p r then f r else r) = q r) → List.filter q (update_where p f l) = update_where p f (List.filter q l).
Proof.
  intros H. unfold update_where. induction l as [|r l IH]; [done|]. simpl. rewrite H.
  destruct (q r); simpl; by rewrite IH.
Qed.

Lemma update_where_none p f l : existsb p l = false → update_where p f l = l.
Proof.
  induction l as [|r l IH]; simpl; [done|]. intros [Hr Hl]%Bool.orb_false_iff.
  by rewrite Hr, IH.
Qed.

Lemma update_where_ext p f g l :
  (∀ r, r ∈ l → p r = true → f r = g r) → update_where p f l = update_where p g l.
Proof.
  intros H. unfold update_where. apply map_ext_in. intros r Hr%list_elem_of_In.
  destruct (p r) eqn:E; auto.
Qed.

(** Counting after an update is counting the updated rows before it. *)
Lemma countb_update q p f l :
  countb q (update_where p f l) = countb (λ r, if p r then q (f r) else q r) l.
Proof.
  induction l as [|r l IH]; [done|]. simpl. rewrite !countb_cons, IH. by destruct (p r).
Qed.

Lemma countb_update_inv q p f l :
  (∀ r, r ∈ l → p r = true → q (f r) = q r) → countb q (update_where p f l) = countb q l.
Proof.
  intros H. rewrite countb_update. apply countb_ext. intros r Hr.
  destruct (p r) eqn:E; auto.
Qed.

(** Rows move from [q = false] to [q = true]: the count grows by the
    number of updated rows. *)
Lemma countb_update_gain q p f l :
  (∀ r, r ∈ l → p r = true → q r = false ∧ q (f r) = true) →
  countb q (update_where p f l) = countb q l + countb p l.
Proof.
  intros H. rewrite countb_update. induction l as [|r l IH]; [done|].
  rewrite !countb_cons, IH by (intros; apply H; [by right|done]).
  destruct (p r) eqn:E; [|lia]. destruct (H r ltac:(left) E) as [-> ->]. lia.
Qed.

Lemma countb_update_loss q p f l :
  (∀ r, r ∈ l → p r = true → q r = true ∧ q (f r) = false) →
  countb q (update_where p f l) = countb q l - countb p l.
Proof.
  intros H. rewrite countb_update. induction l as [|r l IH]; [done|].
  rewrite !countb_cons, IH by (intros; apply H; [by right|done]).
  destruct (p r) eqn:E; [|lia]. destruct (H r ltac:(left) E) as [-> ->]. lia.
Qed.

Lemma find_where_Some p l r : find_where p l = Some r → r ∈ l ∧ p r = true.
Proof. intros [H1 H2]%List.find_some. by rewrite list_elem_of_In. Qed.

Lemma find_where_None p l r : find_where p l = None → r ∈ l → p r = false.
Proof. intros H Hr. eapply List.find_none in H; [done|]. by apply list_elem_of_In. Qed.

Lemma existsb_elem p l : existsb p l = true ↔ ∃ r, r ∈ l ∧ p r = true.
Proof. rewrite existsb_exists. by setoid_rewrite list_elem_of_In. Qed.

Lemma existsb_none p l : existsb p l = false ↔ ∀ r, r ∈ l → p r = false.
Proof.
  split.
  - intros H r Hr. destruct (p r) eqn:E; [|done].
    assert (existsb p l = true) by (apply existsb_elem; eauto). congruence.
  - intros H. destruct (existsb p l) eqn:E; [|done].
    apply existsb_elem in E as (r & Hr & Hp). rewrite H in Hp; done.
Qed.

Lemma filter_elem p l r : r ∈ List.filter p l ↔ r ∈ l ∧ p r = true.
Proof. rewrite !list_elem_of_In. apply filter_In. Qed.
End table.

(** ** Tables with a primary key *)

Section keyed.
Context {A : Type} (key : A → str).
Implicit Types (p : A → bool) (f : A → A) (l : list A).

Definition by_key (k : str) : A → bool := λ r, str_eqb (key r) k.
Definition get_row (k : str) l : option A := find_where (by_key k) l.
Definition has_key (k : str) l : bool := existsb (by_key k) l.
Definition keys_unique l : Prop := NoDup (map key l).

Lemma get_row_Some k l r : get_row k l = Some r → r ∈ l ∧ key r = k.
Proof. intros [??]%find_where_Some. unfold by_key in *. by bprop. Qed.

Lemma get_row_None k l r : get_row k l = None → r ∈ l → key r ≠ k.
Proof. intros H Hr. apply (find_where_None _ _ _ H) in Hr. unfold by_key in *. by bprop. Qed.

Lemma keys_unique_inj l r1 r2 :
  keys_unique l → r1 ∈ l → r2 ∈ l → key r1 = key r2 → r1 = r2.
Proof.
  unfold keys_unique. induction l as [|r l IH]; simpl; [intros _ H; inversion H|].
  rewrite NoDup_cons, !elem_of_cons. intros [Hn Hd] [->|H1] [->|H2] E; auto.
  - exfalso. apply Hn. rewrite E. apply list_elem_of_In, in_map, list_elem_of_In, H2.
  - exfalso. apply Hn. rewrite <- E. apply list_elem_of_In, in_map, list_elem_of_In, H1.
Qed.

Lemma get_row_elem l r : keys_unique l → r ∈ l → get_row (key r) l = Some r.
Proof.
  intros Hu Hr. destruct (get_row (key r) l) as [r'|] eqn:E.
  - apply get_row_Some in E as [Hr' Hk]. f_equal. by eapply keys_unique_inj.
  - exfalso. by eapply get_row_None in E.
Qed.

Lemma keys_unique_update p f l :
  (∀ r, key (f r) = key r) → keys_unique l → keys_unique (update_where p f l).
Proof. intros H. unfold keys_unique. by rewrite update_where_map. Qed.

Lemma keys_unique_insert l r :
  has_key (key r) l = false → keys_unique l → keys_unique (l ++ [r]).
Proof.
  intros Hk Hu. unfold keys_unique in *. rewrite map_app. simpl.
  apply NoDup_app. split; [done|]. split; [|apply NoDup_singleton].
  intros k Hin Hk'%list_elem_of_singleton. subst k.
  apply list_elem_of_In, in_map_iff in Hin as (r' & E & Hin%list_elem_of_In).
  unfold has_key in Hk. apply (proj1 (existsb_none _ _) Hk) in Hin.
  unfold by_key in Hin. bprop. done.
Qed.

(** An update by primary key touches at most one row. *)
Lemma countb_key_le k p l :
  keys_unique l → countb (λ r, by_key k r && p r) l ≤ 1.
Proof.
  unfold keys_unique. induction l as [|r l IH]; [by rewrite countb_nil|]. simpl.
  rewrite NoDup_cons, countb_cons. intros [Hn Hd]. specialize (IH Hd).
  destruct (by_key k r && p r) eqn:E; [|lia].
  assert (countb (λ r0, by_key k r0 && p r0) l = 0); [|lia].
  apply countb_zero, existsb_none. intros r' Hr'. unfold by_key in *. bprop.
  destruct E as [E _]. left. intros E'. apply Hn. rewrite E, <- E'.
  apply list_elem_of_In, in_map, list_elem_of_In, Hr'.
Qed.

Lemma get_row_update k p f l :
  (∀ r, key (f r) = key r) →
  get_row k (update_where p f l) = (λ r, if p r then f r else r) <$> get_row k l.
Proof.
  intros H. unfold get_row, find_where, update_where, by_key.
  induction l as [|r l IH]; simpl; [done|].
  assert (key (if p r then f r else r) = key r) as -> by (destruct (p r); auto).
  destruct (str_eqb (key r) k); [done|apply IH].
Qed.

Lemma has_key_update k p f l :
  (∀ r, key (f r) = key r) → has_key k (update_where p f l) = has_key k l.
Proof.
  intros H. unfold has_key, update_where, by_key.
  induction l as [|r l IH]; simpl; [done|]. rewrite IH.
  by assert (key (if p r then f r else r) = key r) as -> by (destruct (p r); auto).
Qed.

Lemma get_row_app_fresh k l r :
  get_row k (l ++ [r]) =
  match get_row k l with Some x => Some x | None => if str_eqb (key r) k then Some r else None end.
Proof.
  unfold get_row, find_where. induction l as [|x l IH]; simpl; [done|].
  by destruct (by_key k x).
Qed.
End keyed.

(** Counting in a filtered table. *)
Lemma countb_filter {A} (p q : A → bool) l : countb p (List.filter q l) = countb (λ x, q x && p x) l.
Proof.
  induction l as [|x l IH]; [done|]. cbn [List.filter]. rewrite countb_cons, <- IH.
  destruct (q x); cbn [andb]; [by rewrite countb_cons|lia].
Qed.

Lemma countb_filter_le {A} (p q : A → bool) l : countb p (List.filter q l) ≤ countb p l.
Proof. rewrite countb_filter. apply countb_mono. intros x _. by destruct (q x). Qed.

(** Filters that keep every row, or none. *)
Lemma filter_keep {A} (p : A → bool) l : (∀ x, x ∈ l → p x = true) → List.filter p l = l.
Proof.
  induction l as [|x l IH]; simpl; [done|]. intros H. rewrite (H x) by left. f_equal. apply IH.
  intros y ?. apply H. by right.
Qed.

Lemma filter_drop {A} (p : A → bool) l : (∀ x, x ∈ l → p x = false) → List.filter p l = [].
Proof.
  induction l as [|x l IH]; simpl; [done|]. intros H. rewrite (H x) by left. apply IH.
  intros y ?. apply H. by right.
Qed.

Lemma NoDup_map_inj {A B} (f : A → B) l x y : NoDup (map f l) → x ∈ l → y ∈ l → f x = f y → x = y.
Proof.
  intros N (i & Hi)%list_elem_of_lookup (j & Hj)%list_elem_of_lookup E. assert (i = j) as ->; [|congruence].
  eapply (NoDup_lookup (map f l)); [done|rewrite list_lookup_fmap, Hi; done|rewrite list_lookup_fmap, Hj; simpl; congruence].
Qed.

Lemma NoDup_map_filter {A B} (f : A → B) p l : NoDup (map f l) → NoDup (map f (List.filter p l)).
Proof.
  induction l as [|x l IH]; cbn; [done|]. intros [Hx N]%NoDup_cons. destruct (p x); [|by apply IH]. cbn. apply NoDup_cons. split; [|by apply IH].
  intros (y & E & [Hy _]%filter_elem)%list_elem_of_fmap. apply Hx. rewrite E. by apply list_elem_of_fmap_2.
Qed.

Lemma filter_unique {A} (key : A → str) (p : A → bool) l : keys_unique key l → keys_unique key (List.filter p l).
Proof.
  unfold keys_unique. induction l as [|x l IH]; [done|]. cbn [map List.filter]. rewrite NoDup_cons.
  intros [Hn Hd]. destruct (p x); [|by apply IH]. cbn [map]. rewrite NoDup_cons. split; [|by apply IH].
  intros H. apply Hn. rewrite list_elem_of_In, in_map_iff in H |- *.
  destruct H as (y & E & Hy%filter_In). exists y. by destruct Hy.
Qed.
