(* ===== verification/Keyset.v ===== *)
(** * Keyset pagination

    The shape of the repository's cursors: a loop that reads one bounded page
    of rows behind the last key seen, in key order, until a page is empty or
    the requested number of rows was yielded.  [rows] is the filtered table,
    [ltk] the order of the keys and [k0] the initial key. *)

From S2P Require Import Prelude PyStr Sql.
Local Open Scope Z_scope.

Section keyset.
Context {A K : Type} (id : A → str) (key : A → K) (ltk : K → K → bool).

Definition klt (a b : A) : bool := ltk (key a) (key b).
Definition kle (a b : A) : bool := negb (klt b a).

(** LIMIT of one page: [min(500, remaining) if remaining is not None else 500] *)
Definition page_size (remaining : option Z) : nat :=
  match remaining with Some r => Z.to_nat (Z.min 500 r) | None => 500%nat end.

Definition exhausted (remaining : option Z) : bool :=
  match remaining with Some r => r <=? 0 | None => false end.

Definition key_page (rows : list A) (n : nat) (last : K) : list A :=
  take n (sort_by kle (List.filter (λ x, ltk last (key x)) rows)).

Fixpoint key_scan (fuel : nat) (rows : list A) (remaining : option Z) (last : K) : list A :=
  match fuel with
  | O => []
  | S fuel =>
      if exhausted remaining then []
      else match key_page rows (page_size remaining) last with
           | [] => []
           | x :: page =>
               (x :: page) ++ key_scan fuel rows ((λ r, r - Z.of_nat (length (x :: page))) <$> remaining)
                                (key (List.last (x :: page) x))
           end
  end.

(** [take] of an optional limit. *)
Definition limited (remaining : option Z) (l : list A) : list A :=
  match remaining with Some r => take (Z.to_nat r) l | None => l end.

(** One page, then the rest of the limit. *)
Lemma limited_split remaining n x l :
  page_size remaining = S n →
  (x :: take n l) ++ limited ((λ r, r - Z.of_nat (length (x :: take n l))) <$> remaining) (drop n l)
  = limited remaining (x :: l).
Proof.
  destruct remaining as [r|]; cbn [page_size limited fmap option_fmap option_map]; intros En.
  - replace (Z.to_nat r) with (S (Z.to_nat r - 1))%nat by lia. cbn [take app]. f_equal.
    cbn [length]. rewrite length_take.
    destruct (decide (length l ≤ n)%nat) as [Hl|Hl].
    + rewrite (drop_ge l n), take_nil, app_nil_r, !take_ge by lia. done.
    + rewrite take_take_drop. f_equal. lia.
  - cbn [app]. by rewrite take_drop.
Qed.

Context (klt_irrefl : ∀ a, klt a a = false).
Context (kle_trans : ∀ a b c, kle a b = true → kle b c = true → kle a c = true).
Context (kle_total : ∀ a b, kle a b = true ∨ kle b a = true).
Context (klt_strict : ∀ a b, kle a b = true → id a ≠ id b → klt a b = true).

Lemma sorted_app_le l1 l2 a b :
  StronglySorted (λ a b, kle a b = true) (l1 ++ l2) → a ∈ l1 → b ∈ l2 → kle a b = true.
Proof.
  induction l1 as [|x l1 IH]; simpl; intros Hs Ha Hb; [by apply not_elem_of_nil in Ha|].
  apply StronglySorted_inv in Hs as [Hs Hf]. apply elem_of_cons in Ha as [->|Ha]; [|by apply IH].
  rewrite Forall_forall in Hf. apply Hf, elem_of_app. by right.
Qed.

(** Behind the cursor row come exactly the rows that follow it. *)
Lemma filter_behind l1 x l2 :
  StronglySorted (λ a b, kle a b = true) (l1 ++ x :: l2) → keys_unique id (l1 ++ x :: l2) →
  List.filter (λ y, ltk (key x) (key y)) (l1 ++ x :: l2) = l2.
Proof.
  intros Hs Hu. rewrite List.filter_app. cbn [List.filter].
  pose proof (klt_irrefl x) as Hx. unfold klt in Hx. rewrite Hx.
  rewrite filter_drop, filter_keep; [done| |].
  - intros y Hy. change (klt x y = true). apply klt_strict.
    + assert (StronglySorted (λ a b, kle a b = true) ((l1 ++ [x]) ++ l2)) as Hs' by by rewrite <- app_assoc.
      apply (sorted_app_le _ _ _ _ Hs'); [apply elem_of_app; right; left|done].
    + intros E. unfold keys_unique in Hu. rewrite map_app in Hu. apply NoDup_app in Hu as (_ & _ & Hu).
      cbn [map] in Hu. apply NoDup_cons in Hu as [Hn _]. apply Hn. rewrite E.
      by apply (list_elem_of_fmap_2 id).
  - intros y Hy. change (klt x y = false). apply negb_true.
    apply (sorted_app_le _ _ _ _ Hs); [done|left].
Qed.

Context (rows : list A) (k0 : K).
Context (rows_unique : keys_unique id rows) (k0_first : ∀ x, x ∈ rows → ltk k0 (key x) = true).

Definition after_all (l : list A) : K := List.last (map key l) k0.

Lemma key_page_spec n l1 l2 :
  sort_by kle rows = l1 ++ l2 → key_page rows n (after_all l1) = take n l2.
Proof.
  intros E. unfold key_page. f_equal. rewrite sort_by_filter by done. rewrite E.
  assert (StronglySorted (λ a b, kle a b = true) (l1 ++ l2)) as Hs by (rewrite <- E; by apply sort_by_sorted).
  assert (keys_unique id (l1 ++ l2)) as Hu by (rewrite <- E; unfold keys_unique; by rewrite sort_by_perm).
  destruct l1 as [|x l1 _] using rev_ind.
  - apply filter_keep. intros x Hx. apply k0_first. rewrite <- (sort_by_elem kle), E. exact Hx.
  - unfold after_all. rewrite map_app. cbn [map]. rewrite last_last. rewrite <- app_assoc in *. by apply filter_behind.
Qed.

Lemma key_scan_from fuel remaining l1 l2 :
  sort_by kle rows = l1 ++ l2 → (length l2 < fuel)%nat →
  key_scan fuel rows remaining (after_all l1) = limited remaining l2.
Proof.
  revert remaining l1 l2. induction fuel as [|fuel IH]; intros remaining l1 l2 El Hn; [lia|].
  cbn [key_scan]. destruct (exhausted remaining) eqn:Ex.
  { destruct remaining as [r|]; [|done]. cbn in Ex. apply Z.leb_le in Ex. cbn.
    replace (Z.to_nat r) with 0%nat by lia. done. }
  rewrite (key_page_spec _ l1 l2 El).
  assert (0 < page_size remaining)%nat as Hpos.
  { destruct remaining as [r|]; cbn; [|lia]. cbn in Ex. apply Z.leb_gt in Ex. lia. }
  destruct l2 as [|x l2]; [rewrite take_nil; destruct remaining; cbn; by rewrite ?take_nil|].
  destruct (page_size remaining) as [|n] eqn:En; [lia|]. cbn [take].
  assert (l1 ++ x :: l2 = (l1 ++ x :: take n l2) ++ drop n l2) as Ea.
  { rewrite <- app_assoc. simpl. by rewrite take_drop. }
  assert (key (List.last (x :: take n l2) x) = after_all (l1 ++ x :: take n l2)) as ->.
  { destruct (exists_last (l := x :: take n l2)) as (l' & y & ->); [done|].
    rewrite last_last. unfold after_all. rewrite app_assoc, map_app. cbn [map]. by rewrite last_last. }
  rewrite (IH _ _ (drop n l2)); [|by rewrite El|rewrite length_drop; cbn in Hn; lia].
  apply limited_split. exact En.
Qed.

(** The scan yields the rows once each in key order, up to the limit; one
    turn per row and a last one are enough. *)
Lemma key_scan_spec fuel remaining :
  (length rows < fuel)%nat → key_scan fuel rows remaining k0 = limited remaining (sort_by kle rows).
Proof.
  intros Hf. apply (key_scan_from fuel remaining []); [done|]. by rewrite sort_by_length.
Qed.
End keyset.
