(* ===== verification/Sha256.v ===== *)
(** * SHA-256

    [hashlib.sha256(text.encode("utf-8")).hexdigest()], executable: the
    queue stores it as the identity of an open error.  Words are 32-bit
    integers kept in [Z] with the wrap-around written out.  The NIST test
    vectors are checked by evaluation. *)

From S2P Require Import Prelude PyStr.
Local Open Scope Z_scope.

Definition utf8_encode1 (c : Z) : list Z :=
  if c <? 128 then [c]
  else if c <? 2048 then [192 + c / 64; 128 + c mod 64]
  else if c <? 65536 then [224 + c / 4096; 128 + (c / 64) mod 64; 128 + c mod 64]
  else [240 + c / 262144; 128 + (c / 4096) mod 64; 128 + (c / 64) mod 64; 128 + c mod 64].

Definition utf8_encode (s : str) : list Z := concat (map utf8_encode1 s).

Definition w32 (z : Z) : Z := z mod 4294967296.
Definition rotr (n x : Z) : Z := Z.lor (Z.shiftr x n) (w32 (Z.shiftl x (32 - n))).
Definition not32 (x : Z) : Z := 4294967295 - x.

(** ** The constants

    FIPS 180-4 takes them from the first primes: the first 32 bits of the
    fractional parts of their cube roots (rounds) and square roots (initial
    hash), computed here as integer roots. *)

Definition is_prime (n : Z) : bool :=
  forallb (λ d, negb (n mod Z.of_nat d =? 0)) (seq 2 (Z.to_nat (Z.sqrt n) - 1)).

Definition primes (count : nat) : list Z :=
  take count (List.filter is_prime (map Z.of_nat (seq 2 310))).

(** Integer cube root by bisection of [lo, lo + 2^bits). *)
Fixpoint cube_root (bits : nat) (n lo : Z) : Z :=
  match bits with
  | O => lo
  | S b => let mid := lo + 2 ^ Z.of_nat b in cube_root b n (if mid * mid * mid <=? n then mid else lo)
  end.

Definition k256 : list Z :=
  Eval vm_compute in map (λ p, w32 (cube_root 40 (p * 2 ^ 96) 0)) (primes 64).

Definition h256 : list Z :=
  Eval vm_compute in map (λ p, w32 (Z.sqrt (p * 2 ^ 64))) (primes 8).

Fixpoint be_bytes (n : nat) (z : Z) : list Z :=
  match n with O => [] | S n' => be_bytes n' (z / 256) ++ [z mod 256] end.

Definition pad256 (m : list Z) : list Z :=
  let l := Z.of_nat (length m) in
  m ++ 128 :: replicate (Z.to_nat ((55 - l) mod 64)) 0 ++ be_bytes 8 (8 * l).

Fixpoint words_of (l : list Z) : list Z :=
  match l with
  | a :: b :: c :: d :: l' => (a * 16777216 + b * 65536 + c * 256 + d) :: words_of l'
  | _ => []
  end.

(** The message schedule, most recent word first. *)
Definition sched_step (w : list Z) : list Z :=
  let x n := nth n w 0 in
  let s0 := Z.lxor (Z.lxor (rotr 7 (x 14%nat)) (rotr 18 (x 14%nat))) (Z.shiftr (x 14%nat) 3) in
  let s1 := Z.lxor (Z.lxor (rotr 17 (x 1%nat)) (rotr 19 (x 1%nat))) (Z.shiftr (x 1%nat) 10) in
  w32 (x 15%nat + s0 + x 6%nat + s1) :: w.

Definition schedule (block : list Z) : list Z := rev (Nat.iter 48 sched_step (rev block)).

Definition round256 (s : list Z) (kw : Z * Z) : list Z :=
  match s with
  | [a; b; c; d; e; f; g; h] =>
      let s1 := Z.lxor (Z.lxor (rotr 6 e) (rotr 11 e)) (rotr 25 e) in
      let ch := Z.lxor (Z.land e f) (Z.land (not32 e) g) in
      let t1 := h + s1 + ch + kw.1 + kw.2 in
      let s0 := Z.lxor (Z.lxor (rotr 2 a) (rotr 13 a)) (rotr 22 a) in
      let maj := Z.lxor (Z.lxor (Z.land a b) (Z.land a c)) (Z.land b c) in
      [w32 (t1 + s0 + maj); a; b; c; w32 (d + t1); e; f; g]
  | _ => s
  end.

Definition compress (h block : list Z) : list Z :=
  zip_with (λ a b, w32 (a + b)) h (fold_left round256 (zip k256 (schedule block)) h).

Fixpoint blocks (fuel : nat) (w : list Z) (h : list Z) : list Z :=
  match fuel, w with
  | S n, _ :: _ => blocks n (drop 16 w) (compress h (take 16 w))
  | _, _ => h
  end.

Definition hex_digit (n : Z) : Z := if n <? 10 then 48 + n else 87 + n.
Definition hex_word (w : Z) : str :=
  concat (map (λ b, [hex_digit (b / 16); hex_digit (b mod 16)]) (be_bytes 4 w)).

Definition sha256_hex (s : str) : str :=
  let w := words_of (pad256 (utf8_encode s)) in
  concat (map hex_word (blocks (length w) w h256)).
Arguments sha256_hex : simpl never.

Example sha256_empty :
  sha256_hex [] = u "e3b0c44298fc1c149afbf4c8996fb92427ae41e4649b934ca495991b7852b855".
Proof. vm_compute. reflexivity. Qed.

Example sha256_abc :
  sha256_hex (u "abc") = u "ba7816bf8f01cfea414140de5dae2223b00361a396177a9cb410ff61f20015ad".
Proof. vm_compute. reflexivity. Qed.

Example sha256_two_blocks :
  sha256_hex (u "abcdbcdecdefdefgefghfghighijhijkijkljklmklmnlmnomnopnopq")
  = u "248d6a61d20638b8e5c026930c3e6039a33ce45964ff2167f6ecedd419db06c1".
Proof. vm_compute. reflexivity. Qed.
