(* ===== verification/FailurePolicy.v ===== *)
(** * Failure classes of queued work

    Models [inktime/app/domain/jobs/failure_policy.py] and
    [inktime/app/domain/jobs/settings.py]: the stable code of a failure, its
    class (terminal, retryable, stale recovery) and the bounds on a job's
    worker settings. *)

From S2P Require Import Prelude PyStr Json.
Local Open Scope Z_scope.

Inductive FailureClass : Type := TERMINAL_NO_RETRY | RETRYABLE | STALE_RECOVERY.

#[export] Instance FailureClass_eq_dec : EqDecision FailureClass.
Proof. solve_decision. Defined.

Definition TERMINAL_NO_RETRY_CODES : list str :=
  map u ["NO_PHOTOS"; "NO_CONTENT"; "NO_ELIGIBLE_CANDIDATES"; "CONFIG_INVALID"; "AUTH_REQUIRED";
         "API_CREDIT_EXHAUSTED"; "ANALYSIS_DISABLED"; "UNSUPPORTED_CONFIGURATION";
         "ANALYSIS-DISABLED"; "VLM-008"; "VLM-004"; "VLM-006"; "VLM-AMBIGUOUS";
         "VLM-UNRECONCILED"; "VLM-INCOMPLETE"; "JOB-SHUTDOWN-AMBIGUOUS"; "JOB-LOCAL-TIMEOUT";
         "JOB-LOCAL-FAILED"; "JOB-SOURCE-MISSING"; "IMG-MISSING"; "IMG-UNSUPPORTED";
         "IMG-CORRUPT"; "IMG-HEIF-UNAVAILABLE"; "IMG-FILE-LIMIT"; "THUMB-004"; "THUMB-005"]%string.

Definition RETRYABLE_CODES : list str :=
  map u ["TRANSIENT"; "TEMPORARY_IO_ERROR"; "PROVIDER_TIMEOUT"; "AI-PROVIDER-TIMEOUT";
         "AI-PROVIDER-UNAVAILABLE"; "JOB-SHUTDOWN-CANCELLED"; "JOB-003"; "JOB-004";
         "DISPLAY-005"]%string.

Definition STALE_RECOVERY_CODES : list str :=
  map u ["STALE_RECOVERY"; "LEASE_EXPIRED"; "WORKER_CRASH"]%string.

(** What [failure_code] and [classify_failure] inspect of the object they are
    given: a plain string, or an exception with its optional [code] and
    [failure_class] attributes and whether it is a [FileNotFoundError]. *)
Inductive failure : Type :=
| FStr (s : str)
| FExc (code : option str) (cls : option FailureClass) (file_not_found : bool).

(** The exception classes of the module. *)
Definition JobFailure (code : option str) : failure :=
  FExc (Some (if opt_truthy code then str_or code [] else u "JOB-003")) (Some RETRYABLE) false.
Definition JobShutdownAmbiguousError : failure :=
  FExc (Some (u "JOB-SHUTDOWN-AMBIGUOUS")) (Some TERMINAL_NO_RETRY) false.
Definition JobConfigurationError : failure :=
  FExc (Some (u "CONFIG_INVALID")) (Some TERMINAL_NO_RETRY) false.
Definition NoContentError : failure :=
  FExc (Some (u "NO_CONTENT")) (Some TERMINAL_NO_RETRY) false.
Definition NoEligibleCandidatesError : failure :=
  FExc (Some (u "NO_ELIGIBLE_CANDIDATES")) (Some TERMINAL_NO_RETRY) false.

Definition failure_code (value : failure) : str :=
  let code :=
    match value with
    | FStr s => Some s
    | FExc (Some c) _ _ => Some c
    | FExc None _ true => Some (u "JOB-SOURCE-MISSING")
    | FExc None _ false => None
    end in
  let normalized := strip (str_or code (u "JOB-003")) in
  str_or (Some (take 128 normalized)) (u "JOB-003").

Definition classify_failure (value : failure) : FailureClass :=
  match value with
  | FExc _ (Some explicit) _ => explicit
  | _ =>
      let code := failure_code value in
      if str_in code TERMINAL_NO_RETRY_CODES then TERMINAL_NO_RETRY
      else if str_in code STALE_RECOVERY_CODES then STALE_RECOVERY
      else if str_in code RETRYABLE_CODES then RETRYABLE
      else RETRYABLE
  end.

(** Classify the failed items of a finished job: one retryable code makes the
    whole job retryable. *)
Definition classify_codes (codes : list failure) : FailureClass :=
  let normalized :=
    List.filter (λ c, negb (str_eqb c [])) (map failure_code codes) in
  match normalized with
  | [] => RETRYABLE
  | _ =>
      let classes := map (λ c, classify_failure (FStr c)) normalized in
      if bool_decide (RETRYABLE ∈ classes) then RETRYABLE
      else if bool_decide (STALE_RECOVERY ∈ classes) then STALE_RECOVERY
      else TERMINAL_NO_RETRY
  end.

(** ** Worker settings *)

Definition worker_bounds : list (str * (Z * Z)) :=
  [(u "concurrency", (1, 8)); (u "max_attempts", (1, 11)); (u "max_retries", (0, 10));
   (u "retry_interval_seconds", (1, 86400)); (u "timeout_seconds", (0, 86400))].

(** One turn of the loop over [bounds]. *)
Definition setting_ok (settings : list (str * json)) (bound : str * (Z * Z)) : bool :=
  match assoc_get bound.1 settings with
  | None => true
  | Some number =>
      match number with
      | JNull => str_eqb bound.1 (u "retry_interval_seconds")
      | JInt n => (bound.2.1 <=? n) && (n <=? bound.2.2)
      | _ => false
      end
  end.

Definition validate_worker_settings (value : json) : result str (list (str * json)) :=
  match value with
  | JObj settings =>
      if forallb (setting_ok settings) worker_bounds then Ok settings else Raise (u "JOB-001")
  | _ => Raise (u "JOB-001")
  end.

(** ** Properties *)

Lemma strip_u_job003 : strip (u "JOB-003") = u "JOB-003".
Proof. vm_compute. reflexivity. Qed.

Lemma str_or_nonempty s d : d ≠ [] → str_or s d ≠ [].
Proof. destruct s as [[|]|]; simpl; congruence. Qed.

Lemma failure_code_nonempty v : failure_code v ≠ [].
Proof. apply str_or_nonempty. by vm_compute. Qed.

Lemma failure_code_length v : (length (failure_code v) ≤ 128)%nat.
Proof.
  unfold failure_code. set (n := strip _).
  destruct (take 128 n) as [|c l] eqn:E; [vm_compute; lia|].
  assert (length (take 128 n) ≤ 128)%nat by (rewrite length_take; lia).
  rewrite E in H. exact H.
Qed.

(** A code that is already trimmed and short is its own stable code. *)
Lemma failure_code_stable s :
  strip s = s → s ≠ [] → (length s ≤ 128)%nat → failure_code (FStr s) = s.
Proof.
  intros Hs Hne Hl. unfold failure_code.
  assert (str_or (Some s) (u "JOB-003") = s) as -> by (destruct s; done).
  rewrite Hs, take_ge by lia. destruct s; done.
Qed.

Lemma codes_normalized codes :
  List.filter (λ c, negb (str_eqb c [])) (map failure_code codes) = map failure_code codes.
Proof.
  induction codes as [|c codes IH]; simpl; [done|].
  assert (str_eqb (failure_code c) [] = false) as -> by (bprop; apply failure_code_nonempty).
  simpl. by rewrite IH.
Qed.

Lemma classify_str_range c :
  classify_failure (FStr c) = TERMINAL_NO_RETRY ↔ failure_code (FStr c) ∈ TERMINAL_NO_RETRY_CODES.
Proof.
  unfold classify_failure. destruct (str_in _ TERMINAL_NO_RETRY_CODES) eqn:E; bprop; [done|].
  split; [|done]. repeat case_match; done.
Qed.

(** A finished job is terminal for the scheduler exactly when it recorded
    at least one failure code and every recorded code belongs to the explicit
    terminal set; any unknown or retryable code keeps the job retryable. *)
Theorem classify_codes_terminal codes :
  classify_codes codes = TERMINAL_NO_RETRY ↔
  codes ≠ [] ∧
  Forall (λ v, failure_code (FStr (failure_code v)) ∈ TERMINAL_NO_RETRY_CODES) codes.
Proof.
  unfold classify_codes. rewrite codes_normalized.
  destruct codes as [|c codes]; [naive_solver|].
  set (cs := c :: codes). assert (map failure_code cs ≠ []) by done.
  destruct (map failure_code cs) as [|x xs] eqn:E; [done|]. rewrite <- E. rewrite map_map.
  assert (Hall : Forall (λ v, failure_code (FStr (failure_code v)) ∈ TERMINAL_NO_RETRY_CODES) cs ↔
    ∀ k, k ∈ map (λ v, classify_failure (FStr (failure_code v))) cs → k = TERMINAL_NO_RETRY).
  { rewrite Forall_forall. setoid_rewrite <- classify_str_range. split.
    - intros Hf k (v & <- & Hv%list_elem_of_In)%list_elem_of_In%in_map_iff. by apply Hf.
    - intros Hf v Hv. apply Hf, list_elem_of_In. apply (in_map (λ v, classify_failure (FStr (failure_code v)))).
      by apply list_elem_of_In. }
  rewrite Hall. split.
  - intros Hc. split; [done|]. intros k Hk. repeat case_bool_decide; try done.
    destruct k; done.
  - intros [_ Hk]. rewrite !bool_decide_eq_false_2; [done|..]; by intros Hin%Hk.
Qed.

(** Worker settings are accepted, unchanged, exactly when every bounded
    knob that is present is a JSON integer within its documented range
    (a null retry interval stands for the default backoff). *)
Theorem validate_worker_settings_spec m out :
  validate_worker_settings (JObj m) = Ok out ↔
  out = m ∧
  ∀ k lo hi, (k, (lo, hi)) ∈ worker_bounds →
    match assoc_get k m with
    | None => True
    | Some (JInt n) => lo ≤ n ≤ hi
    | Some JNull => k = u "retry_interval_seconds"
    | Some _ => False
    end.
Proof.
  unfold validate_worker_settings. destruct (forallb (setting_ok m) worker_bounds) eqn:E.
  - rewrite forallb_forall in E. split; [|by intros [-> _]]. intros [= <-]. split; [done|].
    intros k lo hi Hin%list_elem_of_In%E. unfold setting_ok in Hin. simpl in Hin.
    destruct (assoc_get k m) as [[]|]; bprop; try done.
  - split; [done|]. intros [-> H]. exfalso.
    assert (forallb (setting_ok m) worker_bounds = true); [|congruence].
    apply forallb_forall. intros [k [lo hi]] Hin%list_elem_of_In%H. unfold setting_ok. simpl.
    destruct (assoc_get k m) as [[]|]; bprop; done.
Qed.

(** The class of an exception object wins over its code: a [JobFailure]
    raised with a code of the terminal set is still retried. *)
Theorem job_failure_code_does_not_decide c :
  c ∈ TERMINAL_NO_RETRY_CODES →
  failure_code (JobFailure (Some c)) = c ∧
  classify_failure (FStr c) = TERMINAL_NO_RETRY ∧
  classify_failure (JobFailure (Some c)) = RETRYABLE.
Proof.
  intros Hc.
  assert (H : forallb (λ c, str_eqb (failure_code (JobFailure (Some c))) c
                            && str_eqb (failure_code (FStr c)) c) TERMINAL_NO_RETRY_CODES = true)
    by (vm_compute; reflexivity).
  rewrite forallb_forall in H. pose proof (H c (proj1 (list_elem_of_In _ _) Hc)) as Hb.
  bprop. destruct Hb as [Hb1 Hb2]. split; [done|]. split; [|done].
  apply classify_str_range. by rewrite Hb2.
Qed.

Lemma job_failure_code_does_not_decide_witness :
  u "NO_CONTENT" ∈ TERMINAL_NO_RETRY_CODES ∧
  classify_failure (JobFailure (Some (u "NO_CONTENT"))) = RETRYABLE.
Proof.
  assert (H : u "NO_CONTENT" ∈ TERMINAL_NO_RETRY_CODES) by (apply str_in_elem; vm_compute; reflexivity).
  split; [exact H|].
  destruct (job_failure_code_does_not_decide (u "NO_CONTENT") H) as (_ & _ & E). exact E.
Defined.
