(* ===== verification/Store.v ===== *)
(** * The queue's tables

    The rows the job queue reads and writes, with the columns of
    [inktime/app/db/migrations.py] it touches: [jobs], [job_items],
    [job_events], [job_errors], and what its queries read of [photos],
    [photo_analysis], [analysis_batches], [analysis_batch_items], [settings]
    and the backfill controls.  Instants are microseconds in [Z]: the code
    compares ISO-8601 UTC strings, whose text order is the chronological one.
    A JSON column holds the decoded value, [None] when its text is malformed. *)

From S2P Require Import Prelude PyStr PyFloat Json.
Local Open Scope Z_scope.

Inductive job_status : Type :=
| JPending | JPreparing | JRunning | JPausing | JPaused | JRetrying
| JCompleted | JCompletedWithErrors | JFailed | JCancelled | JBudgetExceeded.

#[export] Instance job_status_eq_dec : EqDecision job_status.
Proof. solve_decision. Defined.

Inductive item_status : Type :=
| IPending | IRunning | IRetrying | ICompleted | IFailed | ICancelled.

#[export] Instance item_status_eq_dec : EqDecision item_status.
Proof. solve_decision. Defined.

(** The text of a status, as the column stores it. *)
Definition status_text (s : job_status) : str :=
  u match s with
    | JPending => "pending" | JPreparing => "preparing" | JRunning => "running"
    | JPausing => "pausing" | JPaused => "paused" | JRetrying => "retrying"
    | JCompleted => "completed" | JCompletedWithErrors => "completed_with_errors"
    | JFailed => "failed" | JCancelled => "cancelled" | JBudgetExceeded => "budget_exceeded"
    end.

Definition jstatus_in (l : list job_status) (s : job_status) : bool := bool_decide (s ∈ l).
Definition istatus_in (l : list item_status) (s : item_status) : bool := bool_decide (s ∈ l).

(** ['pending','preparing','running','pausing','retrying'], the statuses the
    partial unique index [idx_jobs_active_dedupe] and the capacity counts use. *)
Definition in_flight : list job_status := [JPending; JPreparing; JRunning; JPausing; JRetrying].
Definition TERMINAL_STATUSES : list job_status :=
  [JCompleted; JCompletedWithErrors; JFailed; JCancelled].
Definition runnable : list job_status := [JRunning; JRetrying].
Definition item_terminal : list item_status := [ICompleted; IFailed; ICancelled].
Definition item_active : list item_status := [IPending; IRunning; IRetrying].

Record job := mk_job {
  j_id : str; j_kind : str; j_name : str; j_status : job_status; j_strategy : str;
  j_settings : option json; j_budget_limit : option f64; j_spent : f64;
  j_total_items : Z; j_completed_items : Z; j_failed_items : Z;
  j_created_by : option str; j_created_at : Z; j_completed_at : option Z;
  j_heartbeat_at : option Z; j_pause_requested_at : option Z; j_cancel_requested_at : option Z;
  j_priority : Z; j_dedupe_key : option str; j_selection_mode : str;
  j_analysis_fingerprint : option str; j_analysis_spec : option json;
  j_force_recompute : bool; j_request_fingerprint : option str }.

Definition job_eta (j : job) : job :=
  mk_job (j_id j) (j_kind j) (j_name j) (j_status j) (j_strategy j) (j_settings j)
    (j_budget_limit j) (j_spent j) (j_total_items j) (j_completed_items j) (j_failed_items j)
    (j_created_by j) (j_created_at j) (j_completed_at j) (j_heartbeat_at j)
    (j_pause_requested_at j) (j_cancel_requested_at j) (j_priority j) (j_dedupe_key j)
    (j_selection_mode j) (j_analysis_fingerprint j) (j_analysis_spec j) (j_force_recompute j)
    (j_request_fingerprint j).

#[export] Instance set_j_status : Settable j_status := ltac:(derive_setter job_eta j_status).
#[export] Instance set_j_spent : Settable j_spent := ltac:(derive_setter job_eta j_spent).
#[export] Instance set_j_total : Settable j_total_items := ltac:(derive_setter job_eta j_total_items).
#[export] Instance set_j_completed : Settable j_completed_items :=
  ltac:(derive_setter job_eta j_completed_items).
#[export] Instance set_j_failed : Settable j_failed_items := ltac:(derive_setter job_eta j_failed_items).
#[export] Instance set_j_completed_at : Settable j_completed_at :=
  ltac:(derive_setter job_eta j_completed_at).
#[export] Instance set_j_heartbeat : Settable j_heartbeat_at := ltac:(derive_setter job_eta j_heartbeat_at).
#[export] Instance set_j_pause : Settable j_pause_requested_at :=
  ltac:(derive_setter job_eta j_pause_requested_at).
#[export] Instance set_j_cancel : Settable j_cancel_requested_at :=
  ltac:(derive_setter job_eta j_cancel_requested_at).
#[export] Instance set_j_fingerprint : Settable j_request_fingerprint :=
  ltac:(derive_setter job_eta j_request_fingerprint).

Record item := mk_item {
  i_id : str; i_job : str; i_photo : option str; i_status : item_status; i_stage : str;
  i_attempts : Z; i_available_at : Z; i_worker : option str; i_started_at : option Z;
  i_completed_at : option Z; i_error_code : option str; i_result : option json;
  i_lease_until : option Z; i_estimated_cost : f64; i_dead_lettered_at : option Z;
  i_idempotency_key : option str; i_completion_state : str }.

Definition item_eta (i : item) : item :=
  mk_item (i_id i) (i_job i) (i_photo i) (i_status i) (i_stage i) (i_attempts i)
    (i_available_at i) (i_worker i) (i_started_at i) (i_completed_at i) (i_error_code i)
    (i_result i) (i_lease_until i) (i_estimated_cost i) (i_dead_lettered_at i)
    (i_idempotency_key i) (i_completion_state i).

#[export] Instance set_i_status : Settable i_status := ltac:(derive_setter item_eta i_status).
#[export] Instance set_i_stage : Settable i_stage := ltac:(derive_setter item_eta i_stage).
#[export] Instance set_i_attempts : Settable i_attempts := ltac:(derive_setter item_eta i_attempts).
#[export] Instance set_i_available : Settable i_available_at := ltac:(derive_setter item_eta i_available_at).
#[export] Instance set_i_worker : Settable i_worker := ltac:(derive_setter item_eta i_worker).
#[export] Instance set_i_started : Settable i_started_at := ltac:(derive_setter item_eta i_started_at).
#[export] Instance set_i_completed : Settable i_completed_at := ltac:(derive_setter item_eta i_completed_at).
#[export] Instance set_i_error : Settable i_error_code := ltac:(derive_setter item_eta i_error_code).
#[export] Instance set_i_result : Settable i_result := ltac:(derive_setter item_eta i_result).
#[export] Instance set_i_lease : Settable i_lease_until := ltac:(derive_setter item_eta i_lease_until).
#[export] Instance set_i_cost : Settable i_estimated_cost := ltac:(derive_setter item_eta i_estimated_cost).
#[export] Instance set_i_dead : Settable i_dead_lettered_at :=
  ltac:(derive_setter item_eta i_dead_lettered_at).
#[export] Instance set_i_key : Settable i_idempotency_key :=
  ltac:(derive_setter item_eta i_idempotency_key).
#[export] Instance set_i_state : Settable i_completion_state :=
  ltac:(derive_setter item_eta i_completion_state).

Record event := mk_event {
  ev_job : str; ev_event : str; ev_message : str; ev_details : json; ev_created_at : Z }.

Record job_error := mk_error {
  er_id : Z; er_job : str; er_item : option str; er_photo : option str; er_component : str;
  er_code : str; er_fingerprint : str; er_severity : str; er_message : str;
  er_occurrences : Z; er_first_seen : Z; er_last_seen : Z; er_resolved_at : option Z }.

Record photo := mk_photo {
  p_id : str; p_sha256 : option str; p_lifecycle : str; p_status : str; p_eligible : bool;
  p_local_features : str; p_screenshot : option f64; p_candidate_score : option f64;
  p_captured_at : option str; p_created_at : str }.

Record batch := mk_batch {
  b_id : str; b_status : str; b_abandon_confirmed_at : option Z; b_last_error_code : option str;
  b_reconciliation_error_code : option str; b_remote_status : option str;
  b_remote_batch_id : option str; b_submitted_at : option Z }.

Record batch_item := mk_batch_item {
  bi_id : str; bi_batch : str; bi_photo : option str; bi_sha256 : str; bi_status : str;
  bi_raw_response : option json; bi_request_id : option str }.

Record backfill_task := mk_task { t_id : Z; t_job : str; t_photo : str }.

Record db := mk_db {
  jobs : list job; items : list item; events : list event; errors : list job_error;
  photos : list photo; analyses : list (str * option str); (* photo_analysis: photo_id, fingerprint *)
  batches : list batch; batch_items : list batch_item;
  settings : list (str * str);                       (* key, value_json text *)
  backfill_enabled : bool; backfill_pause_reason : option str;
  openai_pause_kind : option str; backfill_tasks : list backfill_task;
  usage_jobs : list str;                             (* job_id of api_usage *)
  archived_usage_jobs : list str }.                  (* job_id of usage_cost_archive *)

Definition db_eta (d : db) : db :=
  mk_db (jobs d) (items d) (events d) (errors d) (photos d) (analyses d) (batches d)
    (batch_items d) (settings d) (backfill_enabled d) (backfill_pause_reason d)
    (openai_pause_kind d) (backfill_tasks d) (usage_jobs d) (archived_usage_jobs d).

#[export] Instance set_jobs : Settable jobs := ltac:(derive_setter db_eta jobs).
#[export] Instance set_items : Settable items := ltac:(derive_setter db_eta items).
#[export] Instance set_events : Settable events := ltac:(derive_setter db_eta events).
#[export] Instance set_errors : Settable errors := ltac:(derive_setter db_eta errors).
#[export] Instance set_openai_pause : Settable openai_pause_kind :=
  ltac:(derive_setter db_eta openai_pause_kind).

(** The columns of one row that an UPDATE leaves alone are read through it. *)
Lemma jstatus_in_spec l s : jstatus_in l s = true ↔ s ∈ l.
Proof. unfold jstatus_in. by rewrite bool_decide_eq_true. Qed.
Lemma jstatus_in_false l s : jstatus_in l s = false ↔ s ∉ l.
Proof. unfold jstatus_in. by rewrite bool_decide_eq_false. Qed.
Lemma istatus_in_spec l s : istatus_in l s = true ↔ s ∈ l.
Proof. unfold istatus_in. by rewrite bool_decide_eq_true. Qed.
Lemma istatus_in_false l s : istatus_in l s = false ↔ s ∉ l.
Proof. unfold istatus_in. by rewrite bool_decide_eq_false. Qed.
