(* ===== verification/Reservations.v ===== *)
(** * Analysis reservations

    Models [inktime/app/repositories/analysis_reservations.py]: the shared
    predicate that says which photo content already has queued or billed
    analysis work, evaluated over the queue's tables. *)

From S2P Require Import Prelude PyStr Json Sql Store.
Local Open Scope Z_scope.

(** [ACTIVE_BATCH_STATUSES] of repositories/analysis_batches.py *)
Definition ACTIVE_BATCH_STATUSES : list str :=
  map u ["preparing"; "uploading"; "upload_unknown"; "uploaded"; "submitting";
         "submission_unknown"; "validating"; "in_progress"; "finalizing"; "import_pending";
         "importing"; "cancelling"; "cleanup_pending"]%string.

(** [COALESCE(c,'')] *)
Definition coalesce (c : option str) : str := match c with Some s => s | None => [] end.

Definition is_null {A} (c : option A) : bool := match c with Some _ => false | None => true end.

Definition unknown_codes : list str :=
  map u ["BATCH-SUBMISSION-UNKNOWN"; "BATCH-UPLOAD-UNKNOWN"; "submission_unknown";
         "upload_unknown"; "submission_persist_unknown"]%string.

Definition held_batch (b : batch) : bool :=
  str_in (b_status b) ACTIVE_BATCH_STATUSES
  || (is_null (b_abandon_confirmed_at b)
      && (str_in (coalesce (b_last_error_code b)) unknown_codes
          || str_in (coalesce (b_reconciliation_error_code b)) unknown_codes
          || str_in (coalesce (b_remote_status b)) (map u ["submission_unknown"; "upload_unknown"]%string)
          || (negb (is_null (b_remote_batch_id b))
              && negb (str_in (coalesce (b_remote_status b))
                         (map u ["completed"; "failed"; "expired"; "cancelled"]%string))))).

Definition paid_batch_item (i : batch_item) (b : batch) : bool :=
  negb (is_null (b_remote_batch_id b))
  || (negb (is_null (b_submitted_at b)) && is_null (b_abandon_confirmed_at b)
      && negb (str_in (coalesce (b_remote_status b))
                 (map u ["failed"; "expired"; "cancelled"; "abandoned"]%string)))
  || negb (is_null (bi_raw_response i)) || negb (is_null (bi_request_id i))
  || str_in (bi_status i) (map u ["success"; "imported"]%string).

Definition valid_batch_retry (i : batch_item) (b : batch) : bool :=
  str_in (bi_status i) (map u ["failed"; "missing"; "retry_pending"; "schema_invalid";
                               "duplicate_custom_id"; "unexpected_custom_id"]%string)
  && str_in (b_status b) (map u ["completed"; "completed_with_errors"; "failed"; "expired";
                                 "cancelled"]%string)
  && str_in (coalesce (b_remote_status b)) (map u ["completed"; "failed"; "expired"; "cancelled"]%string)
  && negb (held_batch b).

(** The statuses of a job whose unfinished items keep their reservation. *)
Definition reserving_statuses : list job_status :=
  [JPending; JPreparing; JRunning; JPausing; JRetrying; JPaused; JBudgetExceeded].

(** [COALESCE(p.sha256,'')<>'' AND x=p.sha256] *)
Definition same_sha (p : photo) (x : option str) : bool :=
  opt_truthy (p_sha256 p) && match x with Some s => str_eqb s (coalesce (p_sha256 p)) | None => false end.

(** The photos whose queue items count against [p]. *)
Definition same_content (p rp : photo) : bool :=
  str_eqb (p_id rp) (p_id p) || same_sha p (p_sha256 rp).

(** JOIN of a batch item with its batch *)
Definition batch_of (d : db) (i : batch_item) : list batch :=
  List.filter (λ b, str_eqb (b_id b) (bi_batch i)) (batches d).

(** Queue half of the predicate: a job item that holds photo [p]. *)
Definition item_reserves (d : db) (p : photo) (it : item) (j : job) : bool :=
  str_eqb (j_id j) (i_job it)
  && existsb (λ rp, same_content p rp && bool_decide (i_photo it = Some (p_id rp))) (photos d)
  && istatus_in item_active (i_status it)
  && str_in (j_kind j) (map u ["analysis"; "analysis_batch"]%string)
  && (bool_decide (i_status it = IRunning) || jstatus_in reserving_statuses (j_status j)).

Definition batch_item_reserves (d : db) (p : photo) (bi : batch_item) : bool :=
  (bool_decide (bi_photo bi = Some (p_id p)) || same_sha p (Some (bi_sha256 bi)))
  && existsb held_batch (batch_of d bi).

Definition reserved_analysis (d : db) (p : photo) : bool :=
  existsb (λ it, existsb (item_reserves d p it) (jobs d)) (items d)
  || existsb (batch_item_reserves d p) (batch_items d).

(** [assert_no_batch_content_owner]: true when the code raises
    [AnalysisReservationConflict]. *)
Definition batch_content_owner (d : db) (content_sha256 : str) : bool :=
  existsb (λ bi, str_eqb (bi_sha256 bi) content_sha256
                 && existsb (λ b, held_batch b || paid_batch_item bi b) (batch_of d bi))
    (batch_items d)
  || existsb (λ it,
       istatus_in item_active (i_status it)
       && existsb (λ j, str_eqb (j_id j) (i_job it) && str_eqb (j_kind j) (u "analysis_batch")
                        && jstatus_in reserving_statuses (j_status j)) (jobs d)
       && existsb (λ p, bool_decide (i_photo it = Some (p_id p))
                        && bool_decide (p_sha256 p = Some content_sha256)) (photos d))
    (items d).
