(* ===== verification/JobQueue.v ===== *)
(** * The job queue

    Models [JobRepository] of [inktime/app/repositories/jobs.py]: one
    definition per transaction, over the tables of [Store].  A transaction
    that raises is rolled back, so it returns [Raise] and no state.  UUIDs
    are arguments; [clock] carries the (at most two) readings of the wall
    clock an operation takes, in order.  SQLite's primary keys, foreign keys
    and unique indexes are checked where a statement can violate them. *)

From S2P Require Import Prelude PyStr PyFloat Json Sql Sha256 Store Reservations.
Local Open Scope Z_scope.

Record clock := mk_clock { now : Z; later : Z }.

(** [timedelta(seconds=n)] in microseconds *)
Definition seconds (n : Z) : Z := n * 1000000.

Definition MAX_STALE_RECOVERY_ATTEMPTS : Z := 5.

Inductive job_exn : Type :=
| IDEMPOTENCY_CONFLICT
| AnalysisReservationConflict
| PreviewCapacityError (scope : str)
| UnsupportedMaintenanceKind
| CapacityKindError
| InvalidBatchTerminalStatus
| IntegrityError                  (* SQLite constraint *)
| SettingsError                   (* json.loads / .get on malformed settings *)
| HookError.                      (* a caller-owned hook raised *)

Definition set_dedupe_fingerprint (fp : str) (j : job) : job :=
  j <| j_request_fingerprint := Some fp |>.

Definition by_id (k : str) : job → bool := by_key j_id k.
Definition item_by_id (k : str) : item → bool := by_key i_id k.
Definition of_job (k : str) : item → bool := λ i, str_eqb (i_job i) k.
Definition has_istatus (s : item_status) : item → bool := λ i, bool_decide (i_status i = s).
Definition job_items (d : db) (k : str) : list item := List.filter (of_job k) (items d).

Definition get (d : db) (k : str) : option job := get_row j_id k (jobs d).

(** The keys indexed by [idx_jobs_active_dedupe]. *)
Definition active_key (j : job) : option str :=
  if jstatus_in in_flight (j_status j) then j_dedupe_key j else None.
Definition active_keys (js : list job) : list str := omap active_key js.

(** An UPDATE or INSERT on [jobs] that can enter an in-flight status. *)
Definition put_jobs (d : db) (js : list job) : result job_exn db :=
  if nodupb (active_keys js) then Ok (d <| jobs := js |>) else Raise IntegrityError.

Definition log_event (d : db) (job_id event message : str) (details : json) (at_ : Z) : db :=
  d <| events := events d ++ [mk_event job_id event message details at_] |>.

(** [add_event] *)
Definition add_event (d : db) (job_id event message : str) (details : json) (at_ : Z) : db :=
  log_event d job_id event message details at_.

Definition jnone : json := JObj [].

(** ORDER BY created_at DESC, id DESC *)
Definition newest_leb (a b : job) : bool :=
  (j_created_at b <? j_created_at a)
  || ((j_created_at a =? j_created_at b) && str_leb (j_id b) (j_id a)).

Definition newest (p : job → bool) (d : db) : option job :=
  head (sort_by newest_leb (List.filter p (jobs d))).

Definition has_dedupe_key (k : str) : job → bool := λ j, bool_decide (j_dedupe_key j = Some k).

(** The shared tail of the idempotent lookups: compare the stored request
    fingerprint with the caller's and backfill a missing one. *)
Definition reuse_existing (d : db) (existing : job) (fp : option str) : result job_exn (str * db) :=
  let stored := coalesce (j_request_fingerprint existing) in
  if negb (str_eqb stored []) && opt_truthy fp && negb (str_eqb stored (coalesce fp))
  then Raise IDEMPOTENCY_CONFLICT
  else if opt_truthy fp && str_eqb stored []
  then Ok (j_id existing,
           d <| jobs := update_where (λ j, by_id (j_id existing) j && is_null (j_request_fingerprint j))
                          (set_dedupe_fingerprint (coalesce fp)) (jobs d) |>)
  else Ok (j_id existing, d).

Definition clamp_priority (p : Z) : Z := Z.max 1 (Z.min p 6).

(** INSERT OR IGNORE INTO job_items(id, job_id, photo_id, available_at):
    ignored when the id or (job_id, photo_id) is taken; the photo must exist. *)
Definition new_item (item_id job_id : str) (photo_id : option str) (now : Z) : item :=
  mk_item item_id job_id photo_id IPending (u "queued") 0 now None None None None None None f0
    None None (u "on_time").

Definition insert_photo_item (d : db) (job_id : str) (now : Z) (row : str * str) : result job_exn db :=
  let '(item_id, photo_id) := row in
  if existsb (item_by_id item_id) (items d)
     || existsb (λ i, of_job job_id i && bool_decide (i_photo i = Some photo_id)) (items d)
  then Ok d
  else if existsb (λ p, str_eqb (p_id p) photo_id) (photos d)
  then Ok (d <| items := items d ++ [new_item item_id job_id (Some photo_id) now] |>)
  else Raise IntegrityError.

Fixpoint insert_photo_items (d : db) (job_id : str) (now : Z) (rows : list (str * str))
  : result job_exn db :=
  match rows with
  | [] => Ok d
  | row :: rows' => let* d' := insert_photo_item d job_id now row in
                    insert_photo_items d' job_id now rows'
  end.

Record create_args := mk_create {
  c_kind : str; c_name : str; c_strategy : str; c_settings : json;
  c_photo_ids : list str; c_created_by : option str; c_budget_limit : option f64; c_priority : Z;
  c_dedupe_key : option str; c_selection_mode : str; c_analysis_fingerprint : option str;
  c_force_recompute : bool; c_analysis_spec : json; c_request_fingerprint : option str }.

Definition analysis_kind (k : str) : bool := str_in k (map u ["analysis"; "analysis_batch"]%string).

(** The recheck after BEGIN IMMEDIATE, in chunks of 500 identifiers. *)
Definition reservation_conflict (d : db) (ids : list str) : bool :=
  existsb (λ p, str_in (p_id p) ids && reserved_analysis d p) (photos d).

Definition new_job (job_id : str) (a : create_args) (now : Z) : job :=
  mk_job job_id (c_kind a) (c_name a) JPending (c_strategy a) (Some (c_settings a))
    (c_budget_limit a) f0 0 0 0 (c_created_by a) now None None None None
    (clamp_priority (c_priority a)) (c_dedupe_key a) (c_selection_mode a)
    (c_analysis_fingerprint a) (Some (c_analysis_spec a)) (c_force_recompute a)
    (c_request_fingerprint a).

Definition set_total (n : Z) (j : job) : job := j <| j_total_items := n |>.

(** [create]; [item_ids] are the UUIDs of the inserted rows, [hook] the
    caller's commit hook. *)
Definition create (d : db) (c : clock) (job_id : str) (item_ids : list str)
    (hook : str → db → result job_exn db) (a : create_args) : result job_exn (str * db) :=
  match (if opt_truthy (c_dedupe_key a) then newest (has_dedupe_key (coalesce (c_dedupe_key a))) d
         else None) with
  | Some existing => reuse_existing d existing (c_request_fingerprint a)
  | None =>
      raise_if (analysis_kind (c_kind a) && reservation_conflict d (c_photo_ids a))
        AnalysisReservationConflict ;;;
      raise_if (has_key j_id job_id (jobs d)) IntegrityError ;;;
      let* d1 := put_jobs d (jobs d ++ [new_job job_id a (now c)]) in
      let* d2 := insert_photo_items d1 job_id (now c) (zip item_ids (c_photo_ids a)) in
      let total := countb (of_job job_id) (items d2) in
      let d3 := d2 <| jobs := update_where (by_id job_id) (set_total total) (jobs d2) |> in
      let* d4 := hook job_id d3 in
      Ok (job_id, add_event d4 job_id (u "created")
                    (u "已建立工作，共 " ++ z_str total ++ u " 張照片") jnone (later c))
  end.

(** ** Maintenance jobs *)

Definition maintenance_kinds : list str :=
  map u ["scan"; "backup"; "render"; "render_preview"; "cleanup"; "virtual_display"; "webhook";
         "analysis_batch_import"; "analysis_batch_poll"; "analysis_coverage_audit"]%string.

Definition priority_for (kind : str) : Z :=
  match assoc_get kind
    [(u "render", 2); (u "virtual_display", 2); (u "scan", 4); (u "webhook", 5);
     (u "render_preview", 6); (u "cleanup", 6); (u "backup", 6)] with
  | Some p => p
  | None => 4
  end.

Record maint_args := mk_maint {
  m_kind : str; m_name : str; m_settings : json; m_created_by : option str;
  m_priority : option Z; m_dedupe_key : option str; m_request_fingerprint : option str }.

Definition maint_job (job_id : str) (a : maint_args) (priority : Z) (now : Z) : job :=
  mk_job job_id (m_kind a) (m_name a) JPending (u "local") (Some (m_settings a)) None f0 1 0 0
    (m_created_by a) now None None None None (clamp_priority priority) (m_dedupe_key a)
    (u "pending") None None false (m_request_fingerprint a).

(** The rows a maintenance job inserts: the job, its single item, its event. *)
Definition insert_maintenance (d : db) (j : job) (item_id : str) (now : Z) : result job_exn db :=
  raise_if (has_key j_id (j_id j) (jobs d)) IntegrityError ;;;
  let* d1 := put_jobs d (jobs d ++ [j]) in
  raise_if (has_key i_id item_id (items d1)) IntegrityError ;;;
  let d2 := d1 <| items := items d1 ++ [new_item item_id (j_id j) None now] |> in
  Ok (log_event d2 (j_id j) (u "created") (u "已建立 " ++ j_kind j ++ u " 維護工作") jnone now).

(** Which jobs with the same key stop a new maintenance job. *)
Definition dedupe_blocks (kind key : str) (j : job) : bool :=
  has_dedupe_key key j
  && (if starts_with (u "idempotency:") key then true
      else if str_eqb kind (u "backup") then negb (jstatus_in [JFailed; JCancelled] (j_status j))
      else jstatus_in in_flight (j_status j)).

Definition create_maintenance (d : db) (c : clock) (job_id item_id : str)
    (guard : option (db → bool * db)) (a : maint_args) : result job_exn (option str * db) :=
  raise_if (negb (str_in (m_kind a) maintenance_kinds)) UnsupportedMaintenanceKind ;;;
  match (if opt_truthy (m_dedupe_key a)
         then find_where (dedupe_blocks (m_kind a) (coalesce (m_dedupe_key a))) (jobs d)
         else None) with
  | Some existing =>
      let* r := reuse_existing d existing (m_request_fingerprint a) in Ok (Some r.1, r.2)
  | None =>
      let '(allowed, d0) := match guard with Some g => g d | None => (true, d) end in
      if negb allowed then Ok (None, d0)
      else
        let priority := match m_priority a with Some p => p | None => priority_for (m_kind a) end in
        let* d1 := insert_maintenance d0 (maint_job job_id a priority (now c)) item_id (now c) in
        Ok (Some job_id, d1)
  end.

Definition active_of_kind (kind : str) (j : job) : bool :=
  str_eqb (j_kind j) kind && jstatus_in in_flight (j_status j).

Definition created_by (user : str) (j : job) : bool := bool_decide (j_created_by j = Some user).

(** [active_count] *)
Definition active_count (d : db) (kind : str) (user : option str) : Z :=
  countb (λ j, active_of_kind kind j && match user with Some x => created_by x j | None => true end)
    (jobs d).

Definition create_maintenance_with_capacity (d : db) (c : clock) (job_id item_id : str)
    (kind name : str) (settings_ : json) (user : str) (priority per_user_limit system_limit : Z)
  : result job_exn (str * db) :=
  raise_if (negb (str_eqb kind (u "render_preview"))) CapacityKindError ;;;
  raise_if (Z.max 1 per_user_limit <=? active_count d kind (Some user))
    (PreviewCapacityError (u "user")) ;;;
  raise_if (Z.max 1 system_limit <=? active_count d kind None)
    (PreviewCapacityError (u "system")) ;;;
  let a := mk_maint kind name settings_ (Some user) (Some priority) None None in
  let* d1 := insert_maintenance d (maint_job job_id a priority (now c)) item_id (now c) in
  Ok (job_id, d1).

(** ** Status transitions *)

Definition set_status_heartbeat (s : job_status) (t : Z) (j : job) : job :=
  j <| j_status := s |> <| j_heartbeat_at := Some t |>.

(** [transition]: UPDATE .. WHERE id=? AND status IN (from), then the event. *)
Definition transition (d : db) (c : clock) (job_id : str) (from : list job_status)
    (to_status : job_status) (event : str) : result job_exn (bool * db) :=
  let sel j := by_id job_id j && jstatus_in from (j_status j) in
  let* d1 := put_jobs d (update_where sel (set_status_heartbeat to_status (now c)) (jobs d)) in
  if existsb sel (jobs d)
  then Ok (true, add_event d1 job_id event (u "工作狀態已變更為 " ++ status_text to_status) jnone
                   (later c))
  else Ok (false, d1).

Definition request_pause (d : db) (c : clock) (job_id : str) : bool * db :=
  match get d job_id with
  | Some j =>
      if jstatus_in runnable (j_status j) then
        let active := countb (λ i, of_job job_id i && has_istatus IRunning i) (items d) in
        let target := if 0 <? active then JPausing else JPaused in
        let d1 := d <| jobs := update_where (by_id job_id)
                    (λ j, j <| j_status := target |> <| j_pause_requested_at := Some (now c) |>
                            <| j_heartbeat_at := Some (now c) |>) (jobs d) |> in
        (true, log_event d1 job_id
                 (if 0 <? active then u "pause_requested" else u "paused")
                 (if 0 <? active then u "已要求暫停；目前處理中的項目完成後停止"
                  else u "工作尚無處理中項目，已直接暫停")
                 (JObj [(u "active_items", JInt active)]) (now c))
      else (false, d)
  | None => (false, d)
  end.

Definition has_running_item (d : db) (job_id : str) : bool :=
  existsb (λ i, of_job job_id i && has_istatus IRunning i) (items d).

Definition acknowledge_pause (d : db) (c : clock) (job_id : str) : bool * db :=
  let sel j := by_id job_id j && bool_decide (j_status j = JPausing)
               && negb (has_running_item d (j_id j)) in
  let d1 := d <| jobs := update_where sel (set_status_heartbeat JPaused (now c)) (jobs d) |> in
  if existsb sel (jobs d)
  then (true, add_event d1 job_id (u "paused") (u "工作狀態已變更為 paused") jnone (later c))
  else (false, d1).

(** [WHERE job_id=? AND status IN ('pending','retrying')] *)
Definition waiting_of (k : str) (i : item) : bool :=
  of_job k i && istatus_in [IPending; IRetrying] (i_status i).

Definition cancel (d : db) (c : clock) (job_id : str) : bool * db :=
  let sel j := by_id job_id j && negb (jstatus_in TERMINAL_STATUSES (j_status j)) in
  let js := update_where sel
              (λ j, j <| j_status := JCancelled |> <| j_cancel_requested_at := Some (now c) |>
                      <| j_completed_at := Some (now c) |>) (jobs d) in
  if existsb sel (jobs d) then
    let its := update_where (waiting_of job_id)
                 (λ i, i <| i_status := ICancelled |> <| i_completed_at := Some (now c) |>) (items d) in
    (true, add_event (d <| jobs := js |> <| items := its |>) job_id (u "cancelled")
             (u "工作已取消，不會再送出新請求") jnone (later c))
  else (false, d <| jobs := js |>).

Definition invalid_row (t : Z) (i : item) : item :=
  i <| i_status := IFailed |> <| i_completed_at := Some t |> <| i_error_code := Some (u "JOB-001") |>
    <| i_worker := None |> <| i_lease_until := None |> <| i_dead_lettered_at := Some t |>.

Definition fail_invalid_settings (d : db) (c : clock) (job_id : str) : bool * db :=
  let sel j := by_id job_id j && jstatus_in runnable (j_status j)
               && negb (has_running_item d (j_id j)) in
  if existsb sel (jobs d) then
    let js := update_where sel
                (λ j, j <| j_status := JFailed |> <| j_completed_at := Some (now c) |>
                        <| j_heartbeat_at := Some (now c) |>) (jobs d) in
    let its := update_where (waiting_of job_id) (invalid_row (now c)) (items d) in
    let failed := countb (λ i, of_job job_id i && has_istatus IFailed i) its in
    let js' := update_where (by_id job_id) (λ j, j <| j_failed_items := failed |>) js in
    (true, log_event (d <| jobs := js' |> <| items := its |>) job_id (u "invalid_settings")
             (u "JOB-001 工作設定不合法，已停止且未送出新請求") jnone (now c))
  else (false, d).

(** ** Claiming work *)

(** [d.get(key)] on decoded settings; malformed text or a non-object raises. *)
Definition settings_get (j : job) (k : str) : result job_exn (option json) :=
  match j_settings j with
  | Some (JObj m) => Ok (assoc_get k m)
  | _ => Raise SettingsError
  end.

Definition setting_is_true (d : db) (k : str) : bool :=
  match assoc_get k (settings d) with Some v => str_eqb v (u "true") | None => false end.

(** Is the backfill lane of the job switched on? *)
Definition backfill_allowed (d : db) (openai_backfill : bool) : bool :=
  if openai_backfill
  then setting_is_true d (u "analysis.openai_backfill_enabled")
       && setting_is_true d (u "analysis.complementary_enabled")
       && negb (opt_truthy (openai_pause_kind d))
  else backfill_enabled d && negb (opt_truthy (backfill_pause_reason d))
       && negb (setting_is_true d (u "analysis.complementary_enabled")).

Definition due (t : Z) (i : item) : bool := has_istatus IPending i && (i_available_at i <=? t).

(** More urgent work that is ready: backfill yields to it. *)
Definition urgent_work (d : db) (j : job) (t : Z) : bool :=
  existsb (λ o, negb (str_eqb (j_id o) (j_id j)) && (j_priority o <? j_priority j)
                && negb (str_eqb (j_kind o) (u "render")) && jstatus_in runnable (j_status o)
                && existsb (λ i, of_job (j_id o) i && due t i) (items d)) (jobs d).

(** SQLite orders NULL first. *)
Definition opt_cmp {A} (leb eqb : A → A → bool) (x y : option A) : comparison :=
  match x, y with
  | None, None => Eq
  | None, Some _ => Lt
  | Some _, None => Gt
  | Some a, Some b => if eqb a b then Eq else if leb a b then Lt else Gt
  end.

(** The two CASE columns of the ORDER BY: the photo's own date for the OpenAI
    lane, the backfill task for the free lane. *)
Definition photo_date (d : db) (i : item) : option str :=
  match find_where (λ p, bool_decide (i_photo i = Some (p_id p))) (photos d) with
  | Some p => Some (match p_captured_at p with Some s => s | None => p_created_at p end)
  | None => None
  end.
Definition task_id (d : db) (i : item) : option Z :=
  t_id <$> find_where (λ t, str_eqb (t_job t) (i_job i) && bool_decide (i_photo i = Some (t_photo t)))
             (backfill_tasks d).

Definition claim_leb (d : db) (openai backfill : bool) (a b : item) : bool :=
  match Z.compare (i_available_at a) (i_available_at b) with
  | Lt => true
  | Gt => false
  | Eq =>
      match (if openai then opt_cmp str_leb str_eqb (photo_date d a) (photo_date d b) else Eq) with
      | Lt => true
      | Gt => false
      | Eq =>
          match (if backfill then opt_cmp Z.leb Z.eqb (task_id d a) (task_id d b) else Eq) with
          | Lt => true
          | Gt => false
          | Eq => str_leb (i_id a) (i_id b)
          end
      end
  end.

(** [LIMIT n]: a negative limit is no limit. *)
Definition limit_to {A} (n : Z) (l : list A) : list A := if n <? 0 then l else take (Z.to_nat n) l.

Definition claim_row (worker : str) (t lease : Z) (i : item) : item :=
  i <| i_status := IRunning |> <| i_worker := Some worker |> <| i_started_at := Some t |>
    <| i_lease_until := Some lease |> <| i_attempts := i_attempts i + 1 |>
    <| i_idempotency_key :=
         match i_idempotency_key i with Some k => Some k | None => Some (i_job i ++ u ":" ++ i_id i) end |>.

Definition set_heartbeat (t : Z) (j : job) : job := j <| j_heartbeat_at := Some t |>.

(** The SELECT of a claim: due pending items of the job, in lane order. *)
Definition claim_rows (d : db) (t : Z) (job_id : str) (openai backfill : bool) (limit : Z) : list item :=
  limit_to limit (sort_by (claim_leb d openai backfill)
                    (List.filter (λ i, of_job job_id i && due t i) (items d))).

(** .. and the UPDATE of the selected ids. *)
Definition claim_ids (ids : list str) (worker : str) (t lease : Z) (its : list item) : list item :=
  update_where (λ i, str_in (i_id i) ids) (claim_row worker t lease) its.

Definition claim (d : db) (c : clock) (job_id worker : str) (limit lease_seconds : Z)
  : result job_exn (list item * db) :=
  let lease := later c + seconds lease_seconds in
  match get d job_id with
  | Some j =>
      if negb (jstatus_in runnable (j_status j)) then Ok ([], d)
      else
        let* mb := settings_get j (u "missing_analysis_backfill") in
        let* lane := settings_get j (u "complementary_lane") in
        let backfill := match mb with Some v => truthy v | None => false end in
        let openai := match lane with Some (JStr s) => str_eqb s (u "openai_backfill") | _ => false end in
        if (backfill || openai) && (negb (backfill_allowed d openai) || urgent_work d j (now c))
        then Ok ([], d)
        else
          let ids := map i_id (claim_rows d (now c) job_id openai backfill limit) in
          let its := claim_ids ids worker (now c) lease (items d) in
          let js := update_where (by_id job_id) (set_heartbeat (now c)) (jobs d) in
          Ok (omap (λ k, get_row i_id k its) ids, d <| items := its |> <| jobs := js |>)
  | None => Ok ([], d)
  end.

Definition owned_by (worker : option str) (i : item) : bool :=
  match worker with Some w => bool_decide (i_worker i = Some w) | None => true end.

(** [WHERE id=? AND job_id=? AND status='running' [AND worker_id=?]] *)
Definition running_row (item_id job_id : str) (worker : option str) (i : item) : bool :=
  item_by_id item_id i && of_job job_id i && has_istatus IRunning i && owned_by worker i.

Definition renew_leases (d : db) (c : clock) (job_id worker : str) (lease_seconds : Z) : Z * db :=
  let sel i := of_job job_id i && bool_decide (i_worker i = Some worker) && has_istatus IRunning i in
  let its := update_where sel (λ i, i <| i_lease_until := Some (later c + seconds lease_seconds) |>)
               (items d) in
  (countb sel (items d),
   d <| items := its |> <| jobs := update_where (by_id job_id) (set_heartbeat (now c)) (jobs d) |>).

(** ** Completing work *)

Section rendering.
(** Python's [str()] of a JSON value that is not already text. *)
Context (render : json → str).

Definition text_of (j : json) : str := match j with JStr s => s | _ => render j end.

(** [str(result.get(k) or default)] *)
Definition get_text (k : str) (default : str) (r : list (str * json)) : str :=
  match assoc_get k r with
  | Some v => if truthy v then text_of v else default
  | None => default
  end.

Definition get_truthy (k : str) (r : list (str * json)) : bool :=
  match assoc_get k r with Some v => truthy v | None => false end.

Definition is_no_content (r : list (str * json)) : bool :=
  match assoc_get (u "outcome") r with Some (JStr s) => str_eqb s (u "no_content") | _ => false end.

Definition has_usage (d : db) (job_id : str) : bool :=
  str_in job_id (usage_jobs d) || str_in job_id (archived_usage_jobs d).

(** [spent = CASE WHEN usage recorded THEN spent ELSE spent + ? END] *)
Definition charge (d : db) (cost : f64) (j : job) : job :=
  j <| j_spent := if has_usage d (j_id j) then j_spent j else fadd (j_spent j) cost |>.

Definition complete_row (r : list (str * json)) (cost : f64) (t : Z) (i : item) : item :=
  i <| i_status := ICompleted |> <| i_completed_at := Some t |> <| i_result := Some (JObj r) |>
    <| i_lease_until := None |> <| i_worker := None |> <| i_estimated_cost := cost |>
    <| i_stage := take 64 (get_text (u "stage") (u "completed") r) |>
    <| i_error_code :=
         if get_truthy (u "outcome_code") r || is_no_content r then None
         else match get_text (u "error_code") [] r with [] => None | e => Some e end |>.

Definition cancel_row (t : Z) (i : item) : item :=
  i <| i_status := ICancelled |> <| i_completed_at := Some t |> <| i_lease_until := None |>
    <| i_worker := None |>.

Definition bump_completed (d : db) (cost : f64) (t : Z) (j : job) : job :=
  charge d cost j <| j_completed_items := j_completed_items j + 1 |> <| j_heartbeat_at := Some t |>.

Definition complete_item (d : db) (c : clock) (job_id item_id : str) (r : list (str * json))
    (cost : f64) (worker : option str) : bool * db :=
  let sel := running_row item_id job_id worker in
  let hit := existsb sel (items d) in
  match get d job_id with
  | Some j =>
      if bool_decide (j_status j = JCancelled)
      then (hit, d <| items := update_where sel (cancel_row (now c)) (items d) |>)
      else
        let d1 := d <| items := update_where sel (complete_row r cost (now c)) (items d) |> in
        if hit
        then (true, d1 <| jobs := update_where (by_id job_id) (bump_completed d cost (now c)) (jobs d) |>)
        else (false, d1)
  | None => (hit, d <| items := update_where sel (cancel_row (now c)) (items d) |>)
  end.

Definition late_row (r : list (str * json)) (t : Z) (i : item) : item :=
  i <| i_status := IFailed |> <| i_completed_at := Some t |> <| i_result := Some (JObj r) |>
    <| i_error_code := Some (u "JOB-004") |> <| i_lease_until := None |> <| i_worker := None |>
    <| i_completion_state := u "timed_out_completed" |> <| i_dead_lettered_at := Some t |>.

Definition record_late_completion (d : db) (c : clock) (job_id item_id : str)
    (r : list (str * json)) (cost : f64) (worker : option str) : bool * db :=
  let sel := running_row item_id job_id worker in
  let d1 := d <| items := update_where sel (late_row r (now c)) (items d) |> in
  if existsb sel (items d) then
    let js := update_where (by_id job_id)
                (λ j, charge d cost j <| j_failed_items := j_failed_items j + 1 |>
                        <| j_heartbeat_at := Some (now c) |>) (jobs d) in
    (true, add_event (d1 <| jobs := js |>) job_id (u "timed_out_completed")
             (u "工作逾時後才結束；結果僅保留診斷，不會重試或重複套用")
             (JObj [(u "item_id", JStr item_id)]) (later c))
  else (false, d1).

(** ** Batch items: persisted without a worker lease *)

Definition live_row (item_id job_id : str) (i : item) : bool :=
  item_by_id item_id i && of_job job_id i && negb (istatus_in item_terminal (i_status i)).

Definition complete_batch_item (d : db) (c : clock) (job_id item_id : str)
    (r : list (str * json)) (cost : f64) : bool * db :=
  let sel := live_row item_id job_id in
  let its := update_where sel
               (λ i, i <| i_status := ICompleted |> <| i_completed_at := Some (now c) |>
                       <| i_result := Some (JObj r) |> <| i_estimated_cost := cost |>
                       <| i_stage := u "analysis_batch" |> <| i_lease_until := None |>) (items d) in
  let d1 := d <| items := its |> in
  if existsb sel (items d)
  then (true, d1 <| jobs := update_where (by_id job_id) (bump_completed d cost (now c)) (jobs d) |>)
  else (false, d1).
End rendering.

(** [COALESCE(?, error_code)] *)
Definition keep_code (new old : option str) : option str :=
  match new with Some c => Some c | None => old end.

(** [defer_item]: hand an unsent item back, refunding its attempt; the delay
    is in microseconds. *)
Definition defer_item (d : db) (c : clock) (item_id : str) (worker : option str) (delay : Z)
    (defer_pending : bool) (error_code : option str) : bool * db :=
  let available := now c + delay in
  let sel i := item_by_id item_id i && has_istatus IRunning i && owned_by worker i in
  let its := update_where sel
               (λ i, i <| i_status := IPending |> <| i_worker := None |> <| i_lease_until := None |>
                       <| i_available_at := available |> <| i_attempts := Z.max 0 (i_attempts i - 1) |>
                       <| i_error_code := keep_code error_code (i_error_code i) |>) (items d) in
  if existsb sel (items d) then
    let its' :=
      if defer_pending then
        match get_row i_id item_id its with
        | Some row =>
            update_where (λ i, of_job (i_job row) i && has_istatus IPending i)
              (λ i, i <| i_available_at := Z.max (i_available_at i) available |>
                      <| i_error_code := keep_code error_code (i_error_code i) |>) its
        | None => its
        end
      else its in
    (true, d <| items := its' |>)
  else (false, d <| items := its |>).

(** ** Recording failures *)

Definition next_error_id (d : db) : Z := 1 + fold_right Z.max 0 (map er_id (errors d)).

Definition insert_error (d : db) (job_id : str) (item_id photo_id : option str)
    (component code fingerprint message : str) (t : Z) : db :=
  d <| errors := errors d ++
         [mk_error (next_error_id d) job_id item_id photo_id component code fingerprint (u "error")
            message 1 t t None] |>.

Definition item_fingerprint (job_id item_id code : str) : str :=
  sha256_hex (job_id ++ u ":" ++ item_id ++ u ":" ++ code).

(** An open error with the same identity is counted, not duplicated. *)
Definition upsert_error (d : db) (job_id item_id : str) (photo : option str) (code message : str)
    (t : Z) : db :=
  let fp := item_fingerprint job_id item_id code in
  match find_where (λ e, str_eqb (er_fingerprint e) fp && is_null (er_resolved_at e)) (errors d) with
  | Some old =>
      d <| errors := update_where (λ e, er_id e =? er_id old)
             (λ e, mk_error (er_id e) (er_job e) (er_item e) (er_photo e) (er_component e) (er_code e)
                     (er_fingerprint e) (er_severity e) (take 1000 message) (er_occurrences e + 1)
                     (er_first_seen e) t (er_resolved_at e)) (errors d) |>
  | None => insert_error d job_id (Some item_id) photo (u "worker") code fp (take 1000 message) t
  end.

(** Seconds before the next attempt. *)
Definition retry_delay (retry_interval : option Z) (attempts : Z) : Z :=
  match retry_interval with
  | Some r => Z.max 1 r
  | None => Z.min 300 (2 ^ attempts)
  end.

Definition dead_row (code : str) (t : Z) (i : item) : item :=
  i <| i_status := IFailed |> <| i_completed_at := Some t |> <| i_error_code := Some code |>
    <| i_lease_until := None |> <| i_worker := None |> <| i_dead_lettered_at := Some t |>.

Definition retry_row (code : str) (available : Z) (i : item) : item :=
  i <| i_status := IPending |> <| i_available_at := available |> <| i_error_code := Some code |>
    <| i_lease_until := None |> <| i_worker := None |>.

Definition bump_failed (j : job) : job := j <| j_failed_items := j_failed_items j + 1 |>.

Definition fail_item (d : db) (c : clock) (job_id item_id code message : str) (max_attempts : Z)
    (retry_interval : option Z) (worker : option str) : bool * db :=
  match find_where (running_row item_id job_id worker) (items d) with
  | None => (false, d)
  | Some it =>
      let d1 :=
        if max_attempts <=? i_attempts it
        then d <| items := update_where (item_by_id item_id) (dead_row code (now c)) (items d) |>
               <| jobs := update_where (by_id job_id) bump_failed (jobs d) |>
        else
          let available := now c + seconds (retry_delay retry_interval (i_attempts it)) in
          d <| items := update_where (item_by_id item_id) (retry_row code available) (items d) |> in
      (true, upsert_error d1 job_id item_id (i_photo it) code message (now c))
  end.

Definition fail_batch_item (d : db) (c : clock) (job_id item_id code message : str) : bool * db :=
  let sel := live_row item_id job_id in
  match find_where sel (items d) with
  | None => (false, d)
  | Some it =>
      let its := update_where sel
                   (λ i, i <| i_status := IFailed |> <| i_completed_at := Some (now c) |>
                           <| i_error_code := Some code |> <| i_stage := u "analysis_batch" |>
                           <| i_lease_until := None |>) (items d) in
      let js := update_where (by_id job_id)
                  (λ j, bump_failed j <| j_heartbeat_at := Some (now c) |>) (jobs d) in
      (true, insert_error (d <| items := its |> <| jobs := js |>) job_id (Some item_id) (i_photo it)
               (u "analysis_batch") code (item_fingerprint job_id item_id code) (take 1000 message) (now c))
  end.

Definition cancel_batch_item (d : db) (c : clock) (job_id item_id reason : str) : bool * db :=
  let sel := live_row item_id job_id in
  let its := update_where sel
               (λ i, i <| i_status := ICancelled |> <| i_completed_at := Some (now c) |>
                       <| i_error_code := Some (take 120 reason) |> <| i_stage := u "analysis_batch" |>
                       <| i_lease_until := None |>) (items d) in
  if existsb sel (items d)
  then (true, d <| items := its |>
                <| jobs := update_where (λ j, by_id job_id j && negb (bool_decide (j_status j = JCancelled)))
                             (set_heartbeat (now c)) (jobs d) |>)
  else (false, d <| items := its |>).

(** ** Finishing jobs *)

(** A caller-owned finalizer: it runs under a savepoint and may raise with
    its exception class and message. *)
Definition finalizer : Type := str → job_status → db → result (str * str) db.

Definition finish_row (target : job_status) (t : Z) (j : job) : job :=
  j <| j_status := target |> <| j_completed_at := Some t |> <| j_heartbeat_at := Some t |>.

(** SAVEPOINT / ROLLBACK TO: a raising finalizer leaves an error and an event. *)
Definition run_finalizer (f : option finalizer) (job_id : str) (target : job_status) (t : Z) (d : db)
  : job_status * db :=
  match f with
  | None => (target, d)
  | Some g =>
      match g job_id target d with
      | Ok d' => (target, d')
      | Raise (cls, msg) =>
          let message := str_or (Some (take 1000 msg)) cls in
          let fp := sha256_hex (job_id ++ u ":finalizer:" ++ cls ++ u ":" ++ message) in
          let d1 := insert_error d job_id None None (u "finalizer") (u "JOB-FINALIZER-001") fp message t in
          (JCompletedWithErrors,
           log_event d1 job_id (u "finalizer_failed")
             (u "工作 finalizer 失敗；已隔離並以 completed_with_errors 結束")
             (JObj [(u "error", JStr message)]) t)
      end
  end.

Definition finalize_if_done (d : db) (c : clock) (job_id : str) (f : option finalizer) : bool * db :=
  match get d job_id with
  | Some j =>
      if negb (jstatus_in runnable (j_status j)) then (false, d)
      else if 0 <? countb (λ i, of_job job_id i && istatus_in item_active (i_status i)) (items d)
      then (false, d)
      else
        let failed := countb (λ i, of_job job_id i && has_istatus IFailed i) (items d) in
        let '(target, d1) :=
          run_finalizer f job_id (if 0 <? failed then JCompletedWithErrors else JCompleted) (now c) d in
        let sel j := by_id job_id j && jstatus_in runnable (j_status j) in
        let d2 := d1 <| jobs := update_where sel (finish_row target (now c)) (jobs d1) |> in
        if existsb sel (jobs d1)
        then (true, add_event d2 job_id (u "finished") (u "工作已結束：" ++ status_text target) jnone
                      (later c))
        else (false, d2)
  | None => (false, d)
  end.

Definition finalize_batch_job (d : db) (c : clock) (job_id : str) (status : job_status)
  : result job_exn (bool * db) :=
  raise_if (negb (jstatus_in TERMINAL_STATUSES status)) InvalidBatchTerminalStatus ;;;
  let sel j := by_id job_id j && negb (jstatus_in TERMINAL_STATUSES (j_status j)) in
  Ok (existsb sel (jobs d),
      d <| jobs := update_where sel (finish_row status (now c)) (jobs d) |>).

(** ** Recovery of expired leases *)

Definition expired (t : Z) (i : item) : bool :=
  has_istatus IRunning i && match i_lease_until i with None => true | Some l => l <? t end.

(** Truth value of [json_extract(settings_json,'$.seasonal_analysis')]:
    arrays and objects are returned as (non-empty) text. *)
Definition seasonal_job (j : job) : bool :=
  match j_settings j with
  | Some (JObj m) =>
      match assoc_get (u "seasonal_analysis") m with
      | Some (JList _ | JObj _) => true
      | Some v => truthy v
      | None => false
      end
  | _ => false
  end.

Definition recover_order (a b : item) : bool :=
  if str_eqb (i_job a) (i_job b) then str_leb (i_id a) (i_id b) else str_leb (i_job a) (i_job b).

Definition crash_row (t : Z) (i : item) : item :=
  i <| i_status := IFailed |> <| i_completed_at := Some t |> <| i_worker := None |>
    <| i_lease_until := None |> <| i_error_code := Some (u "WORKER_CRASH") |>
    <| i_dead_lettered_at := Some t |> <| i_completion_state := u "worker_crash" |>.

Definition requeue_row (t : Z) (i : item) : item :=
  i <| i_status := IPending |> <| i_worker := None |> <| i_lease_until := None |>
    <| i_available_at := t |>.

(** One expired item: [dead] when its job is seasonal or its attempts are spent. *)
Definition recover_one (t : Z) (row : item * bool) (acc : Z * db) : Z * db :=
  let '(it, seasonal) := row in
  let '(n, d) := acc in
  let sel i := item_by_id (i_id it) i && expired t i in
  let hits := countb sel (items d) in
  if seasonal || (MAX_STALE_RECOVERY_ATTEMPTS <=? i_attempts it) then
    let d1 := d <| items := update_where sel (crash_row t) (items d) |> in
    if 0 <? hits then
      let d2 := d1 <| jobs := update_where (by_id (i_job it))
                        (λ j, bump_failed j <| j_heartbeat_at := Some t |>) (jobs d) |> in
      let d3 := insert_error d2 (i_job it) (Some (i_id it)) (i_photo it) (u "worker") (u "WORKER_CRASH")
                  (item_fingerprint (i_job it) (i_id it) (u "WORKER_CRASH"))
                  (u "Worker lease expired after bounded recovery attempts") t in
      (n + 1, log_event d3 (i_job it) (u "worker_crash") (u "Worker lease 超過上限，工作項目已終止")
                (JObj [(u "item_id", JStr (i_id it)); (u "attempts", JInt (i_attempts it));
                       (u "error_code", JStr (u "WORKER_CRASH"))]) t)
    else (n, d1)
  else (n + hits, d <| items := update_where sel (requeue_row t) (items d) |>).

(** The JOIN of the expired items with their jobs, in (job_id, id) order. *)
Definition recover_rows (d : db) (t : Z) : list (item * bool) :=
  omap (λ it, (λ j, (it, seasonal_job j)) <$> get d (i_job it))
    (sort_by recover_order (List.filter (expired t) (items d))).

(** [for row in rows]: the accumulator is threaded from the left. *)
Definition recover_all (t : Z) (rows : list (item * bool)) (acc : Z * db) : Z * db :=
  fold_left (λ a row, recover_one t row a) rows acc.

Definition recover_stale (d : db) (c : clock) : Z * db :=
  let t := now c in
  if existsb (expired t) (items d) || existsb (λ j, bool_decide (j_status j = JPausing)) (jobs d) then
    let '(n, d1) := recover_all t (recover_rows d t) (0, d) in
    let sel j := bool_decide (j_status j = JPausing) && negb (has_running_item d1 (j_id j)) in
    (n, d1 <| jobs := update_where sel (set_status_heartbeat JPaused t) (jobs d1) |>)
  else (0, d).

(** ** Reopening *)

Definition retry_failed (d : db) (c : clock) (job_id : str) : result job_exn (Z * db) :=
  match get d job_id with
  | Some j =>
      if negb (jstatus_in [JFailed; JCompletedWithErrors] (j_status j)) then Ok (0, d)
      else
        let failed i := of_job job_id i && has_istatus IFailed i in
        let conflict :=
          existsb (λ p, existsb (λ i, failed i && bool_decide (i_photo i = Some (p_id p))) (items d)
                        && reserved_analysis d p) (photos d) in
        raise_if (analysis_kind (j_kind j) && conflict) AnalysisReservationConflict ;;;
        let n := countb failed (items d) in
        let its := update_where failed
                     (λ i, i <| i_status := IPending |> <| i_available_at := now c |>
                             <| i_error_code := None |> <| i_completed_at := None |>
                             <| i_dead_lettered_at := None |>) (items d) in
        if n =? 0 then Ok (0, d <| items := its |>)
        else
          let* d1 := put_jobs (d <| items := its |>)
                       (update_where (λ j, by_id job_id j && jstatus_in [JFailed; JCompletedWithErrors] (j_status j))
                          (λ j, j <| j_status := JPending |> <| j_failed_items := 0 |>
                                  <| j_completed_at := None |>) (jobs d)) in
          Ok (n, d1)
  | None => Ok (0, d)
  end.

Definition abandon_unstarted (d : db) (c : clock) (job_id error_code : str) : bool * db :=
  let sel j := by_id job_id j && bool_decide (j_status j = JPending) in
  let js := update_where sel (finish_row JFailed (now c)) (jobs d) in
  if existsb sel (jobs d) then
    let its := update_where (waiting_of job_id)
                 (λ i, i <| i_status := IFailed |> <| i_completed_at := Some (now c) |>
                         <| i_error_code := Some error_code |>) (items d) in
    (true, add_event (d <| jobs := js |> <| items := its |>) job_id (u "reservation_conflict")
             (u "Batch reservation 未取得，工作已安全結束") jnone (later c))
  else (false, d <| jobs := js |>).

(** [reopen_batch_job] inside the caller's transaction (its only use): no
    event is logged while the connection is in a transaction. *)
Definition reopen_batch_job (d : db) (c : clock) (job_id : str) : result job_exn (bool * db) :=
  let sel j := by_id job_id j
               && jstatus_in [JPending; JRunning; JRetrying; JFailed; JCompletedWithErrors] (j_status j) in
  let* d1 := put_jobs d (update_where sel
                 (λ j, j <| j_status := JRunning |> <| j_completed_at := None |>
                         <| j_heartbeat_at := Some (now c) |>) (jobs d)) in
  if existsb sel (jobs d) then
    let its := update_where (λ i, of_job job_id i && istatus_in [IFailed; IRetrying] (i_status i))
                 (λ i, i <| i_status := IPending |> <| i_completed_at := None |>
                         <| i_error_code := None |> <| i_lease_until := None |>) (items d) in
    let completed := countb (λ i, of_job job_id i && has_istatus ICompleted i) its in
    let failed := countb (λ i, of_job job_id i && has_istatus IFailed i) its in
    let js := update_where (by_id job_id)
                (λ j, j <| j_completed_items := completed |> <| j_failed_items := failed |>) (jobs d1) in
    Ok (true, d1 <| jobs := js |> <| items := its |>)
  else Ok (false, d1).

(** ** Queries *)

(** [get_by_dedupe_key] *)
Definition get_by_dedupe_key (d : db) (key : str) (fp : option str) : result job_exn (option job * db) :=
  match newest (has_dedupe_key key) d with
  | None => Ok (None, d)
  | Some row =>
      if opt_truthy fp then
        let* r := reuse_existing d row fp in Ok (get r.2 r.1, r.2)
      else Ok (Some row, d)
  end.

Definition active_dedupe_job (d : db) (key : str) : option job :=
  newest (λ j, has_dedupe_key key j && jstatus_in in_flight (j_status j)) d.

Definition has_active_dedupe (d : db) (key : str) : bool :=
  match active_dedupe_job d key with Some _ => true | None => false end.

Definition item_id_leb (a b : item) : bool := str_leb (i_id a) (i_id b).

Definition failed_photo_ids (d : db) (job_id : str) : list str :=
  omap i_photo (sort_by item_id_leb
    (List.filter (λ i, of_job job_id i && has_istatus IFailed i) (items d))).

Definition failure_codes (d : db) (job_id : str) : list str :=
  omap (λ i, match i_error_code i with Some ((_ :: _) as s) => Some s | _ => None end)
    (sort_by item_id_leb (List.filter (of_job job_id) (items d))).

Definition can_access (d : db) (job_id user : str) (administrator : bool) : bool :=
  match get d job_id with
  | Some j => administrator || str_eqb (coalesce (j_created_by j)) user
  | None => false
  end.

Definition can_commit_item (d : db) (c : clock) (job_id item_id worker key : str) : bool :=
  match get d job_id, find_where (λ i, item_by_id item_id i && of_job job_id i) (items d) with
  | Some j, Some i =>
      jstatus_in [JRunning; JRetrying; JPausing] (j_status j)
      && has_istatus IRunning i
      && str_eqb (coalesce (i_worker i)) worker
      && str_eqb (coalesce (i_idempotency_key i)) key
      && match i_lease_until i with Some l => now c <? l | None => false end
  | _, _ => false
  end.

(** [iter_runnable]: keyset pagination over (priority, created_at, id). *)
Definition job_due (d : db) (t : Z) (j : job) : bool :=
  jstatus_in runnable (j_status j)
  && (existsb (λ i, of_job (j_id j) i && due t i) (items d)
      || negb (existsb (λ i, of_job (j_id j) i && istatus_in item_active (i_status i)) (items d))).

Definition run_key_ltb (a b : job) : bool :=
  (j_priority a <? j_priority b)
  || ((j_priority a =? j_priority b)
      && ((j_created_at a <? j_created_at b)
          || ((j_created_at a =? j_created_at b) && str_ltb (j_id a) (j_id b)))).
Definition run_key_leb (a b : job) : bool := negb (run_key_ltb b a).

Definition runnable_page (d : db) (t : Z) (page_size : Z) (last : option job) : list job :=
  take (Z.to_nat (Z.max 1 (Z.min page_size 500)))
    (sort_by run_key_leb
       (List.filter (λ j, job_due d t j && match last with Some l => run_key_ltb l j | None => true end)
          (jobs d))).

(** The generator's loop.  Each page is read in a session of its own and the
    consumer works on the jobs in between, so the pages come from a sequence
    of databases, one per page.  The answer is what was yielded and whether the
    generator has returned; it is suspended when the sequence is used up. *)
Fixpoint iter_runnable_from (pages : list db) (t page_size : Z) (last : option job) : list job * bool :=
  match pages with
  | [] => ([], false)
  | d :: pages' =>
      match runnable_page d t page_size last with
      | [] => ([], true)
      | rows => let '(more, ended) := iter_runnable_from pages' t page_size (List.last (map Some rows) None) in
                (rows ++ more, ended)
      end
  end.

Definition iter_runnable (pages : list db) (t page_size : Z) : list job * bool :=
  iter_runnable_from pages t page_size None.
