(* ===== verification/JobQueueWf.v ===== *)
(** * Well-formedness of the queue

    The invariant every transaction of [JobQueue] preserves: keys are unique,
    items belong to jobs, a photo occurs once per job, in-flight dedupe keys
    are unique, a running item has an owner, a lease and at least one
    attempt, and the job's counters agree with its items ([failed_items] may
    lag behind, see [abandon_unstarted]). *)

From S2P Require Import Prelude PyStr PyFloat Json Sql Sha256 Store Reservations JobQueue.
Local Open Scope Z_scope.

(** ** The invariant *)

Definition cnt (s : item_status) (k : str) (its : list item) : Z :=
  countb (λ i, of_job k i && has_istatus s i) its.

Definition lease_ok (i : item) : Prop :=
  0 ≤ i_attempts i ∧
  (i_status i = IRunning → is_Some (i_worker i) ∧ is_Some (i_lease_until i) ∧ 1 ≤ i_attempts i).

(** [failed_items] may lag behind (see [abandon_unstarted]), never lead. *)
Definition counters_ok (its : list item) (j : job) : Prop :=
  j_completed_items j = cnt ICompleted (j_id j) its ∧
  0 ≤ j_failed_items j ≤ cnt IFailed (j_id j) its ∧
  j_total_items j = countb (of_job (j_id j)) its.

Definition photo_pairs (its : list item) : list (str * str) :=
  omap (λ i, (λ p, (i_job i, p)) <$> i_photo i) its.

Record wf (js : list job) (its : list item) : Prop := mk_wf {
  wf_job_keys : keys_unique j_id js;
  wf_item_keys : keys_unique i_id its;
  wf_parent : ∀ i, i ∈ its → has_key j_id (i_job i) js = true;
  wf_photos : NoDup (photo_pairs its);
  wf_dedupe : NoDup (active_keys js);
  wf_priority : ∀ j, j ∈ js → 1 ≤ j_priority j ≤ 6;
  wf_lease : ∀ i, i ∈ its → lease_ok i;
  wf_counters : ∀ j, j ∈ js → counters_ok its j }.

Definition wf_db (d : db) : Prop := wf (jobs d) (items d).

(** ** Row functions that keep the identity columns *)

Definition item_frame (f : item → item) : Prop :=
  ∀ i, i_id (f i) = i_id i ∧ i_job (f i) = i_job i ∧ i_photo (f i) = i_photo i.
Definition job_frame (g : job → job) : Prop :=
  ∀ j, j_id (g j) = j_id j ∧ j_priority (g j) = j_priority j ∧
       j_dedupe_key (g j) = j_dedupe_key j ∧ j_total_items (g j) = j_total_items j.

Lemma of_job_eq k i : of_job k i = true ↔ i_job i = k.
Proof. unfold of_job. by bprop. Qed.
Lemma has_istatus_eq s i : has_istatus s i = true ↔ i_status i = s.
Proof. unfold has_istatus. by rewrite bool_decide_eq_true. Qed.
Lemma by_id_eq k j : by_id k j = true ↔ j_id j = k.
Proof. unfold by_id, by_key. by bprop. Qed.
Lemma item_by_id_eq k i : item_by_id k i = true ↔ i_id i = k.
Proof. unfold item_by_id, by_key. by bprop. Qed.
Lemma by_id_neq k j : by_id k j = false ↔ j_id j ≠ k.
Proof. unfold by_id, by_key. by bprop. Qed.
Lemma of_job_neq k i : of_job k i = false ↔ i_job i ≠ k.
Proof. unfold of_job. by bprop. Qed.
Lemma jstatus_true l s : jstatus_in l s = true ↔ s ∈ l.
Proof. apply jstatus_in_spec. Qed.

#[export] Hint Rewrite of_job_eq of_job_neq by_id_neq has_istatus_eq by_id_eq item_by_id_eq jstatus_in_spec jstatus_in_false
  istatus_in_spec istatus_in_false @bool_decide_eq_true @bool_decide_eq_false : ink_rw.

Lemma photo_pairs_update sel f its :
  item_frame f → photo_pairs (update_where sel f its) = photo_pairs its.
Proof.
  intros Hf. unfold photo_pairs, update_where. induction its as [|i its IH]; csimpl; [done|].
  rewrite IH. destruct (sel i); [|done]. destruct (Hf i) as (_ & -> & ->). done.
Qed.

Lemma active_key_Some k j : active_key j = Some k ↔ j_status j ∈ in_flight ∧ j_dedupe_key j = Some k.
Proof. unfold active_key. destruct (jstatus_in _ _) eqn:E; bprop; naive_solver. Qed.

Lemma active_keys_elem k js :
  k ∈ active_keys js ↔ ∃ j, j ∈ js ∧ j_status j ∈ in_flight ∧ j_dedupe_key j = Some k.
Proof. unfold active_keys. rewrite list_elem_of_omap. by setoid_rewrite active_key_Some. Qed.

(** Leaving the in-flight statuses, or staying in them, keeps the index. *)
Lemma active_keys_update sel g js :
  job_frame g →
  (∀ j, j ∈ js → sel j = true → j_status (g j) ∈ in_flight → j_status j ∈ in_flight) →
  NoDup (active_keys js) → NoDup (active_keys (update_where sel g js)).
Proof.
  intros Hg Hin.
  assert (Hj : ∀ j k, j ∈ js → active_key (if sel j then g j else j) = Some k → active_key j = Some k).
  { intros j k Hj. rewrite !active_key_Some. destruct (sel j) eqn:E; [|done].
    destruct (Hg j) as (_ & _ & -> & _). intros [Hs Hk]. eauto. }
  clear Hin Hg. induction js as [|j js IH]; [done|]. unfold active_keys, update_where. csimpl.
  fold (active_keys js) (update_where sel g js) (active_keys (update_where sel g js)).
  assert (IH' : NoDup (active_keys js) → NoDup (active_keys (update_where sel g js)))
    by (apply IH; intros; apply Hj; [by right|done]).
  destruct (active_key (if sel j then g j else j)) as [k|] eqn:E.
  - rewrite (Hj j k ltac:(left) E), !NoDup_cons. intros [Hn Hd]. split; [|by apply IH'].
    intros Hk. apply Hn. unfold active_keys in Hk |- *.
    apply list_elem_of_omap in Hk as (j' & (j0 & Hj0 & ->)%update_where_elem & Hk).
    apply list_elem_of_omap. exists j0. split; [done|]. apply Hj; [by right|done].
  - intros Hd. apply IH'. destruct (active_key j); [|done]. by apply NoDup_cons in Hd as [_ ?].
Qed.

(** ** The main preservation lemma: one UPDATE on items, one on jobs *)

Lemma wf_update js its (sel : item → bool) f (selj : job → bool) g :
  wf js its → item_frame f → job_frame g →
  (∀ i, i ∈ its → sel i = true → lease_ok (f i)) →
  (∀ j, j ∈ js → counters_ok (update_where sel f its) (if selj j then g j else j)) →
  NoDup (active_keys (update_where selj g js)) →
  wf (update_where selj g js) (update_where sel f its).
Proof.
  intros [Hjk Hik Hp Hph Hd Hpr Hl Hc] Hf Hg Hlease Hcnt Hnd. split.
  - apply keys_unique_update; [intros j; apply Hg|done].
  - apply keys_unique_update; [intros i; apply Hf|done].
  - intros i (i0 & Hi0 & ->)%update_where_elem. rewrite has_key_update by (intros j; apply Hg).
    destruct (sel i0); [|by apply Hp]. destruct (Hf i0) as (_ & -> & _). by apply Hp.
  - by rewrite photo_pairs_update.
  - done.
  - intros j (j0 & Hj0 & ->)%update_where_elem. destruct (selj j0); [|by apply Hpr].
    destruct (Hg j0) as (_ & -> & _). by apply Hpr.
  - intros i (i0 & Hi0 & ->)%update_where_elem. destruct (sel i0) eqn:E; [by apply Hlease|by apply Hl].
  - intros j (j0 & Hj0 & ->)%update_where_elem. by apply Hcnt.
Qed.

Lemma update_where_false {A} (f : A → A) l : update_where (λ _, false) f l = l.
Proof. apply update_where_none, existsb_none. done. Qed.

Lemma item_frame_id : item_frame (λ i, i).
Proof. by intros i. Qed.
Lemma job_frame_id : job_frame (λ j, j).
Proof. by intros j. Qed.

(** Only jobs change. *)
Lemma wf_update_jobs js its (selj : job → bool) g :
  wf js its → job_frame g →
  (∀ j, j ∈ js → selj j = true →
     j_completed_items (g j) = j_completed_items j ∧ j_failed_items (g j) = j_failed_items j) →
  NoDup (active_keys (update_where selj g js)) → wf (update_where selj g js) its.
Proof.
  intros Hw Hg Hc Hnd. rewrite <- (update_where_false (λ i, i) its).
  apply wf_update; [done|apply item_frame_id|done|done| |done].
  intros j Hj. rewrite update_where_false. pose proof (wf_counters _ _ Hw j Hj) as (H1 & H2 & H3).
  destruct (selj j) eqn:E; [|done]. destruct (Hc j Hj E) as [E1 E2]. destruct (Hg j) as (Ei & _ & _ & Et).
  unfold counters_ok. by rewrite Ei, E1, E2, Et.
Qed.

(** ** Counting status moves *)

Lemma cnt_move s s' k sel f its :
  item_frame f → (∀ i, i ∈ its → sel i = true → i_status (f i) = s') →
  cnt s k (update_where sel f its) =
    cnt s k its - countb (λ i, sel i && (of_job k i && has_istatus s i)) its
    + (if bool_decide (s = s') then countb (λ i, sel i && of_job k i) its else 0).
Proof.
  intros Hf Hs. unfold cnt. rewrite countb_update. induction its as [|i its IH].
  - rewrite !countb_nil. by destruct (bool_decide _).
  - rewrite !countb_cons, IH by (intros; apply Hs; [by right|done]).
    assert (E : sel i = true → of_job k (f i) = of_job k i ∧ has_istatus s (f i) = bool_decide (s = s')).
    { intros Hi. unfold of_job, has_istatus. destruct (Hf i) as (_ & -> & _).
      rewrite (Hs i) by (left || done). split; [done|]. by apply bool_decide_ext. }
    destruct (sel i); simpl; [destruct (E eq_refl) as [-> ->]|];
      destruct (of_job k i), (has_istatus s i), (bool_decide (s = s')); simpl; lia.
Qed.

Lemma count_of_job_update k sel f its :
  item_frame f → countb (of_job k) (update_where sel f its) = countb (of_job k) its.
Proof.
  intros Hf. apply countb_update_inv. intros i _ _. unfold of_job. by destruct (Hf i) as (_ & -> & _).
Qed.

(** A status that no selected row has, and that none enters, keeps its count. *)
Lemma cnt_same s k sel f its :
  item_frame f →
  (∀ i, i ∈ its → sel i = true → has_istatus s i = false ∧ has_istatus s (f i) = false) →
  cnt s k (update_where sel f its) = cnt s k its.
Proof.
  intros Hf Hs. apply countb_update_inv. intros i Hi Hsel. destruct (Hs i Hi Hsel) as [-> ->].
  by rewrite !andb_false_r.
Qed.

(** Rows of other jobs do not matter. *)
Lemma countb_other_job k k' (p : item → bool) its :
  k ≠ k' → (∀ i, i ∈ its → p i = true → i_job i = k) → countb (λ i, p i && of_job k' i) its = 0.
Proof.
  intros Hne Hp. apply countb_zero, existsb_none. intros i Hi.
  destruct (p i) eqn:E; [|done]. simpl. unfold of_job. rewrite (Hp i Hi E). by apply str_eqb_neq.
Qed.

Lemma countb_same_job k (p : item → bool) its :
  (∀ i, i ∈ its → p i = true → i_job i = k) → countb (λ i, p i && of_job k i) its = countb p its.
Proof.
  intros Hp. apply countb_ext. intros i Hi. destruct (p i) eqn:E; [|done]. simpl.
  unfold of_job. rewrite (Hp i Hi E). apply str_eqb_refl.
Qed.

(** A WHERE clause on the primary key hits exactly one row, or none. *)
Lemma countb_key_hit (sel : item → bool) k its :
  keys_unique i_id its → (∀ i, i ∈ its → sel i = true → i_id i = k) →
  countb sel its = if existsb sel its then 1 else 0.
Proof.
  intros Hu Hk. destruct (existsb sel its) eqn:E; [|by apply countb_zero].
  apply countb_pos in E. pose proof (countb_key_le i_id k sel its Hu).
  assert (countb (λ r, by_key i_id k r && sel r) its = countb sel its) as Eq; [|lia].
  apply countb_ext. intros i Hi. destruct (sel i) eqn:Es; [|by rewrite andb_false_r].
  unfold by_key. rewrite (Hk i Hi Es), str_eqb_refl. done.
Qed.

(** Selecting rows of one job by primary key and moving them to [s'] changes
    the counters of that job only, by the number of hits. *)
Lemma cnt_key_move s s' k (sel : item → bool) f its job_id item_id :
  keys_unique i_id its → item_frame f →
  (∀ i, i ∈ its → sel i = true → i_id i = item_id ∧ i_job i = job_id) →
  (∀ i, i ∈ its → sel i = true → i_status (f i) = s' ∧ has_istatus s i = false) →
  cnt s k (update_where sel f its) =
    cnt s k its + (if bool_decide (s = s') && str_eqb k job_id && existsb sel its then 1 else 0).
Proof.
  intros Hu Hf Hsel Hs. rewrite (cnt_move s s') by (done || intros; by apply Hs).
  assert (countb (λ i, sel i && (of_job k i && has_istatus s i)) its = 0) as ->.
  { apply countb_zero, existsb_none. intros i Hi. destruct (sel i) eqn:E; [|done].
    destruct (Hs i Hi E) as [_ ->]. by rewrite andb_false_r. }
  destruct (bool_decide (s = s')); simpl; [|lia].
  destruct (str_eqb k job_id) eqn:E; bprop; simpl.
  - subst k. rewrite countb_same_job by (intros; by apply Hsel).
    rewrite (countb_key_hit sel item_id) by (done || intros; by apply Hsel). lia.
  - rewrite (countb_other_job job_id k) by (done || intros; by apply Hsel). lia.
Qed.

(** ** Frames and small tactics *)

Ltac solve_frame := intros ?; repeat split; reflexivity.

Lemma wf_update_items js its (sel : item → bool) f :
  wf js its → item_frame f →
  (∀ i, i ∈ its → sel i = true → lease_ok (f i)) →
  (∀ j, j ∈ js → counters_ok (update_where sel f its) j) →
  wf js (update_where sel f its).
Proof.
  intros Hw Hf Hl Hc. rewrite <- (update_where_false (λ j, j) js).
  apply wf_update; [done|done|apply job_frame_id|done|done|].
  rewrite update_where_false. apply Hw.
Qed.

(** The counters of one job after an UPDATE of items moved its counts by
    [a] completed and [b] failed. *)
Lemma counters_shift its (sel : item → bool) f j j' a b b' :
  item_frame f → counters_ok its j →
  j_id j' = j_id j → j_total_items j' = j_total_items j →
  cnt ICompleted (j_id j) (update_where sel f its) = cnt ICompleted (j_id j) its + a →
  cnt IFailed (j_id j) (update_where sel f its) = cnt IFailed (j_id j) its + b →
  j_completed_items j' = j_completed_items j + a →
  j_failed_items j' = j_failed_items j + b' → 0 ≤ b' ≤ b →
  counters_ok (update_where sel f its) j'.
Proof.
  intros Hf (H1 & H2 & H3) Ei Et Ea Eb E1 E2 Hb. unfold counters_ok.
  rewrite Ei, Et, Ea, Eb, E1, E2, count_of_job_update by done. lia.
Qed.

Lemma counters_same its (sel : item → bool) f j :
  item_frame f → counters_ok its j →
  cnt ICompleted (j_id j) (update_where sel f its) = cnt ICompleted (j_id j) its →
  cnt IFailed (j_id j) its ≤ cnt IFailed (j_id j) (update_where sel f its) →
  counters_ok (update_where sel f its) j.
Proof.
  intros Hf (H1 & H2 & H3) Ea Eb. unfold counters_ok. rewrite Ea, count_of_job_update by done. lia.
Qed.

Lemma running_row_inv item_id job_id w i :
  running_row item_id job_id w i = true →
  i_id i = item_id ∧ i_job i = job_id ∧ i_status i = IRunning ∧ owned_by w i = true.
Proof. unfold running_row. rewrite !andb_true_iff. bprop. naive_solver. Qed.

Lemma live_row_inv item_id job_id i :
  live_row item_id job_id i = true →
  i_id i = item_id ∧ i_job i = job_id ∧ i_status i ∉ item_terminal.
Proof. unfold live_row. rewrite !andb_true_iff. bprop. naive_solver. Qed.

(** A row that is not terminal is neither completed nor failed. *)
Lemma not_terminal_has s i : i_status i ∉ item_terminal → s ∈ item_terminal → has_istatus s i = false.
Proof. intros Hi Hs. unfold has_istatus. rewrite bool_decide_eq_false. intros E. by rewrite E in Hi. Qed.

Lemma running_not_terminal i : i_status i = IRunning → i_status i ∉ item_terminal.
Proof. intros E. rewrite E. by apply (bool_decide_eq_false_1 (IRunning ∈ item_terminal)). Qed.

Lemma active_not_terminal i : i_status i ∈ item_active → i_status i ∉ item_terminal.
Proof. generalize (i_status i). intros s Hs Ht. by destruct s; apply (bool_decide_eq_true_2 _) in Hs, Ht. Qed.

(** Selected by primary key, moved from a live status to [s']: what every
    single-item transaction does to the counts. *)
Section single_row.
Context (its : list item) (sel : item → bool) (f : item → item).
Context (job_id item_id : str) (s' : item_status).
Hypothesis Hu : keys_unique i_id its.
Hypothesis Hf : item_frame f.
Hypothesis Hsel : ∀ i, i ∈ its → sel i = true → i_id i = item_id ∧ i_job i = job_id ∧ i_status i ∉ item_terminal.
Hypothesis Hs' : ∀ i, i ∈ its → sel i = true → i_status (f i) = s'.

Lemma single_cnt s k :
  s ∈ item_terminal →
  cnt s k (update_where sel f its) =
  cnt s k its + (if bool_decide (s = s') && str_eqb k job_id && existsb sel its then 1 else 0).
Proof.
  intros Hs. apply (cnt_key_move s s' k sel f its job_id item_id); [done|done| |].
  - intros i Hin Hi. destruct (Hsel i Hin Hi) as (? & ? & _). done.
  - intros i Hin Hi. split; [by apply Hs'|]. apply not_terminal_has; [|done]. by apply Hsel.
Qed.

(** The job row is bumped in step: completed by [a], failed by [b]. *)
Lemma single_counters j j' a b :
  counters_ok its j → j_id j' = j_id j → j_total_items j' = j_total_items j →
  a = (if bool_decide (ICompleted = s') && str_eqb (j_id j) job_id && existsb sel its then 1 else 0) →
  b = (if bool_decide (IFailed = s') && str_eqb (j_id j) job_id && existsb sel its then 1 else 0) →
  j_completed_items j' = j_completed_items j + a → j_failed_items j' = j_failed_items j + b →
  counters_ok (update_where sel f its) j'.
Proof.
  intros Hc Ei Et Ea Eb E1 E2. eapply (counters_shift its sel f j j' a b b); try done.
  - rewrite single_cnt by (by apply (bool_decide_eq_true_1 (ICompleted ∈ item_terminal))). by subst a.
  - rewrite single_cnt by (by apply (bool_decide_eq_true_1 (IFailed ∈ item_terminal))). by subst b.
  - subst b. case_match; lia.
Qed.
End single_row.

Lemma running_is_single item_id job_id w i :
  running_row item_id job_id w i = true →
  i_id i = item_id ∧ i_job i = job_id ∧ i_status i ∉ item_terminal.
Proof. intros (?&?&?&?)%running_row_inv. eauto using running_not_terminal. Qed.

(** A row that is not running satisfies the lease invariant if attempts do. *)
Lemma lease_ok_idle i : 0 ≤ i_attempts i → i_status i ≠ IRunning → lease_ok i.
Proof. intros Ha Hs. split; [done|]. by intros. Qed.

Lemma lease_ok_attempts i : lease_ok i → 0 ≤ i_attempts i.
Proof. by intros [? _]. Qed.

#[export] Hint Resolve lease_ok_idle lease_ok_attempts : ink.

Lemma wf_lease_attempts js its i : wf js its → i ∈ its → 0 ≤ i_attempts i.
Proof. intros Hw Hi. apply lease_ok_attempts. by apply (wf_lease _ _ Hw). Qed.

(** Jobs UPDATEs that stay out of the in-flight set keep the dedupe index. *)
Lemma wf_dedupe_update js its (selj : job → bool) g :
  wf js its → job_frame g →
  (∀ j, j ∈ js → selj j = true → j_status (g j) ∈ in_flight → j_status j ∈ in_flight) →
  NoDup (active_keys (update_where selj g js)).
Proof. intros Hw Hg Hs. apply active_keys_update; [done|done|apply Hw]. Qed.

(** One item changes by primary key, and its job row in step with it. *)
Lemma wf_single js its (sel : item → bool) f (selj : job → bool) g job_id item_id s' :
  wf js its → item_frame f → job_frame g →
  (∀ i, i ∈ its → sel i = true →
     (i_id i = item_id ∧ i_job i = job_id ∧ i_status i ∉ item_terminal) ∧ i_status (f i) = s' ∧ lease_ok (f i)) →
  (∀ j, j ∈ js →
     j_completed_items (if selj j then g j else j) = j_completed_items j +
       (if bool_decide (ICompleted = s') && str_eqb (j_id j) job_id && existsb sel its then 1 else 0) ∧
     j_failed_items (if selj j then g j else j) = j_failed_items j +
       (if bool_decide (IFailed = s') && str_eqb (j_id j) job_id && existsb sel its then 1 else 0)) →
  (∀ j, j ∈ js → selj j = true → j_status (g j) ∈ in_flight → j_status j ∈ in_flight) →
  wf (update_where selj g js) (update_where sel f its).
Proof.
  intros Hw Hf Hg Hi Hj Hs. apply wf_update; try done.
  - intros i Hin Hsel. by apply Hi.
  - intros j Hin. destruct (Hj j Hin) as [E1 E2].
    refine (single_counters its sel f job_id item_id s' _ Hf _ _ j _ _ _ _ _ _ eq_refl eq_refl E1 E2).
    + apply Hw.
    + intros i ??. by apply Hi.
    + intros i ??. by apply Hi.
    + by apply (wf_counters _ _ Hw).
    + destruct (selj j); [apply Hg|done].
    + destruct (selj j); [apply Hg|done].
  - by apply (wf_dedupe_update js its).
Qed.

(** The same without a jobs UPDATE. *)
Lemma wf_single_items js its (sel : item → bool) f job_id item_id s' :
  wf js its → item_frame f → s' ≠ ICompleted → s' ≠ IFailed →
  (∀ i, i ∈ its → sel i = true →
     (i_id i = item_id ∧ i_job i = job_id ∧ i_status i ∉ item_terminal) ∧ i_status (f i) = s' ∧ lease_ok (f i)) →
  wf js (update_where sel f its).
Proof.
  intros Hw Hf N1 N2 Hi. rewrite <- (update_where_false (λ j, j) js).
  eapply wf_single; [done|done|apply job_frame_id|exact Hi| |done].
  intros j _. rewrite !bool_decide_eq_false_2 by congruence. simpl. lia.
Qed.

(** Items of one job move between statuses that no counter tracks. *)
Lemma wf_untracked js its (sel : item → bool) f :
  wf js its → item_frame f →
  (∀ i, i ∈ its → sel i = true →
     (∀ s, s ∈ [ICompleted; IFailed] → has_istatus s i = false ∧ has_istatus s (f i) = false) ∧
     lease_ok (f i)) →
  wf js (update_where sel f its).
Proof.
  intros Hw Hf Hi. apply wf_update_items; [done|done|by apply Hi|].
  intros j Hj. apply counters_same; [done|by apply (wf_counters _ _ Hw)| |].
  - apply cnt_same; [done|]. intros i ??. apply Hi; [done..|left].
  - rewrite cnt_same; [done|done|]. intros i ??. apply Hi; [done..|]. right. left.
Qed.

(** Jobs UPDATEs that touch neither counters nor enter the in-flight set. *)
Lemma wf_jobs_quiet js its (selj : job → bool) g :
  wf js its → job_frame g →
  (∀ j, j_completed_items (g j) = j_completed_items j ∧ j_failed_items (g j) = j_failed_items j) →
  (∀ j, j ∈ js → selj j = true → j_status (g j) ∈ in_flight → j_status j ∈ in_flight) →
  wf (update_where selj g js) its.
Proof.
  intros Hw Hg Hc Hs. apply wf_update_jobs; [done|done|intros; apply Hc|by apply (wf_dedupe_update js its)].
Qed.

(** .. and those that set a status outside it. *)
Lemma wf_jobs_leave js its (selj : job → bool) g s :
  wf js its → job_frame g →
  (∀ j, j_completed_items (g j) = j_completed_items j ∧ j_failed_items (g j) = j_failed_items j) →
  (∀ j, j_status (g j) = s) → jstatus_in in_flight s = false →
  wf (update_where selj g js) its.
Proof.
  intros Hw Hg Hc Hs Hn. apply wf_jobs_quiet; [done|done|done|]. bprop. intros j _ _. by rewrite Hs.
Qed.

(** A jobs UPDATE guarded by the unique index. *)
Lemma put_jobs_ok d js d' : put_jobs d js = Ok d' → NoDup (active_keys js) ∧ d' = d <| jobs := js |>.
Proof. unfold put_jobs. destruct (nodupb _) eqn:E; [|done]. intros [= <-]. by apply nodupb_spec in E. Qed.

Lemma job_of_update j js (sel : job → bool) g : j ∈ js → (if sel j then g j else j) ∈ update_where sel g js.
Proof. intros Hj. apply update_where_elem. eauto. Qed.
