(* ===== verification/JobQueueInv.v ===== *)
(** * Every transaction keeps the queue well-formed

    One preservation lemma per operation of [JobQueue]; [QueueMachine] puts
    them together as an invariant of every reachable state. *)

From S2P Require Import Prelude PyStr PyFloat Json Sql Sha256 Store Reservations JobQueue JobQueueWf.
Local Open Scope Z_scope.

(** Logs, errors and other tables do not matter. *)
Lemma wf_db_eq d d' : wf_db d → jobs d' = jobs d → items d' = items d → wf_db d'.
Proof. unfold wf_db. by intros ? -> ->. Qed.

Definition same_queue (d d' : db) : Prop := jobs d' = jobs d ∧ items d' = items d.

Lemma add_event_queue d k e m j t : same_queue d (add_event d k e m j t).
Proof. done. Qed.
Lemma insert_error_queue d k i p co c f m t : same_queue d (insert_error d k i p co c f m t).
Proof. done. Qed.
Lemma upsert_error_queue d k i p c m t : same_queue d (upsert_error d k i p c m t).
Proof. unfold upsert_error. by case_goal. Qed.

Lemma wf_same_queue d d' : wf_db d → same_queue d d' → wf_db d'.
Proof. intros ? [??]. by eapply wf_db_eq. Qed.

(** ** Status transitions *)

Lemma heartbeat_wf js its (selj : job → bool) t :
  wf js its → wf (update_where selj (set_heartbeat t) js) its.
Proof. intros Hw. apply wf_jobs_quiet; [done|solve_frame|done|done]. Qed.

Lemma set_status_wf js its (selj : job → bool) s t :
  s ∉ in_flight → wf js its → wf (update_where selj (set_status_heartbeat s t) js) its.
Proof. intros Hs Hw. apply wf_jobs_quiet; [done|solve_frame|done|done]. Qed.

Lemma not_in_flight s : jstatus_in in_flight s = false → s ∉ in_flight.
Proof. by bprop. Qed.

Lemma terminal_not_in_flight s : s ∈ TERMINAL_STATUSES → s ∉ in_flight.
Proof. intros Hs Ht. by destruct s; apply (bool_decide_eq_true_2 _) in Hs, Ht. Qed.

Lemma runnable_in_flight s : s ∈ runnable → s ∈ in_flight.
Proof. intros Hs. apply (bool_decide_eq_true_1 _). by destruct s; apply (bool_decide_eq_true_2 _) in Hs. Qed.

Lemma finish_row_wf js its (selj : job → bool) s t :
  s ∈ TERMINAL_STATUSES → wf js its → wf (update_where selj (finish_row s t) js) its.
Proof.
  intros Hs%terminal_not_in_flight Hw. apply wf_jobs_quiet; [done|solve_frame|done|done].
Qed.

Lemma transition_wf d c k from s e b d' :
  transition d c k from s e = Ok (b, d') → wf_db d → wf_db d'.
Proof.
  unfold transition. intros H Hw. res_inv. apply put_jobs_ok in H as [Hn ->].
  assert (wf_db (d <| jobs := update_where (λ j, by_id k j && jstatus_in from (j_status j))
                    (set_status_heartbeat s (now c)) (jobs d) |>)) as Hd.
  { apply (wf_update_jobs (jobs d) (items d)); [done|solve_frame|done|done]. }
  case_in H0; res_inv; [|done]. by apply (wf_same_queue _ _ Hd).
Qed.

Lemma request_pause_wf d c k b d' : request_pause d c k = (b, d') → wf_db d → wf_db d'.
Proof.
  unfold request_pause. intros H Hw. case_in H; [|by res_inv].
  destruct (jstatus_in runnable (j_status j)) eqn:Er; [|by res_inv]. injection H as <- <-.
  apply get_row_Some in Heqo as [Hj Ek].
  apply (wf_jobs_quiet (jobs d) (items d)); [done|solve_frame|done|].
  intros j' Hj' Hk _. bprop. apply runnable_in_flight.
  rewrite (keys_unique_inj j_id (jobs d) j' j); [done|apply Hw|done|done|congruence].
Qed.

Lemma acknowledge_pause_wf d c k b d' : acknowledge_pause d c k = (b, d') → wf_db d → wf_db d'.
Proof.
  unfold acknowledge_pause. intros H Hw.
  pose proof (set_status_wf (jobs d) (items d)
    (λ j, by_id k j && bool_decide (j_status j = JPausing) && negb (has_running_item d (j_id j)))
    JPaused (now c) (not_in_flight JPaused eq_refl) Hw) as Hd.
  case_in H; res_inv; exact Hd.
Qed.

(** ** Bulk moves of a job's waiting items *)

Lemma waiting_of_inv k i : waiting_of k i = true → i_job i = k ∧ i_status i ∈ [IPending; IRetrying].
Proof. unfold waiting_of. by bprop. Qed.

Lemma waiting_untracked i s :
  i_status i ∈ [IPending; IRetrying] → s ∈ [ICompleted; IFailed] → has_istatus s i = false.
Proof.
  intros Hi Hs. unfold has_istatus. apply bool_decide_eq_false. intros E. rewrite E in Hi.
  by destruct s; apply (bool_decide_eq_true_2 _) in Hs, Hi.
Qed.

Lemma status_untracked i s s' :
  i_status i = s' → istatus_in [ICompleted; IFailed] s' = false → s ∈ [ICompleted; IFailed] →
  has_istatus s i = false.
Proof. intros <- Hn Hs. bprop. unfold has_istatus. apply bool_decide_eq_false. intros E. by rewrite E in Hn. Qed.

Lemma cancelled_jobs_wf js its (selj : job → bool) t :
  wf js its →
  wf (update_where selj (λ j, j <| j_status := JCancelled |> <| j_cancel_requested_at := Some t |>
                                <| j_completed_at := Some t |>) js) its.
Proof. intros Hw. by apply (wf_jobs_leave _ _ _ _ JCancelled); [done|solve_frame| | |]. Qed.

Lemma cancel_wf d c k b d' : cancel d c k = (b, d') → wf_db d → wf_db d'.
Proof.
  unfold cancel. intros H Hw.
  pose proof (cancelled_jobs_wf (jobs d) (items d)
    (λ j, by_id k j && negb (jstatus_in TERMINAL_STATUSES (j_status j))) (now c) Hw) as Hj.
  case_in H; res_inv; [|done].
  apply (wf_untracked _ (items d)); [exact Hj|solve_frame|]. intros i Hi [_ Hs]%waiting_of_inv. split.
  - intros s Hs'. split; [by apply waiting_untracked|]. by apply (status_untracked _ _ ICancelled).
  - apply lease_ok_idle; [|done]. exact (wf_lease_attempts (jobs d) (items d) i Hw Hi).
Qed.

(** Failing the waiting items of job [k]: its failed count can only grow. *)
Lemma cnt_failed_waiting k k' its f :
  item_frame f → (∀ i, i_status (f i) = IFailed) →
  cnt IFailed k' (update_where (waiting_of k) f its) =
  cnt IFailed k' its +
  (if str_eqb k' k then countb (waiting_of k) its else 0).
Proof.
  intros Hf Hs. rewrite (cnt_move IFailed IFailed) by (done || intros; apply Hs).
  rewrite bool_decide_eq_true_2 by done.
  assert (countb (λ i, waiting_of k i
                       && (of_job k' i && has_istatus IFailed i)) its = 0) as ->.
  { apply countb_zero, existsb_none. intros i _. apply not_true_iff_false. bprop.
    intros ([_ Hi]%waiting_of_inv & _ & E). rewrite E in Hi. by apply (bool_decide_eq_true_2 _) in Hi. }
  destruct (str_eqb k' k) eqn:E; bprop.
  - subst k'. rewrite countb_same_job; [lia|]. by intros i _ [? _]%waiting_of_inv.
  - rewrite (countb_other_job k k'); [lia|done|]. by intros i _ [? _]%waiting_of_inv.
Qed.

Lemma cnt_completed_waiting k k' its f :
  item_frame f → (∀ i, i_status (f i) = IFailed) →
  cnt ICompleted k' (update_where (waiting_of k) f its) =
  cnt ICompleted k' its.
Proof.
  intros Hf Hs. apply cnt_same; [done|]. intros i _ [_ Hi]%waiting_of_inv. split.
  - apply waiting_untracked; [done|left].
  - unfold has_istatus. by rewrite Hs.
Qed.

Lemma abandon_unstarted_wf d c k code b d' :
  abandon_unstarted d c k code = (b, d') → wf_db d → wf_db d'.
Proof.
  unfold abandon_unstarted. intros H Hw.
  assert (wf (update_where (λ j, by_id k j && bool_decide (j_status j = JPending))
                (finish_row JFailed (now c)) (jobs d)) (items d)) as Hj.
  { apply finish_row_wf; [|exact Hw]. by apply (bool_decide_eq_true_1 _). }
  case_in H; res_inv; [|done].
  apply (wf_update_items _ (items d)); [exact Hj|solve_frame| |].
  - intros i Hi _. apply lease_ok_idle; [|done]. exact (wf_lease_attempts (jobs d) (items d) i Hw Hi).
  - intros j Hin. apply counters_same; [solve_frame|by apply (wf_counters _ _ Hj)| |].
    + apply cnt_completed_waiting; [solve_frame|done].
    + rewrite cnt_failed_waiting; [|solve_frame|done].
      pose proof (countb_nonneg (waiting_of k) (items d)).
      case_match; lia.
Qed.

(** Two jobs UPDATEs in a row are one. *)
Lemma update_where_twice {A} (p q : A → bool) (f g : A → A) l :
  update_where q g (update_where p f l) =
  update_where (λ _, true) (λ r, if q (if p r then f r else r) then g (if p r then f r else r)
                                 else (if p r then f r else r)) l.
Proof. unfold update_where. by rewrite map_map. Qed.

Lemma fail_invalid_settings_wf d c k b d' :
  fail_invalid_settings d c k = (b, d') → wf_db d → wf_db d'.
Proof.
  unfold fail_invalid_settings. intros H Hw. case_in H; res_inv; [|done].
  set (selj := λ j, by_id k j && jstatus_in runnable (j_status j) && negb (has_running_item d (j_id j))).
  set (its := update_where (waiting_of k) (invalid_row (now c)) (items d)).
  assert (wf (update_where selj (λ j, j <| j_status := JFailed |> <| j_completed_at := Some (now c) |>
     <| j_heartbeat_at := Some (now c) |>) (jobs d)) (items d)) as Hj
    by (by apply (wf_jobs_leave _ _ _ _ JFailed); [exact Hw|solve_frame| | |]).
  apply (wf_update _ (items d)); [exact Hj|solve_frame|solve_frame| | |].
  - intros i Hi _. apply lease_ok_idle; [|done]. exact (wf_lease_attempts (jobs d) (items d) i Hw Hi).
  - intros j Hin. pose proof (wf_counters _ _ Hj j Hin) as (H1 & H2 & H3).
    assert (cnt ICompleted (j_id j) its = cnt ICompleted (j_id j) (items d)) as E1
      by (apply cnt_completed_waiting; [solve_frame|done]).
    assert (cnt IFailed (j_id j) (items d) ≤ cnt IFailed (j_id j) its) as E2.
    { unfold its. rewrite cnt_failed_waiting; [|solve_frame|done].
      pose proof (countb_nonneg (waiting_of k) (items d)).
      case_match; lia. }
    assert (countb (of_job (j_id j)) its = countb (of_job (j_id j)) (items d)) as E3
      by (apply count_of_job_update; solve_frame).
    destruct (by_id k j) eqn:Ek; unfold counters_ok; bprop; simpl; fold its; rewrite E1, E3.
    + subst k. fold (cnt IFailed (j_id j) its). pose proof (countb_nonneg
        (λ i, of_job (j_id j) i && has_istatus IFailed i) its). unfold cnt at 2. lia.
    + lia.
  - apply active_keys_update; [solve_frame|done|apply Hj].
Qed.

(** ** Claims, leases and single items *)

(** What a claim does: nothing, or take the selected rows of a runnable job. *)
Lemma claim_inv d c k w limit lease rows d' :
  claim d c k w limit lease = Ok (rows, d') →
  (rows = [] ∧ d' = d) ∨
  ∃ j openai backfill, get d k = Some j ∧ j_status j ∈ runnable ∧
    let ids := map i_id (claim_rows d (now c) k openai backfill limit) in
    let its := claim_ids ids w (now c) (later c + seconds lease) (items d) in
    d' = d <| items := its |> <| jobs := update_where (by_id k) (set_heartbeat (now c)) (jobs d) |> ∧
    rows = omap (λ i, get_row i_id i its) ids.
Proof.
  unfold claim. destruct (get d k) as [j|]; [|intros; res_inv; by left].
  destruct (negb _) eqn:Er; [intros; res_inv; by left|]. intros (mb & _ & H)%rbind_ok.
  apply rbind_ok in H as (lane & _ & H). cbv zeta in H.
  match type of H with (if ?b then _ else _) = _ => destruct b end; res_inv; [by left|].
  right. bprop. eexists j, _, _. split_and!; [done|done|reflexivity|reflexivity].
Qed.

Lemma claim_rows_elem d t k openai backfill limit i :
  i ∈ claim_rows d t k openai backfill limit → i ∈ items d ∧ i_job i = k ∧ due t i = true.
Proof.
  unfold claim_rows, limit_to. intros Hi.
  assert (i ∈ List.filter (λ i, of_job k i && due t i) (items d)) as Hf.
  { apply (sort_by_elem (claim_leb d openai backfill)). case_match; [done|].
    by apply elem_of_take in Hi as (? & ?%list_elem_of_lookup_2 & _). }
  apply filter_elem in Hf as [Hf Hd]. bprop. naive_solver.
Qed.

Lemma due_pending t i : due t i = true → i_status i = IPending ∧ i_available_at i ≤ t.
Proof. unfold due. by bprop. Qed.

(** A row hit by the UPDATE of a claim is one of the selected rows. *)
Lemma claim_hit d t k openai backfill limit i :
  keys_unique i_id (items d) → i ∈ items d →
  str_in (i_id i) (map i_id (claim_rows d t k openai backfill limit)) = true →
  i ∈ claim_rows d t k openai backfill limit.
Proof.
  intros Hu Hi Hs%str_in_elem. apply list_elem_of_In, in_map_iff in Hs as (i' & Ek & Hi'%list_elem_of_In).
  pose proof (claim_rows_elem _ _ _ _ _ _ _ Hi') as (Hin & _).
  by rewrite (keys_unique_inj i_id (items d) i i').
Qed.

Lemma claim_wf d c k w limit lease rows d' :
  claim d c k w limit lease = Ok (rows, d') → wf_db d → wf_db d'.
Proof.
  intros [[_ ->]|(j & openai & backfill & _ & _ & -> & _)]%claim_inv Hw; [done|].
  apply (heartbeat_wf _ _ (by_id k) (now c)).
  apply (wf_untracked (jobs d) (items d)); [exact Hw|solve_frame|]. intros i Hi Hs.
  apply claim_hit in Hs; [|apply Hw|done]. apply claim_rows_elem in Hs as (_ & _ & [Ei _]%due_pending).
  split.
  - intros s Hs'. split; [by apply (status_untracked _ _ IPending)|by apply (status_untracked _ _ IRunning)].
  - pose proof (wf_lease_attempts _ _ i Hw Hi). split; simpl; [lia|]. intros _. split_and!; [by eexists..|lia].
Qed.

Lemma renew_leases_wf d c k w lease n d' :
  renew_leases d c k w lease = (n, d') → wf_db d → wf_db d'.
Proof.
  unfold renew_leases. intros H Hw. res_inv. apply (heartbeat_wf _ _ (by_id k) (now c)).
  apply (wf_untracked (jobs d) (items d)); [exact Hw|solve_frame|]. intros i Hi Hs. bprop.
  destruct Hs as ((_ & _) & Es). split.
  - intros s Hs'. split; by apply (status_untracked _ _ IRunning).
  - destruct (wf_lease _ _ Hw i Hi) as [Ha Hl]. destruct (Hl Es) as (? & _ & ?).
    split; simpl; [done|]. intros _. split_and!; [done|by eexists|done].
Qed.

(** The usual jobs bump: [+1] on the selected job exactly when a row was hit. *)
Ltac bump_job :=
  let j := fresh "j" in
  intros j _; unfold by_id, by_key;
  destruct (str_eqb (j_id j) _) eqn:?; simpl; rewrite ?andb_true_r, ?andb_false_r; simpl;
  match goal with H : existsb _ _ = true |- _ => rewrite ?H | _ => idtac end; simpl; lia.

Lemma complete_item_wf render d c k i r cost w b d' :
  complete_item render d c k i r cost w = (b, d') → wf_db d → wf_db d'.
Proof.
  unfold complete_item. intros H Hw.
  assert (wf (jobs d) (update_where (running_row i k w) (cancel_row (now c)) (items d))) as Hc.
  { apply (wf_single_items _ _ _ _ k i ICancelled); [exact Hw|solve_frame|done|done|].
    intros i0 Hi Hs. split; [by eapply running_is_single|split; [done|]].
    apply lease_ok_idle; [|done]. exact (wf_lease_attempts _ _ i0 Hw Hi). }
  case_in H; [|res_inv; exact Hc]. case_in H; [res_inv; exact Hc|].
  destruct (existsb (running_row i k w) (items d)) eqn:Eh; res_inv.
  - apply (wf_single (jobs d) (items d) _ _ _ _ k i ICompleted); [exact Hw|solve_frame|solve_frame| | |done].
    + intros i0 Hi Hs. split; [by eapply running_is_single|split; [done|]].
      apply lease_ok_idle; [|done]. exact (wf_lease_attempts _ _ i0 Hw Hi).
    + bump_job.
  - unfold wf_db. simpl. rewrite update_where_none; [exact Hw|done].
Qed.

(** Every other single-item transaction goes through one of these two. *)
Lemma single_row_wf js its (sel : item → bool) f k i s' :
  wf js its → item_frame f → s' ≠ IRunning → s' ≠ ICompleted → s' ≠ IFailed →
  (∀ i0, sel i0 = true → i_id i0 = i ∧ i_job i0 = k ∧ i_status i0 ∉ item_terminal) →
  (∀ i0, i_status (f i0) = s' ∧ i_attempts (f i0) = i_attempts i0) →
  wf js (update_where sel f its).
Proof.
  intros Hw Hf N1 N2 N3 Hsel Hs. apply (wf_single_items _ _ _ _ k i s'); try done.
  intros i0 Hi Hi0. destruct (Hs i0) as [Es Ea]. split; [by apply Hsel|split; [done|]].
  apply lease_ok_idle; [|congruence]. rewrite Ea. by apply (wf_lease_attempts js its).
Qed.

Lemma bumped_row_wf js its (sel : item → bool) f g k i s' :
  wf js its → item_frame f → job_frame g → s' ∈ [ICompleted; IFailed] →
  existsb sel its = true →
  (∀ i0, i0 ∈ its → sel i0 = true → i_id i0 = i ∧ i_job i0 = k ∧ i_status i0 ∉ item_terminal) →
  (∀ i0, i_status (f i0) = s' ∧ i_attempts (f i0) = i_attempts i0) →
  (∀ j, j_status (g j) = j_status j ∧
        j_completed_items (g j) = j_completed_items j + (if bool_decide (ICompleted = s') then 1 else 0) ∧
        j_failed_items (g j) = j_failed_items j + (if bool_decide (IFailed = s') then 1 else 0)) →
  wf (update_where (by_id k) g js) (update_where sel f its).
Proof.
  intros Hw Hf Hg Hs' Hh Hsel Hs Hj. apply (wf_single js its _ _ _ _ k i s'); try done.
  - intros i0 Hi Hi0. destruct (Hs i0) as [Es Ea]. split; [by apply Hsel|split; [done|]].
    apply lease_ok_idle; [|intros E; rewrite <- Es, E in Hs'; by apply (bool_decide_eq_true_2 _) in Hs'].
    rewrite Ea. by apply (wf_lease_attempts js its).
  - intros j _. destruct (Hj j) as (_ & E1 & E2). rewrite Hh, !andb_true_r. unfold by_id, by_key.
    destruct (str_eqb (j_id j) k); rewrite ?andb_true_r, ?andb_false_r; [by rewrite E1, E2|lia].
  - intros j _ _. by destruct (Hj j) as (-> & _).
Qed.

Ltac bumped k i s :=
  apply (bumped_row_wf _ _ _ _ _ k i s);
  [assumption|solve_frame|solve_frame|by apply (bool_decide_eq_true_1 _)|assumption| |done|
   intros; simpl; repeat split; lia].

(** A miss leaves the items as they are. *)
Lemma wf_miss js its (sel : item → bool) f :
  existsb sel its = false → wf js its → wf js (update_where sel f its).
Proof. intros H. by rewrite update_where_none. Qed.

Lemma record_late_completion_wf d c k i r cost w b d' :
  record_late_completion d c k i r cost w = (b, d') → wf_db d → wf_db d'.
Proof.
  unfold record_late_completion. intros H Hw.
  destruct (existsb (running_row i k w) (items d)) eqn:Eh; res_inv; [|by apply wf_miss].
  bumped k i IFailed. intros ? _. apply running_is_single.
Qed.

Lemma complete_batch_item_wf d c k i r cost b d' :
  complete_batch_item d c k i r cost = (b, d') → wf_db d → wf_db d'.
Proof.
  unfold complete_batch_item. intros H Hw.
  destruct (existsb (live_row i k) (items d)) eqn:Eh; res_inv; [|by apply wf_miss].
  bumped k i ICompleted. intros ? _. apply live_row_inv.
Qed.

Lemma fail_batch_item_wf d c k i code m b d' :
  fail_batch_item d c k i code m = (b, d') → wf_db d → wf_db d'.
Proof.
  unfold fail_batch_item. intros H Hw. case_in H; res_inv; [|done].
  assert (existsb (live_row i k) (items d) = true) as Eh.
  { apply find_where_Some in Heqo as [??]. apply existsb_elem. eauto. }
  bumped k i IFailed. intros ? _. apply live_row_inv.
Qed.

Lemma cancel_batch_item_wf d c k i reason b d' :
  cancel_batch_item d c k i reason = (b, d') → wf_db d → wf_db d'.
Proof.
  unfold cancel_batch_item. intros H Hw.
  match type of H with context [update_where _ ?f (items d)] =>
    assert (wf (jobs d) (update_where (live_row i k) f (items d))) as Hc end.
  { by apply (single_row_wf _ _ _ _ k i ICancelled); [exact Hw|solve_frame| | | |apply live_row_inv|]. }
  case_in H; res_inv; [|done]. by apply heartbeat_wf.
Qed.

Lemma running_id_inv i k w (its : list item) i0 i1 :
  keys_unique i_id its → i0 ∈ its → i1 ∈ its →
  running_row i k w i0 = true → item_by_id i i1 = true → i1 = i0.
Proof.
  intros Hu H0 H1 (E & _)%running_row_inv E1. bprop.
  apply (keys_unique_inj i_id its); congruence.
Qed.

Lemma fail_item_wf d c k i code m max ri w b d' :
  fail_item d c k i code m max ri w = (b, d') → wf_db d → wf_db d'.
Proof.
  unfold fail_item. intros H Hw. case_in H; [|by res_inv]. injection H as <- <-.
  rename i0 into it. apply find_where_Some in Heqo as [Hin Hr].
  assert (∀ i1, i1 ∈ items d → item_by_id i i1 = true →
            i_id i1 = i ∧ i_job i1 = k ∧ i_status i1 ∉ item_terminal) as Hsel.
  { intros i1 H1 E1. rewrite (running_id_inv i k w (items d) it i1); try done; [|apply Hw].
    by eapply running_is_single. }
  eapply wf_same_queue; [|apply upsert_error_queue]. case_goal.
  - assert (existsb (item_by_id i) (items d) = true) as Eh.
    { apply existsb_elem. exists it. split; [done|]. bprop. by apply running_row_inv in Hr as (? & _). }
    bumped k i IFailed. exact Hsel.
  - apply (wf_single_items _ _ _ _ k i IPending); [exact Hw|solve_frame|done|done|].
    intros i1 H1 E1. split; [by apply Hsel|split; [done|]]. apply lease_ok_idle; [|done].
    exact (wf_lease_attempts _ _ i1 Hw H1).
Qed.

Lemma running_untracked i s :
  i_status i = IRunning → s ∈ [ICompleted; IFailed] → has_istatus s i = false.
Proof. intros. by apply (status_untracked _ _ IRunning). Qed.
Lemma pending_untracked i s :
  i_status i = IPending → s ∈ [ICompleted; IFailed] → has_istatus s i = false.
Proof. intros. by apply (status_untracked _ _ IPending). Qed.

Lemma defer_item_wf d c i w delay dp code b d' :
  defer_item d c i w delay dp code = (b, d') → wf_db d → wf_db d'.
Proof.
  unfold defer_item. intros H Hw.
  match type of H with context [update_where ?s ?f (items d)] =>
    assert (wf (jobs d) (update_where s f (items d))) as H1; [|set (its := update_where s f (items d)) in *]
  end.
  { apply wf_untracked; [exact Hw|solve_frame|]. intros i0 Hi Hs. bprop. destruct Hs as [[_ Hs] _].
    split; [intros; by auto using running_untracked, pending_untracked|].
    apply lease_ok_idle; simpl; [lia|done]. }
  case_in H; res_inv; [|exact H1]. unfold wf_db. simpl. destruct dp; [|done].
  destruct (get_row i_id i its) as [row|]; [|done].
  apply wf_untracked; [exact H1|solve_frame|]. intros i0 Hi Hs. bprop. destruct Hs as [_ Hs].
  split; [intros; split; by apply pending_untracked|].
  split; simpl; [by apply (wf_lease_attempts _ _ i0 H1 Hi)|]. by rewrite Hs.
Qed.

(** ** Finishing *)

(** A caller-owned finalizer writes other tables than the queue's. *)
Definition frames_finalizer (f : option finalizer) : Prop :=
  ∀ g k s d d', f = Some g → g k s d = Ok d' → same_queue d d'.

Lemma run_finalizer_spec f k s t d s' d' :
  run_finalizer f k s t d = (s', d') → frames_finalizer f →
  same_queue d d' ∧ (s' = s ∨ s' = JCompletedWithErrors).
Proof.
  unfold run_finalizer. intros H Hf. destruct f as [g|]; [|res_inv; split; [done|by left]].
  destruct (g k s d) as [d1|[cls msg]] eqn:E; injection H as <- <-; [|split; [done|by right]].
  split; [by eapply Hf|by left].
Qed.

Lemma finalize_if_done_wf d c k f b d' :
  finalize_if_done d c k f = (b, d') → frames_finalizer f → wf_db d → wf_db d'.
Proof.
  unfold finalize_if_done. intros H Hf Hw. case_in H; [|by res_inv]. case_in H; [by res_inv|].
  case_in H; [by res_inv|]. destruct (run_finalizer _ _ _ _ _) as [s d1] eqn:Er.
  apply run_finalizer_spec in Er as [[Ej Ei] Hs]; [|done].
  assert (wf (update_where (λ j, by_id k j && jstatus_in runnable (j_status j))
                (finish_row s (now c)) (jobs d1)) (items d1)) as H1.
  { rewrite Ej, Ei. apply finish_row_wf; [|exact Hw]. apply (bool_decide_eq_true_1 _).
    destruct Hs as [-> | ->]; [|done]. by case_goal. }
  case_in H; res_inv; exact H1.
Qed.

Lemma finalize_batch_job_wf d c k s b d' :
  finalize_batch_job d c k s = Ok (b, d') → wf_db d → wf_db d'.
Proof.
  unfold finalize_batch_job. intros H Hw. res_inv. bprop. by apply finish_row_wf.
Qed.

(** ** Recovery *)

Lemma expired_running t i : expired t i = true → i_status i = IRunning.
Proof. unfold expired. bprop. by intros [? _]. Qed.

(** The rows still belong to the job they had when they were selected. *)
Definition rows_fit (rows : list (item * bool)) (its : list item) : Prop :=
  ∀ r i, r ∈ rows → i ∈ its → i_id i = i_id r.1 → i_job i = i_job r.1.

Lemma rows_fit_update rows its (sel : item → bool) f :
  item_frame f → rows_fit rows its → rows_fit rows (update_where sel f its).
Proof.
  intros Hf Hr r i Hin (i0 & Hi0 & ->)%update_where_elem E. destruct (sel i0); [|by apply Hr].
  destruct (Hf i0) as (E1 & -> & _). apply Hr; [done|done|congruence].
Qed.

Lemma recover_one_items t row n d :
  ∃ f, item_frame f ∧
  items (recover_one t row (n, d)).2 = update_where (λ i, item_by_id (i_id row.1) i && expired t i) f (items d).
Proof.
  destruct row as [it seasonal]. unfold recover_one. case_goal; [case_goal|]; eexists;
    (split; [|reflexivity]); solve_frame.
Qed.

Lemma recover_one_wf t row n d :
  rows_fit [row] (items d) → wf_db d → wf_db (recover_one t row (n, d)).2.
Proof.
  intros Hr Hw. destruct row as [it seasonal]. unfold recover_one.
  set (sel := λ i, item_by_id (i_id it) i && expired t i).
  assert (∀ i, i ∈ items d → sel i = true →
            i_id i = i_id it ∧ i_job i = i_job it ∧ i_status i ∉ item_terminal) as Hsel.
  { intros i Hi [E1 E2%expired_running]%andb_true_iff. bprop.
    split_and!; [done| |by apply running_not_terminal]. eapply (Hr (it, seasonal) i); [left|done|done]. }
  case_goal; [destruct (0 <? countb sel (items d)) eqn:Eh|].
  - bprop. apply countb_pos in Eh. bumped (i_job it) (i_id it) IFailed. exact Hsel.
  - apply wf_miss; [|done]. apply countb_zero. bprop. pose proof (countb_nonneg sel (items d)). lia.
  - apply (wf_single_items _ _ _ _ (i_job it) (i_id it) IPending); [exact Hw|solve_frame|done|done|].
    intros i Hi Hs. split; [by apply Hsel|split; [done|]]. apply lease_ok_idle; [|done].
    exact (wf_lease_attempts _ _ i Hw Hi).
Qed.

Lemma recover_all_wf t rows acc :
  rows_fit rows (items acc.2) → wf_db acc.2 → wf_db (recover_all t rows acc).2.
Proof.
  revert acc. induction rows as [|r rows IH]; intros [n d] Hr Hw; [done|].
  unfold recover_all. cbn [fold_left]. apply IH.
  - destruct (recover_one_items t r n d) as (f & Hf & ->). apply rows_fit_update; [done|].
    intros r' i ?. apply Hr. by right.
  - apply recover_one_wf; [|done]. intros r' i ->%list_elem_of_singleton. apply Hr. left.
Qed.

Lemma recover_rows_fit d t : keys_unique i_id (items d) → rows_fit (recover_rows d t) (items d).
Proof.
  intros Hu r i Hr Hi E. unfold recover_rows in Hr. apply list_elem_of_omap in Hr as (it & Hit & Hj).
  destruct (get d (i_job it)); [|done]. injection Hj as <-. simpl in *.
  rewrite sort_by_elem, filter_elem in Hit. destruct Hit as [Hit _].
  by rewrite (keys_unique_inj i_id (items d) i it).
Qed.

Lemma recover_stale_wf d c n d' : recover_stale d c = (n, d') → wf_db d → wf_db d'.
Proof.
  unfold recover_stale. intros H Hw. case_in H; [|by res_inv].
  pose proof (recover_all_wf (now c) (recover_rows d (now c)) (0, d)
                (recover_rows_fit d (now c) (wf_item_keys _ _ Hw)) Hw) as H1.
  destruct (recover_all _ _ _) as [n1 d1]. res_inv. by apply set_status_wf; [apply not_in_flight|].
Qed.

(** ** Reopening: failed items go back to pending *)

(** Rows leave the failed status: completed counts stay, failed counts do not
    grow, and those of other jobs stay. *)
Lemma cnt_leave_failed k s its (sel : item → bool) f :
  item_frame f → s ∈ [ICompleted; IFailed] → (∀ i, i ∈ its → sel i = true → i_status (f i) = IPending) →
  (∀ i, i ∈ its → sel i = true → of_job k i && has_istatus s i = false) →
  cnt s k (update_where sel f its) = cnt s k its.
Proof.
  intros Hf Hs Hp Hn. apply countb_update_inv. intros i Hi Hsel. rewrite (Hn i Hi Hsel).
  rewrite (pending_untracked (f i) s); [by rewrite andb_false_r|by apply Hp|done].
Qed.

Lemma retry_failed_wf d c k n d' : retry_failed d c k = Ok (n, d') → wf_db d → wf_db d'.
Proof.
  unfold retry_failed. intros H Hw. case_in H; [|by res_inv]. case_in H; [by res_inv|].
  apply rbind_ok in H as (_ & _ & H). apply get_row_Some in Heqo as [Hj <-]. bprop.
  set (sel := λ i, of_job (j_id j) i && has_istatus IFailed i) in *.
  case_in H; bprop.
  - res_inv. by apply wf_miss; [apply countb_zero|].
  - apply rbind_ok in H as (d1 & [Hn ->]%put_jobs_ok & H). res_inv.
    apply (wf_update (jobs d) (items d)); [exact Hw|solve_frame|solve_frame| | |exact Hn].
    { intros i Hi _. apply lease_ok_idle; [|done]. exact (wf_lease_attempts _ _ i Hw Hi). }
    intros j' Hj'. pose proof (wf_counters _ _ Hw j' Hj') as (H1 & H2 & H3).
    unfold counters_ok. match goal with |- context [update_where sel ?f (items d)] => set (g := f) end.
    assert (cnt ICompleted (j_id j') (update_where sel g (items d)) = cnt ICompleted (j_id j') (items d)) as E1.
    { apply cnt_leave_failed; [solve_frame|by apply (bool_decide_eq_true_1 _)|done|].
      intros i _ Hs. unfold sel in Hs. apply not_true_iff_false. bprop. destruct Hs as [_ Hs]. intros [_ E]. congruence. }
    assert (countb (of_job (j_id j')) (update_where sel g (items d)) = countb (of_job (j_id j')) (items d)) as E2
      by (apply count_of_job_update; solve_frame).
    pose proof (countb_nonneg (λ i, of_job (j_id j') i && has_istatus IFailed i) (update_where sel g (items d))).
    destruct (by_id (j_id j) j' && _) eqn:Es; simpl; rewrite E1, E2.
    + split_and!; [done|lia|unfold cnt; lia|done].
    + rewrite cnt_leave_failed; [done|solve_frame|by apply (bool_decide_eq_true_1 _)|done|].
      intros i _ Hs. unfold sel in Hs. apply not_true_iff_false. bprop. intros [E3 _].
      destruct Hs as [Hs _]. assert (j_id j' = j_id j) as Ej by congruence.
      destruct Es as [Es|Es]; [done|]. apply Es.
      by rewrite (keys_unique_inj j_id (jobs d) j' j); [|apply Hw|..].
Qed.

(** The UPDATE and recount of a reopened job, on items of job [k] only. *)
Lemma recount_wf js its (sel : item → bool) f k :
  wf js its → item_frame f →
  (∀ i, i ∈ its → sel i = true → i_job i = k ∧ lease_ok (f i)) →
  let its' := update_where sel f its in
  wf (update_where (by_id k) (λ j, j <| j_completed_items := cnt ICompleted k its' |>
                                    <| j_failed_items := cnt IFailed k its' |>) js) its'.
Proof.
  intros Hw Hf Hs its'. apply wf_update; [done|done|solve_frame|by apply Hs| |].
  - intros j Hj. pose proof (wf_counters _ _ Hw j Hj) as (H1 & H2 & H3). unfold counters_ok.
    assert (countb (of_job (j_id j)) its' = countb (of_job (j_id j)) its) as E3
      by (by apply count_of_job_update).
    destruct (by_id k j) eqn:Ek; bprop; simpl; fold its'; rewrite E3.
    + subst k. split_and!; [done|apply countb_nonneg|done|done].
    + assert (∀ s, cnt s (j_id j) its' = cnt s (j_id j) its) as E; [|by rewrite !E].
      intros s. apply countb_update_inv. intros i Hi Hi'. destruct (Hs i Hi Hi') as [Ej _].
      unfold of_job. destruct (Hf i) as (_ & -> & _). rewrite Ej.
      rewrite (proj2 (str_eqb_neq k (j_id j))); [done|congruence].
  - apply active_keys_update; [solve_frame|done|apply Hw].
Qed.

Lemma reopen_batch_job_wf d c k b d' : reopen_batch_job d c k = Ok (b, d') → wf_db d → wf_db d'.
Proof.
  unfold reopen_batch_job. intros H Hw. apply rbind_ok in H as (d1 & [Hn ->]%put_jobs_ok & H).
  match type of Hn with NoDup (active_keys ?l) => assert (wf l (items d)) as H1 end.
  { apply wf_update_jobs; [exact Hw|solve_frame|done|done]. }
  case_in H; res_inv; [|exact H1]. apply (recount_wf _ (items d)); [exact H1|solve_frame|].
  intros i Hi Hs. bprop. split; [by destruct Hs|]. apply lease_ok_idle; [|done].
  exact (wf_lease_attempts _ _ i Hw Hi).
Qed.

(** ** Inserting *)

Lemma reuse_existing_wf d j fp r d' : reuse_existing d j fp = Ok (r, d') → wf_db d → wf_db d'.
Proof.
  unfold reuse_existing. intros H Hw. case_in H; [done|]. case_in H; res_inv; [|done].
  by apply (wf_jobs_quiet (jobs d) (items d)); [exact Hw|solve_frame|done|].
Qed.

Lemma clamp_priority_bounds p : 1 ≤ clamp_priority p ≤ 6.
Proof. unfold clamp_priority. lia. Qed.

Lemma photo_pairs_app its i :
  photo_pairs (its ++ [i]) = photo_pairs its ++ match i_photo i with Some p => [(i_job i, p)] | None => [] end.
Proof. unfold photo_pairs. rewrite omap_app. csimpl. by destruct (i_photo i). Qed.

Lemma photo_pairs_elem k p its :
  (k, p) ∈ photo_pairs its ↔ ∃ i, i ∈ its ∧ i_job i = k ∧ i_photo i = Some p.
Proof.
  unfold photo_pairs. rewrite list_elem_of_omap. split.
  - intros (i & Hi & E). destruct (i_photo i) eqn:Ep; naive_solver.
  - intros (i & Hi & <- & Ep). exists i. by rewrite Ep.
Qed.

(** The items a new job gets: pending, unattempted, of that job. *)
Definition fresh_item (k : str) (i : item) : Prop :=
  i_job i = k ∧ i_status i = IPending ∧ i_attempts i = 0.

Lemma count_fresh k k' news :
  Forall (fresh_item k) news → k' ≠ k → countb (of_job k') news = 0.
Proof.
  intros Hn Hk. apply countb_zero, existsb_none. intros i Hi. rewrite Forall_forall in Hn.
  destruct (Hn i Hi) as (E & _). bprop. congruence.
Qed.

Lemma cnt_fresh s k k' news :
  Forall (fresh_item k) news → s ∈ [ICompleted; IFailed] → cnt s k' news = 0.
Proof.
  intros Hn Hs. apply countb_zero, existsb_none. intros i Hi. rewrite Forall_forall in Hn.
  destruct (Hn i Hi) as (_ & E & _). by rewrite (pending_untracked i s E Hs), andb_false_r.
Qed.

Lemma count_no_parent js its k s :
  wf js its → has_key j_id k js = false → cnt s k its = 0 ∧ countb (of_job k) its = 0.
Proof.
  intros Hw Hk. assert (∀ i, i ∈ its → of_job k i = false) as Hn.
  { intros i Hi. bprop. intros <-. pose proof (wf_parent _ _ Hw i Hi). congruence. }
  split; apply countb_zero, existsb_none; intros i Hi; by rewrite (Hn i Hi).
Qed.

Lemma count_all_fresh k news :
  Forall (fresh_item k) news → countb (of_job k) news = Z.of_nat (length news).
Proof.
  induction 1 as [|i news Hi _ IH]; [done|]. rewrite countb_cons, IH. destruct Hi as (E & _).
  rewrite (proj2 (of_job_eq k i) E). simpl. lia.
Qed.

(** A job arrives with its items. *)
Lemma wf_insert js its j news :
  wf js its → has_key j_id (j_id j) js = false → NoDup (active_keys (js ++ [j])) →
  1 ≤ j_priority j ≤ 6 → j_completed_items j = 0 → j_failed_items j = 0 →
  j_total_items j = Z.of_nat (length news) →
  Forall (fresh_item (j_id j)) news → keys_unique i_id (its ++ news) → NoDup (photo_pairs (its ++ news)) →
  wf (js ++ [j]) (its ++ news).
Proof.
  intros Hw Hk Hn Hp E1 E2 E3 Hf Hu Hph.
  assert (∀ k, has_key j_id k (js ++ [j]) = has_key j_id k js || str_eqb (j_id j) k) as Hhas.
  { intros k. unfold has_key. rewrite existsb_app. simpl. by rewrite orb_false_r. }
  split; [by apply keys_unique_insert; [|apply Hw]|done| |done|done| | |].
  - intros i [Hi|Hi]%elem_of_app; rewrite Hhas; [by rewrite (wf_parent _ _ Hw i Hi)|].
    rewrite Forall_forall in Hf. destruct (Hf i Hi) as (-> & _). by rewrite str_eqb_refl, orb_true_r.
  - intros j' [Hj| ->%list_elem_of_singleton]%elem_of_app; [|done]. by apply (wf_priority _ _ Hw).
  - intros i [Hi|Hi]%elem_of_app; [by apply (wf_lease _ _ Hw)|].
    rewrite Forall_forall in Hf. destruct (Hf i Hi) as (_ & Es & Ea). apply lease_ok_idle; [lia|by rewrite Es].
  - intros j' Hj. unfold counters_ok, cnt. rewrite !countb_app. fold (cnt ICompleted (j_id j') its)
      (cnt IFailed (j_id j') its) (cnt ICompleted (j_id j') news) (cnt IFailed (j_id j') news).
    rewrite !(cnt_fresh _ (j_id j) (j_id j') news) by (done || by apply (bool_decide_eq_true_1 _)).
    apply elem_of_app in Hj as [Hj| ->%list_elem_of_singleton].
    + destruct (wf_counters _ _ Hw j' Hj) as (H1 & H2 & H3).
      assert (j_id j' ≠ j_id j) as Hne.
      { intros E. rewrite <- E in Hk. unfold has_key in Hk. rewrite existsb_none in Hk.
        apply Hk in Hj. unfold by_key in Hj. by rewrite str_eqb_refl in Hj. }
      rewrite (count_fresh (j_id j) _ news) by done. lia.
    + destruct (count_no_parent js its (j_id j) ICompleted Hw Hk) as [-> ->].
      destruct (count_no_parent js its (j_id j) IFailed Hw Hk) as [-> _].
      rewrite (count_all_fresh (j_id j)) by done. lia.
Qed.

Lemma insert_maintenance_wf d j i t d' :
  insert_maintenance d j i t = Ok d' → 1 ≤ j_priority j ≤ 6 →
  j_completed_items j = 0 → j_failed_items j = 0 → j_total_items j = 1 → wf_db d → wf_db d'.
Proof.
  unfold insert_maintenance. intros H Hp E1 E2 E3 Hw.
  apply rbind_ok in H as (_ & Hk%raise_if_ok & H). apply rbind_ok in H as (d1 & [Hn ->]%put_jobs_ok & H).
  apply rbind_ok in H as (_ & Hi%raise_if_ok & H). injection H as <-.
  apply (wf_insert (jobs d) (items d)); try done.
  - by repeat constructor.
  - by apply keys_unique_insert; [|apply Hw].
  - rewrite photo_pairs_app. simpl. rewrite app_nil_r. apply Hw.
Qed.

Lemma guard_wf (g : option (db → bool * db)) d b d0 :
  match g with Some g => g d | None => (true, d) end = (b, d0) →
  (∀ g', g = Some g' → same_queue d (g' d).2) → wf_db d → wf_db d0.
Proof.
  intros H Hg Hw. destruct g as [g|]; [|by injection H as <- <-].
  specialize (Hg g eq_refl). rewrite H in Hg. by eapply wf_same_queue.
Qed.

Lemma create_maintenance_wf d c k i g a r d' :
  create_maintenance d c k i g a = Ok (r, d') →
  (∀ g', g = Some g' → same_queue d (g' d).2) → wf_db d → wf_db d'.
Proof.
  unfold create_maintenance. intros H Hg Hw. apply rbind_ok in H as (_ & _ & H).
  match type of H with match ?x with _ => _ end = _ => destruct x as [j|] end.
  - apply rbind_ok in H as ([r1 d1] & H1 & H). injection H as <- <-. by eapply reuse_existing_wf.
  - destruct (match g with Some g => g d | None => (true, d) end) as [b d0] eqn:Eg.
    pose proof (guard_wf g d b d0 Eg Hg Hw) as H0. destruct b; simpl in H; [|by injection H as <- <-].
    apply rbind_ok in H as (d1 & H1 & H). injection H as <- <-.
    by eapply insert_maintenance_wf; [exact H1|apply clamp_priority_bounds|..].
Qed.

Lemma create_maintenance_with_capacity_wf d c k i kind name st us p l1 l2 r d' :
  create_maintenance_with_capacity d c k i kind name st us p l1 l2 = Ok (r, d') → wf_db d → wf_db d'.
Proof.
  unfold create_maintenance_with_capacity. intros H Hw.
  apply rbind_ok in H as (_ & _ & H). apply rbind_ok in H as (_ & _ & H).
  apply rbind_ok in H as (_ & _ & H). apply rbind_ok in H as (d1 & H1 & H). injection H as <- <-.
  by eapply insert_maintenance_wf; [exact H1|apply clamp_priority_bounds|..].
Qed.

(** What INSERT OR IGNORE of the photo rows adds. *)
Lemma insert_photo_items_spec d k t rows d' :
  insert_photo_items d k t rows = Ok d' →
  keys_unique i_id (items d) → NoDup (photo_pairs (items d)) →
  ∃ news, d' = d <| items := items d ++ news |> ∧ Forall (fresh_item k) news ∧
          keys_unique i_id (items d ++ news) ∧ NoDup (photo_pairs (items d ++ news)).
Proof.
  revert d. induction rows as [|[i p] rows IH]; intros d H Hu Hp.
  - injection H as <-. exists []. rewrite app_nil_r. by destruct d.
  - simpl in H. apply rbind_ok in H as (d1 & H1 & H). case_in H1; [injection H1 as <-; by apply IH|].
    case_in H1; [|done]. injection H1 as <-. apply orb_false_iff in Heqb as [Hi Hk].
    destruct (IH _ H) as (news & -> & Hf & Hu' & Hp').
    + simpl. by apply keys_unique_insert.
    + simpl. rewrite photo_pairs_app. simpl. apply NoDup_app. split; [done|].
      split; [|apply NoDup_singleton]. intros [k' p'] Hin [= -> ->]%list_elem_of_singleton.
      apply photo_pairs_elem in Hin as (i0 & Hi0 & E1 & E2).
      rewrite existsb_none in Hk. apply Hk in Hi0. apply not_true_iff_false in Hi0. apply Hi0. by bprop.
    + simpl in *. exists (new_item i k (Some p) t :: news). rewrite <- app_assoc in *.
      split_and!; [done| |done|done]. by constructor.
Qed.

Lemma update_by_id_app k g js j :
  has_key j_id k js = false → j_id j = k → update_where (by_id k) g (js ++ [j]) = js ++ [g j].
Proof.
  intros Hk Ej. rewrite update_where_app, update_where_none by done. simpl.
  by rewrite (proj2 (by_id_eq k j) Ej).
Qed.

(** A commit hook writes other tables than the queue's. *)
Lemma create_wf d c k ids hook a r d' :
  create d c k ids hook a = Ok (r, d') →
  (∀ k d d', hook k d = Ok d' → same_queue d d') → wf_db d → wf_db d'.
Proof.
  unfold create. intros H Hh Hw.
  match type of H with match ?x with _ => _ end = _ => destruct x as [j|] end;
    [by eapply reuse_existing_wf|].
  apply rbind_ok in H as (_ & _ & H). apply rbind_ok in H as (_ & Hk%raise_if_ok & H).
  apply rbind_ok in H as (d1 & [Hn ->]%put_jobs_ok & H). apply rbind_ok in H as (d2 & H2 & H).
  apply rbind_ok in H as (d4 & H4%Hh & H). injection H as <- <-.
  apply insert_photo_items_spec in H2 as (news & -> & Hf & Hu & Hp); [|apply Hw..].
  eapply wf_same_queue; [|exact H4].
  change (wf (update_where (by_id k) (set_total (countb (of_job k) (items d ++ news)))
                (jobs d ++ [new_job k a (now c)])) (items d ++ news)).
  rewrite update_by_id_app by done.
  apply (wf_insert (jobs d) (items d)); try done; [|apply clamp_priority_bounds|].
  - unfold active_keys in *. rewrite omap_app in *. done.
  - simpl. rewrite countb_app, (count_all_fresh k news) by done.
    by destruct (count_no_parent _ _ k ICompleted Hw Hk) as [_ ->].
Qed.
