(* ===== verification/QueueMachine.v ===== *)
(** * The queue as a transition system

    [op] names every state-changing transaction of the repository, [exec]
    runs one (a raising one is rolled back), and [reachable] closes the empty
    queue under them and under writes of other components to other tables.
    Caller-owned code (commit hooks, creation guards, finalizers) may write
    anything but [jobs] and [job_items]: [op_ok]. *)

From S2P Require Import Prelude PyStr PyFloat Json Sql Sha256 Store Reservations JobQueue JobQueueWf JobQueueInv.
Local Open Scope Z_scope.

Inductive op : Type :=
| OCreate (c : clock) (k : str) (ids : list str) (hook : str → db → result job_exn db) (a : create_args)
| OMaintenance (c : clock) (k i : str) (guard : option (db → bool * db)) (a : maint_args)
| OPreview (c : clock) (k i kind name : str) (s : json) (user : str) (p per_user system : Z)
| OLookup (key : str) (fp : option str)
| OTransition (c : clock) (k : str) (from : list job_status) (to_status : job_status) (event : str)
| ORequestPause (c : clock) (k : str)
| OAckPause (c : clock) (k : str)
| OCancel (c : clock) (k : str)
| OInvalidSettings (c : clock) (k : str)
| OClaim (c : clock) (k w : str) (limit lease : Z)
| ORenew (c : clock) (k w : str) (lease : Z)
| OComplete (c : clock) (k i : str) (r : list (str * json)) (cost : f64) (w : option str)
| OLate (c : clock) (k i : str) (r : list (str * json)) (cost : f64) (w : option str)
| OCompleteBatch (c : clock) (k i : str) (r : list (str * json)) (cost : f64)
| OFailBatch (c : clock) (k i code message : str)
| OCancelBatch (c : clock) (k i reason : str)
| ODefer (c : clock) (i : str) (w : option str) (delay : Z) (pending : bool) (code : option str)
| OFail (c : clock) (k i code message : str) (max : Z) (interval : option Z) (w : option str)
| OFinalize (c : clock) (k : str) (f : option finalizer)
| OFinalizeBatch (c : clock) (k : str) (s : job_status)
| ORecover (c : clock)
| ORetryFailed (c : clock) (k : str)
| OAbandon (c : clock) (k code : str)
| OReopen (c : clock) (k : str).

(** COMMIT or ROLLBACK. *)
Definition settle {A} (d : db) (r : result job_exn (A * db)) : db :=
  match r with Ok (_, d') => d' | Raise _ => d end.

Definition exec (render : json → str) (d : db) (o : op) : db :=
  match o with
  | OCreate c k ids hook a => settle d (create d c k ids hook a)
  | OMaintenance c k i guard a => settle d (create_maintenance d c k i guard a)
  | OPreview c k i kind name s user p l1 l2 =>
      settle d (create_maintenance_with_capacity d c k i kind name s user p l1 l2)
  | OLookup key fp => settle d (get_by_dedupe_key d key fp)
  | OTransition c k from s e => settle d (transition d c k from s e)
  | ORequestPause c k => (request_pause d c k).2
  | OAckPause c k => (acknowledge_pause d c k).2
  | OCancel c k => (cancel d c k).2
  | OInvalidSettings c k => (fail_invalid_settings d c k).2
  | OClaim c k w limit lease => settle d (claim d c k w limit lease)
  | ORenew c k w lease => (renew_leases d c k w lease).2
  | OComplete c k i r cost w => (complete_item render d c k i r cost w).2
  | OLate c k i r cost w => (record_late_completion d c k i r cost w).2
  | OCompleteBatch c k i r cost => (complete_batch_item d c k i r cost).2
  | OFailBatch c k i code m => (fail_batch_item d c k i code m).2
  | OCancelBatch c k i reason => (cancel_batch_item d c k i reason).2
  | ODefer c i w delay dp code => (defer_item d c i w delay dp code).2
  | OFail c k i code m max ri w => (fail_item d c k i code m max ri w).2
  | OFinalize c k f => (finalize_if_done d c k f).2
  | OFinalizeBatch c k s => settle d (finalize_batch_job d c k s)
  | ORecover c => (recover_stale d c).2
  | ORetryFailed c k => settle d (retry_failed d c k)
  | OAbandon c k code => (abandon_unstarted d c k code).2
  | OReopen c k => settle d (reopen_batch_job d c k)
  end.

Definition op_ok (d : db) (o : op) : Prop :=
  match o with
  | OCreate _ _ _ hook _ => ∀ k d d', hook k d = Ok d' → same_queue d d'
  | OMaintenance _ _ _ guard _ => ∀ g, guard = Some g → same_queue d (g d).2
  | OFinalize _ _ f => frames_finalizer f
  | OTransition _ _ from _ _ => ∀ s, s ∈ from → s ∉ TERMINAL_STATUSES
  | _ => True
  end.

Inductive step (render : json → str) : db → db → Prop :=
| step_op d o : op_ok d o → step render d (exec render d o)
| step_other d d' : same_queue d d' → step render d d'.

Inductive reachable (render : json → str) : db → Prop :=
| reach_init d : jobs d = [] → items d = [] → reachable render d
| reach_step d d' : reachable render d → step render d d' → reachable render d'.

(** ** Well-formedness is invariant *)

Lemma settle_wf {A} d (r : result job_exn (A * db)) :
  wf_db d → (∀ a d', r = Ok (a, d') → wf_db d') → wf_db (settle d r).
Proof. intros Hd H. destruct r as [[a d']|e]; simpl; [by eapply H|done]. Qed.

Lemma snd_wf {A} (p : A * db) : (∀ a d', p = (a, d') → wf_db d') → wf_db p.2.
Proof. destruct p as [a d]. intros H. by eapply H. Qed.

Lemma lookup_wf d key fp r d' : get_by_dedupe_key d key fp = Ok (r, d') → wf_db d → wf_db d'.
Proof.
  unfold get_by_dedupe_key. intros H Hw. case_in H; [|by res_inv]. case_in H; [|by res_inv].
  apply rbind_ok in H as ([k d1] & H1 & H). injection H as <- <-. by eapply reuse_existing_wf.
Qed.

#[export] Hint Resolve create_wf create_maintenance_wf create_maintenance_with_capacity_wf lookup_wf
  transition_wf request_pause_wf acknowledge_pause_wf cancel_wf fail_invalid_settings_wf claim_wf
  renew_leases_wf complete_item_wf record_late_completion_wf complete_batch_item_wf
  fail_batch_item_wf cancel_batch_item_wf defer_item_wf fail_item_wf finalize_if_done_wf
  finalize_batch_job_wf recover_stale_wf retry_failed_wf abandon_unstarted_wf reopen_batch_job_wf : ink.

Lemma exec_wf render d o : op_ok d o → wf_db d → wf_db (exec render d o).
Proof.
  intros Hok Hw. destruct o; cbn [exec op_ok] in Hok |- *;
    (apply settle_wf; [done|]) || apply snd_wf; intros; eauto with ink.
Qed.

Lemma wf_empty : wf [] [].
Proof.
  split; try (by intros ? ?%not_elem_of_nil); by apply NoDup_nil.
Qed.

(** C1. In every state the queue can reach, through any sequence of its
    transactions and of writes to other tables, the tables are well-formed:
    ids are unique, every item belongs to a job, a photo occurs at most once
    per job, at most one in-flight job carries a dedupe key, priorities are
    within 1..6, a running item has an owner, a lease and at least one
    attempt, [completed_items] and [total_items] count the job's items, and
    [failed_items] never exceeds its failed items. *)
Theorem reachable_well_formed render d : reachable render d → wf_db d.
Proof.
  induction 1 as [d Ej Ei|d d' _ IH Hs]; [unfold wf_db; rewrite Ej, Ei; apply wf_empty|].
  destruct Hs as [d o Hok|d d' Hq]; [by apply exec_wf|by eapply wf_same_queue].
Qed.

(** ** Finished jobs stay finished *)

(** Every job row of [js] is still there in [js'], its status related by [P]. *)
Definition evolves (P : job_status → job_status → Prop) (js js' : list job) : Prop :=
  ∀ k j, get_row j_id k js = Some j → ∃ j', get_row j_id k js' = Some j' ∧ P (j_status j) (j_status j').

(** [keeps T s s']: a status of [T] is not left. *)
Definition keeps (T : list job_status) (s s' : job_status) : Prop := s ∈ T → s' = s.

Lemma evolves_refl T js : evolves (keeps T) js js.
Proof. intros k j H. exists j. by split. Qed.

Lemma evolves_trans T js1 js2 js3 :
  evolves (keeps T) js1 js2 → evolves (keeps T) js2 js3 → evolves (keeps T) js1 js3.
Proof.
  intros H1 H2 k j Hj. destruct (H1 k j Hj) as (j1 & Hj1 & K1). destruct (H2 k j1 Hj1) as (j2 & Hj2 & K2).
  exists j2. split; [done|]. intros Hs. specialize (K1 Hs). rewrite <- K1. apply K2. by rewrite K1.
Qed.

Lemma evolves_update T js (sel : job → bool) g :
  (∀ j, j_id (g j) = j_id j) →
  (∀ k j, get_row j_id k js = Some j → sel j = true → j_status j ∈ T → j_status (g j) = j_status j) →
  evolves (keeps T) js (update_where sel g js).
Proof.
  intros Hid Hs k j Hj. rewrite get_row_update by done. rewrite Hj. simpl. eexists. split; [done|].
  intros HT. destruct (sel j) eqn:E; [by apply (Hs k j)|done].
Qed.

Lemma evolves_status T js (sel : job → bool) g :
  (∀ j, j_id (g j) = j_id j) → (∀ j, j_status (g j) = j_status j) →
  evolves (keeps T) js (update_where sel g js).
Proof. intros Hid Hs. apply evolves_update; auto. Qed.

Lemma evolves_guarded T js (sel : job → bool) g :
  (∀ j, j_id (g j) = j_id j) → (∀ j, sel j = true → j_status j ∉ T) →
  evolves (keeps T) js (update_where sel g js).
Proof. intros Hid Hs. apply evolves_update; [done|]. intros k j _ Hj ?. exfalso. by apply (Hs j). Qed.

Lemma evolves_app T js j : evolves (keeps T) js (js ++ [j]).
Proof. intros k j0 H. exists j0. by rewrite get_row_app_fresh, H. Qed.

Lemma put_jobs_jobs d js d' : put_jobs d js = Ok d' → jobs d' = js.
Proof. by intros [_ ->]%put_jobs_ok. Qed.

(** Selections that exclude finished jobs. *)
Lemma not_finished j s :
  j_status j = s → jstatus_in TERMINAL_STATUSES s = false → j_status j ∉ TERMINAL_STATUSES.
Proof. intros <-. by bprop. Qed.

Lemma runnable_not_finished s : s ∈ runnable → s ∉ TERMINAL_STATUSES.
Proof. intros Hs Ht. by destruct s; apply (bool_decide_eq_true_2 _) in Hs, Ht. Qed.

Ltac no_change := apply evolves_refl.
Ltac same_status := apply evolves_status; done.
Ltac guarded :=
  apply evolves_guarded; [done|]; let H := fresh in intros ? H; bprop; destruct_and? H;
  eauto using runnable_not_finished, not_finished.

Abbreviation finished_kept := (evolves (keeps TERMINAL_STATUSES)).

Lemma reuse_existing_kept d j fp r d' :
  reuse_existing d j fp = Ok (r, d') → finished_kept (jobs d) (jobs d').
Proof.
  unfold reuse_existing. intros H. case_in H; [done|]. case_in H; res_inv; [same_status|no_change].
Qed.

Lemma lookup_kept d key fp r d' :
  get_by_dedupe_key d key fp = Ok (r, d') → finished_kept (jobs d) (jobs d').
Proof.
  unfold get_by_dedupe_key. intros H. case_in H; [|res_inv; no_change]. case_in H; [|res_inv; no_change].
  apply rbind_ok in H as ([k d1] & H1 & H). injection H as <- <-. by eapply reuse_existing_kept.
Qed.

Lemma insert_photo_items_jobs d k t rows d' : insert_photo_items d k t rows = Ok d' → jobs d' = jobs d.
Proof.
  revert d. induction rows as [|[i p] rows IH]; intros d H; [by injection H as <-|].
  simpl in H. apply rbind_ok in H as (d1 & H1 & H%IH). rewrite H.
  case_in H1; [by injection H1 as <-|]. case_in H1; [by injection H1 as <-|done].
Qed.

Lemma create_kept d c k ids hook a r d' :
  create d c k ids hook a = Ok (r, d') →
  (∀ k d d', hook k d = Ok d' → same_queue d d') → finished_kept (jobs d) (jobs d').
Proof.
  unfold create. intros H Hh.
  match type of H with match ?x with _ => _ end = _ => destruct x as [j|] end;
    [by eapply reuse_existing_kept|].
  apply rbind_ok in H as (_ & _ & H). apply rbind_ok in H as (_ & Hk%raise_if_ok & H).
  apply rbind_ok in H as (d1 & H1%put_jobs_jobs & H). apply rbind_ok in H as (d2 & H2 & H).
  apply insert_photo_items_jobs in H2. apply rbind_ok in H as (d4 & [H4 _]%Hh & H).
  injection H as <- <-. change (jobs (add_event d4 _ _ _ _ _)) with (jobs d4). rewrite H4.
  change (jobs (_ <| jobs := ?x |>)) with x.
  rewrite H2, H1. eapply evolves_trans; [apply evolves_app|same_status].
Qed.

Lemma insert_maintenance_kept d j i t d' :
  insert_maintenance d j i t = Ok d' → finished_kept (jobs d) (jobs d').
Proof.
  unfold insert_maintenance. intros H. apply rbind_ok in H as (_ & _ & H).
  apply rbind_ok in H as (d1 & H1%put_jobs_jobs & H). apply rbind_ok in H as (_ & _ & H).
  injection H as <-. change (finished_kept (jobs d) (jobs d1)). rewrite H1. apply evolves_app.
Qed.

Lemma create_maintenance_kept d c k i g a r d' :
  create_maintenance d c k i g a = Ok (r, d') →
  (∀ g', g = Some g' → same_queue d (g' d).2) → finished_kept (jobs d) (jobs d').
Proof.
  unfold create_maintenance. intros H Hg. apply rbind_ok in H as (_ & _ & H).
  match type of H with match ?x with _ => _ end = _ => destruct x as [j|] end.
  - apply rbind_ok in H as ([r1 d1] & H1 & H). injection H as <- <-. by eapply reuse_existing_kept.
  - destruct (match g with Some g => g d | None => (true, d) end) as [b d0] eqn:Eg.
    assert (jobs d0 = jobs d) as E0.
    { destruct g as [g|]; [|by injection Eg as <- <-]. destruct (Hg g eq_refl) as [E _]. by rewrite Eg in E. }
    destruct b; simpl in H; [|injection H as <- <-; rewrite E0; no_change].
    apply rbind_ok in H as (d1 & H1%insert_maintenance_kept & H). injection H as <- <-. by rewrite E0 in H1.
Qed.

Lemma create_maintenance_with_capacity_kept d c k i kind name st us p l1 l2 r d' :
  create_maintenance_with_capacity d c k i kind name st us p l1 l2 = Ok (r, d') →
  finished_kept (jobs d) (jobs d').
Proof.
  unfold create_maintenance_with_capacity. intros H.
  apply rbind_ok in H as (_ & _ & H). apply rbind_ok in H as (_ & _ & H).
  apply rbind_ok in H as (_ & _ & H). apply rbind_ok in H as (d1 & H1 & H). injection H as <- <-.
  by eapply insert_maintenance_kept.
Qed.

Lemma transition_kept d c k from s e b d' :
  transition d c k from s e = Ok (b, d') → (∀ s, s ∈ from → s ∉ TERMINAL_STATUSES) →
  finished_kept (jobs d) (jobs d').
Proof.
  unfold transition. intros H Hf. apply rbind_ok in H as (d1 & H1%put_jobs_jobs & H).
  assert (jobs d' = jobs d1) as -> by (case_in H; by injection H as <- <-). rewrite H1. guarded.
Qed.

Lemma request_pause_kept d c k b d' : request_pause d c k = (b, d') → finished_kept (jobs d) (jobs d').
Proof.
  unfold request_pause. intros H. case_in H; [|res_inv; no_change].
  destruct (jstatus_in runnable (j_status j)) eqn:Er; [|res_inv; no_change]. injection H as <- <-.
  apply evolves_update; [done|]. intros k' j' Hj' Hk Hs. bprop. exfalso.
  apply get_row_Some in Hj' as E. destruct E as [_ E]. assert (k' = k) as -> by congruence.
  unfold get in Heqo. rewrite Heqo in Hj'. injection Hj' as <-. by apply (runnable_not_finished (j_status j)).
Qed.

Lemma acknowledge_pause_kept d c k b d' :
  acknowledge_pause d c k = (b, d') → finished_kept (jobs d) (jobs d').
Proof. unfold acknowledge_pause. intros H. case_in H; res_inv; guarded. Qed.

Lemma cancel_kept d c k b d' : cancel d c k = (b, d') → finished_kept (jobs d) (jobs d').
Proof. unfold cancel. intros H. case_in H; res_inv; guarded. Qed.

Lemma fail_invalid_settings_kept d c k b d' :
  fail_invalid_settings d c k = (b, d') → finished_kept (jobs d) (jobs d').
Proof.
  unfold fail_invalid_settings. intros H. case_in H; res_inv; [|no_change].
  eapply evolves_trans; [|same_status]. guarded.
Qed.

Lemma claim_kept d c k w limit lease rows d' :
  claim d c k w limit lease = Ok (rows, d') → finished_kept (jobs d) (jobs d').
Proof. intros [[_ ->]|(j & ? & ? & _ & _ & -> & _)]%claim_inv; [no_change|same_status]. Qed.

Lemma renew_leases_kept d c k w lease n d' :
  renew_leases d c k w lease = (n, d') → finished_kept (jobs d) (jobs d').
Proof. unfold renew_leases. intros H. res_inv. same_status. Qed.

Lemma complete_item_kept render d c k i r cost w b d' :
  complete_item render d c k i r cost w = (b, d') → finished_kept (jobs d) (jobs d').
Proof.
  unfold complete_item. intros H. case_in H; [|res_inv; no_change].
  case_in H; [res_inv; no_change|]. case_in H; res_inv; [same_status|no_change].
Qed.

Lemma record_late_completion_kept d c k i r cost w b d' :
  record_late_completion d c k i r cost w = (b, d') → finished_kept (jobs d) (jobs d').
Proof. unfold record_late_completion. intros H. case_in H; res_inv; [same_status|no_change]. Qed.

Lemma complete_batch_item_kept d c k i r cost b d' :
  complete_batch_item d c k i r cost = (b, d') → finished_kept (jobs d) (jobs d').
Proof. unfold complete_batch_item. intros H. case_in H; res_inv; [same_status|no_change]. Qed.

Lemma fail_batch_item_kept d c k i code m b d' :
  fail_batch_item d c k i code m = (b, d') → finished_kept (jobs d) (jobs d').
Proof. unfold fail_batch_item. intros H. case_in H; res_inv; [same_status|no_change]. Qed.

Lemma cancel_batch_item_kept d c k i reason b d' :
  cancel_batch_item d c k i reason = (b, d') → finished_kept (jobs d) (jobs d').
Proof. unfold cancel_batch_item. intros H. case_in H; res_inv; [same_status|no_change]. Qed.

Lemma defer_item_kept d c i w delay dp code b d' :
  defer_item d c i w delay dp code = (b, d') → finished_kept (jobs d) (jobs d').
Proof. unfold defer_item. intros H. case_in H; res_inv; no_change. Qed.

Lemma fail_item_kept d c k i code m max ri w b d' :
  fail_item d c k i code m max ri w = (b, d') → finished_kept (jobs d) (jobs d').
Proof.
  unfold fail_item. intros H. case_in H; [|res_inv; no_change]. injection H as <- <-.
  match goal with |- context [jobs (upsert_error ?x _ _ _ _ _ _)] =>
    destruct (upsert_error_queue x k i (i_photo i0) code m (now c)) as [-> _] end.
  case_goal; [same_status|no_change].
Qed.

Lemma finalize_if_done_kept d c k f b d' :
  finalize_if_done d c k f = (b, d') → frames_finalizer f → finished_kept (jobs d) (jobs d').
Proof.
  unfold finalize_if_done. intros H Hf. case_in H; [|res_inv; no_change]. case_in H; [res_inv; no_change|].
  case_in H; [res_inv; no_change|]. destruct (run_finalizer _ _ _ _ _) as [s d1] eqn:Er.
  apply run_finalizer_spec in Er as [[Ej _] _]; [|done]. rewrite <- Ej. case_in H; res_inv; guarded.
Qed.

Lemma finalize_batch_job_kept d c k s b d' :
  finalize_batch_job d c k s = Ok (b, d') → finished_kept (jobs d) (jobs d').
Proof. unfold finalize_batch_job. intros H. res_inv. guarded. Qed.

Lemma recover_all_kept t rows acc : finished_kept (jobs acc.2) (jobs (recover_all t rows acc).2).
Proof.
  revert acc. induction rows as [|r rows IH]; intros [n d]; [no_change|].
  unfold recover_all. cbn [fold_left]. eapply evolves_trans; [|apply IH].
  destruct r as [it seasonal]. unfold recover_one. case_goal; [case_goal; [same_status|no_change]|no_change].
Qed.

Lemma recover_stale_kept d c n d' : recover_stale d c = (n, d') → finished_kept (jobs d) (jobs d').
Proof.
  unfold recover_stale. intros H. case_in H; [|res_inv; no_change].
  pose proof (recover_all_kept (now c) (recover_rows d (now c)) (0, d)) as H1.
  destruct (recover_all _ _ _) as [n1 d1]. res_inv. eapply evolves_trans; [exact H1|]. guarded.
Qed.

Lemma abandon_unstarted_kept d c k code b d' :
  abandon_unstarted d c k code = (b, d') → finished_kept (jobs d) (jobs d').
Proof. unfold abandon_unstarted. intros H. case_in H; res_inv; guarded. Qed.

(** The two operations that reopen a job leave completed and cancelled alone. *)
Definition closed : list job_status := [JCompleted; JCancelled].

Lemma closed_not l s :
  forallb (λ x, negb (bool_decide (x ∈ closed))) l = true → s ∈ l → s ∉ closed.
Proof.
  intros Hl Hs. rewrite forallb_forall in Hl. apply list_elem_of_In in Hs. specialize (Hl s Hs).
  by apply negb_true, bool_decide_eq_false in Hl.
Qed.

Lemma retry_failed_closed d c k n d' :
  retry_failed d c k = Ok (n, d') → evolves (keeps closed) (jobs d) (jobs d').
Proof.
  unfold retry_failed. intros H. case_in H; [|res_inv; no_change]. case_in H; [res_inv; no_change|].
  apply rbind_ok in H as (_ & _ & H). case_in H; [res_inv; no_change|].
  apply rbind_ok in H as (d1 & H1%put_jobs_jobs & H). injection H as <- <-. rewrite H1.
  apply evolves_guarded; [done|]. intros j' Hj. bprop. by eapply closed_not; [|apply Hj].
Qed.

Lemma reopen_batch_job_closed d c k b d' :
  reopen_batch_job d c k = Ok (b, d') → evolves (keeps closed) (jobs d) (jobs d').
Proof.
  unfold reopen_batch_job. intros H. apply rbind_ok in H as (d1 & H1%put_jobs_jobs & H).
  assert (evolves (keeps closed) (jobs d) (jobs d1)) as H2.
  { rewrite H1. apply evolves_guarded; [done|]. intros j' Hj. bprop. by eapply closed_not; [|apply Hj]. }
  case_in H; res_inv; [|done]. eapply evolves_trans; [exact H2|same_status].
Qed.

#[export] Hint Resolve create_kept create_maintenance_kept create_maintenance_with_capacity_kept
  lookup_kept transition_kept request_pause_kept acknowledge_pause_kept cancel_kept
  fail_invalid_settings_kept claim_kept renew_leases_kept complete_item_kept
  record_late_completion_kept complete_batch_item_kept fail_batch_item_kept cancel_batch_item_kept
  defer_item_kept fail_item_kept finalize_if_done_kept finalize_batch_job_kept recover_stale_kept
  abandon_unstarted_kept retry_failed_closed reopen_batch_job_closed : ink.

Definition reopens (o : op) : bool :=
  match o with ORetryFailed _ _ | OReopen _ _ => true | _ => false end.

Lemma settle_evolves {A} T d (r : result job_exn (A * db)) :
  (∀ a d', r = Ok (a, d') → evolves (keeps T) (jobs d) (jobs d')) →
  evolves (keeps T) (jobs d) (jobs (settle d r)).
Proof. intros H. destruct r as [[a d']|e]; simpl; [by eapply H|no_change]. Qed.

Lemma snd_evolves {A} T d (p : A * db) :
  (∀ a d', p = (a, d') → evolves (keeps T) (jobs d) (jobs d')) → evolves (keeps T) (jobs d) (jobs p.2).
Proof. destruct p as [a d']. intros H. by eapply H. Qed.

Lemma exec_finished_kept render d o :
  op_ok d o → reopens o = false → finished_kept (jobs d) (jobs (exec render d o)).
Proof.
  intros Hok Hr. destruct o; cbn [exec op_ok reopens] in Hok, Hr |- *; try discriminate Hr;
    (apply settle_evolves || apply snd_evolves); intros; eauto with ink.
Qed.

Lemma evolves_weaken T T' js js' :
  (∀ s, s ∈ T' → s ∈ T) → evolves (keeps T) js js' → evolves (keeps T') js js'.
Proof. intros HT H k j Hj. destruct (H k j Hj) as (j' & ? & K). exists j'. split; [done|]. intros Hs. by apply K, HT. Qed.

Lemma closed_finished s : s ∈ closed → s ∈ TERMINAL_STATUSES.
Proof. intros Hs. apply (bool_decide_eq_true_1 _). by destruct s; apply (bool_decide_eq_true_2 _) in Hs. Qed.

Lemma exec_closed_kept render d o :
  op_ok d o → evolves (keeps closed) (jobs d) (jobs (exec render d o)).
Proof.
  intros Hok. destruct (reopens o) eqn:Hr.
  - destruct o; try discriminate Hr; cbn [exec]; apply settle_evolves; intros; eauto with ink.
  - eapply evolves_weaken; [apply closed_finished|]. by apply exec_finished_kept.
Qed.

(** A failed or completed-with-errors job only changes status through
    the two operations that reopen jobs, [retry_failed] and
    [reopen_batch_job]. *)
Theorem finished_left_only_by_reopening render d o k j j' :
  op_ok d o → get d k = Some j → get (exec render d o) k = Some j' →
  j_status j ∈ TERMINAL_STATUSES → j_status j' ≠ j_status j → reopens o = true.
Proof.
  intros Hok Hj Hj' Ht Hne. destruct (reopens o) eqn:Hr; [done|exfalso].
  destruct (exec_finished_kept render d o Hok Hr k j Hj) as (j1 & Hj1 & K).
  unfold get in Hj'. rewrite Hj' in Hj1. injection Hj1 as <-. by apply Hne, K.
Qed.
