(* ===== verification/QueueClaims.v ===== *)
(** * Claims, fencing and recovery

    What a worker may rely on: a claim hands it due, unowned items and no
    other worker gets them; an outcome is only recorded by the owner of a
    running item; an expired lease is taken back exactly once, with bounded
    attempts. *)

From S2P Require Import Prelude PyStr PyFloat Json Sql Sha256 Store Reservations JobQueue JobQueueWf JobQueueInv.
Local Open Scope Z_scope.

(** ** Claims *)

Lemma claim_get d t k openai backfill limit w lease i :
  keys_unique i_id (items d) → i ∈ claim_rows d t k openai backfill limit →
  get_row i_id (i_id i)
    (claim_ids (map i_id (claim_rows d t k openai backfill limit)) w t lease (items d))
  = Some (claim_row w t lease i).
Proof.
  intros Hu Hi. unfold claim_ids. rewrite get_row_update by done.
  destruct (claim_rows_elem _ _ _ _ _ _ _ Hi) as (Hin & _). rewrite get_row_elem by done. simpl.
  assert (str_in (i_id i) (map i_id (claim_rows d t k openai backfill limit)) = true) as ->; [|done].
  apply str_in_elem, list_elem_of_In, in_map, list_elem_of_In, Hi.
Qed.

(** The rows handed out are the selected ones, as updated, in order. *)
Lemma claim_result d t k openai backfill limit w lease :
  keys_unique i_id (items d) →
  omap (λ i, get_row i_id i (claim_ids (map i_id (claim_rows d t k openai backfill limit)) w t lease (items d)))
    (map i_id (claim_rows d t k openai backfill limit))
  = map (claim_row w t lease) (claim_rows d t k openai backfill limit).
Proof.
  intros Hu. pose proof (claim_get d t k openai backfill limit w lease) as Hg.
  set (rows := claim_rows d t k openai backfill limit) in *.
  set (its := claim_ids _ _ _ _ _) in *. clearbody its.
  assert (∀ l, (∀ i, i ∈ l → i ∈ rows) →
    omap (λ i, get_row i_id i its) (map i_id l) = map (claim_row w t lease) l) as H; [|by apply H].
  induction l as [|i l IH]; intros Hl; [done|]. csimpl. rewrite (Hg i Hu) by (apply Hl; left).
  f_equal. apply IH. intros i' ?. apply Hl. by right.
Qed.

Lemma filter_sublist {A} (p : A → bool) l : List.filter p l `sublist_of` l.
Proof. induction l as [|x l IH]; simpl; [done|]. destruct (p x); by constructor. Qed.

Lemma claim_rows_unique d t k openai backfill limit :
  keys_unique i_id (items d) → NoDup (map i_id (claim_rows d t k openai backfill limit)).
Proof.
  intros Hu. unfold claim_rows, limit_to.
  assert (NoDup (map i_id (sort_by (claim_leb d openai backfill)
            (List.filter (λ i, of_job k i && due t i) (items d))))) as Hn.
  { rewrite sort_by_perm. eapply sublist_NoDup; [exact Hu|]. apply (fmap_sublist i_id), filter_sublist. }
  case_match; [done|]. eapply sublist_NoDup; [exact Hn|]. apply (fmap_sublist i_id), sublist_take.
Qed.

Lemma claim_rows_length d t k openai backfill limit :
  0 ≤ limit → Z.of_nat (length (claim_rows d t k openai backfill limit)) ≤ limit.
Proof.
  intros Hl. unfold claim_rows, limit_to. rewrite (proj2 (Z.ltb_ge _ _) Hl), length_take. lia.
Qed.

(** What a claimed row is: the due, pending row it was, now running under [w]. *)
Definition claimed_from (w : str) (t lease : Z) (old new : item) : Prop :=
  i_status old = IPending ∧ i_available_at old ≤ t ∧ new = claim_row w t lease old.

Lemma claim_taken d c k w limit lease rows d' r :
  wf_db d → claim d c k w limit lease = Ok (rows, d') → r ∈ rows →
  i_job r = k ∧ r ∈ items d' ∧
  ∃ old, old ∈ items d ∧ claimed_from w (now c) (later c + seconds lease) old r.
Proof.
  intros Hw [[-> ->]|(j & openai & backfill & Hj & Hr & -> & ->)]%claim_inv; [by intros ?%not_elem_of_nil|].
  rewrite claim_result by apply Hw. intros (i & -> & Hi)%list_elem_of_fmap.
  destruct (claim_rows_elem _ _ _ _ _ _ _ Hi) as (Hin & Ek & [Es Ea]%due_pending).
  split_and!; [done| |by exists i]. apply update_where_elem. exists i. split; [done|].
  rewrite (proj2 (str_in_elem (i_id i) _)); [done|]. by apply (list_elem_of_fmap_2 i_id).
Qed.

(** Rows that are not handed out stay as they are. *)
Lemma claim_untouched d c k w limit lease rows d' i :
  wf_db d → claim d c k w limit lease = Ok (rows, d') →
  i ∈ items d → i_id i ∉ map i_id rows → i ∈ items d'.
Proof.
  intros Hw [[-> ->]|(j & openai & backfill & Hj & Hr & -> & ->)]%claim_inv Hi Hn; [done|].
  rewrite claim_result, map_map in Hn by apply Hw.
  change (i_id i ∉ map i_id (claim_rows d (now c) k openai backfill limit)) in Hn.
  apply update_where_elem. exists i. split; [done|]. by rewrite (proj2 (str_in_false _ _) Hn).
Qed.

(** C3. A successful claim hands out at most [limit] items, each of them a
    pending, due item of that runnable job, now running under the caller's
    worker id with a fresh lease and one more attempt; the ids are distinct,
    and every other item of the queue is untouched. *)
Theorem claim_spec d c k w limit lease rows d' :
  wf_db d → claim d c k w limit lease = Ok (rows, d') →
  NoDup (map i_id rows) ∧ (0 ≤ limit → Z.of_nat (length rows) ≤ limit) ∧
  (∀ r, r ∈ rows → i_job r = k ∧ r ∈ items d' ∧
     ∃ old, old ∈ items d ∧ claimed_from w (now c) (later c + seconds lease) old r) ∧
  (∀ i, i ∈ items d → i_id i ∉ map i_id rows → i ∈ items d') ∧
  (rows ≠ [] → ∃ j, get d k = Some j ∧ j_status j ∈ runnable).
Proof.
  intros Hw Hc. split_and!; [| |by intros; eapply claim_taken|by intros; eapply claim_untouched|];
    apply claim_inv in Hc as [[-> ->]|(j & openai & backfill & Hj & Hr & -> & ->)];
    try rewrite claim_result by apply Hw.
  - apply NoDup_nil_2.
  - rewrite map_map. apply claim_rows_unique, Hw.
  - done.
  - rewrite length_map. apply claim_rows_length.
  - done.
  - intros _. by exists j.
Qed.

(** Two claims one after the other, by any two workers on any two jobs,
    never hand out the same item. *)
Theorem claims_disjoint d c1 c2 k1 k2 w1 w2 l1 l2 e1 e2 rows1 rows2 d1 d2 :
  wf_db d → claim d c1 k1 w1 l1 e1 = Ok (rows1, d1) → claim d1 c2 k2 w2 l2 e2 = Ok (rows2, d2) →
  ∀ i, i ∈ map i_id rows1 → i ∉ map i_id rows2.
Proof.
  intros Hw H1 H2 i (r1 & -> & Hr1)%list_elem_of_fmap (r2 & E & Hr2)%list_elem_of_fmap.
  assert (wf_db d1) as Hw1 by (by eapply claim_wf).
  destruct (claim_taken _ _ _ _ _ _ _ _ _ Hw H1 Hr1) as (_ & Hin1 & o1 & _ & _ & _ & ->).
  destruct (claim_taken _ _ _ _ _ _ _ _ _ Hw1 H2 Hr2) as (_ & _ & o2 & Hin2 & Hs2 & _ & ->).
  rewrite (keys_unique_inj i_id (items d1) o2 _ (wf_item_keys _ _ Hw1) Hin2 Hin1 (eq_sym E)) in Hs2. done.
Qed.

(** ** Recovery of expired leases *)

(** What recovery makes of an expired row. *)
Definition fate (t : Z) (r : item * bool) (i : item) : item :=
  if r.2 || (MAX_STALE_RECOVERY_ATTEMPTS <=? i_attempts r.1) then crash_row t i else requeue_row t i.

Definition apply_rows (t : Z) (rows : list (item * bool)) (i : item) : item :=
  match find_where (λ r, str_eqb (i_id r.1) (i_id i)) rows with Some r => fate t r i | None => i end.

Definition row_ids (rows : list (item * bool)) : list str := map (λ r, i_id r.1) rows.

Lemma fate_id t r i : i_id (fate t r i) = i_id i.
Proof. unfold fate. by case_goal. Qed.

Lemma apply_rows_id t rows i : i_id (apply_rows t rows i) = i_id i.
Proof. unfold apply_rows. case_goal; [apply fate_id|done]. Qed.

(** The rows are still expired when the loop reaches them. *)
Definition rows_expired (t : Z) (rows : list (item * bool)) (its : list item) : Prop :=
  ∀ r i, r ∈ rows → i ∈ its → i_id i = i_id r.1 → expired t i = true.

Lemma recover_one_apply t r n d :
  rows_expired t [r] (items d) → items (recover_one t r (n, d)).2 = map (apply_rows t [r]) (items d).
Proof.
  intros Hr. assert (items (recover_one t r (n, d)).2 =
    update_where (λ i, item_by_id (i_id r.1) i && expired t i) (fate t r) (items d)) as ->.
  { destruct r as [it s]. unfold recover_one, fate. simpl. case_goal; [by case_goal|done]. }
  apply map_ext_in. intros i Hi%list_elem_of_In. unfold apply_rows. simpl.
  unfold item_by_id, by_key. destruct (str_eqb (i_id i) (i_id r.1)) eqn:E; bprop.
  - rewrite E, str_eqb_refl. simpl. by rewrite (Hr r i ltac:(left) Hi E).
  - rewrite (proj2 (str_eqb_neq (i_id r.1) (i_id i))) by congruence. done.
Qed.

Lemma apply_rows_cons t r rows i :
  i_id r.1 ∉ row_ids rows → apply_rows t rows (apply_rows t [r] i) = apply_rows t (r :: rows) i.
Proof.
  intros Hn. unfold apply_rows at 3. simpl. destruct (str_eqb (i_id r.1) (i_id i)) eqn:E.
  - assert (apply_rows t [r] i = fate t r i) as -> by (unfold apply_rows; simpl; by rewrite E).
    unfold apply_rows. rewrite fate_id. destruct (find_where _ rows) as [r'|] eqn:F; [|done].
    apply find_where_Some in F as [Hr' E']. bprop. exfalso. apply Hn. rewrite E, <- E'.
    by apply (list_elem_of_fmap_2 (λ r, i_id r.1)).
  - unfold apply_rows at 2. simpl. by rewrite E.
Qed.

Lemma recover_all_apply t rows n d :
  NoDup (row_ids rows) → rows_expired t rows (items d) →
  items (recover_all t rows (n, d)).2 = map (apply_rows t rows) (items d).
Proof.
  revert n d. induction rows as [|r rows IH]; intros n d Hn Hr; [by rewrite map_id|].
  apply NoDup_cons in Hn as [Hx Hn]. unfold recover_all. cbn [fold_left].
  pose proof (recover_one_apply t r n d) as H1. destruct (recover_one t r (n, d)) as [n1 d1].
  simpl in H1. change (items (recover_all t rows (n1, d1)).2 = map (apply_rows t (r :: rows)) (items d)).
  rewrite (IH n1 d1); [|done|]; rewrite H1 by (intros ?? ->%list_elem_of_singleton; apply Hr; left).
  - rewrite map_map. apply map_ext. intros i. by apply apply_rows_cons.
  - intros r' i Hr' (i0 & -> & Hi0)%list_elem_of_fmap E. rewrite apply_rows_id in E.
    unfold apply_rows. simpl. rewrite (proj2 (str_eqb_neq (i_id r.1) (i_id i0))).
    + apply (Hr r' i0); [by right|done|done].
    + intros E'. apply Hx. rewrite E', E. by apply (list_elem_of_fmap_2 (λ r, i_id r.1)).
Qed.

(** Is the item's job seasonal, and so never retried after a crash? *)
Definition seasonal_item (d : db) (i : item) : bool :=
  match get d (i_job i) with Some j => seasonal_job j | None => false end.

Definition recovered (d : db) (t : Z) (i : item) : item :=
  if expired t i
  then if seasonal_item d i || (MAX_STALE_RECOVERY_ATTEMPTS <=? i_attempts i)
       then crash_row t i else requeue_row t i
  else i.

Lemma recover_rows_elem d t r :
  r ∈ recover_rows d t → r.1 ∈ items d ∧ expired t r.1 = true ∧ r.2 = seasonal_item d r.1.
Proof.
  unfold recover_rows. intros (it & Hit & E)%list_elem_of_omap. unfold seasonal_item.
  destruct (get d (i_job it)) eqn:Ej; [|done]. injection E as <-. simpl.
  rewrite sort_by_elem, filter_elem in Hit. rewrite Ej. by destruct Hit.
Qed.

Lemma recover_rows_complete js its d t i :
  wf js its → jobs d = js → items d = its → i ∈ its → expired t i = true →
  (i, seasonal_item d i) ∈ recover_rows d t.
Proof.
  intros Hw <- <- Hi He. pose proof (wf_parent _ _ Hw i Hi) as Hp. unfold recover_rows.
  apply list_elem_of_omap. exists i. rewrite sort_by_elem, filter_elem. split; [done|].
  unfold seasonal_item, get. destruct (get_row j_id (i_job i) (jobs d)) eqn:E; [done|exfalso].
  apply existsb_elem in Hp as (j & Hj & Hk). eapply get_row_None in E; [|exact Hj].
  unfold by_key in Hk. by bprop.
Qed.

Lemma recover_rows_unique d t : keys_unique i_id (items d) → NoDup (row_ids (recover_rows d t)).
Proof.
  intros Hu. unfold recover_rows, row_ids.
  assert (NoDup (map i_id (sort_by recover_order (List.filter (expired t) (items d))))) as Hn.
  { rewrite sort_by_perm. eapply sublist_NoDup; [exact Hu|]. apply (fmap_sublist i_id), filter_sublist. }
  revert Hn. generalize (sort_by recover_order (List.filter (expired t) (items d))).
  induction l as [|it l IH]; [done|]. simpl. intros [Hx Hn]%NoDup_cons. csimpl.
  destruct (get d (i_job it)); [|by apply IH]. simpl. constructor; [|by apply IH].
  intros (r & E & (it' & Hit & Er)%list_elem_of_omap)%list_elem_of_fmap. apply Hx.
  destruct (get d (i_job it')); [|done]. injection Er as <-. simpl in E. rewrite E.
  by apply (list_elem_of_fmap_2 i_id).
Qed.

Lemma apply_rows_recovered d t i :
  wf_db d → i ∈ items d → apply_rows t (recover_rows d t) i = recovered d t i.
Proof.
  intros Hw Hi. unfold apply_rows, recovered. destruct (find_where _ _) as [r|] eqn:F.
  - apply find_where_Some in F as [Hr E]. bprop. destruct (recover_rows_elem d t r Hr) as (Hin & He & Es).
    assert (r.1 = i) as Ei by (apply (keys_unique_inj i_id (items d)); [apply Hw|done..]).
    unfold fate. rewrite Es, Ei in *. by rewrite He.
  - destruct (expired t i) eqn:He; [exfalso|done].
    pose proof (recover_rows_complete _ _ d t i Hw eq_refl eq_refl Hi He) as Hr.
    eapply find_where_None in F; [|exact Hr]. simpl in F. by rewrite str_eqb_refl in F.
Qed.

Lemma recover_rows_expired d t : keys_unique i_id (items d) → rows_expired t (recover_rows d t) (items d).
Proof.
  intros Hu r i Hr Hi E. destruct (recover_rows_elem d t r Hr) as (Hin & He & _).
  by rewrite (keys_unique_inj i_id (items d) i r.1).
Qed.

Lemma recover_stale_map d c n d' :
  wf_db d → recover_stale d c = (n, d') → items d' = map (recovered d (now c)) (items d).
Proof.
  intros Hw. unfold recover_stale. intros H. case_in H.
  - pose proof (recover_all_apply (now c) (recover_rows d (now c)) 0 d
      (recover_rows_unique d (now c) (wf_item_keys _ _ Hw))
      (recover_rows_expired d (now c) (wf_item_keys _ _ Hw))) as Hm.
    destruct (recover_all _ _ _) as [n1 d1]. res_inv. simpl in *. rewrite Hm. apply map_ext_in.
    intros i Hi%list_elem_of_In. by apply apply_rows_recovered.
  - injection H as _ <-. apply orb_false_iff in Heqb as [He _]. rewrite existsb_none in He.
    rewrite <- (map_id (items d)) at 1. apply map_ext_in. intros i Hi%list_elem_of_In.
    unfold recovered. by rewrite He.
Qed.

(** C4. Recovery is exactly the bulk rule: every item whose lease has expired
    is dead-lettered as WORKER_CRASH when its job is seasonal or it has spent
    five attempts, and goes back to pending otherwise; every other item is
    untouched, and no expired lease is left. *)
Theorem recover_stale_spec d c n d' :
  wf_db d → recover_stale d c = (n, d') →
  items d' = map (recovered d (now c)) (items d) ∧ existsb (expired (now c)) (items d') = false.
Proof.
  intros Hw H. pose proof (recover_stale_map d c n d' Hw H) as Hm. split; [done|]. rewrite Hm.
  apply existsb_none. intros i (i0 & -> & _)%list_elem_of_fmap. unfold recovered.
  destruct (expired (now c) i0) eqn:E; [|done]. by case_goal.
Qed.
