(* ===== verification/QueueFencing.v ===== *)
(** * Fencing off workers that lost their lease

    A worker reports outcomes by item id, maybe long after its lease ran out.
    Only a claim makes an item run under a worker ([exec_running]), so from the
    moment recovery has taken an item back, the reports of its former owner
    are refused until he claims that item himself, also while it runs under
    somebody else. *)

From S2P Require Import Prelude PyStr PyFloat Json Sql Sha256 Store Reservations JobQueue JobQueueWf JobQueueInv QueueMachine QueueClaims.
Local Open Scope Z_scope.

(** ** Nothing but a claim starts an item *)

(** Every running row of [its'] was running, with the same owner, in [its]. *)
Definition running_sub (its its' : list item) : Prop :=
  ∀ i', i' ∈ its' → i_status i' = IRunning →
  ∃ i, i ∈ its ∧ i_id i = i_id i' ∧ i_job i = i_job i' ∧ i_status i = IRunning ∧ i_worker i = i_worker i'.

Lemma running_sub_refl its : running_sub its its.
Proof. intros i Hi Hs. by exists i. Qed.

Lemma running_sub_trans its1 its2 its3 :
  running_sub its1 its2 → running_sub its2 its3 → running_sub its1 its3.
Proof.
  intros H1 H2 i3 Hi Hs. destruct (H2 i3 Hi Hs) as (i2 & Hi2 & E1 & E2 & E3 & E4).
  destruct (H1 i2 Hi2 E3) as (i1 & Hi1 & F1 & F2 & F3 & F4). exists i1. split_and!; congruence.
Qed.

Lemma running_sub_update its (sel : item → bool) f :
  item_frame f → (∀ i, sel i = true → i_status (f i) = IRunning → i_status i = IRunning ∧ i_worker (f i) = i_worker i) →
  running_sub its (update_where sel f its).
Proof.
  intros Hf Hs i' (i & Hi & ->)%update_where_elem Hr. exists i. split; [done|].
  destruct (sel i) eqn:E; [|done]. destruct (Hs i E Hr) as [H1 H2]. destruct (Hf i) as (-> & -> & _). done.
Qed.

(** Rows that leave the running status. *)
Lemma leave_sub its (sel : item → bool) f :
  item_frame f → (∀ i, i_status (f i) ≠ IRunning) → running_sub its (update_where sel f its).
Proof. intros Hf Hs. apply running_sub_update; [done|]. intros i _ ?. by destruct (Hs i). Qed.

(** [released w i d]: item [i] is not running under worker [w]. *)
Definition released (w i : str) (its : list item) : Prop :=
  ∀ it, it ∈ its → i_id it = i → i_status it = IRunning → i_worker it ≠ Some w.

Lemma released_sub w i its its' : running_sub its its' → released w i its → released w i its'.
Proof.
  intros Hs Hr it Hit E Hrun. destruct (Hs it Hit Hrun) as (it0 & H0 & E1 & _ & E3 & <-).
  apply Hr; [done|congruence|done].
Qed.

Lemma running_sub_app its i k p t : running_sub its (its ++ [new_item i k p t]).
Proof.
  intros x [Hx|Hx]%elem_of_app Hr; [by exists x|]. apply list_elem_of_singleton in Hx as ->. done.
Qed.

Lemma insert_photo_items_running d k t rows d' :
  insert_photo_items d k t rows = Ok d' → running_sub (items d) (items d').
Proof.
  revert d. induction rows as [|[i p] rows IH]; intros d H; [injection H as <-; apply running_sub_refl|].
  simpl in H. apply rbind_ok in H as (d1 & H1 & H%IH). eapply running_sub_trans; [|exact H].
  case_in H1; [injection H1 as <-; apply running_sub_refl|].
  case_in H1; [injection H1 as <-; apply running_sub_app|done].
Qed.

Lemma put_jobs_items d js d' : put_jobs d js = Ok d' → items d' = items d.
Proof. by intros [_ ->]%put_jobs_ok. Qed.

Lemma reuse_existing_items d j fp r d' : reuse_existing d j fp = Ok (r, d') → items d' = items d.
Proof. unfold reuse_existing. intros H. case_in H; [done|]. by case_in H; res_inv. Qed.

Lemma create_running d c k ids hook a r d' :
  create d c k ids hook a = Ok (r, d') → (∀ k d d', hook k d = Ok d' → same_queue d d') →
  running_sub (items d) (items d').
Proof.
  unfold create. intros H Hh.
  match type of H with match ?x with _ => _ end = _ => destruct x as [j|] end;
    [apply reuse_existing_items in H as ->; apply running_sub_refl|].
  apply rbind_ok in H as (_ & _ & H). apply rbind_ok in H as (_ & _ & H).
  apply rbind_ok in H as (d1 & H1%put_jobs_items & H). apply rbind_ok in H as (d2 & H2 & H).
  apply insert_photo_items_running in H2. apply rbind_ok in H as (d4 & [_ H4]%Hh & H).
  injection H as <- <-. change (items (add_event d4 _ _ _ _ _)) with (items d4). rewrite H4, <- H1. exact H2.
Qed.

Lemma insert_maintenance_running d j i t d' :
  insert_maintenance d j i t = Ok d' → running_sub (items d) (items d').
Proof.
  unfold insert_maintenance. intros H. apply rbind_ok in H as (_ & _ & H).
  apply rbind_ok in H as (d1 & H1%put_jobs_items & H). apply rbind_ok in H as (_ & _ & H).
  injection H as <-. rewrite <- H1. apply running_sub_app.
Qed.

Lemma create_maintenance_running d c k i g a r d' :
  create_maintenance d c k i g a = Ok (r, d') → (∀ g', g = Some g' → same_queue d (g' d).2) →
  running_sub (items d) (items d').
Proof.
  unfold create_maintenance. intros H Hg. apply rbind_ok in H as (_ & _ & H).
  match type of H with match ?x with _ => _ end = _ => destruct x as [j|] end.
  - apply rbind_ok in H as ([r1 d1] & H1 & H). injection H as <- <-. simpl.
    rewrite (reuse_existing_items _ _ _ _ _ H1). apply running_sub_refl.
  - destruct (match g with Some g => g d | None => (true, d) end) as [b d0] eqn:Eg.
    assert (items d0 = items d) as E0.
    { destruct g as [g|]; [|by injection Eg as <- <-]. destruct (Hg g eq_refl) as [_ E]. by rewrite Eg in E. }
    rewrite <- E0. destruct b; simpl in H; [|injection H as <- <-; apply running_sub_refl].
    apply rbind_ok in H as (d1 & H1%insert_maintenance_running & H). by injection H as <- <-.
Qed.

Lemma capacity_running d c k i kind name st us p l1 l2 r d' :
  create_maintenance_with_capacity d c k i kind name st us p l1 l2 = Ok (r, d') → running_sub (items d) (items d').
Proof.
  unfold create_maintenance_with_capacity. intros H. do 3 (apply rbind_ok in H as (_ & _ & H)).
  apply rbind_ok in H as (d1 & H1 & H). injection H as <- <-. by eapply insert_maintenance_running.
Qed.

Lemma defer_item_running d c i w delay dp code b d' :
  defer_item d c i w delay dp code = (b, d') → running_sub (items d) (items d').
Proof.
  unfold defer_item. intros H.
  match type of H with context [update_where ?sel ?f (items d)] => set (its := update_where sel f (items d)) in H end.
  assert (running_sub (items d) its) as Hs by (by apply leave_sub; [solve_frame|]).
  case_in H; injection H as <- <-; [|exact Hs]. destruct dp; [|exact Hs].
  change (items (_ <| items := ?x |>)) with x. destruct (get_row i_id i its) as [row|]; [|exact Hs].
  eapply running_sub_trans; [exact Hs|]. apply running_sub_update; [solve_frame|]. done.
Qed.

Lemma recover_all_running t rows acc : running_sub (items acc.2) (items (recover_all t rows acc).2).
Proof.
  revert acc. induction rows as [|r rows IH]; intros [n d]; [apply running_sub_refl|].
  unfold recover_all. cbn [fold_left]. eapply running_sub_trans; [|apply IH].
  destruct r as [it seasonal]. unfold recover_one. case_goal; [case_goal|]; by apply leave_sub; [solve_frame|].
Qed.

(** The item transactions that only take items out of the running status. *)
Ltac leaves := repeat match goal with
  | H : _ = (_, _) |- _ => progress case_in H
  | H : _ = Ok (_, _) |- _ => progress case_in H
  end; res_inv; first [apply running_sub_refl | by apply leave_sub; [solve_frame|]].

Lemma fail_item_running d c k i code m max ri w b d' :
  fail_item d c k i code m max ri w = (b, d') → running_sub (items d) (items d').
Proof.
  unfold fail_item. intros H. case_in H; [|res_inv; apply running_sub_refl]. injection H as <- <-.
  match goal with |- context [items (upsert_error ?x _ _ _ _ _ _)] =>
    destruct (upsert_error_queue x k i (i_photo i0) code m (now c)) as [_ ->] end.
  case_goal; by apply leave_sub; [solve_frame|].
Qed.

(** [takes w i d o]: with [o], worker [w] claims item [i]. *)
Definition takes (w i : str) (d : db) (o : op) : Prop :=
  match o with
  | OClaim c k w' limit lease =>
      w' = w ∧ ∃ rows d', claim d c k w' limit lease = Ok (rows, d') ∧ i ∈ map i_id rows
  | _ => False
  end.

Lemma claim_released d c k w' limit lease rows d' w i :
  wf_db d → claim d c k w' limit lease = Ok (rows, d') → (w' = w → i ∉ map i_id rows) →
  released w i (items d) → released w i (items d').
Proof.
  intros Hw Hc Hn Hr it Hit Ei Es Ew.
  apply claim_inv in Hc as H. destruct H as [[-> ->]|(j & oa & bf & _ & _ & -> & Er)]; [by eapply Hr|].
  apply update_where_elem in Hit as (it0 & Hit0 & ->). case_match; [|by eapply Hr].
  simpl in *. injection Ew as ->. apply Hn; [done|]. rewrite claim_result in Er by apply Hw. rewrite Er, map_map.
  rewrite <- Ei. by apply str_in_elem.
Qed.

Lemma transition_running d c k from st e b d' :
  transition d c k from st e = Ok (b, d') → running_sub (items d) (items d').
Proof.
  unfold transition. intros H. apply rbind_ok in H as (d1 & H1%put_jobs_items & H). rewrite <- H1.
  by case_in H; injection H as <- <-; apply running_sub_refl.
Qed.

Lemma lookup_running d key fp r d' : get_by_dedupe_key d key fp = Ok (r, d') → running_sub (items d) (items d').
Proof.
  unfold get_by_dedupe_key. intros H. case_in H; [|res_inv; apply running_sub_refl].
  case_in H; [|res_inv; apply running_sub_refl]. apply rbind_ok in H as ([k d1] & H1 & H). injection H as <- <-.
  rewrite (reuse_existing_items _ _ _ _ _ H1). apply running_sub_refl.
Qed.

Lemma finalize_if_done_running d c k f b d' :
  finalize_if_done d c k f = (b, d') → frames_finalizer f → running_sub (items d) (items d').
Proof.
  unfold finalize_if_done. intros H Hf. case_in H; [|res_inv; apply running_sub_refl].
  case_in H; [res_inv; apply running_sub_refl|]. case_in H; [res_inv; apply running_sub_refl|].
  destruct (run_finalizer _ _ _ _ _) as [st d1] eqn:Er. apply run_finalizer_spec in Er as [[_ Ei] _]; [|done].
  rewrite <- Ei. case_in H; res_inv; apply running_sub_refl.
Qed.

Lemma retry_failed_running d c k n d' : retry_failed d c k = Ok (n, d') → running_sub (items d) (items d').
Proof.
  unfold retry_failed. intros H. case_in H; [|res_inv; apply running_sub_refl].
  case_in H; [res_inv; apply running_sub_refl|]. apply rbind_ok in H as (_ & _ & H).
  case_in H; [res_inv; by apply leave_sub; [solve_frame|]|].
  apply rbind_ok in H as (d1 & H1%put_jobs_items & H). injection H as <- <-. rewrite H1.
  by apply leave_sub; [solve_frame|].
Qed.

Lemma reopen_running d c k b d' : reopen_batch_job d c k = Ok (b, d') → running_sub (items d) (items d').
Proof.
  unfold reopen_batch_job. intros H. apply rbind_ok in H as (d1 & H1%put_jobs_items & H).
  case_in H; res_inv; [|rewrite H1; apply running_sub_refl]. by apply leave_sub; [solve_frame|].
Qed.

Lemma recover_stale_running d c n d' : recover_stale d c = (n, d') → running_sub (items d) (items d').
Proof.
  unfold recover_stale. intros H. case_in H; [|res_inv; apply running_sub_refl].
  pose proof (recover_all_running (now c) (recover_rows d (now c)) (0, d)) as H1.
  destruct (recover_all _ _ _) as [n1 d1]. res_inv. exact H1.
Qed.

#[export] Hint Resolve create_running create_maintenance_running capacity_running lookup_running transition_running
  finalize_if_done_running retry_failed_running reopen_running recover_stale_running defer_item_running
  fail_item_running : ink.

Lemma exec_running render d o :
  op_ok d o → match o with OClaim _ _ _ _ _ => False | _ => True end →
  running_sub (items d) (items (exec render d o)).
Proof.
  intros Hok Ho.
  assert (∀ A (r : result job_exn (A * db)), (∀ a d', r = Ok (a, d') → running_sub (items d) (items d')) →
    running_sub (items d) (items (settle d r))) as Hset.
  { intros A r Hr. destruct r as [[a d']|e]; simpl; [by eapply Hr|apply running_sub_refl]. }
  assert (∀ A (p : A * db), (∀ a d', p = (a, d') → running_sub (items d) (items d')) →
    running_sub (items d) (items p.2)) as Hsnd by (intros A [a d'] Hp; by eapply Hp).
  destruct o; cbn [exec op_ok] in *; try done; (apply Hset || apply Hsnd); intros ? ? H; try (by eauto with ink).
  - unfold request_pause in H. leaves.
  - unfold acknowledge_pause in H. leaves.
  - unfold cancel in H. leaves.
  - unfold fail_invalid_settings in H. leaves.
  - unfold renew_leases in H. res_inv. by apply running_sub_update; [solve_frame|].
  - unfold complete_item in H. leaves.
  - unfold record_late_completion in H. leaves.
  - unfold complete_batch_item in H. leaves.
  - unfold fail_batch_item in H. leaves.
  - unfold cancel_batch_item in H. leaves.
  - unfold finalize_batch_job in H. apply rbind_ok in H as (_ & _ & H). leaves.
  - unfold abandon_unstarted in H. leaves.
Qed.

Lemma exec_released render d o w i :
  wf_db d → op_ok d o → ¬ takes w i d o → released w i (items d) → released w i (items (exec render d o)).
Proof.
  intros Hw Hok Ht Hr.
  destruct o; try (eapply released_sub; [|exact Hr]; by apply exec_running).
  cbn [exec]. destruct (claim _ _ _ _ _ _) as [[rows d']|e] eqn:E; simpl; [|done].
  eapply claim_released; [exact Hw|exact E| |exact Hr]. intros -> Hin. apply Ht. simpl. eauto.
Qed.

(** Transactions of anybody, except that [w] does not claim item [i]. *)
Inductive apart (render : json → str) (w i : str) : db → db → Prop :=
| apart_refl d : apart render w i d d
| apart_op d o d' : op_ok d o → ¬ takes w i d o → apart render w i (exec render d o) d' → apart render w i d d'
| apart_other d d1 d' : same_queue d d1 → apart render w i d1 d' → apart render w i d d'.

Lemma apart_released render w i d d' :
  wf_db d → apart render w i d d' → released w i (items d) → released w i (items d').
Proof.
  intros Hw H. induction H as [d|d o d' Hok Ht _ IH|d d1 d' Hq _ IH]; intros Hr; [done|..].
  - apply IH; [by apply exec_wf|by apply exec_released].
  - apply IH; [by eapply wf_same_queue|]. destruct Hq as [_ ->]. done.
Qed.

(** ** Reports of a worker that does not hold the item *)

Lemma released_refuses d i w :
  released w i (items d) →
  (∀ render c k r cost, complete_item render d c k i r cost (Some w) = (false, d)) ∧
  (∀ c k r cost, record_late_completion d c k i r cost (Some w) = (false, d)) ∧
  (∀ c k code m max ri, fail_item d c k i code m max ri (Some w) = (false, d)) ∧
  (∀ c delay dp code, defer_item d c i (Some w) delay dp code = (false, d)).
Proof.
  intros Hr.
  assert (∀ k, existsb (running_row i k (Some w)) (items d) = false) as He.
  { intros k. apply existsb_none. intros x Hx. apply not_true_iff_false. intros (E & _ & Es & Eo)%running_row_inv.
    unfold owned_by in Eo. apply bool_decide_eq_true in Eo. by eapply Hr. }
  assert (∀ k f, d <| items := update_where (running_row i k (Some w)) f (items d) |> = d) as Hu.
  { intros k f. rewrite update_where_none by done. by destruct d. }
  split_and!; intros.
  - unfold complete_item. rewrite He, !Hu. by destruct (get d k); [case_goal|].
  - unfold record_late_completion. by rewrite He, Hu.
  - unfold fail_item. destruct (find_where _ _) eqn:E; [|done]. apply find_where_Some in E as [Hi Hx].
    specialize (He k). rewrite existsb_none in He. by rewrite He in Hx.
  - unfold defer_item. cbv zeta.
    match goal with |- context [existsb ?p (items d)] => assert (existsb p (items d) = false) as Hd end.
    { apply existsb_none. intros x Hx. apply not_true_iff_false. intros Hs. unfold owned_by in Hs. bprop.
      destruct Hs as [[Ei Es] Eo]. by eapply Hr. }
    rewrite Hd, update_where_none by done. by destruct d.
Qed.

(** C5. A worker that lost its lease is fenced off.  Let recovery take back an
    item whose lease expired, and let any transactions follow, of any workers,
    including claims of that item by others, as long as the former owner does
    not claim it again himself.  Then whatever he reports about it, that it is
    completed, completed late, failed or to be deferred, is refused and
    changes nothing, even while the item is running under another worker. *)
Theorem expired_worker_is_fenced render d c n d1 d2 it w :
  wf_db d → recover_stale d c = (n, d1) → it ∈ items d → expired (now c) it = true →
  apart render w (i_id it) d1 d2 →
  (∀ render' c' k r cost, complete_item render' d2 c' k (i_id it) r cost (Some w) = (false, d2)) ∧
  (∀ c' k r cost, record_late_completion d2 c' k (i_id it) r cost (Some w) = (false, d2)) ∧
  (∀ c' k code m max ri, fail_item d2 c' k (i_id it) code m max ri (Some w) = (false, d2)) ∧
  (∀ c' delay dp code, defer_item d2 c' (i_id it) (Some w) delay dp code = (false, d2)).
Proof.
  intros Hw H Hi He Ha. apply released_refuses. eapply apart_released; [by eapply recover_stale_wf|exact Ha|].
  rewrite (recover_stale_map d c n d1 Hw H). intros x (i0 & -> & Hi0)%list_elem_of_fmap Ex Es _.
  unfold recovered in Ex, Es. destruct (expired (now c) i0) eqn:E0; [by destruct (seasonal_item d i0 || _)|].
  rewrite (keys_unique_inj i_id (items d) i0 it) in E0; [congruence|apply Hw|done..].
Qed.
