(* ===== verification/QueueScan.v ===== *)
(** * Scanning runnable jobs

    [iter_runnable] walks the runnable jobs page by page with a keyset cursor
    while other transactions change the jobs between the pages.  What it
    yields is strictly ordered, and a job that stays runnable and due is not
    missed; on a table that does not change it yields exactly the due jobs. *)

From S2P Require Import Prelude PyStr PyFloat Json Sql Sha256 Store Reservations JobQueue JobQueueWf.
Local Open Scope Z_scope.

(** ** (priority, created_at, id) is a total order *)

Lemma str_ltb_leb a b : str_ltb a b = true ↔ str_leb b a = false.
Proof. unfold str_ltb. by rewrite negb_true. Qed.

Lemma run_key_ltb_spec a b :
  run_key_ltb a b = true ↔
  j_priority a < j_priority b ∨ (j_priority a = j_priority b ∧
    (j_created_at a < j_created_at b ∨
     (j_created_at a = j_created_at b ∧ str_leb (j_id b) (j_id a) = false))).
Proof. unfold run_key_ltb, str_ltb. by bprop. Qed.

Lemma run_key_leb_spec a b :
  run_key_leb a b = true ↔
  j_priority a < j_priority b ∨ (j_priority a = j_priority b ∧
    (j_created_at a < j_created_at b ∨
     (j_created_at a = j_created_at b ∧ str_leb (j_id a) (j_id b) = true))).
Proof.
  unfold run_key_leb. rewrite negb_true, <- not_true_iff_false, run_key_ltb_spec.
  destruct (str_leb (j_id a) (j_id b)); lia.
Qed.

Lemma run_key_total a b : run_key_leb a b = true ∨ run_key_leb b a = true.
Proof. rewrite !run_key_leb_spec. destruct (str_leb_total (j_id a) (j_id b)) as [-> | ->]; lia. Qed.

Lemma run_key_trans a b c : run_key_leb a b = true → run_key_leb b c = true → run_key_leb a c = true.
Proof.
  rewrite !run_key_leb_spec. pose proof (str_leb_trans (j_id a) (j_id b) (j_id c)) as Ht.
  intros H1 H2. destruct (str_leb (j_id a) (j_id c)) eqn:E; [lia|].
  destruct (str_leb (j_id a) (j_id b)), (str_leb (j_id b) (j_id c)); (by specialize (Ht eq_refl eq_refl)) || lia.
Qed.

Lemma run_key_ltb_irrefl a : run_key_ltb a a = false.
Proof. apply not_true_iff_false. rewrite run_key_ltb_spec, str_leb_refl. lia. Qed.

Lemma run_key_leb_ltb a b : run_key_leb a b = true → run_key_ltb b a = false.
Proof. unfold run_key_leb. apply negb_true. Qed.

Lemma run_key_strict a b : run_key_leb a b = true → j_id a ≠ j_id b → run_key_ltb a b = true.
Proof.
  rewrite run_key_leb_spec, run_key_ltb_spec. intros H Hne.
  destruct (str_leb (j_id b) (j_id a)) eqn:E; [|lia].
  destruct (str_leb (j_id a) (j_id b)) eqn:E'; [|lia]. by rewrite (str_leb_antisym (j_id a) (j_id b)) in Hne.
Qed.

(** ** Pages of a sorted list *)

Definition due_sorted (d : db) (t : Z) : list job :=
  sort_by run_key_leb (List.filter (job_due d t) (jobs d)).

Definition run_sorted : list job → Prop := StronglySorted (λ a b, run_key_leb a b = true).

Lemma sorted_app_inv l1 l2 :
  run_sorted (l1 ++ l2) → ∀ a b, a ∈ l1 → b ∈ l2 → run_key_leb a b = true.
Proof.
  induction l1 as [|x l1 IH]; simpl; intros Hs a b Ha Hb; [by apply not_elem_of_nil in Ha|].
  apply StronglySorted_inv in Hs as [Hs Hf]. apply elem_of_cons in Ha as [->|Ha]; [|by eapply IH].
  rewrite Forall_forall in Hf. apply Hf, elem_of_app. by right.
Qed.

(** After the cursor row come exactly the rows behind it. *)
Lemma filter_after l1 x l2 :
  run_sorted (l1 ++ x :: l2) → keys_unique j_id (l1 ++ x :: l2) →
  List.filter (run_key_ltb x) (l1 ++ x :: l2) = l2.
Proof.
  intros Hs Hu. rewrite List.filter_app. simpl. rewrite run_key_ltb_irrefl.
  rewrite filter_drop, filter_keep; [done| |].
  - intros y Hy. assert (run_sorted ((l1 ++ [x]) ++ l2)) as Hs' by (by rewrite <- app_assoc).
    apply run_key_strict; [apply (sorted_app_inv _ _ Hs'); [apply elem_of_app; right; left|done]|].
    intros E. unfold keys_unique in Hu. rewrite map_app in Hu. apply NoDup_app in Hu as (_ & _ & Hu).
    simpl in Hu. apply NoDup_cons in Hu as [Hn _]. apply Hn. rewrite E.
    by apply (list_elem_of_fmap_2 j_id).
  - intros y Hy. apply run_key_leb_ltb. apply (sorted_app_inv _ _ Hs); [done|left].
Qed.

Definition cursor (l : list job) : option job := List.last (map Some l) None.

Lemma cursor_snoc l x : cursor (l ++ [x]) = Some x.
Proof. unfold cursor. rewrite map_app. apply last_last. Qed.

Lemma page_after d t ps l1 l2 :
  keys_unique j_id (jobs d) → due_sorted d t = l1 ++ l2 →
  runnable_page d t ps (cursor l1) = take (Z.to_nat (Z.max 1 (Z.min ps 500))) l2.
Proof.
  intros Hu Hl. unfold runnable_page. f_equal.
  assert (∀ q, sort_by run_key_leb (List.filter (λ j, job_due d t j && q j) (jobs d)) =
               List.filter q (due_sorted d t)) as Hf.
  { intros q. unfold due_sorted. rewrite <- sort_by_filter by (apply run_key_total || apply run_key_trans).
    f_equal. clear Hu. induction (jobs d) as [|j js IH]; simpl; [done|]. destruct (job_due d t j), (q j) eqn:Eq; simpl; by rewrite ?Eq, IH. }
  rewrite Hf, Hl. assert (run_sorted (l1 ++ l2)) as Hs.
  { rewrite <- Hl. apply sort_by_sorted; [apply run_key_total|apply run_key_trans]. }
  assert (keys_unique j_id (l1 ++ l2)) as Hk.
  { rewrite <- Hl. unfold keys_unique, due_sorted. rewrite sort_by_perm.
    eapply sublist_NoDup; [exact Hu|]. apply (fmap_sublist j_id). clear.
    induction (jobs d) as [|x l IH]; simpl; [done|]. destruct (job_due d t x); by constructor. }
  destruct l1 as [|x l1 _] using rev_ind; [by apply filter_keep|].
  rewrite cursor_snoc. rewrite <- app_assoc in *. by apply filter_after.
Qed.

(** On a table that does not change. *)
Lemma iter_runnable_still n d t ps l1 l2 :
  keys_unique j_id (jobs d) → due_sorted d t = l1 ++ l2 → (length l2 < n)%nat →
  iter_runnable_from (replicate n d) t ps (cursor l1) = (l2, true).
Proof.
  revert l1 l2. induction n as [|n IH]; intros l1 l2 Hu Hl Hn; [lia|].
  cbn [replicate iter_runnable_from]. rewrite (page_after d t ps l1 l2) by done.
  set (m := Z.to_nat (Z.max 1 (Z.min ps 500))). assert (0 < m)%nat as Hpos by (unfold m; lia).
  destruct l2 as [|x l2]; [by rewrite take_nil|]. destruct m as [|m]; [lia|]. cbn [take].
  assert (l1 ++ x :: l2 = (l1 ++ x :: take m l2) ++ drop m l2) as El.
  { rewrite <- app_assoc. simpl. by rewrite take_drop. }
  assert (List.last (map Some (x :: take m l2)) None = cursor (l1 ++ x :: take m l2)) as ->.
  { destruct (exists_last (l := x :: take m l2)) as (l' & y & ->); [done|].
    rewrite app_assoc. rewrite cursor_snoc. apply (cursor_snoc l' y). }
  rewrite (IH _ (drop m l2)).
  - simpl. by rewrite take_drop.
  - done.
  - by rewrite Hl.
  - rewrite length_drop. simpl in Hn. lia.
Qed.

(** ** On a table that changes *)

Definition run_key (j : job) : Z * Z * str := (j_priority j, j_created_at j, j_id j).

Lemma run_key_ltb_key a a' b b' : run_key a = run_key a' → run_key b = run_key b' → run_key_ltb a b = run_key_ltb a' b'.
Proof. unfold run_key, run_key_ltb. intros [= -> -> ->] [= -> -> ->]. done. Qed.

Lemma run_key_ltb_trans a b c : run_key_ltb a b = true → run_key_ltb b c = true → run_key_ltb a c = true.
Proof.
  intros H1 H2. destruct (run_key_ltb a c) eqn:E; [done|exfalso].
  assert (run_key_leb c a = true) as Hca by (unfold run_key_leb; by rewrite E).
  assert (run_key_leb a b = true) as Hab.
  { destruct (run_key_total a b) as [H|H]; [done|]. apply run_key_leb_ltb in H. congruence. }
  pose proof (run_key_trans c a b Hca Hab) as Hcb. apply run_key_leb_ltb in Hcb. congruence.
Qed.

Definition behind (last : option job) (j : job) : bool :=
  match last with Some l => run_key_ltb l j | None => true end.
Definition ordered : list job → Prop := StronglySorted (λ a b, run_key_ltb a b = true).

(** The selection of a page, before its LIMIT. *)
Definition page_rows (d : db) (t : Z) (last : option job) : list job :=
  sort_by run_key_leb (List.filter (λ j, job_due d t j && behind last j) (jobs d)).

Lemma page_rows_elem d t last j : j ∈ page_rows d t last ↔ j ∈ jobs d ∧ job_due d t j = true ∧ behind last j = true.
Proof. unfold page_rows. rewrite sort_by_elem, filter_elem, andb_true_iff. tauto. Qed.

Lemma page_rows_ordered d t last : keys_unique j_id (jobs d) → ordered (page_rows d t last).
Proof.
  intros Hu.
  assert (run_sorted (page_rows d t last)) as Hs by (apply sort_by_sorted; [apply run_key_total|apply run_key_trans]).
  assert (keys_unique j_id (page_rows d t last)) as Hk.
  { unfold keys_unique, page_rows. rewrite sort_by_perm. eapply sublist_NoDup; [exact Hu|].
    apply (fmap_sublist j_id). clear. generalize (λ j, job_due d t j && behind last j). intros p.
    induction (jobs d) as [|x l IH]; simpl; [done|]. destruct (p x); by constructor. }
  induction Hs as [|x l Hs IH Hf]; [constructor|]. apply NoDup_cons in Hk as [Hn Hk].
  constructor; [by apply IH|]. rewrite Forall_forall in *. intros y Hy. apply run_key_strict; [by apply Hf|].
  intros E. apply Hn. rewrite E. by apply (list_elem_of_fmap_2 j_id).
Qed.

Lemma ordered_app l1 l2 :
  ordered l1 → ordered l2 → (∀ a b, a ∈ l1 → b ∈ l2 → run_key_ltb a b = true) → ordered (l1 ++ l2).
Proof.
  intros H1 H2 H. induction H1 as [|x l1 H1 IH Hf]; [done|]. simpl. constructor.
  - apply IH. intros a b Ha Hb. apply H; [by right|done].
  - rewrite Forall_forall in *. intros y [Hy|Hy]%elem_of_app; [by apply Hf|apply H; [left|done]].
Qed.

Lemma ordered_split l1 l2 : ordered (l1 ++ l2) → ordered l1 ∧ ∀ a b, a ∈ l1 → b ∈ l2 → run_key_ltb a b = true.
Proof.
  induction l1 as [|x l1 IH]; simpl; intros H; [split; [constructor|by intros ? ? ?%not_elem_of_nil]|].
  apply StronglySorted_inv in H as [H Hf]. destruct (IH H) as [H1 H2]. rewrite Forall_forall in Hf. split.
  - constructor; [done|]. rewrite Forall_forall. intros y Hy. apply Hf, elem_of_app. by left.
  - intros a b [->|Ha]%elem_of_cons Hb; [apply Hf, elem_of_app; by right|by apply H2].
Qed.

Lemma page_split d t ps last :
  ∃ rest, page_rows d t last = runnable_page d t ps last ++ rest ∧
    (runnable_page d t ps last = [] → page_rows d t last = []).
Proof.
  unfold runnable_page. fold (behind last). change (sort_by run_key_leb _) with (page_rows d t last) at 2.
  eexists. split; [symmetry; apply take_drop|].
  destruct (Z.to_nat (Z.max 1 (Z.min ps 500))) eqn:E; [lia|]. by destruct (page_rows d t last).
Qed.

Lemma cursor_max l x : ordered l → cursor l = Some x → x ∈ l ∧ ∀ y, y ∈ l → y = x ∨ run_key_ltb y x = true.
Proof.
  destruct l as [|z l _] using rev_ind; [done|]. rewrite cursor_snoc. intros Hs [= ->].
  split; [apply elem_of_app; right; left|]. intros y [Hy|Hy]%elem_of_app.
  - right. apply (proj2 (ordered_split _ _ Hs)); [done|left].
  - left. by apply list_elem_of_singleton in Hy.
Qed.

Lemma cursor_cons x l : ∃ y, cursor (x :: l) = Some y.
Proof. destruct (exists_last (l := x :: l)) as (l' & y & ->); [done|]. exists y. apply cursor_snoc. Qed.

(** What is yielded is ordered, lies behind the cursor, and was due when its
    page was read. *)
Lemma scan_ordered pages t ps last l ended :
  Forall (λ d, keys_unique j_id (jobs d)) pages → iter_runnable_from pages t ps last = (l, ended) →
  ordered l ∧ (∀ j, j ∈ l → behind last j = true ∧ ∃ d, d ∈ pages ∧ j ∈ jobs d ∧ job_due d t j = true).
Proof.
  intros Hp. revert last l ended. induction Hp as [|d pages Hd _ IH]; intros last l ended H; cbn [iter_runnable_from] in H.
  { injection H as <- <-. split; [constructor|]. by intros ? ?%not_elem_of_nil. }
  destruct (page_split d t ps last) as (rest & Hsplit & _). pose proof (page_rows_ordered d t last Hd) as Ho.
  destruct (runnable_page d t ps last) as [|x rows] eqn:Er.
  { injection H as <- <-. split; [constructor|]. by intros ? ?%not_elem_of_nil. }
  change (List.last (map Some (x :: rows)) None) with (cursor (x :: rows)) in H.
  destruct (iter_runnable_from pages t ps (cursor (x :: rows))) as [more e] eqn:Em. injection H as <- <-.
  change (x :: rows ++ more) with ((x :: rows) ++ more).
  destruct (IH _ _ _ Em) as [Hm Hin]. rewrite Hsplit in Ho. destruct (ordered_split _ _ Ho) as [Hr _].
  assert (∀ a, a ∈ x :: rows → behind last a = true ∧ a ∈ jobs d ∧ job_due d t a = true) as Hrow.
  { intros a Ha. assert (a ∈ page_rows d t last) as Hpr by (rewrite Hsplit; apply elem_of_app; by left).
    apply page_rows_elem in Hpr as (? & ? & ?). done. }
  destruct (cursor_cons x rows) as [y Hy]. destruct (cursor_max _ _ Hr Hy) as [Hyin Hmax].
  assert (∀ a b, a ∈ x :: rows → b ∈ more → run_key_ltb a b = true) as Hlt.
  { intros a b Ha Hb. destruct (Hin b Hb) as [Hbb _]. rewrite Hy in Hbb. simpl in Hbb.
    destruct (Hmax a Ha) as [->|Hay]; [done|by eapply run_key_ltb_trans]. }
  split; [by apply ordered_app|]. intros j [Hj|Hj]%elem_of_app.
  - destruct (Hrow j Hj) as (? & ? & ?). split; [done|]. exists d. split; [left|done].
  - destruct (Hin j Hj) as (_ & d' & Hd' & Hj'). split; [|exists d'; split; [by right|done]].
    destruct (Hrow x ltac:(left)) as (Hb & _ & _). destruct last as [l0|]; [|done]. simpl in *.
    eapply run_key_ltb_trans; [exact Hb|]. apply Hlt; [left|done].
Qed.

(** A key that is present and due on every page is not skipped. *)
Lemma scan_complete pages t ps last l k :
  Forall (λ d, keys_unique j_id (jobs d)) pages → iter_runnable_from pages t ps last = (l, true) →
  (∀ d, d ∈ pages → ∃ j, j ∈ jobs d ∧ run_key j = k ∧ job_due d t j = true) →
  (∀ j, run_key j = k → behind last j = true) → ∃ j, j ∈ l ∧ run_key j = k.
Proof.
  intros Hp. revert last l. induction Hp as [|d pages Hd _ IH]; intros last l H Hk Hlast; cbn [iter_runnable_from] in H; [done|].
  destruct (Hk d ltac:(left)) as (j0 & Hj0 & Ek & Hdue).
  assert (j0 ∈ page_rows d t last) as Hin by (apply page_rows_elem; eauto).
  destruct (page_split d t ps last) as (rest & Hsplit & Hempty). pose proof (page_rows_ordered d t last Hd) as Ho.
  destruct (runnable_page d t ps last) as [|x rows] eqn:Er.
  { rewrite Hempty in Hin by done. by apply not_elem_of_nil in Hin. }
  change (List.last (map Some (x :: rows)) None) with (cursor (x :: rows)) in H.
  destruct (iter_runnable_from pages t ps (cursor (x :: rows))) as [more e] eqn:Em. injection H as <- ->.
  rewrite Hsplit in Hin, Ho. apply elem_of_app in Hin as [Hin|Hin].
  { exists j0. split; [|done]. change (x :: rows ++ more) with ((x :: rows) ++ more). apply elem_of_app. by left. }
  destruct (ordered_split _ _ Ho) as [Hr Hlt]. destruct (cursor_cons x rows) as [y Hy].
  destruct (cursor_max _ _ Hr Hy) as [Hyin _].
  destruct (IH (cursor (x :: rows)) more Em) as (j & Hj & Ej).
  - intros d' Hd'. apply Hk. by right.
  - intros j Ej. rewrite Hy. simpl. rewrite (run_key_ltb_key y y j j0); [by apply Hlt|done|congruence].
  - exists j. split; [|done]. change (x :: rows ++ more) with ((x :: rows) ++ more). apply elem_of_app. by right.
Qed.

(** A page that does not end the scan yields a job. *)
Lemma scan_length pages t ps last l :
  iter_runnable_from pages t ps last = (l, false) → (length pages ≤ length l)%nat.
Proof.
  revert last l. induction pages as [|d pages IH]; intros last l H; cbn [iter_runnable_from length] in *; [lia|].
  destruct (runnable_page d t ps last) as [|x rows]; [done|].
  destruct (iter_runnable_from pages t ps _) as [more e] eqn:Em. injection H as <- ->.
  apply IH in Em. simpl. rewrite length_app. lia.
Qed.

Lemma ordered_keys l : ordered l → NoDup (map run_key l).
Proof.
  induction 1 as [|x l Hs IH Hf]; [apply NoDup_nil_2|]. simpl. apply NoDup_cons. split; [|done].
  intros (y & E & Hy)%list_elem_of_fmap. rewrite Forall_forall in Hf. specialize (Hf y Hy).
  rewrite (run_key_ltb_key x y y y) in Hf by done. by rewrite run_key_ltb_irrefl in Hf.
Qed.

(** C36. The scan of runnable jobs while the jobs change: every page is read
    from the database as it then is.  The jobs are yielded in strictly
    increasing (priority, created_at, id) order, so none twice under the same
    key, and each was runnable with due work, or with no active item left to
    wait for, when its page was read.  Once the generator has returned, no job
    that was so on every page under the same key has been missed.  It returns
    as soon as the pages outnumber the keys that occur; and on a table that
    does not change it yields exactly the due jobs in order, whatever the
    page size. *)
Theorem iter_runnable_complete pages t ps l ended :
  Forall (λ d, keys_unique j_id (jobs d)) pages → iter_runnable pages t ps = (l, ended) →
  ordered l ∧ (∀ j, j ∈ l → ∃ d, d ∈ pages ∧ j ∈ jobs d ∧ job_due d t j = true) ∧
  (ended = true → ∀ k, (∀ d, d ∈ pages → ∃ j, j ∈ jobs d ∧ run_key j = k ∧ job_due d t j = true) →
     ∃ j, j ∈ l ∧ run_key j = k) ∧
  (∀ ks, (∀ d j, d ∈ pages → j ∈ jobs d → run_key j ∈ ks) → (length ks < length pages)%nat → ended = true) ∧
  (∀ d n, pages = replicate n d → (length (jobs d) < n)%nat → l = due_sorted d t ∧ ended = true).
Proof.
  intros Hp H. unfold iter_runnable in H. destruct (scan_ordered _ _ _ _ _ _ Hp H) as [Ho Hin].
  split; [done|]. split; [intros j Hj; by apply Hin|]. split_and!.
  - intros -> k Hk. eapply scan_complete; [exact Hp|exact H|done|done].
  - intros ks Hks Hlen. destruct ended; [done|exfalso]. apply scan_length in H.
    assert (length (map run_key l) ≤ length ks)%nat as Hle; [|rewrite length_map in Hle; lia].
    apply submseteq_length, NoDup_submseteq; [by apply ordered_keys|].
    intros k (j & -> & Hj)%list_elem_of_fmap. destruct (Hin j Hj) as (_ & d & Hd & Hjd & _). by eapply Hks.
  - intros d n -> Hn. change None with (cursor []) in H. rewrite (iter_runnable_still n d t ps [] (due_sorted d t)) in H; [by injection H as <- <-| |done|].
    + rewrite Forall_forall in Hp. apply Hp, elem_of_replicate. split; [done|lia].
    + unfold due_sorted. rewrite sort_by_length. pose proof (List.filter_length_le (job_due d t) (jobs d)). lia.
Qed.
