(* ===== verification/QueueLife.v ===== *)
(** * Creating, failing and finishing jobs

    Idempotent creation, the preview capacity limits, the retry budget of a
    failing item and the exact condition under which a job finishes. *)

From S2P Require Import Prelude PyStr PyFloat Json Sql Sha256 Store Reservations JobQueue JobQueueWf JobQueueInv.
Local Open Scope Z_scope.

(** ** Finishing *)

Lemma active_iff_not_terminal i : istatus_in item_active (i_status i) = negb (istatus_in item_terminal (i_status i)).
Proof. by destruct (i_status i). Qed.

Definition all_terminal (d : db) (k : str) : Prop :=
  ∀ i, i ∈ items d → i_job i = k → i_status i ∈ item_terminal.

Lemma no_active_all_terminal d k :
  (0 <? countb (λ i, of_job k i && istatus_in item_active (i_status i)) (items d)) = false ↔ all_terminal d k.
Proof.
  rewrite <- not_true_iff_false, Z.ltb_lt, countb_pos, not_true_iff_false, existsb_none.
  unfold all_terminal. setoid_rewrite active_iff_not_terminal. split.
  - intros H i Hi <-. specialize (H i Hi). unfold of_job in H. rewrite str_eqb_refl in H. simpl in H.
    by apply negb_false_iff, istatus_in_spec in H.
  - intros H i Hi. destruct (of_job k i) eqn:E; [|done]. apply of_job_eq in E. simpl. apply negb_false_iff, istatus_in_spec. auto.
Qed.

Lemma get_update_by d k (sel : job → bool) g j :
  (∀ j, j_id (g j) = j_id j) → get_row j_id k (jobs d) = Some j →
  get_row j_id k (update_where sel g (jobs d)) = Some (if sel j then g j else j).
Proof. intros Hid Hj. by rewrite get_row_update, Hj by done. Qed.

Definition has_failed (d : db) (k : str) : bool :=
  existsb (λ i, of_job k i && has_istatus IFailed i) (items d).

(** [finalize_if_done] ends a job exactly when it is runnable and all its
    items are terminal, even when the caller's finalizer raises; the job then
    is [completed] only if no item failed and its finalizer went through, and
    [completed_with_errors] otherwise. *)
Theorem finalize_if_done_spec d c k f b d' :
  frames_finalizer f → finalize_if_done d c k f = (b, d') →
  (b = true ↔ ∃ j, get d k = Some j ∧ j_status j ∈ runnable ∧ all_terminal d k) ∧
  (b = true → ∃ j', get d' k = Some j' ∧
     j_status j' = (if has_failed d k then JCompletedWithErrors
                    else match f with
                         | None => JCompleted
                         | Some g => if is_ok (g k JCompleted d) then JCompleted else JCompletedWithErrors
                         end) ∧
     j_completed_at j' = Some (now c)).
Proof.
  intros Hf H. unfold finalize_if_done in H. destruct (get d k) as [j|] eqn:Ej.
  2:{ injection H as <- <-. split; [|done]. split; [done|]. by intros (? & ? & _). }
  destruct (negb (jstatus_in runnable (j_status j))) eqn:Er.
  { injection H as <- <-. bprop. split; [|done]. split; [done|]. intros (j' & [= <-] & ? & _). done. }
  destruct (0 <? countb (λ i, of_job k i && istatus_in item_active (i_status i)) (items d)) eqn:Ea.
  { injection H as <- <-. split; [|done]. split; [done|]. intros (j' & _ & _ & Ht).
    apply no_active_all_terminal in Ht. congruence. }
  apply no_active_all_terminal in Ea. bprop.
  assert ((0 <? countb (λ i, of_job k i && has_istatus IFailed i) (items d)) = has_failed d k) as Eh.
  { unfold has_failed. apply eq_true_iff_eq. by rewrite Z.ltb_lt, countb_pos. }
  rewrite Eh in H. destruct (run_finalizer _ _ _ _ _) as [s d1] eqn:Ef.
  pose proof (run_finalizer_spec _ _ _ _ _ _ _ Ef Hf) as [[Eq _] _].
  rewrite Eq in H. apply get_row_Some in Ej as Hj. destruct Hj as [Hj Ek].
  assert (by_id k j && jstatus_in runnable (j_status j) = true) as Es by (by bprop).
  assert (existsb (λ j, by_id k j && jstatus_in runnable (j_status j)) (jobs d) = true) as Ex
    by (apply existsb_elem; eauto).
  rewrite Ex in H. injection H as <- <-. split; [split; [by exists j|done]|]. intros _.
  exists (finish_row s (now c) j). split; [|split; [|done]].
  - unfold get. change (jobs (add_event ?x _ _ _ _ _)) with (jobs x). change (jobs (_ <| jobs := ?x |>)) with x.
    rewrite (get_update_by d k _ _ j) by done. by rewrite Es.
  - unfold run_finalizer in Ef. destruct f as [g|]; [|by injection Ef as <- _; destruct (has_failed d k)].
    destruct (has_failed d k), (g k _ d) as [d2|[cls msg]]; by injection Ef as <- _.
Qed.

(** ** The retry budget of a failing item *)

Lemma retry_delay_bounds a : 1 ≤ a → 1 ≤ retry_delay None a ≤ 300.
Proof.
  intros Ha. unfold retry_delay. assert (2 ^ 1 ≤ 2 ^ a) by (apply Z.pow_le_mono_r; lia). lia.
Qed.

Lemma running_row_unique d k i w it :
  wf_db d → it ∈ items d → running_row i k w it = true →
  find_where (running_row i k w) (items d) = Some it ∧ get_row i_id i (items d) = Some it.
Proof.
  intros Hw Hin Hr. pose proof (running_row_inv _ _ _ _ Hr) as (Ei & _). split.
  - destruct (find_where _ _) as [it'|] eqn:E.
    + apply find_where_Some in E as [Hin' (Ei' & _)%running_row_inv]. f_equal.
      apply (keys_unique_inj i_id (items d)); [apply Hw|done|done|congruence].
    + eapply find_where_None in E; [|exact Hin]. congruence.
  - rewrite <- Ei. apply get_row_elem; [apply Hw|done].
Qed.

(** A failure reported by the owner of a running item is recorded, and
    the item is retried at most until its attempts reach [max]: below that it
    goes back to pending after the chosen delay (2^attempts seconds, at least
    one and at most 300, or the caller's interval), at [max] it is failed and
    dead-lettered and the job's failure count grows by one. *)
Theorem fail_item_budget d c k i code m max ri w it :
  wf_db d → it ∈ items d → running_row i k w it = true →
  let '(b, d') := fail_item d c k i code m max ri w in
  b = true ∧
  if max <=? i_attempts it
  then get_row i_id i (items d') = Some (dead_row code (now c) it) ∧
       (∀ j, get d k = Some j → get d' k = Some (bump_failed j))
  else (∃ delay, 1 ≤ delay ∧ (ri = None → delay ≤ 300) ∧
        get_row i_id i (items d') = Some (retry_row code (now c + seconds delay) it)) ∧ jobs d' = jobs d.
Proof.
  intros Hw Hin Hr. destruct (running_row_unique d k i w it Hw Hin Hr) as [Hf Hg].
  unfold fail_item. rewrite Hf. split; [done|]. unfold get.
  match goal with |- context [upsert_error ?x k i ?p code m (now c)] =>
    destruct (upsert_error_queue x k i p code m (now c)) as [-> ->] end.
  assert (item_by_id i it = true) as Ei by (apply running_row_inv in Hr as (? & _); by bprop).
  destruct (max <=? i_attempts it); cbn [items jobs set_with set_items set_jobs].
  - split.
    + change (get_row i_id i (update_where (item_by_id i) (dead_row code (now c)) (items d)) =
              Some (dead_row code (now c) it)). by rewrite get_row_update, Hg by done; simpl; rewrite Ei.
    + intros j Hj. change (get_row j_id k (update_where (by_id k) bump_failed (jobs d)) = Some (bump_failed j)).
      rewrite (get_update_by d k _ _ j) by done. apply get_row_Some in Hj as [_ <-].
      by rewrite (proj2 (by_id_eq (j_id j) j)).
  - split; [|done]. exists (retry_delay ri (i_attempts it)).
    destruct (wf_lease _ _ Hw it Hin) as [_ Hl]. apply running_row_inv in Hr as (_ & _ & Hs & _).
    destruct (Hl Hs) as (_ & _ & Ha). pose proof (retry_delay_bounds _ Ha). split_and!.
    + destruct ri; simpl; [lia|tauto].
    + intros ->. tauto.
    + change (get_row i_id i (update_where (item_by_id i)
        (retry_row code (now c + seconds (retry_delay ri (i_attempts it)))) (items d)) =
        Some (retry_row code (now c + seconds (retry_delay ri (i_attempts it))) it)).
      by rewrite get_row_update, Hg by done; simpl; rewrite Ei.
Qed.

(** ** Idempotent creation *)

(** Columns that [ORDER BY created_at DESC, id DESC] and the dedupe lookup
    read are not touched by the fingerprint backfill. *)
Lemma insert_by_map {A} (leb : A → A → bool) (g : A → A) x l :
  (∀ a b, leb (g a) (g b) = leb a b) → insert_by leb (g x) (map g l) = map g (insert_by leb x l).
Proof.
  intros H. induction l as [|y l IH]; simpl; [done|]. rewrite H. destruct (leb x y); simpl; [done|by rewrite IH].
Qed.

Lemma sort_by_map {A} (leb : A → A → bool) (g : A → A) l :
  (∀ a b, leb (g a) (g b) = leb a b) → sort_by leb (map g l) = map g (sort_by leb l).
Proof. intros H. induction l as [|x l IH]; simpl; [done|]. by rewrite IH, insert_by_map. Qed.

Lemma filter_map {A} (p : A → bool) (g : A → A) l :
  (∀ a, p (g a) = p a) → List.filter p (map g l) = map g (List.filter p l).
Proof. intros H. induction l as [|x l IH]; simpl; [done|]. rewrite H, IH. by destruct (p x). Qed.

Lemma newest_update d (p sel : job → bool) g js :
  (∀ j, j_id (g j) = j_id j ∧ j_created_at (g j) = j_created_at j ∧ p (g j) = p j) →
  jobs d = js →
  head (sort_by newest_leb (List.filter p (update_where sel g js))) =
  (λ j, if sel j then g j else j) <$> newest p d.
Proof.
  intros Hg <-. unfold newest, update_where.
  rewrite filter_map; [rewrite sort_by_map|].
  - by destruct (sort_by _ _).
  - intros a b. unfold newest_leb.
    destruct (Hg a) as (Ea & Ca & _), (Hg b) as (Eb & Cb & _).
    destruct (sel a), (sel b); by rewrite ?Ea, ?Ca, ?Eb, ?Cb.
  - intros a. destruct (sel a); [apply Hg|done].
Qed.

(** A stored fingerprint that does not conflict with the caller's. *)
Definition settled (fp : option str) (j : job) : Prop :=
  opt_truthy fp = true → coalesce (j_request_fingerprint j) = coalesce fp ∨ j_request_fingerprint j = Some [].

Lemma settled_reuse d j fp :
  settled fp j → ∃ d', reuse_existing d j fp = Ok (j_id j, d') ∧
    map j_id (jobs d') = map j_id (jobs d) ∧ items d' = items d.
Proof.
  intros H. unfold reuse_existing. destruct (opt_truthy fp) eqn:E.
  - destruct (H E) as [-> | ->]; simpl.
    + rewrite str_eqb_refl, andb_false_r. case_goal; eexists; (split; [reflexivity|]); [|done].
      split; [|done]. by apply (update_where_map j_id).
    + eexists. split; [reflexivity|]. split; [|done]. by apply (update_where_map j_id).
  - rewrite andb_false_r. by exists d.
Qed.

(** After a reuse that succeeded, the newest row with the key is settled. *)
Lemma reuse_settles d key j fp r d' :
  newest (has_dedupe_key key) d = Some j → reuse_existing d j fp = Ok (r, d') →
  ∃ j', newest (has_dedupe_key key) d' = Some j' ∧ j_id j' = r ∧ settled fp j'.
Proof.
  intros Hn H. unfold reuse_existing in H. case_in H; [done|].
  case_in H; injection H as <- <-.
  - set (sel := λ j0, by_id (j_id j) j0 && is_null (j_request_fingerprint j0)).
    unfold newest at 1. change (jobs (_ <| jobs := ?x |>)) with x.
    rewrite (newest_update d (has_dedupe_key key) sel) by done. rewrite Hn. eexists. split; [done|].
    apply andb_true_iff in Heqb0 as [_ Hs]. simpl. destruct (sel j) eqn:Es; (split; [done|]).
    + intros _. by left.
    + intros _. right. unfold sel in Es. rewrite (proj2 (by_id_eq _ j) eq_refl) in Es. simpl in Es.
      destruct (j_request_fingerprint j) as [[|]|]; done.
  - exists j. split; [done|]. split; [done|]. intros Hf. left. rewrite Hf in *. simpl in Heqb0.
    rewrite Heqb0 in Heqb. simpl in Heqb. by apply negb_false_iff, str_eqb_eq in Heqb.
Qed.

Lemma newest_none p d : newest p d = None → List.filter p (jobs d) = [].
Proof.
  unfold newest. intros H. apply length_zero_iff_nil. rewrite <- (sort_by_length newest_leb).
  by destruct (sort_by _ _).
Qed.

Lemma create_settles d c k ids hook a key r d' :
  (∀ k d d', hook k d = Ok d' → same_queue d d') → c_dedupe_key a = Some key → opt_truthy (Some key) = true →
  create d c k ids hook a = Ok (r, d') →
  ∃ j', newest (has_dedupe_key key) d' = Some j' ∧ j_id j' = r ∧ settled (c_request_fingerprint a) j'.
Proof.
  intros Hh Ek Ht H. unfold create in H. rewrite Ek, Ht in H. simpl coalesce in H.
  destruct (newest (has_dedupe_key key) d) as [j|] eqn:En; [by eapply reuse_settles|].
  apply newest_none in En.
  apply rbind_ok in H as (_ & _ & H). apply rbind_ok in H as (_ & Hk%raise_if_ok & H).
  apply rbind_ok in H as (d1 & [_ ->]%put_jobs_ok & H). apply rbind_ok in H as (d2 & H2 & H).
  apply rbind_ok in H as (d4 & [Ej _]%Hh & H). injection H as <- <-.
  assert (jobs d2 = jobs d ++ [new_job k a (now c)]) as Ed2.
  { clear -H2. revert H2. generalize (zip ids (c_photo_ids a)). set (d1 := d <| jobs := _ |>).
    change (jobs d ++ [new_job k a (now c)]) with (jobs d1). generalize d1. clear d1 d.
    intros d1 l. revert d1. induction l as [|[i p] l IH]; intros d1 H; [by injection H as <-|].
    simpl in H. apply rbind_ok in H as (d3 & H1 & H%IH). rewrite H.
    case_in H1; [by injection H1 as <-|]. case_in H1; [by injection H1 as <-|done]. }
  unfold newest. change (jobs (add_event ?x _ _ _ _ _)) with (jobs x). rewrite Ej.
  change (jobs (_ <| jobs := ?x |>)) with x. rewrite Ed2, update_by_id_app by done.
  rewrite List.filter_app, En. simpl. unfold has_dedupe_key at 1. simpl. rewrite Ek.
  rewrite bool_decide_eq_true_2 by done. simpl. eexists. split; [done|]. split; [done|]. intros _. by left.
Qed.

(** Creating a job is idempotent under its dedupe key: repeating the
    request, with the same key and fingerprint but whatever else, returns the
    id of the first call and creates neither a job nor an item. *)
Theorem create_idempotent d c1 c2 k1 k2 ids1 ids2 hook1 hook2 a1 a2 key r d' :
  (∀ k d d', hook1 k d = Ok d' → same_queue d d') →
  opt_truthy (Some key) = true → c_dedupe_key a1 = Some key → c_dedupe_key a2 = Some key →
  c_request_fingerprint a2 = c_request_fingerprint a1 →
  create d c1 k1 ids1 hook1 a1 = Ok (r, d') →
  ∃ d'', create d' c2 k2 ids2 hook2 a2 = Ok (r, d'') ∧
         map j_id (jobs d'') = map j_id (jobs d') ∧ items d'' = items d'.
Proof.
  intros Hh Ht E1 E2 Ef H. destruct (create_settles _ _ _ _ _ _ _ _ _ Hh E1 Ht H) as (j & Hn & <- & Hs).
  unfold create. rewrite E2, Ht. simpl coalesce. rewrite Hn, Ef. by apply settled_reuse.
Qed.

(** ** Preview capacity *)

Lemma active_count_insert d d' j kind user :
  jobs d' = jobs d ++ [j] → j_kind j = kind → j_status j = JPending →
  active_count d' kind user ≤ active_count d kind user + 1.
Proof.
  intros Hd Hk Hs. unfold active_count at 1. rewrite Hd, countb_app, countb_cons, countb_nil. unfold active_count.
  destruct (active_of_kind kind j && _); lia.
Qed.

Lemma insert_maintenance_jobs d j i t d' : insert_maintenance d j i t = Ok d' → jobs d' = jobs d ++ [j].
Proof.
  unfold insert_maintenance. intros H. apply rbind_ok in H as (_ & _ & H).
  apply rbind_ok in H as (d1 & [_ ->]%put_jobs_ok & H). apply rbind_ok in H as (_ & _ & H). by injection H as <-.
Qed.

(** Previews are admitted only within capacity: after an admission
    neither the user's nor the system's number of in-flight previews exceeds
    its limit (at least one each). *)
Theorem preview_capacity_respected d c k i kind name st user p per_user system r d' :
  create_maintenance_with_capacity d c k i kind name st user p per_user system = Ok (r, d') →
  active_count d' kind (Some user) ≤ Z.max 1 per_user ∧ active_count d' kind None ≤ Z.max 1 system.
Proof.
  unfold create_maintenance_with_capacity. intros H. apply rbind_ok in H as (_ & _ & H).
  apply rbind_ok in H as (_ & H1%raise_if_ok & H). apply rbind_ok in H as (_ & H2%raise_if_ok & H).
  apply rbind_ok in H as (d1 & H3%insert_maintenance_jobs & H). injection H as <- <-.
  pose proof (active_count_insert d d1 _ kind (Some user) H3 eq_refl eq_refl).
  pose proof (active_count_insert d d1 _ kind None H3 eq_refl eq_refl). bprop. lia.
Qed.
