(* ===== verification/QueueWitness.v ===== *)
(** * Concrete runs of the queue

    A two-photo analysis job is created, started, claimed, half completed and
    recovered; the theorems of the queue are instantiated on these states. *)

From S2P Require Import Prelude PyStr PyFloat Json Sql Sha256 Store Reservations JobQueue JobQueueWf JobQueueInv QueueMachine QueueClaims QueueFencing QueueScan QueueLife.
Local Open Scope Z_scope.

Definition demo_photo (id : str) : photo :=
  mk_photo id (Some id) (u "active") (u "ready") true (u "ok") None None None (u "2024-01-01").

Definition demo_empty : db :=
  mk_db [] [] [] [] [demo_photo (u "p1"); demo_photo (u "p2")] [] [] [] [] true None None [] [] [].

Definition demo_render : json → str := λ _, [].
Definition no_hook : str → db → result job_exn db := λ _ d, Ok d.

Definition demo_args : create_args :=
  mk_create (u "analysis") (u "demo") (u "balanced") (JObj []) [u "p1"; u "p2"] (Some (u "admin")) None 3
    (Some (u "key-1")) (u "pending") None false (JObj []) (Some (u "fp")).

Definition at_second (n : Z) : clock := mk_clock (seconds n) (seconds n).

Definition o_create : op := OCreate (at_second 1) (u "j1") [u "i1"; u "i2"] no_hook demo_args.
Definition o_start : op := OTransition (at_second 2) (u "j1") [JPending] JRunning (u "started").
Definition o_claim : op := OClaim (at_second 3) (u "j1") (u "w1") 1 300.
Definition o_done : op := OComplete (at_second 4) (u "j1") (u "i1") [] f0 (Some (u "w1")).
Definition o_cancel : op := OCancel (at_second 5) (u "j1").

Definition demo_run (l : list op) : db := fold_left (exec demo_render) l demo_empty.
Definition d_created : db := demo_run [o_create].
Definition d_started : db := demo_run [o_create; o_start].
Definition d_claimed : db := demo_run [o_create; o_start; o_claim].
Definition d_cancelled : db := demo_run [o_create; o_start; o_claim; o_cancel].

Lemma not_terminal_pending s : s ∈ [JPending] → s ∉ TERMINAL_STATUSES.
Proof. intros ->%list_elem_of_singleton. by apply (bool_decide_eq_false_1 _). Qed.

Lemma no_hook_frames : ∀ (k : str) (d d' : db), no_hook k d = Ok d' → same_queue d d'.
Proof. intros k d d' [= <-]. done. Qed.

Lemma demo_ok d o : o ∈ [o_create; o_start; o_claim; o_done; o_cancel] → op_ok d o.
Proof.
  rewrite !elem_of_cons, elem_of_nil. intros [->|[->|[->|[->|[->|[]]]]]]; try exact I.
  - exact no_hook_frames.
  - exact not_terminal_pending.
Qed.

Lemma demo_reachable l :
  Forall (λ o, o ∈ [o_create; o_start; o_claim; o_done; o_cancel]) l → reachable demo_render (demo_run l).
Proof.
  intros Hl. unfold demo_run. assert (reachable demo_render demo_empty) as H by (by apply reach_init).
  revert H. generalize demo_empty. induction Hl as [|o l Ho _ IH]; intros d H; [done|]. simpl. apply IH.
  eapply reach_step; [exact H|]. by apply step_op, demo_ok.
Qed.

Ltac in_demo := repeat constructor; rewrite !elem_of_cons; tauto.

Lemma exec_all_wf l d :
  Forall (λ o, o ∈ [o_create; o_start; o_claim; o_done; o_cancel]) l → wf_db d →
  wf_db (fold_left (exec demo_render) l d).
Proof.
  intros Hl. revert d. induction Hl as [|o l Ho _ IH]; intros d Hd; [done|]. simpl. apply IH.
  by apply exec_wf; [apply demo_ok|].
Qed.

Lemma d_started_wf : wf_db d_started.
Proof. apply exec_all_wf; [in_demo|apply wf_empty]. Qed.
Lemma d_claimed_wf : wf_db d_claimed.
Proof. apply exec_all_wf; [in_demo|apply wf_empty]. Qed.

Lemma reachable_well_formed_witness : wf_db d_claimed ∧ length (items d_claimed) = 2%nat.
Proof. split; [|reflexivity]. apply (reachable_well_formed demo_render). apply demo_reachable. in_demo. Defined.

Definition d_failed : db := exec demo_render d_created (OAbandon (at_second 9) (u "j1") (u "X")).

Lemma finished_left_only_by_reopening_witness :
  reopens (ORetryFailed (at_second 10) (u "j1")) = true.
Proof.
  destruct (get d_failed (u "j1")) as [j|] eqn:E; [|vm_compute in E; discriminate].
  destruct (get (exec demo_render d_failed (ORetryFailed (at_second 10) (u "j1"))) (u "j1")) as [j'|] eqn:E';
    [|vm_compute in E'; discriminate].
  apply (finished_left_only_by_reopening demo_render d_failed _ (u "j1") j j'); [exact I|exact E|exact E'| |];
    vm_compute in E, E'; injection E as <-; injection E' as <-.
  - apply (bool_decide_eq_true_1 _). reflexivity.
  - discriminate.
Defined.

Lemma claim_spec_witness :
  ∃ rows d', claim d_started (at_second 3) (u "j1") (u "w1") 1 300 = Ok (rows, d') ∧
    length rows = 1%nat ∧ NoDup (map i_id rows).
Proof.
  destruct (claim d_started (at_second 3) (u "j1") (u "w1") 1 300) as [[rows d']|e] eqn:E;
    [|vm_compute in E; discriminate].
  exists rows, d'. split; [reflexivity|]. split.
  - vm_compute in E. injection E as <- _. reflexivity.
  - apply (claim_spec d_started (at_second 3) (u "j1") (u "w1") 1 300 rows d'); [exact d_started_wf|exact E].
Defined.

Lemma claims_disjoint_witness :
  ∃ rows1 d1 rows2 d2,
    claim d_started (at_second 3) (u "j1") (u "w1") 1 300 = Ok (rows1, d1) ∧
    claim d1 (at_second 3) (u "j1") (u "w2") 5 300 = Ok (rows2, d2) ∧
    map i_id rows1 = [u "i1"] ∧ map i_id rows2 = [u "i2"] ∧ u "i1" ∉ map i_id rows2.
Proof.
  destruct (claim d_started (at_second 3) (u "j1") (u "w1") 1 300) as [[rows1 d1]|e] eqn:E1;
    [|vm_compute in E1; discriminate].
  destruct (claim d1 (at_second 3) (u "j1") (u "w2") 5 300) as [[rows2 d2]|e] eqn:E2;
    [|vm_compute in E1; injection E1 as _ <-; vm_compute in E2; discriminate].
  exists rows1, d1, rows2, d2. split; [reflexivity|]. split; [exact E2|].
  assert (map i_id rows1 = [u "i1"]) as H1 by (vm_compute in E1; injection E1 as <- _; reflexivity).
  split; [exact H1|]. split.
  - vm_compute in E1. injection E1 as _ <-. vm_compute in E2. injection E2 as <- _. reflexivity.
  - eapply (claims_disjoint d_started _ _ _ _ _ _ _ _ _ _ rows1 rows2 d1 d2 d_started_wf E1 E2).
    rewrite H1. left.
Defined.

Lemma recover_stale_spec_witness :
  existsb (expired (seconds 1000)) (items d_claimed) = true ∧
  existsb (expired (seconds 1000)) (items (recover_stale d_claimed (at_second 1000)).2) = false.
Proof.
  split; [reflexivity|]. destruct (recover_stale d_claimed (at_second 1000)) as [n d'] eqn:E.
  exact (proj2 (recover_stale_spec d_claimed (at_second 1000) n d' d_claimed_wf E)).
Defined.

(** The lease of w1 runs out, and w2 takes the items over. *)
Definition d_recovered : db := (recover_stale d_claimed (at_second 1000)).2.
Definition o_takeover : op := OClaim (at_second 1001) (u "j1") (u "w2") 10 60.
Definition d_taken_over : db := exec demo_render d_recovered o_takeover.

Lemma expired_worker_is_fenced_witness :
  ∃ i, existsb (running_row i (u "j1") (Some (u "w2"))) (items d_taken_over) = true ∧
    complete_item demo_render d_taken_over (at_second 1002) (u "j1") i [] f0 (Some (u "w1")) = (false, d_taken_over) ∧
    defer_item d_taken_over (at_second 1002) i (Some (u "w1")) 0 true None = (false, d_taken_over).
Proof.
  destruct (find_where (expired (seconds 1000)) (items d_claimed)) as [it|] eqn:E;
    [|vm_compute in E; discriminate].
  assert (existsb (running_row (i_id it) (u "j1") (Some (u "w2"))) (items d_taken_over) = true) as Hrun.
  { vm_compute in E. injection E as <-. vm_compute. reflexivity. }
  apply find_where_Some in E as [Hi He]. exists (i_id it). split; [exact Hrun|].
  destruct (expired_worker_is_fenced demo_render d_claimed (at_second 1000)
    (recover_stale d_claimed (at_second 1000)).1 d_recovered d_taken_over it (u "w1") d_claimed_wf) as (H1 & _ & _ & H4).
  - apply surjective_pairing.
  - exact Hi.
  - exact He.
  - apply (apart_op _ _ _ _ o_takeover); [exact I| |apply apart_refl]. intros [Ew _]. discriminate Ew.
  - split; [apply H1|apply H4].
Defined.

(** Three jobs on pages of one; while the scan stands at the first, the second
    is cancelled. *)
Definition scan_job (id : str) (n : Z) : op :=
  OMaintenance (at_second n) id (id ++ u "-item") None (mk_maint (u "scan") id (JObj []) None None None None).
Definition d_three : db :=
  fold_left (exec demo_render)
    (scan_job (u "a") 1 :: scan_job (u "b") 2 :: scan_job (u "c") 3 ::
     map (λ k, OTransition (at_second 4) k [JPending] JRunning (u "started")) [u "a"; u "b"; u "c"]) demo_empty.
Definition d_two : db := exec demo_render d_three (OCancel (at_second 5) (u "b")).
Definition scan_pages : list db := [d_three; d_two; d_two; d_two].

Lemma iter_runnable_complete_witness :
  map j_id (iter_runnable (replicate 4 d_three) (seconds 6) 1).1 = [u "a"; u "b"; u "c"] ∧
  map j_id (iter_runnable scan_pages (seconds 6) 1).1 = [u "a"; u "c"] ∧
  ∃ j, j ∈ (iter_runnable scan_pages (seconds 6) 1).1 ∧ j_id j = u "c".
Proof.
  split; [vm_compute; reflexivity|]. split; [vm_compute; reflexivity|].
  destruct (get_row j_id (u "c") (jobs d_three)) as [c|] eqn:Ec; [|vm_compute in Ec; discriminate].
  destruct (iter_runnable_complete scan_pages (seconds 6) 1 (iter_runnable scan_pages (seconds 6) 1).1
    (iter_runnable scan_pages (seconds 6) 1).2) as (_ & _ & H & _).
  - repeat constructor; apply (bool_decide_unpack _); vm_compute; reflexivity.
  - apply surjective_pairing.
  - destruct (H ltac:(vm_compute; reflexivity) (run_key c)) as (j & Hj & Ej); [|exists j; split; [exact Hj|]].
    + assert (get_row j_id (u "c") (jobs d_two) = Some c) as Ec2 by (rewrite <- Ec; vm_compute; reflexivity).
      assert (∀ d, d ∈ scan_pages → d = d_three ∨ d = d_two) as Hd.
      { intros d Hd. unfold scan_pages in Hd. rewrite !elem_of_cons, elem_of_nil in Hd. tauto. }
      intros d [->| ->]%Hd; exists c; (split; [by eapply get_row_Some|split; [reflexivity|]]);
        vm_compute in Ec; injection Ec as <-; vm_compute; reflexivity.
    + injection Ej as _ _ Ej. rewrite Ej. vm_compute in Ec. injection Ec as <-. reflexivity.
Defined.

Lemma finalize_if_done_spec_witness :
  ∃ d', finalize_if_done d_claimed (at_second 6) (u "j1") None = (false, d').
Proof.
  destruct (finalize_if_done d_claimed (at_second 6) (u "j1") None) as [b d'] eqn:E. exists d'.
  destruct (finalize_if_done_spec d_claimed (at_second 6) (u "j1") None b d') as [Hb _]; [|exact E|].
  - intros g k s d1 d2 H. discriminate H.
  - destruct b; [|reflexivity]. exfalso. destruct (proj1 Hb eq_refl) as (j & _ & _ & Ht).
    destruct (find_where (has_istatus IRunning) (items d_claimed)) as [i|] eqn:Ei;
      [|vm_compute in Ei; discriminate].
    pose proof (find_where_Some _ _ _ Ei) as [Hi Hs]. specialize (Ht i Hi).
    assert (i_job i = u "j1") as Hj by (vm_compute in Ei; injection Ei as <-; reflexivity).
    specialize (Ht Hj). apply has_istatus_eq in Hs. exact (running_not_terminal i Hs Ht).
Defined.

Lemma fail_item_budget_witness :
  ∃ it, it ∈ items d_claimed ∧
    (fail_item d_claimed (at_second 7) (u "j1") (u "i1") (u "E") [] 3 None (Some (u "w1"))).1 = true.
Proof.
  destruct (find_where (running_row (u "i1") (u "j1") (Some (u "w1"))) (items d_claimed)) as [it|] eqn:E;
    [|vm_compute in E; discriminate].
  apply find_where_Some in E as [Hi Hr]. exists it. split; [exact Hi|].
  pose proof (fail_item_budget d_claimed (at_second 7) (u "j1") (u "i1") (u "E") [] 3 None
                (Some (u "w1")) it d_claimed_wf Hi Hr) as H.
  destruct (fail_item d_claimed (at_second 7) (u "j1") (u "i1") (u "E") [] 3 None (Some (u "w1"))) as [b d'].
  exact (proj1 H).
Defined.

Lemma create_idempotent_witness :
  ∃ d1 d2, create demo_empty (at_second 1) (u "j1") [u "i1"; u "i2"] no_hook demo_args = Ok (u "j1", d1) ∧
    create d1 (at_second 2) (u "j2") [u "i3"; u "i4"] no_hook demo_args = Ok (u "j1", d2) ∧
    map j_id (jobs d2) = map j_id (jobs d1).
Proof.
  destruct (create demo_empty (at_second 1) (u "j1") [u "i1"; u "i2"] no_hook demo_args) as [[r d1]|e] eqn:E;
    [|vm_compute in E; discriminate].
  assert (r = u "j1") as -> by (vm_compute in E; injection E as <- _; reflexivity).
  destruct (create_idempotent demo_empty (at_second 1) (at_second 2) (u "j1") (u "j2") [u "i1"; u "i2"]
    [u "i3"; u "i4"] no_hook no_hook demo_args demo_args (u "key-1") (u "j1") d1 no_hook_frames
    eq_refl eq_refl eq_refl eq_refl E) as (d2 & H & Hj & _).
  exists d1, d2. split; [reflexivity|]. split; [exact H|exact Hj].
Defined.

Lemma preview_capacity_respected_witness :
  ∃ d', create_maintenance_with_capacity demo_empty (at_second 1) (u "j1") (u "i1") (u "render_preview")
          (u "n") (JObj []) (u "user") 6 1 4 = Ok (u "j1", d') ∧
        active_count d' (u "render_preview") (Some (u "user")) ≤ 1.
Proof.
  destruct (create_maintenance_with_capacity demo_empty (at_second 1) (u "j1") (u "i1")
    (u "render_preview") (u "n") (JObj []) (u "user") 6 1 4) as [[r d']|e] eqn:E; [|vm_compute in E; discriminate].
  assert (r = u "j1") as -> by (vm_compute in E; injection E as <- _; reflexivity).
  exists d'. split; [reflexivity|].
  exact (proj1 (preview_capacity_respected demo_empty (at_second 1) (u "j1") (u "i1") (u "render_preview")
    (u "n") (JObj []) (u "user") 6 1 4 (u "j1") d' E)).
Defined.
