(* ===== verification/Selection.v ===== *)
(** * Photo selection

    Models the selectors of [JobRepository] in
    [inktime/app/repositories/jobs.py]: [iter_photo_ids],
    [selection_preview] and [iter_pending_photo_ids], which choose the photos
    an analysis job is created for.  The instant of the last scan, which the
    preview copies from another table, is its argument. *)

From Corelib Require Import SpecFloat.
From S2P Require Import Prelude PyStr PyFloat Json Sql Keyset Store Reservations JobQueue JobQueueWf QueueScan.
Local Open Scope Z_scope.

Definition lifecycle_is (s : string) (p : photo) : bool := str_eqb (p_lifecycle p) (u s).

(** ** [iter_photo_ids] *)

Definition has_status (statuses : list str) (p : photo) : bool :=
  lifecycle_is "active" p && str_in (p_status p) statuses.

Definition iter_photo_ids (d : db) (statuses : list str) (limit : option Z) : list str :=
  map p_id (key_scan p_id str_ltb (S (length (photos d)))
              (List.filter (has_status statuses) (photos d)) limit []).

(** ** The pending selection *)

Definition analyzed (d : db) (p : photo) : bool := existsb (λ a, str_eqb (fst a) (p_id p)) (analyses d).

(** [a.analysis_fingerprint IN (fingerprint, alternate)]; NULL is in no list. *)
Definition current (d : db) (fingerprint alternate : str) (p : photo) : bool :=
  existsb (λ a, str_eqb (fst a) (p_id p)
                && match snd a with Some f => str_in f [fingerprint; alternate] | None => false end) (analyses d).

Definition selected (d : db) (mode fingerprint alternate : str) (p : photo) : bool :=
  if str_eqb mode (u "force_all") then true
  else if str_eqb mode (u "stale_only") then negb (current d fingerprint alternate p) && analyzed d p
  else negb (current d fingerprint alternate p).

(** [COALESCE(p.screenshot_likelihood,0)]; SQLite stores NaN as NULL. *)
Definition real_or (x : option f64) (default_ : f64) : f64 :=
  match x with Some v => if is_nan v then default_ else v | None => default_ end.

Definition screenshot (p : photo) : bool := fleb (dec 95 100) (real_or (p_screenshot p) f0).

Definition usable (p : photo) : bool :=
  p_eligible p && str_eqb (p_local_features p) (u "complete")
  && fltb (real_or (p_screenshot p) f0) (dec 95 100).

Definition pending (d : db) (mode fingerprint alternate : str) (p : photo) : bool :=
  usable p && selected d mode fingerprint alternate p && negb (reserved_analysis d p).

(** [COALESCE(p.local_candidate_score,-1)] *)
Definition candidate_score (p : photo) : f64 := real_or (p_candidate_score p) (f64_of_Z (-1)).

Definition score_key (p : photo) : f64 * str := (candidate_score p, p_id p).

(** A row behind the cursor: a lower score, or the same score and a later id. *)
Definition behind (last k : f64 * str) : bool :=
  fltb (fst k) (fst last) || feqb (fst k) (fst last) && str_ltb (snd last) (snd k).

Definition pending_rows (d : db) (mode fingerprint alternate : str) : list photo :=
  List.filter (λ p, lifecycle_is "active" p && pending d mode fingerprint alternate p) (photos d).

Definition iter_pending_photo_ids (d : db) (analysis_fingerprint : option str) (mode : str)
    (limit : option Z) (alternate_fingerprint : option str) : list str :=
  let fingerprint := str_or analysis_fingerprint [] in
  let alternate := str_or alternate_fingerprint fingerprint in
  map p_id (key_scan score_key behind (S (length (photos d)))
              (pending_rows d mode fingerprint alternate) limit (S754_infinity false, [])).

Record preview := mk_preview {
  total_active : Z; excluded : option Z; never_analyzed : option Z; already_current : option Z;
  already_queued : option Z; pending_total : Z; screenshot_excluded : option Z; failed_before : Z; stale : Z; missing : Z;
  limited_to : Z; last_successful_scan_at : option str; selection_mode : str }.

(** A failed item of a job with this fingerprint. *)
Definition failed_for (d : db) (fingerprint : str) (p : photo) : bool :=
  existsb (λ i, bool_decide (i_photo i = Some (p_id p)) && has_istatus IFailed i
                && existsb (λ j, str_eqb (j_id j) (i_job i)
                                 && str_eqb (coalesce (j_analysis_fingerprint j)) fingerprint) (jobs d)) (items d).

(** [SUM(CASE WHEN p THEN 1 ELSE 0 END)]: NULL over no rows. *)
Definition sql_sum (p : photo → bool) (l : list photo) : option Z :=
  match l with [] => None | _ => Some (countb p l) end.

Definition selection_preview (d : db) (analysis_fingerprint : option str) (mode : str) (limit : option Z)
    (alternate_fingerprint : option str) (last_scan : option str) : preview :=
  let fingerprint := str_or analysis_fingerprint [] in
  let alternate := str_or alternate_fingerprint fingerprint in
  let active := List.filter (lifecycle_is "active") (photos d) in
  let total := countb (pending d mode fingerprint alternate) active in
  mk_preview (Z.of_nat (length active)) (sql_sum (λ p, negb (p_eligible p)) active)
    (sql_sum (λ p, negb (analyzed d p)) active) (sql_sum (current d fingerprint alternate) active)
    (sql_sum (reserved_analysis d) active) total (sql_sum screenshot active)
    (countb (λ p, negb (current d fingerprint alternate p) && failed_for d fingerprint p) active)
    (countb (λ p, analyzed d p && negb (current d fingerprint alternate p)) active)
    (countb (lifecycle_is "missing") (photos d))
    (match limit with Some n => Z.min total (Z.max 0 n) | None => total end) last_scan mode.

(** ** The cursor orders are total *)

Lemma candidate_score_real p : is_nan (candidate_score p) = false.
Proof. unfold candidate_score, real_or. destruct (p_candidate_score p) as [v|]; [by destruct (is_nan v) eqn:E|done]. Qed.

Lemma score_klt_spec a b :
  klt score_key behind a b = true ↔
  f_lt (candidate_score b) (candidate_score a)
  ∨ f_eq (candidate_score b) (candidate_score a) ∧ str_leb (p_id b) (p_id a) = false.
Proof.
  unfold klt, behind, score_key. cbn [fst snd].
  rewrite Bool.orb_true_iff, Bool.andb_true_iff, str_ltb_leb.
  by rewrite fltb_rank, feqb_rank by apply candidate_score_real.
Qed.

Lemma score_kle_spec a b :
  kle score_key behind a b = true ↔
  f_lt (candidate_score b) (candidate_score a)
  ∨ f_eq (candidate_score b) (candidate_score a) ∧ str_leb (p_id a) (p_id b) = true.
Proof.
  unfold kle. rewrite negb_true, <- not_true_iff_false, score_klt_spec. unfold f_lt, f_eq.
  destruct (str_leb (p_id a) (p_id b)); lia.
Qed.

Lemma score_irrefl a : klt score_key behind a a = false.
Proof. apply not_true_iff_false. rewrite score_klt_spec, str_leb_refl. unfold f_lt. lia. Qed.

Lemma score_total a b : kle score_key behind a b = true ∨ kle score_key behind b a = true.
Proof.
  rewrite !score_kle_spec. unfold f_lt, f_eq. destruct (str_leb_total (p_id a) (p_id b)) as [-> | ->]; lia.
Qed.

Lemma score_trans a b c :
  kle score_key behind a b = true → kle score_key behind b c = true → kle score_key behind a c = true.
Proof.
  rewrite !score_kle_spec. unfold f_lt, f_eq. pose proof (str_leb_trans (p_id a) (p_id b) (p_id c)) as Ht.
  intros H1 H2. destruct (str_leb (p_id a) (p_id c)) eqn:E; [lia|].
  destruct (str_leb (p_id a) (p_id b)), (str_leb (p_id b) (p_id c)); (by specialize (Ht eq_refl eq_refl)) || lia.
Qed.

Lemma score_strict a b :
  kle score_key behind a b = true → p_id a ≠ p_id b → klt score_key behind a b = true.
Proof.
  rewrite score_kle_spec, score_klt_spec. unfold f_lt, f_eq. intros H Hne.
  destruct (str_leb (p_id b) (p_id a)) eqn:E; [|lia].
  destruct (str_leb (p_id a) (p_id b)) eqn:E'; [|lia]. by rewrite (str_leb_antisym (p_id a) (p_id b)) in Hne.
Qed.

Lemma id_irrefl a : klt p_id str_ltb a a = false.
Proof. unfold klt, str_ltb. by rewrite str_leb_refl. Qed.

Lemma id_kle a b : kle p_id str_ltb a b = str_leb (p_id a) (p_id b).
Proof. unfold kle, klt, str_ltb. apply Bool.negb_involutive. Qed.

Lemma id_strict a b : kle p_id str_ltb a b = true → p_id a ≠ p_id b → klt p_id str_ltb a b = true.
Proof.
  rewrite id_kle. unfold klt. rewrite str_ltb_leb. intros H Hne. apply not_true_iff_false. intros H'.
  by rewrite (str_leb_antisym (p_id a) (p_id b)) in Hne.
Qed.

(** ** The selections *)

(** A non-empty identifier follows the empty one. *)
Lemma first_id i : i ≠ [] → str_ltb [] i = true.
Proof. by destruct i. Qed.

Definition ids_ok (d : db) : Prop := keys_unique p_id (photos d) ∧ Forall (λ p, p_id p ≠ []) (photos d).

Lemma ids_ok_elem d p : ids_ok d → p ∈ photos d → p_id p ≠ [].
Proof. intros [_ H]. rewrite Forall_forall in H. apply H. Qed.

(** [iter_photo_ids] yields the active photos in one of the statuses,
    once each in id order, up to the limit, whatever the pages. *)
Lemma iter_photo_ids_complete d statuses limit :
  ids_ok d →
  iter_photo_ids d statuses limit =
  map p_id (limited limit (sort_by (λ a b, str_leb (p_id a) (p_id b)) (List.filter (has_status statuses) (photos d)))).
Proof.
  intros Hok. unfold iter_photo_ids. f_equal.
  rewrite (key_scan_spec p_id p_id str_ltb id_irrefl).
  - f_equal. apply sort_by_ext. apply id_kle.
  - intros a b c. rewrite !id_kle. apply str_leb_trans.
  - intros a b. rewrite !id_kle. apply str_leb_total.
  - exact id_strict.
  - apply filter_unique, Hok.
  - intros x [Hx _]%filter_elem. by apply first_id, (ids_ok_elem d).
  - pose proof (List.filter_length_le (has_status statuses) (photos d)). lia.
Qed.

Lemma first_score d p : ids_ok d → p ∈ photos d → behind (S754_infinity false, []) (score_key p) = true.
Proof.
  intros Hok Hp. unfold behind, score_key. cbn [fst snd].
  rewrite (first_id (p_id p)) by by apply (ids_ok_elem d). rewrite Bool.andb_true_r.
  pose proof (candidate_score_real p). by destruct (candidate_score p) as [|[]| |[]].
Qed.

Lemma pending_scan d mode fp alt limit :
  ids_ok d →
  key_scan score_key behind (S (length (photos d))) (pending_rows d mode fp alt) limit (S754_infinity false, [])
  = limited limit (sort_by (kle score_key behind) (pending_rows d mode fp alt)).
Proof.
  intros Hok. apply (key_scan_spec p_id score_key behind score_irrefl score_trans score_total score_strict).
  - apply filter_unique, Hok.
  - intros x [Hx _]%filter_elem. by apply (first_score d).
  - unfold pending_rows. set (q := λ p, _). pose proof (List.filter_length_le q (photos d)). lia.
Qed.

Lemma limited_elem {A} limit (l : list A) x : x ∈ limited limit l → x ∈ l.
Proof. destruct limit; cbn; [intros (i & ? & _)%elem_of_take; by eapply list_elem_of_lookup_2|done]. Qed.

Lemma limited_length {A} limit (l : list A) :
  Z.of_nat (length (limited limit l)) =
  match limit with Some n => Z.min (Z.of_nat (length l)) (Z.max 0 n) | None => Z.of_nat (length l) end.
Proof. destruct limit; cbn [limited]; [rewrite length_take; lia|done]. Qed.

(** [iter_pending_photo_ids] yields exactly the pending photos (active,
    usable, wanted by the selection mode and reserved by no unfinished work),
    once each, best candidate score first and by id among equals, up to the
    limit; and a job created for them at that moment meets no reservation. *)
Theorem pending_selection_correct d fp mode limit alt :
  ids_ok d →
  let f := str_or fp [] in
  let ids := iter_pending_photo_ids d fp mode limit alt in
  ids = map p_id (limited limit (sort_by (kle score_key behind) (pending_rows d mode f (str_or alt f)))) ∧
  NoDup ids ∧ reservation_conflict d ids = false.
Proof.
  intros Hok f ids. assert (ids = map p_id (limited limit (sort_by (kle score_key behind)
    (pending_rows d mode f (str_or alt f))))) as E.
  { unfold ids, iter_pending_photo_ids. fold f. by rewrite (pending_scan d) by done. }
  split; [done|]. rewrite E. split.
  - assert (NoDup (map p_id (sort_by (kle score_key behind) (pending_rows d mode f (str_or alt f))))) as Hd.
    { rewrite sort_by_perm. apply filter_unique, Hok. }
    destruct limit as [n|]; cbn [limited]; [|done].
    rewrite <- (firstn_map p_id). eapply sublist_NoDup; [exact Hd|]. apply sublist_take.
  - unfold reservation_conflict. apply existsb_none. intros p Hp.
    apply Bool.andb_false_iff. destruct (str_in _ _) eqn:Ei; [right|by left].
    apply str_in_elem in Ei. rewrite list_elem_of_In, in_map_iff in Ei.
    destruct Ei as (p' & Eid & Hp'%list_elem_of_In). apply limited_elem in Hp'.
    rewrite sort_by_elem in Hp'. apply filter_elem in Hp' as [Hp' Hr].
    assert (p' = p) as -> by (eapply (keys_unique_inj p_id); [apply Hok|done..]).
    unfold pending in Hr. by destruct (lifecycle_is _ _), (usable p), (selected _ _ _ _ p), (reserved_analysis d p).
Qed.

(** The preview tells the truth: [pending_total] is the number of photos
    the selector yields without a limit, [limited_to] the number it yields
    with the limit, and no photo is counted outside [total_active]. *)
Theorem preview_counts_selection d fp mode limit alt scan :
  ids_ok d →
  let p := selection_preview d fp mode limit alt scan in
  pending_total p = Z.of_nat (length (iter_pending_photo_ids d fp mode None alt)) ∧
  limited_to p = Z.of_nat (length (iter_pending_photo_ids d fp mode limit alt)) ∧
  pending_total p ≤ total_active p.
Proof.
  intros Hok p.
  assert (∀ lim, Z.of_nat (length (iter_pending_photo_ids d fp mode lim alt)) =
    match lim with Some n => Z.min (pending_total p) (Z.max 0 n) | None => pending_total p end) as H.
  { intros lim. unfold iter_pending_photo_ids. cbv zeta. rewrite (pending_scan d) by done.
    rewrite length_map, limited_length, sort_by_length.
    assert (Z.of_nat (length (pending_rows d mode (str_or fp []) (str_or alt (str_or fp [])))) = pending_total p)
      as ->; [|done].
    subst p. unfold selection_preview. cbv zeta. cbn [pending_total]. rewrite countb_filter. done. }
  split; [by rewrite (H None)|]. split; [by rewrite (H limit); destruct limit|].
  subst p. unfold selection_preview. cbv zeta. cbn [pending_total total_active]. apply countb_le_length.
Qed.

(** ** Witnesses *)

Definition sel_photo (id : str) (score : Z) : photo :=
  mk_photo id (Some id) (u "active") (u "preprocessed") true (u "complete") None (Some (f64_of_Z score)) None
    (u "2024-01-01").

Definition sel_db : db :=
  mk_db [] [] [] [] [sel_photo (u "a") 10; sel_photo (u "b") 30; sel_photo (u "c") 20]
    [(u "c", Some (u "fp"))] [] [] [] false None None [] [] [].

Lemma sel_ids_ok : ids_ok sel_db.
Proof.
  split; [|repeat constructor; discriminate]. unfold keys_unique. vm_compute.
  repeat (constructor; [rewrite ?elem_of_cons, ?elem_of_nil; intuition congruence|]). constructor.
Qed.

Lemma pending_selection_correct_witness :
  iter_pending_photo_ids sel_db (Some (u "fp")) (u "pending") None None = [u "b"; u "a"] ∧
  NoDup (iter_pending_photo_ids sel_db (Some (u "fp")) (u "pending") None None).
Proof.
  split; [vm_compute; reflexivity|].
  apply (pending_selection_correct sel_db (Some (u "fp")) (u "pending") None None sel_ids_ok).
Defined.

Lemma preview_counts_selection_witness :
  pending_total (selection_preview sel_db (Some (u "fp")) (u "pending") (Some 1) None None) = 2.
Proof.
  destruct (preview_counts_selection sel_db (Some (u "fp")) (u "pending") (Some 1) None None sel_ids_ok) as [H _].
  rewrite H. vm_compute. reflexivity.
Defined.
