(* ===== verification/Idempotency.v ===== *)
(** * Idempotent requests

    Models the [idempotency_requests] operations of [JobRepository]
    ([inktime/app/repositories/jobs.py]): a request reserves its scope under
    a lease, freezes its snapshot, renews, and stores its response once.
    Instants are microseconds; the fresh reservation token is an argument;
    JSON columns hold the decoded value. *)

From S2P Require Import Prelude PyStr PyFloat Json Sql.
Local Open Scope Z_scope.

Inductive idem_status : Type := InProgress | Completed.

#[export] Instance idem_status_eq_dec : EqDecision idem_status.
Proof. solve_decision. Defined.

Record idem_row := mk_idem {
  q_scope : str; q_fingerprint : str; q_status : idem_status; q_snapshot : json;
  q_response : option json; q_token : option str; q_expires : option Z; q_created : Z; q_updated : Z }.

Definition idem_eta (r : idem_row) : idem_row :=
  mk_idem (q_scope r) (q_fingerprint r) (q_status r) (q_snapshot r) (q_response r) (q_token r)
    (q_expires r) (q_created r) (q_updated r).

#[export] Instance set_q_status : Settable q_status := ltac:(derive_setter idem_eta q_status).
#[export] Instance set_q_snapshot : Settable q_snapshot := ltac:(derive_setter idem_eta q_snapshot).
#[export] Instance set_q_response : Settable q_response := ltac:(derive_setter idem_eta q_response).
#[export] Instance set_q_token : Settable q_token := ltac:(derive_setter idem_eta q_token).
#[export] Instance set_q_expires : Settable q_expires := ltac:(derive_setter idem_eta q_expires).
#[export] Instance set_q_updated : Settable q_updated := ltac:(derive_setter idem_eta q_updated).

Inductive idem_exn : Type :=
| IdemConflict              (* ValueError("IDEMPOTENCY_CONFLICT") *)
| IdemLost                  (* ValueError("IDEMPOTENCY_RESERVATION_LOST") *)
| IdemMissing.              (* KeyError(scope_key) *)

Definition table : Type := list idem_row.
Definition row_of (s : table) (scope : str) : option idem_row := get_row q_scope scope s.
Definition in_progress (r : idem_row) : bool := bool_decide (q_status r = InProgress).

Definition lease_end (t seconds_ : Z) : Z := t + Z.max 1 seconds_ * 1000000.

Definition get_idempotent_request (s : table) (scope fp : str) : result idem_exn (option idem_row) :=
  match row_of s scope with
  | None => Ok None
  | Some r => raise_if (negb (str_eqb (q_fingerprint r) fp)) IdemConflict ;;; Ok (Some r)
  end.

(** [reservation_token IS NULL OR reservation_expires_at IS NULL OR reservation_expires_at<=now] *)
Definition lapsed (t : Z) (r : idem_row) : bool :=
  match q_token r, q_expires r with
  | Some _, Some e => e <=? t
  | _, _ => true
  end.

(** [reservation_token=? AND reservation_expires_at>?] *)
Definition holds (t : Z) (token : str) (r : idem_row) : bool :=
  bool_decide (q_token r = Some token) && match q_expires r with Some e => t <? e | None => false end.

(** The result row with its [reservation_owner] flag. *)
Definition reserve_idempotent_request (s : table) (t : Z) (token scope fp : str)
    (snapshot : option json) (lease : Z) : result idem_exn ((idem_row * bool) * table) :=
  let expires := lease_end t lease in
  match row_of s scope with
  | Some r =>
      raise_if (negb (str_eqb (q_fingerprint r) fp)) IdemConflict ;;;
      if negb (in_progress r) then Ok ((r, false), s)
      else
        let s' := update_where (λ r, by_key q_scope scope r && in_progress r && lapsed t r)
                    (λ r, r <| q_token := Some token |> <| q_expires := Some expires |>
                            <| q_updated := t |>) s in
        match row_of s' scope with
        | Some r' => Ok ((r', str_eqb (match q_token r' with Some k => k | None => [] end) token), s')
        | None => Raise IdemMissing
        end
  | None =>
      let r := mk_idem scope fp InProgress (match snapshot with Some j => j | None => JObj [] end) None
                 (Some token) (Some expires) t t in
      Ok ((r, true), s ++ [r])
  end.

Definition freeze_idempotent_request (s : table) (t : Z) (scope fp token : str) (snapshot : json)
    (lease : Z) : result idem_exn ((idem_row * bool) * table) :=
  match row_of s scope with
  | None => Raise IdemMissing
  | Some r =>
      raise_if (negb (str_eqb (q_fingerprint r) fp)) IdemConflict ;;;
      if negb (in_progress r) then Ok ((r, false), s)
      else
        let sel r := by_key q_scope scope r && in_progress r && holds t token r in
        let s' := update_where sel
                    (λ r, r <| q_snapshot := snapshot |> <| q_expires := Some (lease_end t lease) |>
                            <| q_updated := t |>) s in
        raise_if (negb (countb sel s =? 1)) IdemLost ;;;
        match row_of s' scope with
        | Some r' => Ok ((r', true), s')
        | None => Raise IdemMissing
        end
  end.

Definition renew_idempotent_request (s : table) (t : Z) (scope fp token : str) (lease : Z) : bool * table :=
  let sel r := by_key q_scope scope r && str_eqb (q_fingerprint r) fp && in_progress r && holds t token r in
  (countb sel s =? 1,
   update_where sel (λ r, r <| q_expires := Some (lease_end t lease) |> <| q_updated := t |>) s).

Definition complete_idempotent_request (s : table) (t : Z) (scope fp : str) (response : json)
  : result idem_exn (idem_row * table) :=
  match row_of s scope with
  | None => Raise IdemMissing
  | Some r =>
      raise_if (negb (str_eqb (q_fingerprint r) fp)) IdemConflict ;;;
      let s' := if in_progress r
                then update_where (λ r, by_key q_scope scope r && in_progress r)
                       (λ r, r <| q_status := Completed |> <| q_response := Some response |>
                               <| q_updated := t |>) s
                else s in
      match row_of s' scope with
      | Some r' => Ok (r', s')
      | None => Raise IdemMissing
      end
  end.

(** ** The operations as a machine *)

Inductive idem_op : Type :=
| IReserve (t : Z) (token scope fp : str) (snapshot : option json) (lease : Z)
| IFreeze (t : Z) (scope fp token : str) (snapshot : json) (lease : Z)
| IRenew (t : Z) (scope fp token : str) (lease : Z)
| IComplete (t : Z) (scope fp : str) (response : json).

Definition idem_exec (s : table) (o : idem_op) : table :=
  match o with
  | IReserve t token scope fp snap lease =>
      match reserve_idempotent_request s t token scope fp snap lease with Ok (_, s') => s' | Raise _ => s end
  | IFreeze t scope fp token snap lease =>
      match freeze_idempotent_request s t scope fp token snap lease with Ok (_, s') => s' | Raise _ => s end
  | IRenew t scope fp token lease => (renew_idempotent_request s t scope fp token lease).2
  | IComplete t scope fp resp =>
      match complete_idempotent_request s t scope fp resp with Ok (_, s') => s' | Raise _ => s end
  end.

Definition op_time (o : idem_op) : Z :=
  match o with IReserve t _ _ _ _ _ | IFreeze t _ _ _ _ _ | IRenew t _ _ _ _ | IComplete t _ _ _ => t end.

(** The token an operation acts under, if any. *)
Definition op_token (o : idem_op) : option str :=
  match o with IReserve _ k _ _ _ _ | IFreeze _ _ _ k _ _ | IRenew _ _ _ k _ => Some k | _ => None end.

(** ** One operation on one row *)

(** [P old new]: every row is still there, related by [P]. *)
Definition rows_keep (P : idem_row → idem_row → Prop) (s s' : table) : Prop :=
  ∀ k r, row_of s k = Some r → ∃ r', row_of s' k = Some r' ∧ P r r'.

Lemma rows_keep_refl (P : idem_row → idem_row → Prop) s : (∀ r, P r r) → rows_keep P s s.
Proof. intros HP k r H. by exists r. Qed.

Lemma rows_keep_update (P : idem_row → idem_row → Prop) s (sel : idem_row → bool) g :
  (∀ r, q_scope (g r) = q_scope r) → (∀ r, P r r) → (∀ r, sel r = true → P r (g r)) →
  rows_keep P s (update_where sel g s).
Proof.
  intros Hk Hr Hg k r H. unfold row_of in *. rewrite get_row_update, H by done. simpl. eexists.
  split; [done|]. destruct (sel r) eqn:E; auto.
Qed.

Lemma rows_keep_app (P : idem_row → idem_row → Prop) s r0 : (∀ r, P r r) → rows_keep P s (s ++ [r0]).
Proof. intros HP k r H. exists r. unfold row_of in *. by rewrite get_row_app_fresh, H. Qed.

(** What a step may do to a row: nothing, lease changes while in progress, or completion. *)
Definition lease_moved (t : Z) (tok : option str) (r r' : idem_row) : Prop :=
  q_status r = InProgress ∧ q_status r' = InProgress ∧ q_fingerprint r' = q_fingerprint r ∧
  (∃ e, q_expires r' = Some e ∧ t < e) ∧ is_Some tok ∧
  ((lapsed t r = true ∧ q_token r' = tok) ∨ (q_token r = tok ∧ q_token r' = tok)).

Definition row_step (o : idem_op) (r r' : idem_row) : Prop :=
  r' = r ∨ lease_moved (op_time o) (op_token o) r r' ∨ (q_status r = InProgress ∧ q_status r' = Completed).

Lemma lease_end_later t l : t < lease_end t l.
Proof. unfold lease_end. lia. Qed.

Lemma in_progress_eq r : in_progress r = true ↔ q_status r = InProgress.
Proof. unfold in_progress. by rewrite bool_decide_eq_true. Qed.

Lemma holds_token t tok r : holds t tok r = true → q_token r = Some tok.
Proof. unfold holds. rewrite andb_true_iff, bool_decide_eq_true. by intros [? _]. Qed.

Ltac keep_row := apply rows_keep_refl; intros ?; by left.

Lemma idem_exec_rows s o : rows_keep (row_step o) s (idem_exec s o).
Proof.
  destruct o as [t tok k fp snap l|t k fp tok snap l|t k fp tok l|t k fp resp]; cbn [idem_exec].
  - unfold reserve_idempotent_request. destruct (row_of s k) as [r0|] eqn:E.
    2:{ simpl. apply rows_keep_app. intros ?. by left. }
    destruct (negb (str_eqb _ _)); simpl; [keep_row|]. destruct (negb (in_progress r0)); [keep_row|].
    destruct (row_of (update_where _ _ _) k); [|keep_row].
    apply rows_keep_update; [done|by left|]. intros r H. rewrite !andb_true_iff, in_progress_eq in H.
    destruct H as [[_ Hp] Hl]. right. left. split_and!; try done.
    + eexists. split; [done|apply lease_end_later].
    + left. by split.
  - unfold freeze_idempotent_request. destruct (row_of s k) as [r0|] eqn:E; [|keep_row].
    destruct (negb (str_eqb _ _)); simpl; [keep_row|]. destruct (negb (in_progress r0)); [keep_row|].
    destruct (negb (countb _ _ =? 1)); simpl; [keep_row|]. destruct (row_of (update_where _ _ _) k); [|keep_row].
    apply rows_keep_update; [done|by left|]. intros r H. rewrite !andb_true_iff, in_progress_eq in H.
    destruct H as [[_ Hp] Hl%holds_token]. right. left. split_and!; try done.
    + eexists. split; [done|apply lease_end_later].
    + by right.
  - unfold renew_idempotent_request. cbn [snd].
    apply rows_keep_update; [done|by left|]. intros r H. rewrite !andb_true_iff, in_progress_eq in H.
    destruct H as [[_ Hp] Hl%holds_token]. right. left. split_and!; try done.
    + eexists. split; [done|apply lease_end_later].
    + by right.
  - unfold complete_idempotent_request. destruct (row_of s k) as [r0|] eqn:E; [|keep_row].
    destruct (negb (str_eqb _ _)); simpl; [keep_row|]. destruct (in_progress r0) eqn:Ep.
    + destruct (row_of (update_where _ _ _) k); [|keep_row].
      apply rows_keep_update; [done|by left|]. intros r H. rewrite andb_true_iff, in_progress_eq in H.
      right. right. split; [apply H|done].
    + rewrite E. keep_row.
Qed.

(** ** Theorems *)

(** A stored response is final: after a request has completed, no later
    sequence of operations changes its row, so every retry with the same
    fingerprint reads the same response and none becomes its owner. *)
Theorem completed_request_final s ops k r :
  row_of s k = Some r → q_status r = Completed →
  let s' := fold_left idem_exec ops s in
  row_of s' k = Some r ∧ get_idempotent_request s' k (q_fingerprint r) = Ok (Some r) ∧
  (∀ t tok snap l, reserve_idempotent_request s' t tok k (q_fingerprint r) snap l = Ok ((r, false), s')) ∧
  (∀ t resp, complete_idempotent_request s' t k (q_fingerprint r) resp = Ok (r, s')).
Proof.
  intros Hr Hc s'. assert (row_of s' k = Some r) as H.
  { subst s'. revert s Hr. induction ops as [|o ops IH]; intros s Hr; [done|]. simpl. apply IH.
    destruct (idem_exec_rows s o k r Hr) as (r' & Hr' & [->|[(Hp & _)|(Hp & _)]]); congruence. }
  split; [done|]. unfold get_idempotent_request, reserve_idempotent_request, complete_idempotent_request.
  assert (in_progress r = false) as Hp by (unfold in_progress; by rewrite Hc).
  rewrite H, str_eqb_refl. simpl. rewrite Hp. simpl. by rewrite H.
Qed.

Lemma live_not_lapsed t r tok e : q_token r = Some tok → q_expires r = Some e → t < e → lapsed t r = false.
Proof. unfold lapsed. intros -> -> ?. bprop. lia. Qed.

Definition kept_or_completed (s : table) (k : str) (r : idem_row) : Prop :=
  row_of s k = Some r ∨ ∃ r', row_of s k = Some r' ∧ q_status r' = Completed.

Lemma rival_step s o k r tok e :
  q_token r = Some tok → q_expires r = Some e → op_time o < e → op_token o ≠ Some tok →
  kept_or_completed s k r → kept_or_completed (idem_exec s o) k r.
Proof.
  intros Ht He Hlt Hne [Hr|(r1 & Hr & Hc)]; destruct (idem_exec_rows s o k _ Hr) as (r' & Hr' & Hs).
  - destruct Hs as [->|[(_ & _ & _ & _ & _ & Hm)|(_ & Hc)]]; [by left| |right; by exists r'].
    destruct Hm as [[Hl _]|[Hq _]]; [|congruence]. by rewrite (live_not_lapsed _ _ tok e) in Hl.
  - destruct Hs as [->|[(Hp & _)|(Hp & _)]]; [right; by exists r1|congruence|congruence].
Qed.

(** A run of operations that starts at the holder's instants and never lets
    his lease lapse, all under other tokens than his. *)
Definition rivals (tok : str) (e : Z) (ops : list idem_op) : Prop :=
  Forall (λ o, op_time o < e ∧ op_token o ≠ Some tok) ops.

(** A live reservation is exclusive: until its lease ends, whatever
    operations other callers attempt under other tokens, the row keeps its
    owner, its lease and its snapshot, unless the request completes; a
    rival's reservation is told that it does not own the request. *)
Theorem reservation_exclusive s ops k r tok e :
  row_of s k = Some r → q_token r = Some tok → q_expires r = Some e → rivals tok e ops →
  let s' := fold_left idem_exec ops s in
  (row_of s' k = Some r ∨ ∃ r', row_of s' k = Some r' ∧ q_status r' = Completed) ∧
  (∀ t tok' snap l r' b s'', t < e → tok' ≠ tok →
     reserve_idempotent_request s' t tok' k (q_fingerprint r) snap l = Ok ((r', b), s'') → b = false).
Proof.
  intros Hr Ht He Hops s'. assert (kept_or_completed s' k r) as H.
  { subst s'. assert (kept_or_completed s k r) as H by (by left). clear Hr. revert s H.
    induction Hops as [|o ops [Hlt Hne] _ IH]; intros s H; [done|]. simpl. apply IH. by eapply rival_step. }
  split; [done|]. intros t tok' snap l r' b s'' Hlt Hne Hres. unfold reserve_idempotent_request in Hres.
  destruct H as [H|(r1 & H & Hc)]; rewrite H in Hres; apply rbind_ok in Hres as (_ & _ & Hres).
  - case_in Hres; [by injection Hres|]. unfold row_of in Hres, H. rewrite get_row_update, H in Hres by done.
    simpl in Hres. rewrite (live_not_lapsed t r tok e), andb_false_r, Ht in Hres by done.
    injection Hres as _ <- _. apply str_eqb_neq. congruence.
  - unfold in_progress in Hres. rewrite Hc in Hres. by injection Hres.
Qed.

(** ** A run *)

Definition demo_ops : list idem_op :=
  [IReserve 0 (u "t1") (u "s") (u "fp") None 60; IComplete 5 (u "s") (u "fp") (JInt 7)].
Definition demo_rival : idem_op := IReserve 10 (u "t2") (u "s") (u "fp") None 60.
Definition demo_table : table := fold_left idem_exec demo_ops [].
Definition demo_open : table := fold_left idem_exec (take 1 demo_ops) [].

Lemma completed_request_final_witness :
  ∃ r, row_of demo_table (u "s") = Some r ∧ q_response r = Some (JInt 7) ∧
       row_of (idem_exec demo_table demo_rival) (u "s") = Some r.
Proof.
  destruct (row_of demo_table (u "s")) as [r|] eqn:E; [|vm_compute in E; discriminate].
  assert (q_status r = Completed ∧ q_response r = Some (JInt 7)) as [Hs Hq]
    by (vm_compute in E; injection E as <-; split; reflexivity).
  exists r. split; [reflexivity|]. split; [exact Hq|].
  exact (proj1 (completed_request_final demo_table [demo_rival] (u "s") r E Hs)).
Defined.

Lemma reservation_exclusive_witness :
  ∃ r, row_of demo_open (u "s") = Some r ∧
    ∀ r' b s', reserve_idempotent_request demo_open 10 (u "t2") (u "s") (q_fingerprint r) None 60
               = Ok ((r', b), s') → b = false.
Proof.
  destruct (row_of demo_open (u "s")) as [r|] eqn:E; [|vm_compute in E; discriminate].
  assert (q_token r = Some (u "t1") ∧ q_expires r = Some 60000000) as [Ht He]
    by (vm_compute in E; injection E as <-; split; reflexivity).
  exists r. split; [reflexivity|]. intros r' b s'.
  apply (reservation_exclusive demo_open [] (u "s") r (u "t1") 60000000 E Ht He); [constructor|lia|].
  by vm_compute.
Defined.
