(* ===== verification/Worker.v ===== *)
(** * The bounded job worker

    Models [BoundedJobWorker] of [inktime/app/workers/job_worker.py]: its
    clamped parameters, [_record_failure], and the thread loop of [run_job]
    driven by an oracle of what happened in each turn (which futures finished
    and how, whether a stop was requested, whether the drain deadline passed).
    Every repository call is its own transaction; [cs n] is the clock of the
    n-th one in a turn.  The progress, error and result callbacks only notify;
    they are left out, apart from the counters the worker keeps for them. *)

From S2P Require Import Prelude PyStr PyFloat Json Sql Sha256 FailurePolicy Store Reservations JobQueue JobQueueWf JobQueueInv QueueMachine QueueClaims.
Local Open Scope Z_scope.

(** ** Exceptions as the worker sees them *)

(** The [retry_after] attribute: a finite number of microseconds, an infinite
    or NaN float, or something [float()] rejects. *)
Inductive retry_hint : Type := RDelay (us : Z) | RNonFinite | RInvalid.

Record exc := mk_exc {
  x_failure : failure; x_message : str;
  x_ambiguous : option bool; x_vision_started : option bool; x_request_started : option bool;
  x_not_sent : bool; x_child_started : option bool;
  x_retry_after : option retry_hint; x_http_status : option Z; x_trace_status : option Z }.

Definition flag_set (f : option bool) : bool := bool_decide (f = Some true).
Definition flag_clear (f : option bool) : bool := bool_decide (f = Some false).

(** [providers/base.py]: only explicit boundary evidence releases paid work. *)
Definition request_definitely_not_sent (e : exc) : bool :=
  if flag_set (x_ambiguous e) || flag_set (x_vision_started e) || flag_set (x_request_started e) then false
  else if x_not_sent e then true
  else if flag_clear (x_child_started e) then true
  else flag_clear (x_ambiguous e) && flag_clear (x_vision_started e) && flag_clear (x_request_started e).

(** [min(86400, max(1, float(retry_after or 60)))] in microseconds. *)
Definition wait_delay (e : exc) : Z :=
  match x_retry_after e with
  | Some (RDelay us) => if us =? 0 then seconds 60 else Z.min (seconds 86400) (Z.max (seconds 1) us)
  | _ => seconds 60
  end.

(** [getattr(exc,"http_status",None) or getattr(call_trace,"http_status",None)] *)
Definition http_status (e : exc) : option Z :=
  match x_http_status e with
  | Some n => if n =? 0 then x_trace_status e else Some n
  | None => x_trace_status e
  end.

(** ** The worker *)

Record worker := mk_worker {
  w_id : str; w_concurrency : Z; w_queue_size : Z; w_max_attempts : Z; w_retry_interval : option Z;
  w_finalizer : option finalizer;
  w_failure_count : Z; w_schema_streak : Z; w_rejection_streak : Z; w_processed : Z }.

Definition worker_eta (w : worker) : worker :=
  mk_worker (w_id w) (w_concurrency w) (w_queue_size w) (w_max_attempts w) (w_retry_interval w)
    (w_finalizer w) (w_failure_count w) (w_schema_streak w) (w_rejection_streak w) (w_processed w).

#[export] Instance set_w_failure : Settable w_failure_count := ltac:(derive_setter worker_eta w_failure_count).
#[export] Instance set_w_schema : Settable w_schema_streak := ltac:(derive_setter worker_eta w_schema_streak).
#[export] Instance set_w_reject : Settable w_rejection_streak :=
  ltac:(derive_setter worker_eta w_rejection_streak).
#[export] Instance set_w_processed : Settable w_processed := ltac:(derive_setter worker_eta w_processed).

Definition MAX_CHILD_PROCESSES : Z := 4.

Definition new_worker (id : str) (concurrency queue_multiplier max_attempts : Z)
    (retry_interval : option Z) (f : option finalizer) (hard_timeout : bool) : worker :=
  let c := Z.max 1 concurrency in
  let c := if hard_timeout then Z.min c MAX_CHILD_PROCESSES else c in
  mk_worker id c (c * Z.max 1 queue_multiplier) (Z.max 1 max_attempts)
    (match retry_interval with Some r => Some (Z.max 1 r) | None => None end) f 0 0 0 0.

Definition waitable_codes : list str :=
  map u ["VLM-001"; "VLM-002"; "VLM-005"; "AI-PROVIDER-TIMEOUT"; "AI-PROVIDER-UNAVAILABLE"]%string.
Definition safety_codes : list str := map u ["CONFIG_INVALID"; "AUTH_REQUIRED"; "VLM-008"]%string.

(** [_record_failure] *)
Definition record_failure (w : worker) (d : db) (cs : nat → clock) (job_id item_id : str) (e : exc)
  : worker * db :=
  let code := failure_code (x_failure e) in
  if str_eqb code (u "API_CREDIT_EXHAUSTED") then
    let '(ok, d1) := defer_item d (cs 0%nat) item_id (Some (w_id w)) 0 false (Some code) in
    if ok then
      let d2 := (request_pause d1 (cs 1%nat) job_id).2 in
      (w, add_event d2 job_id (u "provider_credit_pause")
            (u "OpenAI 額度／支出上限已用盡，已暫停新增請求；請至 OpenAI Billing 核對後手動恢復")
            (JObj [(u "item_id", JStr item_id); (u "error_code", JStr code)]) (now (cs 2%nat)))
    else (w, d1)
  else if str_in code waitable_codes && request_definitely_not_sent e then
    let delay := wait_delay e in
    let '(ok, d1) := defer_item d (cs 0%nat) item_id (Some (w_id w)) delay true (Some code) in
    if ok then
      let d2 := settle d1 (transition d1 (cs 1%nat) job_id [JRunning] JRetrying (u "provider_wait")) in
      (w, add_event d2 job_id (u "provider_wait")
            (u "Provider 暫時不可用，保留照片排隊；未消耗分析重試次數")
            (JObj [(u "item_id", JStr item_id); (u "retry_after_seconds", JFloat (dec delay 1000000))]) (now (cs 2%nat)))
    else (w, d1)
  else
    let rejected := str_eqb code (u "CONFIG_INVALID") && bool_decide (http_status e = Some 400) in
    let w1 := w <| w_failure_count := w_failure_count w + 1 |>
                <| w_schema_streak := if str_eqb code (u "VLM-004") then w_schema_streak w + 1 else 0 |>
                <| w_rejection_streak := if rejected then w_rejection_streak w + 1 else 0 |> in
    if starts_with (u "BUDGET-") code then
      let '(ok, d1) := defer_item d (cs 0%nat) item_id (Some (w_id w)) 0 false None in
      if ok then
        (w1, settle d1 (transition d1 (cs 1%nat) job_id [JRunning; JRetrying] JBudgetExceeded
                          (u "budget_exceeded")))
      else (w1, d1)
    else
      let attempts := if bool_decide (classify_failure (x_failure e) = TERMINAL_NO_RETRY) then 1
                      else w_max_attempts w in
      let '(ok, d1) := fail_item d (cs 0%nat) job_id item_id code (x_message e) attempts
                         (w_retry_interval w) (Some (w_id w)) in
      if ok then
        let isolated :=
          rejected
          && match get d1 job_id with Some j => 0 <? j_completed_items j | None => false end
          && (w_rejection_streak w1 <? 3) in
        if (str_in code safety_codes && negb isolated) || (3 <=? w_schema_streak w1) then
          let d2 := (request_pause d1 (cs 1%nat) job_id).2 in
          (w1, add_event d2 job_id (u "provider_safety_pause")
                 (u "模型設定／認證不相容或連續格式錯誤，先暫停工作；其餘照片保留排隊，請檢查 AI Trace 與模型設定")
                 (JObj [(u "item_id", JStr item_id); (u "error_code", JStr code)]) (now (cs 2%nat)))
        else (w1, d1)
      else (w1, d1).

(** ** The thread loop of [run_job] *)

(** A future: the item it runs and whether the soft timeout was hit. *)
Record future := mk_future { f_item : str; f_timed_out : bool }.

Inductive outcome : Type :=
| Finished (r : list (str * json)) (cost : f64)
| Crashed (e : exc).

Section loop.
Context (render : json → str).

(** [consume] *)
Definition consume (w : worker) (d : db) (cs : nat → clock) (job_id : str) (f : future) (o : outcome)
  : worker * db :=
  let '(w1, d1) :=
    match o with
    | Crashed e => record_failure w d cs job_id (f_item f) e
    | Finished r cost =>
        let w1 := w <| w_schema_streak := 0 |> <| w_rejection_streak := 0 |> in
        if f_timed_out f
        then (w1, (record_late_completion d (cs 0%nat) job_id (f_item f) r cost (Some (w_id w))).2)
        else (w1, (complete_item render d (cs 0%nat) job_id (f_item f) r cost (Some (w_id w))).2)
    end in
  (w1 <| w_processed := w_processed w1 + 1 |>, d1).

(** What the world does during one turn of the loop. *)
Record turn := mk_turn {
  t_stop : bool;                       (* stop_event is set *)
  t_deadline : bool;                   (* the shutdown deadline has passed *)
  t_done : list (str * outcome);       (* futures that finished while waiting *)
  t_expired : list str;                (* futures past the soft timeout *)
  t_late_deadline : bool;              (* the deadline passed while waiting *)
  t_renew : bool;                      (* the renewal interval elapsed *)
  t_clock : nat → clock }.

Record loop_state := mk_loop {
  l_worker : worker; l_db : db; l_futures : list future;
  l_stop : bool; l_timeout_triggered : bool }.

Inductive verdict : Type :=
| Continue (s : loop_state)
| Break (s : loop_state)               (* leaves the while loop *)
| Escape (s : loop_state).             (* an exception leaves run_job *)

Definition dispatch_capacity (w : worker) : Z := Z.min (w_queue_size w) (w_concurrency w).

Definition stop_statuses : list job_status :=
  [JCancelled; JCompleted; JCompletedWithErrors; JFailed; JPaused; JBudgetExceeded].

Definition over_budget (j : job) : bool :=
  match j_budget_limit j with Some b => fltb f0 b && fleb b (j_spent j) | None => false end.

(** Consume the futures that finished, each under its own clocks. *)
Fixpoint consume_all (w : worker) (d : db) (cs : nat → clock) (job_id : str)
    (l : list (future * outcome)) : worker * db :=
  match l with
  | [] => (w, d)
  | (f, o) :: l' =>
      let '(w1, d1) := consume w d cs job_id f o in
      consume_all w1 d1 (λ n, cs (n + 4)%nat) job_id l'
  end.

Definition done_of (done : list (str * outcome)) (f : future) : option outcome :=
  assoc_get (f_item f) done.

Definition finished_futures (done : list (str * outcome)) (fs : list future) : list (future * outcome) :=
  omap (λ f, (λ o, (f, o)) <$> done_of done f) fs.
Definition waiting_futures (done : list (str * outcome)) (fs : list future) : list future :=
  List.filter (λ f, match done_of done f with Some _ => false | None => true end) fs.

Definition loop_turn (job_id : str) (s : loop_state) (i : turn) : verdict :=
  let w := l_worker s in
  let d := l_db s in
  let fs := l_futures s in
  let stop := l_stop s || t_stop i in
  let cs := t_clock i in
  if stop && bool_decide (length fs = 0%nat) then Break s
  else if t_deadline i then Break s
  else match get d job_id with
  | None => Break s
  | Some j =>
      if jstatus_in stop_statuses (j_status j) then Break s
      else if bool_decide (j_status j = JPausing) && bool_decide (length fs = 0%nat)
      then Break (mk_loop w (acknowledge_pause d (cs 0%nat) job_id).2 fs stop (l_timeout_triggered s))
      else if over_budget j
      then Break (mk_loop w (settle d (transition d (cs 0%nat) job_id [JRunning; JRetrying]
                                         JBudgetExceeded (u "budget_exceeded"))) fs stop
                    (l_timeout_triggered s))
      else
        match (if negb (l_timeout_triggered s) && negb stop && jstatus_in runnable (j_status j)
                  && (Z.of_nat (length fs) <? dispatch_capacity w)
               then claim d (cs 0%nat) job_id (w_id w) (dispatch_capacity w - Z.of_nat (length fs)) 300
               else Ok ([], d)) with
        | Raise _ => Escape (mk_loop w d fs stop (l_timeout_triggered s))
        | Ok (rows, d1) =>
            let fs1 := fs ++ map (λ r, mk_future (i_id r) false) rows in
            if bool_decide (length fs1 = 0%nat)
            then Break (mk_loop w (finalize_if_done d1 (cs 1%nat) job_id (w_finalizer w)).2 fs1 stop
                          (l_timeout_triggered s))
            else
              match finished_futures (t_done i) fs1 with
              | [] =>
                  if t_late_deadline i
                  then Break (mk_loop w d1 fs1 stop (l_timeout_triggered s))
                  else
                    let d2 := (renew_leases d1 (cs 1%nat) job_id (w_id w) 300).2 in
                    let fs2 := map (λ f, if str_in (f_item f) (t_expired i)
                                         then mk_future (f_item f) true else f) fs1 in
                    let hit := existsb (λ f, str_in (f_item f) (t_expired i)) fs1 in
                    Continue (mk_loop w d2 fs2 (stop || hit) (l_timeout_triggered s || hit))
              | done =>
                  let '(w2, d2) := consume_all w d1 (λ n, cs (n + 2)%nat) job_id done in
                  let d3 := if t_renew i
                            then (renew_leases d2 (cs 1%nat) job_id (w_id w) 300).2 else d2 in
                  Continue (mk_loop w2 d3 (waiting_futures (t_done i) fs1) stop (l_timeout_triggered s))
              end
        end
  end.

(** After the loop: drain what finished in time, fence the rest. *)
Definition shutdown_exc (cancelled : bool) : exc :=
  mk_exc (if cancelled then FExc None None false else JobShutdownAmbiguousError)
    (if cancelled then u "worker shutdown drain deadline exceeded"
     else u "worker shutdown reached a running item before it completed")
    None None None false None None None None.

Record drain := mk_drain {
  dr_done : list (str * outcome);      (* finished within the drain budget *)
  dr_cancelled : list str;             (* never started: Future.cancel() succeeded *)
  dr_clock : nat → clock }.

Definition drain_plan (i : drain) (fs : list future) : list (future * outcome) :=
  finished_futures (dr_done i) fs
  ++ map (λ f, (f, Crashed (shutdown_exc (str_in (f_item f) (dr_cancelled i)))))
       (waiting_futures (dr_done i) fs).

Definition drain_loop (job_id : str) (s : loop_state) (i : drain) : worker * db :=
  let cs := dr_clock i in
  let '(w1, d1) := consume_all (l_worker s) (l_db s) (λ n, cs (n + 2)%nat) job_id
                     (drain_plan i (l_futures s)) in
  let d2 := match get d1 job_id with
            | Some j => if bool_decide (j_status j = JPausing)
                        then (acknowledge_pause d1 (cs 0%nat) job_id).2 else d1
            | None => d1
            end in
  (w1, (finalize_if_done d2 (cs 1%nat) job_id (w_finalizer w1)).2).

(** The while loop over the turns the oracle provides: the state it ends in
    and whether it was left by an exception.  When the oracle is exhausted
    the loop is still running. *)
Fixpoint run_turns (job_id : str) (s : loop_state) (turns : list turn) : option verdict :=
  match turns with
  | [] => None
  | i :: turns' =>
      match loop_turn job_id s i with
      | Continue s' => run_turns job_id s' turns'
      | v => Some v
      end
  end.

Definition loop_start (w : worker) (d : db) : loop_state :=
  mk_loop (w <| w_schema_streak := 0 |> <| w_rejection_streak := 0 |>) d [] false false.

Definition run_job (w : worker) (d : db) (job_id : str) (turns : list turn) (dr : drain)
  : option (worker * db) :=
  match run_turns job_id (loop_start w d) turns with
  | Some (Break s) => Some (drain_loop job_id s dr)
  | Some (Escape s) => Some (l_worker s, l_db s)
  | Some (Continue s) => None
  | None => None
  end.
End loop.

(** ** Bounded futures *)

Lemma consume_w_id render w d cs k f o :
  dispatch_capacity (consume render w d cs k f o).1 = dispatch_capacity w ∧
  w_id (consume render w d cs k f o).1 = w_id w ∧ w_finalizer (consume render w d cs k f o).1 = w_finalizer w.
Proof.
  unfold consume. destruct o as [r cost|e]; [by destruct (f_timed_out f)|].
  unfold record_failure. repeat (case_goal; try (split; [reflexivity|split; reflexivity])).
Qed.
