(* ===== verification/WorkerInv.v ===== *)
(** * What the worker guarantees

    The number of futures is bounded by the dispatch capacity, and when the
    loop ends and its futures are drained, no item is left running under the
    worker's id. *)

From S2P Require Import Prelude PyStr PyFloat Json Sql Sha256 FailurePolicy Store Reservations JobQueue JobQueueWf JobQueueInv QueueMachine QueueClaims QueueFencing Worker.
Local Open Scope Z_scope.

(** ** Calm operations: nothing starts running *)

Definition calm (d d' : db) : Prop := wf_db d → wf_db d' ∧ running_sub (items d) (items d').

Lemma calm_refl d : calm d d.
Proof. intros Hw. split; [done|apply running_sub_refl]. Qed.

Lemma calm_trans d1 d2 d3 : calm d1 d2 → calm d2 d3 → calm d1 d3.
Proof.
  intros H1 H2 Hw. destruct (H1 Hw) as [Hw2 S1]. destruct (H2 Hw2) as [Hw3 S2].
  split; [done|by eapply running_sub_trans].
Qed.

Lemma calm_items d d' : (wf_db d → wf_db d') → items d' = items d → calm d d'.
Proof. intros Hw E ?. split; [auto|]. rewrite E. apply running_sub_refl. Qed.

Lemma same_queue_calm d d' : same_queue d d' → calm d d'.
Proof. intros Hq. apply calm_items; [|apply Hq]. intros Hw. by eapply wf_same_queue. Qed.

Lemma released_update w i its (sel : item → bool) f :
  item_frame f → (∀ it, i_status (f it) ≠ IRunning) →
  (∀ it, it ∈ its → i_id it = i → i_status it = IRunning → i_worker it = Some w → sel it = true) →
  released w i (update_where sel f its).
Proof.
  intros Hf Hs Hsel it (it0 & H0 & ->)%update_where_elem E Hr Ew.
  destruct (sel it0) eqn:E0; [by destruct (Hs it0)|]. by rewrite (Hsel it0) in E0.
Qed.

(** Which items a worker owns. *)
Definition owns_only (w k : str) (ids : list str) (its : list item) : Prop :=
  ∀ it, it ∈ its → i_status it = IRunning → i_worker it = Some w → i_job it = k ∧ i_id it ∈ ids.

Lemma owns_only_sub w k ids its its' : running_sub its its' → owns_only w k ids its → owns_only w k ids its'.
Proof.
  intros Hs Ho it Hit Hr Ew. destruct (Hs it Hit Hr) as (it0 & H0 & E1 & E2 & E3 & E4).
  rewrite <- E1, <- E2. apply Ho; congruence.
Qed.

Lemma running_row_owned w k i its it ids :
  owns_only w k ids its → it ∈ its → i_id it = i → i_status it = IRunning → i_worker it = Some w →
  running_row i k (Some w) it = true.
Proof.
  intros Ho Hit E Hr Ew. destruct (Ho it Hit Hr Ew) as [Hk _]. unfold running_row, owned_by.
  rewrite bool_decide_eq_true_2, andb_true_r by done. by bprop.
Qed.

(** ** The operations of the worker are calm, and release their item *)

Lemma request_pause_calm d c k : calm d (request_pause d c k).2.
Proof.
  apply calm_items; [intros; apply snd_wf; intros; by eapply request_pause_wf|].
  unfold request_pause. destruct (get d k); [|done]. by case_goal.
Qed.

Lemma acknowledge_pause_calm d c k : calm d (acknowledge_pause d c k).2.
Proof.
  apply calm_items; [intros; apply snd_wf; intros; by eapply acknowledge_pause_wf|].
  unfold acknowledge_pause. by case_goal.
Qed.

Lemma transition_calm d c k from s e : calm d (settle d (transition d c k from s e)).
Proof.
  apply calm_items; [intros; apply settle_wf; [done|]; intros; by eapply transition_wf|].
  destruct (transition d c k from s e) as [[b d']|] eqn:E; [|done]. unfold transition in E.
  apply rbind_ok in E as (d1 & [_ ->]%put_jobs_ok & E). by case_in E; injection E as <- <-.
Qed.

Lemma finalize_calm d c k f : frames_finalizer f → calm d (finalize_if_done d c k f).2.
Proof.
  intros Hf. apply calm_items; [intros; apply snd_wf; intros; by eapply finalize_if_done_wf|].
  unfold finalize_if_done. destruct (get d k); [|done]. case_goal; [done|]. case_goal; [done|].
  destruct (run_finalizer _ _ _ _ _) as [s d1] eqn:E. apply run_finalizer_spec in E as [[_ Ei] _]; [|done].
  by case_goal.
Qed.

Lemma defer_item_calm d c i w delay dp code :
  calm d (defer_item d c i (Some w) delay dp code).2 ∧
  released w i (items (defer_item d c i (Some w) delay dp code).2).
Proof.
  unfold defer_item.
  match goal with |- context [update_where ?s ?f (items d)] =>
    assert (running_sub (items d) (update_where s f (items d)) ∧
            released w i (update_where s f (items d))) as [Hs Hr];
      [|set (its := update_where s f (items d)) in *] end.
  { split; [apply leave_sub; [solve_frame|done]|]. apply released_update; [solve_frame|done|].
    intros it _ E Hr Ew. unfold owned_by. rewrite bool_decide_eq_true_2, andb_true_r by done. by bprop. }
  assert (running_sub its (match get_row i_id i its with
    | Some row => update_where (λ i, of_job (i_job row) i && has_istatus IPending i)
                    (λ i, i <| i_available_at := Z.max (i_available_at i) (now c + delay) |>
                            <| i_error_code := keep_code code (i_error_code i) |>) its
    | None => its end)) as Hd.
  { destruct (get_row i_id i its) as [row|]; [|apply running_sub_refl].
    apply running_sub_update; [solve_frame|]. intros it Hsel Hrun. bprop. destruct Hsel as [_ Hp].
    change (i_status it = IRunning) in Hrun. congruence. }
  pose proof (λ b d', defer_item_wf d c i (Some w) delay dp code b d') as Hwf. unfold defer_item in Hwf.
  fold its in Hwf. split.
  - intros Hw. split; [|].
    + case_goal; cbn [snd]; eapply Hwf; [reflexivity|done|reflexivity|done].
    + case_goal; cbn [snd]; [|done]. change (items (_ <| items := ?x |>)) with x.
      destruct dp; [by eapply running_sub_trans|done].
  - case_goal; cbn [snd]; [|done]. change (items (_ <| items := ?x |>)) with x.
    destruct dp; [by eapply released_sub|done].
Qed.

Lemma fail_item_items d c k i code m max ri w it :
  find_where (running_row i k w) (items d) = Some it →
  ∃ f, item_frame f ∧ (∀ it, i_status (f it) ≠ IRunning) ∧
    items (fail_item d c k i code m max ri w).2 = update_where (item_by_id i) f (items d).
Proof.
  intros E. unfold fail_item. rewrite E. cbn [snd].
  match goal with |- context [upsert_error ?x k i ?p code m ?t] =>
    destruct (upsert_error_queue x k i p code m t) as [_ Ei] end.
  rewrite Ei. case_goal; eexists; (split; [|split; [|reflexivity]]); [solve_frame|done|solve_frame|done].
Qed.

Lemma fail_item_calm d c k i code m max ri w ids :
  calm d (fail_item d c k i code m max ri (Some w)).2 ∧
  (owns_only w k ids (items d) → released w i (items (fail_item d c k i code m max ri (Some w)).2)).
Proof.
  destruct (find_where (running_row i k (Some w)) (items d)) as [it|] eqn:E.
  - destruct (fail_item_items d c k i code m max ri _ it E) as (f & Hf & Hs & Eu). split.
    + intros Hw. split; [apply snd_wf; intros; by eapply fail_item_wf|]. rewrite Eu. by apply leave_sub.
    + intros _. rewrite Eu. apply released_update; [done|done|]. intros it0 _ E0 _ _. by bprop.
  - unfold fail_item. rewrite E. split; [apply calm_refl|]. intros Ho it Hit Ei Hr Ew.
    eapply find_where_None in E; [|exact Hit]. by rewrite (running_row_owned w k i (items d) it ids) in E.
Qed.

Lemma complete_item_calm render d c k i r cost w ids :
  calm d (complete_item render d c k i r cost (Some w)).2 ∧
  (owns_only w k ids (items d) → released w i (items (complete_item render d c k i r cost (Some w)).2)).
Proof.
  assert (wf_db d → wf_db (complete_item render d c k i r cost (Some w)).2) as Hwf
    by (intros; apply snd_wf; intros; by eapply complete_item_wf).
  assert (∃ f, item_frame f ∧ (∀ it, i_status (f it) ≠ IRunning) ∧
    items (complete_item render d c k i r cost (Some w)).2
    = update_where (running_row i k (Some w)) f (items d)) as (f & Hf & Hs & E).
  { unfold complete_item. destruct (get d k) as [j|]; [case_goal; [|case_goal]|];
      eexists; (split; [|split; [|reflexivity]]); try solve_frame; done. }
  split.
  - intros Hw. split; [by apply Hwf|]. rewrite E. by apply leave_sub.
  - intros Ho. rewrite E. apply released_update; [done|done|]. intros. by eapply running_row_owned.
Qed.

Lemma late_completion_calm d c k i r cost w ids :
  calm d (record_late_completion d c k i r cost (Some w)).2 ∧
  (owns_only w k ids (items d) → released w i (items (record_late_completion d c k i r cost (Some w)).2)).
Proof.
  assert (wf_db d → wf_db (record_late_completion d c k i r cost (Some w)).2) as Hwf
    by (intros; apply snd_wf; intros; by eapply record_late_completion_wf).
  assert (items (record_late_completion d c k i r cost (Some w)).2
    = update_where (running_row i k (Some w)) (late_row r (now c)) (items d)) as E
    by (unfold record_late_completion; by case_goal).
  split.
  - intros Hw. split; [by apply Hwf|]. rewrite E. apply leave_sub; [solve_frame|done].
  - intros Ho. rewrite E. apply released_update; [solve_frame|done|]. intros. by eapply running_row_owned.
Qed.

(** A transaction that is calm and releases item [i] of worker [w]. *)
Definition hands_back (w k i : str) (d d' : db) : Prop :=
  calm d d' ∧ ∀ ids, owns_only w k ids (items d) → wf_db d → released w i (items d').

Lemma hands_back_then w k i d d' d'' : hands_back w k i d d' → calm d' d'' → hands_back w k i d d''.
Proof.
  intros [Hc Hr] Hc'. split; [by eapply calm_trans|]. intros ids Ho Hw.
  destruct (Hc Hw) as [Hw' _]. destruct (Hc' Hw') as [_ Hs]. eapply released_sub; [exact Hs|by eapply Hr].
Qed.

Lemma hands_back_event w k i d d' j e m x t :
  hands_back w k i d d' → hands_back w k i d (add_event d' j e m x t).
Proof. intros H. eapply hands_back_then; [exact H|]. by apply same_queue_calm. Qed.

Lemma defer_hands_back w k i d c delay dp code b d' :
  defer_item d c i (Some w) delay dp code = (b, d') → hands_back w k i d d'.
Proof.
  intros E. pose proof (defer_item_calm d c i w delay dp code) as [Hc Hr]. rewrite E in Hc, Hr. by split.
Qed.

Lemma fail_hands_back w k i d c code m max ri b d' :
  fail_item d c k i code m max ri (Some w) = (b, d') → hands_back w k i d d'.
Proof.
  intros E. split; [|intros ids Ho _]; destruct (fail_item_calm d c k i code m max ri w []) as [Hc _];
    rewrite E in Hc; [done|]. destruct (fail_item_calm d c k i code m max ri w ids) as [_ Hr].
  rewrite E in Hr. by apply Hr.
Qed.

Lemma record_failure_hands_back w d cs k i e : hands_back (w_id w) k i d (record_failure w d cs k i e).2.
Proof.
  unfold record_failure. case_goal.
  { destruct (defer_item _ _ _ _ _ _ _) as [ok d1] eqn:E. apply (defer_hands_back _ k) in E.
    destruct ok; [|done]. apply hands_back_event. eapply hands_back_then; [done|apply request_pause_calm]. }
  case_goal.
  { destruct (defer_item _ _ _ _ _ _ _) as [ok d1] eqn:E. apply (defer_hands_back _ k) in E.
    destruct ok; [|done]. apply hands_back_event. eapply hands_back_then; [done|apply transition_calm]. }
  case_goal.
  { destruct (defer_item _ _ _ _ _ _ _) as [ok d1] eqn:E. apply (defer_hands_back _ k) in E.
    destruct ok; [|done]. eapply hands_back_then; [done|apply transition_calm]. }
  destruct (fail_item _ _ _ _ _ _ _ _ _) as [ok d1] eqn:E. apply fail_hands_back in E.
  destruct ok; [|done]. match goal with |- context [if ?b then _ else (_, d1)] => destruct b; [|done] end.
  apply hands_back_event.
  eapply hands_back_then; [done|apply request_pause_calm].
Qed.

Lemma consume_hands_back render w d cs k f o :
  hands_back (w_id w) k (f_item f) d (consume render w d cs k f o).2.
Proof.
  unfold consume. destruct o as [r cost|e].
  - destruct (f_timed_out f); (split; [|intros ids Ho _]).
    + exact (proj1 (late_completion_calm d (cs 0%nat) k (f_item f) r cost (w_id w) [])).
    + exact (proj2 (late_completion_calm d (cs 0%nat) k (f_item f) r cost (w_id w) ids) Ho).
    + exact (proj1 (complete_item_calm render d (cs 0%nat) k (f_item f) r cost (w_id w) [])).
    + exact (proj2 (complete_item_calm render d (cs 0%nat) k (f_item f) r cost (w_id w) ids) Ho).
  - pose proof (record_failure_hands_back w d cs k (f_item f) e) as H.
    destruct (record_failure w d cs k (f_item f) e). exact H.
Qed.

(** ** Consuming a list of futures *)

Lemma consume_all_spec render w d cs k l ids w' d' :
  consume_all render w d cs k l = (w', d') → wf_db d → owns_only (w_id w) k ids (items d) →
  (wf_db d' ∧ running_sub (items d) (items d')) ∧
  (∀ f o, (f, o) ∈ l → released (w_id w) (f_item f) (items d')) ∧
  dispatch_capacity w' = dispatch_capacity w ∧ w_id w' = w_id w ∧ w_finalizer w' = w_finalizer w.
Proof.
  revert w d cs w' d'. induction l as [|[f o] l IH]; intros w d cs w' d' E Hw Ho; simpl in E.
  { injection E as <- <-. split; [split; [done|apply running_sub_refl]|]. split; [|done].
    by intros ? ? ?%not_elem_of_nil. }
  pose proof (consume_hands_back render w d cs k f o) as [Hc Hr].
  pose proof (consume_w_id render w d cs k f o) as (C1 & C2 & C3).
  destruct (consume render w d cs k f o) as [w1 d1]. simpl in *.
  destruct (Hc Hw) as [Hw1 S1]. pose proof (Hr ids Ho Hw) as R1.
  assert (owns_only (w_id w1) k ids (items d1)) as Ho1 by (rewrite C2; by eapply owns_only_sub).
  destruct (IH w1 d1 _ w' d' E Hw1 Ho1) as ([Hw' S'] & R' & D1 & D2 & D3).
  rewrite C2 in R'. split; [split; [done|by eapply running_sub_trans]|]. split; [|split_and!; congruence].
  intros f' o' [[= -> ->]|Hin]%elem_of_cons; [by eapply released_sub|by eapply R'].
Qed.

Lemma split_futures done fs f :
  f ∈ fs → f ∈ waiting_futures done fs ∨ ∃ o, (f, o) ∈ finished_futures done fs.
Proof.
  intros Hf. unfold waiting_futures, finished_futures. destruct (done_of done f) as [o|] eqn:E.
  - right. exists o. apply list_elem_of_omap. exists f. by rewrite E.
  - left. apply filter_elem. by rewrite E.
Qed.

(** Released items drop out of what the worker owns. *)
Lemma owns_only_less w k fs fs' its :
  owns_only w k (map f_item fs) its →
  (∀ f, f ∈ fs → f ∈ fs' ∨ released w (f_item f) its) → owns_only w k (map f_item fs') its.
Proof.
  intros Ho Hf it Hit Hr Ew. destruct (Ho it Hit Hr Ew) as [Hk (f & E & Hin)%list_elem_of_fmap].
  split; [done|]. destruct (Hf f Hin) as [H|H]; [rewrite E; by apply (list_elem_of_fmap_2 f_item)|].
  exfalso. by apply (H it Hit E Hr).
Qed.

(** ** The loop invariant *)

Record loop_ok (w0 k : str) (cap : Z) (s : loop_state) : Prop := mk_ok {
  ok_wf : wf_db (l_db s);
  ok_id : w_id (l_worker s) = w0;
  ok_cap : dispatch_capacity (l_worker s) = cap;
  ok_fin : frames_finalizer (w_finalizer (l_worker s));
  ok_bound : Z.of_nat (length (l_futures s)) ≤ Z.max 0 cap;
  ok_owns : owns_only w0 k (map f_item (l_futures s)) (items (l_db s)) }.

(** A claim adds its rows to the futures, and the worker owns no more. *)
Lemma claim_owns d c k w limit lease rows d' fs :
  wf_db d → claim d c k w limit lease = Ok (rows, d') → owns_only w k (map f_item fs) (items d) →
  owns_only w k (map f_item (fs ++ map (λ r, mk_future (i_id r) false) rows)) (items d').
Proof.
  intros Hw Hc Ho. rewrite map_app, map_map. simpl. change (map (λ x, i_id x) rows) with (map i_id rows).
  apply claim_inv in Hc as [[-> ->]|(j & oa & bf & _ & _ & -> & ->)]; [by rewrite app_nil_r|].
  rewrite claim_result by apply Hw. rewrite map_map. cbn [i_id claim_row set_with].
  intros it (it0 & Hit0 & ->)%update_where_elem. destruct (str_in _ _) eqn:E.
  - intros _ _. apply claim_hit in E; [|apply Hw|done]. split; [by apply claim_rows_elem in E as (_ & ? & _)|].
    apply elem_of_app. right. by apply (list_elem_of_fmap_2 (λ x, i_id (claim_row w (now c) (later c + seconds lease) x))).
  - intros Hr Ew. destruct (Ho it0 Hit0 Hr Ew) as [Hk Hi]. split; [done|]. apply elem_of_app. by left.
Qed.

Lemma renew_sub d c k w lease : running_sub (items d) (items (renew_leases d c k w lease).2).
Proof.
  unfold renew_leases. apply running_sub_update; [solve_frame|]. intros i Hi Hr. by split.
Qed.

(** The claim of a turn, when there is one. *)
Lemma turn_claim s k cap (b : bool) c rows d1 :
  loop_ok (w_id (l_worker s)) k cap s →
  (if b && (Z.of_nat (length (l_futures s)) <? dispatch_capacity (l_worker s))
   then claim (l_db s) c k (w_id (l_worker s))
          (dispatch_capacity (l_worker s) - Z.of_nat (length (l_futures s))) 300
   else Ok ([], l_db s)) = Ok (rows, d1) →
  let fs1 := l_futures s ++ map (λ r, mk_future (i_id r) false) rows in
  wf_db d1 ∧ Z.of_nat (length fs1) ≤ Z.max 0 cap ∧
  owns_only (w_id (l_worker s)) k (map f_item fs1) (items d1).
Proof.
  intros [Hw Hid Hcap Hf Hb Ho] E fs1. destruct (b && _) eqn:Eb.
  - apply andb_true_iff in Eb as [_ Eb]. bprop. split; [by eapply claim_wf|].
    split; [|by eapply claim_owns]. unfold fs1. rewrite length_app, length_map.
    assert (Z.of_nat (length rows) ≤ dispatch_capacity (l_worker s) - Z.of_nat (length (l_futures s))); [|lia].
    apply claim_inv in E as [[-> _]|(j & oa & bf & _ & _ & _ & ->)]; [simpl; lia|].
    rewrite claim_result by apply Hw. rewrite length_map. apply claim_rows_length. lia.
  - injection E as <- <-. unfold fs1. simpl. by rewrite app_nil_r.
Qed.

Lemma map_mark fs (p : str → bool) :
  map f_item (map (λ f, if p (f_item f) then mk_future (f_item f) true else f) fs) = map f_item fs.
Proof. rewrite map_map. apply map_ext. intros f. by destruct (p (f_item f)). Qed.

Lemma waiting_length done fs : (length (waiting_futures done fs) ≤ length fs)%nat.
Proof. apply List.filter_length_le. Qed.

Definition verdict_state (v : verdict) : loop_state :=
  match v with Continue s | Break s | Escape s => s end.

(** A calm change of the database keeps the invariant. *)
Lemma loop_ok_calm w0 k cap w d d' fs st tt' st' tt'' :
  loop_ok w0 k cap (mk_loop w d fs st tt') → calm d d' → loop_ok w0 k cap (mk_loop w d' fs st' tt'').
Proof.
  intros [Hw Hid Hcap Hf Hb Ho] Hc. destruct (Hc Hw) as [Hw' Hs]. split; try done. by eapply owns_only_sub.
Qed.

Lemma renew_calm d c k w lease : calm d (renew_leases d c k w lease).2.
Proof.
  intros Hw. split; [|apply renew_sub]. apply snd_wf. intros. by eapply renew_leases_wf.
Qed.

Lemma loop_turn_ok render k cap s i :
  loop_ok (w_id (l_worker s)) k cap s →
  loop_ok (w_id (l_worker s)) k cap (verdict_state (loop_turn render k s i)).
Proof.
  intros Hok. destruct s as [w d fs st tmo]. unfold loop_turn. cbn [l_worker l_db l_futures l_stop l_timeout_triggered] in *.
  case_goal; [done|]. case_goal; [done|]. destruct (get d k) as [j|]; [|done].
  case_goal; [done|]. case_goal; [by eapply loop_ok_calm; [|apply acknowledge_pause_calm]|].
  case_goal; [by eapply loop_ok_calm; [|apply transition_calm]|].
  match goal with |- context [match ?x with Ok _ => _ | Raise _ => _ end] => destruct x as [[rows d1]|] eqn:Ec end;
    [|by eapply loop_ok_calm; [|apply calm_refl]].
  pose proof (turn_claim (mk_loop w d fs st tmo) k cap _ _ rows d1 Hok Ec) as (Hw1 & Hb1 & Ho1).
  cbn [l_worker l_db l_futures] in *. set (fs1 := fs ++ map (λ r, mk_future (i_id r) false) rows) in *.
  assert (∀ st' tt', loop_ok (w_id w) k cap (mk_loop w d1 fs1 st' tt')) as Hok1.
  { intros. destruct Hok. by split. }
  case_goal; [eapply loop_ok_calm; [exact (Hok1 st tmo)|apply finalize_calm, Hok]|].
  destruct (finished_futures (t_done i) fs1) as [|x done] eqn:Ef.
  - case_goal; [by apply Hok1|]. cbn [verdict_state].
    pose proof (loop_ok_calm _ _ _ _ _ _ _ st tmo st tmo (Hok1 st tmo) (renew_calm d1 (t_clock i 1%nat) k (w_id w) 300))
      as [A B C D E F]. cbn [l_worker l_db l_futures] in *. split; cbn [l_worker l_db l_futures]; try done.
    + by rewrite length_map.
    + by rewrite (map_mark fs1 (λ x, str_in x (t_expired i))).
  - rewrite <- Ef. destruct (consume_all _ _ _ _ _ _) as [w2 d2] eqn:Eall.
    destruct (consume_all_spec _ _ _ _ _ _ _ _ _ Eall Hw1 Ho1) as ([Hw2 S2] & R2 & D1 & D2 & D3).
    assert (loop_ok (w_id w) k cap (mk_loop w2 d2 (waiting_futures (t_done i) fs1) st tmo)) as Hok2.
    { destruct Hok as [_ _ Hcap Hfin _ _]. cbn in Hcap, Hfin. split; cbn [l_worker l_db l_futures].
      - done.
      - done.
      - congruence.
      - by rewrite D3.
      - pose proof (waiting_length (t_done i) fs1). lia.
      - eapply owns_only_less; [by eapply owns_only_sub|]. intros f Hf.
        destruct (split_futures (t_done i) fs1 f Hf) as [H|[o H]]; [by left|right; by eapply R2]. }
    cbn [verdict_state]. case_goal; [by eapply loop_ok_calm; [exact Hok2|apply renew_calm]|].
    by eapply loop_ok_calm; [exact Hok2|apply calm_refl].
Qed.

Lemma run_turns_ok render k cap s turns v :
  loop_ok (w_id (l_worker s)) k cap s → run_turns render k s turns = Some v →
  loop_ok (w_id (l_worker s)) k cap (verdict_state v).
Proof.
  revert s. induction turns as [|i turns IH]; intros s Hok H; [done|]. simpl in H.
  pose proof (loop_turn_ok render k cap s i Hok) as H1.
  destruct (loop_turn render k s i) as [s'|s'|s']; simpl in H1; [|by injection H as <-..].
  pose proof (ok_id _ _ _ _ H1) as E. rewrite <- E in H1 |- *. by apply IH.
Qed.

(** Draining hands back every future that is left. *)
Lemma drain_releases render k cap s i :
  loop_ok (w_id (l_worker s)) k cap s →
  wf_db (drain_loop render k s i).2 ∧ owns_only (w_id (l_worker s)) k [] (items (drain_loop render k s i).2).
Proof.
  intros [Hw Hid Hcap Hf Hb Ho]. unfold drain_loop.
  destruct (consume_all _ _ _ _ _ _) as [w1 d1] eqn:E.
  destruct (consume_all_spec _ _ _ _ _ _ _ _ _ E Hw Ho) as ([Hw1 S1] & R1 & D1 & D2 & D3).
  assert (owns_only (w_id (l_worker s)) k [] (items d1)) as Ho1.
  { apply (owns_only_less _ _ (l_futures s) []); [by eapply owns_only_sub|]. intros f Hin. right.
    destruct (split_futures (dr_done i) (l_futures s) f Hin) as [H|[o H]].
    - eapply R1, elem_of_app. right. apply list_elem_of_fmap. exists f. by split.
    - eapply R1, elem_of_app. by left. }
  match goal with |- context [finalize_if_done ?x _ _ _] => set (d2 := x) end.
  assert (calm d1 d2) as C2.
  { unfold d2. destruct (get d1 k); [|apply calm_refl]. case_goal; [apply acknowledge_pause_calm|apply calm_refl]. }
  cbn [snd]. assert (calm d1 (finalize_if_done d2 (dr_clock i 1%nat) k (w_finalizer w1)).2) as C3.
  { apply (calm_trans d1 d2); [done|apply finalize_calm; by rewrite D3]. }
  destruct (C3 Hw1) as [Hw3 S3]. split; [done|]. by eapply owns_only_sub.
Qed.

(** A worker that owns nothing yet, at the start of [run_job]. *)
Lemma start_ok w d k :
  wf_db d → frames_finalizer (w_finalizer w) →
  (∀ it, it ∈ items d → i_status it = IRunning → i_worker it ≠ Some (w_id w)) →
  loop_ok (w_id w) k (dispatch_capacity w)
    (loop_start w d).
Proof.
  intros Hw Hf Hn. split; try done; [simpl; lia|]. intros it Hit Hr Ew. by destruct (Hn it Hit Hr).
Qed.

(** However its futures finish, time out or are cancelled, the worker
    never keeps more futures than its dispatch capacity, which is at most its
    concurrency, and every item running under its id is one of them. *)
Theorem futures_bounded render w d k turns v :
  wf_db d → frames_finalizer (w_finalizer w) →
  (∀ it, it ∈ items d → i_status it = IRunning → i_worker it ≠ Some (w_id w)) →
  run_turns render k (loop_start w d) turns = Some v →
  let s := verdict_state v in
  Z.of_nat (length (l_futures s)) ≤ Z.max 0 (w_concurrency w) ∧
  ∀ it, it ∈ items (l_db s) → i_status it = IRunning → i_worker it = Some (w_id w) →
    i_job it = k ∧ i_id it ∈ map f_item (l_futures s).
Proof.
  intros Hw Hf Hn H. pose proof (run_turns_ok render k _ (loop_start w d) turns v (start_ok w d k Hw Hf Hn) H) as [_ _ _ _ Hb Ho].
  split; [|exact Ho]. unfold dispatch_capacity in Hb. lia.
Qed.


(** ** Failures that never reached the provider *)

Lemma wait_delay_bounds e : seconds 1 ≤ wait_delay e ≤ seconds 86400.
Proof. unfold wait_delay, seconds. destruct (x_retry_after e) as [[us| |]|]; try lia. destruct (us =? 0); lia. Qed.

Lemma transition_items d c k from s e : items (settle d (transition d c k from s e)) = items d.
Proof.
  destruct (transition d c k from s e) as [[b d']|] eqn:E; [|done]. unfold transition in E.
  apply rbind_ok in E as (d1 & [_ ->]%put_jobs_ok & E). by case_in E; injection E as <- <-.
Qed.

Lemma defer_item_get d c i w delay code it :
  wf_db d → it ∈ items d → i_id it = i → i_status it = IRunning → i_worker it = Some w → 0 ≤ delay →
  ∃ d' it', defer_item d c i (Some w) delay true code = (true, d') ∧ get_row i_id i (items d') = Some it' ∧
    i_status it' = IPending ∧ i_worker it' = None ∧ i_attempts it' = i_attempts it - 1 ∧
    i_available_at it' = now c + delay.
Proof.
  intros Hw Hit Ei Hr Ew Hd. unfold defer_item.
  set (sel := λ i0, item_by_id i i0 && has_istatus IRunning i0 && owned_by (Some w) i0).
  assert (sel it = true) as Hsel.
  { unfold sel, owned_by. rewrite bool_decide_eq_true_2, andb_true_r by done. by bprop. }
  assert (existsb sel (items d) = true) as -> by (apply existsb_elem; eauto).
  match goal with |- context [update_where sel ?f (items d)] => set (g := f) end.
  assert (get_row i_id i (update_where sel g (items d)) = Some (g it)) as Hg.
  { rewrite get_row_update by done. rewrite <- Ei, get_row_elem by (done || apply Hw). simpl. by rewrite Hsel. }
  rewrite Hg. destruct (wf_lease _ _ Hw it Hit) as [_ Hl]. destruct (Hl Hr) as (_ & _ & Ha).
  eexists _, _. split; [reflexivity|]. change (items (_ <| items := ?x |>)) with x.
  rewrite get_row_update, Hg by done. split; [reflexivity|]. simpl.
  assert (of_job (i_job it) (g it) = true) as -> by (by bprop). simpl. split_and!; [done|done|lia|lia].
Qed.

(** A failure that provably never reached the provider (network or
    availability codes with explicit evidence that nothing was sent) costs
    nothing: the item is pending again with the claimed attempt refunded and
    a delay between one second and one day, and the worker's failure counters
    are unchanged. *)
Theorem unsent_failure_keeps_budget w d cs k i e it :
  wf_db d → it ∈ items d → i_id it = i → i_status it = IRunning → i_worker it = Some (w_id w) →
  str_in (failure_code (x_failure e)) waitable_codes = true → request_definitely_not_sent e = true →
  let '(w', d') := record_failure w d cs k i e in
  w' = w ∧ ∃ it', get_row i_id i (items d') = Some it' ∧ i_status it' = IPending ∧
    i_attempts it' = i_attempts it - 1 ∧
    now (cs 0%nat) + seconds 1 ≤ i_available_at it' ≤ now (cs 0%nat) + seconds 86400.
Proof.
  intros Hw Hit Ei Hr Ew Hc Hs. pose proof (wait_delay_bounds e) as Hd. unfold record_failure.
  assert (str_eqb (failure_code (x_failure e)) (u "API_CREDIT_EXHAUSTED") = false) as ->.
  { apply str_eqb_neq. intros E. rewrite E in Hc. vm_compute in Hc. done. }
  rewrite Hc, Hs. simpl andb. cbv iota.
  destruct (defer_item_get d (cs 0%nat) i (w_id w) (wait_delay e) (Some (failure_code (x_failure e))) it)
    as (d1 & it' & -> & Hg & E1 & _ & E2 & E3); try done; [unfold seconds in Hd; lia|].
  split; [done|]. exists it'. change (items (add_event ?x _ _ _ _ _)) with (items x).
  rewrite transition_items. split_and!; try done; lia.
Qed.
