(* ===== verification/WorkerWitness.v ===== *)
(** * A run of the worker

    One worker with one thread drains the two-photo demo job. *)

From S2P Require Import Prelude PyStr PyFloat Json Sql Sha256 FailurePolicy Store Reservations JobQueue JobQueueWf JobQueueInv QueueMachine QueueClaims QueueFencing QueueWitness Worker WorkerInv.
Local Open Scope Z_scope.

Definition demo_worker : worker := new_worker (u "w1") 1 2 3 None None false.
Definition demo_clock (n : Z) : nat → clock := λ m, at_second (n + Z.of_nat m).
Definition demo_turn (n : Z) (done : list (str * outcome)) : turn :=
  mk_turn false false done [] false false (demo_clock n).
Definition demo_turns : list turn :=
  [demo_turn 10 [(u "i1", Finished [] f0)]; demo_turn 20 [];
   demo_turn 30 [(u "i2", Finished [] f0)]; demo_turn 40 []].
Definition demo_drain : drain := mk_drain [] [] (demo_clock 50).

Lemma demo_unowned :
  ∀ it, it ∈ items d_started → i_status it = IRunning → i_worker it ≠ Some (w_id demo_worker).
Proof.
  assert (existsb (has_istatus IRunning) (items d_started) = false) as H by reflexivity.
  rewrite existsb_none in H. intros it Hit Hr. apply H in Hit. apply not_true_iff_false in Hit.
  by destruct Hit; apply has_istatus_eq.
Qed.

Lemma no_finalizer : frames_finalizer None.
Proof. by intros g k s d d'. Qed.

Lemma futures_bounded_witness :
  ∃ v, run_turns demo_render (u "j1") (loop_start demo_worker d_started) (take 3 demo_turns) = None ∧
    run_turns demo_render (u "j1") (loop_start demo_worker d_started) demo_turns = Some v ∧
    Z.of_nat (length (l_futures (verdict_state v))) ≤ 1.
Proof.
  destruct (run_turns demo_render (u "j1") (loop_start demo_worker d_started) demo_turns) as [v|] eqn:E;
    [|vm_compute in E; discriminate].
  exists v. split; [reflexivity|]. split; [reflexivity|].
  exact (proj1 (futures_bounded demo_render demo_worker d_started (u "j1") demo_turns v
           d_started_wf no_finalizer demo_unowned E)).
Defined.


Definition unsent : exc :=
  mk_exc (FStr (u "VLM-001")) [] None None None true None (Some (RDelay (seconds 5))) None None.

Lemma unsent_failure_keeps_budget_witness :
  ∃ it, it ∈ items d_claimed ∧ i_attempts it = 1 ∧
    (record_failure demo_worker d_claimed (demo_clock 5) (u "j1") (u "i1") unsent).1 = demo_worker.
Proof.
  destruct (find_where (has_istatus IRunning) (items d_claimed)) as [it|] eqn:E; [|vm_compute in E; discriminate].
  pose proof (find_where_Some _ _ _ E) as [Hit Hs]. apply has_istatus_eq in Hs.
  assert (i_id it = u "i1" ∧ i_worker it = Some (w_id demo_worker) ∧ i_attempts it = 1) as (Hi & Hw & Ha)
    by (vm_compute in E; injection E as <-; repeat split; reflexivity).
  exists it. split; [exact Hit|]. split; [exact Ha|].
  pose proof (unsent_failure_keeps_budget demo_worker d_claimed (demo_clock 5) (u "j1") (u "i1") unsent it
                d_claimed_wf Hit Hi Hs Hw eq_refl eq_refl) as H.
  destruct (record_failure demo_worker d_claimed (demo_clock 5) (u "j1") (u "i1") unsent) as [w' d'].
  exact (proj1 H).
Defined.
