(* ===== verification/WorkerProcess.v ===== *)
(** * The killable-process loop of the worker

    [_run_process_job] and [_stop_child] of workers/job_worker.py: items that
    may hang run in child processes the parent can kill.  The parent alone
    claims, renews, completes and fails items; the world decides which child
    reported, which hung past the timeout, and which was still alive when it
    was stopped ([pturn]).  A child's task is a [future] of [Worker] that never
    carries the soft-timeout mark. *)

From S2P Require Import Prelude PyStr PyFloat Json Sql Sha256 FailurePolicy Store Reservations JobQueue JobQueueWf JobQueueInv QueueMachine QueueClaims QueueFencing QueueWitness Worker WorkerInv WorkerWitness.
Local Open Scope Z_scope.

(** What came through a child's pipe: its result, an error name, or EOF. *)
Inductive child_message := ChildOk (r : list (str * json)) (cost : f64) | ChildError (name : str) | ChildEof.

Definition coded_exc (code message : str) : exc :=
  mk_exc (FExc (Some code) None false) message None None None false None None None None.
Definition JobChildError (message : str) : exc := coded_exc (u "JOB-003") message.
Definition JobHardTimeoutError : exc := coded_exc (u "JOB-004") (u "child process timeout").

Definition message_outcome (m : child_message) : outcome :=
  match m with
  | ChildOk r cost => Finished r cost
  | ChildError name => Crashed (JobChildError name)
  | ChildEof => Crashed (JobChildError (u "ChildExited"))
  end.

(** Counters of [child_observability]. *)
Record child_stats := mk_stats { child_active : Z; child_active_max : Z; child_timeouts : Z; child_terminated : Z }.

Record ploop := mk_ploop { p_worker : worker; p_db : db; p_tasks : list future; p_stats : child_stats; p_stop : bool }.

Record pturn := mk_pturn {
  pt_stop : bool; pt_deadline : bool;
  pt_messages : list (str * child_message);    (* receivers that poll true *)
  pt_expired : list str;                       (* started_at is timeout_seconds ago *)
  pt_alive : list str;                         (* still alive when stopped *)
  pt_renew : bool; pt_renew_late : bool;
  pt_clock : nat → clock }.

(** A message is looked at before the timeout. *)
Definition pt_done (i : pturn) : list (str * outcome) :=
  map (λ m, (fst m, message_outcome (snd m))) (pt_messages i)
  ++ map (λ k, (k, Crashed JobHardTimeoutError)) (pt_expired i).

(** [_stop_child], as the counters see it. *)
Definition stop_child (alive : bool) (s : child_stats) : child_stats :=
  mk_stats (Z.max 0 (child_active s - 1)) (child_active_max s) (child_timeouts s)
    (child_terminated s + (if alive then 1 else 0)).

Definition reap (i : pturn) (f : future) (s : child_stats) : child_stats :=
  let s := if match assoc_get (f_item f) (pt_messages i) with Some _ => true | None => false end then s
           else mk_stats (child_active s) (child_active_max s) (child_timeouts s + 1) (child_terminated s) in
  stop_child (str_in (f_item f) (pt_alive i)) s.

Definition spawn (s : child_stats) : child_stats :=
  mk_stats (child_active s + 1) (Z.max (child_active_max s) (child_active s + 1)) (child_timeouts s)
    (child_terminated s).

Inductive pverdict := PContinue (s : ploop) | PBreak (s : ploop) | PEscape (s : ploop).
Definition pstate (v : pverdict) : ploop := match v with PContinue s | PBreak s | PEscape s => s end.

Definition process_statuses : list job_status := [JRunning; JRetrying; JPausing].

Section process.
Context (render : json → str).

Definition process_turn (job_id : str) (s : ploop) (i : pturn) : pverdict :=
  let w := p_worker s in
  let d := p_db s in
  let ts := p_tasks s in
  let stop := p_stop s || pt_stop i in
  let cs := pt_clock i in
  if stop && bool_decide (length ts = 0%nat) then PBreak s
  else if pt_deadline i then PBreak s
  else match get d job_id with
  | None => PBreak s
  | Some j =>
      if negb (jstatus_in process_statuses (j_status j)) then PBreak s
      else
        match (if negb stop && jstatus_in runnable (j_status j)
               then claim d (cs 0%nat) job_id (w_id w) (w_concurrency w - Z.of_nat (length ts)) 300
               else Ok ([], d)) with
        | Raise _ => PEscape (mk_ploop w d ts (p_stats s) stop)
        | Ok (rows, d1) =>
            let ts1 := ts ++ map (λ r, mk_future (i_id r) false) rows in
            let st1 := Nat.iter (length rows) spawn (p_stats s) in
            let done := finished_futures (pt_done i) ts1 in
            let '(w2, d2) := consume_all render w d1 (λ n, cs (n + 4)%nat) job_id done in
            let st2 := fold_left (λ st fo, reap i (fst fo) st) done st1 in
            let ts2 := waiting_futures (pt_done i) ts1 in
            let progressed := negb (bool_decide (length done = 0%nat)) in
            let d3 := if pt_renew i then (renew_leases d2 (cs 1%nat) job_id (w_id w) 300).2 else d2 in
            let s3 d := mk_ploop w2 d ts2 st2 stop in
            if bool_decide (length ts2 = 0%nat) then
              let '(finished, d4) := finalize_if_done d3 (cs 2%nat) job_id (w_finalizer w2) in
              if finished then PBreak (s3 d4)
              else if negb progressed then PBreak (s3 d4)
              else PContinue (s3 (if pt_renew_late i then (renew_leases d4 (cs 3%nat) job_id (w_id w) 300).2 else d4))
            else PContinue (s3 (if pt_renew_late i then (renew_leases d3 (cs 3%nat) job_id (w_id w) 300).2 else d3))
        end
  end.

(** The [finally] block: every child left is stopped and its item failed. *)
Fixpoint abandon_all (w : worker) (d : db) (cs : nat → clock) (job_id : str) (alive : list str)
    (l : list future) (st : child_stats) : worker * db * child_stats :=
  match l with
  | [] => (w, d, st)
  | f :: l' =>
      let '(w1, d1) := record_failure w d cs job_id (f_item f) (JobChildError (u "worker shutdown")) in
      abandon_all w1 d1 (λ n, cs (n + 4)%nat) job_id alive l' (stop_child (str_in (f_item f) alive) st)
  end.

Definition process_finally (job_id : str) (s : ploop) (alive : list str) (cs : nat → clock) : ploop :=
  let '(w1, d1, st1) := abandon_all (p_worker s) (p_db s) (λ n, cs (n + 2)%nat) job_id alive (p_tasks s) (p_stats s) in
  let d2 := match get d1 job_id with
            | Some j => if bool_decide (j_status j = JPausing) then (acknowledge_pause d1 (cs 0%nat) job_id).2 else d1
            | None => d1
            end in
  mk_ploop w1 (finalize_if_done d2 (cs 1%nat) job_id (w_finalizer w1)).2 [] st1 (p_stop s).

Fixpoint process_turns (job_id : str) (s : ploop) (turns : list pturn) : option ploop :=
  match turns with
  | [] => None
  | i :: turns' =>
      match process_turn job_id s i with
      | PContinue s' => process_turns job_id s' turns'
      | PBreak s' | PEscape s' => Some s'
      end
  end.

Definition process_start (w : worker) (d : db) : ploop :=
  mk_ploop (w <| w_schema_streak := 0 |> <| w_rejection_streak := 0 |>) d [] (mk_stats 0 0 0 0) false.

Definition _run_process_job (w : worker) (d : db) (job_id : str) (turns : list pturn) (alive : list str)
    (cs : nat → clock) : option ploop :=
  match process_turns job_id (process_start w d) turns with
  | Some s => Some (process_finally job_id s alive cs)
  | None => None
  end.
End process.

(** ** Invariant *)

Lemma consume_concurrency render w d cs k f o : w_concurrency (consume render w d cs k f o).1 = w_concurrency w.
Proof.
  unfold consume. destruct o as [r cost|e]; [by destruct (f_timed_out f)|].
  unfold record_failure. repeat (case_goal; try reflexivity).
Qed.

Lemma record_failure_frame w d cs k i e :
  w_concurrency (record_failure w d cs k i e).1 = w_concurrency w ∧ w_id (record_failure w d cs k i e).1 = w_id w
  ∧ w_finalizer (record_failure w d cs k i e).1 = w_finalizer w.
Proof. unfold record_failure. repeat (case_goal; try (split; [reflexivity|split; reflexivity])). Qed.

Lemma consume_all_concurrency render w d cs k l : w_concurrency (consume_all render w d cs k l).1 = w_concurrency w.
Proof.
  revert w d cs. induction l as [|[f o] l IH]; intros w d cs; simpl; [done|].
  pose proof (consume_concurrency render w d cs k f o) as E. destruct (consume render w d cs k f o) as [w1 d1].
  by rewrite IH.
Qed.

Lemma split_length done fs :
  (length (finished_futures done fs) + length (waiting_futures done fs) = length fs)%nat.
Proof.
  unfold finished_futures, waiting_futures. induction fs as [|f fs IH]; [done|]. simpl.
  destruct (done_of done f); simpl in *; [by f_equal|]. rewrite <- IH. by rewrite Nat.add_succ_r.
Qed.

Lemma spawn_iter n s :
  child_active (Nat.iter n spawn s) = child_active s + Z.of_nat n
  ∧ child_active_max (Nat.iter n spawn s) ≤ Z.max (child_active_max s) (child_active s + Z.of_nat n).
Proof.
  induction n as [|n [IH1 IH2]]; simpl; [lia|]. rewrite IH1. lia.
Qed.

Lemma reap_all i (l : list (future * outcome)) st :
  Z.of_nat (length l) ≤ child_active st →
  child_active (fold_left (λ st fo, reap i (fst fo) st) l st) = child_active st - Z.of_nat (length l)
  ∧ child_active_max (fold_left (λ st fo, reap i (fst fo) st) l st) = child_active_max st.
Proof.
  revert st. induction l as [|fo l IH]; intros st H; simpl in *; [lia|].
  assert (E : child_active (reap i fo.1 st) = child_active st - 1 ∧ child_active_max (reap i fo.1 st) = child_active_max st).
  { unfold reap. destruct (assoc_get _ _); simpl; lia. }
  destruct E as [E1 E2]. destruct (IH (reap i fo.1 st)) as [-> ->]; [lia|]. lia.
Qed.

Record p_ok (w0 k : str) (cap : Z) (s : ploop) : Prop := mk_pok {
  pk_wf : wf_db (p_db s);
  pk_id : w_id (p_worker s) = w0;
  pk_cap : w_concurrency (p_worker s) = cap;
  pk_fin : frames_finalizer (w_finalizer (p_worker s));
  pk_bound : Z.of_nat (length (p_tasks s)) ≤ cap;
  pk_active : child_active (p_stats s) = Z.of_nat (length (p_tasks s));
  pk_max : child_active_max (p_stats s) ≤ cap;
  pk_owns : owns_only w0 k (map f_item (p_tasks s)) (items (p_db s)) }.

Lemma p_ok_calm w0 k cap w d d' ts st stop stop' :
  p_ok w0 k cap (mk_ploop w d ts st stop) → calm d d' → p_ok w0 k cap (mk_ploop w d' ts st stop').
Proof. intros [Hw Hid Hc Hf Hb Ha Hm Ho] C. destruct (C Hw) as [Hw' S]. split; try done. by eapply owns_only_sub. Qed.

(** The claim of a turn. *)
Lemma process_claim s k cap (b : bool) c rows d1 :
  p_ok (w_id (p_worker s)) k cap s →
  (if b then claim (p_db s) c k (w_id (p_worker s)) (w_concurrency (p_worker s) - Z.of_nat (length (p_tasks s))) 300
   else Ok ([], p_db s)) = Ok (rows, d1) →
  let ts1 := p_tasks s ++ map (λ r, mk_future (i_id r) false) rows in
  p_ok (w_id (p_worker s)) k cap (mk_ploop (p_worker s) d1 ts1 (Nat.iter (length rows) spawn (p_stats s)) (p_stop s)).
Proof.
  intros Hok E ts1. pose proof Hok as [Hw Hid Hc Hf Hb Ha Hm Ho]. destruct b.
  - assert (Hn : Z.of_nat (length rows) ≤ cap - Z.of_nat (length (p_tasks s))).
    { pose proof E as E'. apply claim_inv in E' as [[-> _]|(j & oa & bf & _ & _ & _ & ->)]; [simpl; lia|].
      rewrite claim_result by apply Hw. rewrite length_map, <- Hc. apply claim_rows_length. lia. }
    destruct (spawn_iter (length rows) (p_stats s)) as [S1 S2].
    assert (Hlen : length ts1 = (length (p_tasks s) + length rows)%nat) by (unfold ts1; by rewrite length_app, length_map).
    split; cbn [p_worker p_db p_tasks p_stats]; try done; try lia.
    + by eapply claim_wf.
    + by eapply claim_owns.
  - injection E as <- <-. unfold ts1. simpl. rewrite app_nil_r. by destruct s.
Qed.

Lemma process_turn_ok render k cap s i :
  p_ok (w_id (p_worker s)) k cap s → p_ok (w_id (p_worker s)) k cap (pstate (process_turn render k s i)).
Proof.
  intros Hok. destruct s as [w d ts st stop0]. unfold process_turn. cbn [p_worker p_db p_tasks p_stats p_stop] in *.
  case_goal; [done|]. case_goal; [done|]. destruct (get d k) as [j|]; [|done]. case_goal; [done|].
  match goal with |- context [match ?x with Ok _ => _ | Raise _ => _ end] => destruct x as [[rows d1]|] eqn:Ec end;
    [|by eapply p_ok_calm; [|apply calm_refl]].
  pose proof (process_claim (mk_ploop w d ts st stop0) k cap _ _ rows d1 Hok Ec) as Hok1. cbn [p_worker p_db p_tasks p_stats p_stop] in Hok1.
  set (ts1 := ts ++ map (λ r, mk_future (i_id r) false) rows) in *.
  destruct Hok1 as [Hw1 _ Hc1 Hf1 Hb1 Ha1 Hm1 Ho1]. cbn [p_worker p_db p_tasks p_stats] in *.
  pose proof (consume_all_concurrency render w d1 (λ n, pt_clock i (n + 4)%nat) k (finished_futures (pt_done i) ts1)) as Hcc.
  destruct (consume_all _ _ _ _ _ _) as [w2 d2] eqn:Eall. cbn [fst] in Hcc.
  destruct (consume_all_spec _ _ _ _ _ _ _ _ _ Eall Hw1 Ho1) as ([Hw2 S2] & R2 & _ & D2 & D3).
  pose proof (split_length (pt_done i) ts1) as Hlen.
  destruct (reap_all i (finished_futures (pt_done i) ts1) (Nat.iter (length rows) spawn st)) as [A1 A2]; [lia|].
  set (st2 := fold_left _ _ _) in *. set (ts2 := waiting_futures (pt_done i) ts1) in *.
  assert (Hok2 : p_ok (w_id w) k cap (mk_ploop w2 d2 ts2 st2 stop0)).
  { split; cbn [p_worker p_db p_tasks p_stats]; try done; try lia; [by rewrite D3|].
    eapply owns_only_less; [by eapply owns_only_sub|]. intros f Hin.
    destruct (split_futures (pt_done i) ts1 f Hin) as [H|[o H]]; [by left|right; by eapply R2]. }
  assert (Hren : ∀ (b : bool) d c, calm d (if b then (renew_leases d c k (w_id w) 300).2 else d)).
  { intros [] d' c; [apply renew_calm|apply calm_refl]. }
  set (d3 := if pt_renew i then _ else d2). assert (C3 : calm d2 d3) by apply Hren.
  case_goal.
  - destruct (finalize_if_done d3 _ k (w_finalizer w2)) as [fin d4] eqn:Efin.
    assert (C4 : calm d2 d4).
    { eapply calm_trans; [exact C3|]. pose proof (finalize_calm d3 (pt_clock i 2%nat) k (w_finalizer w2)) as C.
      rewrite Efin in C. apply C. by rewrite D3. }
    repeat case_goal; cbn [pstate]; (eapply p_ok_calm; [exact Hok2|]); try exact C4.
    eapply calm_trans; [exact C4|apply renew_calm].
  - cbn [pstate]. eapply p_ok_calm; [exact Hok2|]. eapply calm_trans; [exact C3|]. apply (Hren (pt_renew_late i)).
Qed.

Lemma process_turns_ok render k cap s turns s' :
  p_ok (w_id (p_worker s)) k cap s → process_turns render k s turns = Some s' → p_ok (w_id (p_worker s)) k cap s'.
Proof.
  revert s. induction turns as [|i turns IH]; intros s Hok H; [done|]. cbn [process_turns] in H.
  pose proof (process_turn_ok render k cap s i Hok) as H1.
  destruct (process_turn render k s i) as [s1|s1|s1]; cbn [pstate] in H1; [|by injection H as <-..].
  pose proof (pk_id _ _ _ _ H1) as E. rewrite <- E in H1 |- *. by apply IH.
Qed.

Lemma abandon_all_spec w d cs k alive l st ids w' d' st' :
  abandon_all w d cs k alive l st = (w', d', st') → wf_db d → owns_only (w_id w) k ids (items d) →
  Z.of_nat (length l) ≤ child_active st →
  (wf_db d' ∧ running_sub (items d) (items d')) ∧ (∀ f, f ∈ l → released (w_id w) (f_item f) (items d')) ∧
  w_id w' = w_id w ∧ w_finalizer w' = w_finalizer w ∧ child_active st' = child_active st - Z.of_nat (length l).
Proof.
  revert w d cs st. induction l as [|f l IH]; intros w d cs st E Hw Ho Hn; cbn [abandon_all] in E.
  { injection E as <- <- <-. split; [split; [done|apply running_sub_refl]|]. split_and!; try done; [|simpl; lia].
    by intros ? ?%not_elem_of_nil. }
  pose proof (record_failure_hands_back w d cs k (f_item f) (JobChildError (u "worker shutdown"))) as [Hc Hr].
  pose proof (record_failure_frame w d cs k (f_item f) (JobChildError (u "worker shutdown"))) as (_ & F2 & F3).
  destruct (record_failure _ _ _ _ _ _) as [w1 d1]. cbn [fst snd] in *.
  destruct (Hc Hw) as [Hw1 S1]. pose proof (Hr ids Ho Hw) as R1. cbn [length] in Hn.
  destruct (IH w1 d1 _ (stop_child (str_in (f_item f) alive) st) E Hw1) as ([Hw' S'] & R' & D1 & D2 & D3).
  - rewrite F2. by eapply owns_only_sub.
  - cbn [child_active stop_child]. lia.
  - rewrite F2 in R'. split; [split; [done|by eapply running_sub_trans]|]. split_and!; try congruence.
    + intros g [->|Hin]%elem_of_cons; [by eapply released_sub|by apply R'].
    + rewrite D3. cbn [child_active stop_child length]. lia.
Qed.

(** Killable children stay bounded and are all reaped: through every turn
    of the process loop at most [min(concurrency, 4)] children are alive, and
    when the loop ends (stop, deadline, job status, nothing left, or an
    exception of the repository), the final block leaves no child and no item
    of the queue running under the worker. *)
Theorem children_bounded_and_reaped render id concurrency multiplier attempts retry fin d k turns alive cs s :
  let w := new_worker id concurrency multiplier attempts retry fin true in
  wf_db d → frames_finalizer fin →
  (∀ it, it ∈ items d → i_status it = IRunning → i_worker it ≠ Some id) →
  process_turns render k (process_start w d) turns = Some s →
  (Z.of_nat (length (p_tasks s)) ≤ Z.min (Z.max 1 concurrency) MAX_CHILD_PROCESSES
   ∧ child_active_max (p_stats s) ≤ MAX_CHILD_PROCESSES) ∧
  let s' := process_finally k s alive cs in
  p_tasks s' = [] ∧ child_active (p_stats s') = 0 ∧
  ∀ it, it ∈ items (p_db s') → i_status it = IRunning → i_worker it ≠ Some id.
Proof.
  intros w Hw Hf Hn H.
  assert (Hstart : p_ok id k (w_concurrency w) (process_start w d)).
  { split; cbn; try done; [unfold MAX_CHILD_PROCESSES; lia..|]. intros it Hit Hr Ew. by destruct (Hn it Hit Hr). }
  pose proof (process_turns_ok render k _ (process_start w d) turns s Hstart H) as [Hw1 Hid Hc Hfin Hb Ha Hm Ho].
  split; [cbn in Hb, Hm; unfold MAX_CHILD_PROCESSES in *; lia|]. unfold process_finally.
  destruct (abandon_all _ _ _ _ _ _ _) as [[w1 d1] st1] eqn:E. change (w_id (p_worker (process_start w d))) with id in *.
  assert (Ho' : owns_only (w_id (p_worker s)) k (map f_item (p_tasks s)) (items (p_db s))) by (by rewrite Hid).
  destruct (abandon_all_spec _ _ _ _ _ _ _ _ _ _ _ E Hw1 Ho') as ([Hw1' S1] & R1 & D1 & D2 & D3); [lia|].
  cbn [p_tasks p_stats p_db]. split; [done|]. split; [lia|].
  assert (Ho1 : owns_only id k [] (items d1)).
  { rewrite <- Hid. apply (owns_only_less _ _ (p_tasks s) []); [by eapply owns_only_sub|]. intros f Hin. right. by apply R1. }
  set (d2 := match get d1 k with Some _ => _ | None => _ end).
  assert (C2 : calm d1 d2).
  { unfold d2. destruct (get d1 k); [|apply calm_refl]. case_goal; [apply acknowledge_pause_calm|apply calm_refl]. }
  intros it Hit Hr Ew.
  assert (Ho2 : owns_only id k [] (items (finalize_if_done d2 (cs 1%nat) k (w_finalizer w1)).2)).
  { eapply owns_only_sub; [|exact Ho1]. apply (calm_trans d1 d2); [done|apply finalize_calm; by rewrite D2|done]. }
  destruct (Ho2 it Hit Hr Ew) as [_ Hin]. by apply not_elem_of_nil in Hin.
Qed.

(** ** A run: one child answers, the other hangs and is killed. *)

Definition demo_pturns : list pturn :=
  [mk_pturn false false [(u "i1", ChildOk [] f0)] [] [] false false (demo_clock 10);
   mk_pturn false false [] [u "i2"] [u "i2"] true false (demo_clock 30);
   mk_pturn true false [] [] [] false false (demo_clock 50)].

Lemma children_bounded_and_reaped_witness :
  ∃ s, process_turns demo_render (u "j1") (process_start (new_worker (u "w1") 9 2 3 None None true) d_started) demo_pturns
       = Some s ∧ child_timeouts (p_stats s) = 1 ∧
       child_active (p_stats (process_finally (u "j1") s [] (demo_clock 70))) = 0.
Proof.
  destruct (process_turns demo_render (u "j1") (process_start (new_worker (u "w1") 9 2 3 None None true) d_started) demo_pturns)
    as [s|] eqn:E; [|vm_compute in E; discriminate E].
  exists s. split; [reflexivity|]. split; [vm_compute in E; injection E as <-; reflexivity|].
  exact (proj1 (proj2 (proj2 (children_bounded_and_reaped demo_render (u "w1") 9 2 3 None None d_started (u "j1") demo_pturns
    [] (demo_clock 70) s d_started_wf no_finalizer demo_unowned E)))).
Defined.
