(* ===== verification/Schema.v ===== *)
(** * The model-response schema (domain/analysis/schema.py)

    A JSON schema of the package is a value of [schema]; [_validate] walks it
    over a JSON value.  [validate_model_response] is the gate every provider
    answer passes (decode, refuse lone surrogates, convert to Traditional
    Chinese, repair duplicate categories and contradictory orientations,
    validate), [validate_analysis_result] the gate of stored results.  The
    converter is OpenCC's, a parameter [convert]; JSON text enters as its
    syntax tree [jtree], because the decoder's hooks see members in order,
    duplicates included.  Exceptions are [verror]; their texts are left out. *)

From S2P Require Import Prelude PyStr PyFloat Json.
Local Open Scope Z_scope.

Definition SCHEMA_VERSION : Z := 6.
Definition PREVIOUS_SCHEMA_VERSION : Z := 5.
Definition LEGACY_SCHEMA_VERSION : Z := 4.
Definition SUPPORTED_ANALYSIS_SCHEMA_VERSIONS : list Z :=
  [LEGACY_SCHEMA_VERSION; PREVIOUS_SCHEMA_VERSION; SCHEMA_VERSION].
Definition CAPTION_MAX_CHARS : Z := 100.
Definition SIDE_CAPTION_MIN_CHARS : Z := 1.
Definition SIDE_CAPTION_MAX_CHARS : Z := 20.
Definition LEGACY_SIDE_CAPTION_MIN_CHARS : Z := 8.
Definition LEGACY_SIDE_CAPTION_MAX_CHARS : Z := 16.

Definition ALLOWED_TYPES : list str :=
  map u ["人物"; "孩子"; "家庭"; "旅行"; "風景"; "美食"; "寵物"; "貓咪"; "日常"; "活動";
         "建築"; "夜景"; "植物"; "文件"; "收據"; "截圖"; "雜物"; "其他"]%string.
Definition SPECIAL_CODES : list str :=
  map u ["group_photo"; "meaningful_activity"; "major_event"; "rare_moment"; "milestone";
         "travel_memory"; "family_moment"; "strong_interaction"; "ceremony"; "performance"]%string.
Definition CONTENT_FILTER_CODES : list str :=
  map u ["sexualized_content"; "explicit_nudity"; "female_glamour_portrait"]%string.
Definition DISPLAY_EXCLUSION_CATEGORIES : list str :=
  map u ["none"; "adult_media_cover"; "commercial_model_photo"; "screenshot"; "document_record"]%string.
Definition ORIENTATION_EVIDENCE : list str :=
  map u ["faces_upright"; "text_upright"; "horizon_level"; "gravity_objects";
         "architecture_vertical"; "insufficient_visual_cues"]%string.
Definition POSITIONS : list str :=
  map u ["center"; "left"; "right"; "top"; "bottom"; "top_left"; "top_right"; "bottom_left";
         "bottom_right"; "unknown"]%string.
Definition PROTOCOL_ENUM_VALUES : list str :=
  ALLOWED_TYPES ++ SPECIAL_CODES ++ CONTENT_FILTER_CODES ++ DISPLAY_EXCLUSION_CATEGORIES
  ++ ORIENTATION_EVIDENCE ++ POSITIONS ++ [u "none"].

(** ** Schemas *)

Inductive schema : Type :=
| SAnyOf (choices : list schema)
| SObject (required : list str) (properties : list (str * schema))
| SArray (items : schema) (minItems maxItems : Z)
| SString (enum : option (list str)) (minLength maxLength : option Z)
| SBoolean
| SInteger (const : option Z) (enum : option (list Z)) (minimum maximum : option Z)
| SNumber (minimum maximum : option Z)
| SNull.

Definition _object (properties : list (str * schema)) : schema :=
  SObject (sort_by str_leb (map fst properties)) properties.
Definition _enum_array (values : list str) (minimum maximum : Z) : schema :=
  SArray (SString (Some (sort_by str_leb values)) None None) minimum maximum.

Definition string_enum (values : list str) : schema := SString (Some values) None None.
Definition unit_interval : schema := SNumber (Some 0) (Some 1).
Definition percentage : schema := SNumber (Some 0) (Some 100).
Definition int_range (lo hi : Z) : schema := SInteger None None (Some lo) (Some hi).
Definition int_const (c : Z) : schema := SInteger (Some c) None None None.
Definition text_between (lo hi : Z) : schema := SString None (Some lo) (Some hi).

Definition content_filter_schema : schema :=
  _object (map (λ code, (code, _object [(u "detected", SBoolean); (u "confidence", unit_interval)]))
             (sort_by str_leb CONTENT_FILTER_CODES)).
Definition visual_orientation_schema : schema :=
  _object [(u "rotation_cw", SAnyOf [SInteger None (Some [0; 90; 180; 270]) None None; SNull]);
           (u "confidence", unit_interval);
           (u "ambiguous", SBoolean);
           (u "evidence", _enum_array ORIENTATION_EVIDENCE 1 6)].

Definition LEGACY_V4_JSON_SCHEMA : schema :=
  _object [(u "schema_version", int_const LEGACY_SCHEMA_VERSION);
           (u "types", _enum_array ALLOWED_TYPES 1 3);
           (u "memory_score", percentage);
           (u "visual_score", percentage);
           (u "special_level", int_range 0 4);
           (u "special_codes", _enum_array SPECIAL_CODES 0 2);
           (u "people_count", int_range 0 10000);
           (u "caption", text_between 10 CAPTION_MAX_CHARS);
           (u "side_caption", text_between LEGACY_SIDE_CAPTION_MIN_CHARS LEGACY_SIDE_CAPTION_MAX_CHARS);
           (u "content_filter", content_filter_schema);
           (u "subject_position", string_enum POSITIONS);
           (u "text_safe_area", string_enum (POSITIONS ++ [u "none"]));
           (u "visual_orientation", visual_orientation_schema)].

Definition v5_properties : list (str * schema) :=
  [(u "schema_version", int_const PREVIOUS_SCHEMA_VERSION);
   (u "types", _enum_array ALLOWED_TYPES 1 3);
   (u "memory_score", percentage);
   (u "visual_score", percentage);
   (u "special_level", int_range 0 4);
   (u "side_caption", text_between LEGACY_SIDE_CAPTION_MIN_CHARS LEGACY_SIDE_CAPTION_MAX_CHARS);
   (u "content_filter", content_filter_schema);
   (u "visual_orientation", visual_orientation_schema)].
Definition V5_ANALYSIS_JSON_SCHEMA : schema := _object v5_properties.

(** [update(minLength=..., maxLength=...)] of the caption's schema. *)
Definition set_side_caption (lo hi : Z) (p : list (str * schema)) : list (str * schema) :=
  assoc_set (u "side_caption") (text_between lo hi) p.

Definition display_exclusion_schema : schema :=
  _object [(u "category", string_enum (sort_by str_leb DISPLAY_EXCLUSION_CATEGORIES));
           (u "confidence", unit_interval)].
Definition v6_properties : list (str * schema) :=
  assoc_set (u "display_exclusion") display_exclusion_schema
    (set_side_caption SIDE_CAPTION_MIN_CHARS SIDE_CAPTION_MAX_CHARS
       (assoc_set (u "schema_version") (int_const SCHEMA_VERSION) v5_properties)).
Definition ANALYSIS_JSON_SCHEMA : schema := _object v6_properties.

Definition PROVIDER_CONTRACT_JSON_SCHEMA : schema :=
  SObject (map u ["vision_ok"; "detected_shapes"]%string)
    [(u "vision_ok", SBoolean);
     (u "detected_shapes",
        SArray (string_enum (map u ["rectangle"; "circle"; "triangle"]%string)) 0 3)].

(** ** Caption controls

    The numeric settings are integers; the other keys are passed through. *)

Record caption_controls := {
  side_caption_min_chars : option Z;
  side_caption_max_chars : option Z;
  side_caption_custom_rules : option str;
  other_controls : list (str * json);
}.

(** [str.split()]: the maximal runs of characters that are not white space. *)
Fixpoint split_words (cur : str) (s : str) : list str :=
  match s with
  | [] => match cur with [] => [] | _ => [rev cur] end
  | c :: s' =>
      if is_space c
      then match cur with [] => split_words [] s' | _ => rev cur :: split_words [] s' end
      else split_words (c :: cur) s'
  end.
Definition py_split (s : str) : list str := split_words [] s.

Fixpoint join_words (l : list str) : str :=
  match l with
  | [] => []
  | [w] => w
  | w :: l' => w ++ 32 :: join_words l'
  end.

Definition normalize_caption_controls (c : caption_controls) : caption_controls :=
  let custom_rules :=
    strip (take 1000 (join_words (py_split (default [] (side_caption_custom_rules c))))) in
  let side_upper :=
    Z.max SIDE_CAPTION_MIN_CHARS
      (Z.min SIDE_CAPTION_MAX_CHARS (default SIDE_CAPTION_MAX_CHARS (side_caption_max_chars c))) in
  let side_minimum :=
    Z.max SIDE_CAPTION_MIN_CHARS
      (Z.min side_upper (default SIDE_CAPTION_MIN_CHARS (side_caption_min_chars c))) in
  {| side_caption_min_chars := Some side_minimum;
     side_caption_max_chars := Some side_upper;
     side_caption_custom_rules := Some custom_rules;
     other_controls := other_controls c |}.

(** Truth value of the dictionary: some key is set. *)
Definition controls_truthy (c : caption_controls) : bool :=
  match c with
  | Build_caption_controls None None None [] => false
  | _ => true
  end.

(** ** Decoding *)

Inductive verror :=
| AnalysisValidationError (code : str) | ValueError | KeyError | TypeError | OverflowError | RecursionError.
Definition invalid {A} : result verror A := Raise (AnalysisValidationError (u "VLM-004")).

(** The syntax tree of a JSON text, before [object_pairs_hook] and
    [parse_constant]: members in order, and the constants NaN, Infinity and
    -Infinity. *)
Inductive jtree : Type :=
| TNull
| TBool (b : bool)
| TInt (z : Z)
| TFloat (f : f64)
| TConstant
| TStr (s : str)
| TList (l : list jtree)
| TObj (m : list (str * jtree)).

Fixpoint unique_json_members_from (seen : list (str * json)) (pairs : list (str * json))
  : result verror (list (str * json)) :=
  match pairs with
  | [] => Ok seen
  | (key, item) :: rest =>
      raise_if (str_in key (map fst seen)) (AnalysisValidationError (u "VLM-004")) ;;;
      unique_json_members_from (seen ++ [(key, item)]) rest
  end.
Definition _unique_json_members (pairs : list (str * json)) : result verror (list (str * json)) :=
  unique_json_members_from [] pairs.

Fixpoint decode_tree (t : jtree) : result verror json :=
  match t with
  | TNull => Ok JNull
  | TBool b => Ok (JBool b)
  | TInt z => Ok (JInt z)
  | TFloat f => Ok (JFloat f)
  | TConstant => invalid
  | TStr s => Ok (JStr s)
  | TList l =>
      let* r := (fix go (l : list jtree) : result verror (list json) :=
        match l with
        | [] => Ok []
        | x :: l' => let* j := decode_tree x in let* r := go l' in Ok (j :: r)
        end) l in
      Ok (JList r)
  | TObj m =>
      let* r := (fix go (m : list (str * jtree)) : result verror (list (str * json)) :=
        match m with
        | [] => Ok []
        | (k, x) :: m' => let* j := decode_tree x in let* r := go m' in Ok ((k, j) :: r)
        end) m in
      let* m' := _unique_json_members r in
      Ok (JObj m')
  end.

(** The interpreter's own limits, which no handler of this module names: an
    integer literal of more than 4300 digits, and nesting beyond the stack, in
    the decoder or in the recursive walks (surrogates, deepcopy, conversion)
    of the decoded value. *)
Inductive interpreter_limit := IntegerDigits | StackDepth.
Definition limit_error (l : interpreter_limit) : verror :=
  match l with IntegerDigits => ValueError | StackDepth => RecursionError end.

(** What is offered: a provider's text ([None]: not JSON), an already decoded
    value, or a text or value that runs into a limit. *)
Inductive raw_response := RawText (t : option jtree) | RawValue (j : json) | RawBeyond (l : interpreter_limit).

(** [analysis_json_decoder().decode(raw)] under [except json.JSONDecodeError],
    with the code an unreadable text raises. *)
Definition decode_raw (code : str) (raw : raw_response) : result verror json :=
  match raw with
  | RawText None => Raise (AnalysisValidationError code)
  | RawText (Some t) => decode_tree t
  | RawValue j => Ok j
  | RawBeyond l => Raise (limit_error l)
  end.

(** [value.encode("utf-8")] succeeds: no lone surrogate. *)
Definition encodable (s : str) : bool :=
  forallb (λ c, negb ((55296 <=? c) && (c <=? 57343))) s.

Fixpoint unicode_ok (j : json) : bool :=
  match j with
  | JStr s => encodable s
  | JObj m => forallb (λ kv, encodable (fst kv) && unicode_ok (snd kv)) m
  | JList l => forallb unicode_ok l
  | _ => true
  end.
Definition _validate_unicode (j : json) : result verror unit :=
  raise_if (negb (unicode_ok j)) (AnalysisValidationError (u "VLM-004")).

(** ** Validation *)

(** Order of Python numbers; an integer compared with a float is a bound of a
    schema or a confidence, well inside the exactly representable range. *)
Definition num_leb (a b : json) : bool :=
  match a, b with
  | JInt x, JInt y => x <=? y
  | JInt x, JFloat y => fleb (f64_of_Z x) y
  | JFloat x, JInt y => fleb x (f64_of_Z y)
  | JFloat x, JFloat y => fleb x y
  | _, _ => false
  end.
Definition num_ltb (a b : json) : bool :=
  match a, b with
  | JInt x, JInt y => x <? y
  | JInt x, JFloat y => fltb (f64_of_Z x) y
  | JFloat x, JInt y => fltb x (f64_of_Z y)
  | JFloat x, JFloat y => fltb x y
  | _, _ => false
  end.

(** [math.isfinite]: an integer beyond the floats raises OverflowError. *)
Definition py_isfinite (j : json) : result verror bool :=
  match j with
  | JInt z => if ffinite (f64_of_Z z) then Ok true else Raise OverflowError
  | JFloat f => Ok (ffinite f)
  | _ => Raise TypeError
  end.

Definition check_range (value : json) (minimum maximum : option Z) : result verror unit :=
  let lo := from_option JInt value minimum in
  let hi := from_option JInt value maximum in
  if negb (num_leb lo value && num_leb value hi) then invalid
  else let* fin := py_isfinite value in if fin then Ok tt else invalid.

(** [len(set(value)) == len(value)] for hashable members; equality of numbers
    crosses their types. *)
Definition scalar_eqb (a b : json) : bool :=
  let numeric j := match j with
    | JBool b => JInt (if b then 1 else 0) | _ => j end in
  match numeric a, numeric b with
  | JNull, JNull => true
  | JStr s, JStr t => str_eqb s t
  | JInt x, JInt y => x =? y
  | JInt x, JFloat y => feqb (f64_of_Z x) y
  | JFloat x, JInt y => feqb x (f64_of_Z y)
  | JFloat x, JFloat y => feqb x y
  | _, _ => false
  end.
Definition hashable (j : json) : bool :=
  match j with JList _ | JObj _ => false | _ => true end.
Fixpoint all_distinct (l : list json) : bool :=
  match l with [] => true | x :: l' => negb (existsb (scalar_eqb x) l') && all_distinct l' end.
Definition check_unique (l : list json) : result verror unit :=
  raise_if (negb (forallb hashable l)) TypeError ;;;
  raise_if (negb (all_distinct l)) (AnalysisValidationError (u "VLM-004")).

Definition same_keys (a b : list str) : bool :=
  forallb (λ k, str_in k b) a && forallb (λ k, str_in k a) b.

(** First choice that validates; only validation errors are swallowed. *)
Fixpoint any_of (rs : list (result verror unit)) : result verror unit :=
  match rs with
  | [] => invalid
  | Ok tt :: _ => Ok tt
  | Raise (AnalysisValidationError _) :: rs' => any_of rs'
  | Raise e :: _ => Raise e
  end.

Fixpoint for_each {A} (f : A → result verror unit) (l : list A) : result verror unit :=
  match l with [] => Ok tt | x :: l' => f x ;;; for_each f l' end.

Definition in_option {A} (mem : A → list A → bool) (x : A) (l : option (list A)) : bool :=
  match l with Some l => mem x l | None => true end.

Definition check_length (s : str) (minLength maxLength : option Z) : result verror unit :=
  let n := slen (strip s) in
  raise_if (negb ((default 0 minLength <=? n) && (n <=? default (slen s) maxLength)))
    (AnalysisValidationError (u "VLM-004")).

Fixpoint _validate (s : schema) (value : json) : result verror unit :=
  match s, value with
  | SAnyOf choices, _ => any_of (map (λ c, _validate c value) choices)
  | SObject required properties, JObj m =>
      raise_if (negb (same_keys (map fst m) required)) (AnalysisValidationError (u "VLM-004")) ;;;
      let checks := map (λ p, (fst p, _validate (snd p))) properties in
      for_each (λ kv, match assoc_get (fst kv) checks with
                      | Some check => check (snd kv)
                      | None => Raise KeyError
                      end) m
  | SArray items minItems maxItems, JList l =>
      let n := Z.of_nat (length l) in
      raise_if (negb ((minItems <=? n) && (n <=? maxItems))) (AnalysisValidationError (u "VLM-004")) ;;;
      for_each (_validate items) l ;;;
      check_unique l
  | SString enum minLength maxLength, JStr t =>
      raise_if (negb (in_option str_in t enum)) (AnalysisValidationError (u "VLM-004")) ;;;
      check_length t minLength maxLength
  | SBoolean, JBool _ => Ok tt
  | SInteger const enum minimum maximum, JInt z =>
      raise_if (negb (in_option (λ x l, existsb (Z.eqb x) l) z (option_map (λ c, [c]) const)))
        (AnalysisValidationError (u "VLM-004")) ;;;
      raise_if (negb (in_option (λ x l, existsb (Z.eqb x) l) z enum))
        (AnalysisValidationError (u "VLM-004")) ;;;
      check_range value minimum maximum
  | SNumber minimum maximum, (JInt _ | JFloat _) => check_range value minimum maximum
  | SNull, JNull => Ok tt
  | _, _ => invalid
  end.

Definition json_schema_for_stage (stage : str) (controls : option caption_controls)
    (schema_version : Z) : result verror schema :=
  if str_eqb stage (u "provider_contract_level2") then Ok PROVIDER_CONTRACT_JSON_SCHEMA
  else if negb ((schema_version =? PREVIOUS_SCHEMA_VERSION) || (schema_version =? SCHEMA_VERSION))
  then Raise ValueError
  else
    let properties := if schema_version =? PREVIOUS_SCHEMA_VERSION then v5_properties else v6_properties in
    let required := sort_by str_leb (map fst properties) in
    match controls with
    | Some c =>
        if controls_truthy c then
          let n := normalize_caption_controls c in
          let '(minimum, maximum) :=
            if schema_version =? PREVIOUS_SCHEMA_VERSION then
              let minimum := Z.max LEGACY_SIDE_CAPTION_MIN_CHARS
                (Z.min LEGACY_SIDE_CAPTION_MAX_CHARS
                   (default LEGACY_SIDE_CAPTION_MIN_CHARS (side_caption_min_chars c))) in
              (minimum, Z.max minimum
                (Z.min LEGACY_SIDE_CAPTION_MAX_CHARS
                   (default LEGACY_SIDE_CAPTION_MAX_CHARS (side_caption_max_chars c))))
            else (default 0 (side_caption_min_chars n), default 0 (side_caption_max_chars n)) in
          Ok (SObject required (set_side_caption minimum maximum properties))
        else Ok (SObject required properties)
    | None => Ok (SObject required properties)
    end.

(** ** The two gates *)

Fixpoint all_strings (l : list json) : option (list str) :=
  match l with
  | [] => Some []
  | JStr s :: l' => match all_strings l' with Some r => Some (s :: r) | None => None end
  | _ :: _ => None
  end.

(** Repair of a category list: deduplicate when it is a list of [1..most] texts. *)
Definition dedup_categories (most : Z) (j : json) : json :=
  match j with
  | JList l =>
      let n := Z.of_nat (length l) in
      match all_strings l with
      | Some ss => if (1 <=? n) && (n <=? most) then JList (map JStr (fromkeys ss)) else j
      | None => j
      end
  | _ => j
  end.

(** [m[key] = f(m[key])] when the key is present. *)
Definition alter_key (key : str) (f : json → json) (m : list (str * json)) : list (str * json) :=
  match assoc_get key m with Some j => assoc_set key (f j) m | None => m end.

Definition strip_text (j : json) : json := match j with JStr s => JStr (strip s) | _ => j end.
Definition in_object (f : list (str * json) → list (str * json)) (j : json) : json :=
  match j with JObj m => JObj (f m) | _ => j end.

Definition repair_v6 (m : list (str * json)) : list (str * json) :=
  alter_key (u "visual_orientation") (in_object (alter_key (u "evidence") (dedup_categories 6)))
    (alter_key (u "types") (dedup_categories 3) (alter_key (u "side_caption") strip_text m)).

(** [min(orientation["confidence"], 0.5)] *)
Definition half : json := JFloat (dec 1 2).
Definition num_min (a b : json) : json := if num_ltb b a then b else a.

(** [code in orientation["evidence"]] *)
Definition evidence_has (code : str) (j : json) : bool :=
  match j with JList l => existsb (scalar_eqb (JStr code)) l | _ => false end.
Definition insufficient : str := u "insufficient_visual_cues".

Definition get_or {A} (k : str) (m : list (str * A)) : result verror A :=
  match assoc_get k m with Some j => Ok j | None => Raise KeyError end.

(** Conservative normalisation of a validated orientation. *)
Definition settle_orientation (o : list (str * json)) : result verror (list (str * json)) :=
  let* rot := get_or (u "rotation_cw") o in
  let o1 := match rot with JNull => assoc_set (u "ambiguous") (JBool true) o | _ => o end in
  let* ev := get_or (u "evidence") o1 in
  if evidence_has insufficient ev then
    let* conf := get_or (u "confidence") o1 in
    Ok (assoc_set (u "evidence") (JList [JStr insufficient])
         (assoc_set (u "confidence") (num_min conf half)
           (assoc_set (u "ambiguous") (JBool true) (assoc_set (u "rotation_cw") JNull o1))))
  else Ok o1.

Section conversion.
Context (convert : str → str).

Fixpoint to_taiwan_traditional (guarded : list str) (value : json) : json :=
  match value with
  | JStr s => if str_in s guarded then JStr s else JStr (convert s)
  | JList l => JList (map (to_taiwan_traditional guarded) l)
  | JObj m => JObj (map (λ kv, (fst kv, to_taiwan_traditional guarded (snd kv))) m)
  | _ => value
  end.

(** [value[key] = value[key].strip()] *)
Definition strip_key (key : str) (m : list (str * json)) : result verror (list (str * json)) :=
  let* j := get_or key m in
  match j with JStr s => Ok (assoc_set key (JStr (strip s)) m) | _ => Raise TypeError end.

(** A rotation that is unknown must be ambiguous, and missing cues stand alone. *)
Definition check_orientation (o : list (str * json)) : result verror unit :=
  let* rot := get_or (u "rotation_cw") o in
  let* amb := get_or (u "ambiguous") o in
  raise_if (match rot with JNull => negb (truthy amb) | _ => false end)
    (AnalysisValidationError (u "VLM-004")) ;;;
  let* ev := get_or (u "evidence") o in
  if evidence_has insufficient ev then
    let* conf := get_or (u "confidence") o in
    raise_if (negb (match ev with JList [_] => true | _ => false end)
              || negb (match rot with JNull => true | _ => false end)
              || negb (truthy amb) || num_ltb half conf)
      (AnalysisValidationError (u "VLM-004"))
  else Ok tt.

Definition orientation_of (m : list (str * json)) : result verror (list (str * json)) :=
  let* j := get_or (u "visual_orientation") m in
  match j with JObj o => Ok o | _ => Raise TypeError end.

Definition schema_of_version (version : Z) : schema :=
  if version =? LEGACY_SCHEMA_VERSION then LEGACY_V4_JSON_SCHEMA
  else if version =? PREVIOUS_SCHEMA_VERSION then V5_ANALYSIS_JSON_SCHEMA
  else ANALYSIS_JSON_SCHEMA.

Definition validate_analysis_result (raw : raw_response) (accepted_versions : list Z)
  : result verror json :=
  let* raw := decode_raw (u "VLM-003") raw in
  _validate_unicode raw ;;;
  match to_taiwan_traditional PROTOCOL_ENUM_VALUES raw with
  | JObj m =>
      match assoc_get (u "schema_version") m with
      | Some (JInt version) =>
          raise_if (negb (existsb (Z.eqb version) accepted_versions)) (AnalysisValidationError (u "VLM-004")) ;;;
          let m := if version =? SCHEMA_VERSION then alter_key (u "side_caption") strip_text m else m in
          _validate (schema_of_version version) (JObj m) ;;;
          let* o := orientation_of m in
          check_orientation o ;;;
          let* m := (if version =? LEGACY_SCHEMA_VERSION then strip_key (u "caption") m else Ok m) in
          let* m := strip_key (u "side_caption") m in
          Ok (JObj m)
      | _ => invalid
      end
  | _ => invalid
  end.

Definition validate_model_response (raw : raw_response) (controls : option caption_controls)
    (schema_version : Z) : result verror json :=
  let* raw := decode_raw (u "VLM-004") raw in
  let raw := if schema_version =? SCHEMA_VERSION then in_object (assoc_del (u "landmark")) raw else raw in
  _validate_unicode raw ;;;
  let value := to_taiwan_traditional PROTOCOL_ENUM_VALUES raw in
  let value := if schema_version =? SCHEMA_VERSION then in_object repair_v6 value else value in
  let* s := json_schema_for_stage (u "single") controls schema_version in
  _validate s value ;;;
  match value with
  | JObj m =>
      let* o := orientation_of m in
      let* o := settle_orientation o in
      validate_analysis_result (RawValue (JObj (assoc_set (u "visual_orientation") (JObj o) m)))
        [schema_version]
  | _ => invalid
  end.
End conversion.
