(* ===== verification/SchemaProps.v ===== *)
(** * What the response gates guarantee

    A result that passes [validate_analysis_result] is a typed analysis
    ([typed_analysis]): exactly the fields of its version, every number finite
    and in range, every code in its enumeration without repetition, a bounded
    caption, and a coherent orientation.  The repairs of
    [validate_model_response] never touch scores or safety fields and never
    invent a rotation or raise its confidence. *)

From S2P Require Import Prelude PyStr PyFloat Json Schema.
Local Open Scope Z_scope.

(** ** Types of the accepted fields *)

Definition is_number (lo hi : Z) (j : json) : Prop :=
  (∃ z, j = JInt z ∧ lo ≤ z ≤ hi) ∨
  (∃ f, j = JFloat f ∧ ffinite f = true ∧ fleb (f64_of_Z lo) f = true ∧ fleb f (f64_of_Z hi) = true).
Definition is_integer (lo hi : Z) (j : json) : Prop := ∃ z, j = JInt z ∧ lo ≤ z ≤ hi.
Definition is_codes (values : list str) (lo hi : Z) (j : json) : Prop :=
  ∃ l, j = JList (map JStr l) ∧ lo ≤ Z.of_nat (length l) ≤ hi ∧ NoDup l ∧ Forall (λ c, c ∈ values) l.
Definition is_code (values : list str) (j : json) : Prop := ∃ c, j = JStr c ∧ c ∈ values.
(** A stripped text whose length is in range. *)
Definition is_text (lo hi : Z) (j : json) : Prop :=
  ∃ s, j = JStr s ∧ lo ≤ slen s ≤ hi ∧ strip s = s.
Definition field (m : list (str * json)) (key : string) (P : json → Prop) : Prop :=
  ∃ j, assoc_get (u key) m = Some j ∧ P j.

(** Safety verdicts: one flag and one confidence per code. *)
Definition is_content_filter (j : json) : Prop :=
  ∃ m, j = JObj m ∧ ∀ code, code ∈ CONTENT_FILTER_CODES →
    ∃ c, assoc_get code m = Some (JObj c) ∧ field c "detected" (λ d, ∃ b, d = JBool b)
         ∧ field c "confidence" (is_number 0 1).

Record orientation_at (o : list (str * json)) (rot : option Z) (amb : bool) (conf : json)
    (ev : list str) : Prop := {
  oa_rotation : assoc_get (u "rotation_cw") o = Some (from_option JInt JNull rot);
  oa_ambiguous : assoc_get (u "ambiguous") o = Some (JBool amb);
  oa_confidence : assoc_get (u "confidence") o = Some conf;
  oa_evidence : assoc_get (u "evidence") o = Some (JList (map JStr ev));
  oa_quarter : ∀ z, rot = Some z → z ∈ [0; 90; 180; 270];
  oa_unit : is_number 0 1 conf;
  oa_some : 1 ≤ Z.of_nat (length ev) ≤ 6;
  oa_nodup : NoDup ev;
  oa_codes : Forall (λ c, c ∈ ORIENTATION_EVIDENCE) ev;
}.

(** Unknown rotations are ambiguous, and missing cues come alone with a
    confidence of at most one half. *)
Definition coherent (rot : option Z) (amb : bool) (conf : json) (ev : list str) : Prop :=
  (rot = None → amb = true) ∧
  (insufficient ∈ ev → ev = [insufficient] ∧ rot = None ∧ amb = true ∧ num_ltb half conf = false).
Definition is_orientation (j : json) : Prop :=
  ∃ o rot amb conf ev, j = JObj o ∧ orientation_at o rot amb conf ev ∧ coherent rot amb conf ev.

Definition caption_range (version : Z) : Z * Z :=
  if version =? SCHEMA_VERSION then (1, 20) else (8, 16).

Definition fields_of (version : Z) : list str :=
  map u ["schema_version"; "types"; "memory_score"; "visual_score"; "special_level"; "side_caption";
         "content_filter"; "visual_orientation"]%string
  ++ map u (if version =? 4 then ["special_codes"; "people_count"; "caption"; "subject_position";
                                  "text_safe_area"]%string
            else if version =? 5 then [] else ["display_exclusion"]%string).

Record typed_analysis (version : Z) (m : list (str * json)) : Prop := {
  ta_supported : version ∈ SUPPORTED_ANALYSIS_SCHEMA_VERSIONS;
  ta_fields : ∀ k, k ∈ map fst m ↔ k ∈ fields_of version;
  ta_version : field m "schema_version" (λ j, j = JInt version);
  ta_types : field m "types" (is_codes ALLOWED_TYPES 1 3);
  ta_memory : field m "memory_score" (is_number 0 100);
  ta_visual : field m "visual_score" (is_number 0 100);
  ta_special : field m "special_level" (is_integer 0 4);
  ta_caption : field m "side_caption" (is_text (fst (caption_range version)) (snd (caption_range version)));
  ta_filter : field m "content_filter" is_content_filter;
  ta_orientation : field m "visual_orientation" is_orientation;
  ta_exclusion : version = 6 → field m "display_exclusion" (λ j, ∃ d, j = JObj d
    ∧ field d "category" (is_code DISPLAY_EXCLUSION_CATEGORIES) ∧ field d "confidence" (is_number 0 1));
  ta_legacy : version = 4 → field m "special_codes" (is_codes SPECIAL_CODES 0 2)
    ∧ field m "people_count" (is_integer 0 10000) ∧ field m "caption" (is_text 10 100)
    ∧ field m "subject_position" (is_code POSITIONS) ∧ field m "text_safe_area" (is_code (POSITIONS ++ [u "none"]));
}.

(** ** Members of objects *)

Lemma assoc_get_map {V W} (f : V → W) k (m : list (str * V)) :
  assoc_get k (map (λ kv, (fst kv, f (snd kv))) m) = option_map f (assoc_get k m).
Proof. induction m as [|[k' v] m IH]; simpl; [done|]. by destruct (str_eqb k k'). Qed.

Lemma assoc_get_del_ne {V} k k' (m : list (str * V)) : k ≠ k' → assoc_get k (assoc_del k' m) = assoc_get k m.
Proof.
  intros Hne. induction m as [|[k2 v] m IH]; simpl; [done|].
  destruct (str_eqb k' k2) eqn:E; simpl; [|by rewrite IH].
  bprop. subst. rewrite IH. by destruct (str_eqb k k2) eqn:E; bprop.
Qed.

Lemma alter_key_ne k k' f m : k ≠ k' → assoc_get k (alter_key k' f m) = assoc_get k m.
Proof. intros. unfold alter_key. destruct (assoc_get k' m); [by apply assoc_get_set_ne|done]. Qed.

Lemma alter_key_at k f m : assoc_get k (alter_key k f m) = option_map f (assoc_get k m).
Proof. unfold alter_key. destruct (assoc_get k m) eqn:E; simpl; [apply assoc_get_set|done]. Qed.

Lemma alter_key_fields k f m : map fst (alter_key k f m) = map fst m.
Proof. unfold alter_key. destruct (assoc_get k m) eqn:E; [|done]. apply assoc_set_keys. by rewrite E. Qed.

Lemma same_keys_spec a b : same_keys a b = true ↔ ∀ k, k ∈ a ↔ k ∈ b.
Proof.
  unfold same_keys. rewrite Bool.andb_true_iff, !forallb_forall. setoid_rewrite <- list_elem_of_In.
  setoid_rewrite str_in_elem. naive_solver.
Qed.

Lemma for_each_ok {A} (f : A → result verror unit) l :
  for_each f l = Ok tt ↔ ∀ x, x ∈ l → f x = Ok tt.
Proof.
  induction l as [|y l IH]; simpl.
  - split; [intros _ x Hx; by apply elem_of_nil in Hx|done].
  - setoid_rewrite elem_of_cons. destruct (f y) as [[]|e] eqn:E; simpl; [rewrite IH; naive_solver|].
    split; [done|]. intros H. specialize (H y (or_introl eq_refl)). congruence.
Qed.

(** ** Inversion of the validator, one lemma per schema *)

Lemma validate_object req props v :
  _validate (SObject req props) v = Ok tt →
  ∃ m, v = JObj m ∧ (∀ k, k ∈ map fst m ↔ k ∈ req) ∧
    ∀ k j, (k, j) ∈ m → ∃ s, assoc_get k props = Some s ∧ _validate s j = Ok tt.
Proof.
  destruct v as [| | | | | |m]; try done. cbn [_validate]. intros H. res_inv.
  apply Bool.negb_false_iff in H. rewrite same_keys_spec in H. exists m. split; [done|]. split; [done|].
  intros k j Hin. rewrite for_each_ok in H0. specialize (H0 _ Hin). simpl in H0.
  rewrite (assoc_get_map _validate k props) in H0. destruct (assoc_get k props) as [s|]; simpl in H0; [|done].
  by exists s.
Qed.

Lemma object_field req props m k s :
  _validate (SObject req props) (JObj m) = Ok tt → str_in k req = true → assoc_get k props = Some s →
  ∃ j, assoc_get k m = Some j ∧ _validate s j = Ok tt.
Proof.
  intros (m' & [= <-] & Hk & Hf)%validate_object Hin Hs. apply str_in_elem in Hin.
  apply Hk, assoc_get_In in Hin. destruct Hin as [j Hj]. exists j. split; [done|].
  destruct (Hf _ _ (assoc_get_elem _ _ _ Hj)) as (s' & Hs' & Hv). congruence.
Qed.

Lemma check_range_number lo hi j :
  check_range j (Some lo) (Some hi) = Ok tt → is_number lo hi j.
Proof.
  unfold check_range, is_number. simpl. destruct (negb _) eqn:E; [done|]. intros H. res_inv.
  destruct j; simpl in *; try done; bprop.
  - left. exists z. split; [done|lia].
  - right. exists f. injection H as Hf. rewrite Hf in *. destruct x; [|done]. naive_solver.
Qed.

Lemma validate_number lo hi j : _validate (SNumber (Some lo) (Some hi)) j = Ok tt → is_number lo hi j.
Proof. destruct j; try done; apply check_range_number. Qed.

Lemma validate_int_range lo hi j : _validate (int_range lo hi) j = Ok tt → is_integer lo hi j.
Proof.
  destruct j; try done. cbn. intros H. apply (check_range_number lo hi) in H.
  destruct H as [(z' & Hz & ?)|(f & Hf & _)]; [|done]. injection Hz as <-. by exists z.
Qed.

Lemma validate_int_const c j : _validate (int_const c) j = Ok tt → j = JInt c.
Proof. destruct j; try done. cbn. intros H. res_inv. bprop. destruct H as [H|?]; [|done]. bprop. by subst. Qed.

Lemma validate_int_enum l j : _validate (SInteger None (Some l) None None) j = Ok tt → ∃ z, j = JInt z ∧ z ∈ l.
Proof.
  destruct j; try done. cbn. intros H. exists z. split; [done|]. res_inv. bprop.
  apply existsb_exists in H as (y & Hy & ->%Z.eqb_eq). by apply list_elem_of_In.
Qed.

Lemma validate_bool j : _validate SBoolean j = Ok tt → ∃ b, j = JBool b.
Proof. destruct j; naive_solver. Qed.

Lemma validate_enum l a b j : _validate (SString (Some l) a b) j = Ok tt → is_code l j.
Proof. destruct j; try done. cbn. intros H. res_inv. bprop. by exists s. Qed.

Lemma validate_text lo hi j :
  _validate (text_between lo hi) j = Ok tt → ∃ s, j = JStr s ∧ lo ≤ slen (strip s) ≤ hi.
Proof. destruct j; try done. cbn. unfold check_length. simpl. intros H. res_inv. bprop. exists s. split; [done|lia]. Qed.

Lemma all_distinct_strings l : all_distinct (map JStr l) = true → NoDup l.
Proof.
  induction l as [|x l IH]; simpl; [constructor|]. intros [H1 H2]%andb_prop.
  apply NoDup_cons. split; [|auto]. apply Bool.negb_true_iff in H1. intros Hin.
  assert (existsb (scalar_eqb (JStr x)) (map JStr l) = true); [|congruence].
  apply existsb_exists. exists (JStr x). split; [apply in_map; by apply list_elem_of_In|].
  apply str_eqb_refl.
Qed.

Lemma codes_strings l js :
  for_each (_validate (SString (Some l) None None)) js = Ok tt →
  ∃ cs, js = map JStr cs ∧ Forall (λ c, c ∈ l) cs.
Proof.
  induction js as [|j js IH]; [by exists []|]. cbn [for_each]. intros H. res_inv. destruct x.
  destruct (validate_enum _ _ _ _ H) as (c & -> & Hc). destruct (IH H0) as (cs & -> & Hf).
  exists (c :: cs). split; [done|by constructor].
Qed.

Lemma validate_codes values lo hi j : _validate (_enum_array values lo hi) j = Ok tt → is_codes values lo hi j.
Proof.
  destruct j as [| | | | |js|]; try done. cbn [_validate _enum_array]. intros H. res_inv.
  destruct x0. apply codes_strings in H0 as (cs & -> & Hf). unfold check_unique in H1.
  apply rbind_ok in H1 as ([] & _ & Hd%raise_if_ok%Bool.negb_false_iff%all_distinct_strings).
  apply Bool.negb_false_iff in H. bprop. rewrite length_map in H.
  exists cs. split; [done|]. split; [lia|]. split; [done|].
  eapply List.Forall_impl; [|exact Hf]. intros c Hc. by apply sort_by_elem in Hc.
Qed.

Lemma validate_rotation l j :
  _validate (SAnyOf [SInteger None (Some l) None None; SNull]) j = Ok tt →
  ∃ rot, j = from_option JInt JNull rot ∧ ∀ z, rot = Some z → z ∈ l.
Proof.
  change (_validate (SAnyOf _) j) with
    (any_of [_validate (SInteger None (Some l) None None) j; _validate SNull j]).
  destruct (_validate (SInteger None (Some l) None None) j) as [[]|e] eqn:E; cbn [any_of].
  - intros _. apply validate_int_enum in E as (z & -> & Hz). exists (Some z). split; [done|]. by intros ? [= <-].
  - destruct j; cbn; destruct e; try done. intros _. by exists None.
Qed.

(** Field [k] of a validated object is present and validated by its schema. *)
Ltac get_field H k Hj Hv :=
  let j := fresh "j" in let s := fresh "s" in
  evar (s : schema);
  destruct (object_field _ _ _ (u k) s H) as (j & Hj & Hv);
  [vm_compute; reflexivity|subst s; reflexivity|subst s].

Lemma validate_filter j : _validate content_filter_schema j = Ok tt → is_content_filter j.
Proof.
  intros H. destruct (validate_object _ _ _ H) as (m & -> & _ & _). exists m. split; [done|].
  intros code Hc. set (s := _object [(u "detected", SBoolean); (u "confidence", unit_interval)]).
  destruct (object_field _ _ _ code s H) as (j & Hj & Hv).
  - apply str_in_elem, sort_by_elem. rewrite map_map, map_id, sort_by_elem. done.
  - assert (Hm : ∀ l, code ∈ l → assoc_get code (map (λ c, (c, s)) l) = Some s).
    { induction l as [|c l IH]; simpl; [intros []%elem_of_nil|]. intros Hin.
      destruct (str_eqb code c) eqn:E; [done|]. bprop. apply IH. by apply elem_of_cons in Hin as [?|?]. }
    apply Hm. by rewrite sort_by_elem.
  - destruct (validate_object _ _ _ Hv) as (c & -> & _ & _). exists c. split; [done|].
    get_field Hv "detected"%string Hd Hdv. get_field Hv "confidence"%string Hf Hfv.
    split; eexists; split; [exact Hd|by apply validate_bool|exact Hf|by apply validate_number].
Qed.

Lemma validate_orientation j :
  _validate visual_orientation_schema j = Ok tt → ∃ o rot amb conf ev, j = JObj o ∧ orientation_at o rot amb conf ev.
Proof.
  intros H. destruct (validate_object _ _ _ H) as (o & -> & _ & _).
  get_field H "rotation_cw"%string Hr Hrv. get_field H "ambiguous"%string Ha Hav.
  get_field H "confidence"%string Hc Hcv. get_field H "evidence"%string He Hev.
  apply validate_rotation in Hrv as (rot & -> & Hq). apply validate_bool in Hav as (amb & ->).
  apply validate_number in Hcv. apply validate_codes in Hev as (ev & -> & Hn & Hd & Hf).
  by exists o, rot, amb, j1, ev.
Qed.

(** ** Orientations *)

Lemma evidence_has_elem code ev : evidence_has code (JList (map JStr ev)) = true ↔ code ∈ ev.
Proof.
  simpl. rewrite existsb_exists. setoid_rewrite in_map_iff. setoid_rewrite <- list_elem_of_In.
  split; [intros (? & (c & <- & Hc) & ->%str_eqb_eq); done|].
  intros H. exists (JStr code). split; [by exists code|]. apply str_eqb_refl.
Qed.

Lemma from_rotation rot : (match from_option JInt JNull rot with JNull => true | _ => false end) = bool_decide (rot = None).
Proof. by destruct rot. Qed.

Lemma check_orientation_coherent o rot amb conf ev :
  orientation_at o rot amb conf ev → check_orientation o = Ok tt ↔ coherent rot amb conf ev.
Proof.
  intros [Hr Ha Hc He _ _ _ _ _]. unfold check_orientation, get_or. rewrite Hr, Ha, He, Hc. cbn [rbind].
  pose proof (evidence_has_elem insufficient ev) as Hi. unfold coherent.
  destruct (evidence_has _ _) eqn:E.
  - assert (Hin : insufficient ∈ ev) by (by apply Hi).
    generalize (num_ltb half conf) as late. intros late.
    split.
    + destruct rot as [z|], amb; simpl; try done;
        destruct ev as [|c [|d ev]]; simpl; try done; destruct late; simpl; try done.
      apply list_elem_of_singleton in Hin as <-. done.
    + intros [_ H2]. destruct (H2 Hin) as (-> & -> & -> & ->). done.
  - assert (insufficient ∉ ev) by (intros Hx%Hi; congruence).
    destruct rot, amb; simpl; (split; [try done; by intros _|]); intros [Hx _]; try done.
    by specialize (Hx eq_refl).
Qed.

(** ** Accepted results are typed *)

Ltac key_ne := apply str_eqb_neq; vm_compute; reflexivity.

Lemma field_intro m k j (P : json → Prop) : assoc_get (u k) m = Some j → P j → field m k P.
Proof. intros. by exists j. Qed.

(** Validation up to the spaces around captions. *)
Definition is_padded_text (lo hi : Z) (j : json) : Prop := ∃ s, j = JStr s ∧ lo ≤ slen (strip s) ≤ hi.

Ltac typed_field H k tac :=
  let Hj := fresh in let Hv := fresh in
  get_field H k Hj Hv; refine (field_intro _ _ _ _ Hj _); clear Hj; tac Hv.

Record loosely_typed (version : Z) (m : list (str * json)) : Prop := {
  lt_fields : ∀ k, k ∈ map fst m ↔ k ∈ fields_of version;
  lt_version : field m "schema_version" (λ j, j = JInt version);
  lt_types : field m "types" (is_codes ALLOWED_TYPES 1 3);
  lt_memory : field m "memory_score" (is_number 0 100);
  lt_visual : field m "visual_score" (is_number 0 100);
  lt_special : field m "special_level" (is_integer 0 4);
  lt_caption : field m "side_caption" (is_padded_text (fst (caption_range version)) (snd (caption_range version)));
  lt_filter : field m "content_filter" is_content_filter;
  lt_orientation : field m "visual_orientation"
    (λ j, ∃ o rot amb conf ev, j = JObj o ∧ orientation_at o rot amb conf ev);
  lt_exclusion : version = 6 → field m "display_exclusion" (λ j, ∃ d, j = JObj d
    ∧ field d "category" (is_code DISPLAY_EXCLUSION_CATEGORIES) ∧ field d "confidence" (is_number 0 1));
  lt_legacy : version = 4 → field m "special_codes" (is_codes SPECIAL_CODES 0 2)
    ∧ field m "people_count" (is_integer 0 10000) ∧ field m "caption" (is_padded_text 10 100)
    ∧ field m "subject_position" (is_code POSITIONS) ∧ field m "text_safe_area" (is_code (POSITIONS ++ [u "none"]));
}.

Lemma validate_exclusion j : _validate display_exclusion_schema j = Ok tt → ∃ d, j = JObj d
  ∧ field d "category" (is_code DISPLAY_EXCLUSION_CATEGORIES) ∧ field d "confidence" (is_number 0 1).
Proof.
  intros H. destruct (validate_object _ _ _ H) as (d & -> & _ & _). exists d. split; [done|]. split.
  - typed_field H "category"%string ltac:(fun Hv => apply validate_enum in Hv).
    destruct H1 as (c & -> & Hc). exists c. by rewrite sort_by_elem in Hc.
  - typed_field H "confidence"%string ltac:(fun Hv => by apply validate_number).
Qed.

Ltac common_fields H :=
  constructor;
  [ destruct (validate_object _ _ _ H) as (? & [= <-] & ? & _); intros k;
    etransitivity; [eauto|]; refine (proj1 (same_keys_spec _ _) _ k); vm_compute; reflexivity
  | typed_field H "schema_version"%string ltac:(fun Hv => by apply validate_int_const)
  | typed_field H "types"%string ltac:(fun Hv => by apply validate_codes)
  | typed_field H "memory_score"%string ltac:(fun Hv => by apply validate_number)
  | typed_field H "visual_score"%string ltac:(fun Hv => by apply validate_number)
  | typed_field H "special_level"%string ltac:(fun Hv => by apply validate_int_range)
  | typed_field H "side_caption"%string ltac:(fun Hv => by apply validate_text)
  | typed_field H "content_filter"%string ltac:(fun Hv => by apply validate_filter)
  | typed_field H "visual_orientation"%string ltac:(fun Hv => by apply validate_orientation)
  | intros Hver; try discriminate Hver; clear Hver
  | intros Hver; try discriminate Hver; clear Hver ].

Lemma validated_loosely_typed version m :
  version ∈ SUPPORTED_ANALYSIS_SCHEMA_VERSIONS →
  _validate (schema_of_version version) (JObj m) = Ok tt → loosely_typed version m.
Proof.
  intros Hver H. unfold SUPPORTED_ANALYSIS_SCHEMA_VERSIONS in Hver.
  rewrite !elem_of_cons, elem_of_nil in Hver. destruct Hver as [->|[->|[->|[]]]]; common_fields H.
  - split_and!;
      [ typed_field H "special_codes"%string ltac:(fun Hv => by apply validate_codes)
      | typed_field H "people_count"%string ltac:(fun Hv => by apply validate_int_range)
      | typed_field H "caption"%string ltac:(fun Hv => by apply validate_text)
      | typed_field H "subject_position"%string ltac:(fun Hv => by apply validate_enum in Hv)
      | typed_field H "text_safe_area"%string ltac:(fun Hv => by apply validate_enum in Hv) ].
  - typed_field H "display_exclusion"%string ltac:(fun Hv => by apply validate_exclusion).
Qed.

Lemma field_set_ne m k k' j (P : json → Prop) :
  u k ≠ u k' → field m k P → field (assoc_set (u k') j m) k P.
Proof. intros Hne (x & Hx & HP). exists x. by rewrite assoc_get_set_ne. Qed.

Lemma strip_key_typed k m m' (lo hi : Z) :
  strip_key (u k) m = Ok m' → field m k (is_padded_text lo hi) →
  ∃ s, m' = assoc_set (u k) (JStr s) m ∧ is_Some (assoc_get (u k) m) ∧ is_text lo hi (JStr s).
Proof.
  intros H (j & Hj & t & -> & Ht). unfold strip_key, get_or in H. rewrite Hj in H. simpl in H. injection H as <-.
  exists (strip t). rewrite Hj. split_and!; [done|done|]. exists (strip t). by rewrite strip_idemp.
Qed.

Ltac carry H := apply field_set_ne; [key_ne|exact H].

(** The stripped side caption makes a loosely typed result typed (version 5 and 6). *)
Lemma stripped_typed version m m' :
  version ∈ SUPPORTED_ANALYSIS_SCHEMA_VERSIONS → loosely_typed version m →
  (version = 4 → field m "caption" (is_text 10 100)) →
  field m "visual_orientation" is_orientation →
  strip_key (u "side_caption") m = Ok m' → typed_analysis version m'.
Proof.
  intros Hver [] Hcap Hor Hs. destruct (strip_key_typed _ _ _ _ _ Hs lt_caption0) as (t & -> & Hsome & Ht).
  constructor; try (carry lt_version0 || carry lt_types0 || carry lt_memory0 || carry lt_visual0
    || carry lt_special0 || carry lt_filter0 || carry Hor).
  - done.
  - by rewrite assoc_set_keys.
  - exists (JStr t). by rewrite assoc_get_set.
  - intros E. specialize (lt_exclusion0 E). carry lt_exclusion0.
  - intros E. specialize (Hcap E). destruct (lt_legacy0 E) as (H1 & H2 & _ & H4 & H5).
    split_and!; [carry H1|carry H2|carry Hcap|carry H4|carry H5].
Qed.

(** The caption of version 4 is stripped first; every other field is untouched. *)
Lemma caption_stripped m m' :
  loosely_typed 4 m → field m "visual_orientation" is_orientation → strip_key (u "caption") m = Ok m' →
  loosely_typed 4 m' ∧ field m' "caption" (is_text 10 100) ∧ field m' "visual_orientation" is_orientation.
Proof.
  intros [] Hor Hs. destruct (lt_legacy0 eq_refl) as (H1 & H2 & H3 & H4 & H5).
  destruct (strip_key_typed _ _ _ _ _ Hs H3) as (t & -> & Hsome & Ht).
  assert (Hc : field (assoc_set (u "caption") (JStr t) m) "caption" (is_text 10 100)).
  { exists (JStr t). by rewrite assoc_get_set. }
  split_and!; [|done|carry Hor].
  constructor; try (carry lt_version0 || carry lt_types0 || carry lt_memory0 || carry lt_visual0
    || carry lt_special0 || carry lt_caption0 || carry lt_filter0 || carry lt_orientation0); try done.
  - by rewrite assoc_set_keys.
  - intros _. split_and!; [carry H1|carry H2| |carry H4|carry H5].
    destruct Hc as (j & Hj & s & -> & Hr & Hst). exists (JStr s). split; [done|]. exists s. by rewrite Hst.
Qed.

Lemma validated_orientation version m o :
  loosely_typed version m → orientation_of m = Ok o → check_orientation o = Ok tt →
  field m "visual_orientation" is_orientation.
Proof.
  intros [] Ho Hc. destruct lt_orientation0 as (j & Hj & o' & rot & amb & conf & ev & -> & Hat).
  unfold orientation_of, get_or in Ho. rewrite Hj in Ho. injection Ho as ->.
  exists (JObj o). split; [done|]. exists o, rot, amb, conf, ev.
  split_and!; [done|done|]. by apply (check_orientation_coherent o).
Qed.

Lemma schema_versions version m :
  assoc_get (u "schema_version") m = Some (JInt version) →
  _validate (schema_of_version version) (JObj m) = Ok tt → version ∈ SUPPORTED_ANALYSIS_SCHEMA_VERSIONS.
Proof.
  intros Hg H. unfold SUPPORTED_ANALYSIS_SCHEMA_VERSIONS, schema_of_version in *.
  destruct (version =? LEGACY_SCHEMA_VERSION) eqn:E4; [bprop; subst; by left|].
  destruct (version =? PREVIOUS_SCHEMA_VERSION) eqn:E5; [bprop; subst; right; by left|].
  get_field H "schema_version"%string Hj Hv. apply validate_int_const in Hv. subst.
  rewrite Hg in Hj. injection Hj as ->. do 2 right; by left.
Qed.

Lemma accepted_typed convert raw accepted v :
  validate_analysis_result convert raw accepted = Ok v →
  ∃ version m, v = JObj m ∧ version ∈ accepted ∧ typed_analysis version m.
Proof.
  unfold validate_analysis_result. intros H. res_inv.
  destruct (to_taiwan_traditional _ _ _) as [| | | | | |m0]; try done.
  destruct (assoc_get (u "schema_version") m0) as [[| |version| | | |]|] eqn:Hg; try done. res_inv.
  set (m1 := if version =? SCHEMA_VERSION then _ else _) in *.
  assert (Hg1 : assoc_get (u "schema_version") m1 = Some (JInt version)).
  { unfold m1. destruct (version =? SCHEMA_VERSION); [|done]. rewrite alter_key_ne; [done|key_ne]. }
  match goal with H : _validate _ _ = Ok ?x |- _ => destruct x; rename H into Hv end.
  pose proof (schema_versions _ _ Hg1 Hv) as Hver. pose proof (validated_loosely_typed _ _ Hver Hv) as Hl.
  match goal with H : check_orientation _ = Ok ?x |- _ => destruct x; rename H into Hc end.
  match goal with H : orientation_of _ = Ok _ |- _ => pose proof (validated_orientation _ _ _ Hl H Hc) as Hor end.
  match goal with H : strip_key _ _ = Ok ?m |- _ => rename H into Hs; exists version, m end.
  split; [done|]. split.
  { match goal with H : negb (existsb _ accepted) = false |- _ =>
      apply Bool.negb_false_iff, existsb_exists in H as (y & Hy & ->%Z.eqb_eq) end.
    by apply list_elem_of_In. }
  match goal with H : (if version =? LEGACY_SCHEMA_VERSION then _ else _) = Ok _ |- _ => rename H into Hcap end.
  destruct (version =? LEGACY_SCHEMA_VERSION) eqn:E; bprop.
  - subst version. destruct (caption_stripped _ _ Hl Hor Hcap) as (? & ? & ?). by eapply stripped_typed.
  - injection Hcap as <-. by eapply stripped_typed.
Qed.

(** C25. Whatever text or value is offered, a result that [validate_analysis_result]
    returns is a typed analysis of one of the accepted, supported versions:
    exactly the fields of that version; one to three distinct categories;
    finite scores in 0..100; a stripped side caption inside the version's
    length limits; a verdict with a confidence in 0..1 for every safety code;
    and a coherent orientation, in which an unknown rotation is ambiguous and
    missing visual cues stand alone with confidence at most one half. *)
Theorem validated_result_typed convert raw accepted v :
  validate_analysis_result convert raw accepted = Ok v →
  ∃ version m, v = JObj m ∧ version ∈ accepted ∧ typed_analysis version m.
Proof. apply accepted_typed. Qed.

(** ** Repairs are conservative *)

Fixpoint no_strings (j : json) : bool :=
  match j with
  | JStr _ => false
  | JList l => forallb no_strings l
  | JObj m => forallb (λ kv, no_strings (snd kv)) m
  | _ => true
  end.

(** Conversion rewrites texts only. *)
Lemma conversion_texts_only convert g j :
  no_strings (to_taiwan_traditional convert g j) = true → to_taiwan_traditional convert g j = j.
Proof.
  induction j as [| | | |s|l IH|m IH] using json_nested_ind; simpl; try done.
  - by destruct (str_in s g).
  - intros H. f_equal. induction IH as [|x l Hx Hl IH']; simpl in *; [done|]. bprop.
    destruct H as [H1 H2]. by rewrite Hx, IH'.
  - intros H. f_equal. induction IH as [|[k x] l Hx Hl IH']; simpl in *; [done|]. bprop.
    destruct H as [H1 H2]. by rewrite Hx, IH'.
Qed.

Lemma number_no_strings lo hi j : is_number lo hi j → no_strings j = true.
Proof. by intros [(? & -> & _)|(? & -> & _)]. Qed.

Lemma no_strings_object req props j :
  _validate (SObject req props) j = Ok tt →
  (∀ k s x, assoc_get k props = Some s → _validate s x = Ok tt → no_strings x = true) → no_strings j = true.
Proof.
  intros (m & -> & _ & Hf)%validate_object Hs. simpl. apply forallb_forall.
  intros [k x] Hin%list_elem_of_In. destruct (Hf _ _ Hin) as (s & ? & ?). by eapply Hs.
Qed.

Lemma filter_no_strings j : _validate content_filter_schema j = Ok tt → no_strings j = true.
Proof.
  intros H. eapply no_strings_object; [exact H|]. clear j H. intros k s x Hs Hx.
  assert (Hin : s = _object [(u "detected", SBoolean); (u "confidence", unit_interval)]).
  { apply assoc_get_elem, list_elem_of_In, in_map_iff in Hs as (c & Hc & _). by injection Hc as _ <-. }
  subst s. eapply no_strings_object; [exact Hx|]. clear. intros k s x Hs Hx.
  apply assoc_get_elem in Hs. rewrite !elem_of_cons, elem_of_nil in Hs. destruct Hs as [[= _ ->]|[[= _ ->]|[]]].
  - apply validate_bool in Hx as (b & ->). done.
  - by eapply number_no_strings, validate_number.
Qed.

(** The fields no repair may touch, and the reason each is free of text. *)
Definition untouched : list str :=
  map u ["memory_score"; "visual_score"; "special_level"; "content_filter"]%string.

Lemma untouched_no_strings version m k j :
  version ∈ SUPPORTED_ANALYSIS_SCHEMA_VERSIONS → _validate (schema_of_version version) (JObj m) = Ok tt →
  k ∈ untouched → assoc_get k m = Some j → no_strings j = true.
Proof.
  intros Hver H Hk Hj. unfold SUPPORTED_ANALYSIS_SCHEMA_VERSIONS in Hver.
  rewrite !elem_of_cons, elem_of_nil in Hver.
  unfold untouched in Hk; cbn [map] in Hk; rewrite !elem_of_cons, elem_of_nil in Hk.
  destruct Hver as [->|[->|[->|[]]]], Hk as [->|[->|[->|[->|[]]]]];
    match type of Hj with assoc_get (u ?k) _ = _ => get_field H k Hg Hv end;
    rewrite Hj in Hg; injection Hg as <-;
    first [by apply filter_no_strings | by eapply number_no_strings, validate_number
          | by apply validate_int_range in Hv as (z & -> & _)].
Qed.

(** What [validate_analysis_result] did to an accepted value. *)
Lemma result_inv convert j accepted v :
  validate_analysis_result convert (RawValue j) accepted = Ok v →
  ∃ m0 version m1 m, to_taiwan_traditional convert PROTOCOL_ENUM_VALUES j = JObj m0 ∧ v = JObj m
    ∧ assoc_get (u "schema_version") m0 = Some (JInt version) ∧ version ∈ accepted
    ∧ version ∈ SUPPORTED_ANALYSIS_SCHEMA_VERSIONS
    ∧ _validate (schema_of_version version) (JObj m1) = Ok tt
    ∧ ∀ k, k ≠ u "caption" → k ≠ u "side_caption" →
        assoc_get k m1 = assoc_get k m0 ∧ assoc_get k m = assoc_get k m0.
Proof.
  unfold validate_analysis_result. cbn [decode_raw rbind]. intros H. res_inv.
  destruct (to_taiwan_traditional _ _ _) as [| | | | | |m0] eqn:Htw; try done.
  destruct (assoc_get (u "schema_version") m0) as [[| |version| | | |]|] eqn:Hg; try done. res_inv.
  set (m1 := if version =? SCHEMA_VERSION then _ else _) in *.
  match goal with H : negb (existsb _ accepted) = false |- _ => rename H into Hacc end.
  match goal with H : _validate _ _ = Ok ?x |- _ => destruct x; rename H into Hv end.
  match goal with H : strip_key _ _ = Ok ?m |- _ => rename H into Hs; rename m into mf end.
  match goal with H : (if version =? LEGACY_SCHEMA_VERSION then _ else _) = Ok _ |- _ => rename H into Hcap end.
  assert (H1 : ∀ k, k ≠ u "side_caption" → assoc_get k m1 = assoc_get k m0).
  { intros k Hk. unfold m1. destruct (version =? SCHEMA_VERSION); [|done]. by apply alter_key_ne. }
  assert (Hstrip : ∀ key a b k, strip_key key a = Ok b → k ≠ key → assoc_get k b = assoc_get k a).
  { intros key a b k Hst Hne. unfold strip_key, get_or in Hst.
    destruct (assoc_get key a) as [[]|]; try done. injection Hst as <-.
    by apply assoc_get_set_ne. }
  exists m0, version, m1, mf. split_and!; try done.
  - apply Bool.negb_false_iff, existsb_exists in Hacc as (y & Hy & ->%Z.eqb_eq). by apply list_elem_of_In.
  - eapply schema_versions; [|exact Hv]. rewrite H1; [done|key_ne].
  - intros k Hk1 Hk2. split; [by apply H1|]. rewrite (Hstrip _ _ _ _ Hs Hk2).
    destruct (version =? LEGACY_SCHEMA_VERSION); [|injection Hcap as <-; by apply H1].
    rewrite (Hstrip _ _ _ _ Hcap Hk1). by apply H1.
Qed.

Lemma single_schema controls version s :
  json_schema_for_stage (u "single") controls version = Ok s →
  version ∈ [5; 6] ∧ ∃ req props, s = SObject req props ∧ str_in (u "visual_orientation") req = true
    ∧ assoc_get (u "visual_orientation") props = Some visual_orientation_schema.
Proof.
  unfold json_schema_for_stage. change (str_eqb (u "single") (u "provider_contract_level2")) with false.
  cbn [rbind]. destruct (negb _) eqn:Hv; [done|]. intros H.
  assert (Hin : version ∈ [5; 6]).
  { apply Bool.negb_false_iff, orb_prop in Hv. unfold PREVIOUS_SCHEMA_VERSION, SCHEMA_VERSION in Hv.
    rewrite !elem_of_cons. destruct Hv; bprop; lia. }
  split; [done|].
  set (props := if version =? PREVIOUS_SCHEMA_VERSION then v5_properties else v6_properties) in *.
  assert (Hp : assoc_get (u "visual_orientation") props = Some visual_orientation_schema).
  { unfold props. by destruct (version =? _). }
  assert (Hr : str_in (u "visual_orientation") (sort_by str_leb (map fst props)) = true).
  { unfold props. by destruct (version =? _). }
  assert (Hs : ∃ q, s = SObject (sort_by str_leb (map fst props)) q ∧
    (q = props ∨ ∃ lo hi, q = set_side_caption lo hi props)).
  { clearbody props. repeat case_in H; injection H as <-; eauto 6. }
  destruct Hs as (q & -> & Hq). exists (sort_by str_leb (map fst props)), q. split_and!; [done|done|].
  destruct Hq as [->|(lo & hi & ->)]; [done|]. unfold set_side_caption. rewrite assoc_get_set_ne; [done|key_ne].
Qed.

(** Settling keeps the rotation or drops it, and never raises the confidence. *)
Lemma settle_conservative o o' rot amb conf ev :
  orientation_at o rot amb conf ev → settle_orientation o = Ok o' →
  ∃ rot' conf', assoc_get (u "rotation_cw") o' = Some (from_option JInt JNull rot') ∧ (rot' = rot ∨ rot' = None)
    ∧ assoc_get (u "confidence") o' = Some conf' ∧ (conf' = conf ∨ conf' = half ∧ num_ltb half conf = true).
Proof.
  intros [Hr Ha Hc He _ _ _ _ _] H. unfold settle_orientation, get_or in H. rewrite Hr in H. cbn [rbind] in H.
  set (o1 := match from_option JInt JNull rot with JNull => _ | _ => o end) in *.
  assert (H1 : ∀ k, k ≠ u "ambiguous" → assoc_get k o1 = assoc_get k o).
  { intros k Hk. unfold o1. destruct rot; simpl; [done|]. by apply assoc_get_set_ne. }
  rewrite (H1 (u "evidence")), He in H by key_ne. cbn [rbind] in H.
  destruct (evidence_has _ _).
  - rewrite (H1 (u "confidence")), Hc in H by key_ne. cbn [rbind] in H. injection H as <-.
    exists None, (num_min conf half).
    rewrite !assoc_get_set_ne, assoc_get_set by key_ne. split; [done|]. split; [by right|].
    rewrite assoc_get_set_ne, assoc_get_set by key_ne. split; [done|].
    unfold num_min. destruct (num_ltb half conf); auto.
  - injection H as <-. exists rot, conf. rewrite !H1 by key_ne. auto 6.
Qed.

(** The orientation offered, after the repairs of [repair_v6]. *)
Definition deduped (version : Z) (m : list (str * json)) : list (str * json) :=
  if version =? SCHEMA_VERSION then repair_v6 m else m.

Lemma deduped_other version m k :
  k ≠ u "types" → k ≠ u "side_caption" → k ≠ u "visual_orientation" → assoc_get k (deduped version m) = assoc_get k m.
Proof.
  intros. unfold deduped. destruct (_ =? _); [|done]. unfold repair_v6. by rewrite !alter_key_ne.
Qed.

Lemma deduped_orientation version m o :
  assoc_get (u "visual_orientation") (deduped version m) = Some (JObj o) →
  ∃ o0, assoc_get (u "visual_orientation") m = Some (JObj o0) ∧
    ∀ k, k ≠ u "evidence" → assoc_get k o = assoc_get k o0.
Proof.
  unfold deduped. destruct (_ =? _); [|by exists o]. unfold repair_v6. rewrite alter_key_at.
  rewrite !alter_key_ne by key_ne. destruct (assoc_get _ m) as [[]|]; simpl; try done.
  intros [= <-]. eexists. split; [done|]. intros k Hk. by apply alter_key_ne.
Qed.

Lemma get_converted convert g k m :
  assoc_get k (map (λ kv, (fst kv, to_taiwan_traditional convert g (snd kv))) m)
  = option_map (to_taiwan_traditional convert g) (assoc_get k m).
Proof. apply assoc_get_map. Qed.

(** Converting twice what ends up free of text changed nothing. *)
Lemma converted_same convert g x y :
  option_map (to_taiwan_traditional convert g) x = Some y → no_strings y = true → x = Some y.
Proof.
  destruct x as [x|]; [|done]. simpl. intros [= <-] H. by rewrite conversion_texts_only.
Qed.

Lemma rotation_no_strings rot : no_strings (from_option JInt JNull rot) = true.
Proof. by destruct rot. Qed.

(** What [validate_model_response] did to an accepted response. *)
Lemma model_inv convert raw controls version v :
  validate_model_response convert raw controls version = Ok v →
  ∃ r r1 m2 o2 o3, decode_raw (u "VLM-004") raw = Ok (JObj r) ∧ version ∈ [5; 6]
    ∧ (∀ k, k ≠ u "landmark" → assoc_get k r1 = assoc_get k r)
    ∧ m2 = deduped version (map (λ kv, (fst kv, to_taiwan_traditional convert PROTOCOL_ENUM_VALUES (snd kv))) r1)
    ∧ assoc_get (u "visual_orientation") m2 = Some (JObj o2)
    ∧ _validate visual_orientation_schema (JObj o2) = Ok tt
    ∧ settle_orientation o2 = Ok o3
    ∧ validate_analysis_result convert
        (RawValue (JObj (assoc_set (u "visual_orientation") (JObj o3) m2))) [version] = Ok v.
Proof.
  unfold validate_model_response. intros H. apply rbind_ok in H as (j & Hdec & H).
  apply rbind_ok in H as (_ & _ & H). apply rbind_ok in H as (s & Hs & H). apply rbind_ok in H as ([] & Hv & H).
  destruct (single_schema _ _ _ Hs) as (Hver & req & props & -> & Hreq & Hprops).
  set (j1 := if version =? SCHEMA_VERSION then in_object _ j else j) in *.
  assert (Hj : ∃ r r1, j = JObj r ∧ j1 = JObj r1 ∧ ∀ k, k ≠ u "landmark" → assoc_get k r1 = assoc_get k r).
  { unfold j1 in *. destruct j as [| | | | | |r];
      try (exfalso; revert Hv; destruct (version =? SCHEMA_VERSION);
        cbn [in_object to_taiwan_traditional]; repeat (case_goal; cbn [in_object]); discriminate).
    exists r.
    destruct (version =? SCHEMA_VERSION); simpl; eexists; split_and!; try done. intros. by apply assoc_get_del_ne. }
  destruct Hj as (r & r1 & -> & -> & Hr). cbn [to_taiwan_traditional] in *.
  set (m1 := map _ r1) in *.
  assert (Hd : (if version =? SCHEMA_VERSION then in_object repair_v6 (JObj m1) else JObj m1) = JObj (deduped version m1)).
  { unfold deduped. by destruct (version =? SCHEMA_VERSION). }
  rewrite Hd in *. apply rbind_ok in H as (o2 & Ho2 & H). apply rbind_ok in H as (o3 & Ho3 & H).
  destruct (object_field _ _ _ _ _ Hv Hreq Hprops) as (jo & Hjo & Hov).
  unfold orientation_of, get_or in Ho2. rewrite Hjo in Ho2. destruct jo; try done. injection Ho2 as ->.
  exists r, r1, (deduped version m1), o2, o3. done.
Qed.

(** The untouched fields are fields of every version, and none of the repaired ones. *)
Lemma untouched_disjoint k :
  k ∈ untouched → k ∉ map u ["caption"; "side_caption"; "types"; "landmark"; "visual_orientation"]%string.
Proof.
  intros Hk. assert (forallb (λ k, negb (str_in k (map u ["caption"; "side_caption"; "types"; "landmark";
    "visual_orientation"]%string))) untouched = true) as H by (vm_compute; reflexivity).
  rewrite forallb_forall in H. specialize (H k). apply str_in_false, Bool.negb_true_iff, H. by apply list_elem_of_In.
Qed.

Lemma untouched_fields version k :
  version ∈ SUPPORTED_ANALYSIS_SCHEMA_VERSIONS → k ∈ untouched → k ∈ fields_of version.
Proof.
  intros Hver Hk. assert (forallb (λ v, forallb (λ k, str_in k (fields_of v)) untouched)
    SUPPORTED_ANALYSIS_SCHEMA_VERSIONS = true) as H by (vm_compute; reflexivity).
  rewrite forallb_forall in H. specialize (H version ltac:(by apply list_elem_of_In)).
  rewrite forallb_forall in H. specialize (H k ltac:(by apply list_elem_of_In)). by apply str_in_elem.
Qed.

Lemma untouched_and_orientation convert version r r1 m2 o2 o3 :
  let tw := to_taiwan_traditional convert PROTOCOL_ENUM_VALUES in
  (∀ k, k ≠ u "landmark" → assoc_get k r1 = assoc_get k r) →
  m2 = deduped version (map (λ kv, (fst kv, tw (snd kv))) r1) →
  assoc_get (u "visual_orientation") m2 = Some (JObj o2) →
  _validate visual_orientation_schema (JObj o2) = Ok tt → settle_orientation o2 = Ok o3 →
  let o := map (λ kv, (fst kv, tw (snd kv))) o3 in
  ∃ o0, assoc_get (u "visual_orientation") r = Some (JObj o0)
    ∧ (assoc_get (u "rotation_cw") o = assoc_get (u "rotation_cw") o0
       ∨ assoc_get (u "rotation_cw") o = Some JNull)
    ∧ (assoc_get (u "confidence") o = assoc_get (u "confidence") o0
       ∨ assoc_get (u "confidence") o = Some half
         ∧ ∃ c0, assoc_get (u "confidence") o0 = Some c0 ∧ num_ltb half c0 = true).
Proof.
  intros tw Hr1 -> Ho2 Hov Ho3 o. destruct (deduped_orientation _ _ _ Ho2) as (o1 & Ho1 & Hev).
  rewrite assoc_get_map, Hr1 in Ho1 by key_ne.
  destruct (assoc_get (u "visual_orientation") r) as [[| | | |s| |o0]|] eqn:Ho0; try done.
  { unfold tw in Ho1. cbn [to_taiwan_traditional option_map] in Ho1. by destruct (str_in s PROTOCOL_ENUM_VALUES). }
  injection Ho1 as <-. exists o0. split; [done|].
  destruct (validate_orientation _ Hov) as (? & rot & amb & conf & ev & [= <-] & Hat).
  destruct (settle_conservative _ _ _ _ _ _ Hat Ho3) as (rot' & conf' & Hrot' & Hr & Hconf' & Hc).
  pose proof (number_no_strings _ _ _ (oa_unit _ _ _ _ _ Hat)) as Hnc.
  pose proof (oa_rotation _ _ _ _ _ Hat) as Hrot. pose proof (oa_confidence _ _ _ _ _ Hat) as Hconf.
  rewrite Hev, assoc_get_map in Hrot, Hconf by key_ne.
  apply converted_same in Hrot; [|apply rotation_no_strings]. apply converted_same in Hconf; [|done].
  unfold o. rewrite !assoc_get_map, Hrot', Hconf', Hrot, Hconf. simpl.
  assert (Htn : ∀ r, tw (from_option JInt JNull r) = from_option JInt JNull r) by (by intros []).
  rewrite Htn. split; [destruct Hr as [->| ->]; auto|].
  assert (tw conf' = conf') as ->.
  { destruct Hc as [->|[-> _]]; [|done]. by destruct (oa_unit _ _ _ _ _ Hat) as [(? & -> & _)|(? & -> & _)]. }
  destruct Hc as [->|[-> ?]]; eauto.
Qed.

(** The repairs of [validate_model_response] are conservative: in an
    accepted response the scores, the special level and the whole safety
    verdict are those the model sent, the rotation is the one it sent or none
    at all, and the confidence is the one it sent or is lowered to one half;
    the result is a typed analysis of the requested version. *)
Theorem repairs_are_conservative convert raw controls version v :
  validate_model_response convert raw controls version = Ok v →
  ∃ r m o0 o, decode_raw (u "VLM-004") raw = Ok (JObj r) ∧ v = JObj m ∧ typed_analysis version m
    ∧ (∀ k, k ∈ untouched → assoc_get k m = assoc_get k r)
    ∧ assoc_get (u "visual_orientation") r = Some (JObj o0)
    ∧ assoc_get (u "visual_orientation") m = Some (JObj o)
    ∧ (assoc_get (u "rotation_cw") o = assoc_get (u "rotation_cw") o0
       ∨ assoc_get (u "rotation_cw") o = Some JNull)
    ∧ (assoc_get (u "confidence") o = assoc_get (u "confidence") o0
       ∨ assoc_get (u "confidence") o = Some half
         ∧ ∃ c0, assoc_get (u "confidence") o0 = Some c0 ∧ num_ltb half c0 = true).
Proof.
  intros H. destruct (model_inv _ _ _ _ _ H) as (r & r1 & m2 & o2 & o3 & Hdec & Hver & Hr1 & Hm2 & Ho2 & Hov & Ho3 & Hres).
  destruct (accepted_typed _ _ _ _ Hres) as (ver & m & -> & ->%list_elem_of_singleton & Htyped).
  destruct (result_inv _ _ _ _ Hres) as (m0 & ver & m1 & m' & Htw & [= <-] & _ & ->%list_elem_of_singleton & Hsup & Hv & Hget).
  cbn [to_taiwan_traditional] in Htw. injection Htw as <-.
  destruct (untouched_and_orientation _ _ _ _ _ _ _ Hr1 Hm2 Ho2 Hov Ho3) as (o0 & Ho0 & Hrot & Hconf).
  eexists r, m, o0, _. split_and!; [done|done|done| |done| |exact Hrot|exact Hconf].
  - intros k Hk. assert (Hne : k ∉ map u ["caption"; "side_caption"; "types"; "landmark"; "visual_orientation"]%string).
    { intros Hin. by apply (untouched_disjoint k). }
    cbn [map] in Hne. rewrite !not_elem_of_cons in Hne. destruct Hne as (N1 & N2 & N3 & N4 & N5 & _).
    destruct (Hget k N1 N2) as [Hg1 Hg2]. destruct (assoc_get k m) as [y|] eqn:Hy.
    + assert (Hns : no_strings y = true) by (eapply (untouched_no_strings version m1); [done..|congruence]).
      rewrite assoc_get_map, assoc_get_set_ne in Hg2 by done. symmetry in Hg2.
      apply converted_same in Hg2; [|done]. subst m2. rewrite deduped_other, assoc_get_map, Hr1 in Hg2 by done.
      by apply converted_same in Hg2.
    + exfalso. destruct Htyped. apply (untouched_fields version) in Hk; [|done]. apply ta_fields0, assoc_get_In in Hk.
      rewrite Hy in Hk. by destruct Hk.
  - destruct (Hget (u "visual_orientation")) as [_ ->]; [key_ne..|].
    rewrite assoc_get_map, assoc_get_set. done.
Qed.

(** ** Malformed responses are validation errors, never crashes *)

(** [r] returns or raises AnalysisValidationError with the class's code. *)
Definition tame {A} (r : result verror A) : Prop :=
  match r with Ok _ => True | Raise e => e = AnalysisValidationError (u "VLM-004") end.

Lemma tame_bind {A B} (r : result verror A) (k : A → result verror B) :
  tame r → (∀ a, r = Ok a → tame (k a)) → tame (rbind r k).
Proof. destruct r; simpl; auto. Qed.

Lemma tame_raise_if b : tame (raise_if b (AnalysisValidationError (u "VLM-004"))).
Proof. destruct b; simpl; eauto. Qed.

Lemma tame_invalid {A} : tame (@invalid A).
Proof. simpl. eauto. Qed.

#[local] Hint Resolve tame_raise_if tame_invalid : ink.

Lemma tame_for_each {A} (f : A → result verror unit) l : (∀ x, x ∈ l → tame (f x)) → tame (for_each f l).
Proof.
  induction l as [|x l IH]; intros H; simpl; [done|].
  apply tame_bind; [apply H; left|]. intros _ _. apply IH. intros y Hy. apply H. by right.
Qed.

(** Every integer the schema lets through converts to a finite float. *)
Definition finite_range (lo hi : Z) : bool :=
  forallb (λ n, ffinite (f64_of_Z (lo + Z.of_nat n))) (seq 0 (Z.to_nat (hi - lo + 1))).
Definition finite_ints (l : list Z) : bool := forallb (λ z, ffinite (f64_of_Z z)) l.

Fixpoint safe_schema (s : schema) : bool :=
  match s with
  | SAnyOf l => forallb safe_schema l
  | SObject req props =>
      forallb (λ k, str_in k (map fst props)) req && forallb (λ p, safe_schema (snd p)) props
  | SArray (SString _ _ _) _ _ => true
  | SArray _ _ _ => false
  | SInteger (Some c) _ _ _ => finite_ints [c]
  | SInteger None (Some l) _ _ => finite_ints l
  | SInteger None None (Some lo) (Some hi) | SNumber (Some lo) (Some hi) => finite_range lo hi
  | SInteger None None _ _ | SNumber _ _ => false
  | SString _ _ _ | SBoolean | SNull => true
  end.

Section schema_induction.
Context (P : schema → Prop).
Hypothesis HAny : ∀ l, Forall P l → P (SAnyOf l).
Hypothesis HObj : ∀ r p, Forall (λ kv, P (snd kv)) p → P (SObject r p).
Hypothesis HArr : ∀ s lo hi, P s → P (SArray s lo hi).
Hypothesis HStr : ∀ e lo hi, P (SString e lo hi).
Hypothesis HBool : P SBoolean.
Hypothesis HInt : ∀ c e lo hi, P (SInteger c e lo hi).
Hypothesis HNum : ∀ lo hi, P (SNumber lo hi).
Hypothesis HNull : P SNull.

Fixpoint schema_nested_ind (s : schema) : P s :=
  match s with
  | SAnyOf l => HAny l ((fix go (l : list schema) : Forall P l :=
      match l with
      | [] => List.Forall_nil _
      | x :: l' => List.Forall_cons _ _ _ (schema_nested_ind x) (go l')
      end) l)
  | SObject r p => HObj r p ((fix go (m : list (str * schema)) : Forall (λ kv, P (snd kv)) m :=
      match m with
      | [] => List.Forall_nil _
      | kv :: m' => List.Forall_cons _ _ _ (schema_nested_ind (snd kv)) (go m')
      end) p)
  | SArray x lo hi => HArr x lo hi (schema_nested_ind x)
  | SString e lo hi => HStr e lo hi
  | SBoolean => HBool
  | SInteger c e lo hi => HInt c e lo hi
  | SNumber lo hi => HNum lo hi
  | SNull => HNull
  end.
End schema_induction.

Lemma finite_range_elem lo hi z : finite_range lo hi = true → lo ≤ z ≤ hi → ffinite (f64_of_Z z) = true.
Proof.
  intros H Hz. unfold finite_range in H. rewrite forallb_forall in H.
  specialize (H (Z.to_nat (z - lo))). rewrite in_seq in H. replace z with (lo + Z.of_nat (Z.to_nat (z - lo))) by lia.
  apply H. lia.
Qed.

Lemma tame_range_finite z lo hi : ffinite (f64_of_Z z) = true → tame (check_range (JInt z) lo hi).
Proof. intros Hf. unfold check_range. destruct (negb _); [apply tame_invalid|]. simpl. by rewrite Hf. Qed.

Lemma tame_range lo hi j :
  finite_range lo hi = true → (∃ z, j = JInt z) ∨ (∃ f, j = JFloat f) → tame (check_range j (Some lo) (Some hi)).
Proof.
  intros Hr [(z & ->)|(f & ->)]; unfold check_range; simpl; (destruct (negb _) eqn:E; [apply tame_invalid|]).
  - bprop. rewrite (finite_range_elem lo hi) by (done || lia). done.
  - destruct (ffinite f); simpl; eauto.
Qed.

Lemma tame_any_of rs : Forall tame rs → tame (any_of rs).
Proof.
  induction 1 as [|[[]|e] rs Hr Hrs IH]; simpl; [done|done|]. by rewrite (Hr : e = _).
Qed.

Lemma tame_unique l : Forall (λ j, ∃ s, j = JStr s) l → tame (check_unique l).
Proof.
  intros H. unfold check_unique. assert (forallb hashable l = true) as ->; [|simpl; apply tame_raise_if].
  apply forallb_forall. intros j Hj%list_elem_of_In. rewrite List.Forall_forall in H.
  destruct (H j) as (s & ->); [by apply list_elem_of_In|done].
Qed.

Lemma tame_integer c e lo hi z :
  safe_schema (SInteger c e lo hi) = true → tame (_validate (SInteger c e lo hi) (JInt z)).
Proof.
  intros Hs. cbn [_validate]. apply tame_bind; [apply tame_raise_if|]. intros [] Hc%raise_if_ok.
  apply tame_bind; [apply tame_raise_if|]. intros [] He%raise_if_ok.
  assert (Hmem : ∀ l, negb (existsb (Z.eqb z) l) = false → finite_ints l = true → ffinite (f64_of_Z z) = true).
  { intros l Hl Hf. apply Bool.negb_false_iff, existsb_exists in Hl as (y & Hy & ->%Z.eqb_eq).
    unfold finite_ints in Hf. rewrite forallb_forall in Hf. by apply Hf. }
  destruct c as [c|]; [by eapply tame_range_finite, (Hmem [c])|].
  destruct e as [l|]; [by eapply tame_range_finite, (Hmem l)|].
  destruct lo, hi; try done. apply tame_range; eauto.
Qed.

Lemma validate_tame s : safe_schema s = true → ∀ v, tame (_validate s v).
Proof.
  induction s as [l IH|r p IH|s lo hi IH|e lo hi| |c e lo hi|lo hi|] using schema_nested_ind; intros Hs v.
  - change (_validate (SAnyOf l) v) with (any_of (map (λ c, _validate c v) l)). apply tame_any_of, Forall_map.
    cbn [safe_schema] in Hs. rewrite forallb_forall in Hs. rewrite List.Forall_forall in IH |- *. auto.
  - destruct v as [| | | | | |m]; try apply tame_invalid. cbn [_validate safe_schema] in *.
    apply andb_prop in Hs as [Hreq Hp]. rewrite forallb_forall in Hreq, Hp. rewrite List.Forall_forall in IH.
    apply tame_bind; [apply tame_raise_if|]. intros _ Hk%raise_if_ok%Bool.negb_false_iff.
    rewrite same_keys_spec in Hk. apply tame_for_each. intros [k j] Hin. cbn [fst snd].
    rewrite (assoc_get_map _validate k p).
    assert (Hin' : k ∈ map fst p).
    { apply str_in_elem, Hreq, list_elem_of_In, Hk. apply list_elem_of_In, in_map_iff. exists (k, j).
      split; [done|]. by apply list_elem_of_In. }
    apply assoc_get_In in Hin' as [s Hg]. rewrite Hg. simpl.
    apply assoc_get_elem, list_elem_of_In in Hg. apply (IH _ Hg), (Hp _ Hg).
  - destruct v as [| | | | |js|]; try apply tame_invalid. cbn [_validate].
    apply tame_bind; [apply tame_raise_if|]. intros _ _.
    destruct s; try done. apply tame_bind; [apply tame_for_each; intros; by apply IH|]. intros [] Hf.
    apply tame_unique. rewrite for_each_ok in Hf. apply List.Forall_forall. intros j Hj%list_elem_of_In.
    specialize (Hf j Hj). destruct j; try done. eauto.
  - destruct v; try apply tame_invalid. cbn [_validate]. apply tame_bind; [apply tame_raise_if|].
    intros _ _. apply tame_raise_if.
  - destruct v; simpl; eauto.
  - destruct v; try apply tame_invalid. by apply tame_integer.
  - destruct lo, hi; try done. destruct v; try apply tame_invalid; apply tame_range; eauto.
  - destruct v; simpl; eauto.
Qed.

Lemma version_schema_safe version : safe_schema (schema_of_version version) = true.
Proof.
  unfold schema_of_version. destruct (version =? _); [vm_compute; reflexivity|].
  destruct (version =? _); vm_compute; reflexivity.
Qed.

Section jtree_induction.
Context (P : jtree → Prop).
Hypothesis Hleaf : ∀ t, (match t with TList _ | TObj _ => False | _ => True end) → P t.
Hypothesis Hl : ∀ l, Forall P l → P (TList l).
Hypothesis Ho : ∀ m, Forall (λ kv, P (snd kv)) m → P (TObj m).

Fixpoint jtree_nested_ind (t : jtree) : P t :=
  match t with
  | TList l => Hl l ((fix go (l : list jtree) : Forall P l :=
      match l with
      | [] => List.Forall_nil _
      | x :: l' => List.Forall_cons _ _ _ (jtree_nested_ind x) (go l')
      end) l)
  | TObj m => Ho m ((fix go (m : list (str * jtree)) : Forall (λ kv, P (snd kv)) m :=
      match m with
      | [] => List.Forall_nil _
      | kv :: m' => List.Forall_cons _ _ _ (jtree_nested_ind (snd kv)) (go m')
      end) m)
  | t => Hleaf t I
  end.
End jtree_induction.

Lemma unique_members_tame seen pairs : tame (unique_json_members_from seen pairs).
Proof.
  revert seen. induction pairs as [|[k j] pairs IH]; intros seen; simpl; [done|].
  apply tame_bind; [apply tame_raise_if|]. intros _ _. apply IH.
Qed.

Lemma decode_tame t : tame (decode_tree t).
Proof.
  induction t as [t Ht|l IH|m IH] using jtree_nested_ind; [destruct t; simpl; eauto; done|..];
    cbn [decode_tree]; (apply tame_bind; [|intros]).
  - induction IH as [|x l Hx Hl IH']; [done|]. apply tame_bind; [done|]. intros ? _.
    apply tame_bind; [exact IH'|done].
  - done.
  - induction IH as [|[k x] l Hx Hl IH']; [done|]. apply tame_bind; [done|]. intros ? _.
    apply tame_bind; [exact IH'|done].
  - apply tame_bind; [apply unique_members_tame|done].
Qed.

Lemma decode_raw_tame raw : (∀ l, raw ≠ RawBeyond l) → tame (decode_raw (u "VLM-004") raw).
Proof. destruct raw as [[t|]|j|l]; intros H; simpl; [apply decode_tame|done|done|by destruct (H l)]. Qed.

Lemma check_orientation_tame o rot amb conf ev : orientation_at o rot amb conf ev → tame (check_orientation o).
Proof.
  intros [Hr Ha Hc He _ _ _ _ _]. unfold check_orientation, get_or. rewrite Hr, Ha, He, Hc. cbn [rbind].
  apply tame_bind; [apply tame_raise_if|]. intros _ _. destruct (evidence_has _ _); [apply tame_raise_if|done].
Qed.

Lemma settle_ok o rot amb conf ev : orientation_at o rot amb conf ev → ∃ o', settle_orientation o = Ok o'.
Proof.
  intros [Hr Ha Hc He _ _ _ _ _]. unfold settle_orientation, get_or. rewrite Hr. cbn [rbind].
  set (o1 := match from_option JInt JNull rot with JNull => _ | _ => o end).
  assert (H1 : ∀ k, k ≠ u "ambiguous" → assoc_get k o1 = assoc_get k o).
  { intros k Hk. unfold o1. destruct rot; simpl; [done|]. by apply assoc_get_set_ne. }
  rewrite !H1, He, Hc by key_ne. cbn [rbind]. destruct (evidence_has _ _); eauto.
Qed.

Lemma strip_key_ok k m lo hi : field m k (is_padded_text lo hi) → ∃ m', strip_key (u k) m = Ok m'.
Proof. intros (j & Hj & s & -> & _). unfold strip_key, get_or. rewrite Hj. simpl. eauto. Qed.

Lemma orientation_of_ok version m :
  loosely_typed version m → ∃ o rot amb conf ev, orientation_of m = Ok o ∧ orientation_at o rot amb conf ev.
Proof.
  intros []. destruct lt_orientation0 as (j & Hj & o & rot & amb & conf & ev & -> & Hat).
  exists o, rot, amb, conf, ev. unfold orientation_of, get_or. by rewrite Hj.
Qed.

Lemma strip_caption_ok version m :
  loosely_typed version m →
  ∃ m', (if version =? LEGACY_SCHEMA_VERSION then strip_key (u "caption") m else Ok m) = Ok m'
        ∧ ∃ m'', strip_key (u "side_caption") m' = Ok m''.
Proof.
  intros Hl. pose proof (lt_caption _ _ Hl) as Hside. destruct (version =? LEGACY_SCHEMA_VERSION) eqn:E; bprop.
  - destruct (lt_legacy _ _ Hl E) as (_ & _ & Hc & _ & _). destruct (strip_key_ok _ _ _ _ Hc) as (m' & Hm').
    exists m'. split; [done|]. destruct (strip_key_typed _ _ _ _ _ Hm' Hc) as (t & -> & _).
    eapply strip_key_ok. apply field_set_ne; [key_ne|exact Hside].
  - exists m. split; [done|]. by eapply strip_key_ok.
Qed.

Lemma result_tame convert j accepted : tame (validate_analysis_result convert (RawValue j) accepted).
Proof.
  unfold validate_analysis_result. cbn [decode_raw rbind].
  apply tame_bind; [apply tame_raise_if|]. intros _ _.
  destruct (to_taiwan_traditional _ _ _) as [| | | | | |m0]; try apply tame_invalid.
  destruct (assoc_get (u "schema_version") m0) as [[| |version| | | |]|] eqn:Hg; try apply tame_invalid.
  apply tame_bind; [apply tame_raise_if|]. intros _ _.
  set (m1 := if version =? SCHEMA_VERSION then _ else _).
  apply tame_bind; [apply validate_tame, version_schema_safe|]. intros [] Hv.
  assert (Hl : loosely_typed version m1).
  { apply validated_loosely_typed; [|done]. eapply schema_versions; [|done]. unfold m1.
    destruct (version =? SCHEMA_VERSION); [|done]. rewrite alter_key_ne; [done|key_ne]. }
  destruct (orientation_of_ok _ _ Hl) as (o & rot & amb & conf & ev & -> & Hat).
  destruct (strip_caption_ok _ _ Hl) as (m' & -> & m'' & Hm''). cbn [rbind]. rewrite Hm''.
  apply tame_bind; [by eapply check_orientation_tame|]. done.
Qed.

Lemma stage_schema_safe controls version s :
  json_schema_for_stage (u "single") controls version = Ok s → safe_schema s = true.
Proof.
  unfold json_schema_for_stage. change (str_eqb (u "single") (u "provider_contract_level2")) with false.
  cbn [rbind]. destruct (negb _); [done|]. intros H.
  assert (Hset : ∀ b : bool, let props := (if b then v5_properties else v6_properties) in
    safe_schema (SObject (sort_by str_leb (map fst props)) props) = true ∧
    ∀ lo hi, safe_schema (SObject (sort_by str_leb (map fst props)) (set_side_caption lo hi props)) = true).
  { by intros []; split. }
  specialize (Hset (version =? PREVIOUS_SCHEMA_VERSION)). destruct Hset as [Ha Hb].
  set (props := if version =? PREVIOUS_SCHEMA_VERSION then v5_properties else v6_properties) in *.
  clearbody props. repeat case_in H; injection H as <-; first [apply Hb | apply Ha].
Qed.

Lemma stage_schema_total controls version :
  version = PREVIOUS_SCHEMA_VERSION ∨ version = SCHEMA_VERSION →
  ∃ s, json_schema_for_stage (u "single") controls version = Ok s.
Proof.
  intros Hver. unfold json_schema_for_stage. change (str_eqb (u "single") (u "provider_contract_level2")) with false.
  cbn [rbind]. assert (negb ((version =? PREVIOUS_SCHEMA_VERSION) || (version =? SCHEMA_VERSION)) = false) as ->.
  { bprop. destruct Hver; [left|right]; lia. }
  generalize v5_properties, v6_properties. intros p5 p6. repeat case_goal; eauto.
Qed.

(** C26. What the gate raises on a bad answer.  An answer within the
    interpreter's limits (no integer of more than 4300 digits, nesting the
    stack can walk), however malformed (not JSON, duplicate members, NaN, lone
    surrogates, missing or extra fields, wrong types, oversized or unknown
    values), is accepted or raises AnalysisValidationError with code VLM-004:
    never a KeyError, TypeError or OverflowError.  An answer beyond a limit
    raises what the interpreter raises, ValueError or RecursionError, since
    the gate catches JSONDecodeError alone. *)
Theorem malformed_responses_are_validation_errors convert raw controls version :
  version = PREVIOUS_SCHEMA_VERSION ∨ version = SCHEMA_VERSION →
  (∀ e, validate_model_response convert raw controls version = Raise e →
    (∀ l, raw ≠ RawBeyond l) → e = AnalysisValidationError (u "VLM-004")) ∧
  (∀ l, raw = RawBeyond l → validate_model_response convert raw controls version = Raise (limit_error l)).
Proof.
  intros Hver. split; [|by intros l ->]. intros e H Hin.
  enough (tame (validate_model_response convert raw controls version)) as Ht by (by rewrite H in Ht).
  clear e H. unfold validate_model_response. apply tame_bind; [by apply decode_raw_tame|]. intros j _.
  apply tame_bind; [apply tame_raise_if|]. intros _ _.
  destruct (stage_schema_total controls _ Hver) as (s & Hs). rewrite Hs. cbn [rbind].
  destruct (single_schema _ _ _ Hs) as (_ & req & props & -> & Hreq & Hprops).
  apply tame_bind; [by eapply validate_tame, stage_schema_safe|]. intros [] Hv.
  destruct (if version =? SCHEMA_VERSION then in_object repair_v6 _ else _) as [| | | | | |m]; try apply tame_invalid.
  destruct (object_field _ _ _ _ _ Hv Hreq Hprops) as (jo & Hjo & Hov).
  destruct (validate_orientation _ Hov) as (o & rot & amb & conf & ev & -> & Hat).
  unfold orientation_of, get_or. rewrite Hjo. cbn [rbind]. destruct (settle_ok _ _ _ _ _ Hat) as (o' & ->).
  apply result_tame.
Qed.

(** ** Witnesses *)

Definition sample_text (conf : f64) (evidence : list string) (extra : list (str * jtree)) : raw_response :=
  let verdict := TObj [(u "detected", TBool false); (u "confidence", TInt 0)] in
  RawText (Some (TObj ([
    (u "schema_version", TInt 6); (u "types", TList (map (TStr ∘ u) ["文件"; "日常"; "文件"]%string));
    (u "memory_score", TFloat (dec 655 10)); (u "visual_score", TInt 40); (u "special_level", TInt 0);
    (u "side_caption", TStr (u " 桌上的收據  "));
    (u "content_filter", TObj (map (λ c, (c, verdict)) CONTENT_FILTER_CODES));
    (u "visual_orientation", TObj [(u "rotation_cw", TInt 90); (u "confidence", TFloat conf);
       (u "ambiguous", TBool false); (u "evidence", TList (map (TStr ∘ u) evidence))]);
    (u "display_exclusion", TObj [(u "category", TStr (u "document_record")); (u "confidence", TInt 1)])]
    ++ extra))).

(** A converter that rewrites the category 文件 into 檔案, as s2twp does. *)
Definition rewrite_documents (s : str) : str := if str_eqb s (u "文件") then u "檔案" else s.

Definition sample_response : raw_response :=
  sample_text (dec 9 10) ["text_upright"; "insufficient_visual_cues"]%string [(u "landmark", TNull)].

Definition accepted_value (r : result verror json) : json := match r with Ok v => v | Raise _ => JNull end.
Definition sample_value : json :=
  accepted_value (validate_model_response rewrite_documents sample_response None SCHEMA_VERSION).

(** The sample is accepted: duplicate category dropped, the protected category
    kept, caption stripped, orientation settled. *)
Example sample_accepted :
  validate_model_response rewrite_documents sample_response None SCHEMA_VERSION = Ok sample_value ∧
  validate_analysis_result rewrite_documents (RawValue sample_value) SUPPORTED_ANALYSIS_SCHEMA_VERSIONS
    = Ok sample_value ∧
  assoc_get (u "types") (match sample_value with JObj m => m | _ => [] end)
    = Some (JList (map (JStr ∘ u) ["文件"; "日常"]%string)).
Proof. vm_compute. done. Qed.

Lemma validated_result_typed_witness :
  ∃ version m, sample_value = JObj m ∧ version ∈ SUPPORTED_ANALYSIS_SCHEMA_VERSIONS ∧ typed_analysis version m.
Proof.
  apply (validated_result_typed rewrite_documents (RawValue sample_value)). vm_compute. reflexivity.
Defined.

Lemma repairs_are_conservative_witness :
  ∃ r m, decode_raw (u "VLM-004") sample_response = Ok (JObj r) ∧ sample_value = JObj m
    ∧ assoc_get (u "memory_score") m = assoc_get (u "memory_score") r.
Proof.
  destruct (repairs_are_conservative rewrite_documents sample_response None SCHEMA_VERSION sample_value)
    as (r & m & o0 & o & Hd & Hm & _ & Hu & _); [vm_compute; reflexivity|].
  exists r, m. split; [done|]. split; [done|]. apply Hu. left.
Defined.

Definition duplicate_members : raw_response :=
  sample_text (dec 9 10) ["text_upright"]%string [(u "types", TNull)].

Lemma malformed_responses_are_validation_errors_witness :
  validate_model_response rewrite_documents duplicate_members None SCHEMA_VERSION = Raise (AnalysisValidationError (u "VLM-004")) ∧
  validate_model_response rewrite_documents (RawBeyond IntegerDigits) None SCHEMA_VERSION = Raise ValueError.
Proof.
  split.
  - destruct (validate_model_response rewrite_documents duplicate_members None SCHEMA_VERSION) as [v|e] eqn:E;
      [vm_compute in E; discriminate E|].
    destruct (malformed_responses_are_validation_errors rewrite_documents duplicate_members None SCHEMA_VERSION
                (or_intror eq_refl)) as [H _]. f_equal. apply (H e E). intros l. discriminate.
  - destruct (malformed_responses_are_validation_errors rewrite_documents (RawBeyond IntegerDigits) None SCHEMA_VERSION
                (or_intror eq_refl)) as [_ H]. exact (H IntegerDigits eq_refl).
Defined.
