(* ===== verification/Eligibility.v ===== *)
(** * Which photos may be shown

    The local quality policy (domain/photos/quality_policy.py), the content
    and display verdicts (domain/analysis/content_filter.py), orientation
    (domain/photos/orientation.py, [_orientation_review] of
    repositories/photos.py) and the release gate over them
    ([RenderCandidateRepository] of repositories/render_candidates.py).

    A row of photos joined with its library and its preferred analysis is a
    [photo_row]; JSON columns hold their decoded value ([None]: unreadable).
    [PyText] collects the Unicode tables and conversions of the Python runtime
    the policies use; the file system is the row's [file_present]. *)

From S2P Require Import Prelude PyStr PyFloat Json Schema SchemaProps.
Local Open Scope Z_scope.

Class PyText := {
  casefold : str → str;                 (* str.casefold *)
  word_char : Z → bool;                 (* \w of re.UNICODE *)
  str_of : json → str;                  (* str(value) *)
  float_of : str → option f64;          (* float(text), None: ValueError *)
}.

Record photo_row := mk_photo_row {
  ph_id : str; ph_library_enabled : bool; ph_lifecycle : str; ph_never_display : bool;
  ph_exclusion : str; ph_override : bool; ph_favorite : bool; ph_status : str; ph_eligible : bool;
  ph_local_status : str; ph_local_score : option f64; ph_path : str; ph_file_present : bool;
  ph_width : Z; ph_height : Z; ph_format : str; ph_camera_make : str; ph_camera_model : str;
  ph_exif : option json; ph_screenshot : f64; ph_blur : option f64; ph_contrast : option f64;
  ph_over : option f64; ph_under : option f64; ph_file_size : option Z; ph_manual_rotation : option Z;
  ph_analysis_id : option Z; ph_score_kind : str; ph_schema_version : option Z; ph_ranking : option f64;
  ph_raw : option json }.

(** ** File names *)

Fixpoint split_on (sep : Z → bool) (cur : str) (s : str) : list str :=
  match s with
  | [] => [rev cur]
  | c :: s' => if sep c then rev cur :: split_on sep [] s' else split_on sep (c :: cur) s'
  end.

(** [Path(p).name]: the last component that is not empty or ["."]. *)
Definition path_name (p : str) : str :=
  default [] (last (List.filter (λ c, negb (str_in c [[]; [46]])) (split_on (Z.eqb 47) [] p))).

(** [Path(p).stem]: the name up to its last dot, unless that dot is at an end of it. *)
Fixpoint last_dot (i : nat) (s : str) (found : option nat) : option nat :=
  match s with [] => found | c :: s' => last_dot (S i) s' (if c =? 46 then Some i else found) end.
Definition path_stem (p : str) : str :=
  let name := path_name p in
  match last_dot 0 name None with
  | Some i => if (0 <? Z.of_nat i) && (Z.of_nat i <? slen name - 1) then take i name else name
  | None => name
  end.

(** ** Local quality *)

Definition _SCREENSHOT_WORDS : list str :=
  map u ["screenshot"; "screen shot"; "screen capture"; "螢幕快照"; "螢幕擷取"; "截圖"; "截屏";
         "スクリーンショット"; "화면 캡처"]%string.
Definition _DOCUMENT_TOKENS : list str :=
  map u ["receipt"; "invoice"; "document"; "scan"; "收據"; "發票"; "文件"]%string.
Definition _SOCIAL_SOFTWARE : list str := map u ["instagram"; "line"; "wechat"; "facebook"]%string.

Record quality_settings := mk_quality_settings {
  prefilter_enabled : bool; prefilter_screenshots : bool; prefilter_low_quality : bool;
  prefilter_sensitivity : str }.

Inductive quality_decision := QAutoExcluded | QDisabled | QProtected | QLowPriority | QPass.
#[export] Instance quality_decision_eq_dec : EqDecision quality_decision.
Proof. solve_decision. Defined.

Record quality_checks := mk_quality_checks {
  screenshot_strong : bool; screenshot_mixed_signal : bool; document_token_with_evidence : bool;
  severe_blur : bool; suspected_blur : bool; short_edge_under_240 : bool; tiny_empty : bool;
  small_compressed : bool; extreme_exposure_low_contrast : bool; exposure_low_priority : bool;
  social_export : bool }.

Definition keep_if {A} (b : bool) (x : A) : list A := if b then [x] else [].
Definition or_zero (x : option f64) : f64 := default f0 x.
Definition is_some {A} (x : option A) : bool := match x with Some _ => true | None => false end.

Section quality.
Context `{PyText}.

Definition _exif_software (r : photo_row) : str :=
  match ph_exif r with
  | Some (JObj m) =>
      casefold (join_words (omap (λ kv, if contains (u "software") (casefold (fst kv))
                                        then Some (str_of (snd kv)) else None) m))
  | _ => []
  end.

Definition is_confirmed_screenshot (r : photo_row) : bool :=
  let filename := casefold (path_name (ph_path r)) in
  let software := _exif_software r in
  existsb (λ w, contains w filename) _SCREENSHOT_WORDS
  || existsb (λ w, contains w software) _SCREENSHOT_WORDS
  || fleb (dec 95 100) (ph_screenshot r).

(** The tokens of the file name, in order. *)
Definition filename_tokens (path : str) : list str :=
  List.filter (λ t, match t with [] => false | _ => true end)
    (split_on (λ c, (c =? 95) || negb (word_char c)) [] (casefold (path_stem path))).

Definition has_camera (r : photo_row) : bool :=
  negb (match strip (ph_camera_make r) with [] => true | _ => false end)
  || negb (match strip (ph_camera_model r) with [] => true | _ => false end).

Definition screenshot_threshold (sensitivity : str) : f64 :=
  if str_eqb sensitivity (u "balanced") then dec 75 100
  else if str_eqb sensitivity (u "aggressive") then dec 60 100
  else dec 90 100.

Definition b2z (b : bool) : Z := if b then 1 else 0.

Definition fabs (x : f64) : f64 := if fltb x f0 then fsub f0 x else x.

Definition run_checks (s : quality_settings) (r : photo_row) : quality_checks :=
  let width := ph_width r in
  let height := ph_height r in
  let sized := negb (width =? 0) && negb (height =? 0) in
  let short_edge := if sized then Z.min width height else 0 in
  let fmt := casefold (ph_format r) in
  let camera := has_camera r in
  let software := _exif_software r in
  let blur := or_zero (ph_blur r) in
  let contrast := or_zero (ph_contrast r) in
  let exposure := fmax (or_zero (ph_over r)) (or_zero (ph_under r)) in
  let file_size := default 0 (ph_file_size r) in
  let screen_dimensions := existsb (λ d, (fst d =? width) && (snd d =? height))
    [(1080, 1920); (1920, 1080); (1170, 2532); (2532, 1170)] in
  let screen_ratio := sized && fltb (fabs (fsub (dec (Z.max width height) (Z.min width height)) (dec 16 9))) (dec 35 1000) in
  let family_count := b2z (screen_dimensions || screen_ratio) + b2z (negb camera) + b2z (str_eqb fmt (u "png")) in
  let tokens := filename_tokens (ph_path r) in
  let document_token := match tokens with
    | [] => false
    | t :: _ => str_in t _DOCUMENT_TOKENS || forallb (λ x, str_in x _DOCUMENT_TOKENS) tokens end in
  let scanner := contains (u "scanner") software || contains (u "camscanner") software in
  let social := existsb (λ n, contains n software) _SOCIAL_SOFTWARE
    || (negb camera && str_in fmt [u "jpeg"; u "jpg"] && existsb (Z.eqb short_edge) [1024; 1280]) in
  let measured := is_some (ph_blur r) && is_some (ph_contrast r) in
  {| screenshot_strong := is_confirmed_screenshot r;
     screenshot_mixed_signal := negb camera && (3 <=? family_count)
       && fleb (screenshot_threshold (prefilter_sensitivity s)) (ph_screenshot r);
     document_token_with_evidence := document_token && (scanner || negb camera);
     severe_blur := measured && fltb blur (f64_of_Z 60) && fltb contrast (f64_of_Z 15);
     suspected_blur := measured && fltb blur (f64_of_Z 120) && fltb contrast (f64_of_Z 18);
     short_edge_under_240 := negb (short_edge =? 0) && (short_edge <? 240);
     tiny_empty := is_some (ph_file_size r) && is_some (ph_contrast r) && (file_size <? 4096)
       && fltb contrast (f64_of_Z 8);
     small_compressed := is_some (ph_file_size r) && (file_size <? 10 * 1024)
       && negb (str_in fmt [u "png"; u "bmp"]);
     extreme_exposure_low_contrast := is_some (ph_over r) && is_some (ph_under r) && is_some (ph_contrast r)
       && fleb (dec 92 100) exposure && fltb contrast (f64_of_Z 8);
     exposure_low_priority := (is_some (ph_over r) || is_some (ph_under r)) && fleb (dec 60 100) exposure;
     social_export := social |}.

Definition protected (r : photo_row) : bool :=
  ph_favorite r || ph_override r || str_in (ph_exclusion r) [u "manually_restored"; u "manually_excluded"].

Definition excluded_reasons (s : quality_settings) (c : quality_checks) : list str :=
  let low := prefilter_low_quality s in
  keep_if (low && short_edge_under_240 c) (u "resolution_too_low")
  ++ keep_if (screenshot_strong c || (prefilter_screenshots s && screenshot_mixed_signal c)) (u "screenshot")
  ++ keep_if (low && document_token_with_evidence c) (u "document_or_receipt")
  ++ keep_if (low && severe_blur c) (u "severe_blur")
  ++ keep_if (low && tiny_empty c) (u "tiny_nearly_blank")
  ++ keep_if (low && extreme_exposure_low_contrast c) (u "extreme_exposure_low_contrast").

Definition low_reasons (s : quality_settings) (c : quality_checks) : list str :=
  let low := prefilter_low_quality s in
  keep_if (low && suspected_blur c) (u "suspected_blur")
  ++ keep_if (low && small_compressed c) (u "small_compressed")
  ++ keep_if (low && exposure_low_priority c) (u "exposure_low_priority")
  ++ keep_if (low && social_export c) (u "social_export").

Definition evaluate_local_quality (s : quality_settings) (r : photo_row) : quality_decision * str :=
  let c := run_checks s r in
  let excluded := excluded_reasons s c in
  let low := low_reasons s c in
  (if screenshot_strong c then QAutoExcluded
   else if negb (prefilter_enabled s) then QDisabled
   else if protected r then QProtected
   else match excluded, low with
        | _ :: _, _ => QAutoExcluded
        | [], _ :: _ => QLowPriority
        | [], [] => QPass
        end,
   hd (hd (u "passed") low) excluded).
End quality.

(** ** Content and display verdicts *)

Inductive decision := AutoExcluded | PendingReview | Pass.
#[export] Instance decision_eq_dec : EqDecision decision.
Proof. solve_decision. Defined.

Record content_policy := mk_content_policy {
  exclude_sexualized : bool; exclude_nudity : bool; exclude_glamour : bool;
  content_min_confidence : f64; glamour_min_confidence : f64 }.
Definition CONTENT_FILTER_DEFAULTS : content_policy :=
  mk_content_policy true true true (dec 85 100) (dec 90 100).
Definition DISPLAY_RISK_MIN_CONFIDENCE : f64 := dec 60 100.

(** [CONTENT_FILTER_SWITCHES], with the threshold of each code. *)
Definition CONTENT_FILTER_SWITCHES : list (str * ((content_policy → bool) * (content_policy → f64))) :=
  [(u "sexualized_content", (exclude_sexualized, content_min_confidence));
   (u "explicit_nudity", (exclude_nudity, content_min_confidence));
   (u "female_glamour_portrait", (exclude_glamour, glamour_min_confidence))].

Record classification := mk_classification {
  cl_code : str; cl_detected : bool; cl_confidence : f64; cl_threshold : f64; cl_enabled : bool; cl_matched : bool }.

Record filter_result := mk_filter_result {
  fr_decision : decision; fr_primary_reason : str; fr_matched_codes : list str;
  fr_classifications : list classification }.

Section verdicts.
Context `{PyText}.

(** [float(value)] *)
Definition py_float (j : json) : result verror f64 :=
  match j with
  | JFloat f => Ok f
  | JInt z => let f := f64_of_Z z in if ffinite f then Ok f else Raise OverflowError
  | JBool b => Ok (f64_of_Z (b2z b))
  | JStr s => match float_of s with Some f => Ok f | None => Raise ValueError end
  | _ => Raise TypeError
  end.

Definition member (k : str) (j : json) : result verror json :=
  match j with JObj m => get_or k m | _ => Raise TypeError end.

Definition classify (policy : content_policy) (strict : bool) (content_filter : json)
    (entry : str * ((content_policy → bool) * (content_policy → f64))) : result verror classification :=
  let '(code, (switch, threshold_of)) := entry in
  let* c := member code content_filter in
  let* conf_j := member (u "confidence") c in
  let* confidence := py_float conf_j in
  let* det := member (u "detected") c in
  match det with
  | JBool detected =>
      let threshold := if strict then DISPLAY_RISK_MIN_CONFIDENCE else threshold_of policy in
      let enabled := if strict then true else switch policy in
      Ok (mk_classification code detected confidence threshold enabled
            (detected && enabled && (strict || fleb threshold confidence)))
  | _ => Raise ValueError
  end.

Fixpoint map_result {A B} (f : A → result verror B) (l : list A) : result verror (list B) :=
  match l with
  | [] => Ok []
  | x :: l' => let* y := f x in let* r := map_result f l' in Ok (y :: r)
  end.

Definition evaluate_content_filter (policy : content_policy) (strict : bool) (content_filter : json)
  : result verror filter_result :=
  let* classifications := map_result (classify policy strict content_filter) CONTENT_FILTER_SWITCHES in
  let matched := map cl_code (List.filter cl_matched classifications) in
  Ok (mk_filter_result (match matched with [] => Pass | _ => AutoExcluded end)
        (hd (u "passed") matched) matched classifications).

(** [str(display_exclusion["category"])] *)
Definition text_of (j : json) : str := match j with JStr s => s | _ => str_of j end.

Definition evaluate_display_exclusion (display_exclusion : json) : result verror (decision * str) :=
  let* cat := member (u "category") display_exclusion in
  let category := text_of cat in
  let* conf_j := member (u "confidence") display_exclusion in
  let* confidence := py_float conf_j in
  raise_if (negb (str_in category DISPLAY_EXCLUSION_CATEGORIES)
            || negb (fleb f0 confidence && fleb confidence (f64_of_Z 1))) ValueError ;;;
  let sure := fleb DISPLAY_RISK_MIN_CONFIDENCE confidence in
  let d := if str_eqb category (u "none") then (if sure then Pass else PendingReview)
           else if sure then AutoExcluded else PendingReview in
  Ok (d, if negb (str_eqb category (u "none")) then category
         else match d with Pass => u "passed" | _ => u "display_risk_uncertain" end).

(** ** Orientation *)

Definition ROTATIONS : list Z := [0; 90; 180; 270].
Definition rotation_in (r : option Z) (l : list Z) : bool :=
  match r with Some z => existsb (Z.eqb z) l | None => false end.

Inductive orientation_source := Manual | Ai | ExifNormalized | NoSource.
Record effective_orientation := mk_effective {
  rotation_degrees : Z; eo_source : orientation_source; eo_confidence : option f64; exif_normalized : bool }.

Definition rotation_threshold (r : option Z) : f64 :=
  if rotation_in r [180] then dec 98 100 else dec 95 100.

Definition resolve_effective_orientation (exif manual ai_rotation : option Z) (ai_confidence : option f64)
    (ai_ambiguous : bool) : effective_orientation :=
  let exif_norm := rotation_in exif [2; 3; 4; 5; 6; 7; 8] in
  let fallback := mk_effective 0 (if exif_norm then ExifNormalized else NoSource) ai_confidence exif_norm in
  if rotation_in manual ROTATIONS then mk_effective (default 0 manual) Manual None exif_norm
  else if rotation_in ai_rotation ROTATIONS && negb ai_ambiguous
          && match ai_confidence with Some c => fleb (rotation_threshold ai_rotation) c | None => false end
  then mk_effective (default 0 ai_rotation) Ai ai_confidence exif_norm
  else fallback.

(** [_has_explicit_exif_orientation]; [int_of] reads a numeric text. *)
Definition _has_explicit_exif_orientation (int_of : str → option Z) (r : photo_row) : bool :=
  match ph_exif r with
  | Some (JObj m) =>
      match assoc_get (u "Orientation") m with
      | Some (JInt z) => (1 <=? z) && (z <? 9)
      | Some (JStr s) => match int_of s with Some z => (1 <=? z) && (z <? 9) | None => false end
      | _ => false
      end
  | _ => false
  end.

Definition json_rotation (j : json) : option Z := match j with JInt z => Some z | _ => None end.

(** [_orientation_review]: [true] when the photo must wait for a human. *)
Definition _orientation_review (int_of : str → option Z) (r : photo_row) (visual : json) : result verror bool :=
  if rotation_in (ph_manual_rotation r) ROTATIONS then Ok false
  else
    let* rot := member (u "rotation_cw") visual in
    let* conf_j := member (u "confidence") visual in
    let* confidence := py_float conf_j in
    let* amb := member (u "ambiguous") visual in
    let* evidence := member (u "evidence") visual in
    let rotation := json_rotation rot in
    let uncertain_turn := rotation_in rotation [90; 180; 270]
      && (truthy amb || fltb confidence (rotation_threshold rotation)) in
    let no_visual_cues := match rot with JNull => true | _ => false end && evidence_has insufficient evidence in
    Ok (uncertain_turn || (no_visual_cues && negb (_has_explicit_exif_orientation int_of r))).
End verdicts.

(** ** The release gate *)

Section gate.
Context `{PyText} (convert : str → str) (int_of : str → option Z).

Definition semantic : str := u "semantic".

(** [safety_passed]: ValueError, TypeError and KeyError mean no. *)
Definition safety_result (r : photo_row) : result verror bool :=
  if is_confirmed_screenshot r then Ok false
  else
    match ph_raw r with
    | None => Raise ValueError
    | Some raw =>
        let* analysis := validate_analysis_result convert (RawValue raw) SUPPORTED_ANALYSIS_SCHEMA_VERSIONS in
        let* version := member (u "schema_version") analysis in
        if negb (match version with JInt 6 => true | _ => false end) then Ok false
        else
          let* cf := member (u "content_filter") analysis in
          let* content := evaluate_content_filter CONTENT_FILTER_DEFAULTS true cf in
          let* de := member (u "display_exclusion") analysis in
          let* display := evaluate_display_exclusion de in
          let decisions := [fr_decision content; fst display] in
          if existsb (λ d, bool_decide (d = AutoExcluded)) decisions then Ok false
          else if existsb (λ d, bool_decide (d = PendingReview)) decisions
                  && negb (str_eqb (ph_exclusion r) (u "manually_restored") && ph_override r)
          then Ok false
          else
            let* vo := member (u "visual_orientation") analysis in
            let* review := _orientation_review int_of r vo in
            Ok (negb review)
    end.
Definition safety_passed (r : photo_row) : bool :=
  match safety_result r with Ok b => b | Raise _ => false end.

Definition local_safety_passed (r : photo_row) : bool :=
  if is_confirmed_screenshot r then false
  else if str_eqb (ph_score_kind r) semantic && negb (rotation_in (ph_schema_version r) [4; 5])
  then safety_passed r
  else true.

Definition displayable_status (r : photo_row) : bool := str_in (ph_exclusion r) [u "eligible"; u "manually_restored"].

(** [SQL_PREDICATE] and [LOCAL_SQL_PREDICATE]. *)
Definition sql_predicate (r : photo_row) : bool :=
  str_eqb (ph_status r) (u "analyzed") && ph_eligible r && negb (ph_never_display r) && displayable_status r
  && str_eqb (ph_lifecycle r) (u "active") && ph_library_enabled r && is_some (ph_analysis_id r)
  && rotation_in (ph_schema_version r) [6] && str_eqb (ph_score_kind r) semantic
  && is_some (ph_ranking r) && str_eqb (ph_local_status r) (u "complete").
Definition local_sql_predicate (r : photo_row) : bool :=
  str_in (ph_status r) [u "discovered"; u "preprocessed"; u "analyzed"] && ph_eligible r
  && negb (ph_never_display r) && displayable_status r && str_eqb (ph_lifecycle r) (u "active")
  && ph_library_enabled r && str_eqb (ph_local_status r) (u "complete") && is_some (ph_local_score r).

Definition row_of (photos : list photo_row) (id : str) : option photo_row :=
  List.find (λ r, str_eqb (ph_id r) id) photos.

Definition get (photos : list photo_row) (id : str) : option photo_row :=
  match row_of photos id with
  | Some r => if sql_predicate r && ph_file_present r && safety_passed r then Some r else None
  | None => None
  end.
Definition get_local (photos : list photo_row) (id : str) : option photo_row :=
  match row_of photos id with
  | Some r => if local_sql_predicate r && ph_file_present r && local_safety_passed r then Some r else None
  | None => None
  end.

Inductive gate_exn := IneligiblePhoto (id : str) (reason : Z) | TooMany | BadMode.

(** [require]: each requested photo once, in order. *)
Fixpoint require_from (photos : list photo_row) (seen : list str) (ids : list str)
  : result gate_exn (list photo_row) :=
  match ids with
  | [] => Ok []
  | raw :: ids' =>
      let id := strip raw in
      if match id with [] => true | _ => false end || str_in id seen then require_from photos seen ids'
      else match get photos id with
           | None => Raise (IneligiblePhoto id 0)
           | Some r => let* rest := require_from photos (id :: seen) ids' in Ok (r :: rest)
           end
  end.
Definition require (photos : list photo_row) (ids : list str) : result gate_exn (list photo_row) :=
  require_from photos [] ids.

Fixpoint require_local_each (photos : list photo_row) (ids : list str) : result gate_exn (list photo_row) :=
  match ids with
  | [] => Ok []
  | id :: ids' =>
      match get_local photos id with
      | None => Raise (IneligiblePhoto id 0)
      | Some r => let* rest := require_local_each photos ids' in Ok (r :: rest)
      end
  end.
Definition nonempty_ids (ids : list str) : list str :=
  List.filter (λ s, match s with [] => false | _ => true end) ids.
Definition require_local (photos : list photo_row) (ids : list str) : result gate_exn (list photo_row) :=
  require_local_each photos (fromkeys (nonempty_ids ids)).

Definition analysis_eligible (r : photo_row) : bool :=
  str_eqb (ph_status r) (u "analyzed") && ph_eligible r && is_some (ph_analysis_id r)
  && str_eqb (ph_score_kind r) semantic && rotation_in (ph_schema_version r) [6] && is_some (ph_ranking r).
Definition local_eligible (r : photo_row) : bool :=
  ph_eligible r && str_eqb (ph_local_status r) (u "complete").

(** One requested photo of [require_for_execution_mode]; the numbers are the
    PHOTO-ELIGIBILITY codes. *)
Definition resolve_one (photo_only : bool) (photos : list photo_row) (id : str) : result gate_exn photo_row :=
  match row_of photos id with
  | None => Raise (IneligiblePhoto id 1)
  | Some r =>
      raise_if (negb (ph_library_enabled r)) (IneligiblePhoto id 2) ;;;
      raise_if (negb (str_eqb (ph_lifecycle r) (u "active"))) (IneligiblePhoto id 3) ;;;
      raise_if (ph_never_display r || negb (displayable_status r)) (IneligiblePhoto id 4) ;;;
      raise_if (negb (ph_file_present r)) (IneligiblePhoto id 5) ;;;
      let safe := if photo_only then local_safety_passed r else safety_passed r in
      raise_if (negb (local_eligible r && safe && (photo_only || analysis_eligible r))) (IneligiblePhoto id 7) ;;;
      raise_if (photo_only && (negb (str_in (ph_status r) [u "discovered"; u "preprocessed"; u "analyzed"])
                               || negb (is_some (ph_local_score r)))) (IneligiblePhoto id 6) ;;;
      Ok r
  end.

Fixpoint resolve_each (photo_only : bool) (photos : list photo_row) (ids : list str)
  : result gate_exn (list photo_row) :=
  match ids with
  | [] => Ok []
  | id :: ids' =>
      let* r := resolve_one photo_only photos id in
      let* rest := resolve_each photo_only photos ids' in
      Ok (r :: rest)
  end.

Definition MAX_REQUESTED : Z := 200.

Definition require_for_execution_mode (photos : list photo_row) (photo_ids : list str) (content_mode : str)
  : result gate_exn (list photo_row) :=
  let ids := fromkeys (nonempty_ids (map strip photo_ids)) in
  raise_if (MAX_REQUESTED <? Z.of_nat (length ids)) TooMany ;;;
  match ids with
  | [] => Ok []
  | _ =>
      raise_if (negb (str_in content_mode [u "photo_only"; u "photo_caption"])) BadMode ;;;
      resolve_each (str_eqb content_mode (u "photo_only")) photos ids
  end.
End gate.

(** ** Theorems *)

Section theorems.
Context `{PyText}.

(** A confidence of an accepted analysis is a float. *)
Definition unit_value (j : json) : f64 := match j with JInt z => f64_of_Z z | JFloat f => f | _ => f0 end.

Lemma unit_float j :
  is_number 0 1 j → py_float j = Ok (unit_value j)
    ∧ fleb f0 (unit_value j) = true ∧ fleb (unit_value j) (f64_of_Z 1) = true.
Proof.
  intros [(z & -> & Hz)|(f & -> & Hf & H0 & H1)].
  - assert (z = 0 ∨ z = 1) as [->| ->] by lia; by vm_compute.
  - done.
Qed.

Lemma member_field m k j : assoc_get k m = Some j → member k (JObj m) = Ok j.
Proof. intros Hj. simpl. unfold get_or. by rewrite Hj. Qed.

(** The verdict of one safety code. *)
Definition verdict (cf : list (str * json)) (code : str) (b : bool) : Prop :=
  ∃ c, assoc_get code cf = Some (JObj c) ∧ assoc_get (u "detected") c = Some (JBool b).

Lemma classify_strict policy cf code sw :
  (∃ c, assoc_get code cf = Some (JObj c) ∧ field c "detected" (λ d, ∃ b, d = JBool b)
        ∧ field c "confidence" (is_number 0 1)) →
  ∃ cl, classify policy true (JObj cf) (code, sw) = Ok cl ∧ cl_code cl = code ∧ verdict cf code (cl_matched cl).
Proof.
  destruct sw as [switch thr]. intros (c & Hc & (d & Hd & b & ->) & (j & Hj & Hn)).
  destruct (unit_float j Hn) as (Hf & _ & _).
  unfold classify. rewrite (member_field _ _ _ Hc). cbn [rbind]. rewrite (member_field _ _ _ Hj). cbn [rbind].
  rewrite Hf. cbn [rbind]. rewrite (member_field _ _ _ Hd). cbn [rbind].
  eexists. split; [done|]. split; [done|]. cbn [cl_matched]. exists c. split; [done|]. by rewrite Hd, !andb_true_r.
Qed.

Lemma map_result_ok {A B} (f : A → result verror B) l r :
  Forall2 (λ x y, f x = Ok y) l r → map_result f l = Ok r.
Proof. induction 1 as [|x y l r Hxy Hlr IH]; simpl; [done|]. by rewrite Hxy, IH. Qed.

(** In strict mode a photo is excluded exactly when some code is detected,
    whatever the confidence and the settings. *)
Lemma content_strict_spec policy cf :
  is_content_filter (JObj cf) →
  ∃ fr, evaluate_content_filter policy true (JObj cf) = Ok fr ∧
    (fr_decision fr = Pass ∧ (∀ code, code ∈ CONTENT_FILTER_CODES → verdict cf code false)
     ∨ fr_decision fr = AutoExcluded ∧ ∃ code, code ∈ CONTENT_FILTER_CODES ∧ verdict cf code true).
Proof.
  intros (m & [= <-] & Hall).
  assert (Hcode : ∀ code, code ∈ CONTENT_FILTER_CODES → ∀ sw, ∃ cl,
    classify policy true (JObj cf) (code, sw) = Ok cl ∧ cl_code cl = code ∧ verdict cf code (cl_matched cl)).
  { intros code Hc sw. apply classify_strict. by apply Hall. }
  assert (Hin : u "sexualized_content" ∈ CONTENT_FILTER_CODES ∧ u "explicit_nudity" ∈ CONTENT_FILTER_CODES
    ∧ u "female_glamour_portrait" ∈ CONTENT_FILTER_CODES).
  { split_and!; apply str_in_elem; vm_compute; reflexivity. }
  destruct Hin as (I1 & I2 & I3).
  destruct (Hcode _ I1 (exclude_sexualized, content_min_confidence)) as (c1 & E1 & N1 & V1).
  destruct (Hcode _ I2 (exclude_nudity, content_min_confidence)) as (c2 & E2 & N2 & V2).
  destruct (Hcode _ I3 (exclude_glamour, glamour_min_confidence)) as (c3 & E3 & N3 & V3).
  unfold evaluate_content_filter.
  rewrite (map_result_ok _ _ [c1; c2; c3]) by (repeat constructor; done). cbn [rbind].
  eexists. split; [done|]. cbn [fr_decision List.filter].
  destruct (cl_matched c1); [right; split; [reflexivity|eexists; split; [exact I1|exact V1]]|].
  destruct (cl_matched c2); [right; split; [reflexivity|eexists; split; [exact I2|exact V2]]|].
  destruct (cl_matched c3); [right; split; [reflexivity|eexists; split; [exact I3|exact V3]]|].
  left. split; [reflexivity|]. intros code Hc. unfold CONTENT_FILTER_CODES in Hc; cbn [map] in Hc.
  rewrite !elem_of_cons, elem_of_nil in Hc. destruct Hc as [->|[->|[->|[]]]]; assumption.
Qed.

(** The display verdict of an accepted result: excluded when a category is
    confident, passed only for a confident "none", held otherwise. *)
Lemma display_spec d :
  field d "category" (is_code DISPLAY_EXCLUSION_CATEGORIES) → field d "confidence" (is_number 0 1) →
  ∃ cat conf reason, assoc_get (u "category") d = Some (JStr cat) ∧ assoc_get (u "confidence") d = Some conf ∧
    let sure := fleb DISPLAY_RISK_MIN_CONFIDENCE (unit_value conf) in
    evaluate_display_exclusion (JObj d)
    = Ok (if str_eqb cat (u "none") then (if sure then Pass else PendingReview)
          else if sure then AutoExcluded else PendingReview, reason).
Proof.
  intros (j & Hj & cat & -> & Hcat) (conf & Hconf & Hn). destruct (unit_float conf Hn) as (Hf & H0 & H1).
  exists cat, conf. eexists. split; [done|]. split; [done|]. cbv zeta. unfold evaluate_display_exclusion.
  rewrite (member_field _ _ _ Hj). cbn [rbind]. rewrite (member_field _ _ _ Hconf). cbn [rbind]. rewrite Hf. cbn [rbind text_of].
  apply str_in_elem in Hcat. rewrite Hcat, H0, H1. cbn [negb orb andb raise_if rbind]. reflexivity.
Qed.

Context (convert : str → str) (int_of : str → option Z).

(** The stored analysis clears the photo: no safety code detected, and the
    display category is a confident "none"; an uncertain category may be
    cleared only by an operator's restore. *)
Definition cleared (r : photo_row) : Prop :=
  ∃ raw m cf d cat conf,
    ph_raw r = Some raw
    ∧ validate_analysis_result convert (RawValue raw) SUPPORTED_ANALYSIS_SCHEMA_VERSIONS = Ok (JObj m)
    ∧ typed_analysis 6 m
    ∧ assoc_get (u "content_filter") m = Some (JObj cf)
    ∧ (∀ code, code ∈ CONTENT_FILTER_CODES → verdict cf code false)
    ∧ assoc_get (u "display_exclusion") m = Some (JObj d)
    ∧ assoc_get (u "category") d = Some (JStr cat) ∧ assoc_get (u "confidence") d = Some conf
    ∧ (if fleb DISPLAY_RISK_MIN_CONFIDENCE (unit_value conf) then cat = u "none"
       else ph_exclusion r = u "manually_restored" ∧ ph_override r = true).

Lemma member_inv k m j : member k (JObj m) = Ok j → assoc_get k m = Some j.
Proof. simpl. unfold get_or. destruct (assoc_get k m); [by intros [= ->]|done]. Qed.

Lemma safety_passed_cleared r :
  safety_passed convert int_of r = true → is_confirmed_screenshot r = false ∧ cleared r.
Proof.
  unfold safety_passed. destruct (safety_result convert int_of r) as [b|] eqn:E; [|done]. intros ->.
  unfold safety_result in E. destruct (is_confirmed_screenshot r); [done|]. split; [done|].
  destruct (ph_raw r) as [raw|] eqn:Hraw; [|done].
  apply rbind_ok in E as (analysis & Hval & E).
  destruct (accepted_typed _ _ _ _ Hval) as (ver & m & -> & _ & Ht).
  apply rbind_ok in E as (v & Hv%member_inv & E). destruct (ta_version _ _ Ht) as (j & Hj & ->).
  rewrite Hj in Hv. injection Hv as <-. destruct (negb _) eqn:Hver; [done|].
  assert (ver = 6) as -> by (destruct ver as [|p|p]; try done; do 3 (destruct p as [p|p|]; try done)).
  apply rbind_ok in E as (cfj & Hcf%member_inv & E).
  destruct (ta_filter _ _ Ht) as (j' & Hj' & Hfilter). rewrite Hj' in Hcf. injection Hcf as <-.
  destruct Hfilter as (cf & -> & Hcodes).
  destruct (content_strict_spec CONTENT_FILTER_DEFAULTS cf (ex_intro _ cf (conj eq_refl Hcodes))) as (fr & Hfr & Hdec).
  rewrite Hfr in E. cbn [rbind] in E. apply rbind_ok in E as (dj & Hd%member_inv & E).
  destruct (ta_exclusion _ _ Ht eq_refl) as (j2 & Hj2 & d & -> & Hcat & Hconf). rewrite Hj2 in Hd. injection Hd as <-.
  destruct (display_spec d Hcat Hconf) as (cat & conf & reason & Hc1 & Hc2 & Hde). rewrite Hde in E. cbn [rbind fst] in E.
  destruct Hdec as [[Hpass Hclean]|[Hex _]]; [|by rewrite Hex in E].
  rewrite Hpass in E. exists raw, m, cf, d, cat, conf.
  split; [exact Hraw|]. split; [exact Hval|]. split; [exact Ht|]. split; [exact Hj'|]. split; [exact Hclean|].
  split; [exact Hj2|]. split; [exact Hc1|]. split; [exact Hc2|].
  destruct (existsb (λ d, bool_decide (d = AutoExcluded)) _) eqn:EA; [discriminate E|].
  destruct (existsb (λ d, bool_decide (d = PendingReview)) _ && _) eqn:EB; [discriminate E|]. clear E.
  destruct (fleb DISPLAY_RISK_MIN_CONFIDENCE (unit_value conf)).
  - apply str_eqb_eq. destruct (str_eqb cat (u "none")); [reflexivity|discriminate EA].
  - assert (EB' : negb (str_eqb (ph_exclusion r) (u "manually_restored") && ph_override r) = false)
      by (destruct (str_eqb cat (u "none")); exact EB).
    apply Bool.negb_false_iff, andb_prop in EB' as [E1%str_eqb_eq E2]. split; [exact E1|exact E2].
Qed.

Lemma local_safety_cleared r :
  local_safety_passed convert int_of r = true →
  is_confirmed_screenshot r = false ∧
  (ph_score_kind r = semantic → rotation_in (ph_schema_version r) [4; 5] = false → cleared r).
Proof.
  unfold local_safety_passed. destruct (is_confirmed_screenshot r); [done|]. intros Hs. split; [done|].
  intros Hk Hv. rewrite Hk, str_eqb_refl, Hv in Hs. by apply safety_passed_cleared.
Qed.

(** What every photo handed to a release satisfies. *)
Record releasable (caption : bool) (r : photo_row) : Prop := {
  rl_enabled : ph_library_enabled r = true;
  rl_active : ph_lifecycle r = u "active";
  rl_allowed : ph_never_display r = false ∧ displayable_status r = true;
  rl_file : ph_file_present r = true;
  rl_local : ph_eligible r = true ∧ ph_local_status r = u "complete";
  rl_screenshot : is_confirmed_screenshot r = false;
  rl_cleared : caption = true ∨ (ph_score_kind r = semantic ∧ rotation_in (ph_schema_version r) [4; 5] = false) →
    cleared r;
  rl_analysis : caption = true → analysis_eligible r = true;
}.

Lemma resolve_one_releasable photo_only photos id r :
  resolve_one convert int_of photo_only photos id = Ok r →
  r ∈ photos ∧ ph_id r = id ∧ releasable (negb photo_only) r.
Proof.
  unfold resolve_one. destruct (row_of photos id) as [r0|] eqn:Hrow; [|done]. intros E.
  unfold row_of in Hrow. apply List.find_some in Hrow as [Hin Hid]. apply str_eqb_eq in Hid.
  apply rbind_ok in E as ([] & E1%raise_if_ok & E). apply rbind_ok in E as ([] & E2%raise_if_ok & E).
  apply rbind_ok in E as ([] & E3%raise_if_ok & E). apply rbind_ok in E as ([] & E4%raise_if_ok & E).
  apply rbind_ok in E as ([] & E5%raise_if_ok & E). apply rbind_ok in E as ([] & _ & E). injection E as <-.
  split; [by apply list_elem_of_In|]. split; [done|].
  apply Bool.negb_false_iff in E1, E2, E4, E5. apply str_eqb_eq in E2. apply Bool.orb_false_iff in E3 as [E3a E3b].
  apply Bool.negb_false_iff in E3b. apply andb_prop in E5 as [E5 Ean]. apply andb_prop in E5 as [Eloc Esafe].
  unfold local_eligible in Eloc. apply andb_prop in Eloc as [El1 El2]. apply str_eqb_eq in El2.
  destruct photo_only; cbn [negb orb] in *.
  - destruct (local_safety_cleared r0 Esafe) as [Hs Hc]. split; try done. intros [?|[Hk Hv]]; [done|auto].
  - destruct (safety_passed_cleared r0 Esafe) as [Hs Hc]. by split.
Qed.

Lemma resolve_each_releasable photo_only photos ids rows :
  resolve_each convert int_of photo_only photos ids = Ok rows →
  map ph_id rows = ids ∧ Forall (λ r, r ∈ photos ∧ releasable (negb photo_only) r) rows.
Proof.
  revert rows. induction ids as [|id ids IH]; intros rows E; cbn [resolve_each] in E; [by injection E as <-|].
  apply rbind_ok in E as (r & Hr & E). apply rbind_ok in E as (rest & Hrest & E). injection E as <-.
  destruct (resolve_one_releasable _ _ _ _ Hr) as (Hin & Hid & Hrel). destruct (IH rest Hrest) as [Hids Hall].
  cbn [map]. rewrite Hid, Hids. split; [done|]. by constructor.
Qed.

(** C27. Only safe photos reach a release: whatever ids are requested, every
    photo returned is one of the requested ones, once and in order, at most
    200; its library is enabled, its file present, it is not excluded and not
    a screenshot, its local checks are complete; and with captions, or whenever
    a current model verdict exists, its stored v6 analysis is well typed, no
    safety code was detected, and the display category is a confident "none",
    which an operator can override only when the model was uncertain. *)
Theorem released_photos_are_safe photos ids mode rows :
  require_for_execution_mode convert int_of photos ids mode = Ok rows →
  map ph_id rows = fromkeys (nonempty_ids (map strip ids)) ∧ Z.of_nat (length rows) ≤ MAX_REQUESTED ∧
  Forall (λ r, r ∈ photos ∧ releasable (negb (str_eqb mode (u "photo_only"))) r) rows.
Proof.
  unfold require_for_execution_mode. cbv zeta. intros E. apply rbind_ok in E as ([] & Hlen%raise_if_ok & E).
  apply Z.ltb_ge in Hlen. destruct (fromkeys _) as [|id l] eqn:Hids.
  - injection E as <-. split; [done|]. split; [|constructor]. cbn. unfold MAX_REQUESTED. lia.
  - apply rbind_ok in E as ([] & _ & E). apply resolve_each_releasable in E as [Hmap Hall].
    split; [done|]. split; [|done]. rewrite <- Hmap, length_map in Hlen. lia.
Qed.

(** Local quality: a confirmed screenshot is excluded whatever the settings
    and whoever marked the photo; nothing else is ever excluded from a
    favourite or manually decided photo, nor while the prefilter is off; and a
    measurement that is missing excludes nothing. *)
Theorem local_quality_conservative s r :
  (is_confirmed_screenshot r = true → fst (evaluate_local_quality s r) = QAutoExcluded) ∧
  (is_confirmed_screenshot r = false → protected r = true ∨ prefilter_enabled s = false →
   fst (evaluate_local_quality s r) ≠ QAutoExcluded) ∧
  (ph_contrast r = None → prefilter_screenshots s = false →
   fst (evaluate_local_quality s r) = QAutoExcluded →
   is_confirmed_screenshot r = true ∨ short_edge_under_240 (run_checks s r) = true
   ∨ document_token_with_evidence (run_checks s r) = true).
Proof.
  unfold evaluate_local_quality. change (screenshot_strong (run_checks s r)) with (is_confirmed_screenshot r). cbn [fst].
  split_and!.
  - by intros ->.
  - intros ->. intros [Hp|He]; [rewrite Hp|rewrite He]; cbn [negb]; repeat case_goal; done.
  - intros Hc Hs. destruct (is_confirmed_screenshot r) eqn:Hscr; [auto|]. intros Hd. right.
    destruct (short_edge_under_240 (run_checks s r)) eqn:E1; [auto|].
    destruct (document_token_with_evidence (run_checks s r)) eqn:E2; [auto|]. exfalso.
    assert (Hex : excluded_reasons s (run_checks s r) = []).
    { unfold excluded_reasons. rewrite E1, E2, Hs.
      change (screenshot_strong (run_checks s r)) with (is_confirmed_screenshot r). rewrite Hscr.
      assert (severe_blur (run_checks s r) = false) as -> by (cbn; by rewrite Hc, andb_false_r).
      assert (tiny_empty (run_checks s r) = false) as -> by (cbn; by rewrite Hc, andb_false_r).
      assert (extreme_exposure_low_contrast (run_checks s r) = false) as -> by (cbn; by rewrite Hc, andb_false_r).
      by rewrite !andb_false_r. }
    rewrite Hex in Hd. revert Hd. repeat case_goal; done.
Qed.

Lemma fle_lt_total x y : is_nan x = false → is_nan y = false → fltb x y = negb (fleb y x).
Proof.
  intros Hx Hy. pose proof (fcompare_rank x y Hx Hy) as H1. pose proof (fcompare_rank y x Hy Hx) as H2.
  unfold fltb, fleb, SpecFloat.SFltb, SpecFloat.SFleb. unfold f_lt, f_eq in *.
  destruct (SpecFloat.SFcompare x y) as [[]|], (SpecFloat.SFcompare y x) as [[]|]; try done; lia.
Qed.

Lemma unit_not_nan j : is_number 0 1 j → is_nan (unit_value j) = false.
Proof.
  intros [(z & -> & Hz)|(f & -> & Hf & _)]; [|by destruct f].
  assert (z = 0 ∨ z = 1) as [->| ->] by lia; vm_compute; reflexivity.
Qed.

(** A turned photo waits for a human exactly when the renderer would not
    turn it: for an accepted orientation with rotation 90, 180 or 270, the
    review hold is set if and only if the effective orientation (manual
    decision first, then confident and unambiguous advice, then none) differs
    from the advice for want of proof. *)
Theorem hold_iff_renderer_ignores_turn r o z amb conf ev exif :
  orientation_at o (Some z) amb conf ev → z ≠ 0 →
  let e := resolve_effective_orientation exif (ph_manual_rotation r) (Some z) (Some (unit_value conf)) amb in
  (_orientation_review int_of r (JObj o) = Ok true ↔ eo_source e ≠ Manual ∧ rotation_degrees e ≠ z) ∧
  (eo_source e = Ai → rotation_degrees e = z ∧ amb = false).
Proof.
  intros Hat Hz e. pose proof Hat as [Hr Ha Hc He Hq Hu _ _ _]. specialize (Hq z eq_refl).
  destruct (unit_float conf Hu) as (Hf & _ & _).
  unfold _orientation_review. rewrite (member_field _ _ _ Hr). cbn [rbind]. rewrite (member_field _ _ _ Hc). cbn [rbind].
  rewrite Hf. cbn [rbind]. rewrite (member_field _ _ _ Ha). cbn [rbind]. rewrite (member_field _ _ _ He). cbn [rbind].
  cbn [from_option json_rotation truthy]. rewrite andb_false_l, orb_false_r.
  assert (Hturn : rotation_in (Some z) [90; 180; 270] = true ∧ rotation_in (Some z) ROTATIONS = true).
  { rewrite !elem_of_cons, elem_of_nil in Hq. destruct Hq as [->|[->|[->|[->|[]]]]]; by vm_compute. }
  destruct Hturn as [-> Hrot]. cbn [andb].
  rewrite fle_lt_total by (try (by apply unit_not_nan); unfold rotation_threshold; case_goal; vm_compute; reflexivity).
  subst e. unfold resolve_effective_orientation. rewrite Hrot. cbn [andb default].
  destruct (rotation_in (ph_manual_rotation r) ROTATIONS); cbn [eo_source rotation_degrees].
  - split; [|done]. split; [done|]. by intros [H1 _].
  - generalize (fleb (rotation_threshold (Some z)) (unit_value conf)).
    generalize (rotation_in exif [2; 3; 4; 5; 6; 7; 8]). intros norm sure.
    destruct amb, sure, norm; cbn; split; try done; try (split; [intros _; split; congruence|by intros _]);
      (split; [done|by intros [_ H2]]).
Qed.
End theorems.

(** ** Witnesses *)

#[local] Instance ascii_text : PyText :=
  {| casefold := map (λ c, if (65 <=? c) && (c <=? 90) then c + 32 else c);
     word_char := λ c, negb (is_space c) && negb (c =? 46) && negb (c =? 45);
     str_of := λ j, match j with JStr s => s | _ => [] end;
     float_of := λ _, None |}.

Definition demo_analysis (detected : bool) : json :=
  let verdict_of d := JObj [(u "detected", JBool d); (u "confidence", JFloat (dec 3 10))] in
  JObj [(u "schema_version", JInt 6); (u "types", JList [JStr (u "日常")]); (u "memory_score", JInt 60);
        (u "visual_score", JInt 50); (u "special_level", JInt 1); (u "side_caption", JStr (u "午後的光"));
        (u "content_filter", JObj [(u "sexualized_content", verdict_of detected); (u "explicit_nudity", verdict_of false);
                                   (u "female_glamour_portrait", verdict_of false)]);
        (u "visual_orientation", JObj [(u "rotation_cw", JInt 90); (u "confidence", JFloat (dec 99 100));
           (u "ambiguous", JBool false); (u "evidence", JList [JStr (u "horizon_level")])]);
        (u "display_exclusion", JObj [(u "category", JStr (u "none")); (u "confidence", JInt 1)])].
Definition demo_photo (detected : bool) (exclusion : string) : photo_row :=
  mk_photo_row (u "p1") true (u "active") false (u exclusion) true false (u "analyzed") true (u "complete")
    (Some (f64_of_Z 50)) (u "2024/beach.jpg") true 4000 3000 (u "JPEG") (u "Canon") (u "R6") (Some (JObj []))
    f0 (Some (f64_of_Z 400)) None None None (Some 900000) None (Some 1) semantic (Some 6) (Some (f64_of_Z 57))
    (Some (demo_analysis detected)).

(** A detected code blocks even a manually restored photo. *)
Example restored_photo_still_blocked :
  resolve_one id (λ _, None) false [demo_photo true "manually_restored"] (u "p1") = Raise (IneligiblePhoto (u "p1") 7).
Proof. vm_compute. done. Qed.

Lemma released_photos_are_safe_witness :
  releasable id true (demo_photo false "eligible").
Proof.
  destruct (released_photos_are_safe id (λ _, None) [demo_photo false "eligible"] [u " p1"] (u "photo_caption")
    [demo_photo false "eligible"]) as (_ & _ & Hall); [vm_compute; reflexivity|].
  apply Forall_cons_1 in Hall as [[_ Hr] _]. exact Hr.
Defined.

Lemma hold_iff_renderer_ignores_turn_witness :
  ∃ o, orientation_at o (Some 90) false (JFloat (dec 99 100)) [u "horizon_level"] ∧
  rotation_degrees (resolve_effective_orientation None None (Some 90) (Some (dec 99 100)) false) = 90.
Proof.
  set (o := [(u "rotation_cw", JInt 90); (u "confidence", JFloat (dec 99 100));
             (u "ambiguous", JBool false); (u "evidence", JList [JStr (u "horizon_level")])]).
  assert (Hat : orientation_at o (Some 90) false (JFloat (dec 99 100)) [u "horizon_level"]).
  { constructor; try reflexivity.
    - intros z [= <-]. right. left.
    - right. exists (dec 99 100). by vm_compute.
    - cbn. lia.
    - apply NoDup_singleton.
    - apply Forall_singleton, str_in_elem. vm_compute. reflexivity. }
  exists o. split; [exact Hat|].
  destruct (hold_iff_renderer_ignores_turn (λ _, None) (demo_photo false "eligible") o 90 false
    (JFloat (dec 99 100)) [u "horizon_level"] None Hat) as [_ H]; [lia|].
  apply H. vm_compute. reflexivity.
Defined.

Lemma local_quality_conservative_witness :
  fst (evaluate_local_quality (mk_quality_settings false false false (u "conservative"))
         (demo_photo false "eligible")) ≠ QAutoExcluded.
Proof.
  destruct (local_quality_conservative (mk_quality_settings false false false (u "conservative"))
    (demo_photo false "eligible")) as (_ & H & _).
  apply H; [vm_compute; reflexivity|right; reflexivity].
Defined.
