(* ===== verification/Billing.v ===== *)
(** * Billable operations

    Models [BillableOperationRepository] of
    [inktime/app/repositories/billable_operations.py]: the durable record of
    every paid Vision request, which decides whether a request may be sent.
    The tables it reads beside the queue's are columns of [bill]; a saved
    response is the JSON value of [response_json] (its decoding into
    [ProviderResponse] is left to the provider layer).  [render] is
    [json.dumps].  SQLite leaves the order of rows with equal [created_at]
    open; the model takes the later insert, as the index scan does. *)

From S2P Require Import Prelude PyStr PyFloat Json Sql Store Reservations.
Local Open Scope Z_scope.

Inductive op_state : Type := Started | Responded | Finished | NotSent | Approved.

#[export] Instance op_state_eq_dec : EqDecision op_state.
Proof. solve_decision. Defined.

Record operation := mk_operation {
  o_id : str; o_sha : str; o_fp : str; o_state : op_state; o_response : option json;
  o_note : option str; o_created : Z; o_updated : Z; o_signature : option str }.

Definition operation_eta (o : operation) : operation :=
  mk_operation (o_id o) (o_sha o) (o_fp o) (o_state o) (o_response o) (o_note o) (o_created o)
    (o_updated o) (o_signature o).

#[export] Instance set_o_state : Settable o_state := ltac:(derive_setter operation_eta o_state).
#[export] Instance set_o_response : Settable o_response := ltac:(derive_setter operation_eta o_response).
#[export] Instance set_o_note : Settable o_note := ltac:(derive_setter operation_eta o_note).
#[export] Instance set_o_updated : Settable o_updated := ltac:(derive_setter operation_eta o_updated).

(** [ai_cache_reservations]: cache_key, status = 'reserved', lease_until. *)
Record cache_reservation := mk_cache { cr_key : str; cr_reserved : bool; cr_lease : Z }.

Record bill := mk_bill {
  store : db; operations : list operation; cache_reservations : list cache_reservation;
  model_results : list str;            (* model_analysis_results.content_sha256 *)
  seasonal_tasks : list (str * str) }. (* seasonal_analysis_tasks: job_id, content_sha256 *)

Definition bill_eta (b : bill) : bill :=
  mk_bill (store b) (operations b) (cache_reservations b) (model_results b) (seasonal_tasks b).

#[export] Instance set_operations : Settable operations := ltac:(derive_setter bill_eta operations).

Inductive bill_exn : Type :=
| IdempotencyConflict | Unreconciled | SeasonalAlreadyProcessed | ReservationConflict
| MissingResponse | SqlError | MissingReason | NotPending.

Definition in_state (s : op_state) (o : operation) : bool := bool_decide (o_state o = s).
Definition of_content (sha : str) (o : operation) : bool := str_eqb (o_sha o) sha.
Definition of_request (fp : str) (o : operation) : bool := str_eqb (o_fp o) fp.

(** [state='started'] for the content: an unresolved paid request. *)
Definition unknown (b : bill) (sha : str) : bool :=
  existsb (λ o, of_content sha o && in_state Started o) (operations b).

(** ORDER BY created_at DESC LIMIT 1 *)
Definition newest_op (p : operation → bool) (b : bill) : option operation :=
  head (sort_by (λ x y, o_created y <=? o_created x) (rev (List.filter p (operations b)))).

(** [state='response' OR (reuse_completed AND state='completed')] *)
Definition reusable (reuse_completed : bool) (fp : str) (o : operation) : bool :=
  of_request fp o && (in_state Responded o || reuse_completed && in_state Finished o).

Definition no_batch_owner (b : bill) (sha : str) : result bill_exn unit :=
  raise_if (batch_content_owner (store b) sha) ReservationConflict.

(** [ai_cache_reservations] shows no live owner of the started request. *)
Definition orphaned (b : bill) (t : Z) (o : operation) : bool :=
  match List.find (λ r, str_eqb (cr_key r) (o_fp o)) (cache_reservations b) with
  | None => true
  | Some r => negb (cr_reserved r) || (cr_lease r <=? t)
  end.

Definition check_retry (b : bill) (t : Z) (sha fp : str) (reuse_completed : bool) : result bill_exn bool :=
  raise_if (existsb (λ o, of_content sha o && in_state Started o && orphaned b t o) (operations b))
    Unreconciled ;;;
  let saved := existsb (reusable reuse_completed fp) (operations b) in
  (if saved then Ok tt else no_batch_owner b sha) ;;;
  Ok saved.

(** The call context: the members [begin] reads, and the whole dict. *)
Record call_context := mk_context {
  cx_signature : option str; cx_job : option str; cx_all : list (str * json) }.

Definition cx_sig (c : option call_context) : option str :=
  match c with Some c => cx_signature c | None => None end.
Definition cx_job_id (c : option call_context) : option str :=
  match c with Some c => cx_job c | None => None end.

(** [json_extract(settings_json, '$.k')]; malformed settings are an SQL error. *)
Definition json_extract (j : job) (k : str) : result bill_exn (option json) :=
  match j_settings j with
  | Some (JObj m) => Ok (assoc_get k m)
  | Some _ => Ok None
  | None => Raise SqlError
  end.

(** [json_extract(..)=1] *)
Definition sql_is_one (v : option json) : bool :=
  match v with
  | Some (JBool b) => b
  | Some (JInt z) => z =? 1
  | Some (JFloat f) => feqb f (f64_of_Z 1)
  | _ => false
  end.

(** Python truth of an extracted value: arrays and objects come as text. *)
Definition extracted_truthy (v : option json) : bool :=
  match v with Some (JList _ | JObj _) => true | Some v => truthy v | None => false end.

Definition job_of (b : bill) (k : option str) : option job :=
  match k with Some k => get_row j_id k (jobs (store b)) | None => None end.

(** The backfill job of the context already has a complete result. *)
Definition backfill_done (b : bill) (c : option call_context) (sha : str) : result bill_exn bool :=
  match job_of b (cx_job_id c) with
  | None => Ok false
  | Some j => let* v := json_extract j (u "missing_analysis_backfill") in
              Ok (sql_is_one v && str_in sha (model_results b))
  end.

(** A seasonal task that neither forces nor retries, for content already paid. *)
Definition seasonal_done (b : bill) (c : option call_context) (sha : str) : result bill_exn bool :=
  match job_of b (cx_job_id c) with
  | None => Ok false
  | Some j =>
      if existsb (λ t, str_eqb (fst t) (j_id j) && str_eqb (snd t) sha) (seasonal_tasks b)
      then let* v := json_extract j (u "seasonal_retry_task_id") in
           Ok (negb (j_force_recompute j) && negb (extracted_truthy v)
               && existsb (λ o, of_content sha o && (in_state Responded o || in_state Finished o)) (operations b))
      else Ok false
  end.

Section rendered.
Context (render : json → str).

(** [json.dumps(context) if context else None] *)
Definition context_note (c : option call_context) : option str :=
  match c with
  | Some c => match cx_all c with [] => None | m => Some (render (JObj m)) end
  | None => None
  end.

Definition new_operation (k sha fp : str) (t : Z) (c : option call_context) : operation :=
  mk_operation k sha fp Started None (context_note c) t t (cx_sig c).

Definition signature_conflict (prior : operation) (c : option call_context) : bool :=
  opt_truthy (cx_sig c) && negb (bool_decide (o_signature prior = cx_sig c)).

Definition begin (b : bill) (t : Z) (k sha fp : str) (reuse_completed : bool) (c : option call_context)
  : result bill_exn ((str * option json) * bill) :=
  (match newest_op (of_request fp) b with
   | Some prior =>
       raise_if (negb (str_eqb (o_sha prior) sha)) IdempotencyConflict ;;;
       raise_if (signature_conflict prior c) IdempotencyConflict
   | None => Ok tt
   end) ;;;
  raise_if (unknown b sha) Unreconciled ;;;
  match newest_op (reusable reuse_completed fp) b with
  | Some saved =>
      match o_response saved with
      | Some payload => Ok ((o_id saved, Some payload), b)
      | None => Raise MissingResponse
      end
  | None =>
      let* done_ := backfill_done b c sha in
      raise_if done_ SeasonalAlreadyProcessed ;;;
      let* paid := seasonal_done b c sha in
      raise_if paid SeasonalAlreadyProcessed ;;;
      no_batch_owner b sha ;;;
      raise_if (has_key o_id k (operations b)) SqlError ;;;
      Ok ((k, None), b <| operations := operations b ++ [new_operation k sha fp t c] |>)
  end.
End rendered.

Definition save_response (b : bill) (t : Z) (k : str) (response : json) : bill :=
  b <| operations := update_where (by_key o_id k)
         (λ o, o <| o_state := Responded |> <| o_response := Some response |> <| o_updated := t |>)
         (operations b) |>.

Definition is_completed (b : bill) (k : str) : bool :=
  match get_row o_id k (operations b) with Some o => in_state Finished o | None => false end.

Definition finish (b : bill) (t : Z) (k : str) (not_sent : bool) : bill :=
  b <| operations := update_where (by_key o_id k)
         (λ o, o <| o_state := if not_sent then NotSent else Finished |> <| o_updated := t |>)
         (operations b) |>.

Definition rejected_note : str := u "OpenAI definitive HTTP rejection; model execution was not accepted".

Definition finish_rejected (b : bill) (t : Z) (k : str) : bill :=
  b <| operations := update_where (λ o, by_key o_id k o && in_state Started o)
         (λ o, o <| o_state := NotSent |> <| o_note := Some rejected_note |> <| o_updated := t |>)
         (operations b) |>.

Definition append_note (old : option str) (reason : str) : str :=
  match old with Some s => s ++ [10] | None => [] end ++ reason.

Definition approvable (k : str) (o : operation) : bool :=
  by_key o_id k o && (in_state Started o || in_state Responded o).

Definition approve_resend (b : bill) (t : Z) (k reason : str) : result bill_exn bill :=
  raise_if (str_eqb (strip reason) []) MissingReason ;;;
  raise_if (negb (existsb (approvable k) (operations b))) NotPending ;;;
  Ok (b <| operations := update_where (approvable k)
             (λ o, o <| o_state := Approved |>
                     <| o_note := Some (append_note (o_note o) (take 2000 (strip reason))) |>
                     <| o_updated := t |>) (operations b) |>).

(** ** Interleavings

    The operations of all workers, in the order their transactions commit;
    [BEnv] is any change the rest of the program makes to the other tables. *)

Inductive bill_op : Type :=
| BBegin (t : Z) (k sha fp : str) (reuse : bool) (c : option call_context)
| BSave (t : Z) (k : str) (response : json)
| BFinish (t : Z) (k : str) (not_sent : bool)
| BReject (t : Z) (k : str)
| BApprove (t : Z) (k reason : str)
| BEnv (others : bill).

Definition bill_exec (render : json → str) (b : bill) (o : bill_op) : bill :=
  match o with
  | BBegin t k sha fp reuse c => match begin render b t k sha fp reuse c with Ok (_, b') => b' | Raise _ => b end
  | BSave t k r => save_response b t k r
  | BFinish t k ns => finish b t k ns
  | BReject t k => finish_rejected b t k
  | BApprove t k reason => match approve_resend b t k reason with Ok b' => b' | Raise _ => b end
  | BEnv e => e <| operations := operations b |>
  end.

(** The operation a step settles: the model answered, refused, was never
    reached, or an operator took responsibility. *)
Definition settles (o : bill_op) (k : str) : bool :=
  match o with
  | BSave _ k' _ | BFinish _ k' _ | BReject _ k' | BApprove _ k' _ => str_eqb k k'
  | BBegin _ _ _ _ _ _ | BEnv _ => false
  end.

Definition open_op (sha : str) (o : operation) : bool := of_content sha o && in_state Started o.

Lemma newest_op_elem p b o : newest_op p b = Some o → o ∈ operations b ∧ p o = true.
Proof.
  intros H%head_Some_elem_of. rewrite sort_by_elem, list_elem_of_In, <- in_rev in H.
  apply filter_In in H as [H ?]. by rewrite list_elem_of_In.
Qed.

Lemma newest_op_last p b o l :
  operations b = l ++ [o] → p o = true → Forall (λ x, o_created x ≤ o_created o) l →
  newest_op p b = Some o.
Proof.
  intros E Hp Hl. unfold newest_op. rewrite E, List.filter_app. cbn [List.filter]. rewrite Hp, rev_unit.
  cbn [sort_by]. rewrite insert_by_front; [done|]. apply Forall_forall. intros y Hy.
  rewrite sort_by_elem, list_elem_of_In, <- in_rev in Hy. apply filter_In in Hy as [Hy _].
  rewrite Forall_forall in Hl. apply Z.leb_le, Hl. by apply list_elem_of_In.
Qed.

(** Every outcome of [begin]: it hands out a recorded response, or it
    authorizes one new request and records it. *)
Lemma begin_inv render b t k sha fp reuse c k' r b' :
  begin render b t k sha fp reuse c = Ok ((k', r), b') →
  unknown b sha = false ∧
  match r with
  | Some payload => b' = b ∧ ∃ o, newest_op (reusable reuse fp) b = Some o ∧ o_id o = k' ∧
                                  o_response o = Some payload
  | None => k' = k ∧ newest_op (reusable reuse fp) b = None ∧ batch_content_owner (store b) sha = false ∧
            has_key o_id k (operations b) = false ∧
            b' = b <| operations := operations b ++ [new_operation render k sha fp t c] |>
  end.
Proof.
  unfold begin. intros H. apply rbind_ok in H as (? & _ & H). apply rbind_ok in H as (? & Hu & H).
  apply raise_if_ok in Hu. split; [done|].
  destruct (newest_op (reusable reuse fp) b) as [o|].
  - destruct (o_response o) eqn:Er; res_inv. eauto 6.
  - unfold no_batch_owner in H. res_inv. eauto.
Qed.

Lemma reusable_none b fp reuse o :
  newest_op (reusable reuse fp) b = None → o ∈ operations b → reusable reuse fp o = false.
Proof.
  intros H Ho. destruct (reusable reuse fp o) eqn:E; [|done]. exfalso. unfold newest_op in H.
  assert (o ∈ sort_by (λ x y, o_created y <=? o_created x)
                (rev (List.filter (reusable reuse fp) (operations b)))) as Hin.
  { rewrite sort_by_elem, list_elem_of_In, <- in_rev, filter_In, <- list_elem_of_In. done. }
  destruct (sort_by _ _); [by apply not_elem_of_nil in Hin|done].
Qed.

(** Steps that settle an operation only ever close it. *)
Lemma count_open_update sha p f l :
  (∀ o, in_state Started (f o) = false) → countb (open_op sha) (update_where p f l) ≤ countb (open_op sha) l.
Proof.
  intros Hf. rewrite countb_update. apply countb_mono. intros o _. destruct (p o); [|done].
  unfold open_op at 1. by rewrite Hf, Bool.andb_false_r.
Qed.

Lemma exec_open_le render b o sha :
  countb (open_op sha) (operations b) ≤ 1 → countb (open_op sha) (operations (bill_exec render b o)) ≤ 1.
Proof.
  intros H. destruct o; cbn [bill_exec]; try done.
  - destruct (begin _ _ _ _ _ _ _ _) as [[[k' r] b']|] eqn:E; [|done]. apply begin_inv in E as [Hu E].
    destruct r as [r|]; [by destruct E as [-> _]|]. destruct E as (_ & _ & _ & _ & ->).
    change (countb (open_op sha) (operations b ++ [new_operation render k sha0 fp t c]) ≤ 1).
    rewrite countb_app, countb_cons, countb_nil.
    destruct (open_op sha (new_operation render k sha0 fp t c)) eqn:Eo; [|lia].
    unfold open_op, of_content in Eo. cbn in Eo. bprop. destruct Eo as [<- _].
    apply countb_zero in Hu. fold (open_op sha0) in Hu.
    enough (countb (open_op sha0) (operations b) = 0) by lia. exact Hu.
  - etrans; [by apply count_open_update|done].
  - etrans; [apply count_open_update; by destruct not_sent|done].
  - etrans; [by apply count_open_update|done].
  - destruct (approve_resend _ _ _ _) as [b'|] eqn:E; [|done]. unfold approve_resend in E. res_inv.
    etrans; [by apply count_open_update|done].
Qed.

(** C6. Whatever the workers do, and however the other tables change, a
    content never has two unresolved paid requests. *)
Theorem one_unresolved_request render b ops sha :
  operations b = [] → countb (open_op sha) (operations (fold_left (bill_exec render) ops b)) ≤ 1.
Proof.
  intros E. assert (countb (open_op sha) (operations b) ≤ 1) as H by by rewrite E.
  clear E. revert b H. induction ops as [|o ops IH]; intros b H; [done|]. apply IH, exec_open_le, H.
Qed.

Lemma exec_keeps_open render b o x :
  x ∈ operations b → settles o (o_id x) = false → x ∈ operations (bill_exec render b o).
Proof.
  intros Hx Hs. destruct o; cbn [bill_exec settles] in *; try done.
  - destruct (begin _ _ _ _ _ _ _ _) as [[[k' r] b']|] eqn:E; [|done]. apply begin_inv in E as [_ E].
    destruct r as [r|]; [by destruct E as [-> _]|]. destruct E as (_ & _ & _ & _ & ->).
    apply elem_of_app. by left.
  - apply update_where_elem. exists x. unfold by_key. by rewrite Hs.
  - apply update_where_elem. exists x. unfold by_key. by rewrite Hs.
  - apply update_where_elem. exists x. unfold by_key. by rewrite Hs.
  - destruct (approve_resend _ _ _ _) as [b'|] eqn:E; [|done]. unfold approve_resend in E. res_inv.
    apply update_where_elem. exists x. unfold approvable, by_key. by rewrite Hs.
Qed.

(** A crash never authorizes a resend: while a request for some content
    is recorded as started, every later [begin] for that content is refused,
    under any fingerprint and after any steps of other workers, until a step
    names that very operation. *)
Theorem unresolved_request_blocks_resend render b ops x t k fp reuse c :
  x ∈ operations b → o_state x = Started → Forall (λ o, settles o (o_id x) = false) ops →
  ∃ e, begin render (fold_left (bill_exec render) ops b) t k (o_sha x) fp reuse c = Raise e ∧
       (e = Unreconciled ∨ e = IdempotencyConflict).
Proof.
  intros Hx Hst Hf. revert b Hx. induction Hf as [|o ops Ho Hf IH]; intros b Hx.
  - cbn [fold_left]. assert (unknown b (o_sha x) = true) as Hu.
    { apply existsb_elem. exists x. unfold of_content, in_state. by rewrite str_eqb_refl, Hst. }
    unfold begin. destruct (newest_op (of_request fp) b) as [p|]; cbn [rbind].
    + destruct (negb _); cbn [raise_if rbind]; [eauto|].
      destruct (signature_conflict p c); cbn [raise_if rbind]; [eauto|]. rewrite Hu. eauto.
    + rewrite Hu. eauto.
  - apply IH. by apply exec_keeps_open.
Qed.

(** A response that was paid for is reused: after a request was
    authorized and its answer saved, the same request (content, fingerprint
    and signature) returns that answer and records nothing new, whatever the
    queue, the Batch tables or the reuse flag say by then. *)
Theorem saved_response_reused render b t k sha fp reuse c b1 t1 r others t2 k2 reuse2 c2 :
  begin render b t k sha fp reuse c = Ok ((k, None), b1) →
  Forall (λ o, o_created o ≤ t) (operations b) →
  cx_sig c2 = cx_sig c →
  let b2 := bill_exec render (save_response b1 t1 k r) (BEnv others) in
  begin render b2 t2 k2 sha fp reuse2 c2 = Ok ((k, Some r), b2).
Proof.
  intros H Hold Hc b2. apply begin_inv in H as [Hu (_ & _ & _ & Hk & ->)].
  set (x := new_operation render k sha fp t c) in *.
  set (y := x <| o_state := Responded |> <| o_response := Some r |> <| o_updated := t1 |>).
  assert (operations b2 = operations b ++ [y]) as E.
  { subst b2. cbn [bill_exec]. unfold save_response.
    change (update_where (by_key o_id k)
      (λ o, o <| o_state := Responded |> <| o_response := Some r |> <| o_updated := t1 |>)
      (operations b ++ [x]) = operations b ++ [y]).
    rewrite update_where_app, update_where_none by exact Hk.
    unfold update_where, by_key. cbn [map]. change (o_id x) with k. by rewrite str_eqb_refl. }
  assert (unknown b2 sha = false) as Hu2.
  { unfold unknown. rewrite E, existsb_app. unfold unknown in Hu. rewrite Hu. cbn [existsb].
    by rewrite Bool.andb_false_r. }
  unfold begin.
  rewrite (newest_op_last (of_request fp) b2 y (operations b)) by
    (done || by unfold of_request; apply str_eqb_refl).
  rewrite (newest_op_last (reusable reuse2 fp) b2 y (operations b)) by
    (done || by unfold reusable, of_request; cbn; rewrite str_eqb_refl).
  cbn [rbind]. change (o_sha y) with sha. rewrite str_eqb_refl. cbn [negb raise_if rbind].
  unfold signature_conflict. change (o_signature y) with (cx_sig c).
  rewrite Hc, bool_decide_eq_true_2 by done. cbn [negb]. rewrite Bool.andb_false_r.
  cbn [raise_if rbind]. by rewrite Hu2.
Qed.

(** [begin] authorizes a new paid request only when no request for the
    content is unresolved, no saved response answers it, and no Batch owns the
    content; it then records exactly that request as started. *)
Theorem new_request_guarded render b t k sha fp reuse c k' b' :
  begin render b t k sha fp reuse c = Ok ((k', None), b') →
  k' = k ∧ unknown b sha = false ∧ batch_content_owner (store b) sha = false ∧
  (∀ o, o ∈ operations b → o_fp o = fp → o_state o ≠ Responded ∧ (reuse = true → o_state o ≠ Finished)) ∧
  operations b' = operations b ++ [new_operation render k sha fp t c] ∧ store b' = store b.
Proof.
  intros [Hu (-> & Hn & Hb & _ & ->)]%begin_inv. do 3 (split; [done|]). split; [|done].
  intros o Ho Hfp. pose proof (reusable_none _ _ _ _ Hn Ho) as Hr.
  unfold reusable, of_request, in_state in Hr. rewrite Hfp, str_eqb_refl in Hr. cbn in Hr.
  apply Bool.orb_false_iff in Hr as [Hr1 Hr2]. rewrite bool_decide_eq_false in Hr1.
  split; [done|]. intros ->. cbn in Hr2. by rewrite bool_decide_eq_false in Hr2.
Qed.

(** ** Witnesses *)

Definition no_store : db := mk_db [] [] [] [] [] [] [] [] [] false None None [] [] [].
Definition demo_bill : bill := mk_bill no_store [] [] [] [].
Definition demo_render : json → str := λ _, [].
Definition demo_begin : bill_op := BBegin 10 (u "op1") (u "sha") (u "fp") false None.
Definition started_bill : bill := bill_exec demo_render demo_bill demo_begin.

Lemma one_unresolved_request_witness :
  countb (open_op (u "sha")) (operations (fold_left (bill_exec demo_render)
    [demo_begin; BBegin 20 (u "op2") (u "sha") (u "fp2") false None] demo_bill)) ≤ 1.
Proof. apply (one_unresolved_request demo_render demo_bill). reflexivity. Defined.

Lemma unresolved_request_blocks_resend_witness :
  ∃ e, begin demo_render (fold_left (bill_exec demo_render) [BFinish 15 (u "op9") false] started_bill)
         30 (u "op3") (u "sha") (u "fp3") true None = Raise e ∧ (e = Unreconciled ∨ e = IdempotencyConflict).
Proof.
  apply (unresolved_request_blocks_resend demo_render started_bill [BFinish 15 (u "op9") false]
           (new_operation demo_render (u "op1") (u "sha") (u "fp") 10 None)).
  - vm_compute. left.
  - reflexivity.
  - repeat constructor.
Defined.

Lemma saved_response_reused_witness :
  let b2 := bill_exec demo_render (save_response started_bill 12 (u "op1") (JInt 7)) (BEnv demo_bill) in
  begin demo_render b2 40 (u "op4") (u "sha") (u "fp") false None = Ok ((u "op1", Some (JInt 7)), b2).
Proof.
  apply (saved_response_reused demo_render demo_bill 10 (u "op1") (u "sha") (u "fp") false None started_bill
           12 (JInt 7) demo_bill 40 (u "op4") false None).
  - reflexivity.
  - constructor.
  - reflexivity.
Defined.

Lemma new_request_guarded_witness :
  operations started_bill = [new_operation demo_render (u "op1") (u "sha") (u "fp") 10 None].
Proof.
  apply (new_request_guarded demo_render demo_bill 10 (u "op1") (u "sha") (u "fp") false None (u "op1")).
  reflexivity.
Defined.
