(* ===== verification/Budgets.v ===== *)
(** * Budgets (services/budgets.py, services/openai_budget.py,
      repositories/usage.py, domain/analysis/billing_cycle.py)

    Every paid request reserves its estimated cost first; the reservation is
    checked against the daily, monthly, per-photo and per-job limits, and is
    released only when its cost is known or nothing was sent.  Money is the
    code's binary64; SQLite's SUM over REAL is the parameter [sql_sum], and
    the day, month and billing-cycle bounds are instants given by [periods].
    Instants are integers, as everywhere. *)

From S2P Require Import Prelude PyStr PyFloat Sql FailurePolicy Store Worker Billing.
Local Open Scope Z_scope.

(** ** Tables *)

Record usage_row := mk_usage_row {
  ur_id : Z; ur_provider_id : option str; ur_job : option str; ur_photo : option str;
  ur_operation : option str; ur_started : Z; ur_completed : Z; ur_status : str;
  ur_counts : list Z;          (** the five token counts, request_body_bytes, image_bytes *)
  ur_actual : option f64; ur_estimated : option f64; ur_source : str }.

Record archive_row := mk_archive_row { ar_job : str; ar_photo : str; ar_cost : f64 }.

Record reservation := mk_reservation {
  rv_id : str; rv_amount : f64; rv_job : option str; rv_photo : option str; rv_active : bool;
  rv_created : Z; rv_provider : option str; rv_kind : option str }.
Definition reservation_eta (r : reservation) : reservation :=
  mk_reservation (rv_id r) (rv_amount r) (rv_job r) (rv_photo r) (rv_active r) (rv_created r)
    (rv_provider r) (rv_kind r).
#[export] Instance set_rv_active : Settable rv_active := ltac:(derive_setter reservation_eta rv_active).

(** [lane] is settings_json.complementary_lane, [route] the (lane, provider)
    pairs of analysis_spec_json.provider_route. *)
Record budget_job := mk_budget_job {
  bj_id : str; bj_limit : option f64; bj_spent : f64; bj_lane : option str;
  bj_route : list (option str * option str) }.
Definition budget_job_eta (j : budget_job) : budget_job :=
  mk_budget_job (bj_id j) (bj_limit j) (bj_spent j) (bj_lane j) (bj_route j).
#[export] Instance set_bj_spent : Settable bj_spent := ltac:(derive_setter budget_job_eta bj_spent).

Record provider_row := mk_provider_row { pr_id : str; pr_kind : str; pr_base_url : str }.
Record receipt := mk_receipt { rc_usage : Z; rc_started : Z; rc_cost : option f64; rc_uncertain : bool }.

Record ledger := mk_ledger {
  usage_rows : list usage_row; archive : list archive_row; reservations : list reservation;
  budget_jobs : list budget_job; providers : list provider_row; receipts : list receipt;
  operation_rows : list operation }.
Definition ledger_eta (l : ledger) : ledger :=
  mk_ledger (usage_rows l) (archive l) (reservations l) (budget_jobs l) (providers l) (receipts l)
    (operation_rows l).
#[export] Instance set_usage_rows : Settable usage_rows := ltac:(derive_setter ledger_eta usage_rows).
#[export] Instance set_ledger_reservations : Settable reservations := ltac:(derive_setter ledger_eta reservations).
#[export] Instance set_budget_jobs : Settable budget_jobs := ltac:(derive_setter ledger_eta budget_jobs).
#[export] Instance set_receipts : Settable receipts := ltac:(derive_setter ledger_eta receipts).

Record budget_settings := mk_budget_settings {
  s_daily_stop : f64; s_monthly_stop : f64; s_photo_max : f64; s_unknown_reserve : f64;
  s_reservation_max_age : option f64;                 (** None: not a number *)
  s_max_tokens : Z;
  s_complementary : bool; s_cycle_limit : f64; s_stop_percent : f64; s_daily_limit : f64 }.

Record periods := mk_periods {
  day_start : Z; day_end : Z; month_start : Z; month_end : Z;
  cycle_start : Z; cycle_end : Z; cycle_day_start : Z; cycle_day_end : Z }.

Inductive budget_exn :=
| BudgetExceeded (code : str) | OpenAIBudgetExceeded (kind : str) | InvalidReservation | ProviderFailed.

(** SQL equality with a bound value: never true of NULL. *)
Definition sql_eq (x y : option str) : bool :=
  match x, y with Some a, Some b => str_eqb a b | _, _ => false end.

(** ASCII case folding of LIKE. *)
Definition ascii_lower (c : Z) : Z := if (65 <=? c) && (c <=? 90) then c + 32 else c.
Definition like_prefix (p s : str) : bool := starts_with (map ascii_lower p) (map ascii_lower s).

Definition unknown_source (r : usage_row) : bool := str_eqb (ur_source r) (u "unknown").
Definition cost_of (r : usage_row) : option f64 :=
  match ur_actual r with Some c => Some c | None => ur_estimated r end.

(** [_billable_evidence_sql] *)
Definition fpos (x : option f64) : bool := match x with Some c => fltb f0 c | None => false end.
Definition billable_evidence (r : usage_row) : bool :=
  existsb (λ n, 0 <? n) (ur_counts r) || fpos (ur_actual r) || fpos (ur_estimated r)
  || str_in (ur_status r) [u "completed"; u "success"].

Definition within (a b : Z) (t : Z) : bool := (a <=? t) && (t <? b).

(** ** Usage records *)

Definition is_openai_row (p : provider_row) : bool :=
  str_eqb (pr_kind p) (u "openai") || like_prefix (u "https://api.openai.com/") (pr_base_url p).
Definition is_openai (l : ledger) (provider_id : option str) : bool :=
  existsb (λ p, sql_eq (Some (pr_id p)) provider_id && is_openai_row p) (providers l).

Definition _registered_provider_id (l : ledger) (provider_id : option str) : option str :=
  if opt_truthy provider_id && existsb (λ p, sql_eq (Some (pr_id p)) provider_id) (providers l)
  then provider_id else None.

Definition _add_job_cost (job_id : option str) (usage_id : Z) (cost : f64) (l : ledger) : ledger :=
  match job_id with
  | Some ((_ :: _) as j) =>
      let ledgered := existsb (λ r, sql_eq (ur_job r) job_id && negb (ur_id r =? usage_id)) (usage_rows l)
                      || existsb (λ a, str_eqb (ar_job a) j) (archive l) in
      l <| budget_jobs := update_where (by_key bj_id j)
             (λ b, b <| bj_spent := if ledgered then fadd (bj_spent b) cost else cost |>) (budget_jobs l) |>
  | _ => l
  end.

(** The AFTER INSERT trigger of openai_budget_receipts. *)
Definition receipt_trigger (r : usage_row) (l : ledger) : ledger :=
  if is_openai l (ur_provider_id r)
  then l <| receipts := receipts l ++ [mk_receipt (ur_id r) (ur_completed r)
              (if unknown_source r then None else cost_of r) (unknown_source r)] |>
  else l.

Definition known_source (s : str) : bool := str_in s [u "provider_reported"; u "estimated"].

(** [UsageRepository.record]: once per operation; returns the row's id.  [row]
    carries the arguments, [row_id] the AUTOINCREMENT key. *)
Definition record (l : ledger) (row : usage_row) : Z * ledger :=
  match (match ur_operation row with
         | Some o => List.find (λ r, sql_eq (ur_operation r) (Some o)) (usage_rows l)
         | None => None end) with
  | Some r => (ur_id r, l)
  | None =>
      let source := if known_source (ur_source row) then ur_source row else u "unknown" in
      let r := mk_usage_row (ur_id row) (_registered_provider_id l (ur_provider_id row)) (ur_job row)
                 (ur_photo row) (ur_operation row) (ur_started row) (ur_completed row) (ur_status row)
                 (ur_counts row) (ur_actual row) (option_map (fmax f0) (ur_estimated row)) source in
      let cost := if known_source (ur_source row)
                  then fmax f0 (match ur_actual row with Some a => a | None => default f0 (ur_estimated row) end)
                  else f0 in
      let l1 := receipt_trigger r (l <| usage_rows := usage_rows l ++ [r] |>) in
      (ur_id row, _add_job_cost (ur_job row) (ur_id row) cost l1)
  end.

(** ** Snapshots *)

Section budgets.
Context (sql_sum : list f64 → f64).

Definition totals (p : usage_row → bool) (l : ledger) : f64 * Z :=
  let rows := List.filter p (usage_rows l) in
  (sql_sum (omap (λ r, if unknown_source r then Some f0 else cost_of r) rows),
   countb (λ r, unknown_source r && billable_evidence r) rows).

Definition active_sum (p : reservation → bool) (l : ledger) : f64 :=
  sql_sum (map rv_amount (List.filter (λ r, rv_active r && p r) (reservations l))).

(** [SUM(CASE WHEN p THEN amount ELSE 0 END)] over the active rows. *)
Definition active_case (p : reservation → bool) (l : ledger) : f64 :=
  sql_sum (map (λ r, if p r then rv_amount r else f0) (List.filter rv_active (reservations l))).

Record snapshot_t := mk_snapshot {
  daily_effective : f64; monthly_effective : f64; photo_effective : f64; job_effective : f64;
  job_limit : option f64 }.

(** [max(0.01, min(100.0, reserve))] *)
Definition unknown_request_reserve (s : budget_settings) : f64 :=
  fmax (dec 1 100) (fmin (f64_of_Z 100) (s_unknown_reserve s)).

Definition snapshot (s : budget_settings) (p : periods) (l : ledger) (job_id photo_id : option str) : snapshot_t :=
  let '(daily_known, daily_unknown) := totals (λ r, within (day_start p) (day_end p) (ur_started r)) l in
  let '(monthly_known, monthly_unknown) := totals (λ r, within (month_start p) (month_end p) (ur_started r)) l in
  let photo_known := fadd (fst (totals (λ r, sql_eq (ur_photo r) photo_id) l))
                       (sql_sum (map ar_cost (List.filter (λ a, sql_eq (Some (ar_photo a)) photo_id) (archive l)))) in
  let job_known := fadd (fst (totals (λ r, sql_eq (ur_job r) job_id) l))
                     (sql_sum (map ar_cost (List.filter (λ a, sql_eq (Some (ar_job a)) job_id) (archive l)))) in
  let reserve := unknown_request_reserve s in
  let total := active_sum (λ _, true) l in
  {| daily_effective := fadd (fadd daily_known (fmul (f64_of_Z daily_unknown) reserve)) total;
     monthly_effective := fadd (fadd monthly_known (fmul (f64_of_Z monthly_unknown) reserve)) total;
     photo_effective := fadd photo_known (active_case (λ r, sql_eq (rv_photo r) photo_id) l);
     job_effective := fadd job_known (active_case (λ r, sql_eq (rv_job r) job_id) l);
     job_limit := match job_id with
                  | Some ((_ :: _) as j) => match get_row bj_id j (budget_jobs l) with Some b => bj_limit b | None => None end
                  | _ => None end |}.

(** [_dedicated_lane] *)
Definition _dedicated_lane (s : budget_settings) (l : ledger) (job_id provider_id : option str) : bool :=
  opt_truthy job_id && s_complementary s
  && existsb (λ b, sql_eq (Some (bj_id b)) job_id
       && match bj_lane b with Some lane => str_in lane [u "openai_backfill"; u "openrouter_daily"] | None => false end
       && match bj_route b with
          | [(lane, pid)] => sql_eq lane (bj_lane b)
                             && match provider_id with None => true | Some _ => sql_eq pid provider_id end
          | _ => false end) (budget_jobs l).

(** ** The OpenAI cycle budget *)

Definition receipt_total (a b : Z) (l : ledger) : f64 * Z :=
  let rows := List.filter (λ r, within a b (rc_started r)) (receipts l) in
  (sql_sum (omap rc_cost rows), countb rc_uncertain rows).

Definition openai_held (l : ledger) : f64 :=
  active_sum (λ r, match rv_kind r with None => true | Some k => str_eqb k (u "openai") end) l.

Record openai_state := mk_openai_state {
  oa_effective : f64; oa_stop_at : f64; oa_daily_effective : f64; oa_daily_limit : f64; oa_daily_stop_at : f64 }.

Definition openai_snapshot (s : budget_settings) (p : periods) (l : ledger) : openai_state :=
  let reserve := fmax (dec 1 100) (s_unknown_reserve s) in
  let '(cycle_cost, cycle_unknown) := receipt_total (cycle_start p) (cycle_end p) l in
  let '(daily_cost, daily_unknown) := receipt_total (cycle_day_start p) (cycle_day_end p) l in
  let held := openai_held l in
  let stop := fdiv (s_stop_percent s) (f64_of_Z 100) in
  {| oa_effective := fadd (fadd cycle_cost (fmul (f64_of_Z cycle_unknown) reserve)) held;
     oa_stop_at := fmul (s_cycle_limit s) stop;
     oa_daily_effective := fadd (fadd daily_cost (fmul (f64_of_Z daily_unknown) reserve)) held;
     oa_daily_limit := s_daily_limit s;
     oa_daily_stop_at := fmul (s_daily_limit s) stop |}.

Definition openai_assert_reserve (s : budget_settings) (p : periods) (l : ledger) (amount : f64)
  : result budget_exn unit :=
  let st := openai_snapshot s p l in
  raise_if (fltb (oa_stop_at st) (fadd (oa_effective st) amount) || fleb (oa_stop_at st) (oa_effective st))
    (OpenAIBudgetExceeded (u "cycle")) ;;;
  raise_if (fltb f0 (oa_daily_limit st)
            && (fltb (oa_daily_stop_at st) (fadd (oa_daily_effective st) amount)
                || fleb (oa_daily_stop_at st) (oa_daily_effective st)))
    (OpenAIBudgetExceeded (u "daily")).

(** ** Reserving and releasing *)

Definition over (maximum current amount : f64) : bool := fltb f0 maximum && fltb maximum (fadd current amount).

(** The upsert of budget_reservations. *)
Definition upsert_reservation (r : reservation) (l : list reservation) : list reservation :=
  if has_key rv_id (rv_id r) l then update_where (by_key rv_id (rv_id r)) (λ _, r) l else l ++ [r].

Definition reserve (s : budget_settings) (p : periods) (guarded : bool) (now : Z) (l : ledger)
    (reservation_id : str) (amount : f64) (job_id photo_id provider_id : option str)
  : result budget_exn ledger :=
  raise_if guarded (BudgetExceeded (u "BUDGET-002")) ;;;
  raise_if (negb (ffinite amount) || fltb amount f0) InvalidReservation ;;;
  if existsb (λ r, str_eqb (rv_id r) reservation_id && rv_active r) (reservations l) then Ok l
  else
    let native := is_openai l provider_id in
    (if s_complementary s && native then openai_assert_reserve s p l amount else Ok tt) ;;;
    let dedicated := _dedicated_lane s l job_id provider_id in
    let snap := snapshot s p l job_id photo_id in
    raise_if (match job_limit snap with Some m => fltb m (fadd (job_effective snap) amount) | None => false end)
      (BudgetExceeded (u "BUDGET-002")) ;;;
    raise_if (over (if dedicated then f0 else s_daily_stop s) (daily_effective snap) amount
              || over (if dedicated then f0 else s_monthly_stop s) (monthly_effective snap) amount
              || over (if opt_truthy photo_id then s_photo_max s else f0) (photo_effective snap) amount
              || over (match job_limit snap with Some m => m | None => f0 end) (job_effective snap) amount)
      (BudgetExceeded (u "BUDGET-002")) ;;;
    Ok (l <| reservations := upsert_reservation
               (mk_reservation reservation_id amount job_id photo_id true now provider_id
                  (if native then Some (u "openai") else if opt_truthy provider_id then Some (u "other") else None))
               (reservations l) |>).

Definition release (l : ledger) (reservation_id : str) : ledger :=
  l <| reservations := update_where (by_key rv_id reservation_id) (λ r, r <| rv_active := false |>)
                         (reservations l) |>.

Definition assert_request_allowed (s : budget_settings) (p : periods) (guarded : bool) (l : ledger)
    (job_id photo_id : option str) : result budget_exn unit :=
  raise_if guarded (BudgetExceeded (u "BUDGET-002")) ;;;
  let snap := snapshot s p l job_id photo_id in
  let dedicated := _dedicated_lane s l job_id None in
  let reached maximum current := fltb f0 maximum && fleb maximum current in
  raise_if (reached (if dedicated then f0 else s_daily_stop s) (daily_effective snap)
            || reached (if dedicated then f0 else s_monthly_stop s) (monthly_effective snap)
            || reached (s_photo_max s) (photo_effective snap)) (BudgetExceeded (u "BUDGET-002")) ;;;
  raise_if (match job_limit snap with Some m => fleb m (job_effective snap) | None => false end)
    (BudgetExceeded (u "BUDGET-001")).

(** Diagnostics and benchmarks: reserve, call, account.  [estimate] is the
    provider's price for the largest request, [reply] what the call gives: an
    error, or usage with the provider's own cost and its estimate. *)
Record call_reply := mk_call_reply {
  cr_tokens_reported : bool; cr_counts : list Z; cr_reported_cost : option f64; cr_estimate : option f64;
  cr_started : Z; cr_completed : Z; cr_usage_id : Z }.

Definition estimate_reserve (s : budget_settings) (estimate : option f64) : f64 :=
  match estimate with
  | Some e => fmax f0 e
  | None => fmax (dec 1 100) (s_unknown_reserve s)
  end.

Definition cost_source (actual estimated : option f64) : str :=
  match actual, estimated with
  | Some _, _ => u "provider_reported"
  | None, Some _ => u "estimated"
  | None, None => u "unknown"
  end.

Definition call (s : budget_settings) (p : periods) (guarded : bool) (now : Z) (l : ledger)
    (reservation_id : str) (provider_id : option str) (estimate : option f64)
    (reply : result exc call_reply) : result budget_exn unit * ledger :=
  match reserve s p guarded now l reservation_id (estimate_reserve s estimate) None None provider_id with
  | Raise e => (Raise e, l)
  | Ok l1 =>
      match reply with
      | Raise error =>
          (Raise ProviderFailed, if request_definitely_not_sent error then release l1 reservation_id else l1)
      | Ok r =>
          let estimated := if cr_tokens_reported r then cr_estimate r else None in
          let actual := cr_reported_cost r in
          let '(_, l2) := record l1 (mk_usage_row (cr_usage_id r) provider_id None None None (cr_started r)
                            (cr_completed r) (u "completed") (cr_counts r) actual estimated
                            (cost_source actual estimated)) in
          (Ok tt, match actual, estimated with None, None => l2 | _, _ => release l2 reservation_id end)
      end
  end.

(** ** Recovering stale reservations *)

(** [_reservation_cutoff]: the window in seconds, 600 s to 7 days, 24 h when unset. *)
Definition reservation_window (s : budget_settings) : f64 :=
  fmax (f64_of_Z 600) (fmin (default (f64_of_Z 86400) (s_reservation_max_age s)) (f64_of_Z 604800)).

Definition settled_operation (l : ledger) (o : operation) : bool :=
  in_state NotSent o
  || (in_state Responded o || in_state Finished o || in_state Approved o)
     && existsb (λ r, sql_eq (ur_operation r) (Some (o_id o)) && negb (unknown_source r)
                      && match cost_of r with Some _ => true | None => false end) (usage_rows l).

Definition recoverable (l : ledger) (cutoff : Z) (r : reservation) : bool :=
  rv_active r && (rv_created r <? cutoff) && like_prefix (u "vision:") (rv_id r)
  && existsb (λ o, str_eqb (o_id o) (drop 7 (rv_id r)) && settled_operation l o) (operation_rows l).

Definition expire_stale_reservations (l : ledger) (cutoff : Z) : Z * ledger :=
  (countb (recoverable l cutoff) (reservations l),
   l <| reservations := update_where (recoverable l cutoff) (λ r, r <| rv_active := false |>) (reservations l) |>).
End budgets.

(** ** Theorems *)

(** [amount] fits under a limit that is in force. *)
Definition fits (maximum current amount : f64) : Prop :=
  fltb f0 maximum = true → fltb maximum (fadd current amount) = false.

Lemma over_fits maximum current amount : over maximum current amount = false → fits maximum current amount.
Proof. unfold over, fits. intros H E. by rewrite E in H. Qed.

(** What counts against a limit, read off the rows of the ledger: the recorded
    costs of the usage rows of a scope [q] (a row of unknown cost counts 0),
    how many of its rows may still be billed, the archived costs, and the
    amounts held by active reservations (0 for those outside the scope). *)
Definition recorded_costs (q : usage_row → bool) (l : ledger) : list f64 :=
  omap (λ r, if q r then if unknown_source r then Some f0 else cost_of r else None) (usage_rows l).
Definition unbilled (q : usage_row → bool) (l : ledger) : Z :=
  countb (λ r, q r && (unknown_source r && billable_evidence r)) (usage_rows l).
Definition archived_costs (q : archive_row → bool) (l : ledger) : list f64 :=
  omap (λ a, if q a then Some (ar_cost a) else None) (archive l).
Definition active_rows (l : ledger) : list reservation := List.filter rv_active (reservations l).
Definition held_amounts (q : reservation → bool) (l : ledger) : list f64 :=
  map (λ r, if q r then rv_amount r else f0) (active_rows l).
Definition held_for_openai (l : ledger) : list f64 :=
  map rv_amount (List.filter (λ r, match rv_kind r with None => true | Some k => str_eqb k (u "openai") end) (active_rows l)).
Definition receipts_in (a b : Z) (l : ledger) : list receipt := List.filter (λ r, within a b (rc_started r)) (receipts l).

Section commitments.
Context (sql_sum : list f64 → f64) (s : budget_settings) (l : ledger).

(** The money of a period: recorded, possibly billed, and held by anyone. *)
Definition period_commitment (a b : Z) : f64 :=
  let q r := within a b (ur_started r) in
  fadd (fadd (sql_sum (recorded_costs q l)) (fmul (f64_of_Z (unbilled q l)) (unknown_request_reserve s)))
       (sql_sum (map rv_amount (active_rows l))).

(** The money of one photo or one job: recorded, archived, and held for it;
    usage of unknown cost does not count here. *)
Definition own_commitment (q : usage_row → bool) (qa : archive_row → bool) (qr : reservation → bool) : f64 :=
  fadd (fadd (sql_sum (recorded_costs q l)) (sql_sum (archived_costs qa l))) (sql_sum (held_amounts qr l)).
Definition photo_commitment (photo : str) : f64 :=
  own_commitment (λ r, sql_eq (ur_photo r) (Some photo)) (λ a, str_eqb (ar_photo a) photo) (λ r, sql_eq (rv_photo r) (Some photo)).
Definition job_commitment (job : str) : f64 :=
  own_commitment (λ r, sql_eq (ur_job r) (Some job)) (λ a, str_eqb (ar_job a) job) (λ r, sql_eq (rv_job r) (Some job)).

(** The money of an OpenAI cycle or day. *)
Definition openai_commitment (a b : Z) : f64 :=
  fadd (fadd (sql_sum (omap rc_cost (receipts_in a b l)))
             (fmul (f64_of_Z (countb rc_uncertain (receipts_in a b l))) (fmax (dec 1 100) (s_unknown_reserve s))))
       (sql_sum (held_for_openai l)).
End commitments.

(** Everything a granted reservation was checked against. *)
Record within_budget (sql_sum : list f64 → f64) (s : budget_settings) (p : periods) (l : ledger) (amount : f64)
    (job_id photo_id provider_id : option str) : Prop := {
  wb_amount : ffinite amount = true ∧ fltb amount f0 = false;
  wb_daily : _dedicated_lane s l job_id provider_id = false →
    fits (s_daily_stop s) (period_commitment sql_sum s l (day_start p) (day_end p)) amount;
  wb_monthly : _dedicated_lane s l job_id provider_id = false →
    fits (s_monthly_stop s) (period_commitment sql_sum s l (month_start p) (month_end p)) amount;
  wb_photo : ∀ photo, photo_id = Some photo → photo ≠ [] → fits (s_photo_max s) (photo_commitment sql_sum l photo) amount;
  wb_job : ∀ job b m, job_id = Some job → job ≠ [] → get_row bj_id job (budget_jobs l) = Some b → bj_limit b = Some m →
    fltb m (fadd (job_commitment sql_sum l job) amount) = false;
  wb_openai : s_complementary s = true → is_openai l provider_id = true →
    let stop limit := fmul limit (fdiv (s_stop_percent s) (f64_of_Z 100)) in
    let cycle := openai_commitment sql_sum s l (cycle_start p) (cycle_end p) in
    let day := openai_commitment sql_sum s l (cycle_day_start p) (cycle_day_end p) in
    fltb (stop (s_cycle_limit s)) (fadd cycle amount) = false ∧ fleb (stop (s_cycle_limit s)) cycle = false ∧
    (fltb f0 (s_daily_limit s) = true →
     fltb (stop (s_daily_limit s)) (fadd day amount) = false ∧ fleb (stop (s_daily_limit s)) day = false);
}.

(** ** The snapshot counts these rows *)

Lemma omap_filter {A B} (q : A → bool) (f : A → option B) l :
  omap f (List.filter q l) = omap (λ x, if q x then f x else None) l.
Proof. induction l as [|x l IH]; [done|]. cbn [List.filter]. destruct (q x) eqn:E; csimpl; rewrite E, IH; done. Qed.

Lemma map_filter {A B} (q : A → bool) (f : A → B) l :
  map f (List.filter q l) = omap (λ x, if q x then Some (f x) else None) l.
Proof. induction l as [|x l IH]; [done|]. cbn [List.filter]. destruct (q x) eqn:E; csimpl; rewrite E, ?IH; done. Qed.

Lemma filter_filter {A} (p q : A → bool) l : List.filter p (List.filter q l) = List.filter (λ x, q x && p x) l.
Proof. induction l as [|x l IH]; [done|]. cbn [List.filter]. destruct (q x), (p x) eqn:E; cbn [List.filter andb]; rewrite ?E, IH; done. Qed.

Lemma totals_rows sql_sum q l : totals sql_sum q l = (sql_sum (recorded_costs q l), unbilled q l).
Proof. unfold totals, recorded_costs, unbilled. by rewrite omap_filter, countb_filter. Qed.

Lemma all_active l : map rv_amount (List.filter (λ r, rv_active r && true) (reservations l)) = map rv_amount (active_rows l).
Proof. unfold active_rows. f_equal. apply filter_ext. intros r. apply andb_true_r. Qed.

Lemma snapshot_periods sql_sum s p l job photo :
  daily_effective (snapshot sql_sum s p l job photo) = period_commitment sql_sum s l (day_start p) (day_end p) ∧
  monthly_effective (snapshot sql_sum s p l job photo) = period_commitment sql_sum s l (month_start p) (month_end p).
Proof.
  unfold snapshot. rewrite !totals_rows. cbn [daily_effective monthly_effective]. unfold active_sum. by rewrite all_active.
Qed.

Lemma snapshot_photo sql_sum s p l job photo :
  photo_effective (snapshot sql_sum s p l job (Some photo)) = photo_commitment sql_sum l photo.
Proof. unfold snapshot. rewrite !totals_rows. cbn [photo_effective fst]. by rewrite map_filter. Qed.

Lemma snapshot_job sql_sum s p l job photo :
  job_effective (snapshot sql_sum s p l (Some job) photo) = job_commitment sql_sum l job.
Proof. unfold snapshot. rewrite !totals_rows. cbn [job_effective fst]. by rewrite map_filter. Qed.

Lemma snapshot_limit sql_sum s p l job photo b :
  job ≠ [] → get_row bj_id job (budget_jobs l) = Some b → job_limit (snapshot sql_sum s p l (Some job) photo) = bj_limit b.
Proof. intros Hj Hb. unfold snapshot. rewrite !totals_rows. cbn [job_limit]. destruct job; [done|]. by rewrite Hb. Qed.

Lemma openai_rows sql_sum s p l :
  openai_snapshot sql_sum s p l =
  let stop limit := fmul limit (fdiv (s_stop_percent s) (f64_of_Z 100)) in
  {| oa_effective := openai_commitment sql_sum s l (cycle_start p) (cycle_end p);
     oa_stop_at := stop (s_cycle_limit s);
     oa_daily_effective := openai_commitment sql_sum s l (cycle_day_start p) (cycle_day_end p);
     oa_daily_limit := s_daily_limit s; oa_daily_stop_at := stop (s_daily_limit s) |}.
Proof.
  unfold openai_snapshot, openai_held, active_sum, openai_commitment, held_for_openai, active_rows. by rewrite !filter_filter.
Qed.

Definition is_active (id : str) (l : ledger) : bool :=
  existsb (λ r, str_eqb (rv_id r) id && rv_active r) (reservations l).

Lemma openai_assert_ok sql_sum s p l amount :
  openai_assert_reserve sql_sum s p l amount = Ok tt →
  let st := openai_snapshot sql_sum s p l in
  fltb (oa_stop_at st) (fadd (oa_effective st) amount) = false ∧ fleb (oa_stop_at st) (oa_effective st) = false ∧
  (fltb f0 (oa_daily_limit st) = true →
   fltb (oa_daily_stop_at st) (fadd (oa_daily_effective st) amount) = false ∧ fleb (oa_daily_stop_at st) (oa_daily_effective st) = false).
Proof.
  unfold openai_assert_reserve. cbv zeta. intros H. res_inv.
  apply Bool.orb_false_iff in H as [H1 H2]. split_and!; [done|done|]. intros E.
  match goal with H : _ && _ = false |- _ => rewrite E in H; by apply Bool.orb_false_iff in H end.
Qed.

Lemma reserve_inv sql_sum s p guarded now l id amount job photo provider l' :
  reserve sql_sum s p guarded now l id amount job photo provider = Ok l' →
  guarded = false ∧
  (is_active id l = true ∧ l' = l ∨
   is_active id l = false ∧ within_budget sql_sum s p l amount job photo provider ∧
   ∃ kind, l' = l <| reservations :=
     upsert_reservation (mk_reservation id amount job photo true now provider kind) (reservations l) |>).
Proof.
  unfold reserve, is_active. cbv zeta. intros H.
  apply rbind_ok in H as ([] & Hg%raise_if_ok & H). apply rbind_ok in H as ([] & Ha%raise_if_ok & H).
  split; [done|]. destruct (existsb _ (reservations l)); [left; by injection H as <-|right].
  apply rbind_ok in H as ([] & Ho & H). apply rbind_ok in H as ([] & Hj%raise_if_ok & H).
  apply rbind_ok in H as ([] & Hl%raise_if_ok & H). injection H as <-.
  apply Bool.orb_false_iff in Ha as [Ha1 Ha2]. apply Bool.orb_false_iff in Hl as [Hl _].
  apply Bool.orb_false_iff in Hl as [Hl Hl3]. apply Bool.orb_false_iff in Hl as [Hl1 Hl2].
  split; [done|]. split; [|by eexists]. constructor.
  - split; [by apply Bool.negb_false_iff|done].
  - intros E. rewrite E in Hl1. rewrite <- (proj1 (snapshot_periods sql_sum s p l job photo)). by apply over_fits.
  - intros E. rewrite E in Hl2. rewrite <- (proj2 (snapshot_periods sql_sum s p l job photo)). by apply over_fits.
  - intros x -> Hx. rewrite <- (snapshot_photo sql_sum s p l job x). destruct x; [done|]. by apply over_fits.
  - intros j b m -> Hx Hb Hm. rewrite <- (snapshot_job sql_sum s p l j photo).
    by rewrite (snapshot_limit _ _ _ _ _ _ _ Hx Hb), Hm in Hj.
  - intros E1 E2. rewrite E1, E2 in Ho. apply openai_assert_ok in Ho. by rewrite openai_rows in Ho.
Qed.

Lemma upsert_active r l x :
  keys_unique rv_id l → x ∈ upsert_reservation r l ↔ x = r ∨ (x ∈ l ∧ rv_id x ≠ rv_id r).
Proof.
  intros Hu. unfold upsert_reservation. destruct (has_key _ _ _) eqn:E.
  - rewrite update_where_elem. unfold by_key. split.
    + intros (y & Hy & ->). destruct (str_eqb (rv_id y) (rv_id r)) eqn:Ey; bprop; auto.
    + intros [->|[Hx Hne]].
      * unfold has_key in E. apply existsb_elem in E as (y & Hy & Hk). exists y. unfold by_key in Hk. by rewrite Hk.
      * exists x. split; [done|]. destruct (str_eqb (rv_id x) (rv_id r)) eqn:Ex; bprop; [done|done].
  - unfold has_key in E. rewrite existsb_none in E. rewrite elem_of_app, list_elem_of_singleton.
    split; [intros [Hx| ->]; [right|by left]|intros [->|[Hx _]]; auto].
    split; [done|]. specialize (E x Hx). unfold by_key in E. by bprop.
Qed.

Lemma update_split (r : reservation) l1 l2 y :
  keys_unique rv_id (l1 ++ y :: l2) → rv_id y = rv_id r →
  update_where (by_key rv_id (rv_id r)) (λ _, r) (l1 ++ y :: l2) = l1 ++ r :: l2.
Proof.
  unfold keys_unique. rewrite map_app. intros Hu Hy. apply NoDup_app in Hu as (_ & H1 & [H2 _]%NoDup_cons).
  assert (∀ l, rv_id y ∉ map rv_id l → update_where (by_key rv_id (rv_id r)) (λ _, r) l = l) as Hid.
  { intros l Hl. unfold update_where. rewrite <- (map_id l) at 2. apply map_ext_in. intros z Hz%list_elem_of_In. unfold by_key.
    destruct (str_eqb _ _) eqn:E; [|done]. apply str_eqb_eq in E. destruct Hl. rewrite Hy, <- E. by apply list_elem_of_fmap_2. }
  unfold update_where at 1. rewrite map_app. cbn [map]. unfold by_key at 2. rewrite Hy, str_eqb_refl.
  f_equal; [|f_equal]; apply Hid; [|done]. intros Hin. apply (H1 _ Hin). left.
Qed.

(** A grant adds one active reservation and keeps the others. *)
Lemma upsert_adds r l :
  keys_unique rv_id l → rv_active r = true → existsb (λ x, str_eqb (rv_id x) (rv_id r) && rv_active x) l = false →
  List.filter rv_active (upsert_reservation r l) ≡ₚ r :: List.filter rv_active l.
Proof.
  intros Hu Hr Hn. unfold upsert_reservation. destruct (has_key _ _ _) eqn:E.
  - unfold has_key in E. apply existsb_elem in E as (y & Hy & Hk). unfold by_key in Hk. apply str_eqb_eq in Hk.
    apply list_elem_of_split in Hy as (l1 & l2 & ->). rewrite update_split by done.
    rewrite existsb_none in Hn. specialize (Hn y). rewrite Hk, str_eqb_refl in Hn. cbn [andb] in Hn.
    rewrite !List.filter_app. cbn [List.filter]. rewrite Hr, Hn by (apply elem_of_app; right; left). by rewrite Permutation_middle.
  - rewrite List.filter_app. cbn [List.filter]. rewrite Hr. by rewrite Permutation_app_comm.
Qed.

(** C23. What it takes to be granted a reservation, and what it changes.
    Either the reservation is already active, and nothing changes; or the
    restore guard is off, the amount is finite and not negative, and it fits
    every limit in force, counted over the rows of the ledger: the day and the
    month (unless the job has a lane of its own) count the costs recorded in
    the period, the unknown-cost reserve for each of its rows that may still
    be billed, and every active reservation; the photo and the job count only
    their own recorded and archived costs and their own active reservations,
    and no unknown usage; an OpenAI request under the complementary plan also
    fits the cycle and its day, counted over the budget receipts and the
    reservations held for OpenAI.  Then the active reservations are those
    before plus this one, and usage and jobs are untouched. *)
Theorem reservation_within_budget sql_sum s p guarded now l id amount job photo provider l' :
  keys_unique rv_id (reservations l) →
  reserve sql_sum s p guarded now l id amount job photo provider = Ok l' →
  guarded = false ∧
  (is_active id l = true ∧ l' = l ∨
   is_active id l = false ∧ within_budget sql_sum s p l amount job photo provider ∧
   (∃ r, rv_id r = id ∧ rv_amount r = amount ∧ rv_job r = job ∧ rv_photo r = photo ∧ rv_active r = true ∧
      active_rows l' ≡ₚ r :: active_rows l ∧ (∀ x, x ∈ reservations l' ↔ x = r ∨ x ∈ reservations l ∧ rv_id x ≠ id)) ∧
   usage_rows l' = usage_rows l ∧ budget_jobs l' = budget_jobs l).
Proof.
  intros Hu (Hg & [H|(Ha & Hw & kind & ->)])%reserve_inv; split; auto. right.
  split_and!; [done|done| |done|done]. exists (mk_reservation id amount job photo true now provider kind).
  split_and!; [done..| |].
  - unfold active_rows. change (reservations (l <| reservations := ?v |>)) with v. by apply upsert_adds.
  - intros x. change (reservations (l <| reservations := ?v |>)) with v. by apply upsert_active.
Qed.

Lemma record_reservations l row : reservations (snd (record l row)) = reservations l.
Proof.
  unfold record. destruct (match ur_operation row with Some _ => _ | None => _ end); [done|]. cbn [snd].
  unfold _add_job_cost, receipt_trigger. repeat case_goal; done.
Qed.

(** The stored row of an unreported operation. *)
Lemma record_row l row :
  ur_operation row = None →
  ∃ r, r ∈ usage_rows (snd (record l row)) ∧ ur_id r = ur_id row ∧ ur_actual r = ur_actual row
    ∧ ur_estimated r = option_map (fmax f0) (ur_estimated row)
    ∧ ur_source r = (if known_source (ur_source row) then ur_source row else u "unknown").
Proof.
  intros E. unfold record. rewrite E. cbn [snd]. eexists (mk_usage_row _ _ _ _ _ _ _ _ _ _ _ _).
  split; [|split_and!; reflexivity].
  assert (Hu : ∀ j n c l, usage_rows (_add_job_cost j n c l) = usage_rows l).
  { intros j n c l0. unfold _add_job_cost. repeat case_goal; done. }
  assert (Ht : ∀ r l, usage_rows (receipt_trigger r l) = usage_rows l).
  { intros r l0. unfold receipt_trigger. by case_goal. }
  rewrite Hu, Ht. change (usage_rows (l <| usage_rows := ?v |>)) with v. apply elem_of_app. right. by left.
Qed.

Lemma release_row l id :
  get_row rv_id id (reservations (release l id))
  = (λ r, r <| rv_active := false |>) <$> get_row rv_id id (reservations l).
Proof.
  unfold release. change (reservations (l <| reservations := ?v |>)) with v. rewrite get_row_update by done.
  destruct (get_row rv_id id (reservations l)) as [r|] eqn:E; [|done]. simpl. f_equal.
  apply get_row_Some in E as [_ E]. unfold by_key. by rewrite E, str_eqb_refl.
Qed.

(** The reservation of one call is settled: its price is on record. *)
Definition cost_recorded (l : ledger) (usage_id : Z) : Prop :=
  ∃ r c, r ∈ usage_rows l ∧ ur_id r = usage_id ∧ unknown_source r = false ∧ cost_of r = Some c.

(** A diagnostic call never loses sight of money that may have been spent:
    once its reservation is granted, the reservation is still active at the
    end unless the error proves that nothing was sent, or the response's cost
    is known, in which case a usage row with that cost is on record. *)
Theorem paid_call_accounted sql_sum s p guarded now l id provider estimate reply x l' :
  has_key rv_id id (reservations l) = false →
  call sql_sum s p guarded now l id provider estimate reply = (x, l') →
  (∃ e, x = Raise e ∧ e ≠ ProviderFailed ∧ l' = l) ∨
  ∃ r, get_row rv_id id (reservations l') = Some r ∧
    rv_active r = negb (match reply with
      | Raise error => request_definitely_not_sent error
      | Ok c => match cr_reported_cost c, (if cr_tokens_reported c then cr_estimate c else None) with
                | None, None => false | _, _ => true end end) ∧
    (∀ c, reply = Ok c → rv_active r = false → cost_recorded l' (cr_usage_id c)).
Proof.
  intros Hfresh. unfold call.
  destruct (reserve _ _ _ _ _ _ _ _ _ _ _) as [l1|e] eqn:Hr.
  2: { intros [= <- <-]. left. exists e. split_and!; [done| |done]. intros ->.
       unfold reserve, openai_assert_reserve, raise_if in Hr. cbv zeta in Hr. repeat (case_in Hr; try done; cbn [rbind] in Hr). }
  assert (Hrow : ∃ row, get_row rv_id id (reservations l1) = Some row ∧ rv_active row = true).
  { apply reserve_inv in Hr as (_ & [[Ha ->]|(_ & _ & kind & ->)]).
    - exfalso. unfold is_active in Ha. apply existsb_elem in Ha as (r & Hin & Hb). unfold has_key in Hfresh.
      rewrite existsb_none in Hfresh. specialize (Hfresh r Hin). unfold by_key in Hfresh. by rewrite Hfresh in Hb.
    - change (reservations (l <| reservations := ?v |>)) with v. unfold upsert_reservation. cbn [rv_id].
      rewrite Hfresh, get_row_app_fresh. cbn [rv_id]. rewrite str_eqb_refl.
      destruct (get_row rv_id id (reservations l)) as [r|] eqn:E; [|by eexists].
      exfalso. apply get_row_Some in E as [Hin <-]. unfold has_key in Hfresh. rewrite existsb_none in Hfresh.
      specialize (Hfresh r Hin). unfold by_key in Hfresh. by rewrite str_eqb_refl in Hfresh. }
  destruct Hrow as (row & Hrow & Hact). intros H. right. destruct reply as [c|error].
  - set (estimated := if cr_tokens_reported c then cr_estimate c else None) in *.
    set (urow := mk_usage_row _ _ _ _ _ _ _ _ _ _ _ _) in H.
    pose proof (record_reservations l1 urow) as Hres. destruct (record_row l1 urow eq_refl) as (r & Hin & Hid & Ha & He & Hs).
    destruct (record l1 urow) as [uid l2]. cbn [snd] in *.
    assert (Hknown : ∀ ll, usage_rows ll = usage_rows l2 →
      match cr_reported_cost c, estimated with None, None => False | _, _ => True end → cost_recorded ll (cr_usage_id c)).
    { intros ll Hll Hk. unfold cost_recorded, unknown_source, cost_of. rewrite Hll.
      exists r. rewrite Hs, Ha, He. cbn [ur_actual ur_estimated ur_source urow].
      unfold urow; cbn [ur_actual ur_estimated ur_source].
      destruct (cr_reported_cost c), estimated; try done; eexists; (split_and!; [done|done|vm_compute; reflexivity|done]). }
    destruct (cr_reported_cost c), estimated; injection H as <- <-; try (rewrite release_row, Hres, Hrow; eexists;
      split_and!; [done|done|intros c' [= <-] _; by apply Hknown]).
    rewrite Hres. exists row. split_and!; [done|by rewrite Hact|]. intros c' _. by rewrite Hact.
  - injection H as <- <-. destruct (request_definitely_not_sent error).
    + rewrite release_row, Hrow. by eexists.
    + exists row. by rewrite Hrow.
Qed.

(** Age alone never frees a reservation: the sweep changes only
    reservations that are active, older than the cutoff and belong to a Vision
    operation, and only when that operation was not sent or has a saved or
    finished response with a usage row of known cost; every other row keeps its
    amount and state. *)
Theorem expiry_needs_settlement l cutoff r' :
  let '(n, l') := expire_stale_reservations l cutoff in
  r' ∈ reservations l' →
  r' ∈ reservations l ∨
  ∃ r o, r ∈ reservations l ∧ r' = r <| rv_active := false |> ∧ rv_active r = true ∧ rv_created r < cutoff
    ∧ o ∈ operation_rows l ∧ o_id o = drop 7 (rv_id r) ∧ like_prefix (u "vision:") (rv_id r) = true
    ∧ (o_state o = NotSent ∨
       o_state o ∈ [Responded; Finished; Approved] ∧
       ∃ row c, row ∈ usage_rows l ∧ ur_operation row = Some (o_id o) ∧ unknown_source row = false ∧ cost_of row = Some c).
Proof.
  cbn [expire_stale_reservations]. change (reservations (l <| reservations := ?v |>)) with v.
  intros (r & Hin & ->)%update_where_elem. destruct (recoverable l cutoff r) eqn:E; [right|by left].
  unfold recoverable in E. apply andb_prop in E as [E Ho]. apply andb_prop in E as [E Hl]. apply andb_prop in E as [Ha Hc].
  apply Z.ltb_lt in Hc. apply existsb_elem in Ho as (o & Hoin & Ho). apply andb_prop in Ho as [Hid Hs]. apply str_eqb_eq in Hid.
  exists r, o. split_and!; try done. unfold settled_operation, in_state in Hs.
  apply orb_prop in Hs as [Hs|Hs]; [left; by apply bool_decide_eq_true in Hs|right].
  apply andb_prop in Hs as [Hst Hrow]. split.
  - apply orb_prop in Hst as [Hst|Hst]; [apply orb_prop in Hst as [Hst|Hst]|]; apply bool_decide_eq_true in Hst;
      rewrite Hst, !elem_of_cons; auto.
  - apply existsb_elem in Hrow as (row & Hrin & Hr). apply andb_prop in Hr as [Hr Hcost]. apply andb_prop in Hr as [Hop Hsrc].
    apply Bool.negb_true_iff in Hsrc. destruct (cost_of row) as [c|] eqn:Hco; [|done].
    exists row, c. split_and!; try done. unfold sql_eq in Hop. destruct (ur_operation row); [|done]. by bprop; subst.
Qed.

(** ** Billing cycles *)

Record civil := mk_civil { c_year : Z; c_month : Z; c_day : Z; c_second : Z }.

Definition leap (y : Z) : bool := (y mod 4 =? 0) && (negb (y mod 100 =? 0) || (y mod 400 =? 0)).
Definition monthrange (y m : Z) : Z :=
  if m =? 2 then (if leap y then 29 else 28)
  else if existsb (Z.eqb m) [4; 6; 9; 11] then 30 else 31.

(** Naive comparison of two readings in the same zone. *)
Definition civil_ltb (a b : civil) : bool :=
  (c_year a <? c_year b) || ((c_year a =? c_year b) &&
  ((c_month a <? c_month b) || ((c_month a =? c_month b) &&
  ((c_day a <? c_day b) || ((c_day a =? c_day b) && (c_second a <? c_second b)))))).

Section cycle.
Context (anchor_year anchor_month anchor_day months : Z).

Definition origin : Z := anchor_year * 12 + anchor_month - 1.

(** [boundary(offset)]: the renewal day, clipped to the month's length. *)
Definition boundary (offset : Z) : civil :=
  let n := origin + offset * months in
  let year := n / 12 in
  let month := n mod 12 + 1 in
  mk_civil year month (Z.min anchor_day (monthrange year month)) 0.

Definition cycle_index (local : civil) : Z :=
  let index := (c_year local * 12 + c_month local - 1 - origin) / months in
  if civil_ltb local (boundary index) then index - 1 else index.

(** Start and end of the cycle that holds [local] ([start], [end] in local time). *)
Definition billing_cycle (local : civil) : option (civil * civil) :=
  if (1 <=? months) && (months <=? 12)
  then let index := cycle_index local in Some (boundary index, boundary (index + 1))
  else None.
End cycle.

Definition month_number (c : civil) : Z := c_year c * 12 + c_month c - 1.

Lemma boundary_month y m d k i : month_number (boundary y m d k i) = origin y m + i * k.
Proof.
  unfold month_number, boundary. cbn [c_year c_month]. set (n := origin y m + i * k).
  pose proof (Z.div_mod n 12 ltac:(lia)). lia.
Qed.

Lemma boundary_valid y m d k i : 1 ≤ c_month (boundary y m d k i) ≤ 12.
Proof. unfold boundary. cbn [c_month]. pose proof (Z.mod_pos_bound (origin y m + i * k) 12 ltac:(lia)). lia. Qed.

(** Earlier month, earlier reading. *)
Lemma earlier_month a b :
  1 ≤ c_month a ≤ 12 → 1 ≤ c_month b ≤ 12 → month_number a < month_number b → civil_ltb a b = true.
Proof.
  unfold month_number, civil_ltb. intros Ha Hb H.
  destruct (c_year a <? c_year b) eqn:E1; [done|]. apply Z.ltb_ge in E1.
  assert (c_year a = c_year b) as -> by lia. rewrite Z.eqb_refl.
  assert ((c_month a <? c_month b) = true) as -> by lia. done.
Qed.

Lemma civil_ltb_spec a b :
  civil_ltb a b = true ↔
  c_year a < c_year b ∨ c_year a = c_year b ∧
  (c_month a < c_month b ∨ c_month a = c_month b ∧
   (c_day a < c_day b ∨ c_day a = c_day b ∧ c_second a < c_second b)).
Proof. unfold civil_ltb. by bprop. Qed.

Lemma civil_ltb_asym a b : civil_ltb a b = true → civil_ltb b a = false.
Proof. intros H. apply not_true_is_false. rewrite civil_ltb_spec in *. lia. Qed.

(** The OpenAI billing cycle always contains the present: whatever the
    renewal date (the 31st of a short month included) and the cycle length,
    [start <= now < end], and the next cycle starts where this one ends. *)
Theorem billing_cycle_contains_now y m d k local start stop :
  1 ≤ c_month local ≤ 12 →
  billing_cycle y m d k local = Some (start, stop) →
  civil_ltb local start = false ∧ civil_ltb local stop = true ∧ civil_ltb start stop = true ∧
  ∃ i, start = boundary y m d k i ∧ stop = boundary y m d k (i + 1).
Proof.
  intros Hm H. unfold billing_cycle in H. destruct (_ && _) eqn:Hk; [|done]. apply andb_prop in Hk as [Hk1 Hk2].
  apply Z.leb_le in Hk1, Hk2. injection H as <- <-.
  set (i0 := (c_year local * 12 + c_month local - 1 - origin y m) / k).
  assert (Hi0 : i0 * k ≤ month_number local - origin y m < (i0 + 1) * k).
  { unfold i0, month_number. pose proof (Z.div_mod (c_year local * 12 + c_month local - 1 - origin y m) k ltac:(lia)).
    pose proof (Z.mod_pos_bound (c_year local * 12 + c_month local - 1 - origin y m) k ltac:(lia)). lia. }
  assert (Hnext : ∀ i, civil_ltb (boundary y m d k i) (boundary y m d k (i + 1)) = true).
  { intros i. apply earlier_month; try apply boundary_valid. rewrite !boundary_month. lia. }
  unfold cycle_index. fold i0. destruct (civil_ltb local (boundary y m d k i0)) eqn:E.
  - replace (i0 - 1 + 1) with i0 by lia. split_and!; [|done| |].
    + apply civil_ltb_asym, earlier_month; [apply boundary_valid|done|]. rewrite boundary_month. lia.
    + specialize (Hnext (i0 - 1)). by replace (i0 - 1 + 1) with i0 in Hnext by lia.
    + exists (i0 - 1). by replace (i0 - 1 + 1) with i0 by lia.
  - split_and!; [done| |apply Hnext|by exists i0].
    apply earlier_month; [done|apply boundary_valid|]. rewrite boundary_month. lia.
Qed.

(** ** Witnesses *)

Definition plain_sum (l : list f64) : f64 := fold_left fadd l f0.
Definition demo_periods : periods := mk_periods 0 100 0 3000 0 3000 0 100.
Definition demo_settings : budget_settings :=
  mk_budget_settings (f64_of_Z 10) (f64_of_Z 100) (dec 1 4) (dec 1 4) None 8000 true (f64_of_Z 20) (f64_of_Z 98) f0.
Definition demo_operation : operation :=
  mk_operation (u "op") (u "sha") (u "fp") NotSent None None 0 0 None.
Definition demo_ledger : ledger :=
  mk_ledger [mk_usage_row 1 None (Some (u "j")) (Some (u "p")) None 5 6 (u "completed") [10; 0; 0; 0; 0; 0; 0]
               (Some (dec 1 10)) None (u "provider_reported")]
    [] [mk_reservation (u "vision:op") (dec 1 20) (Some (u "j")) None true 1 None None]
    [mk_budget_job (u "j") (Some (f64_of_Z 1)) f0 None []]
    [mk_provider_row (u "oai") (u "openai") (u "https://api.openai.com/v1")] [] [demo_operation].

Lemma reservation_within_budget_witness :
  ∃ l', reserve plain_sum demo_settings demo_periods false 7 demo_ledger (u "vision:new") (dec 1 5)
          (Some (u "j")) (Some (u "q")) (Some (u "oai")) = Ok l' ∧
        within_budget plain_sum demo_settings demo_periods demo_ledger (dec 1 5) (Some (u "j")) (Some (u "q")) (Some (u "oai")).
Proof.
  destruct (reserve plain_sum demo_settings demo_periods false 7 demo_ledger (u "vision:new") (dec 1 5)
              (Some (u "j")) (Some (u "q")) (Some (u "oai"))) as [l'|e] eqn:E; [|vm_compute in E; discriminate E].
  exists l'. split; [reflexivity|].
  destruct (reservation_within_budget plain_sum demo_settings demo_periods false 7 demo_ledger (u "vision:new") (dec 1 5)
              (Some (u "j")) (Some (u "q")) (Some (u "oai")) l') as (_ & [[H _]|(_ & H & _)]).
  - apply NoDup_singleton.
  - exact E.
  - vm_compute in H. discriminate H.
  - exact H.
Defined.

(** The job's limit of 1.00 refuses what would exceed it. *)
Example reserve_refused :
  reserve plain_sum demo_settings demo_periods false 7 demo_ledger (u "vision:new") (f64_of_Z 1)
    (Some (u "j")) None None = Raise (BudgetExceeded (u "BUDGET-002")).
Proof. vm_compute. done. Qed.

Definition lost_connection : exc :=
  mk_exc (FExc (Some (u "VLM-006")) None false) [] (Some true) (Some true) (Some true) false None None None None.

Lemma paid_call_accounted_witness :
  ∃ r, get_row rv_id (u "d-1") (reservations (snd (call plain_sum demo_settings demo_periods false 7 demo_ledger
         (u "d-1") None None (Raise lost_connection)))) = Some r ∧ rv_active r = true.
Proof.
  destruct (paid_call_accounted plain_sum demo_settings demo_periods false 7 demo_ledger (u "d-1") None None
    (Raise lost_connection) (Raise ProviderFailed)
    (snd (call plain_sum demo_settings demo_periods false 7 demo_ledger (u "d-1") None None (Raise lost_connection))))
    as [(e & [= <-] & Hne & _)|(r & Hr & Ha & _)].
  - vm_compute. reflexivity.
  - vm_compute. reflexivity.
  - destruct (Hne eq_refl).
  - exists r. split; [exact Hr|exact Ha].
Defined.

Lemma expiry_needs_settlement_witness :
  ∃ r o, r ∈ reservations demo_ledger ∧ o ∈ operation_rows demo_ledger ∧ o_id o = drop 7 (rv_id r).
Proof.
  pose proof (expiry_needs_settlement demo_ledger 50
    (mk_reservation (u "vision:op") (dec 1 20) (Some (u "j")) None false 1 None None)) as H.
  cbn [expire_stale_reservations] in H. destruct H as [H|(r & o & Hr & _ & _ & _ & Ho & Hid & _)].
  - vm_compute. left.
  - apply list_elem_of_singleton in H. discriminate H.
  - exists r, o. split_and!; assumption.
Defined.

Lemma billing_cycle_contains_now_witness :
  civil_ltb (mk_civil 2026 2 27 0) (mk_civil 2026 1 31 0) = false ∧
  civil_ltb (mk_civil 2026 2 27 0) (mk_civil 2026 2 28 0) = true.
Proof.
  destruct (billing_cycle_contains_now 2025 1 31 1 (mk_civil 2026 2 27 0) (mk_civil 2026 1 31 0) (mk_civil 2026 2 28 0))
    as (H1 & H2 & _); [cbn; lia|vm_compute; reflexivity|].
  split; [exact H1|exact H2].
Defined.
