(* ===== verification/Batches.v ===== *)
(** * The Batch lifecycle's durable state (repositories/analysis_batches.py)

    A remote Batch is prepared, uploaded, submitted, polled, imported and
    cleaned up by transactions of [AnalysisBatchRepository] on the tables
    analysis_batches and analysis_batch_items (db/migrations.py); every network
    step is first claimed with an owner, a lease and a version, so that its
    answer can be refused when the claim was lost.

    One definition per method, from the tables before to the result and the
    tables after.  A transaction ends with [commit], which refuses a state that
    breaks a CHECK or UNIQUE constraint of the tables.  Jobs and their items are
    those of [Store]; foreign keys are not modelled.  Columns that are only
    copied are collected in [batch_spec]. *)

From S2P Require Import Prelude PyStr PyFloat Sql Store Reservations Budgets.
Local Open Scope Z_scope.

(** ** Tables *)

Inductive bstatus : Type :=
| BPreparing | BUploading | BUploadUnknown | BUploaded | BSubmitting | BSubmissionUnknown
| BValidating | BInProgress | BFinalizing | BImportPending | BImporting | BCompleted
| BCompletedWithErrors | BFailed | BExpired | BCancelling | BCancelled | BCleanupPending.
#[export] Instance bstatus_eq_dec : EqDecision bstatus.
Proof. solve_decision. Defined.

Definition bstatus_text (s : bstatus) : str :=
  u match s with
    | BPreparing => "preparing" | BUploading => "uploading" | BUploadUnknown => "upload_unknown"
    | BUploaded => "uploaded" | BSubmitting => "submitting" | BSubmissionUnknown => "submission_unknown"
    | BValidating => "validating" | BInProgress => "in_progress" | BFinalizing => "finalizing"
    | BImportPending => "import_pending" | BImporting => "importing" | BCompleted => "completed"
    | BCompletedWithErrors => "completed_with_errors" | BFailed => "failed" | BExpired => "expired"
    | BCancelling => "cancelling" | BCancelled => "cancelled" | BCleanupPending => "cleanup_pending"
    end.

Definition bstatus_in (l : list bstatus) (s : bstatus) : bool := bool_decide (s ∈ l).
Definition TERMINAL_BATCH_STATUSES : list bstatus :=
  [BCompleted; BCompletedWithErrors; BFailed; BExpired; BCancelled].
(** [ACTIVE_BATCH_STATUSES - {"upload_unknown","submission_unknown"}] *)
Definition pollable_statuses : list bstatus :=
  [BPreparing; BUploading; BUploaded; BSubmitting; BValidating; BInProgress; BFinalizing;
   BImportPending; BImporting; BCancelling; BCleanupPending].

Inductive xstatus : Type :=
| XPending | XSubmitted | XSuccess | XFailed | XMissing | XRetryPending | XStale | XSchemaInvalid
| XDuplicateCustomId | XUnexpectedCustomId | XImported | XCancelled | XExpired | XUploadUnknown
| XSubmissionUnknown.
#[export] Instance xstatus_eq_dec : EqDecision xstatus.
Proof. solve_decision. Defined.
Definition xstatus_in (l : list xstatus) (s : xstatus) : bool := bool_decide (s ∈ l).

Inductive cleanup_state := CleanupPending | CleanupPartial | CleanupCompleted | CleanupNotRequired.
#[export] Instance cleanup_state_eq_dec : EqDecision cleanup_state.
Proof. solve_decision. Defined.
Inductive final_action := ActNone | ActComplete | ActCancel | ActAbandon | ActFail.
#[export] Instance final_action_eq_dec : EqDecision final_action.
Proof. solve_decision. Defined.

(** side_effect_owner, side_effect_lease_until, side_effect_version *)
Record side := mk_side { s_owner : option str; s_lease : option Z; s_version : Z }.

(** <kind>_file_id, <kind>_file_deleted, <kind>_file_delete_unknown *)
Record remote_file := mk_file { rf_id : option str; rf_deleted : bool; rf_unknown : bool }.
Inductive file_kind := InputFile | OutputFile | ErrorFile.
#[export] Instance file_kind_eq_dec : EqDecision file_kind.
Proof. solve_decision. Defined.

Record batch_counts := mk_counts {
  c_total : Z; c_completed : Z; c_failed : Z; c_missing : Z; c_stale : Z; c_imported : Z;
  c_input_tokens : Z; c_cached_tokens : Z; c_output_tokens : Z; c_reasoning_tokens : Z;
  c_estimated : f64; c_actual : f64 }.

(** A pair of error columns: code and message. *)
Definition error_pair : Type := option str * option str.

Record batch_spec := mk_batch_spec {
  sp_model : str; sp_endpoint : str; sp_fingerprint : str; sp_sample_seed : option str;
  sp_snapshot : str; sp_scope : str; sp_config_revision : option str;
  sp_base_url_fingerprint : option str; sp_project : option str; sp_account : option str }.

Record batch_times := mk_times {
  m_phase : option Z; m_submitted : option Z; m_polled : option Z; m_completed : option Z;
  m_cleanup_completed : option Z; m_abandon_confirmed : option Z; m_created : Z; m_updated : Z }.

Record batch_row := mk_batch_row {
  k_id : str; k_job : option str; k_provider : option str; k_spec : batch_spec;
  k_status : bstatus; k_remote_status : option str; k_remote_id : option str;
  k_upload_attempt : option str; k_submission_attempt : option str; k_side : side;
  k_input : remote_file; k_output : remote_file; k_error : remote_file;
  k_input_bytes : option Z; k_local_input : option str; k_peak_rss : Z;
  k_counts : batch_counts; k_times : batch_times;
  k_last_error : error_pair; k_reconciliation : error_pair;
  k_cleanup : cleanup_state; k_cleanup_error : error_pair; k_action : final_action }.

Definition side_eta (s : side) : side := mk_side (s_owner s) (s_lease s) (s_version s).
Definition file_eta (f : remote_file) : remote_file := mk_file (rf_id f) (rf_deleted f) (rf_unknown f).
#[export] Instance set_rf_id : Settable rf_id := ltac:(derive_setter file_eta rf_id).
#[export] Instance set_rf_deleted : Settable rf_deleted := ltac:(derive_setter file_eta rf_deleted).
#[export] Instance set_rf_unknown : Settable rf_unknown := ltac:(derive_setter file_eta rf_unknown).
Definition counts_eta (c : batch_counts) : batch_counts :=
  mk_counts (c_total c) (c_completed c) (c_failed c) (c_missing c) (c_stale c) (c_imported c)
    (c_input_tokens c) (c_cached_tokens c) (c_output_tokens c) (c_reasoning_tokens c)
    (c_estimated c) (c_actual c).
#[export] Instance set_c_total : Settable c_total := ltac:(derive_setter counts_eta c_total).
#[export] Instance set_c_completed : Settable c_completed := ltac:(derive_setter counts_eta c_completed).
#[export] Instance set_c_failed : Settable c_failed := ltac:(derive_setter counts_eta c_failed).
#[export] Instance set_c_estimated : Settable c_estimated := ltac:(derive_setter counts_eta c_estimated).
#[export] Instance set_c_actual : Settable c_actual := ltac:(derive_setter counts_eta c_actual).
Definition times_eta (m : batch_times) : batch_times :=
  mk_times (m_phase m) (m_submitted m) (m_polled m) (m_completed m) (m_cleanup_completed m)
    (m_abandon_confirmed m) (m_created m) (m_updated m).
#[export] Instance set_m_phase : Settable m_phase := ltac:(derive_setter times_eta m_phase).
#[export] Instance set_m_submitted : Settable m_submitted := ltac:(derive_setter times_eta m_submitted).
#[export] Instance set_m_polled : Settable m_polled := ltac:(derive_setter times_eta m_polled).
#[export] Instance set_m_completed : Settable m_completed := ltac:(derive_setter times_eta m_completed).
#[export] Instance set_m_cleanup : Settable m_cleanup_completed := ltac:(derive_setter times_eta m_cleanup_completed).
#[export] Instance set_m_abandon : Settable m_abandon_confirmed := ltac:(derive_setter times_eta m_abandon_confirmed).
#[export] Instance set_m_updated : Settable m_updated := ltac:(derive_setter times_eta m_updated).

Definition batch_row_eta (b : batch_row) : batch_row :=
  mk_batch_row (k_id b) (k_job b) (k_provider b) (k_spec b) (k_status b) (k_remote_status b)
    (k_remote_id b) (k_upload_attempt b) (k_submission_attempt b) (k_side b) (k_input b) (k_output b)
    (k_error b) (k_input_bytes b) (k_local_input b) (k_peak_rss b) (k_counts b) (k_times b)
    (k_last_error b) (k_reconciliation b) (k_cleanup b) (k_cleanup_error b) (k_action b).
#[export] Instance set_k_status : Settable k_status := ltac:(derive_setter batch_row_eta k_status).
#[export] Instance set_k_remote_status : Settable k_remote_status := ltac:(derive_setter batch_row_eta k_remote_status).
#[export] Instance set_k_remote_id : Settable k_remote_id := ltac:(derive_setter batch_row_eta k_remote_id).
#[export] Instance set_k_upload : Settable k_upload_attempt := ltac:(derive_setter batch_row_eta k_upload_attempt).
#[export] Instance set_k_submission : Settable k_submission_attempt := ltac:(derive_setter batch_row_eta k_submission_attempt).
#[export] Instance set_k_side : Settable k_side := ltac:(derive_setter batch_row_eta k_side).
#[export] Instance set_k_input : Settable k_input := ltac:(derive_setter batch_row_eta k_input).
#[export] Instance set_k_output : Settable k_output := ltac:(derive_setter batch_row_eta k_output).
#[export] Instance set_k_error : Settable k_error := ltac:(derive_setter batch_row_eta k_error).
#[export] Instance set_k_bytes : Settable k_input_bytes := ltac:(derive_setter batch_row_eta k_input_bytes).
#[export] Instance set_k_local_input : Settable k_local_input := ltac:(derive_setter batch_row_eta k_local_input).
#[export] Instance set_k_peak_rss : Settable k_peak_rss := ltac:(derive_setter batch_row_eta k_peak_rss).
#[export] Instance set_k_counts : Settable k_counts := ltac:(derive_setter batch_row_eta k_counts).
#[export] Instance set_k_times : Settable k_times := ltac:(derive_setter batch_row_eta k_times).
#[export] Instance set_k_last_error : Settable k_last_error := ltac:(derive_setter batch_row_eta k_last_error).
#[export] Instance set_k_recon : Settable k_reconciliation := ltac:(derive_setter batch_row_eta k_reconciliation).
#[export] Instance set_k_cleanup : Settable k_cleanup := ltac:(derive_setter batch_row_eta k_cleanup).
#[export] Instance set_k_cleanup_error : Settable k_cleanup_error := ltac:(derive_setter batch_row_eta k_cleanup_error).
#[export] Instance set_k_action : Settable k_action := ltac:(derive_setter batch_row_eta k_action).

Record bitem := mk_bitem {
  x_id : str; x_batch : str; x_job_item : option str; x_photo : option str; x_custom : str;
  x_sha256 : str; x_vision : str;            (** content_sha256, vision_request_fingerprint *)
  x_status : xstatus; x_tokens : Z * Z * Z * Z; (** input, cached, output, reasoning *)
  x_estimated : f64; x_actual : f64; x_error : error_pair; x_updated : Z }.
Definition bitem_eta (x : bitem) : bitem :=
  mk_bitem (x_id x) (x_batch x) (x_job_item x) (x_photo x) (x_custom x) (x_sha256 x) (x_vision x)
    (x_status x) (x_tokens x) (x_estimated x) (x_actual x) (x_error x) (x_updated x).
#[export] Instance set_x_batch : Settable x_batch := ltac:(derive_setter bitem_eta x_batch).
#[export] Instance set_x_status : Settable x_status := ltac:(derive_setter bitem_eta x_status).
#[export] Instance set_x_actual : Settable x_actual := ltac:(derive_setter bitem_eta x_actual).
#[export] Instance set_x_error : Settable x_error := ltac:(derive_setter bitem_eta x_error).
#[export] Instance set_x_updated : Settable x_updated := ltac:(derive_setter bitem_eta x_updated).

(** A row of api_usage with its cost [COALESCE(actual_cost,estimated_cost)]. *)
Record batch_usage := mk_batch_usage {
  bu_batch : option str; bu_item : option str; bu_model : str; bu_source : option str; bu_cost : option f64 }.

Record bdb := mk_bdb {
  rows : list batch_row; xrows : list bitem; queue : db; busage : list batch_usage;
  holds : list reservation }.
Definition bdb_eta (d : bdb) : bdb := mk_bdb (rows d) (xrows d) (queue d) (busage d) (holds d).
#[export] Instance set_rows : Settable rows := ltac:(derive_setter bdb_eta rows).
#[export] Instance set_xrows : Settable xrows := ltac:(derive_setter bdb_eta xrows).
#[export] Instance set_queue : Settable queue := ltac:(derive_setter bdb_eta queue).
#[export] Instance set_holds : Settable holds := ltac:(derive_setter bdb_eta holds).

Inductive berror := BatchKeyError | BatchValueError (code : str) | IntegrityError.

(** ** Constraints of the tables *)

Definition counts_ok (c : batch_counts) : bool :=
  forallb (λ n, 0 <=? n) [c_total c; c_completed c; c_failed c; c_missing c; c_stale c; c_imported c;
    c_input_tokens c; c_cached_tokens c; c_output_tokens c; c_reasoning_tokens c]
  && fleb f0 (c_estimated c) && fleb f0 (c_actual c).

Definition row_ok (b : batch_row) : bool :=
  (0 <=? s_version (k_side b)) && counts_ok (k_counts b)
  && match k_input_bytes b with Some n => 0 <=? n | None => true end
  && (negb (bool_decide (k_cleanup b = CleanupNotRequired))
      || forallb (λ f, is_null (rf_id f)) [k_input b; k_output b; k_error b]).

Definition active_content : list xstatus :=
  [XPending; XSubmitted; XSuccess; XUploadUnknown; XSubmissionUnknown].

(** The primary keys, UNIQUE columns and partial unique indexes. *)
Definition constraints (d : bdb) : bool :=
  let live := List.filter (λ x, xstatus_in active_content (x_status x)) (xrows d) in
  forallb row_ok (rows d)
  && forallb (λ x, fleb f0 (x_estimated x) && fleb f0 (x_actual x)) (xrows d)
  && bool_decide (NoDup (map k_id (rows d)))
  && bool_decide (NoDup (omap k_remote_id (rows d)))
  && bool_decide (NoDup (map x_id (xrows d)))
  && bool_decide (NoDup (map x_custom (xrows d)))
  && bool_decide (NoDup (omap x_job_item live))
  && bool_decide (NoDup (map (λ x, (x_sha256 x, x_vision x)) live)).

Definition commit {A} (a : A) (d : bdb) : result berror (A * bdb) :=
  if constraints d then Ok (a, d) else Raise IntegrityError.

(** ** Compare-and-set of one row *)

Definition brow (batch_id : str) : batch_row → bool := by_key k_id batch_id.
Definition get_batch (d : bdb) (batch_id : str) : option batch_row := get_row k_id batch_id (rows d).

(** UPDATE analysis_batches SET [f] WHERE id=? AND [guard]; [bool(rowcount)]. *)
Definition cas (batch_id : str) (guard : batch_row → bool) (f : batch_row → batch_row) (d : bdb) : bool * bdb :=
  let sel b := brow batch_id b && guard b in
  (existsb sel (rows d), d <| rows := update_where sel f (rows d) |>).

Definition cas_commit (batch_id : str) (guard : batch_row → bool) (f : batch_row → batch_row) (d : bdb)
  : result berror (bool * bdb) :=
  let '(hit, d') := cas batch_id guard f d in commit hit d'.

(** UPDATE analysis_batch_items SET status, error, updated_at WHERE batch_id=? AND status IN [from]. *)
Definition move_items (batch_id : str) (from : list xstatus) (to : xstatus) (error : error_pair → error_pair)
    (now : Z) (d : bdb) : bdb :=
  d <| xrows := update_where (λ x, str_eqb (x_batch x) batch_id && xstatus_in from (x_status x))
         (λ x, x <| x_status := to |> <| x_error := error (x_error x) |> <| x_updated := now |>) (xrows d) |>.
Definition no_error : error_pair → error_pair := λ _, (None, None).
Definition set_error (code message : str) : error_pair → error_pair := λ _, (Some code, Some (take 1000 message)).

Definition lease_free (now : Z) (b : batch_row) : bool :=
  match s_lease (k_side b) with None => true | Some l => l <=? now end.
Definition owned (owner : str) (b : batch_row) : bool := sql_eq (s_owner (k_side b)) (Some owner).
Definition claim_side (owner : str) (lease_until : Z) (b : batch_row) : batch_row :=
  b <| k_side := mk_side (Some owner) (Some lease_until) (s_version (k_side b) + 1) |>.
Definition drop_side (b : batch_row) : batch_row :=
  b <| k_side := mk_side None None (s_version (k_side b) + 1) |>.
Definition in_status (s : bstatus) (b : batch_row) : bool := bool_decide (k_status b = s).
Definition touch (now : Z) (b : batch_row) : batch_row := b <| k_times := (k_times b) <| m_updated := now |> |>.
Definition phase (now : Z) (b : batch_row) : batch_row :=
  b <| k_times := (k_times b) <| m_phase := Some now |> <| m_updated := now |> |>.

(** ** Creation *)

Record new_batch := mk_new_batch {
  nb_id : str; nb_job : option str; nb_provider : option str; nb_spec : batch_spec; nb_status : bstatus;
  nb_estimated : f64 }.
Record new_item := mk_new_item {
  ni_id : str; ni_job_item : option str; ni_photo : option str; ni_custom : str; ni_sha256 : str;
  ni_vision : str; ni_status : xstatus; ni_estimated : f64 }.

Definition fresh_side : side := mk_side None None 0.
Definition no_file : remote_file := mk_file None false false.
Definition fresh_counts (total : Z) (estimated : f64) : batch_counts :=
  mk_counts total 0 0 0 0 0 0 0 0 0 estimated f0.
Definition fresh_times (now : Z) : batch_times := mk_times None None None None None None now now.
Definition insert_batch (id : str) (job provider : option str) (spec : batch_spec) (status : bstatus)
    (local_input : option str) (bytes : option Z) (rss total : Z) (estimated : f64) (now : Z) : batch_row :=
  mk_batch_row id job provider spec status None None None None fresh_side no_file no_file no_file bytes
    local_input rss (fresh_counts total estimated) (fresh_times now) (None, None) (None, None)
    CleanupPending (None, None) ActNone.

Definition insert_bitem (batch_id : str) (now : Z) (i : new_item) : bitem :=
  mk_bitem (ni_id i) batch_id (ni_job_item i) (ni_photo i) (ni_custom i) (ni_sha256 i) (ni_vision i)
    (ni_status i) (0, 0, 0, 0) (ni_estimated i) f0 (None, None) now.

Definition create_with_items (d : bdb) (now : Z) (b : new_batch) (items : list new_item)
  : result berror (Z * bdb) :=
  let n := Z.of_nat (length items) in
  commit n
    (d <| rows := rows d ++ [insert_batch (nb_id b) (nb_job b) (nb_provider b) (nb_spec b) (nb_status b)
                               None None 0 n (nb_estimated b) now] |>
       <| xrows := xrows d ++ map (insert_bitem (nb_id b) now) items |>).

(** [estimated * part / max(1, total or 1)] *)
Definition share (estimated : f64) (part total : Z) : f64 :=
  fdiv (fmul estimated (f64_of_Z part)) (f64_of_Z (Z.max 1 (if total =? 0 then 1 else total))).

Definition create_child_batch (d : bdb) (now : Z) (parent_id child_id : str) (selected : list str)
    (local_input : str) (total rss : Z) (bytes : option Z) : result berror (Z * bdb) :=
  raise_if (match selected with [] => true | _ => false end) (BatchValueError []) ;;;
  match get_batch d parent_id with
  | None => Raise BatchKeyError
  | Some p =>
      let n := Z.of_nat (length selected) in
      let mine x := str_eqb (x_batch x) parent_id && str_in (x_id x) selected in
      raise_if (negb (countb mine (xrows d) =? n)) (BatchValueError []) ;;;
      let all := c_total (k_counts p) in
      let est := c_estimated (k_counts p) in
      let child := insert_batch child_id (k_job p) (k_provider p) (k_spec p) BPreparing (Some local_input)
                     bytes rss total (share est total all) now in
      let xs := update_where (λ x, str_in (x_id x) selected)
                  (λ x, x <| x_batch := child_id |> <| x_updated := now |>) (xrows d) in
      let rs := update_where (brow parent_id)
                  (λ b, touch now (b <| k_counts := (k_counts b) <| c_total := all - n |>
                                        <| c_estimated := share est (all - n) all |> |>)) (rows d ++ [child]) in
      commit n (d <| rows := rs |> <| xrows := xs |>)
  end.

Definition hold_prepared_for_credit (d : bdb) (now : Z) (job_id code : str) : result berror (unit * bdb) :=
  commit tt (d <| rows := update_where
         (λ b, sql_eq (k_job b) (Some job_id) && in_status BPreparing b && is_null (rf_id (k_input b))
               && is_null (k_remote_id b))
         (λ b, touch now (b <| k_last_error := (Some code,
            Some (u "OpenAI 額度／預算暫停，分片保留本機等待恢復")) |>)) (rows d) |>).

(** ** Reading *)

(** ORDER BY [COALESCE(last_polled_at,phase_started_at,updated_at,created_at)], id *)
Definition due_at (b : batch_row) : Z :=
  match m_polled (k_times b) with
  | Some t => t
  | None => match m_phase (k_times b) with Some t => t | None => m_updated (k_times b) end
  end.
Definition due_leb (a b : batch_row) : bool :=
  (due_at a <? due_at b) || ((due_at a =? due_at b) && str_leb (k_id a) (k_id b)).
Definition clamp_limit (most limit : Z) : nat := Z.to_nat (Z.max 1 (Z.min limit most)).

Definition pollable (now : Z) (b : batch_row) : bool :=
  bstatus_in pollable_statuses (k_status b) && lease_free now b.
Definition list_pollable_due (d : bdb) (now limit : Z) : list batch_row :=
  take (clamp_limit 500 limit) (sort_by due_leb (List.filter (pollable now) (rows d))).

Definition newest_first (a b : batch_row) : bool :=
  (m_created (k_times b) <? m_created (k_times a))
  || ((m_created (k_times a) =? m_created (k_times b)) && str_leb (k_id b) (k_id a)).
Definition list_batches (d : bdb) (statuses : list bstatus) (limit : Z) : list batch_row :=
  take (clamp_limit 500 limit)
    (sort_by newest_first (List.filter
       (λ b, match statuses with [] => true | _ => bstatus_in statuses (k_status b) end) (rows d))).
Definition list_operator_holds (d : bdb) (limit : Z) : list batch_row :=
  list_batches d [BUploadUnknown; BSubmissionUnknown] limit.

Definition batch_items_of (d : bdb) (batch_id : str) : list bitem :=
  List.filter (λ x, str_eqb (x_batch x) batch_id) (xrows d).

(** ** Generic updates

    [changes] is the SET list over BATCH_FIELDS or ITEM_FIELDS, none of which
    is the id. *)
Definition update_batch (d : bdb) (now : Z) (batch_id : str) (changes : batch_row → batch_row)
  : result berror (unit * bdb) :=
  raise_if (negb (has_key k_id batch_id (rows d))) BatchKeyError ;;;
  commit tt (d <| rows := update_where (brow batch_id) (λ b, touch now (changes b)) (rows d) |>).

(** The columns the service assigns through [update_batch], one constructor
    per keyword argument: no caller names an identity (remote_batch_id,
    input_file_id) or a side_effect_ column.  The paths of downloaded results
    are not columns of [batch_row]. *)
Inductive batch_set : Type :=
| SetStatusTo (s : bstatus) | SetRemoteStatus (r : option str)
| SetLastErrorCode (c : option str) | SetLastErrorMessage (m : option str)
| SetReconciliationCode (c : option str) | SetReconciliationMessage (m : option str)
| SetCleanupStatus (c : cleanup_state) | SetCleanupErrorCode (c : option str)
| SetCleanupErrorMessage (m : option str) | SetFinalAction (a : final_action)
| SetCleanupCompletedAt (t : option Z) | SetCompletedAt (t : option Z) | SetPhaseStartedAt (t : option Z)
| SetAbandonConfirmedAt (t : option Z) | SetLocalInputPath (p : option str) | SetPeakRss (n : Z)
| SetInputFileBytes (n : option Z) | SetLocalResultPath.

Definition assign (c : batch_set) (b : batch_row) : batch_row :=
  match c with
  | SetStatusTo s => b <| k_status := s |>
  | SetRemoteStatus r => b <| k_remote_status := r |>
  | SetLastErrorCode x => b <| k_last_error := (x, snd (k_last_error b)) |>
  | SetLastErrorMessage x => b <| k_last_error := (fst (k_last_error b), x) |>
  | SetReconciliationCode x => b <| k_reconciliation := (x, snd (k_reconciliation b)) |>
  | SetReconciliationMessage x => b <| k_reconciliation := (fst (k_reconciliation b), x) |>
  | SetCleanupStatus x => b <| k_cleanup := x |>
  | SetCleanupErrorCode x => b <| k_cleanup_error := (x, snd (k_cleanup_error b)) |>
  | SetCleanupErrorMessage x => b <| k_cleanup_error := (fst (k_cleanup_error b), x) |>
  | SetFinalAction a => b <| k_action := a |>
  | SetCleanupCompletedAt t => b <| k_times := (k_times b) <| m_cleanup_completed := t |> |>
  | SetCompletedAt t => b <| k_times := (k_times b) <| m_completed := t |> |>
  | SetPhaseStartedAt t => b <| k_times := (k_times b) <| m_phase := t |> |>
  | SetAbandonConfirmedAt t => b <| k_times := (k_times b) <| m_abandon_confirmed := t |> |>
  | SetLocalInputPath p => b <| k_local_input := p |>
  | SetPeakRss n => b <| k_peak_rss := n |>
  | SetInputFileBytes n => b <| k_input_bytes := n |>
  | SetLocalResultPath => b
  end.
Definition assign_all (cs : list batch_set) (b : batch_row) : batch_row := fold_left (λ b c, assign c b) cs b.

Definition update_item (d : bdb) (now : Z) (item_id : str) (changes : bitem → bitem)
  : result berror (unit * bdb) :=
  raise_if (negb (has_key x_id item_id (xrows d))) BatchKeyError ;;;
  commit tt (d <| xrows := update_where (by_key x_id item_id) (λ x, (changes x) <| x_updated := now |>) (xrows d) |>).

(** ** Claims and their outcomes *)

Definition claim_poll (d : bdb) (now : Z) (batch_id owner : str) (lease_until expected_version : Z) :=
  cas_commit batch_id
    (λ b, bstatus_in pollable_statuses (k_status b) && (s_version (k_side b) =? expected_version)
          && lease_free now b)
    (λ b, (claim_side owner lease_until b) <| k_times := (k_times b) <| m_polled := Some now |>
            <| m_updated := now |> |>) d.

Definition release_side_effect_claim (d : bdb) (now : Z) (batch_id owner : str) :=
  cas_commit batch_id (owned owner) (λ b, touch now (drop_side b)) d.

Definition claim_upload (d : bdb) (now : Z) (batch_id owner attempt : str) (lease_until : Z) :=
  cas_commit batch_id
    (λ b, in_status BPreparing b && is_null (rf_id (k_input b)) && lease_free now b)
    (λ b, (phase now (claim_side owner lease_until b)) <| k_status := BUploading |>
            <| k_upload_attempt := Some attempt |> <| k_last_error := (None, None) |>) d.

Definition complete_upload (d : bdb) (now : Z) (batch_id attempt owner input_file : str) (bytes : option Z) :=
  cas_commit batch_id
    (λ b, in_status BUploading b && sql_eq (k_upload_attempt b) (Some attempt) && owned owner b)
    (λ b, (phase now (drop_side b)) <| k_status := BUploaded |> <| k_input_bytes := bytes |>
            <| k_input := (k_input b) <| rf_id := Some input_file |> |>) d.

Definition mark_upload_unknown (d : bdb) (now : Z) (batch_id attempt owner code message : str)
  : result berror (bool * bdb) :=
  let '(hit, d1) := cas batch_id
    (λ b, in_status BUploading b && sql_eq (k_upload_attempt b) (Some attempt) && owned owner b)
    (λ b, (phase now (drop_side b)) <| k_status := BUploadUnknown |>
            <| k_remote_status := Some (u "upload_unknown") |> <| k_cleanup := CleanupPending |>
            <| k_reconciliation := set_error code message (k_reconciliation b) |>
            <| k_times := (k_times b) <| m_completed := None |> <| m_phase := Some now |> <| m_updated := now |> |>) d in
  commit hit (if hit then move_items batch_id [XPending] XUploadUnknown (set_error code message) now d1 else d1).

Definition claim_submission (d : bdb) (now : Z) (batch_id owner attempt : str) (lease_until : Z) :=
  cas_commit batch_id
    (λ b, in_status BUploaded b && negb (is_null (rf_id (k_input b))) && lease_free now b)
    (λ b, (phase now (claim_side owner lease_until b)) <| k_status := BSubmitting |>
            <| k_submission_attempt := Some attempt |> <| k_last_error := (None, None) |>
            <| k_times := (k_times b) <| m_submitted := Some (default now (m_submitted (k_times b))) |>
                 <| m_phase := Some now |> <| m_updated := now |> |>) d.

Definition claim_cancel (d : bdb) (now : Z) (batch_id owner : str) (lease_until : Z) :=
  cas_commit batch_id
    (λ b, negb (is_null (k_remote_id b))
          && bstatus_in [BValidating; BInProgress; BFinalizing; BCancelling] (k_status b) && lease_free now b)
    (λ b, (phase now (claim_side owner lease_until b)) <| k_status := BCancelling |>) d.

Definition mark_submission_unknown (d : bdb) (now : Z) (batch_id attempt owner code message : str)
  : result berror (bool * bdb) :=
  let '(hit, d1) := cas batch_id
    (λ b, in_status BSubmitting b && sql_eq (k_submission_attempt b) (Some attempt) && owned owner b)
    (λ b, (phase now (drop_side b)) <| k_status := BSubmissionUnknown |>
            <| k_remote_status := Some (u "submission_unknown") |>
            <| k_reconciliation := set_error code message (k_reconciliation b) |>
            <| k_times := (k_times b) <| m_completed := None |> <| m_phase := Some now |> <| m_updated := now |> |>) d in
  commit hit (if hit then move_items batch_id [XPending; XSubmitted] XSubmissionUnknown
                            (set_error code message) now d1 else d1).

Definition recover_uploaded_file (d : bdb) (now : Z) (batch_id input_file : str) (bytes : option Z)
  : result berror (bool * bdb) :=
  let '(hit, d1) := cas batch_id
    (λ b, in_status BUploadUnknown b && is_null (k_remote_id b))
    (λ b, (phase now (drop_side b)) <| k_status := BUploaded |>
            <| k_input := (k_input b) <| rf_id := Some input_file |> |>
            <| k_input_bytes := match bytes with Some n => Some n | None => k_input_bytes b end |>
            <| k_cleanup := CleanupPending |> <| k_cleanup_error := (None, None) |>
            <| k_last_error := (None, None) |> <| k_reconciliation := (None, None) |>) d in
  commit hit (if hit then move_items batch_id [XUploadUnknown] XPending no_error now d1 else d1).

(** ** Remote answers *)

Record remote_counts := mk_remote_counts { rc_total : option Z; rc_completed : option Z; rc_failed : option Z }.
(** The members of the provider's Batch object the code reads. *)
Record remote := mk_remote {
  rm_id : option str; rm_remote_batch_id : option str; rm_status : option str;
  rm_input : option str; rm_output : option str; rm_error : option str;
  rm_ended : list (option Z);          (** completed_at, expired_at, cancelled_at *)
  rm_counts : remote_counts; rm_errors : option str }.

(** [a or b] on texts *)
Definition or_else (a b : option str) : option str := if opt_truthy a then a else b.
(** The first true instant of [completed_at or expired_at or cancelled_at]. *)
Fixpoint ended_at (l : list (option Z)) : option Z :=
  match l with
  | [] => None
  | Some t :: l' => if t =? 0 then ended_at l' else Some t
  | None :: l' => ended_at l'
  end.

Definition terminal_remote : list str := map u ["completed"; "failed"; "expired"; "cancelled"]%string.
Definition remote_statuses : list str :=
  map u ["validating"; "in_progress"; "finalizing"; "completed"; "failed"; "expired"; "cancelling";
         "cancelled"]%string.
Definition live_statuses : list bstatus := [BValidating; BInProgress; BFinalizing; BCancelling].
(** import_pending for a terminal remote status, the same name for a live one. *)
Definition local_status (s : str) : option bstatus :=
  if str_in s terminal_remote then Some BImportPending
  else List.find (λ b, str_eqb (bstatus_text b) s) live_statuses.
Definition ranks : list (str * Z) :=
  [(u "validating", 10); (u "in_progress", 20); (u "finalizing", 30); (u "cancelling", 35);
   (u "completed", 40); (u "failed", 40); (u "expired", 40); (u "cancelled", 40)].
Definition rank_of (s : str) : option Z := option_map snd (List.find (λ p, str_eqb (fst p) s) ranks).

(** [x not in (None, "", y)] *)
Definition clashes (x : option str) (y : str) : bool :=
  match x with Some ((_ :: _) as s) => negb (str_eqb s y) | _ => false end.
Definition file_clash (f : remote_file) (value : option str) : bool :=
  match value with Some v => clashes (rf_id f) v | None => false end.
Definition with_id (value : option str) (f : remote_file) : remote_file :=
  match value with Some v => f <| rf_id := Some v |> | None => f end.
Definition bound_elsewhere (d : bdb) (batch_id remote_id : str) : bool :=
  existsb (λ b, sql_eq (k_remote_id b) (Some remote_id) && negb (str_eqb (k_id b) batch_id)) (rows d).

Definition identity_error (n : string) : berror := BatchValueError (u n).

Definition complete_submission (d : bdb) (now : Z) (batch_id attempt owner : str) (r : remote)
  : result berror (option bstatus * bdb) :=
  let remote_id := str_or (or_else (rm_id r) (rm_remote_batch_id r)) [] in
  let status := str_or (rm_status r) (u "validating") in
  raise_if (str_eqb remote_id []) (identity_error "BATCH-SUBMISSION-UNKNOWN") ;;;
  raise_if (negb (str_in status remote_statuses)) (identity_error "BATCH-REMOTE-001") ;;;
  match get_batch d batch_id, local_status status with
  | None, _ => Raise BatchKeyError
  | _, None => Ok (None, d)
  | Some b, Some local =>
      if negb (in_status BSubmitting b) || negb (str_eqb (str_or (k_submission_attempt b) []) attempt)
         || negb (str_eqb (str_or (s_owner (k_side b)) []) owner)
      then Ok (None, d)
      else
        raise_if (clashes (k_remote_id b) remote_id) (identity_error "BATCH-REMOTE-IDENTITY-001") ;;;
        raise_if (bound_elsewhere d batch_id remote_id) (identity_error "BATCH-RECOVERY-006") ;;;
        raise_if (match rm_input r with
                  | Some f => negb (str_eqb f (str_or (rf_id (k_input b)) [])) | None => false end)
          (identity_error "BATCH-REMOTE-IDENTITY-002") ;;;
        raise_if (file_clash (k_output b) (rm_output r) || file_clash (k_error b) (rm_error r))
          (identity_error "BATCH-REMOTE-IDENTITY-003") ;;;
        let done := if str_in status terminal_remote
                    then Some (default now (ended_at (rm_ended r))) else m_completed (k_times b) in
        let '(hit, d1) := cas batch_id
          (λ c, in_status BSubmitting c && sql_eq (k_submission_attempt c) (Some attempt) && owned owner c)
          (λ c, (drop_side c) <| k_remote_id := Some remote_id |> <| k_status := local |>
                  <| k_remote_status := Some status |> <| k_last_error := (None, None) |>
                  <| k_reconciliation := (None, None) |>
                  <| k_output := with_id (rm_output r) (k_output c) |>
                  <| k_error := with_id (rm_error r) (k_error c) |>
                  <| k_times := (k_times c) <| m_polled := Some now |> <| m_phase := Some now |>
                       <| m_completed := done |> <| m_updated := now |> |>) d in
        if negb hit then Ok (None, d1)
        else commit (Some local) (move_items batch_id [XPending; XSubmissionUnknown] XSubmitted no_error now d1)
  end.

(** [set_status_from_remote] answers with the new local status or ignores a stale poll. *)
Inductive poll_answer := IgnoredStale | Applied (s : bstatus).

Definition closed_statuses : list bstatus :=
  [BImportPending; BImporting; BCleanupPending] ++ TERMINAL_BATCH_STATUSES.

(** The guards that make a poll answer stale. *)
Definition stale_answer (b : batch_row) (status : str) (expected : Z) (owner : option str) : bool :=
  let remote := str_or (k_remote_status b) [] in
  negb (s_version (k_side b) =? expected)
  || match owner with Some o => negb (str_eqb (str_or (s_owner (k_side b)) []) o) | None => false end
  || bstatus_in closed_statuses (k_status b)
  || match rank_of remote, rank_of status with Some x, Some y => y <? x | _, _ => false end
  || (str_in remote terminal_remote && negb (str_eqb status remote))
  || (str_in remote terminal_remote && negb (str_in status terminal_remote))
  || (in_status BCancelling b && str_in status (map u ["validating"; "in_progress"; "finalizing"]%string)).

Definition grow (old : Z) (value : option Z) : Z := match value with Some n => Z.max old n | None => old end.

Definition apply_poll (now : Z) (status : str) (local : bstatus) (r : remote) (b : batch_row) : batch_row :=
  (drop_side b) <| k_status := local |> <| k_remote_status := Some status |>
    <| k_remote_id := match rm_remote_batch_id r with Some x => Some x | None => k_remote_id b end |>
    <| k_output := with_id (rm_output r) (k_output b) |> <| k_error := with_id (rm_error r) (k_error b) |>
    <| k_input := if opt_truthy (rf_id (k_input b)) then k_input b else with_id (rm_input r) (k_input b) |>
    <| k_counts := (k_counts b) <| c_total := grow (c_total (k_counts b)) (rc_total (rm_counts r)) |>
         <| c_completed := grow (c_completed (k_counts b)) (rc_completed (rm_counts r)) |>
         <| c_failed := grow (c_failed (k_counts b)) (rc_failed (rm_counts r)) |> |>
    <| k_last_error := if opt_truthy (rm_errors r)
         then (Some (u "remote_validation_error"), option_map (take 1000) (rm_errors r)) else k_last_error b |>
    <| k_times := (k_times b) <| m_polled := Some now |> <| m_updated := now |>
         <| m_completed := if str_in status terminal_remote && is_null (m_completed (k_times b))
              then Some (default now (ended_at (rm_ended r))) else m_completed (k_times b) |> |>.

Definition set_status_from_remote (d : bdb) (now : Z) (batch_id : str) (r : remote) (expected : option Z)
    (owner : option str) : result berror (poll_answer * bdb) :=
  let status := strip (str_or (rm_status r) []) in
  raise_if (negb (str_in status remote_statuses)) (identity_error "BATCH-REMOTE-001") ;;;
  match get_batch d batch_id, local_status status with
  | None, _ => Raise BatchKeyError
  | _, None => Ok (IgnoredStale, d)
  | Some b, Some local =>
      if stale_answer b status (default (s_version (k_side b)) expected) owner then Ok (IgnoredStale, d)
      else
        raise_if (match or_else (rm_id r) (rm_remote_batch_id r) with
                  | Some i => clashes (k_remote_id b) i | None => false end)
          (identity_error "BATCH-REMOTE-IDENTITY-001") ;;;
        raise_if (file_clash (k_input b) (rm_input r)) (identity_error "BATCH-REMOTE-IDENTITY-002") ;;;
        raise_if (file_clash (k_output b) (rm_output r) || file_clash (k_error b) (rm_error r))
          (identity_error "BATCH-REMOTE-IDENTITY-003") ;;;
        let '(_, d1) := cas batch_id (λ c, s_version (k_side c) =? s_version (k_side b))
                          (apply_poll now status local r) d in
        commit (Applied local) (move_items batch_id [XPending; XSubmissionUnknown] XSubmitted no_error now d1)
  end.

Definition bind_recovered_remote (d : bdb) (now : Z) (batch_id : str) (r : remote) (item_status : xstatus)
  : result berror (bstatus * bdb) :=
  let remote_id := str_or (or_else (rm_id r) (rm_remote_batch_id r)) [] in
  let status := str_or (rm_status r) [] in
  raise_if (str_eqb remote_id []) (identity_error "BATCH-RECOVERY-004") ;;;
  match local_status status with
  | None => Raise (identity_error "BATCH-RECOVERY-005")
  | Some local =>
      match get_batch d batch_id with
      | None => Raise BatchKeyError
      | Some b =>
          raise_if (negb (bstatus_in [BSubmissionUnknown; BSubmitting; BValidating] (k_status b)))
            (identity_error "BATCH-RECOVERY-002") ;;;
          raise_if (bound_elsewhere d batch_id remote_id) (identity_error "BATCH-RECOVERY-006") ;;;
          raise_if (clashes (k_remote_id b) remote_id) (identity_error "BATCH-RECOVERY-003") ;;;
          raise_if (file_clash (k_output b) (rm_output r) || file_clash (k_error b) (rm_error r))
            (identity_error "BATCH-RECOVERY-008") ;;;
          let '(_, d1) := cas batch_id (λ _, true)
            (λ c, (drop_side c) <| k_remote_id := Some remote_id |> <| k_status := local |>
                    <| k_remote_status := Some status |> <| k_last_error := (None, None) |>
                    <| k_reconciliation := (None, None) |>
                    <| k_output := with_id (rm_output r) (k_output c) |>
                    <| k_error := with_id (rm_error r) (k_error c) |>
                    <| k_counts := (k_counts c) <| c_total :=
                         match rc_total (rm_counts r) with Some n => Z.max 0 n | None => c_total (k_counts c) end |> |>
                    <| k_times := (k_times c) <| m_phase := Some now |> <| m_polled := Some now |>
                         <| m_completed := if str_in status terminal_remote then ended_at (rm_ended r) else None |>
                         <| m_updated := now |> |>) d in
          commit local (move_items batch_id [XPending; XUploadUnknown; XSubmissionUnknown] item_status
                          no_error now d1)
      end
  end.

(** ** Remote files *)

Definition file_of (kind : str) : option file_kind :=
  if str_eqb kind (u "input") then Some InputFile
  else if str_eqb kind (u "output") then Some OutputFile
  else if str_eqb kind (u "error") then Some ErrorFile else None.
Definition the_file (k : file_kind) (b : batch_row) : remote_file :=
  match k with InputFile => k_input b | OutputFile => k_output b | ErrorFile => k_error b end.
Definition put_file (k : file_kind) (f : remote_file) (b : batch_row) : batch_row :=
  match k with
  | InputFile => b <| k_input := f |> | OutputFile => b <| k_output := f |> | ErrorFile => b <| k_error := f |>
  end.

Definition mark_file_deleted (d : bdb) (now : Z) (batch_id kind : str) : result berror (unit * bdb) :=
  match file_of kind with
  | None => Raise (BatchValueError [])
  | Some k =>
      let '(hit, d1) := cas batch_id (λ _, true)
        (λ b, touch now (put_file k ((the_file k b) <| rf_deleted := true |>) b)) d in
      raise_if (negb hit) BatchKeyError ;;; commit tt d1
  end.

Definition undeleted (k : file_kind) (b : batch_row) : bool :=
  negb (is_null (rf_id (the_file k b))) && negb (rf_deleted (the_file k b)).

(** The file to delete and whether an earlier deletion may have happened. *)
Definition claim_cleanup_file (d : bdb) (now : Z) (batch_id kind owner : str) (lease_until : Z)
  : result berror (option (str * bool) * bdb) :=
  match file_of kind with
  | None => Raise (BatchValueError [])
  | Some k =>
      match find_where (λ b, brow batch_id b && undeleted k b) (rows d) with
      | None => Ok (None, d)
      | Some before =>
          let '(hit, d1) := cas batch_id (λ b, undeleted k b && lease_free now b)
            (λ b, touch now (put_file k ((the_file k b) <| rf_unknown := true |>) (claim_side owner lease_until b))) d in
          if hit then commit (Some (str_or (rf_id (the_file k before)) [], rf_unknown (the_file k before))) d1
          else Ok (None, d1)
      end
  end.

Definition complete_cleanup_file (d : bdb) (now : Z) (batch_id kind owner : str) : result berror (bool * bdb) :=
  match file_of kind with
  | None => Raise (BatchValueError [])
  | Some k => cas_commit batch_id (owned owner)
      (λ b, touch now (put_file k (mk_file (rf_id (the_file k b)) true false) (drop_side b))) d
  end.

Definition fail_cleanup_file (d : bdb) (now : Z) (batch_id owner code message : str) :=
  cas_commit batch_id (owned owner)
    (λ b, (touch now (drop_side b)) <| k_cleanup_error := (Some code, Some (take 1000 message)) |>) d.

(** ** Closing a Batch *)

Section totals.
Context (sql_sum : list f64 → f64).

Definition count_status (l : list xstatus) (xs : list bitem) : Z := countb (λ x, xstatus_in l (x_status x)) xs.
Definition zsum (f : bitem → Z) (xs : list bitem) : Z := foldr Z.add 0 (map f xs).

(** [_item_totals_locked]; total_items and estimated_cost are kept. *)
Definition _item_totals_locked (xs : list bitem) (c : batch_counts) : batch_counts :=
  let imported := count_status [XImported] xs in
  mk_counts (c_total c) imported
    (count_status [XFailed; XSchemaInvalid; XDuplicateCustomId; XUnexpectedCustomId] xs)
    (count_status [XMissing; XRetryPending] xs) (count_status [XStale] xs) imported
    (zsum (λ x, fst (fst (fst (x_tokens x)))) xs) (zsum (λ x, snd (fst (fst (x_tokens x)))) xs)
    (zsum (λ x, snd (fst (x_tokens x))) xs) (zsum (λ x, snd (x_tokens x)) xs)
    (c_estimated c) (sql_sum (map x_actual xs)).

Definition active_items : list xstatus := [XPending; XSubmitted; XUploadUnknown; XSubmissionUnknown].
Definition has_active (d : bdb) (batch_id : str) : bool :=
  existsb (λ x, str_eqb (x_batch x) batch_id && xstatus_in active_items (x_status x)) (xrows d).

(** [failed], [cancelled] and [expired] close the items that are still open. *)
Definition closing_item (status : bstatus) : option xstatus :=
  match status with
  | BCancelled => Some XCancelled | BExpired => Some XExpired | BFailed => Some XFailed | _ => None
  end.

(** SELECT job_item_id FROM analysis_batch_items WHERE [p] AND job_item_id IS NOT NULL *)
Definition job_items_of (d : bdb) (p : bitem → bool) : list str := omap x_job_item (List.filter p (xrows d)).
Definition close_job_items (ids : list str) (from : list item_status) (to : item_status) (code : option str)
    (now : Z) (q : db) : db :=
  q <| items := update_where (λ i, str_in (i_id i) ids && istatus_in from (i_status i))
         (λ i, i <| i_status := to |> <| i_completed_at := Some now |> <| i_lease_until := None |>
                 <| i_error_code := match code with Some c => Some c | None => i_error_code i end |>) (items q) |>.

Definition of_job (job_id : str) (b : batch_row) : bool := sql_eq (k_job b) (Some job_id).
Definition open_batches (d : bdb) (job_id : str) : bool :=
  existsb (λ b, of_job job_id b && negb (bstatus_in TERMINAL_BATCH_STATUSES (k_status b))) (rows d).
Definition items_in (job_id : str) (s : item_status) (q : db) : Z :=
  countb (λ i, str_eqb (i_job i) job_id && bool_decide (i_status i = s)) (items q).

(** The job's counters, and its final status once [finish] is given; a
    cancelled job is left alone. *)
Definition update_job (job_id : str) (finish : option job_status) (now : Z) (q : db) : db :=
  q <| jobs := update_where (λ j, str_eqb (j_id j) job_id && negb (bool_decide (j_status j = JCancelled)))
         (λ j, let j1 := j <| j_completed_items := items_in job_id ICompleted q |>
                           <| j_failed_items := items_in job_id IFailed q |> <| j_heartbeat_at := Some now |> in
               match finish with
               | Some s => j1 <| j_status := s |> <| j_completed_at := Some now |>
               | None => j1
               end) (jobs q) |>.

Definition all_in (s : bstatus) (l : list bstatus) : bool := forallb (λ x, bool_decide (x = s)) l.
Definition job_outcome (siblings : list bstatus) : job_status :=
  match siblings with
  | [] => JCompletedWithErrors
  | _ => if all_in BCancelled siblings then JCancelled
         else if all_in BFailed siblings then JFailed
         else if all_in BCompleted siblings then JCompleted else JCompletedWithErrors
  end.

Definition close_row (status : bstatus) (action : option final_action) (cleanup : option cleanup_state)
    (code message : option str) (now : Z) (xs : list bitem) (b : batch_row) : batch_row :=
  (drop_side b) <| k_status := status |> <| k_counts := _item_totals_locked xs (k_counts b) |>
    <| k_action := default (k_action b) action |> <| k_cleanup := default (k_cleanup b) cleanup |>
    <| k_last_error := match code with
         | Some c => (Some c, Some (take 1000 (default [] message))) | None => k_last_error b end |>
    <| k_times := (k_times b) <| m_completed := Some now |> <| m_updated := now |>
         <| m_cleanup_completed := if is_null cleanup then m_cleanup_completed (k_times b) else Some now |> |>.

(** [_finalize_batch_locked], without the enclosing transaction. *)
Definition _finalize_batch_locked (d : bdb) (now : Z) (batch_id : str) (status : bstatus)
    (action : option final_action) (cleanup : option cleanup_state) (code message : option str)
  : result berror (bstatus * bdb) :=
  raise_if (negb (bstatus_in TERMINAL_BATCH_STATUSES status)) (BatchValueError []) ;;;
  match get_batch d batch_id with
  | None => Raise BatchKeyError
  | Some b =>
      if bstatus_in TERMINAL_BATCH_STATUSES (k_status b) then Ok (k_status b, d)
      else
        let keep (p : error_pair) : error_pair :=
          (match code with Some c => Some c | None => fst p end,
           match message with Some ((_ :: _) as m) => Some (take 1000 m) | _ => snd p end) in
        let d1 := match closing_item status with
                  | Some to => move_items batch_id active_items to keep now d
                  | None => d
                  end in
        raise_if (has_active d1 batch_id) (BatchValueError []) ;;;
        let '(_, d2) := cas batch_id (λ _, true)
                          (close_row status action cleanup code message now (batch_items_of d1 batch_id)) d1 in
        match k_job b with
        | Some ((_ :: _) as job_id) =>
            let q1 := match closing_item status with
                      | Some _ =>
                          close_job_items
                            (job_items_of d2 (λ x, str_eqb (x_batch x) batch_id
                               && xstatus_in [XFailed; XCancelled; XExpired] (x_status x)))
                            item_active (if bool_decide (status = BCancelled) then ICancelled else IFailed)
                            code now (queue d2)
                      | None => queue d2
                      end in
            let finish := if open_batches d2 job_id then None
                          else Some (job_outcome (map k_status (List.filter (of_job job_id) (rows d2)))) in
            Ok (status, d2 <| queue := update_job job_id finish now q1 |>)
        | _ => Ok (status, d2)
        end
  end.

Definition finalize_batch_result (d : bdb) (now : Z) (batch_id : str) (status : bstatus)
    (action : option final_action) (cleanup : option cleanup_state) (code message : option str)
  : result berror (bstatus * bdb) :=
  let* (s, d') := _finalize_batch_locked d now batch_id status action cleanup code message in commit s d'.

Definition batch_files (b : batch_row) : list remote_file := [k_input b; k_output b; k_error b].

Definition finalize_cleanup (d : bdb) (now : Z) (batch_id : str) : result berror (bstatus * bdb) :=
  match get_batch d batch_id with
  | None => Raise BatchKeyError
  | Some b =>
      raise_if (existsb (λ f, opt_truthy (rf_id f) && negb (rf_deleted f)) (batch_files b)) (BatchValueError []) ;;;
      if bstatus_in TERMINAL_BATCH_STATUSES (k_status b) then Ok (k_status b, d)
      else
        let cleanup := if existsb (λ f, opt_truthy (rf_id f)) (batch_files b)
                       then CleanupCompleted else CleanupNotRequired in
        let close status code :=
          finalize_batch_result d now batch_id status (Some (k_action b)) (Some cleanup) (Some (u code))
            (Some (u "cleanup final action completed")) in
        match k_action b with
        | ActCancel => close BCancelled "cancelled"%string
        | ActAbandon => close BFailed "abandoned"%string
        | ActFail => close BFailed "failed"%string
        | ActNone | ActComplete => Ok (k_status b, d)
        end
  end.

Definition abandon_unknown_upload (d : bdb) (now : Z) (batch_id : str) (confirmed_deleted : bool)
  : result berror (bool * bdb) :=
  raise_if (negb confirmed_deleted) (BatchValueError []) ;;;
  match get_batch d batch_id with
  | None => Raise BatchKeyError
  | Some b =>
      raise_if (negb (in_status BUploadUnknown b)) (BatchValueError []) ;;;
      let '(hit, d1) := cas batch_id (in_status BUploadUnknown)
        (λ b, touch now (b <| k_remote_status := Some (u "abandoned") |>
                           <| k_input := (k_input b) <| rf_deleted := true |> |>
                           <| k_times := (k_times b) <| m_abandon_confirmed := Some now |> |>)) d in
      let* (_, d2) := _finalize_batch_locked d1 now batch_id BFailed (Some ActAbandon) (Some CleanupCompleted)
                        (Some (u "abandoned")) (Some (u "管理員確認遠端 File 已刪除")) in
      commit hit d2
  end.

(** [local_job_status] of fail_local_batch: failed or completed_with_errors. *)
Definition fail_local_batch (d : bdb) (now : Z) (batch_id code message : str) (job_status : job_status)
    (include_job_siblings : bool) : result berror (bool * bdb) :=
  raise_if (negb (jstatus_in [JFailed; JCompletedWithErrors] job_status)) (BatchValueError []) ;;;
  match get_batch d batch_id with
  | None => Raise BatchKeyError
  | Some b =>
      let targets := match include_job_siblings, k_job b with
                     | true, Some ((_ :: _) as job_id) => List.filter (of_job job_id) (rows d)
                     | _, _ => [b]
                     end in
      raise_if (existsb (λ t, opt_truthy (k_remote_id t)
                              || existsb (λ f, opt_truthy (rf_id f)) (batch_files t)) targets)
        (BatchValueError []) ;;;
      let ids := map k_id targets in
      let sel t := str_in (k_id t) ids && is_null (k_remote_id t) && is_null (rf_id (k_input t)) in
      let d1 := d <| rows := update_where sel
        (λ t, (drop_side t) <| k_status := BFailed |> <| k_remote_status := Some (u "failed") |>
                <| k_cleanup := CleanupNotRequired |> <| k_action := ActFail |>
                <| k_counts := let c := k_counts t in
                     mk_counts (c_total c) (c_completed c) (c_total c) 0 0 0 (c_input_tokens c)
                       (c_cached_tokens c) (c_output_tokens c) (c_reasoning_tokens c) (c_estimated c) (c_actual c) |>
                <| k_last_error := (Some code, Some (take 1000 message)) |>
                <| k_times := (k_times t) <| m_cleanup_completed := Some now |> <| m_completed := Some now |>
                     <| m_updated := now |> |>) (rows d) |> in
      if negb (countb sel (rows d) =? Z.of_nat (length ids)) then commit false d1
      else
        let d2 := d1 <| xrows := update_where
          (λ x, str_in (x_batch x) ids && negb (xstatus_in [XImported; XFailed; XCancelled] (x_status x)))
          (λ x, x <| x_status := XFailed |> <| x_error := (Some code, Some (take 1000 message)) |>
                  <| x_updated := now |>) (xrows d1) |> in
        match k_job b with
        | Some ((_ :: _) as job_id) =>
            let q1 := close_job_items (job_items_of d2 (λ x, str_in (x_batch x) ids)) item_active IFailed
                        (Some code) now (queue d2) in
            let finish := if open_batches d2 job_id then None else Some job_status in
            commit true (d2 <| queue := update_job job_id finish now q1 |>)
        | _ => commit true d2
        end
  end.
End totals.

(** ** Settling the cost of finished Batches *)

(** The usage row of an item: idx_api_usage_batch_item_once allows one. *)
Definition usage_of (d : bdb) (x : bitem) : option batch_usage :=
  List.find (λ r, sql_eq (bu_item r) (Some (x_id x))) (busage d).
Definition known_cost (d : bdb) (x : bitem) : option f64 :=
  match usage_of d x with
  | Some r => if match bu_source r with Some s => str_in s [u "estimated"; u "provider_reported"] | None => false end
              then bu_cost r else None
  | None => None
  end.

(** [cost_summary]: known_cost, unknown_cost_items, cost_complete. *)
Definition cost_summary (d : bdb) (batch_id : str) : f64 * Z * bool :=
  let xs := batch_items_of d batch_id in
  let unknown := countb (λ x, is_null (known_cost d x)) xs in
  (fold_left (λ acc x, match known_cost d x with Some c => fadd acc c | None => acc end) xs f0,
   unknown, negb (Z.of_nat (length xs) =? 0) && (unknown =? 0)).

Definition unresolved_items : list xstatus :=
  [XPending; XSubmitted; XUploadUnknown; XSubmissionUnknown; XMissing; XRetryPending].

Definition settleable (d : bdb) (batch_id provider_id model : option str) (b : batch_row) : bool :=
  bstatus_in TERMINAL_BATCH_STATUSES (k_status b)
  && (is_null batch_id || sql_eq (Some (k_id b)) batch_id)
  && (is_null provider_id || sql_eq (k_provider b) provider_id)
  && (is_null model || existsb (λ r, sql_eq (bu_batch r) (Some (k_id b)) && sql_eq (Some (bu_model r)) model) (busage d))
  && negb (str_in (coalesce (k_remote_status b)) (map u ["upload_unknown"; "submission_unknown"]%string)).

Definition reserve_of (batch_id : str) (r : reservation) : bool :=
  str_eqb (rv_id r) (u "batch:" ++ batch_id) && rv_active r.

Definition settle_one (d : bdb) (b : batch_row) : Z * bdb :=
  let id := k_id b in
  let '(known, unknown, complete) := cost_summary d id in
  let d1 := d <| xrows := update_where (λ x, str_eqb (x_batch x) id)
                   (λ x, match known_cost d x with Some c => x <| x_actual := c |> | None => x end) (xrows d) |>
              <| rows := update_where (brow id)
                   (λ r, r <| k_counts := (k_counts r) <| c_actual := known |> |>) (rows d) |> in
  if negb complete || negb (Z.of_nat (length (batch_items_of d id)) =? c_total (k_counts b))
     || existsb (λ x, str_eqb (x_batch x) id && xstatus_in unresolved_items (x_status x)) (xrows d1)
     || opt_truthy (fst (k_reconciliation b))
  then (0, d1)
  else (countb (reserve_of id) (holds d1),
        d1 <| holds := update_where (reserve_of id) (λ r, r <| rv_active := false |>) (holds d1) |>).

Fixpoint settle_all (l : list batch_row) (d : bdb) : Z * bdb :=
  match l with
  | [] => (0, d)
  | b :: l' => let '(n, d1) := settle_one d b in let '(m, d2) := settle_all l' d1 in (n + m, d2)
  end.

Definition settle_terminal_costs (d : bdb) (batch_id provider_id model : option str)
  : result berror (Z * bdb) :=
  let '(n, d') := settle_all (List.filter (settleable d batch_id provider_id model) (rows d)) d in commit n d'.
