(* ===== verification/BatchesProps.v ===== *)
(** * What the Batch lifecycle guarantees

    The repository's transactions are an operation type [bop] with its
    execution [exec].  Every transaction refines a small abstract machine
    ([life_step]) over what matters of a row: status, remote status, bound
    remote Batch, uploaded file and side-effect claim.  The
    unguarded [update_batch] is a step that writes any status its callers name;
    where they only write onward, the status only moves forward, so uploads and
    submissions start at most once.  Remote identities never change; an owner who lost his claim can no longer
    complete anything.  Further: closing a Batch closes its items and, with the
    last one, its job; a cost reserve is released only on complete evidence. *)

From stdpp Require Import relations.
From S2P Require Import Prelude PyStr PyFloat Sql Store Reservations Budgets Batches.
Local Open Scope Z_scope.

(** ** Guards *)

(** No lease is running at [t]. *)
Definition free (t : Z) (s : side) : Prop := match s_lease s with None => True | Some l => l ≤ t end.

Lemma in_status_eq s b : in_status s b = true → k_status b = s.
Proof. unfold in_status. by rewrite bool_decide_eq_true. Qed.
Lemma sql_eq_true x y : sql_eq x (Some y) = true → x = Some y.
Proof. destruct x; simpl; [|done]. intros E. bprop. by subst. Qed.
Lemma owned_eq o b : owned o b = true → s_owner (k_side b) = Some o.
Proof. apply sql_eq_true. Qed.
Lemma lease_free_eq t b : lease_free t b = true → free t (k_side b).
Proof. unfold lease_free, free. destruct (s_lease (k_side b)); [|done]. intros E. by bprop. Qed.
Lemma is_null_eq {A} (x : option A) : is_null x = true → x = None.
Proof. by destruct x. Qed.
Lemma is_null_false {A} (x : option A) : is_null x = false → ∃ a, x = Some a.
Proof. destruct x; simpl; [eauto|done]. Qed.
Lemma bstatus_in_elem l s : bstatus_in l s = true → s ∈ l.
Proof. unfold bstatus_in. by rewrite bool_decide_eq_true. Qed.
Lemma bstatus_in_not l s : bstatus_in l s = false → s ∉ l.
Proof. unfold bstatus_in. by rewrite bool_decide_eq_false. Qed.

(** Read the guards of a compare-and-set as facts about the row. *)
Ltac guards :=
  bprop; repeat match goal with
  | H : _ ∧ _ |- _ => destruct H
  | H : in_status _ _ = true |- _ => apply in_status_eq in H
  | H : owned _ _ = true |- _ => apply owned_eq in H
  | H : lease_free _ _ = true |- _ => apply lease_free_eq in H
  | H : is_null _ = true |- _ => apply is_null_eq in H
  | H : is_null _ = false |- _ => apply is_null_false in H as [? ?]
  | H : sql_eq _ (Some _) = true |- _ => apply sql_eq_true in H
  | H : bstatus_in _ _ = true |- _ => apply bstatus_in_elem in H
  | H : bstatus_in _ _ = false |- _ => apply bstatus_in_not in H
  end.

(** ** Operations and runs *)

Section runs.
Context (sql_sum : list f64 → f64).

Inductive bop :=
| CreateWithItems (b : new_batch) (items : list new_item)
| CreateChild (parent child : str) (selected : list str) (local_input : str) (total rss : Z) (bytes : option Z)
| HoldPrepared (job code : str)
| UpdateBatch (id : str) (changes : list batch_set)
| UpdateItem (id : str) (changes : bitem → bitem)
| ClaimPoll (id owner : str) (lease version : Z)
| ReleaseClaim (id owner : str)
| ClaimUpload (id owner attempt : str) (lease : Z)
| CompleteUpload (id attempt owner file : str) (bytes : option Z)
| UploadUnknown (id attempt owner code message : str)
| ClaimSubmission (id owner attempt : str) (lease : Z)
| ClaimCancel (id owner : str) (lease : Z)
| CompleteSubmission (id attempt owner : str) (r : remote)
| SubmissionUnknown (id attempt owner code message : str)
| RecoverUploaded (id file : str) (bytes : option Z)
| SetStatus (id : str) (r : remote) (expected : option Z) (owner : option str)
| BindRemote (id : str) (r : remote) (item_status : xstatus)
| FileDeleted (id kind : str)
| ClaimCleanup (id kind owner : str) (lease : Z)
| CompleteCleanup (id kind owner : str)
| FailCleanup (id owner code message : str)
| Finalize (id : str) (status : bstatus) (action : option final_action) (cleanup : option cleanup_state)
    (code message : option str)
| FinalizeCleanup (id : str)
| AbandonUpload (id : str) (confirmed : bool)
| FailLocal (id code message : str) (js : job_status) (siblings : bool)
| Settle (id provider model : option str).

(** The state a transaction leaves; one that raises is rolled back. *)
Definition state_of {A} (d : bdb) (m : result berror (A * bdb)) : bdb :=
  match m with Ok (_, d') => d' | Raise _ => d end.

Definition exec (t : Z) (o : bop) (d : bdb) : bdb :=
  match o with
  | CreateWithItems b items => state_of d (create_with_items d t b items)
  | CreateChild p c sel i total rss bytes => state_of d (create_child_batch d t p c sel i total rss bytes)
  | HoldPrepared job code => state_of d (hold_prepared_for_credit d t job code)
  | UpdateBatch id cs => state_of d (update_batch d t id (assign_all cs))
  | UpdateItem id f => state_of d (update_item d t id f)
  | ClaimPoll id owner lease v => state_of d (claim_poll d t id owner lease v)
  | ReleaseClaim id owner => state_of d (release_side_effect_claim d t id owner)
  | ClaimUpload id owner a lease => state_of d (claim_upload d t id owner a lease)
  | CompleteUpload id a owner file bytes => state_of d (complete_upload d t id a owner file bytes)
  | UploadUnknown id a owner c m => state_of d (mark_upload_unknown d t id a owner c m)
  | ClaimSubmission id owner a lease => state_of d (claim_submission d t id owner a lease)
  | ClaimCancel id owner lease => state_of d (claim_cancel d t id owner lease)
  | CompleteSubmission id a owner r => state_of d (complete_submission d t id a owner r)
  | SubmissionUnknown id a owner c m => state_of d (mark_submission_unknown d t id a owner c m)
  | RecoverUploaded id file bytes => state_of d (recover_uploaded_file d t id file bytes)
  | SetStatus id r v owner => state_of d (set_status_from_remote d t id r v owner)
  | BindRemote id r s => state_of d (bind_recovered_remote d t id r s)
  | FileDeleted id kind => state_of d (mark_file_deleted d t id kind)
  | ClaimCleanup id kind owner lease => state_of d (claim_cleanup_file d t id kind owner lease)
  | CompleteCleanup id kind owner => state_of d (complete_cleanup_file d t id kind owner)
  | FailCleanup id owner c m => state_of d (fail_cleanup_file d t id owner c m)
  | Finalize id s a c code m => state_of d (finalize_batch_result sql_sum d t id s a c code m)
  | FinalizeCleanup id => state_of d (finalize_cleanup sql_sum d t id)
  | AbandonUpload id c => state_of d (abandon_unknown_upload sql_sum d t id c)
  | FailLocal id code m js sib => state_of d (fail_local_batch d t id code m js sib)
  | Settle id p m => state_of d (settle_terminal_costs d id p m)
  end.

Fixpoint run (l : list (Z * bop)) (d : bdb) : bdb :=
  match l with [] => d | (t, o) :: l' => run l' (exec t o d) end.

(** ** The abstract machine *)

Record life := mk_life {
  l_status : bstatus; l_remote : option str; l_bound : option str; l_file : option str; l_side : side }.
Definition life_of (b : batch_row) : life :=
  mk_life (k_status b) (k_remote_status b) (k_remote_id b) (rf_id (k_input b)) (k_side b).

(** How far a Batch has come. *)
Definition stage (s : bstatus) : Z :=
  match s with
  | BPreparing => 0 | BUploading => 1 | BUploadUnknown => 2 | BUploaded => 3 | BSubmitting => 4
  | BSubmissionUnknown => 5 | BValidating => 6 | BInProgress => 7 | BFinalizing => 8 | BCancelling => 9
  | BImportPending => 10 | BImporting => 11 | BCleanupPending => 12
  | BCompleted | BCompletedWithErrors | BFailed | BExpired | BCancelled => 13
  end.

(** A Batch shown as validating, in_progress or finalizing is so remotely. *)
Definition coherent (s : bstatus) (r : option str) : Prop :=
  s ∈ [BValidating; BInProgress; BFinalizing] → r = Some (bstatus_text s).

Definition taken (o : str) (lease : Z) (s : side) : side := mk_side (Some o) (Some lease) (s_version s + 1).
Definition dropped (s : side) : side := mk_side None None (s_version s + 1).

(** [W] is what the unguarded [update_batch] may write: statuses, and never
    the identities or the claim. *)
Inductive life_step (W : relation (bstatus * option str)) (t : Z) (w : option str) : life → life → Prop :=
| Stayed l : life_step W t w l l
| Written s s' r r' b f k : W (s, r) (s', r') → life_step W t w (mk_life s r b f k) (mk_life s' r' b f k)
| Abandoned r b f k :
    life_step W t w (mk_life BUploadUnknown r b f k) (mk_life BUploadUnknown (Some (u "abandoned")) b f k)
| Claimed s r b f k o e : w = Some o → free t k → life_step W t w (mk_life s r b f k) (mk_life s r b f (taken o e k))
| Released s r b f k o : s_owner k = Some o → life_step W t w (mk_life s r b f k) (mk_life s r b f (dropped k))
| UploadClaimed r b k o e : w = Some o → free t k →
    life_step W t w (mk_life BPreparing r b None k) (mk_life BUploading r b None (taken o e k))
| UploadDone r b f k o x : s_owner k = Some o →
    life_step W t w (mk_life BUploading r b f k) (mk_life BUploaded r b (Some x) (dropped k))
| UploadLost r b f k o : s_owner k = Some o →
    life_step W t w (mk_life BUploading r b f k) (mk_life BUploadUnknown (Some (u "upload_unknown")) b f (dropped k))
| UploadFound r f k x :
    life_step W t w (mk_life BUploadUnknown r None f k) (mk_life BUploaded r None (Some x) (dropped k))
| SubmitClaimed r b x k o e : w = Some o → free t k →
    life_step W t w (mk_life BUploaded r b (Some x) k) (mk_life BSubmitting r b (Some x) (taken o e k))
| SubmitLost r b f k o : s_owner k = Some o →
    life_step W t w (mk_life BSubmitting r b f k)
      (mk_life BSubmissionUnknown (Some (u "submission_unknown")) b f (dropped k))
| CancelClaimed s r b f k o e : s ∈ live_statuses → w = Some o → free t k →
    life_step W t w (mk_life s r b f k) (mk_life BCancelling r b f (taken o e k))
| Bound s s' r r' b f k i : s ∈ [BSubmitting; BSubmissionUnknown; BValidating] → local_status r' = Some s' →
    clashes b i = false → i ≠ [] →
    life_step W t w (mk_life s r b f k) (mk_life s' (Some r') (Some i) f (dropped k))
| Polled s s' r r' b b' f f' k : s ∉ closed_statuses → local_status r' = Some s' →
    (∀ x y, rank_of (str_or r []) = Some x → rank_of r' = Some y → x ≤ y) →
    (s = BCancelling → s' ∉ [BValidating; BInProgress; BFinalizing]) →
    (b' = b ∨ ∃ i, b' = Some i ∧ clashes b i = false) → (opt_truthy f = true → f' = f) →
    life_step W t w (mk_life s r b f k) (mk_life s' (Some r') b' f' (dropped k))
| Closed s s' r b f k : s ∉ TERMINAL_BATCH_STATUSES → s' ∈ TERMINAL_BATCH_STATUSES →
    life_step W t w (mk_life s r b f k) (mk_life s' r b f (dropped k))
| FailedLocally s r k :
    life_step W t w (mk_life s r None None k) (mk_life BFailed (Some (u "failed")) None None (dropped k)).

(** A new row has no claim, no file and no remote Batch. *)
Definition new_life : life := mk_life BPreparing None None None fresh_side.

(** What [update_batch] may write into each row. *)
Definition writes : Type := str → relation (bstatus * option str).

(** No row is lost, and every row is an old one moved by the machine, or a
    new one. *)
Definition refines (W : writes) (t : Z) (w : option str) (d d' : bdb) : Prop :=
  ∀ i, match get_batch d i, get_batch d' i with
       | Some b, Some b' => rtc (life_step (W i) t w) (life_of b) (life_of b')
       | Some _, None => False
       | None, Some b' => rtc (life_step (W i) t w) new_life (life_of b')
       | None, None => True
       end.

(** Who takes a side-effect claim with this operation. *)
Definition claimant (o : bop) : option str :=
  match o with
  | ClaimPoll _ owner _ _ | ClaimUpload _ owner _ _ | ClaimSubmission _ owner _ _ | ClaimCancel _ owner _
  | ClaimCleanup _ _ owner _ => Some owner
  | _ => None
  end.

Definition progress (b : batch_row) : bstatus * option str := (k_status b, k_remote_status b).

(** New Batches are preparing; what [update_batch] writes into a row is in
    [W]; a remote object has one identity. *)
Definition op_ok (W : writes) (o : bop) : Prop :=
  match o with
  | CreateWithItems b _ => nb_status b = BPreparing
  | UpdateBatch id cs => ∀ b, k_id b = id → W id (progress b) (progress (assign_all cs b))
  | SetStatus _ r _ _ => rm_remote_batch_id r = None ∨ rm_remote_batch_id r = or_else (rm_id r) (rm_remote_batch_id r)
  | _ => True
  end.

Section machine.
Context (W : writes).

(** ** Every transaction refines the machine *)

Hint Resolve Stayed rtc_once : core.
Local Abbreviation refines := (refines W).

Lemma refines_refl t w d : refines t w d d.
Proof. intros i. by destruct (get_batch d i). Qed.

Lemma refines_trans t w d1 d2 d3 : refines t w d1 d2 → refines t w d2 d3 → refines t w d1 d3.
Proof.
  intros H1 H2 i. specialize (H1 i). specialize (H2 i).
  destruct (get_batch d1 i), (get_batch d2 i), (get_batch d3 i); try done; by etrans.
Qed.

(** An UPDATE of the table acts row by row. *)
Lemma refines_update t w d d' sel f :
  rows d' = update_where sel f (rows d) → (∀ b, k_id (f b) = k_id b) →
  (∀ i b, get_batch d i = Some b → sel b = true → rtc (life_step (W i) t w) (life_of b) (life_of (f b))) →
  refines t w d d'.
Proof.
  intros Hr Hk Hs i. specialize (Hs i). unfold get_batch in *. rewrite Hr, get_row_update by done.
  destruct (get_row k_id i (rows d)) as [b|]; simpl; [|done].
  destruct (sel b) eqn:Es; [by apply Hs|done].
Qed.

Lemma get_batch_id d i b : get_batch d i = Some b → k_id b = i.
Proof. intros [_ H]%get_row_Some. done. Qed.

Lemma refines_same t w d d' : rows d' = rows d → refines t w d d'.
Proof. intros Hr i. unfold get_batch in *. rewrite Hr. apply (refines_refl t w d i). Qed.

(** The compare-and-set at [id]. *)
Lemma refines_cas t w d d' id guard f :
  rows d' = rows (snd (cas id guard f d)) → (∀ b, k_id (f b) = k_id b) →
  (∀ b, get_batch d id = Some b → guard b = true → rtc (life_step (W id) t w) (life_of b) (life_of (f b))) →
  refines t w d d'.
Proof.
  intros Hr Hk Hs. eapply refines_update; [exact Hr|done|]. intros i b Hb Hsel.
  unfold brow, by_key in Hsel. bprop. destruct Hsel as [Hi Hg].
  pose proof (get_batch_id _ _ _ Hb) as E. assert (i = id) as -> by congruence. by apply Hs.
Qed.

(** One step of the machine from what is known of the row. *)
Ltac life_go :=
  intros b; unfold life_of; intros; guards; simpl;
  repeat match goal with
  | H : k_status ?b = _ |- context [k_status ?b] => rewrite H
  | H : k_remote_id ?b = _ |- context [k_remote_id ?b] => rewrite H
  | H : rf_id (k_input ?b) = _ |- context [rf_id (k_input ?b)] => rewrite H
  end; apply rtc_once.

Lemma state_of_commit {A} d (a : A) d' : state_of d (commit a d') = d' ∨ state_of d (commit a d') = d.
Proof. unfold commit. destruct (constraints d'); [by left|by right]. Qed.

Lemma refines_commit {A} t w d (a : A) d' : refines t w d d' → refines t w d (state_of d (commit a d')).
Proof. intros H. destruct (state_of_commit d a d') as [->| ->]; [done|apply refines_refl]. Qed.

Lemma refines_cas_commit t w d id guard f :
  (∀ b, k_id (f b) = k_id b) →
  (∀ b, get_batch d id = Some b → guard b = true → rtc (life_step (W id) t w) (life_of b) (life_of (f b))) →
  refines t w d (state_of d (cas_commit id guard f d)).
Proof.
  intros Hk Hs. unfold cas_commit. simpl. apply refines_commit. by eapply (refines_cas _ _ _ _ id guard f).
Qed.

Lemma rows_move_items id l s e t d : rows (move_items id l s e t d) = rows d.
Proof. done. Qed.

Lemma refines_marking {A} t w d id guard f (hit : bool) (x : A) l s e :
  (∀ b, k_id (f b) = k_id b) →
  (∀ b, get_batch d id = Some b → guard b = true → rtc (life_step (W id) t w) (life_of b) (life_of (f b))) →
  refines t w d (state_of d (commit x (if hit then move_items id l s e t (snd (cas id guard f d))
                                     else snd (cas id guard f d)))).
Proof.
  intros Hk Hs. apply refines_commit. eapply (refines_cas _ _ _ _ id guard f); [by destruct hit|done|done].
Qed.

Lemma refines_claims t d :
  (∀ id o lease v, refines t (claimant (ClaimPoll id o lease v)) d (exec t (ClaimPoll id o lease v) d)) ∧
  (∀ id o, refines t (claimant (ReleaseClaim id o)) d (exec t (ReleaseClaim id o) d)) ∧
  (∀ id o a lease, refines t (claimant (ClaimUpload id o a lease)) d (exec t (ClaimUpload id o a lease) d)) ∧
  (∀ id a o f n, refines t (claimant (CompleteUpload id a o f n)) d (exec t (CompleteUpload id a o f n) d)) ∧
  (∀ id a o c m, refines t (claimant (UploadUnknown id a o c m)) d (exec t (UploadUnknown id a o c m) d)) ∧
  (∀ id o a lease, refines t (claimant (ClaimSubmission id o a lease)) d (exec t (ClaimSubmission id o a lease) d)) ∧
  (∀ id o lease, refines t (claimant (ClaimCancel id o lease)) d (exec t (ClaimCancel id o lease) d)) ∧
  (∀ id a o c m, refines t (claimant (SubmissionUnknown id a o c m)) d (exec t (SubmissionUnknown id a o c m) d)) ∧
  (∀ id f n, refines t (claimant (RecoverUploaded id f n)) d (exec t (RecoverUploaded id f n) d)).
Proof.
  repeat split; intros; simpl.
  - apply refines_cas_commit; [done|]. life_go. by apply Claimed.
  - apply refines_cas_commit; [done|]. life_go. by eapply Released.
  - apply refines_cas_commit; [done|]. life_go. by apply UploadClaimed.
  - apply refines_cas_commit; [done|]. life_go. by eapply UploadDone.
  - apply refines_marking; [done|]. life_go. by eapply UploadLost.
  - apply refines_cas_commit; [done|]. life_go. by apply SubmitClaimed.
  - apply refines_cas_commit; [done|]. life_go. by apply CancelClaimed.
  - apply refines_marking; [done|]. life_go. by eapply SubmitLost.
  - apply refines_marking; [done|]. life_go. apply UploadFound.
Qed.

Lemma life_put_file k f b : rf_id f = rf_id (the_file k b) → life_of (put_file k f b) = life_of b.
Proof. destruct k; simpl; intros E; unfold life_of; simpl; by rewrite ?E. Qed.
Lemma id_put_file k f b : k_id (put_file k f b) = k_id b.
Proof. by destruct k. Qed.
Lemma life_touch t b : life_of (touch t b) = life_of b.
Proof. done. Qed.
Lemma the_file_side k o l b : the_file k (claim_side o l b) = the_file k b ∧ the_file k (drop_side b) = the_file k b.
Proof. by destruct k. Qed.

Lemma refines_files t d :
  (∀ id kind, refines t (claimant (FileDeleted id kind)) d (exec t (FileDeleted id kind) d)) ∧
  (∀ id kind o lease, refines t (claimant (ClaimCleanup id kind o lease)) d (exec t (ClaimCleanup id kind o lease) d)) ∧
  (∀ id kind o, refines t (claimant (CompleteCleanup id kind o)) d (exec t (CompleteCleanup id kind o) d)) ∧
  (∀ id o c m, refines t (claimant (FailCleanup id o c m)) d (exec t (FailCleanup id o c m) d)).
Proof.
  repeat split; intros; simpl.
  - unfold mark_file_deleted. destruct (file_of kind) as [k|]; [|apply refines_refl]. simpl.
    destruct (existsb _ _); simpl; [|apply refines_refl]. apply refines_commit.
    eapply (refines_cas _ _ _ _ id (λ _, true)); [done|intros; by destruct k|].
    intros b _ _. cbv beta. by rewrite life_touch, life_put_file.
  - unfold claim_cleanup_file. destruct (file_of kind) as [k|]; [|apply refines_refl].
    destruct (find_where _ _) as [before|]; [|apply refines_refl]. simpl.
    assert (refines t (Some o) d (snd (cas id (λ b, undeleted k b && lease_free t b)
      (λ b, touch t (put_file k ((the_file k b) <| rf_unknown := true |>) (claim_side o lease b))) d))) as H.
    { eapply (refines_cas _ _ _ _ id (λ b, undeleted k b && lease_free t b)); [done|intros; by destruct k|].
      intros b _ Hg. cbv beta. rewrite life_touch, life_put_file by (by rewrite (proj1 (the_file_side k o lease b))).
      revert b Hg. life_go. by apply Claimed. }
    destruct (existsb _ _); [by apply refines_commit|done].
  - unfold complete_cleanup_file. destruct (file_of kind) as [k|]; [|apply refines_refl].
    apply refines_cas_commit; [intros; by destruct k|]. intros b _ Hg. cbv beta.
    rewrite life_touch, life_put_file by (by rewrite (proj2 (the_file_side k o 0 b))).
    revert b Hg. life_go. by eapply Released.
  - apply refines_cas_commit; [done|]. life_go. by eapply Released.
Qed.

(** ** Remote answers *)

Lemma rf_id_with_id v f : rf_id (with_id v f) = match v with Some x => Some x | None => rf_id f end.
Proof. by destruct v. Qed.

(** Pass the first guard of a transaction; one that raises changes nothing. *)
Ltac guard_step :=
  lazymatch goal with
  | |- refines _ _ _ (state_of _ (rbind (raise_if ?x _) _)) =>
      destruct x eqn:?; cbn [raise_if rbind]; [apply refines_refl|]
  end.

Lemma refines_complete_submission t w d id a o r : refines t w d (exec t (CompleteSubmission id a o r) d).
Proof.
  cbn [exec]. unfold complete_submission. do 2 guard_step.
  set (rid := str_or (or_else _ _) _) in *. set (st := str_or (rm_status r) _) in *.
  destruct (get_batch d id) as [b|] eqn:Hb; [|apply refines_refl].
  destruct (local_status st) as [s'|] eqn:Hl; [|apply refines_refl].
  destruct (_ || _); [apply refines_refl|]. do 4 guard_step.
  match goal with |- context [cas id ?g ?f d] => pose (guard := g); pose (upd := f) end.
  assert (refines t w d (snd (cas id guard upd d))) as H.
  { apply (refines_cas _ _ _ _ id guard upd); [done|done|]. intros c Hc'. rewrite Hb in Hc'. injection Hc' as <-.
    unfold life_of, guard. intros. guards. simpl. apply rtc_once. eapply Bound; [|done..].
    match goal with H : k_status b = _ |- _ => rewrite H end. set_solver. }
  unfold cas at 1. destruct (existsb _ _); cbn [negb]; [|exact H]. apply refines_commit. exact H.
Qed.

Lemma local_status_Some r s :
  local_status r = Some s →
  (s = BImportPending ∧ r ∈ terminal_remote) ∨ (s ∈ live_statuses ∧ r = bstatus_text s).
Proof.
  unfold local_status. destruct (str_in r terminal_remote) eqn:E.
  - intros [= <-]. left. bprop. done.
  - intros [Hin Ht]%List.find_some. right. bprop. by rewrite list_elem_of_In.
Qed.

Lemma refines_set_status t w d id r v o :
  op_ok W (SetStatus id r v o) → refines t w d (exec t (SetStatus id r v o) d).
Proof.
  intros Hh. cbn [exec op_ok] in *. unfold set_status_from_remote. guard_step.
  set (st := strip _) in *.
  destruct (get_batch d id) as [b|] eqn:Hb; [|apply refines_refl].
  destruct (local_status st) as [s'|] eqn:Hl; [|apply refines_refl].
  destruct (stale_answer _ _ _ _) eqn:Hs; [apply refines_refl|].
  guard_step. rename Heqb0 into Hid. do 2 guard_step. apply refines_commit.
  eapply (refines_cas _ _ _ _ id (λ c, s_version (k_side c) =? s_version (k_side b))); [done|done|].
  intros c Hc' _. rewrite Hb in Hc'. injection Hc' as <-.
  unfold stale_answer in Hs. apply Bool.orb_false_iff in Hs as [Hs Hcan].
  do 2 apply Bool.orb_false_iff in Hs as [Hs _]. apply Bool.orb_false_iff in Hs as [Hs Hrank].
  apply Bool.orb_false_iff in Hs as [_ Hopen]. guards.
  unfold life_of, apply_poll. simpl. apply rtc_once. apply Polled; [done|done|..].
  - intros x y Hx Hy. rewrite Hx, Hy in Hrank. by bprop.
  - intros Es. destruct Hcan as [Hcan|Hcan]; [unfold in_status in Hcan; by rewrite bool_decide_eq_false in Hcan|].
    intros Hin. apply Hcan. apply local_status_Some in Hl as [[-> _]|[_ ->]]; [set_solver|].
    clear -Hin. set_solver.
  - destruct (rm_remote_batch_id r) as [x|] eqn:Ex; [|by left]. right. exists x. split; [done|].
    destruct Hh as [Hh|Hh]; [done|]. by rewrite <- Hh in Hid.
  - by intros ->.
Qed.

Lemma refines_bind t w d id r s : refines t w d (exec t (BindRemote id r s) d).
Proof.
  cbn [exec]. unfold bind_recovered_remote. guard_step.
  set (rid := str_or (or_else _ _) _) in *. set (st := str_or (rm_status r) _) in *.
  destruct (local_status st) as [s'|] eqn:Hl; [|apply refines_refl].
  destruct (get_batch d id) as [b|] eqn:Hb; [|apply refines_refl].
  do 4 guard_step. apply refines_commit.
  eapply (refines_cas _ _ _ _ id (λ _, true)); [done|done|].
  intros c Hc' _. rewrite Hb in Hc'. injection Hc' as <-.
  guards. unfold life_of. simpl. apply rtc_once. eapply Bound; [|done..]. set_solver.
Qed.

(** ** Closing and creating *)

Lemma life_close_row s a c code m t xs b :
  life_of (close_row sql_sum s a c code m t xs b) =
  mk_life s (k_remote_status b) (k_remote_id b) (rf_id (k_input b)) (dropped (k_side b)).
Proof. by destruct b. Qed.

Lemma refines_finalize_locked t w d id s a c code m :
  refines t w d (state_of d (_finalize_batch_locked sql_sum d t id s a c code m)).
Proof.
  unfold _finalize_batch_locked. guard_step.
  destruct (get_batch d id) as [b|] eqn:Hb; [|apply refines_refl].
  destruct (bstatus_in TERMINAL_BATCH_STATUSES (k_status b)) eqn:Ht; [apply refines_refl|].
  match goal with |- context [has_active ?x id] => remember x as d1 eqn:Hd1 end.
  assert (rows d1 = rows d) as Hr by (rewrite Hd1; by destruct (closing_item s)). clear Hd1. guard_step.
  set (upd := close_row _ _ _ _ _ _ _ _).
  assert (∀ d', rows d' = rows (snd (cas id (λ _, true) upd d1)) → refines t w d d') as H.
  { intros d' Hd'. apply (refines_cas _ _ _ _ id (λ _, true) upd); [by rewrite Hd'; unfold cas; simpl; rewrite Hr|done|].
    intros c' Hc' _. rewrite Hb in Hc'. injection Hc' as <-. guards. apply rtc_once. unfold upd.
    rewrite life_close_row. by apply Closed. }
  clearbody upd. unfold cas in *. destruct (k_job b) as [[|x j]|]; by apply H.
Qed.

Lemma refines_finalize t w d id s a c code m :
  refines t w d (state_of d (finalize_batch_result sql_sum d t id s a c code m)).
Proof.
  unfold finalize_batch_result. pose proof (refines_finalize_locked t w d id s a c code m) as H.
  destruct (_finalize_batch_locked _ _ _ _ _ _ _ _ _) as [[s' d']|e]; [|done]. by apply refines_commit.
Qed.

Lemma refines_finalize_cleanup t w d id : refines t w d (exec t (FinalizeCleanup id) d).
Proof.
  cbn [exec]. unfold finalize_cleanup. destruct (get_batch d id) as [b|]; [|apply refines_refl]. guard_step.
  destruct (bstatus_in _ _); [apply refines_refl|].
  destruct (k_action b); [apply refines_refl..|apply refines_finalize|apply refines_finalize|apply refines_finalize].
Qed.

Lemma refines_abandon t w d id c : refines t w d (exec t (AbandonUpload id c) d).
Proof.
  cbn [exec]. unfold abandon_unknown_upload. guard_step.
  destruct (get_batch d id) as [b|]; [|apply refines_refl]. guard_step.
  match goal with |- context [cas id ?g ?f d] => set (upd := f) end.
  assert (refines t w d (snd (cas id (in_status BUploadUnknown) upd d))) as H1.
  { eapply (refines_cas _ _ _ _ id (in_status BUploadUnknown)); [done|done|]. intros x _ Hx.
    apply in_status_eq in Hx. apply rtc_once. unfold life_of. simpl. rewrite Hx. apply Abandoned. }
  unfold cas in *. simpl in H1. set (d1 := d <| rows := _ |>) in *.
  match goal with |- context [_finalize_batch_locked sql_sum d1 t id ?s ?a ?c ?k ?m] =>
    pose proof (refines_finalize_locked t w d1 id s a c k m) as H2;
    destruct (_finalize_batch_locked sql_sum d1 t id s a c k m) as [[s' d2]|e] end; [|apply refines_refl].
  apply refines_commit. by eapply refines_trans.
Qed.

Lemma refines_fail_local t w d id code m js sib : refines t w d (exec t (FailLocal id code m js sib) d).
Proof.
  cbn [exec]. unfold fail_local_batch. guard_step.
  destruct (get_batch d id) as [b|]; [|apply refines_refl]. guard_step.
  set (ids := map k_id _). set (sel := λ t, _). match goal with |- context [update_where sel ?f _] => set (upd := f) end.
  set (d1 := d <| rows := _ |>).
  assert (∀ d', rows d' = rows d1 → refines t w d d') as H.
  { intros d' Hd'. eapply (refines_update _ _ _ _ sel upd); [exact Hd'|done|]. intros i x _ Hx. unfold sel in Hx. guards.
    assert (life_of (upd x) = mk_life BFailed (Some (u "failed")) (k_remote_id x) (rf_id (k_input x))
                                (dropped (k_side x))) as -> by (by destruct x).
    unfold life_of. repeat match goal with H : _ x = None |- _ => rewrite H | H : rf_id _ = None |- _ => rewrite H end.
    apply rtc_once, FailedLocally. }
  destruct (negb (countb sel _ =? _)); [by apply refines_commit, H|].
  destruct (k_job b) as [[|x j]|]; by apply refines_commit, H.
Qed.

Lemma refines_settle_all t w l d : refines t w d (snd (settle_all l d)).
Proof.
  revert d. induction l as [|b l IH]; intros d; [apply refines_refl|]. cbn [settle_all].
  assert (refines t w d (snd (settle_one d b))) as H1.
  { unfold settle_one. destruct (cost_summary d (k_id b)) as [[known unknown] complete].
    eapply (refines_update _ _ _ _ (brow (k_id b)) (λ r, r <| k_counts := (k_counts r) <| c_actual := known |> |>));
      [by destruct (_ || _)|done|done]. }
  destruct (settle_one d b) as [n d1]. specialize (IH d1). destruct (settle_all l d1) as [m d2].
  by eapply refines_trans.
Qed.

Lemma refines_insert t w d d' b : rows d' = rows d ++ [b] → life_of b = new_life → refines t w d d'.
Proof.
  intros Hr Hb i. unfold get_batch. rewrite Hr, get_row_app_fresh.
  destruct (get_row k_id i (rows d)); [done|]. destruct (str_eqb (k_id b) i); [by rewrite Hb|done].
Qed.

Lemma refines_child t w d p c sel i total rss bytes : refines t w d (exec t (CreateChild p c sel i total rss bytes) d).
Proof.
  cbn [exec]. unfold create_child_batch. guard_step.
  destruct (get_batch d p) as [b|]; [|apply refines_refl]. guard_step. apply refines_commit.
  set (child := insert_batch _ _ _ _ _ _ _ _ _ _ _).
  apply (refines_trans _ _ _ (d <| rows := rows d ++ [child] |>)); [by apply (refines_insert _ _ _ _ child)|].
  eapply refines_update; [done|done|]. intros. done.
Qed.

Lemma assign_all_keeps cs b :
  k_id (assign_all cs b) = k_id b ∧ k_remote_id (assign_all cs b) = k_remote_id b ∧
  k_input (assign_all cs b) = k_input b ∧ k_side (assign_all cs b) = k_side b.
Proof.
  revert b. induction cs as [|c cs IH]; intros b; [done|]. destruct (IH (assign c b)) as (E1 & E2 & E3 & E4).
  change (assign_all (c :: cs) b) with (assign_all cs (assign c b)). rewrite E1, E2, E3, E4. by destruct c.
Qed.

Lemma refines_update_batch t w d id cs : op_ok W (UpdateBatch id cs) → refines t w d (exec t (UpdateBatch id cs) d).
Proof.
  intros Hf. cbn [exec op_ok] in *. unfold update_batch. guard_step. apply refines_commit.
  eapply refines_update; [done|intros b; apply (assign_all_keeps cs b)|]. intros i b Hb Hk. apply rtc_once.
  unfold brow, by_key in Hk. apply str_eqb_eq in Hk. apply get_batch_id in Hb. subst id i.
  destruct (assign_all_keeps cs b) as (_ & Hr & Hi & Hs). rewrite life_touch. unfold life_of. rewrite Hr, Hi, Hs.
  by apply Written, (Hf b).
Qed.

Lemma exec_refines t o d : op_ok W o → refines t (claimant o) d (exec t o d).
Proof.
  intros Ho. destruct (refines_claims t d) as (?&?&?&?&?&?&?&?&?). destruct (refines_files t d) as (?&?&?&?).
  destruct o; auto using refines_complete_submission, refines_set_status, refines_bind, refines_finalize,
    refines_finalize_cleanup, refines_abandon, refines_fail_local, refines_child, refines_update_batch.
  - cbn [exec op_ok] in *. unfold create_with_items. apply refines_commit. eapply refines_insert; [done|].
    unfold life_of. simpl. by rewrite Ho.
  - cbn [exec]. unfold hold_prepared_for_credit. apply refines_commit. by eapply refines_update.
  - cbn [exec]. unfold update_item. guard_step. apply refines_commit. by apply refines_same.
  - apply refines_finalize.
  - cbn [exec]. unfold settle_terminal_costs.
    pose proof (refines_settle_all t None (List.filter (settleable d id provider model) (rows d)) d) as H'.
    destruct (settle_all _ d) as [n d']. by apply refines_commit.
Qed.

End machine.

(** ** What the machine preserves *)

(** A write that never takes a status back. *)
Definition onward (x y : bstatus * option str) : Prop :=
  stage (fst x) ≤ stage (fst y) ∧ (coherent (fst x) (snd x) → coherent (fst y) (snd y)).

Definition life_inv (l : life) : Prop :=
  coherent (l_status l) (l_remote l) ∧ (stage (l_status l) ≤ 2 → l_file l = None).

(** Statuses whose coherence says nothing. *)
Lemma coherent_other s r : stage s ∉ [6; 7; 8] → coherent s r.
Proof. intros Hs Hin. exfalso. apply Hs. clear Hs. destruct s; simpl; set_solver. Qed.

Lemma live_stage s : s ∈ live_statuses → 6 ≤ stage s ≤ 9.
Proof. unfold live_statuses. rewrite !elem_of_cons, elem_of_nil. intros [-> |[-> |[-> |[-> |[]]]]]; simpl; lia. Qed.
Lemma terminal_stage s : s ∈ TERMINAL_BATCH_STATUSES → stage s = 13.
Proof. unfold TERMINAL_BATCH_STATUSES. rewrite !elem_of_cons, elem_of_nil. naive_solver. Qed.

Lemma local_status_coherent r s : local_status r = Some s → coherent s (Some r) ∧ 6 ≤ stage s ≤ 10.
Proof.
  intros [[-> _]|[H ->]]%local_status_Some.
  - split; [apply coherent_other; simpl; set_solver|simpl; lia].
  - split; [by intros _|]. apply live_stage in H. lia.
Qed.

Lemma stage_le s : stage s ≤ 13.
Proof. destruct s; simpl; lia. Qed.

Section preserved.
Context (W : relation (bstatus * option str)).
Local Abbreviation life_step := (life_step W).

Lemma step_inv t w l l' : (∀ x y, W x y → onward x y) → life_inv l → life_step t w l l' → life_inv l'.
Proof.
  intros Hon [Hc Hf] H. unfold life_inv. destruct H; simpl in *;
    try match goal with H : W _ _ |- _ => apply Hon in H as [? ?]; simpl in * end;
    try match goal with H : local_status _ = Some _ |- _ => apply local_status_coherent in H as [? ?] end;
    (split; [try done; try (apply coherent_other; simpl; set_solver)|]); try (intros; lia); auto.
  all: try (intros; apply Hf; lia).
  rewrite (terminal_stage s') by done. lia.
Qed.

Lemma rank_text s : rank_of (bstatus_text s) =
  match s with BValidating => Some 10 | BInProgress => Some 20 | BFinalizing => Some 30 | BCancelling => Some 35
  | BCompleted | BFailed | BExpired | BCancelled => Some 40 | _ => None end.
Proof. by destruct s. Qed.

Lemma open_stage s : s ∉ closed_statuses →
  stage s ≤ 6 ∨ s = BInProgress ∨ s = BFinalizing ∨ s = BCancelling.
Proof.
  destruct s; auto; try (intros _; left; simpl; lia);
    intros H; exfalso; apply H; by apply (bool_decide_unpack _).
Qed.

Lemma local_cases r s : local_status r = Some s → s = BImportPending ∨
  r = bstatus_text s ∧ (s = BValidating ∨ s = BInProgress ∨ s = BFinalizing ∨ s = BCancelling).
Proof.
  intros [[-> _]|[H ->]]%local_status_Some; [by left|right]. split; [done|].
  unfold live_statuses in H. rewrite !elem_of_cons, elem_of_nil in H. naive_solver.
Qed.

(** A Batch never moves backwards. *)
Lemma step_stage t w l l' : (∀ x y, W x y → onward x y) → life_inv l → life_step t w l l' → stage (l_status l) ≤ stage (l_status l').
Proof.
  intros Hon [Hc Hf] H.
  destruct H as [|??????? Hw| | | | | | | | | |??????? Hl|???????? Hs Hl|????????? Hs Hl Hr Hcan|?????? Hs Ht|];
    simpl in *; try lia; try done; try (apply Hon in Hw as [Hw _]; exact Hw).
  - by apply live_stage.
  - apply local_status_coherent in Hl as [_ ?]. rewrite !elem_of_cons, elem_of_nil in Hs.
    destruct Hs as [-> |[-> |[-> |[]]]]; simpl; lia.
  - pose proof (local_status_coherent _ _ Hl) as [_ ?].
    apply open_stage in Hs as [?|[-> |[-> | ->]]]; [lia|..];
      apply local_cases in Hl as [-> |[-> [-> |[-> |[-> | ->]]]]]; simpl; try lia.
    1-3: rewrite (Hc ltac:(by apply (bool_decide_unpack _))) in Hr; specialize (Hr _ _ eq_refl eq_refl);
      vm_compute in Hr; done.
    all: exfalso; by apply (Hcan eq_refl), (bool_decide_unpack _).
  - rewrite (terminal_stage s') by done. apply stage_le.
  - apply stage_le.
Qed.

(** Every claim and every drop of a claim raises the version. *)
Lemma step_version t w l l' : life_step t w l l' →
  l_side l' = l_side l ∨ s_version (l_side l) < s_version (l_side l').
Proof. destruct 1; simpl; first [by left|right; lia]. Qed.

Lemma clash_same b i : clashes b i = false → opt_truthy b = true → Some i = b.
Proof.
  destruct b as [[|x s]|]; unfold clashes; intros H ?; try done. apply Bool.negb_false_iff, str_eqb_eq in H.
  by rewrite H.
Qed.

(** Identities, once known, are kept. *)
Lemma step_bound t w l l' : life_step t w l l' → opt_truthy (l_bound l) = true → l_bound l' = l_bound l.
Proof.
  destruct 1 as [| | | | | | | | | | | |????????? ? Hc|????????????? Hb|  |]; simpl; try done.
  - by apply clash_same.
  - destruct Hb as [-> |(i & -> & Hc)]; [done|by apply clash_same].
Qed.

Lemma step_file t w l l' : (∀ x y, W x y → onward x y) → life_inv l → life_step t w l l' → opt_truthy (l_file l) = true → l_file l' = l_file l.
Proof.
  intros _ [_ Hf] H. destruct H; simpl in *; try done; auto; rewrite (Hf ltac:(lia)); done.
Qed.

(** Moves of the machine in which only claimants in [P] take claims. *)
Definition moved (P : option str → Prop) : relation life := rtc (λ l l', ∃ t w, P w ∧ life_step t w l l').

Lemma moved_of (P : option str → Prop) t w l l' : P w → rtc (life_step t w) l l' → moved P l l'.
Proof. intros HP H. eapply rtc_subrel; [|exact H]. eauto. Qed.

(** What no write of [W] can undo: the version, the remote Batch and the fence
    around a lost claim. *)
Lemma moved_version P l l' : moved P l l' →
  l_side l' = l_side l ∨ s_version (l_side l) < s_version (l_side l').
Proof.
  induction 1 as [|l1 l2 l3 (t & w & _ & H) _ [IH|IH]]; [by left|..]; apply step_version in H as [E|E];
    rewrite ?IH, ?E in *; auto; right; lia.
Qed.

Lemma moved_bound P l l' : moved P l l' → opt_truthy (l_bound l) = true → l_bound l' = l_bound l.
Proof.
  induction 1 as [|l1 l2 l3 (t & w & _ & H) _ IH]; [done|]. intros E.
  pose proof (step_bound _ _ _ _ H E) as Hb. rewrite IH; [done|congruence].
Qed.

(** Without a new claim of his own, an owner either still holds his first
    claim or holds none. *)
Lemma step_owner t w l l' o : life_step t w l l' → w ≠ Some o →
  l_side l' = l_side l ∨ s_owner (l_side l') ≠ Some o.
Proof. destruct 1; simpl; intros; subst; first [by left|right; done|right; congruence]. Qed.

Lemma moved_owner o l l' : moved (λ w, w ≠ Some o) l l' →
  l_side l' = l_side l ∨ s_owner (l_side l') ≠ Some o.
Proof.
  induction 1 as [|l1 l2 l3 (t & w & Hw & H) _ [IH|IH]]; [by left| |by right].
  apply (step_owner _ _ _ _ o) in H as [E|E]; [| |done].
  - left. by rewrite IH.
  - right. by rewrite IH.
Qed.

(** What writes that only go onward leave. *)
Section onward.
Context (Hon : ∀ x y, W x y → onward x y).

Lemma moved_ind (P : option str → Prop) (Q : life → life → Prop) :
  (∀ l, life_inv l → Q l l) →
  (∀ l l1 l2 t w, life_inv l → P w → life_step t w l l1 → Q l1 l2 → Q l l2) →
  ∀ l l', life_inv l → moved P l l' → Q l l'.
Proof.
  intros H0 H1 l l' Hi H. induction H as [|l l1 l2 (t & w & HP & Hs) _ IH]; [auto|].
  eapply H1; [done|done|done|]. apply IH. by eapply step_inv.
Qed.

Lemma moved_stage P l l' : life_inv l → moved P l l' → stage (l_status l) ≤ stage (l_status l').
Proof.
  apply (moved_ind P (λ l l', stage (l_status l) ≤ stage (l_status l'))); [done|].
  intros l1 l2 l3 t w Hi _ H IH. apply step_stage in H; [lia|done|done].
Qed.

Lemma moved_inv P l l' : life_inv l → moved P l l' → life_inv l'.
Proof. intros Hl. apply (moved_ind P (λ _ l', life_inv l')); auto. Qed.

Lemma moved_file P l l' : life_inv l → moved P l l' → opt_truthy (l_file l) = true → l_file l' = l_file l.
Proof.
  apply (moved_ind P (λ l l', opt_truthy (l_file l) = true → l_file l' = l_file l)); [done|].
  intros l1 l2 l3 t w Hi _ H IH E. pose proof (step_file _ _ _ _ Hon Hi H E) as Hf. rewrite IH; [done|congruence].
Qed.
End onward.
End preserved.

(** ** Runs *)

Definition ops_ok (W : writes) (P : option str → Prop) (l : list (Z * bop)) : Prop :=
  Forall (λ x, op_ok W (snd x) ∧ P (claimant (snd x))) l.
Definition anyone : option str → Prop := λ _, True.
Definition wf (d : bdb) : Prop := ∀ i b, get_batch d i = Some b → life_inv (life_of b).

Lemma new_life_inv : life_inv new_life.
Proof. split; [|done]. apply coherent_other. simpl. set_solver. Qed.

(** What became of row [i]. *)
Definition row_moved (W : writes) (P : option str → Prop) (d d' : bdb) (i : str) : Prop :=
  match get_batch d i, get_batch d' i with
  | Some b, Some b' => moved (W i) P (life_of b) (life_of b')
  | Some _, None => False
  | None, Some b' => moved (W i) P new_life (life_of b')
  | None, None => True
  end.

Lemma exec_row W (P : option str → Prop) t o d i : op_ok W o → P (claimant o) → row_moved W P d (exec t o d) i.
Proof.
  intros Ho HP. pose proof (exec_refines W t o d Ho i) as H. unfold row_moved.
  destruct (get_batch d i), (get_batch _ i); eauto using moved_of.
Qed.

Lemma run_row W P l d i : ops_ok W P l → row_moved W P d (run l d) i.
Proof.
  intros Hl. revert d. induction Hl as [|[t o] l [Ho HP] _ IH]; intros d; simpl.
  { unfold row_moved. by destruct (get_batch d i). }
  specialize (IH (exec t o d)). pose proof (exec_row W P t o d i Ho HP) as H. unfold row_moved in *.
  destruct (get_batch d i), (get_batch (exec t o d) i), (get_batch (run l _) i); try done; by etrans.
Qed.

(** Every write goes onward: no Batch is set aside for credit, which takes a
    Batch back to preparing. *)
Definition onwards : writes := λ _, onward.

Lemma batch_exec_wf t o d : op_ok onwards o → wf d → wf (exec t o d).
Proof.
  intros Ho Hw i b' E. pose proof (exec_row onwards anyone t o d i Ho I) as H. unfold row_moved in H. rewrite E in H.
  destruct (get_batch d i) as [b|] eqn:Eb; (eapply moved_inv; [|..|exact H]); try done;
    [by apply (Hw i)|apply new_life_inv].
Qed.

Lemma run_wf P l d : ops_ok onwards P l → wf d → wf (run l d).
Proof.
  intros Hl. revert d. induction Hl as [|[t o] l [Ho _] _ IH]; intros d Hw; [done|]. simpl.
  by apply IH, batch_exec_wf.
Qed.

(** ** The constraints hold in every run *)

Lemma constraints_commit {A} d (a : A) d' : constraints d = true → constraints (state_of d (commit a d')) = true.
Proof. intros H. unfold commit. by destruct (constraints d') eqn:E. Qed.

Lemma cas_miss i guard f d : fst (cas i guard f d) = false → snd (cas i guard f d) = d.
Proof. intros H. unfold cas in *. simpl in *. rewrite update_where_none by done. by destruct d. Qed.

(** Walk through a transaction to its commit. *)
Ltac to_commit :=
  repeat first
    [ apply constraints_commit; done
    | assumption
    | lazymatch goal with
      | |- context [state_of _ (rbind (raise_if ?x _) _)] => destruct x; cbn [raise_if rbind]
      | |- context [state_of _ (Ok _)] => cbn [state_of]
      | |- context [state_of _ (Raise _)] => cbn [state_of]
      | |- context [state_of _ (match ?x with _ => _ end)] => destruct x eqn:?
      end ].

Lemma finalize_result_constraints t d i s a c code m :
  constraints d = true → constraints (state_of d (finalize_batch_result sql_sum d t i s a c code m)) = true.
Proof.
  intros Hd. unfold finalize_batch_result.
  destruct (_finalize_batch_locked _ _ _ _ _ _ _ _ _) as [[s' d']|e]; [|done]. by apply constraints_commit.
Qed.

Lemma exec_constraints t o d : constraints d = true → constraints (exec t o d) = true.
Proof.
  intros Hd. destruct o; cbn [exec];
    try (apply constraints_commit; exact Hd).
  - unfold create_child_batch. to_commit.
  - unfold update_batch. to_commit.
  - unfold update_item. to_commit.
  - unfold complete_submission. to_commit.
    match goal with H : cas ?i ?g ?f ?d = _ |- _ => pose proof (cas_miss i g f d) as Hm; rewrite H in Hm end.
    simpl in *. destruct b1; [done|]. by rewrite Hm.
  - unfold set_status_from_remote. to_commit.
  - unfold bind_recovered_remote. to_commit.
  - unfold mark_file_deleted. to_commit.
  - unfold claim_cleanup_file. to_commit.
    match goal with H : cas ?i ?g ?f ?d = _ |- _ => pose proof (cas_miss i g f d) as Hm; rewrite H in Hm end.
    simpl in *. by rewrite Hm.
  - unfold complete_cleanup_file, cas_commit. to_commit.
  - by apply finalize_result_constraints.
  - unfold finalize_cleanup. to_commit; by apply finalize_result_constraints.
  - unfold abandon_unknown_upload. to_commit.
    destruct (_finalize_batch_locked _ _ _ _ _ _ _ _ _) as [[s' d']|e]; [|done]. by apply constraints_commit.
  - unfold fail_local_batch. to_commit.
  - unfold settle_terminal_costs. to_commit.
Qed.

Lemma run_constraints l d : constraints d = true → constraints (run l d) = true.
Proof. revert d. induction l as [|[t o] l IH]; intros d H; [done|]. simpl. by apply IH, exec_constraints. Qed.

Lemma constraints_ids d : constraints d = true → keys_unique k_id (rows d).
Proof. unfold constraints. rewrite !Bool.andb_true_iff, !bool_decide_eq_true. tauto. Qed.

Lemma constraints_remote d : constraints d = true → NoDup (omap k_remote_id (rows d)).
Proof. unfold constraints. rewrite !Bool.andb_true_iff, !bool_decide_eq_true. tauto. Qed.

(** A value kept unique by a partial index is in one row only. *)
Lemma NoDup_omap_inj {A B} (f : A → option B) l x y v :
  NoDup (omap f l) → x ∈ l → y ∈ l → f x = Some v → f y = Some v → x = y.
Proof.
  induction l as [|a l IH]; simpl; [intros _ H; by inversion H|].
  assert (∀ z, z ∈ l → f z = Some v → v ∈ omap f l) as Hin.
  { intros z Hz Ez. apply list_elem_of_omap. eauto. }
  rewrite !elem_of_cons. intros Hd [-> |Hx] [-> |Hy] Ex Ey; auto.
  - rewrite Ex in Hd. apply NoDup_cons in Hd as [Hd _]. by destruct Hd; eapply Hin.
  - rewrite Ey in Hd. apply NoDup_cons in Hd as [Hd _]. by destruct Hd; eapply Hin.
  - destruct (f a); [apply NoDup_cons in Hd as [_ Hd]|]; auto.
Qed.

Lemma commit_fst {A} (a : A) d x : commit a d = Ok x → fst x = a.
Proof. unfold commit. destruct (constraints d); [|done]. by intros [= <-]. Qed.

(** With unique ids a compare-and-set hits only the row it names. *)
Lemma cas_hit i guard f d b : constraints d = true → get_batch d i = Some b →
  fst (cas i guard f d) = guard b.
Proof.
  intros Hc Hb. apply constraints_ids in Hc. apply get_row_Some in Hb as [Hin Hk]. unfold cas. simpl.
  destruct (guard b) eqn:Hg.
  - apply existsb_elem. exists b. split; [done|]. unfold brow, by_key. rewrite Hk, str_eqb_refl. done.
  - apply existsb_none. intros b' Hb'. unfold brow, by_key. destruct (str_eqb (k_id b') i) eqn:E; [|done].
    apply str_eqb_eq in E. simpl. rewrite <- Hg. f_equal. eapply (keys_unique_inj k_id); eauto. congruence.
Qed.

(** The statuses that [update_batch] gives Batch [i] in the run [l]. *)
Definition names_status (c : batch_set) : option bstatus := match c with SetStatusTo s => Some s | _ => None end.
Definition statuses_written (i : str) (l : list (Z * bop)) : list bstatus :=
  l ≫= λ x, match snd x with UpdateBatch id cs => if str_eqb id i then omap names_status cs else [] | _ => [] end.

(** The status stays or becomes one of those; the remote status is free. *)
Definition overwrites (l : list (Z * bop)) : writes :=
  λ i x y, fst y = fst x ∨ fst y ∈ statuses_written i l.

(** What the callers do besides: new Batches are preparing, and the remote
    service gives an object one identity. *)
Definition caller_ok (o : bop) : Prop :=
  match o with
  | CreateWithItems b _ => nb_status b = BPreparing
  | SetStatus _ r _ _ => rm_remote_batch_id r = None ∨ rm_remote_batch_id r = or_else (rm_id r) (rm_remote_batch_id r)
  | _ => True
  end.

Lemma assign_all_status cs b :
  k_status (assign_all cs b) = k_status b ∨ k_status (assign_all cs b) ∈ omap names_status cs.
Proof.
  revert b. induction cs as [|c cs IH]; intros b; [by left|].
  change (assign_all (c :: cs) b) with (assign_all cs (assign c b)).
  destruct (IH (assign c b)) as [->|H]; destruct c; simpl; rewrite ?elem_of_cons; auto.
Qed.

Lemma overwrites_ok l : Forall (λ x, caller_ok (snd x)) l → ops_ok (overwrites l) anyone l.
Proof.
  unfold ops_ok. rewrite !Forall_forall. intros Hl [t o] Hin. split; [|done]. specialize (Hl _ Hin).
  destruct o; try done. simpl. intros b Hb. destruct (assign_all_status changes b) as [H|H]; [by left|right].
  unfold statuses_written. apply list_elem_of_bind. exists (t, UpdateBatch id changes). split; [|done].
  simpl. by rewrite str_eqb_refl.
Qed.

(** C7. The repository implements the abstract lifecycle.  In any run of its
    transactions, in any order and by anyone, no Batch disappears, and each has
    moved by steps of the machine [life_step] from where it stood, or from the
    fresh state it was created in: guarded claims, completions, polls and
    closings, and writes of the unguarded [update_batch], which put the row
    into no other status than one such a call of the run names for it and, of
    the columns its callers name ([batch_set]), never touch its claim, its
    file or its remote Batch.  So whatever is written, the claim's version never decreases and a remote Batch, once
    bound, is never replaced.  The run is any with [caller_ok]: Batches are
    created as preparing, and an answer of the remote service does not name
    two different Batches. *)
Theorem repository_refines_lifecycle l d i : Forall (λ x, caller_ok (snd x)) l →
  match get_batch d i, get_batch (run l d) i with
  | Some b, Some b' => moved (overwrites l i) anyone (life_of b) (life_of b')
      ∧ s_version (k_side b) ≤ s_version (k_side b')
      ∧ (opt_truthy (k_remote_id b) = true → k_remote_id b' = k_remote_id b)
  | Some _, None => False
  | None, Some b' => moved (overwrites l i) anyone new_life (life_of b')
  | None, None => True
  end.
Proof.
  intros Hl. pose proof (run_row (overwrites l) anyone l d i (overwrites_ok l Hl)) as H. unfold row_moved in H.
  destruct (get_batch d i) as [b|], (get_batch (run l d) i) as [b'|]; try done. split; [done|].
  split; [|by apply (moved_bound _ _ _ _ H)].
  pose proof (moved_version _ _ _ _ H) as [E|E]; simpl in E; [rewrite E; lia|lia].
Qed.

(** The transactions that start an upload, or a submission, of Batch [i]. *)
Definition upload_started (i : str) (t : Z) (o : bop) (d : bdb) : Z :=
  match o with
  | ClaimUpload id owner a lease =>
      match claim_upload d t id owner a lease with Ok (true, _) => if str_eqb id i then 1 else 0 | _ => 0 end
  | _ => 0
  end.
Definition submission_started (i : str) (t : Z) (o : bop) (d : bdb) : Z :=
  match o with
  | ClaimSubmission id owner a lease =>
      match claim_submission d t id owner a lease with Ok (true, _) => if str_eqb id i then 1 else 0 | _ => 0 end
  | _ => 0
  end.
Fixpoint tally (f : Z → bop → bdb → Z) (l : list (Z * bop)) (d : bdb) : Z :=
  match l with [] => 0 | (t, o) :: l' => f t o d + tally f l' (exec t o d) end.

(** 1 while Batch [i] has not reached stage [k]. *)
Definition before (k : Z) (i : str) (d : bdb) : Z :=
  match get_batch d i with Some b => if stage (k_status b) <? k then 1 else 0 | None => 1 end.

Lemma before_mono t o d i k : op_ok onwards o → wf d → before k i (exec t o d) ≤ before k i d.
Proof.
  intros Ho Hw. pose proof (exec_row onwards anyone t o d i Ho I) as H. unfold row_moved, before in *.
  destruct (get_batch d i) as [b|] eqn:Eb, (get_batch (exec t o d) i) as [b'|]; try done; [|case_goal; lia].
  apply moved_stage in H; [|done|by apply (Hw i)]. simpl in H.
  destruct (stage (k_status b') <? k) eqn:E1, (stage (k_status b) <? k) eqn:E2; bprop; lia.
Qed.

(** A successful claim takes row [i] from [s0] to [s1]. *)
Lemma claim_moves i guard f d d' s0 s1 :
  constraints d = true → cas_commit i guard f d = Ok (true, d') → (∀ b, k_id (f b) = k_id b) →
  (∀ b, guard b = true → k_status b = s0) → (∀ b, k_status (f b) = s1) →
  ∃ b b', get_batch d i = Some b ∧ k_status b = s0 ∧ get_batch d' i = Some b' ∧ k_status b' = s1.
Proof.
  unfold cas_commit. destruct (cas i guard f d) as [hit d1] eqn:E. unfold commit.
  destruct (constraints d1); [|done]. intros Hc [= -> ->] Hk H0 H1. injection E as Hx <-.
  apply existsb_elem in Hx as (b & Hin & Hb). apply Bool.andb_true_iff in Hb as [Hid Hg].
  unfold brow, by_key in Hid. apply str_eqb_eq in Hid.
  assert (get_batch d i = Some b) as Hb.
  { rewrite <- Hid. apply get_row_elem; [by apply constraints_ids|done]. }
  exists b, (f b). repeat split; auto. unfold get_batch in *. simpl. rewrite get_row_update, Hb by done. simpl.
  unfold brow, by_key. by rewrite Hid, str_eqb_refl, Hg.
Qed.

Lemma upload_before t o d i : op_ok onwards o → wf d → constraints d = true →
  upload_started i t o d + before 1 i (exec t o d) ≤ before 1 i d.
Proof.
  intros Ho Hw Hc. pose proof (before_mono t o d i 1 Ho Hw) as Hm.
  destruct o; simpl in *; try lia.
  destruct (claim_upload d t id owner attempt lease) as [[[] d']|e] eqn:E; try lia.
  destruct (str_eqb id i) eqn:Ei; [|lia]. apply str_eqb_eq in Ei. subst id.
  apply (claim_moves _ _ _ _ _ BPreparing BUploading) in E as (b & b' & Hb & Hs & Hb' & Hs'); try done.
  - simpl. unfold before. by rewrite Hb, Hb', Hs, Hs'.
  - intros b Hg. by guards.
Qed.

Lemma submission_before t o d i : op_ok onwards o → wf d → constraints d = true →
  submission_started i t o d + before 4 i (exec t o d) ≤ before 4 i d.
Proof.
  intros Ho Hw Hc. pose proof (before_mono t o d i 4 Ho Hw) as Hm.
  destruct o; simpl in *; try lia.
  destruct (claim_submission d t id owner attempt lease) as [[[] d']|e] eqn:E; try lia.
  destruct (str_eqb id i) eqn:Ei; [|lia]. apply str_eqb_eq in Ei. subst id.
  apply (claim_moves _ _ _ _ _ BUploaded BSubmitting) in E as (b & b' & Hb & Hs & Hb' & Hs'); try done.
  - simpl. unfold before. by rewrite Hb, Hb', Hs, Hs'.
  - intros b Hg. by guards.
Qed.

Lemma tally_before f k i l d :
  (∀ t o d, op_ok onwards o → wf d → constraints d = true → f t o d + before k i (exec t o d) ≤ before k i d) →
  ops_ok onwards anyone l → wf d → constraints d = true → tally f l d ≤ before k i d.
Proof.
  intros Hf Hl. revert d. induction Hl as [|[t o] l [Ho _] _ IH]; intros d Hw Hc; simpl.
  - unfold before. destruct (get_batch d i); [case_goal|]; lia.
  - specialize (IH (exec t o d) (batch_exec_wf _ _ _ Ho Hw) (exec_constraints _ _ _ Hc)). specialize (Hf t o d Ho Hw Hc).
    simpl in *. lia.
Qed.

Lemma before_le k i d : before k i d ≤ 1.
Proof. unfold before. destruct (get_batch d i); [case_goal|]; lia. Qed.

(** No Batch is sent twice: in any run in which [update_batch] only moves
    statuses onward, however schedulers, submitters and operators interleave, the upload of a
    Batch is started at most once and its submission is started at most once;
    an outcome that became unknown is never answered by a second attempt. *)
Theorem batch_started_once l d i :
  ops_ok onwards anyone l → wf d → constraints d = true →
  tally (upload_started i) l d ≤ 1 ∧ tally (submission_started i) l d ≤ 1.
Proof.
  intros Hl Hw Hc. pose proof (before_le 1 i d). pose proof (before_le 4 i d).
  pose proof (tally_before _ 1 i l d (λ t o d, upload_before t o d i) Hl Hw Hc).
  pose proof (tally_before _ 4 i l d (λ t o d, submission_before t o d i) Hl Hw Hc). lia.
Qed.

(** Remote identities are stable and exclusive: once a Batch has a remote
    Batch id or an uploaded file, and no status is taken back, no transaction, late poll answer or recovery
    replaces it, and no two Batches are ever bound to the same remote Batch. *)
Theorem remote_identity_stable l d i b b' :
  ops_ok onwards anyone l → wf d → constraints d = true → get_batch d i = Some b → get_batch (run l d) i = Some b' →
  (opt_truthy (k_remote_id b) = true → k_remote_id b' = k_remote_id b) ∧
  (opt_truthy (rf_id (k_input b)) = true → rf_id (k_input b') = rf_id (k_input b)) ∧
  (∀ j c, get_batch (run l d) j = Some c → k_remote_id c = k_remote_id b' → k_remote_id c ≠ None → i = j).
Proof.
  intros Hl Hw Hc Hb Hb'. pose proof (run_row onwards anyone l d i Hl) as H. unfold row_moved in H. rewrite Hb, Hb' in H.
  pose proof (moved_bound _ _ _ _ H) as H1. pose proof (moved_file (onwards i) ltac:(done) _ _ _ (Hw _ _ Hb) H) as H2.
  repeat split; [done|done|].
  intros j c Hj E Hn. destruct (k_remote_id c) as [v|] eqn:Ev; [|done].
  apply get_row_Some in Hb' as [Hi <-]. apply get_row_Some in Hj as [Hj <-].
  by rewrite (NoDup_omap_inj k_remote_id (rows (run l d)) b' c v) by
    (try done; by apply constraints_remote, run_constraints).
Qed.

(** Results of a transaction that did nothing. *)
Lemma cas_commit_miss i guard f d b x : constraints d = true → get_batch d i = Some b → guard b = false →
  cas_commit i guard f d = Ok x → fst x = false.
Proof.
  intros Hc Hb Hg. unfold cas_commit. pose proof (cas_hit i guard f d b Hc Hb) as H.
  destruct (cas i guard f d) as [hit d1]. simpl in H. unfold commit. destruct (constraints d1); [|done].
  intros [= <-]. simpl. congruence.
Qed.

Lemma owned_false o b : s_owner (k_side b) ≠ Some o → owned o b = false.
Proof.
  intros H. unfold owned. destruct (sql_eq _ _) eqn:E; [|done]. apply sql_eq_true in E. done.
Qed.

Lemma other_owner x o : x ≠ Some o → o ≠ [] → negb (str_eqb (str_or x []) o) = true.
Proof.
  intros Hx Ho. apply negb_true. destruct (str_eqb _ _) eqn:E; [|done]. apply str_eqb_eq in E.
  destruct x as [[|y s]|]; simpl in E; congruence.
Qed.

(** A lost claim is fenced: as soon as anything happened to the claim an
    owner took, the version has moved on, and from then on, unless he claims
    again, none of his answers is taken: not the completion of his upload or
    submission, not the marking of an unknown outcome, not his release or his
    file deletion, and not a poll answer that names the version he saw. *)
Theorem lost_claim_is_fenced W l d i b b' o t :
  ops_ok W (λ w, w ≠ Some o) l → constraints d = true → get_batch d i = Some b →
  get_batch (run l d) i = Some b' → k_side b' ≠ k_side b → o ≠ [] →
  s_version (k_side b) < s_version (k_side b') ∧
  (∀ a f n x, complete_upload (run l d) t i a o f n = Ok x → fst x = false) ∧
  (∀ a r x, complete_submission (run l d) t i a o r = Ok x → fst x = None) ∧
  (∀ a c m x, mark_upload_unknown (run l d) t i a o c m = Ok x → fst x = false) ∧
  (∀ a c m x, mark_submission_unknown (run l d) t i a o c m = Ok x → fst x = false) ∧
  (∀ x, release_side_effect_claim (run l d) t i o = Ok x → fst x = false) ∧
  (∀ kind x, complete_cleanup_file (run l d) t i kind o = Ok x → fst x = false) ∧
  (∀ r w x, set_status_from_remote (run l d) t i r (Some (s_version (k_side b))) w = Ok x → fst x = IgnoredStale).
Proof.
  intros Hl Hc Hb Hb' Hk Ho. pose proof (run_row _ _ l d i Hl) as H. unfold row_moved in H. rewrite Hb, Hb' in H.
  apply (run_constraints l) in Hc.
  pose proof (moved_version _ _ _ _ H) as [Hv|Hv]; [done|]. simpl in Hv.
  apply moved_owner in H as [Hs|Hs]; [done|]. simpl in Hs. pose proof (owned_false _ _ Hs) as Hown.
  assert (∀ g, g && owned o b' = false) as Hg by (intros g; rewrite Hown; by destruct g).
  assert (∀ g f, fst (cas i (λ c, g c && owned o c) f (run l d)) = false) as Hmiss.
  { intros g f. by rewrite (cas_hit _ _ _ _ b' Hc Hb'). }
  split; [done|]. repeat split; intros.
  - eapply cas_commit_miss in H; eauto.
  - unfold complete_submission in H. rewrite Hb' in H. apply rbind_ok in H as (? & _ & H).
    apply rbind_ok in H as (? & _ & H). destruct (local_status _); [|by injection H as <-].
    rewrite (other_owner _ o) in H by done. rewrite Bool.orb_true_r in H. by injection H as <-.
  - unfold mark_upload_unknown in H. pose proof (Hmiss (λ c, in_status BUploading c && sql_eq (k_upload_attempt c) (Some a))).
    destruct (cas _ _ _ _) as [hit d1] eqn:E. rewrite (commit_fst _ _ _ H). apply (f_equal fst) in E.
    by rewrite H0 in E.
  - unfold mark_submission_unknown in H.
    pose proof (Hmiss (λ c, in_status BSubmitting c && sql_eq (k_submission_attempt c) (Some a))).
    destruct (cas _ _ _ _) as [hit d1] eqn:E. rewrite (commit_fst _ _ _ H). apply (f_equal fst) in E.
    by rewrite H0 in E.
  - eapply cas_commit_miss in H; eauto.
  - unfold complete_cleanup_file in H. destruct (file_of kind); [|done]. eapply cas_commit_miss in H; eauto.
  - unfold set_status_from_remote in H. rewrite Hb' in H. apply rbind_ok in H as (? & _ & H).
    destruct (local_status _); [|by injection H as <-]. unfold stale_answer in H. simpl default in H.
    assert ((s_version (k_side b') =? s_version (k_side b)) = false) as E by (bprop; lia).
    rewrite E in H. by injection H as <-.
Qed.

(** ** Closing a Batch *)

Lemma update_where_idem {A} (p : A → bool) f l :
  (∀ r, p r = true → p (f r) = false) → existsb p (update_where p f l) = false.
Proof.
  intros H. apply existsb_none. intros r (r0 & _ & ->)%update_where_elem.
  destruct (p r0) eqn:E; [by apply H|done].
Qed.

(** What the last job of [update_job] reads. *)
Lemma update_job_row job_id finish t q j :
  get_row j_id job_id (jobs q) = Some j → j_status j ≠ JCancelled →
  ∃ j', get_row j_id job_id (jobs (update_job job_id finish t q)) = Some j' ∧
    j_completed_items j' = items_in job_id ICompleted q ∧ j_failed_items j' = items_in job_id IFailed q ∧
    j_status j' = default (j_status j) finish.
Proof.
  intros Hj Hn. unfold update_job. simpl. rewrite get_row_update by (intros x; by destruct finish). rewrite Hj. simpl.
  pose proof (get_row_Some j_id _ _ _ Hj) as [_ Hid]. rewrite Hid, str_eqb_refl, bool_decide_eq_false_2 by done. simpl.
  eexists. split; [done|]. by destruct finish.
Qed.

Lemma close_job_items_closed ids to code t q it :
  to ∉ item_active → it ∈ items (close_job_items ids item_active to code t q) → i_id it ∈ ids → i_status it ∉ item_active.
Proof.
  intros Hto (i0 & Hin & ->)%update_where_elem Hid.
  destruct (str_in (i_id i0) ids && istatus_in item_active (i_status i0)) eqn:E; [done|].
  apply Bool.andb_false_iff in E as [E|E]; [|by apply istatus_in_false].
  by apply str_in_false in E.
Qed.

(** The counters a closed Batch records are those of its items. *)
Definition counts_match (xs : list bitem) (c : batch_counts) : Prop :=
  c_completed c = count_status [XImported] xs ∧ c_imported c = count_status [XImported] xs ∧
  c_failed c = count_status [XFailed; XSchemaInvalid; XDuplicateCustomId; XUnexpectedCustomId] xs ∧
  c_missing c = count_status [XMissing; XRetryPending] xs ∧ c_stale c = count_status [XStale] xs.

(** The parent job after its Batch was closed. *)
Definition job_follows (job_id : str) (d d' : bdb) : Prop :=
  ∀ j, get_row j_id job_id (jobs (queue d)) = Some j → j_status j ≠ JCancelled →
  ∃ j', get_row j_id job_id (jobs (queue d')) = Some j' ∧
    j_completed_items j' = items_in job_id ICompleted (queue d') ∧
    j_failed_items j' = items_in job_id IFailed (queue d') ∧
    j_status j' = if open_batches d' job_id then j_status j
                  else job_outcome (map k_status (List.filter (of_job job_id) (rows d'))).

(** The queue after closing, in terms of the tables after closing. *)
Definition closed_queue (t : Z) (i : str) (s : bstatus) (code : option str) (b : batch_row) (q : db) (d' : bdb) : db :=
  match k_job b with
  | Some ((_ :: _) as job_id) =>
      update_job job_id
        (if open_batches d' job_id then None
         else Some (job_outcome (map k_status (List.filter (of_job job_id) (rows d'))))) t
        match closing_item s with
        | Some _ =>
            close_job_items
              (job_items_of d' (λ x, str_eqb (x_batch x) i && xstatus_in [XFailed; XCancelled; XExpired] (x_status x)))
              item_active (if bool_decide (s = BCancelled) then ICancelled else IFailed) code t q
        | None => q
        end
  | _ => q
  end.

Lemma finalize_inv d t i s a c code m b s' d' :
  get_batch d i = Some b → bstatus_in TERMINAL_BATCH_STATUSES (k_status b) = false →
  _finalize_batch_locked sql_sum d t i s a c code m = Ok (s', d') →
  s' = s ∧ s ∈ TERMINAL_BATCH_STATUSES ∧ has_active d' i = false ∧
  rows d' = update_where (λ r, brow i r && true) (close_row sql_sum s a c code m t (batch_items_of d' i)) (rows d) ∧
  queue d' = closed_queue t i s code b (queue d) d'.
Proof.
  intros Hb Hn H. unfold _finalize_batch_locked in H. apply rbind_ok in H as (? & Ht & H). apply raise_if_ok in Ht.
  rewrite Hb, Hn in H. clear Hn Hb.
  match type of H with context [has_active ?x i] => remember x as d2 eqn:Hd2 end.
  assert (rows d2 = rows d ∧ queue d2 = queue d) as [Hr Hq] by (rewrite Hd2; by destruct (closing_item s)).
  clear Hd2. apply rbind_ok in H as (? & Ha & H). apply raise_if_ok in Ha. unfold cas in H.
  assert (xrows d' = xrows d2) as Hx by (destruct (k_job b) as [[|y j]|]; by injection H as _ <-).
  assert (batch_items_of d' i = batch_items_of d2 i) as -> by (unfold batch_items_of; by rewrite Hx).
  unfold closed_queue. rewrite <- Hr, <- Hq. unfold has_active in *. rewrite Hx. guards.
  destruct (k_job b) as [[|y j]|]; injection H as <- <-; by repeat split.
Qed.

(** Closing a Batch closes everything under it in one transaction.  A
    finished Batch is left as it was; otherwise the Batch takes the final
    status, none of its items stays open, its counters are those of its items,
    the queue items of what failed are no longer active, and the parent job has
    recounted items and, exactly when no Batch of it is open, the status that
    sums up its Batches; a cancelled job stays cancelled. *)
Theorem closing_a_batch d t i s a c code m b s' d' :
  get_batch d i = Some b → finalize_batch_result sql_sum d t i s a c code m = Ok (s', d') →
  if bstatus_in TERMINAL_BATCH_STATUSES (k_status b) then s' = k_status b ∧ d' = d
  else s' = s ∧ s ∈ TERMINAL_BATCH_STATUSES ∧ has_active d' i = false ∧
    (∃ b', get_batch d' i = Some b' ∧ k_status b' = s ∧ counts_match (batch_items_of d' i) (k_counts b')) ∧
    (∀ x it, closing_item s ≠ None → opt_truthy (k_job b) = true → x ∈ batch_items_of d' i →
       x_status x ∈ [XFailed; XCancelled; XExpired] → x_job_item x = Some (i_id it) → it ∈ items (queue d') →
       i_status it ∉ item_active) ∧
    (∀ job_id, opt_truthy (k_job b) = true → k_job b = Some job_id → job_follows job_id d d').
Proof.
  intros Hb H. unfold finalize_batch_result in H. apply rbind_ok in H as ([s1 d1] & H & Hc).
  unfold commit in Hc. destruct (constraints d1); [|done]. injection Hc as <- <-.
  destruct (bstatus_in TERMINAL_BATCH_STATUSES (k_status b)) eqn:Ht.
  { unfold _finalize_batch_locked in H. apply rbind_ok in H as (? & _ & H). rewrite Hb, Ht in H. by injection H as <- <-. }
  apply (finalize_inv _ _ _ _ _ _ _ _ b) in H as (-> & Hs & Ha & Hr & Hq); [|done..].
  repeat split; [done|done|..].
  - exists (close_row sql_sum s a c code m t (batch_items_of d1 i) b). split; [|split]; [|done|].
    + unfold get_batch in *. rewrite Hr, get_row_update, Hb by done. simpl.
      apply get_row_Some in Hb as [_ <-]. unfold brow, by_key. by rewrite str_eqb_refl.
    + simpl. by repeat split.
  - intros x it Hcl Hj Hx Hxs Hxi Hin. rewrite Hq in Hin. unfold closed_queue in Hin.
    destruct (k_job b) as [[|y job_id]|]; [done| |done]. destruct (closing_item s) as [to|]; [|done].
    apply close_job_items_closed in Hin; [done|by case_goal; set_solver|].
    apply list_elem_of_omap. exists x. split; [|done]. apply filter_elem.
    apply filter_elem in Hx as [Hx E]. split; [done|]. rewrite E. simpl. by apply bool_decide_eq_true.
  - intros job_id Hj E j Hrow Hcan. rewrite Hq. unfold closed_queue. rewrite E. destruct job_id as [|y job_id]; [by rewrite E in Hj|].
    match goal with |- context [update_job _ ?f t ?q] =>
      destruct (update_job_row (y :: job_id) f t q j) as (j' & H1 & H2 & H3 & H4); [by destruct (closing_item s)|done|] end.
    exists j'. split; [done|]. split; [done|]. split; [done|]. rewrite H4. by destruct (open_batches _ _).
Qed.
End runs.

(** ** Settling costs *)

(** What the evidence of a settlement depends on: identity, Batch and status of
    every item, and the usage rows. *)
Definition same_evidence (d d1 : bdb) : Prop :=
  busage d1 = busage d ∧
  map (λ x, (x_id x, x_batch x, x_status x)) (xrows d1) = map (λ x, (x_id x, x_batch x, x_status x)) (xrows d).

Definition unresolved_of (i : str) (x : bitem) : bool :=
  str_eqb (x_batch x) i && xstatus_in unresolved_items (x_status x).
Definition settled (d : bdb) (b : batch_row) : bool :=
  snd (cost_summary d (k_id b))
  && (Z.of_nat (length (batch_items_of d (k_id b))) =? c_total (k_counts b))
  && negb (existsb (unresolved_of (k_id b)) (xrows d)) && negb (opt_truthy (fst (k_reconciliation b))).

Lemma countb_same {A B} (f : A → B) p (q : B → bool) l l' :
  (∀ x, p x = q (f x)) → map f l = map f l' → countb p l = countb p l'.
Proof.
  intros Hp. revert l'. induction l as [|x l IH]; intros [|y l'] H; try done.
  injection H as Hx Hl. rewrite !countb_cons, (IH _ Hl), !Hp, Hx. done.
Qed.

Lemma existsb_same {A B} (f : A → B) p (q : B → bool) l l' :
  (∀ x, p x = q (f x)) → map f l = map f l' → existsb p l = existsb p l'.
Proof.
  intros Hp H. pose proof (countb_same f p q l l' Hp H) as E.
  pose proof (countb_zero p l) as H1. pose proof (countb_zero p l') as H2. rewrite E in H1.
  destruct (existsb p l), (existsb p l'); naive_solver.
Qed.

Lemma length_items d i : Z.of_nat (length (batch_items_of d i)) = countb (λ x, str_eqb (x_batch x) i) (xrows d).
Proof. done. Qed.

Lemma settled_same d d1 b : same_evidence d d1 → settled d1 b = settled d b.
Proof.
  intros [Hu Hx]. unfold settled, cost_summary. simpl. rewrite !length_items.
  unfold batch_items_of. rewrite !countb_filter.
  rewrite (countb_same (λ x, (x_id x, x_batch x, x_status x)) (λ x, str_eqb (x_batch x) (k_id b))
             (λ y, str_eqb (snd (fst y)) (k_id b)) (xrows d1) (xrows d)) by done.
  rewrite (existsb_same (λ x, (x_id x, x_batch x, x_status x)) (unresolved_of (k_id b))
             (λ y, str_eqb (snd (fst y)) (k_id b) && xstatus_in unresolved_items (snd y)) (xrows d1) (xrows d)) by done.
  rewrite (countb_same (λ x, (x_id x, x_batch x, x_status x))
             (λ x, str_eqb (x_batch x) (k_id b) && is_null (known_cost d1 x))
             (λ y, str_eqb (snd (fst y)) (k_id b) && is_null (known_cost d1 (mk_bitem (fst (fst y)) [] None None [] [] []
                (snd y) (0, 0, 0, 0) f0 f0 (None, None) 0))) (xrows d1) (xrows d)) by done.
  rewrite (countb_ext (λ x, str_eqb (x_batch x) (k_id b) && is_null (known_cost d1 x))
             (λ x, str_eqb (x_batch x) (k_id b) && is_null (known_cost d x)) (xrows d)); [done|].
  intros x _. unfold known_cost, usage_of. by rewrite Hu.
Qed.

Definition release_hold (r : reservation) : reservation := r <| rv_active := false |>.

Lemma settle_one_spec d b : same_evidence d (snd (settle_one d b)) ∧
  holds (snd (settle_one d b)) = update_where (λ r, settled d b && reserve_of (k_id b) r) release_hold (holds d) ∧
  fst (settle_one d b) = countb rv_active (holds d) - countb rv_active (holds (snd (settle_one d b))).
Proof.
  unfold settle_one, settled. destruct (cost_summary d (k_id b)) as [[known unknown] complete]. simpl.
  set (xs := update_where _ _ (xrows d)).
  assert (map (λ x, (x_id x, x_batch x, x_status x)) xs = map (λ x, (x_id x, x_batch x, x_status x)) (xrows d)) as Hx.
  { apply update_where_map. intros x. by destruct (known_cost d x). }
  rewrite (existsb_same (λ x, (x_id x, x_batch x, x_status x))
    (λ x, str_eqb (x_batch x) (k_id b) && xstatus_in unresolved_items (x_status x))
    (λ y, str_eqb (snd (fst y)) (k_id b) && xstatus_in unresolved_items (snd y)) xs (xrows d)) by done.
  fold (unresolved_of (k_id b)). change (existsb (λ x, str_eqb (x_batch x) (k_id b) &&
    xstatus_in unresolved_items (x_status x)) (xrows d)) with (existsb (unresolved_of (k_id b)) (xrows d)).
  destruct complete, (_ =? c_total _), (existsb (unresolved_of (k_id b)) (xrows d)), (opt_truthy _); simpl;
    (split; [done|]);
    first [split; [by rewrite update_where_none by (by apply existsb_none)|lia]|split; [done|]].
  rewrite countb_update_loss; [lia|]. intros r _ Hr. unfold reserve_of in Hr. bprop. split; [tauto|done].
Qed.

Lemma update_twice {A} (p q : A → bool) f l :
  (∀ r, p r = true → q (f r) = false) →
  update_where q f (update_where p f l) = update_where (λ r, p r || q r) f l.
Proof.
  intros H. unfold update_where. rewrite map_map. apply map_ext. intros r.
  destruct (p r) eqn:E; simpl; [by rewrite H|done].
Qed.

(** The reservations of the Batches in [l] that are settled. *)
Definition freed (d : bdb) (l : list batch_row) (r : reservation) : bool :=
  existsb (λ b, settled d b && reserve_of (k_id b) r) l.

Lemma freed_active d l r : freed d l r = true → rv_active r = true.
Proof.
  intros (b & _ & H)%existsb_elem. apply Bool.andb_true_iff in H as [_ H]. unfold reserve_of in H. bprop. tauto.
Qed.
Lemma freed_released d l r : freed d l (release_hold r) = false.
Proof. destruct (freed d l (release_hold r)) eqn:E; [|done]. by apply freed_active in E. Qed.

Lemma update_where_pred {A} (p q : A → bool) f l : (∀ r, p r = q r) → update_where p f l = update_where q f l.
Proof. intros H. unfold update_where. apply map_ext. intros r. by rewrite H. Qed.

Lemma settle_all_spec l d : same_evidence d (snd (settle_all l d)) ∧
  holds (snd (settle_all l d)) = update_where (freed d l) release_hold (holds d) ∧
  fst (settle_all l d) = countb rv_active (holds d) - countb rv_active (holds (snd (settle_all l d))).
Proof.
  revert d. induction l as [|b l IH]; intros d; cbn [settle_all].
  - split; [done|]. split; [symmetry; by apply update_where_none, existsb_none|simpl; lia].
  - pose proof (settle_one_spec d b) as (E1 & H1 & N1). destruct (settle_one d b) as [n d1].
    specialize (IH d1) as (E2 & H2 & N2). destruct (settle_all l d1) as [m d2]. cbn [fst snd] in *.
    assert (∀ r, freed d1 l r = freed d l r) as Hf.
    { intros r. unfold freed. clear -E1. induction l as [|c l IH]; [done|]. cbn [existsb].
      by rewrite (settled_same d d1 c E1), IH. }
    destruct E1 as [U1 X1], E2 as [U2 X2]. split; [split; congruence|]. split; [|lia].
    rewrite H2, H1, (update_where_pred _ (freed d l)), update_twice by (auto using freed_released). done.
Qed.

(** The evidence that every request of a Batch is accounted. *)
Definition accounted (d : bdb) (b : batch_row) : Prop :=
  k_status b ∈ TERMINAL_BATCH_STATUSES ∧
  (coalesce (k_remote_status b) ∉ map u ["upload_unknown"; "submission_unknown"]%string) ∧
  opt_truthy (fst (k_reconciliation b)) = false ∧ batch_items_of d (k_id b) ≠ [] ∧
  Z.of_nat (length (batch_items_of d (k_id b))) = c_total (k_counts b) ∧
  (∀ x, x ∈ batch_items_of d (k_id b) → known_cost d x ≠ None ∧ x_status x ∉ unresolved_items).

Lemma settled_accounted d bi pi mo b :
  settleable d bi pi mo b = true → settled d b = true → accounted d b.
Proof.
  unfold settleable, settled, accounted, cost_summary. intros Hs H. cbn [snd] in H. rewrite !Bool.andb_true_iff, !negb_true, !Z.eqb_eq in *. guards.
  match goal with H : existsb _ _ = false |- _ => rename H into Hu end.
  match goal with H : countb _ (batch_items_of _ _) = 0 |- _ => rename H into Hk; apply countb_zero in Hk end.
  repeat split; try done.
  - intros E. by rewrite E in *.
  - intros En. rename select (x ∈ _) into Hx. apply (proj1 (existsb_none _ _) Hk) in Hx. by rewrite En in Hx.
  - rename select (x ∈ _) into Hx. apply filter_elem in Hx as [Hx Hb]. apply (proj1 (existsb_none _ _) Hu) in Hx. unfold unresolved_of in Hx.
    rewrite Hb in Hx. by apply bool_decide_eq_false in Hx.
Qed.

(** A cost reserve is released only on complete evidence: settling changes
    nothing in the reservations but freeing active reserves of finished Batches
    whose outcome is known, that have as many items as they were sent with,
    none of them unresolved and every one with a recorded cost; the result is
    the number of reserves freed. *)
Theorem reserve_needs_evidence d bi pi mo n d' :
  settle_terminal_costs d bi pi mo = Ok (n, d') →
  n = countb rv_active (holds d) - countb rv_active (holds d') ∧
  ∃ freed, holds d' = update_where freed release_hold (holds d) ∧
    ∀ r, freed r = true → rv_active r = true ∧
      ∃ b, b ∈ rows d ∧ rv_id r = u "batch:" ++ k_id b ∧ accounted d b.
Proof.
  unfold settle_terminal_costs. set (l := List.filter _ (rows d)). intros H.
  pose proof (settle_all_spec l d) as (_ & Hh & Hn). destruct (settle_all l d) as [m d1]. cbn [fst snd] in *.
  unfold commit in H. destruct (constraints d1); [|done]. injection H as <- <-. split; [done|].
  exists (freed d l). split; [done|]. intros r Hr. split; [by eapply freed_active|].
  apply existsb_elem in Hr as (b & Hb & Hr). apply filter_elem in Hb as [Hb Hse].
  apply Bool.andb_true_iff in Hr as [Hset Hr]. exists b. split; [done|]. unfold reserve_of in Hr. bprop.
  split; [tauto|]. by eapply settled_accounted.
Qed.

(** ** A concrete run *)

Definition demo_sum (l : list f64) : f64 := foldr fadd f0 l.
Definition demo_batch_spec : batch_spec :=
  mk_batch_spec (u "gpt") (u "/v1/responses") (u "fp") None (u "[]") (u "sample") None None None None.
Definition demo_job : job :=
  mk_job (u "j1") (u "analysis_batch") (u "n") JRunning (u "s") None None f0 1 0 0 None 0 None None None None 0 None
    (u "m") None None false None.
Definition demo_job_item : item :=
  mk_item (u "i1") (u "j1") (Some (u "p1")) IPending (u "queued") 0 0 None None None None None None f0 None None (u "").
Definition demo_queue : db := mk_db [demo_job] [demo_job_item] [] [] [] [] [] [] [] false None None [] [] [].
Definition demo_bdb : bdb :=
  mk_bdb [] [] demo_queue
    [mk_batch_usage (Some (u "b1")) (Some (u "x1")) (u "gpt") (Some (u "estimated")) (Some f0)]
    [mk_reservation (u "batch:b1") f0 (Some (u "j1")) None true 0 None None].
Definition demo_remote (s : string) : remote :=
  mk_remote (Some (u "r1")) None (Some (u s)) (Some (u "file-1")) None None [Some 90] (mk_remote_counts None None None) None.

(** Created, uploaded and submitted by one owner; polled by others. *)
Definition demo_prefix : list (Z * bop) :=
  [(0, CreateWithItems (mk_new_batch (u "b1") (Some (u "j1")) None demo_batch_spec BPreparing f0)
         [mk_new_item (u "x1") (Some (u "i1")) (Some (u "p1")) (u "c1") (u "sha") (u "v1") XPending f0]);
   (1, ClaimUpload (u "b1") (u "o1") (u "a1") 10)].
Definition demo_run : list (Z * bop) :=
  [(2, CompleteUpload (u "b1") (u "a1") (u "o1") (u "file-1") (Some 5));
   (3, ClaimSubmission (u "b1") (u "o2") (u "a2") 10);
   (4, CompleteSubmission (u "b1") (u "a2") (u "o2") (demo_remote "validating"));
   (5, SetStatus (u "b1") (demo_remote "in_progress") None None);
   (6, SetStatus (u "b1") (demo_remote "validating") None None);
   (7, SetStatus (u "b1") (demo_remote "completed") None None)].
Definition demo_closed : bdb :=
  run demo_sum (demo_prefix ++ demo_run ++
    [(8, UpdateItem (u "x1") (λ x, x <| x_status := XImported |>));
     (9, Finalize (u "b1") BCompleted None None None None)]) demo_bdb.

Example demo_polled : k_status <$> get_batch (run demo_sum (demo_prefix ++ demo_run) demo_bdb) (u "b1") = Some BImportPending.
Proof. vm_compute. reflexivity. Qed.

Lemma demo_ops (P : option str → Prop) : P (Some (u "o1")) → P (Some (u "o2")) → P None → ops_ok onwards P (demo_prefix ++ demo_run).
Proof. intros. unfold ops_ok. repeat constructor; simpl; auto. Qed.

Lemma demo_tail (P : option str → Prop) : P (Some (u "o2")) → P None → ops_ok onwards P demo_run.
Proof. intros. unfold ops_ok. repeat constructor; simpl; auto. Qed.

Lemma empty_wf : wf demo_bdb.
Proof. intros i b H. done. Qed.

Definition demo_claimed : bdb := run demo_sum demo_prefix demo_bdb.
Definition demo_after : bdb := run demo_sum demo_run demo_claimed.
Definition row_at (d : bdb) : batch_row :=
  default (insert_batch [] None None demo_batch_spec BFailed None None 0 0 f0 0) (get_batch d (u "b1")).

(** Billing rejects the submission: the Batch is set aside, and taken up again. *)
Definition demo_credit : list (Z * bop) :=
  firstn 2 demo_run ++
  [(4, UpdateBatch (u "b1") [SetStatusTo BPreparing; SetLastErrorCode (Some (u "API_CREDIT_EXHAUSTED"))]);
   (5, ReleaseClaim (u "b1") (u "o2"));
   (6, UpdateBatch (u "b1") [SetStatusTo BUploaded]);
   (7, ClaimSubmission (u "b1") (u "o3") (u "a3") 20);
   (8, CompleteSubmission (u "b1") (u "a3") (u "o3") (demo_remote "validating"))].

Lemma repository_refines_lifecycle_witness :
  match get_batch (run demo_sum demo_credit demo_claimed) (u "b1") with
  | Some b' => k_remote_id b' = Some (u "r1") ∧
      moved (overwrites demo_credit (u "b1")) anyone (life_of (row_at demo_claimed)) (life_of b')
      ∧ s_version (k_side (row_at demo_claimed)) ≤ s_version (k_side b')
  | None => False
  end.
Proof.
  assert (Forall (λ x : Z * bop, caller_ok (snd x)) demo_credit) as Hok by (repeat constructor).
  pose proof (repository_refines_lifecycle demo_sum demo_credit demo_claimed (u "b1") Hok) as H.
  assert (get_batch demo_claimed (u "b1") = Some (row_at demo_claimed)) as E by (vm_compute; reflexivity).
  rewrite E in H.
  assert (k_remote_id <$> get_batch (run demo_sum demo_credit demo_claimed) (u "b1") = Some (Some (u "r1"))) as E'
    by (vm_compute; reflexivity).
  destruct (get_batch (run demo_sum demo_credit demo_claimed) (u "b1")) as [b'|]; [|done].
  injection E' as ->. destruct H as (H1 & H2 & _). done.
Defined.

Lemma batch_started_once_witness :
  tally demo_sum (upload_started (u "b1")) (demo_prefix ++ demo_run) demo_bdb ≤ 1 ∧
  tally demo_sum (submission_started (u "b1")) (demo_prefix ++ demo_run) demo_bdb ≤ 1.
Proof.
  refine (batch_started_once demo_sum (demo_prefix ++ demo_run) demo_bdb (u "b1") (demo_ops anyone I I I) empty_wf _).
  vm_compute. reflexivity.
Defined.

Lemma demo_wf : wf demo_claimed.
Proof.
  apply (run_wf demo_sum anyone); [|exact empty_wf]. unfold ops_ok. repeat constructor.
Qed.

Lemma lost_claim_is_fenced_witness :
  s_version (k_side (row_at demo_claimed)) < s_version (k_side (row_at demo_after)) ∧
  ∀ a f n x, complete_upload demo_after 8 (u "b1") a (u "o1") f n = Ok x → fst x = false.
Proof.
  destruct (lost_claim_is_fenced demo_sum onwards demo_run demo_claimed (u "b1") (row_at demo_claimed) (row_at demo_after)
    (u "o1") 8) as (H1 & H2 & _); [by apply demo_tail|vm_compute; reflexivity..|vm_compute; discriminate|done|].
  split; [exact H1|exact H2].
Defined.

Lemma remote_identity_stable_witness :
  let d := run demo_sum (demo_prefix ++ demo_run) demo_bdb in
  let d' := run demo_sum [(9, SetStatus (u "b1") (demo_remote "failed") None None)] d in
  k_remote_id (row_at d') = k_remote_id (row_at d).
Proof.
  cbv zeta.
  destruct (remote_identity_stable demo_sum [(9, SetStatus (u "b1") (demo_remote "failed") None None)]
    (run demo_sum (demo_prefix ++ demo_run) demo_bdb) (u "b1")
    (row_at (run demo_sum (demo_prefix ++ demo_run) demo_bdb))
    (row_at (run demo_sum [(9, SetStatus (u "b1") (demo_remote "failed") None None)]
       (run demo_sum (demo_prefix ++ demo_run) demo_bdb)))) as [H _];
    [by repeat constructor; auto|by apply (run_wf demo_sum anyone); [apply demo_ops|exact empty_wf]|vm_compute; reflexivity..|].
  apply H. vm_compute. reflexivity.
Defined.

Lemma closing_a_batch_witness :
  let d := run demo_sum (demo_prefix ++ demo_run) demo_bdb in
  match finalize_batch_result demo_sum d 9 (u "b1") BFailed None None (Some (u "E")) None with
  | Ok (_, d') => has_active d' (u "b1") = false
  | Raise _ => False
  end.
Proof.
  cbv zeta. set (d := run demo_sum (demo_prefix ++ demo_run) demo_bdb).
  assert (get_batch d (u "b1") = Some (row_at d)) as Hb by (vm_compute; reflexivity).
  destruct (finalize_batch_result demo_sum d 9 (u "b1") BFailed None None (Some (u "E")) None) as [[s' d']|e] eqn:E.
  - pose proof (closing_a_batch demo_sum d 9 (u "b1") BFailed None None (Some (u "E")) None (row_at d) s' d' Hb E) as H.
    assert (bstatus_in TERMINAL_BATCH_STATUSES (k_status (row_at d)) = false) as Ht by (vm_compute; reflexivity).
    rewrite Ht in H. apply H.
  - vm_compute in E. discriminate E.
Defined.

Lemma reserve_needs_evidence_witness :
  match settle_terminal_costs demo_closed None None None with
  | Ok (n, d') => n = countb rv_active (holds demo_closed) - countb rv_active (holds d') ∧ n = 1
  | Raise _ => False
  end.
Proof.
  destruct (settle_terminal_costs demo_closed None None None) as [[n d']|e] eqn:E.
  - split; [by apply reserve_needs_evidence in E as [H _]|vm_compute in E; by injection E as <- _].
  - vm_compute in E. discriminate E.
Defined.
