(* ===== verification/JobFinality.v ===== *)
(** * Finished jobs and the other writers of the job table

    [QueueMachine] runs the transactions of the job repository.  Two other
    components write job statuses: the Batch repository, when the last Batch of
    a job is closed, and the cycle resume of the complementary lane.  Here the
    three run together on the Batch database, whose [queue] is the job
    database, and final statuses are stated for all of them. *)

From S2P Require Import Prelude PyStr PyFloat Json Sql Store Reservations JobQueue JobQueueWf JobQueueInv QueueMachine Batches BatchesProps.
Local Open Scope Z_scope.

(** UPDATE jobs SET status='running',... of [_maybe_resume] *)
Definition cycle_resume (d : db) (k : str) (now : Z) : db :=
  d <| jobs := update_where (λ j, str_eqb (j_id j) k && jstatus_in [JPaused; JBudgetExceeded] (j_status j))
         (λ j, j <| j_status := JRunning |> <| j_pause_requested_at := None |> <| j_heartbeat_at := Some now |>)
         (jobs d) |>.

(** A transaction of the program. *)
Inductive event : Type :=
| EJob (o : op)
| EBatch (t : Z) (o : bop)
| EResume (k : str) (t : Z)
| EOther (d' : bdb).

Definition statuses (d : db) : list (str * job_status) := map (λ j, (j_id j, j_status j)) (jobs d).

Section system.
Context (render : json → str) (sql_sum : list f64 → f64).

Definition perform (d : bdb) (e : event) : bdb :=
  match e with
  | EJob o => d <| queue := QueueMachine.exec render (queue d) o |>
  | EBatch t o => BatchesProps.exec sql_sum t o d
  | EResume k t => d <| queue := cycle_resume (queue d) k t |>
  | EOther d' => d'
  end.
Fixpoint perform_all (d : bdb) (l : list event) : bdb :=
  match l with [] => d | e :: l' => perform_all (perform d e) l' end.

(** Every transaction of the two repositories is allowed under the conditions
    of [QueueMachine.op_ok]; any other transaction leaves the statuses of the
    jobs alone (it writes other columns or other tables). *)
Definition event_ok (d : bdb) (e : event) : Prop :=
  match e with
  | EJob o => QueueMachine.op_ok (queue d) o
  | EOther d' => statuses (queue d') = statuses (queue d)
  | _ => True
  end.
Fixpoint events_ok (d : bdb) (l : list event) : Prop :=
  match l with [] => True | e :: l' => event_ok d e ∧ events_ok (perform d e) l' end.

(** ** What the Batch repository does to the job table *)

(** The Batch a transaction may close. *)
Definition closing (o : bop) : option str :=
  match o with
  | Finalize id _ _ _ _ _ | FinalizeCleanup id | AbandonUpload id _ | FailLocal id _ _ _ _ => Some id
  | _ => None
  end.

Definition job_of (d : bdb) (i : str) : option str := b ← get_batch d i; k_job b.

(** Either the jobs are untouched, or one Batch's job is updated. *)
Definition jobs_touched (t : Z) (id : str) (d d' : bdb) : Prop :=
  jobs (queue d') = jobs (queue d) ∨
  ∃ k f q, job_of d id = Some k ∧ jobs q = jobs (queue d) ∧ queue d' = update_job k f t q.

Lemma touched_refl t id d d' : queue d' = queue d → jobs_touched t id d d'.
Proof. intros E. left. by rewrite E. Qed.

Lemma touched_state {A} t id d (r : result berror (A * bdb)) :
  (∀ a d', r = Ok (a, d') → jobs_touched t id d d') → jobs_touched t id d (state_of d r).
Proof. destruct r as [[a d']|e]; simpl; [|by left]. eauto. Qed.

Lemma commit_ok {A} (a : A) d x d' : commit a d = Ok (x, d') → d' = d.
Proof. unfold commit. destruct (constraints d); [|done]. congruence. Qed.

Lemma locked_touched t id d s a c code m x d' :
  _finalize_batch_locked sql_sum d t id s a c code m = Ok (x, d') → jobs_touched t id d d'.
Proof.
  unfold _finalize_batch_locked. intros H. apply rbind_ok in H as (_ & _ & H).
  destruct (get_batch d id) as [b|] eqn:Hb; [|done].
  case_in H; [injection H as <- <-; by left|].
  match type of H with context [has_active ?y id] => set (d1 := y) in H end.
  assert (queue d1 = queue d) as Hq by (unfold d1; by destruct (closing_item s)). clearbody d1.
  apply rbind_ok in H as (_ & _ & H). unfold cas in H. cbv zeta in H.
  destruct (k_job b) as [[|z k]|] eqn:Ek; [injection H as <- <-; left; simpl; by rewrite Hq| |
    injection H as <- <-; left; simpl; by rewrite Hq].
  injection H as <- <-. right. simpl. eexists (z :: k), _, _. unfold job_of. rewrite Hb. simpl.
  split; [done|]. split; [|done]. destruct (closing_item s); simpl; by rewrite Hq.
Qed.

Lemma finalize_touched t id d s a c code m :
  jobs_touched t id d (state_of d (finalize_batch_result sql_sum d t id s a c code m)).
Proof.
  apply touched_state. unfold finalize_batch_result. intros x d' H. apply rbind_ok in H as ([s' d1] & H1 & H).
  apply commit_ok in H as ->. by eapply locked_touched.
Qed.

Lemma closing_touched t o d id : closing o = Some id → jobs_touched t id d (BatchesProps.exec sql_sum t o d).
Proof.
  destruct o; try discriminate; intros [= <-]; cbn [BatchesProps.exec].
  - apply finalize_touched.
  - unfold finalize_cleanup. destruct (get_batch d id0) as [b|]; [|by left].
    destruct (existsb _ _); cbn [raise_if rbind]; [by left|]. destruct (bstatus_in _ _); [by left|].
    destruct (k_action b); first [by left|apply finalize_touched].
  - apply touched_state. unfold abandon_unknown_upload. intros x d' H. apply rbind_ok in H as (_ & _ & H).
    destruct (get_batch d id0) as [b|] eqn:Hb; [|done]. apply rbind_ok in H as (_ & _ & H).
    unfold cas in H. apply rbind_ok in H as ([s' d2] & H1 & H). apply commit_ok in H as ->.
    apply locked_touched in H1 as [H1|(k & f & q & Hk & Hq & E)]; [by left|right].
    exists k, f, q. split; [|done]. unfold job_of, get_batch in *. simpl in Hk.
    rewrite get_row_update, Hb in Hk by done. rewrite Hb. simpl in *. by destruct (brow _ _ && _).
  - apply touched_state. unfold fail_local_batch. intros x d' H. apply rbind_ok in H as (_ & _ & H).
    destruct (get_batch d id0) as [b|] eqn:Hb; [|done]. apply rbind_ok in H as (_ & _ & H). cbv zeta in H.
    match type of H with (if ?c then _ else _) = _ => destruct c end; [apply commit_ok in H as ->; by left|].
    destruct (k_job b) as [[|z k]|] eqn:Ek; apply commit_ok in H as ->; [by left| |by left].
    right. eexists (z :: k), _, _. unfold job_of. rewrite Hb. split; [exact Ek|]. split; [|reflexivity]. reflexivity.
Qed.

Lemma queue_commit {A} d (a : A) d' : queue d' = queue d → queue (state_of d (commit a d')) = queue d.
Proof. intros H. unfold commit. by destruct (constraints d'). Qed.

Lemma settle_all_queue l d : queue (snd (settle_all l d)) = queue d.
Proof.
  revert d. induction l as [|b l IH]; intros d; [done|]. cbn [settle_all].
  assert (queue (snd (settle_one d b)) = queue d) as H1.
  { unfold settle_one. destruct (cost_summary d (k_id b)) as [[known unknown] complete]. by destruct (_ || _). }
  destruct (settle_one d b) as [n d1]. specialize (IH d1). destruct (settle_all l d1) as [m d2]. simpl in *. congruence.
Qed.

(** Walk through a transaction to its commit. *)
Ltac to_queue :=
  repeat first
    [ reflexivity
    | apply queue_commit; reflexivity
    | apply queue_commit; match goal with |- queue (if ?x then _ else _) = _ => by destruct x end
    | lazymatch goal with
      | |- context [state_of _ (rbind (raise_if ?x _) _)] => destruct x; cbn [raise_if rbind]
      | |- context [state_of _ (match ?x with _ => _ end)] => destruct x eqn:?
      end ].

Lemma other_queue t o d : closing o = None → queue (BatchesProps.exec sql_sum t o d) = queue d.
Proof.
  destruct o; try discriminate; intros _; cbn [BatchesProps.exec].
  all: unfold create_with_items, create_child_batch, hold_prepared_for_credit, update_batch, update_item, claim_poll,
    release_side_effect_claim, claim_upload, complete_upload, mark_upload_unknown, claim_submission, claim_cancel,
    complete_submission, mark_submission_unknown, recover_uploaded_file, set_status_from_remote,
    bind_recovered_remote, mark_file_deleted, claim_cleanup_file, complete_cleanup_file, fail_cleanup_file,
    cas_commit, cas; cbv zeta; try (by to_queue).
  unfold settle_terminal_costs. pose proof (settle_all_queue (List.filter (settleable d id provider model) (rows d)) d) as H.
  destruct (settle_all _ d) as [n d']. by apply queue_commit.
Qed.

(** ** Statuses that stay *)

Lemma update_job_cancelled k f t q : evolves (keeps [JCancelled]) (jobs q) (jobs (update_job k f t q)).
Proof.
  unfold update_job. apply evolves_guarded; [by destruct f|]. intros j Hj. bprop. destruct Hj as [_ Hj].
  by intros Hc%list_elem_of_singleton.
Qed.

Lemma update_job_other k f t q k' j :
  k' ≠ k → get_row j_id k' (jobs q) = Some j → get_row j_id k' (jobs (update_job k f t q)) = Some j.
Proof.
  intros Hk Hj. unfold update_job. simpl. rewrite get_row_update by (by destruct f). rewrite Hj. simpl.
  apply get_row_Some in Hj as [_ Hj]. assert (str_eqb (j_id j) k = false) as -> by (apply str_eqb_neq; congruence). done.
Qed.

Lemma cycle_resume_kept d k t : finished_kept (jobs d) (jobs (cycle_resume d k t)).
Proof.
  unfold cycle_resume. apply evolves_guarded; [done|]. intros j Hj. bprop. destruct Hj as [_ Hj].
  rewrite !elem_of_cons, elem_of_nil in Hj. intros Ht.
  by destruct Hj as [Hj|[Hj|[]]]; rewrite Hj in Ht; apply (bool_decide_eq_true_2 _) in Ht.
Qed.

Lemma statuses_kept T d d' : statuses d' = statuses d → evolves (keeps T) (jobs d) (jobs d').
Proof.
  unfold statuses, evolves. generalize (jobs d), (jobs d'). intros js. induction js as [|j js IH]; intros js' E k j0 Hj.
  { done. }
  destruct js' as [|j' js']; [done|]. injection E as Ei Es E. unfold get_row in *. simpl in *.
  unfold by_key in *. rewrite Ei. destruct (str_eqb (j_id j) k); [|by apply IH].
  injection Hj as <-. exists j'. by split; [|intros _].
Qed.

(** The event closes a Batch of job [k]. *)
Definition closes_batch_of (k : str) (d : bdb) (e : event) : Prop :=
  ∃ t o id, e = EBatch t o ∧ closing o = Some id ∧ job_of d id = Some k.

Lemma event_cancelled d e : event_ok d e → evolves (keeps [JCancelled]) (jobs (queue d)) (jobs (queue (perform d e))).
Proof.
  assert (∀ s, s ∈ [JCancelled] → s ∈ closed) as Hc by (intros s ->%list_elem_of_singleton; by right; left).
  intros He. destruct e as [o|t o|k t|d']; cbn [perform event_ok] in *.
  - eapply evolves_weaken; [exact Hc|]. by apply exec_closed_kept.
  - destruct (closing o) as [id|] eqn:Eo; [|rewrite (other_queue t o d Eo); apply evolves_refl].
    destruct (closing_touched t o d id Eo) as [->|(k & f & q & _ & <- & ->)];
      [apply evolves_refl|apply update_job_cancelled].
  - eapply evolves_weaken; [|apply cycle_resume_kept]. intros s Hs. by apply closed_finished, Hc.
  - by apply statuses_kept.
Qed.

Lemma event_closed d e k j : event_ok d e → get (queue d) k = Some j → j_status j ∈ closed →
  (∃ j', get (queue (perform d e)) k = Some j' ∧ j_status j' = j_status j) ∨ closes_batch_of k d e.
Proof.
  intros He Hj Hs.
  assert (evolves (keeps closed) (jobs (queue d)) (jobs (queue (perform d e))) →
          ∃ j', get (queue (perform d e)) k = Some j' ∧ j_status j' = j_status j) as Hk.
  { intros H. destruct (H k j Hj) as (j' & ? & K). exists j'. by split; [|apply K]. }
  destruct e as [o|t o|i t|d']; cbn [perform event_ok] in *.
  - left. by apply Hk, exec_closed_kept.
  - destruct (closing o) as [id|] eqn:Eo; [|left; rewrite (other_queue t o d Eo); by exists j].
    destruct (closing_touched t o d id Eo) as [E|(k' & f & q & Hid & Hq & E)]; [left; unfold get; rewrite E; by exists j|].
    destruct (decide (k = k')) as [<-|Hn]; [right; by exists t, o, id|left].
    exists j. split; [|done]. unfold get. rewrite E. apply update_job_other; [done|]. by rewrite Hq.
  - left. apply Hk. eapply evolves_weaken; [apply closed_finished|apply cycle_resume_kept].
  - left. by apply Hk, statuses_kept.
Qed.

Lemma events_cancelled l d : events_ok d l →
  evolves (keeps [JCancelled]) (jobs (queue d)) (jobs (queue (perform_all d l))).
Proof.
  revert d. induction l as [|e l IH]; intros d H; [apply evolves_refl|]. destruct H as [He H].
  eapply evolves_trans; [by apply event_cancelled|by apply IH].
Qed.

(** C2. Cancelled jobs are final, and completed jobs are final until one of
    their Batches is closed.  Take any run of the program's transactions: of
    the job repository (whose [transition] is called with unfinished source
    statuses only, [op_ok]), of the Batch repository, of the cycle resume, and
    any that write no job status.  The row of a completed or cancelled job is
    still there afterwards, with the same status; only that of a completed
    job can differ, and then some transaction of the run finalized, abandoned
    or failed a Batch belonging to that very job, since the Batch repository
    rewrites the status of a job whenever its last Batch is closed, unless the
    job was cancelled. *)
Theorem completed_and_cancelled_final l d k j :
  events_ok d l → get (queue d) k = Some j → j_status j ∈ closed →
  ∃ j', get (queue (perform_all d l)) k = Some j' ∧
    (j_status j' = j_status j ∨
     j_status j = JCompleted ∧ ∃ l1 e l2, l = l1 ++ e :: l2 ∧ closes_batch_of k (perform_all d l1) e).
Proof.
  intros Hl Hj Hs. destruct (events_cancelled l d Hl k j Hj) as (j' & Hj' & Kc). exists j'. split; [done|].
  destruct (decide (j_status j = JCancelled)) as [Ec|Ec]; [left; apply Kc; rewrite Ec; by left|].
  assert (j_status j = JCompleted) as Ed by (unfold closed in Hs; rewrite !elem_of_cons, elem_of_nil in Hs; naive_solver).
  clear Kc Ec. revert d j Hl Hj Hs Hj' Ed. induction l as [|e l IH]; intros d j Hl Hj Hs Hj' Ed.
  { left. cbn [perform_all] in Hj'. unfold get in Hj. congruence. }
  destruct Hl as [He Hl]. destruct (event_closed d e k j He Hj Hs) as [(j1 & Hj1 & E1)|Hc].
  - rewrite <- E1 in *. destruct (IH (perform d e) j1 Hl Hj1 Hs Hj' Ed) as [H|[_ (l1 & e' & l2 & -> & H)]]; [by left|].
    right. split; [done|]. by exists (e :: l1), e', l2.
  - right. split; [done|]. by exists [], e, l.
Qed.
End system.

(** ** A concrete run *)

Definition final_render (_ : json) : str := [].
Definition final_clock (t : Z) : clock := mk_clock t t.
Definition final_start : bdb :=
  perform_all final_render demo_sum demo_bdb
    (map (λ x, EBatch (fst x) (snd x)) demo_prefix ++ [EJob (OCancel (final_clock 2) (u "j1"))]).
(** Its only Batch fails, it is retried and resumed. *)
Definition final_run : list event :=
  [EBatch 3 (FailLocal (u "b1") (u "E") (u "m") JFailed false); EJob (ORetryFailed (final_clock 4) (u "j1"));
   EResume (u "j1") 5; EJob (OTransition (final_clock 6) (u "j1") [JPending] JRunning (u "started"))].

Lemma completed_and_cancelled_final_witness :
  (k_status <$> get_batch (perform_all final_render demo_sum final_start final_run) (u "b1")) = Some BFailed ∧
  ∃ j', get (queue (perform_all final_render demo_sum final_start final_run)) (u "j1") = Some j' ∧
    j_status j' = JCancelled.
Proof.
  split; [vm_compute; reflexivity|].
  destruct (get (queue final_start) (u "j1")) as [j|] eqn:E; [|vm_compute in E; discriminate].
  assert (j_status j = JCancelled) as Hs by (vm_compute in E; injection E as <-; reflexivity).
  destruct (completed_and_cancelled_final final_render demo_sum final_run final_start (u "j1") j) as (j' & Hj' & H).
  - repeat split. intros s ->%list_elem_of_singleton. by apply (bool_decide_unpack _).
  - exact E.
  - rewrite Hs. apply (bool_decide_eq_true_1 _). reflexivity.
  - exists j'. split; [exact Hj'|]. destruct H as [H|[H _]]; congruence.
Defined.

(** The exception is real: a completed job whose last Batch then fails. *)
Example completed_job_overwritten :
  let d := perform_all final_render demo_sum demo_bdb
             (map (λ x, EBatch (fst x) (snd x)) (firstn 1 demo_prefix) ++ [EJob (OFinalizeBatch (final_clock 2) (u "j1") JCompleted)]) in
  j_status <$> get (queue d) (u "j1") = Some JCompleted ∧
  j_status <$> get (queue (perform final_render demo_sum d
    (EBatch 3 (FailLocal (u "b1") (u "E") (u "m") JFailed false)))) (u "j1") = Some JFailed.
Proof. vm_compute. split; reflexivity. Qed.
