(* ===== verification/BatchSubmit.v ===== *)
(** * Submitting one Batch ([_submit_one] of services/batch_analysis.py)

    The service uploads the prepared input file and creates the remote Batch,
    each under a claim of [Batches], with the cost reserved in between; its
    handler decides, from what is known of a failure, whether the Batch is
    closed locally, cleaned up, held for a human or held for credit.

    The outside world is an argument ([submit_world]): the clock, uuids and
    leases, the answers of the guards and of the budget, the provider's
    replies, and which statements fail for want of storage (a locked or full
    database: an exception without a code).  Nobody else writes meanwhile.  Effects survive exceptions, so the body runs in a state and
    exception monad; [calls] records the remote calls.  The pause callback, the
    activity log and closing the HTTP client are left out. *)

From S2P Require Import Prelude PyStr PyFloat Json Sql Store Reservations JobQueue Budgets Batches BatchesProps.
Local Open Scope Z_scope.

(** What the handler reads of an exception: code, [ambiguous], text. *)
Record sexn := mk_sexn { e_code : str; e_ambiguous : bool; e_text : str }.
Definition lifecycle (code : string) : sexn := mk_sexn (u code) false [].
(** An exception without a code. *)
Definition uncoded : sexn := lifecycle "BATCH-SUBMIT-001".

Record submit_world := mk_submit_world {
  w_owner : str; w_upload_attempt : str; w_submission_attempt : str;
  w_now : nat → Z;
  w_upload_lease : result sexn Z; w_submission_lease : result sexn Z;  (** [_side_effect_lease_until] *)
  w_allowed : nat → option sexn;         (** [_assert_submission_allowed], per call *)
  w_input_bytes : option Z;              (** size of the local JSONL, None when missing *)
  w_provider : option sexn;              (** constructing the provider *)
  w_upload : result sexn (option str);   (** upload_batch_file: None when not a text *)
  w_reserve : result sexn f64;           (** the budget's verdict on the estimate *)
  w_native : bool;                       (** the provider is OpenAI's own *)
  w_create : result sexn remote;         (** create_batch *)
  w_fails : nat → bool }.                (** which session or transaction fails with a storage error *)

Inductive remote_call := UploadCall (r : result sexn (option str)) | CreateCall (r : result sexn remote).

Record sub := mk_sub {
  sd : bdb; upload_tried : bool; submission_tried : bool; remote_created : bool; calls : list remote_call }.

Definition S (A : Type) : Type := sub → result sexn A * sub.
Definition ret {A} (a : A) : S A := λ s, (Ok a, s).
Definition fail {A} (e : sexn) : S A := λ s, (Raise e, s).
Definition bind {A B} (m : S A) (k : A → S B) : S B :=
  λ s, match m s with (Ok a, s') => k a s' | (Raise e, s') => (Raise e, s') end.
Definition modify (f : sub → sub) : S unit := λ s, (Ok tt, f s).
Definition on_db (f : bdb → bdb) (s : sub) : sub :=
  mk_sub (f (sd s)) (upload_tried s) (submission_tried s) (remote_created s) (calls s).
Declare Scope submit_scope.
Notation "'do' x <- m ; k" := (bind m (λ x, k)) (at level 10, x name, m at level 100, k at level 200) : submit_scope.
Notation "m ;; k" := (bind m (λ _, k)) (at level 100, k at level 200, right associativity) : submit_scope.
Local Open Scope submit_scope.

(** A repository transaction: its own exceptions and those of the storage
    carry no code, and both roll back. *)
Definition transact {A} (fails : bool) (m : bdb → result berror (A * bdb)) : S A :=
  λ s, if fails then (Raise uncoded, s)
       else match m (sd s) with
            | Ok (a, d') => (Ok a, on_db (λ _, d') s)
            | Raise _ => (Raise uncoded, s)
            end.
Definition require (b : bool) (e : sexn) : S unit := if b then ret tt else fail e.
Definition check (e : option sexn) : S unit := match e with Some e => fail e | None => ret tt end.
Definition reply {A} (r : result sexn A) : S A := match r with Ok a => ret a | Raise e => fail e end.

Section submit.
Context (w : submit_world) (batch_id : str).

Definition current (n : nat) : S batch_row :=
  λ s, match get_batch (sd s) batch_id with
       | Some b => if w_fails w n then (Raise uncoded, s) else (Ok b, s)
       | None => (Raise uncoded, s)
       end.

Definition mark_upload : S unit :=
  modify (λ s, mk_sub (sd s) true (submission_tried s) (remote_created s) (calls s)).
Definition mark_submission : S unit :=
  modify (λ s, mk_sub (sd s) (upload_tried s) true (remote_created s) (calls s)).
Definition mark_created : S unit :=
  modify (λ s, mk_sub (sd s) (upload_tried s) (submission_tried s) true (calls s)).
Definition record_call (c : remote_call) : S unit :=
  modify (λ s, mk_sub (sd s) (upload_tried s) (submission_tried s) (remote_created s) (calls s ++ [c])).

Definition upload_part : S unit :=
  mark_upload ;;
  do lease <- reply (w_upload_lease w);
  do claimed <- transact (w_fails w 0) (λ d, claim_upload d (w_now w 0) batch_id (w_owner w) (w_upload_attempt w) lease);
  require claimed (lifecycle "BATCH-ALREADY-CLAIMED") ;;
  do _ <- current 21;
  require (negb (is_null (w_input_bytes w))) (lifecycle "BATCH-INPUT-002") ;;
  check (w_provider w) ;;
  check (w_allowed w 1) ;;
  record_call (UploadCall (w_upload w)) ;;
  do file <- reply (w_upload w);
  match file with
  | Some ((_ :: _) as f) =>
      do completed <- transact (w_fails w 1) (λ d, complete_upload d (w_now w 1) batch_id (w_upload_attempt w) (w_owner w) f (w_input_bytes w));
      require completed (lifecycle "BATCH-CLAIM-STALE")
  | _ => fail (lifecycle "BATCH-UPLOAD-UNKNOWN")
  end.

(** [budgets.reserve] of the batch's cost, when the budget grants it. *)
Definition grant (b : batch_row) (amount : f64) (d : bdb) : bdb :=
  let id := u "batch:" ++ batch_id in
  let provider := Some (default (u "None") (k_provider b)) in
  if existsb (λ r, str_eqb (rv_id r) id && rv_active r) (holds d) then d
  else d <| holds := upsert_reservation
         (mk_reservation id amount (if opt_truthy (k_job b) then k_job b else None) None true (w_now w 2)
            provider (if w_native w then Some (u "openai") else if opt_truthy provider then Some (u "other") else None))
         (holds d) |>.

(** The row after the upload, with the file it must have. *)
Definition uploaded_row : S batch_row :=
  λ s, if w_fails w 22 then (Raise uncoded, s)
       else match get_batch (sd s) batch_id with
            | Some b => if opt_truthy (rf_id (k_input b)) then (Ok b, s) else (Raise (lifecycle "BATCH-UPLOAD-UNKNOWN"), s)
            | None => (Raise (lifecycle "BATCH-UPLOAD-UNKNOWN"), s)
            end.

Definition submit_part : S unit :=
  do b <- uploaded_row;
  mark_submission ;;
  do lease <- reply (w_submission_lease w);
  do claimed <- transact (w_fails w 3) (λ d, claim_submission d (w_now w 3) batch_id (w_owner w) (w_submission_attempt w) lease);
  require claimed (lifecycle "BATCH-ALREADY-CLAIMED") ;;
  check (w_provider w) ;;
  do amount <- reply (w_reserve w);
  modify (on_db (grant b amount)) ;;
  check (w_allowed w 2) ;;
  record_call (CreateCall (w_create w)) ;;
  do r <- reply (w_create w);
  mark_created ;;
  require (opt_truthy (rm_id r)) (lifecycle "BATCH-SUBMISSION-UNKNOWN") ;;
  do state <- transact (w_fails w 4) (λ d, complete_submission d (w_now w 4) batch_id (w_submission_attempt w) (w_owner w) r);
  require (negb (is_null state)) (lifecycle "BATCH-CLAIM-STALE").

Definition submit_body : S unit :=
  check (w_allowed w 0) ;;
  do b <- current 20;
  (if opt_truthy (rf_id (k_input b)) then ret tt else upload_part) ;;
  submit_part.

(** ** The exception handler

    An exception of the handler's own replaces the one being handled and ends
    it: [attempt] runs one transaction and goes on only when it committed,
    [on_queue] does so for one of the job repository. *)

Definition ending : Type := sexn * bdb.
Definition attempt {A} (fails : bool) (m : bdb → result berror (A * bdb)) (k : bdb → ending) (d : bdb) : ending :=
  if fails then (uncoded, d) else match m d with Ok (_, d') => k d' | Raise _ => (uncoded, d) end.
Definition on_queue (fails : bool) (f : db → db) (k : bdb → ending) (d : bdb) : ending :=
  if fails then (uncoded, d) else k (d <| queue := f (queue d) |>).

Definition ambiguous_failure (e : sexn) : bool :=
  e_ambiguous e || str_in (e_code e) [u "BATCH-SUBMISSION-UNKNOWN"; u "BATCH-UPLOAD-UNKNOWN"].

Definition parent_job (d : bdb) (b : option batch_row) : option job :=
  match b with
  | Some b => match k_job b with Some ((_ :: _) as j) => get_row j_id j (jobs (queue d)) | _ => None end
  | None => None
  end.
Definition automatic_lane (j : option job) : bool :=
  match j with
  | Some j => match j_settings j with
              | Some (JObj m) => match assoc_get (u "complementary_lane") m with
                                 | Some (JStr s) => str_eqb s (u "openai_backfill") | _ => false end
              | _ => false
              end
  | None => false
  end.
Definition credit_failure (code : str) : bool :=
  str_eqb code (u "API_CREDIT_EXHAUSTED") || starts_with (u "BUDGET-OPENAI-") code.

(** A definite rejection after the upload: the items are failed. *)
Fixpoint reject_items (code text job_id : str) (xs : list bitem) (k : bdb → ending) (d : bdb) : ending :=
  match xs with
  | [] => k d
  | x :: xs' =>
      let next := reject_items code text job_id xs' k in
      if xstatus_in [XPending; XSubmitted] (x_status x) then
        attempt (w_fails w (30 + length xs')) (λ d, update_item d (w_now w 6) (x_id x)
            (λ x, x <| x_status := XRetryPending |> <| x_error := (Some code, Some (take 1000 text)) |>))
          (λ d, match x_job_item x with
                | Some ((_ :: _) as it) =>
                    on_queue (w_fails w (30 + length xs'))
                      (λ q, snd (fail_batch_item q (mk_clock (w_now w 6) (w_now w 6)) job_id it code text)) next d
                | _ => next d
                end) d
      else next d
  end.

(** ... and the uploaded file is left to the cleanup. *)
Definition reject_uploaded (code text : str) (b : batch_row) (k : bdb → ending) : bdb → ending :=
  attempt (w_fails w 5) (λ d, update_batch d (w_now w 5) batch_id
      (λ b, b <| k_status := BCleanupPending |> <| k_remote_status := Some (u "failed") |>
              <| k_cleanup := CleanupPending |> <| k_last_error := (Some code, Some (take 1000 text)) |>
              <| k_times := (k_times b) <| m_phase := Some (w_now w 5) |> |>))
    (λ d, reject_items code text (default (u "None") (k_job b)) (batch_items_of d batch_id)
            (attempt (w_fails w 7) (λ d, release_side_effect_claim d (w_now w 7) batch_id (w_owner w)) k) d).

(** Credit exhausted before anything ran: keep the prepared bytes for later. *)
Definition hold_for_credit (e : sexn) (j : job) : bdb → ending :=
  attempt (w_fails w 5) (λ d, update_batch d (w_now w 5) batch_id
      (λ b, b <| k_status := BPreparing |> <| k_last_error := (Some (e_code e), Some (e_text e)) |>
              <| k_times := (k_times b) <| m_phase := Some (w_now w 5) |> |>))
    (attempt (w_fails w 6) (λ d, release_side_effect_claim d (w_now w 6) batch_id (w_owner w))
      (on_queue (w_fails w 7) (λ q, snd (request_pause q (mk_clock (w_now w 7) (w_now w 7)) (j_id j)))
        (attempt (w_fails w 8) (λ d, hold_prepared_for_credit d (w_now w 8) (j_id j) (e_code e)) (λ d, (e, d))))).

Definition pause_for_credit (e : sexn) (b : option batch_row) (d : bdb) : ending :=
  match b with
  | Some b =>
      match k_job b with
      | Some ((_ :: _) as j) =>
          if str_eqb (e_code e) (u "API_CREDIT_EXHAUSTED") then
            on_queue (w_fails w 8) (λ q, snd (request_pause q (mk_clock (w_now w 8) (w_now w 8)) j))
              (attempt (w_fails w 9) (λ d, hold_prepared_for_credit d (w_now w 9) j (u "API_CREDIT_EXHAUSTED"))
                (on_queue (w_fails w 10) (λ q, add_event q j (u "provider_credit_pause")
                    (u "OpenAI 額度／支出上限已用盡；未提交分片保留本機，核對 Billing 後手動恢復")
                    (JObj [(u "batch_id", JStr batch_id); (u "error_code", JStr (e_code e))]) (w_now w 9))
                  (λ d, (e, d)))) d
          else (e, d)
      | _ => (e, d)
      end
  | None => (e, d)
  end.

Definition release_reserve (d : bdb) : bdb :=
  d <| holds := update_where (by_key rv_id (u "batch:" ++ batch_id)) (λ r, r <| rv_active := false |>) (holds d) |>.

(** What is done with the Batch itself. *)
Definition dispose (e : sexn) (s : sub) (b : option batch_row) (k : bdb → ending) : bdb → ending :=
  let ambiguous := ambiguous_failure e in
  let upload_unknown := str_eqb (e_code e) (u "BATCH-UPLOAD-UNKNOWN")
                        || (ambiguous && match b with Some b => in_status BUploading b | None => false end) in
  if remote_created s && submission_tried s then
    attempt (w_fails w 5) (λ d, mark_submission_unknown d (w_now w 5) batch_id (w_submission_attempt w) (w_owner w)
                    (u "submission_persist_unknown") (e_text e)) k
  else if ambiguous && upload_unknown && upload_tried s then
    attempt (w_fails w 5) (λ d, mark_upload_unknown d (w_now w 5) batch_id (w_upload_attempt w) (w_owner w)
                    (u "upload_unknown") (e_text e)) k
  else if ambiguous && submission_tried s then
    attempt (w_fails w 5) (λ d, mark_submission_unknown d (w_now w 5) batch_id (w_submission_attempt w) (w_owner w)
                    (u "submission_unknown") (e_text e)) k
  else match b with
       | Some b' => if opt_truthy (rf_id (k_input b')) then reject_uploaded (e_code e) (e_text e) b' k
                    else attempt (w_fails w 5) (λ d, fail_local_batch d (w_now w 5) batch_id (e_code e) (e_text e) JFailed false) k
       | None => attempt (w_fails w 5) (λ d, fail_local_batch d (w_now w 5) batch_id (e_code e) (e_text e) JFailed false) k
       end.

Definition handler (e : sexn) (s : sub) : ending :=
  if w_fails w 24 then (uncoded, sd s) else
  let b := get_batch (sd s) batch_id in
  let code := e_code e in
  let definite := negb (ambiguous_failure e) && negb (remote_created s) in
  if definite && w_fails w 25 then (uncoded, sd s) else
  let d := if definite then release_reserve (sd s) else sd s in
  if match b with Some b => opt_truthy (k_job b) | None => false end && w_fails w 26 then (uncoded, d) else
  let parent := parent_job d b in
  match (if automatic_lane parent && definite && credit_failure code then parent else None) with
  | Some j => hold_for_credit e j d
  | None =>
      if str_eqb code (u "BATCH-ALREADY-CLAIMED") || (str_eqb code (u "BATCH-CLAIM-STALE") && negb (remote_created s))
      then (e, d)
      else dispose e s b (pause_for_credit e b) d
  end.

(** [_submit_one]: the exception it ends with, the tables, the remote calls. *)
Definition _submit_one (endpoint : option str) (d : bdb) : option sexn * bdb * list remote_call :=
  if w_fails w 23 then (Some uncoded, d, []) else
  match get_batch d batch_id with
  | None => (Some uncoded, d, [])
  | Some b =>
      let native := sql_eq endpoint (Some (u "/v1/responses")) && opt_truthy (k_job b) in
      if native && w_fails w 27 then (Some uncoded, d, []) else
      let paused := sql_eq endpoint (Some (u "/v1/responses"))
                    && match parent_job d (Some b) with
                       | Some j => jstatus_in [JPaused; JPausing; JBudgetExceeded; JCancelled; JFailed] (j_status j)
                       | None => false end in
      if paused then (Some (lifecycle "BATCH-JOB-PAUSED"), d, [])
      else if bstatus_in [BUploadUnknown; BSubmissionUnknown] (k_status b) then
        (Some (lifecycle "BATCH-UNKNOWN-HOLD"), d, [])
      else
        match submit_body (mk_sub d false false false []) with
        | (Ok _, s) => (None, sd s, calls s)
        | (Raise e, s) => let '(e', d') := handler e s in (Some e', d', calls s)
        end
  end.
End submit.

(** ** Symbolic execution *)

Definition wp {A} (m : S A) (Q : result sexn A → sub → Prop) (s : sub) : Prop := Q (fst (m s)) (snd (m s)).

Lemma submit_mono {A} (m : S A) (Q Q' : result sexn A → sub → Prop) s :
  wp m Q s → (∀ x s', Q x s' → Q' x s') → wp m Q' s.
Proof. unfold wp. auto. Qed.
Lemma submit_bind {A B} (m : S A) (k : A → S B) Q s :
  wp m (λ x s', match x with Ok a => wp (k a) Q s' | Raise e => Q (Raise e) s' end) s → wp (bind m k) Q s.
Proof. unfold wp, bind. by destruct (m s) as [[]]. Qed.
Lemma wp_require b e (Q : result sexn unit → sub → Prop) s :
  (b = true → Q (Ok tt) s) → (b = false → Q (Raise e) s) → wp (require b e) Q s.
Proof. destruct b; unfold wp; simpl; auto. Qed.
Lemma wp_check e (Q : result sexn unit → sub → Prop) s :
  Q (Ok tt) s → (∀ x, e = Some x → Q (Raise x) s) → wp (check e) Q s.
Proof. destruct e; unfold wp; simpl; auto. Qed.
Lemma wp_reply {A} (r : result sexn A) (Q : result sexn A → sub → Prop) s : Q r s → wp (reply r) Q s.
Proof. by destruct r. Qed.
Lemma wp_current w i n b (Q : result sexn batch_row → sub → Prop) s :
  get_batch (sd s) i = Some b → Q (Ok b) s → Q (Raise uncoded) s → wp (current w i n) Q s.
Proof. unfold wp, current. intros ->. by destruct (w_fails w n). Qed.

Lemma get_batch_cas i guard f d b :
  get_batch d i = Some b → (∀ b, k_id (f b) = k_id b) → guard b = true →
  get_batch (snd (cas i guard f d)) i = Some (f b).
Proof.
  intros Hb Hk E. unfold get_batch in *. simpl. rewrite get_row_update, Hb by done. simpl.
  apply get_row_Some in Hb as [_ <-]. unfold brow, by_key. by rewrite str_eqb_refl, E.
Qed.

(** A claim or completion of row [i] in the model's monad. *)
Lemma wp_cas i fails guard f b (Q : result sexn bool → sub → Prop) s :
  constraints (sd s) = true → get_batch (sd s) i = Some b → (∀ b, k_id (f b) = k_id b) →
  (fails = true → Q (Raise uncoded) s) →
  (constraints (snd (cas i guard f (sd s))) = false → Q (Raise uncoded) s) →
  (guard b = false → Q (Ok false) s) →
  (∀ d', guard b = true → d' = snd (cas i guard f (sd s)) → constraints d' = true → get_batch d' i = Some (f b) →
    Q (Ok true) (on_db (λ _, d') s)) →
  wp (transact fails (cas_commit i guard f)) Q s.
Proof.
  intros Hc Hb Hk Hf Hr Hm Hh. unfold wp, transact, cas_commit. destruct fails; [by apply Hf|]. clear Hf.
  pose proof (cas_hit i guard f (sd s) b Hc Hb) as Hg. pose proof (cas_miss i guard f (sd s)) as Hmiss.
  pose proof (get_batch_cas i guard f (sd s) b Hb Hk) as Hrow.
  destruct (cas i guard f (sd s)) as [hit d']. cbn [fst snd] in *. subst hit. unfold commit.
  destruct (constraints d') eqn:Ec; [|by apply Hr]. destruct (guard b) eqn:E; [by apply Hh; auto|].
  rewrite Hmiss by done. replace (on_db (λ _, sd s) s) with s by (by destruct s). by apply Hm.
Qed.

(** Updating one row keeps the constraints when it keeps the row's own. *)
Lemma constraints_cas i guard f d b :
  constraints d = true → get_batch d i = Some b → (∀ b, k_id (f b) = k_id b) →
  (∀ b, k_remote_id (f b) = k_remote_id b) → (guard b = true → row_ok b = true → row_ok (f b) = true) →
  constraints (snd (cas i guard f d)) = true.
Proof.
  intros Hc Hb Hk Hr Hok. pose proof (constraints_ids d Hc) as Hu. unfold constraints in *. simpl.
  rewrite !Bool.andb_true_iff in *. destruct Hc as [[[[[[[H1 H2] H3] H4] H5] H6] H7] H8].
  rewrite update_where_map by done. rewrite update_where_omap by done. repeat split; try done.
  apply forallb_forall. intros r Hin. apply list_elem_of_In, update_where_elem in Hin as (r0 & Hin & ->).
  rewrite forallb_forall in H1. assert (row_ok r0 = true) as Hr0 by (by apply H1, list_elem_of_In).
  destruct (brow i r0 && guard r0) eqn:E; [|done]. apply Bool.andb_true_iff in E as [Ei Eg].
  assert (r0 = b) as ->; [|by apply Hok]. unfold brow, by_key in Ei. apply str_eqb_eq in Ei.
  apply get_row_Some in Hb as [Hin' Hid]. eapply (keys_unique_inj k_id); eauto. congruence.
Qed.

(** Moving items between statuses that both count as active content. *)
Lemma constraints_move i from to e t d :
  constraints d = true → Forall (λ s, s ∈ active_content) (to :: from) → constraints (move_items i from to e t d) = true.
Proof.
  intros Hc Hf. apply Forall_cons in Hf as [Hto Hf]. unfold constraints, move_items in *. simpl.
  set (sel := λ x, str_eqb (x_batch x) i && xstatus_in from (x_status x)).
  set (upd := λ x : bitem, x <| x_status := to |> <| x_error := e (x_error x) |> <| x_updated := t |>).
  assert (∀ x, xstatus_in active_content (x_status (if sel x then upd x else x)) = xstatus_in active_content (x_status x)) as Hact.
  { intros x. destruct (sel x) eqn:E; [|done]. apply Bool.andb_true_iff in E as [_ E].
    unfold xstatus_in in *. apply bool_decide_eq_true in E. rewrite (bool_decide_eq_true_2 (to ∈ _)) by done.
    symmetry. apply bool_decide_eq_true_2. by eapply Forall_forall in Hf. }
  rewrite update_where_filter by done. rewrite !update_where_map by done. rewrite update_where_omap by done.
  rewrite !Bool.andb_true_iff in *. repeat split; try tauto.
  apply forallb_forall. intros x Hin. apply list_elem_of_In, update_where_elem in Hin as (x0 & Hin & ->).
  destruct Hc as [[[[[[[_ H2] _] _] _] _] _] _]. rewrite forallb_forall in H2.
  specialize (H2 x0 ltac:(by apply list_elem_of_In)). by destruct (sel x0).
Qed.

(** ** How far the body came *)

Section invariant.
Context (w : submit_world) (i : str).
Hypothesis bytes_ok : match w_input_bytes w with Some n => 0 ≤ n | None => True end.

Definition uploading (b : batch_row) : Prop :=
  k_status b = BUploading ∧ k_upload_attempt b = Some (w_upload_attempt w) ∧ s_owner (k_side b) = Some (w_owner w).
Definition submitting (b : batch_row) : Prop :=
  k_status b = BSubmitting ∧ k_submission_attempt b = Some (w_submission_attempt w) ∧ s_owner (k_side b) = Some (w_owner w).
Definition reserved (d : bdb) : Prop := existsb (reserve_of i) (holds d) = true.

(** No upload, or one whose file the row has. *)
Definition uploads (cs : list remote_call) (b : batch_row) : Prop :=
  cs = [] ∨ ∃ f, cs = [UploadCall (Ok (Some f))] ∧ f ≠ [] ∧ rf_id (k_input b) = Some f.
Definition usable (r : result sexn (option str)) : bool :=
  match r with Ok f => opt_truthy f | Raise _ => true end.

Inductive stopped (e : sexn) (s : sub) (b : batch_row) : Prop :=
| BeforeCreate : uploads (calls s) b → stopped e s b
| InUpload r : w_upload w = r → calls s = [UploadCall r] → uploading b → upload_tried s = true →
    submission_tried s = false → remote_created s = false →
    r = Raise e ∨ (e = lifecycle "BATCH-UPLOAD-UNKNOWN" ∧ usable r = false) → stopped e s b
| UploadNotStored f : w_fails w 1 = true → e = uncoded → calls s = [UploadCall (Ok (Some f))] → f ≠ [] → uploading b →
    opt_truthy (rf_id (k_input b)) = false → submission_tried s = false → remote_created s = false → stopped e s b
| InCreate cs r : w_create w = r → calls s = cs ++ [CreateCall r] → uploads cs b → submitting b → reserved (sd s) →
    submission_tried s = true →
    (r = Raise e ∧ remote_created s = false)
    ∨ (remote_created s = true ∧ e_code e ≠ u "BATCH-ALREADY-CLAIMED") → stopped e s b.

Definition ready (s : sub) (b : batch_row) : Prop :=
  uploads (calls s) b ∧ submission_tried s = false ∧ remote_created s = false.
Definition started (s : sub) (b : batch_row) : Prop :=
  ∃ cs r, calls s = cs ++ [CreateCall (Ok r)] ∧ uploads cs b ∧ opt_truthy (rm_id r) = true
          ∧ k_remote_id b = rm_id r ∧ reserved (sd s).

Definition row_at (s : sub) (P : batch_row → Prop) : Prop :=
  constraints (sd s) = true ∧ ∃ b, get_batch (sd s) i = Some b ∧ k_cleanup b ≠ CleanupNotRequired ∧ P b.

Lemma uploading_guard b : uploading b →
  in_status BUploading b && sql_eq (k_upload_attempt b) (Some (w_upload_attempt w)) && owned (w_owner w) b = true.
Proof. unfold in_status, owned. intros (-> & -> & ->). simpl. by rewrite !str_eqb_refl. Qed.
Lemma submitting_guard b : submitting b →
  in_status BSubmitting b && sql_eq (k_submission_attempt b) (Some (w_submission_attempt w)) && owned (w_owner w) b = true.
Proof. unfold in_status, owned. intros (-> & -> & ->). simpl. by rewrite !str_eqb_refl. Qed.

(** A move that ends a claim keeps the row's CHECKs. *)
Lemma row_ok_moved b b' :
  row_ok b = true → k_cleanup b' ≠ CleanupNotRequired → s_version (k_side b') = s_version (k_side b) + 1 →
  k_counts b' = k_counts b →
  k_input_bytes b' = k_input_bytes b ∨ k_input_bytes b' = w_input_bytes w → row_ok b' = true.
Proof.
  intros H Hn Hv Hk Hb. unfold row_ok in *. rewrite Hv, Hk. rewrite (bool_decide_eq_false_2 (_ = _)) by done.
  rewrite !Bool.andb_true_iff in *. destruct H as [[[H1 H2] H3] _]. bprop.
  assert (match k_input_bytes b' with Some n => 0 <=? n | None => true end = true).
  { destruct Hb as [-> | ->]; [done|]. destruct (w_input_bytes w); [by apply Z.leb_le|done]. }
  split_and!; [apply Z.leb_le; lia|done..|by left].
Qed.

Lemma upload_part_ok s b :
  constraints (sd s) = true → get_batch (sd s) i = Some b → k_cleanup b ≠ CleanupNotRequired →
  opt_truthy (rf_id (k_input b)) = false →
  calls s = [] → submission_tried s = false → remote_created s = false →
  wp (upload_part w i) (λ x s', row_at s' (λ b, match x with Ok _ => ready s' b | Raise e => stopped e s' b end)) s.
Proof.
  intros Hc Hb Hn Hnf Hcalls Hs Hr. unfold upload_part.
  assert (∀ s' b' e, constraints (sd s') = true → get_batch (sd s') i = Some b' → k_cleanup b' ≠ CleanupNotRequired →
    calls s' = [] → row_at s' (λ b, stopped e s' b)) as Hearly.
  { intros s' b' e H1 H2 H3 H4. split; [done|]. exists b'. repeat split; try done. apply BeforeCreate. by left. }
  apply submit_bind. unfold wp at 1. cbn [mark_upload modify fst snd].
  apply submit_bind, wp_reply. destruct (w_upload_lease w) as [lease|e]; [|by eapply Hearly].
  apply submit_bind.
  eapply (wp_cas i _ _ _ b); [done|done|done|intros _; by eapply Hearly|intros _; by eapply Hearly|intros _; by eapply Hearly|].
  intros d1 _ _ Hc1 Hb1. unfold on_db. cbn [sd upload_tried submission_tried remote_created calls].
  match type of Hb1 with _ = Some ?x => set (b1 := x) in Hb1 end.
  assert (k_cleanup b1 = k_cleanup b ∧ uploading b1 ∧ rf_id (k_input b1) = rf_id (k_input b)) as (Hn1 & Hu1 & Hf1)
    by (by destruct b).
  rewrite <- Hn1 in Hn. rewrite <- Hf1 in Hnf. clearbody b1. clear Hc Hb Hn1 Hf1. rewrite Hs, Hr, Hcalls. clear Hs Hr Hcalls.
  apply submit_bind, wp_require; [intros _|done].
  apply submit_bind, (wp_current _ _ _ b1); [done| |by eapply Hearly].
  apply submit_bind, wp_require; [intros Hbytes|intros _; by eapply Hearly].
  apply submit_bind, wp_check; [|intros; by eapply Hearly].
  apply submit_bind, wp_check; [|intros; by eapply Hearly].
  apply submit_bind. unfold wp at 1. cbn [record_call modify fst snd sd upload_tried submission_tried remote_created calls app].
  apply submit_bind, wp_reply.
  destruct (w_upload w) as [file|e] eqn:Eu.
  2: { split; [done|]. exists b1. repeat split; try done. eapply InUpload; eauto. }
  destruct (usable (Ok file)) eqn:Eus.
  2: { assert (∃ x, file = x ∧ (x = None ∨ x = Some [])) as (? & -> & [-> | ->]).
       { exists file. split; [done|]. destruct file as [[|]|]; auto; done. }
       all: split; [done|]; exists b1; repeat split; try done; eapply InUpload; eauto. }
  destruct file as [[|c f]|]; try done.
  apply submit_bind. eapply (wp_cas i _ _ _ b1); [done|done|done| | | | ].
  - intros Ef. split; [done|]. exists b1. repeat split; try done. by eapply UploadNotStored.
  - cbn [sd]. rewrite (constraints_cas i _ _ d1 b1); try done.
    intros _ Hok. eapply row_ok_moved; [exact Hok|..]; auto.
  - intros E. by rewrite uploading_guard in E.
  - intros d2 _ _ Hc2 Hb2. split; [done|]. eexists. split; [exact Hb2|]. repeat split; try done.
    right. exists (c :: f). done.
Qed.

(** What [complete_submission] leaves: nothing, or the bound row. *)
Lemma complete_submission_cases d t a o r b st d' :
  constraints d = true → get_batch d i = Some b → opt_truthy (rm_id r) = true →
  complete_submission d t i a o r = Ok (st, d') →
  (st = None ∧ d' = d)
  ∨ (∃ b', is_Some st ∧ constraints d' = true ∧ holds d' = holds d ∧ get_batch d' i = Some b' ∧ k_remote_id b' = rm_id r
           ∧ k_input b' = k_input b ∧ k_cleanup b' = k_cleanup b).
Proof.
  intros Hc Hb Hr H. unfold complete_submission in H. rewrite Hb in H. unfold or_else in H. rewrite Hr in H.
  apply rbind_ok in H as (? & _ & H). apply rbind_ok in H as (? & _ & H).
  destruct (local_status _) as [l|]; [|injection H as <- <-; by left].
  destruct (_ || _); [injection H as <- <-; by left|].
  do 4 (apply rbind_ok in H as (? & _ & H)).
  match type of H with context [cas i ?g ?f d] => set (guard := g) in H; set (upd := f) in H end.
  pose proof (cas_hit i guard upd d b Hc Hb) as Hhit. pose proof (cas_miss i guard upd d) as Hmiss.
  destruct (cas i guard upd d) as [hit d1] eqn:E. cbn [fst snd] in *. subst hit.
  destruct (guard b) eqn:Eg; cbn [negb] in H; [|injection H as <- <-; left; by rewrite Hmiss].
  right. exists (upd b). unfold commit in H.
  match type of H with context [constraints ?x] => destruct (constraints x) eqn:Ec; [|discriminate H] end.
  injection H as <- <-. apply (f_equal snd) in E. cbn [snd] in E. subst d1.
  split_and!; [eauto|done|done| | |done|done].
  - change (get_batch (cas i guard upd d).2 i = Some (upd b)). by apply get_batch_cas.
  - by destruct (rm_id r) as [[|]|].
Qed.

Lemma grant_row b amount d : get_batch (grant w i b amount d) i = get_batch d i.
Proof. unfold grant. by destruct (existsb _ _). Qed.
Lemma grant_constraints b amount d : constraints (grant w i b amount d) = constraints d.
Proof. unfold grant. by destruct (existsb _ _). Qed.
Lemma grant_reserved b amount d : reserved (grant w i b amount d).
Proof.
  unfold grant, reserved. destruct (existsb _ (holds d)) eqn:E; [done|]. cbv zeta. simpl.
  unfold upsert_reservation. cbn [rv_id]. apply existsb_elem. destruct (has_key _ _ _) eqn:Ek.
  - unfold has_key in Ek. apply existsb_elem in Ek as (y & Hy & Hk). eexists. split.
    + apply update_where_elem. exists y. split; [done|]. by rewrite Hk.
    + unfold reserve_of. simpl. by rewrite str_eqb_refl.
  - eexists. split; [apply elem_of_app; right; by apply list_elem_of_singleton|].
    unfold reserve_of. simpl. by rewrite str_eqb_refl.
Qed.

Lemma submit_part_ok s b :
  constraints (sd s) = true → get_batch (sd s) i = Some b → k_cleanup b ≠ CleanupNotRequired → ready s b →
  wp (submit_part w i) (λ x s', row_at s' (λ b, match x with Ok _ => started s' b | Raise e => stopped e s' b end)) s.
Proof.
  intros Hc Hb Hn (Hu & Hs & Hr). unfold submit_part.
  assert (∀ s' b' e, constraints (sd s') = true → get_batch (sd s') i = Some b' → k_cleanup b' ≠ CleanupNotRequired →
    uploads (calls s') b' → row_at s' (λ b, stopped e s' b)) as Hearly.
  { intros s' b' e H1 H2 H3 H4. split; [done|]. exists b'. repeat split; try done. by apply BeforeCreate. }
  apply submit_bind. unfold wp at 1, uploaded_row.
  destruct (w_fails w 22); [cbn [fst snd]; by eapply Hearly|]. rewrite Hb.
  destruct (opt_truthy (rf_id (k_input b))) eqn:Hf; cbn [fst snd]; [|by eapply Hearly].
  apply submit_bind. unfold wp at 1. cbn [mark_submission modify fst snd].
  apply submit_bind, wp_reply. destruct (w_submission_lease w) as [lease|e]; [|by eapply Hearly].
  apply submit_bind.
  eapply (wp_cas i _ _ _ b); [done|done|done|intros _; by eapply Hearly|intros _; by eapply Hearly|intros _; by eapply Hearly|].
  intros d1 _ _ Hc1 Hb1. unfold on_db. cbn [sd upload_tried submission_tried remote_created calls].
  match type of Hb1 with _ = Some ?x => set (b1 := x) in Hb1 end.
  assert (k_cleanup b1 = k_cleanup b ∧ submitting b1 ∧ k_input b1 = k_input b) as (Hn1 & Hu1 & Hf1)
    by (by destruct b).
  assert (uploads (calls s) b1) as Hup by (unfold uploads in *; by rewrite Hf1).
  rewrite <- Hn1 in Hn. clearbody b1. clear Hc Hb Hn1 Hf1 Hu Hf. rewrite Hr. clear Hr Hs.
  apply submit_bind, wp_require; [intros _|done].
  apply submit_bind, wp_check; [|intros; by eapply Hearly].
  apply submit_bind, wp_reply. destruct (w_reserve w) as [amount|e]; [|by eapply Hearly].
  apply submit_bind. unfold wp at 1. cbn [modify fst snd]. unfold on_db. cbn [sd upload_tried submission_tried remote_created calls].
  pose proof (grant_reserved b amount d1) as Hres. rewrite <- (grant_constraints b amount d1) in Hc1.
  rewrite <- (grant_row b amount d1) in Hb1. set (d2 := grant w i b amount d1) in *. clearbody d2.
  apply submit_bind, wp_check; [|intros; by eapply Hearly].
  apply submit_bind. unfold wp at 1. cbn [record_call modify fst snd sd upload_tried submission_tried remote_created calls].
  apply submit_bind, wp_reply. destruct (w_create w) as [r|e] eqn:Ew.
  2: { split; [done|]. exists b1. repeat split; try done. eapply InCreate; eauto. }
  apply submit_bind. unfold wp at 1. cbn [mark_created modify fst snd sd upload_tried submission_tried remote_created calls].
  apply submit_bind, wp_require; [intros Hid|intros _].
  2: { split; [done|]. exists b1. repeat split; try done. eapply InCreate; eauto. }
  apply submit_bind. unfold wp at 1, transact. cbn [sd].
  destruct (w_fails w 4); [cbn [fst snd]; split; [done|]; exists b1; repeat split; try done; eapply InCreate; eauto|].
  destruct (complete_submission d2 _ _ _ _ _) as [[st d3]|x] eqn:E.
  2: { split; [done|]. exists b1. repeat split; try done. eapply InCreate; eauto. }
  eapply complete_submission_cases in E as [[-> ->]|(b3 & Hst & Hc3 & Hh & Hb3 & Hr3 & Hi3 & Hn3)]; [| |exact Hc1|exact Hb1|exact Hid].
  - split; [done|]. exists b1. repeat split; try done. eapply InCreate; eauto.
  - destruct Hst as [l ->]. split; [done|]. exists b3. rewrite Hn3. split_and!; try done.
    exists (calls s), r. unfold uploads in *. rewrite Hi3. split_and!; try done. unfold reserved in *.
    change (existsb (reserve_of i) (holds d3) = true). by rewrite Hh.
Qed.

Lemma body_ok s b :
  constraints (sd s) = true → get_batch (sd s) i = Some b → k_cleanup b ≠ CleanupNotRequired →
  calls s = [] → submission_tried s = false → remote_created s = false →
  wp (submit_body w i) (λ x s', row_at s' (λ b, match x with Ok _ => started s' b | Raise e => stopped e s' b end)) s.
Proof.
  intros Hc Hb Hn Hcalls Hs Hr. unfold submit_body.
  assert (∀ e, row_at s (λ b, stopped e s b)) as Hearly.
  { intros e. split; [done|]. exists b. repeat split; try done. apply BeforeCreate. by left. }
  apply submit_bind, wp_check; [|auto]. apply submit_bind, (wp_current _ _ _ b); [done| |auto].
  apply submit_bind. destruct (opt_truthy _) eqn:Hnf.
  - apply (submit_part_ok s b); try done. split; [by left|done].
  - eapply submit_mono; [by eapply upload_part_ok|]. intros [[]|e] s' (Hc' & b' & Hb' & Hn' & H).
    + by eapply submit_part_ok.
    + split; [done|]. eauto.
Qed.

(** ** What the handler keeps *)

Definition file_kept (d d' : bdb) : Prop :=
  ∀ b, get_batch d i = Some b → ∃ b', get_batch d' i = Some b' ∧ rf_id (k_input b') = rf_id (k_input b).

Lemma file_kept_refl d : file_kept d d.
Proof. intros b H. eauto. Qed.
Lemma file_kept_trans d1 d2 d3 : file_kept d1 d2 → file_kept d2 d3 → file_kept d1 d3.
Proof. intros H1 H2 b Hb. destruct (H1 b Hb) as (b2 & Hb2 & E2). destruct (H2 b2 Hb2) as (b3 & Hb3 & E3). exists b3. split; [done|congruence]. Qed.
Lemma file_kept_rows d d' : rows d' = rows d → file_kept d d'.
Proof. intros E b Hb. exists b. unfold get_batch in *. by rewrite E. Qed.
Lemma file_kept_update d d' sel f :
  rows d' = update_where sel f (rows d) → (∀ b, k_id (f b) = k_id b) → (∀ b, k_input (f b) = k_input b) →
  file_kept d d'.
Proof.
  intros E Hk Hf b Hb. unfold get_batch in *. rewrite E, get_row_update, Hb by done. simpl.
  eexists. split; [done|]. destruct (sel b); [by rewrite Hf|done].
Qed.

Lemma attempt_kept {A} fails (m : bdb → result berror (A * bdb)) k d d0 :
  file_kept d0 d → (∀ x d', m d = Ok (x, d') → file_kept d d') → (∀ d', file_kept d0 d' → file_kept d0 (snd (k d'))) →
  file_kept d0 (snd (attempt fails m k d)).
Proof.
  intros H0 Hm Hk. unfold attempt. destruct fails; [done|]. destruct (m d) as [[x d']|] eqn:E; [|done].
  apply Hk. eapply file_kept_trans; [done|]. by eapply Hm.
Qed.

Lemma commit_inv {A} (a : A) d x d' : commit a d = Ok (x, d') → x = a ∧ d' = d ∧ constraints d = true.
Proof. unfold commit. destruct (constraints d); [|discriminate]. intros H. injection H as -> ->. done. Qed.

Lemma kept_cas t (g : batch_row → bool) f x d d' :
  (∀ b, k_id (f b) = k_id b) → (∀ b, k_input (f b) = k_input b) →
  cas_commit t g f d = Ok (x, d') → file_kept d d'.
Proof. unfold cas_commit. cbn [cas]. intros Hk Hf (-> & -> & _)%commit_inv. by eapply file_kept_update. Qed.

Lemma kept_update_batch t j f x d d' :
  (∀ b, k_id (f b) = k_id b) → (∀ b, k_input (f b) = k_input b) →
  update_batch d t j f = Ok (x, d') → file_kept d d'.
Proof.
  unfold update_batch. intros Hk Hf (? & _ & H)%rbind_ok. apply commit_inv in H as (_ & -> & _).
  eapply (file_kept_update _ _ (brow j) (λ b, touch t (f b))); [done|apply Hk|apply Hf].
Qed.

Lemma kept_update_item t j f x d d' : update_item d t j f = Ok (x, d') → file_kept d d'.
Proof. unfold update_item. intros (? & _ & H)%rbind_ok. apply commit_inv in H as (_ & -> & _). by apply file_kept_rows. Qed.

Lemma kept_hold t j c x d d' : hold_prepared_for_credit d t j c = Ok (x, d') → file_kept d d'.
Proof. unfold hold_prepared_for_credit. intros (_ & -> & _)%commit_inv. by eapply file_kept_update. Qed.

Lemma kept_upload_unknown t a o c m x d d' : mark_upload_unknown d t i a o c m = Ok (x, d') → file_kept d d'.
Proof.
  unfold mark_upload_unknown. cbn [cas]. intros (_ & -> & _)%commit_inv.
  destruct (existsb _ _); by eapply file_kept_update.
Qed.
Lemma kept_submission_unknown t a o c m x d d' : mark_submission_unknown d t i a o c m = Ok (x, d') → file_kept d d'.
Proof.
  unfold mark_submission_unknown. cbn [cas]. intros (_ & -> & _)%commit_inv.
  destruct (existsb _ _); by eapply file_kept_update.
Qed.
Lemma kept_fail_local t c m js sib x d d' : fail_local_batch d t i c m js sib = Ok (x, d') → file_kept d d'.
Proof.
  unfold fail_local_batch. intros (? & _ & H)%rbind_ok. destruct (get_batch d i) as [b|]; [|discriminate H].
  apply rbind_ok in H as (? & _ & H). cbv zeta in H.
  destruct (negb _); [|destruct (k_job b) as [[|]|]]; apply commit_inv in H as (_ & -> & _);
    by eapply file_kept_update.
Qed.

Lemma kept_queue fails f k d0 d : file_kept d0 d → (∀ d', file_kept d0 d' → file_kept d0 (snd (k d'))) →
  file_kept d0 (snd (on_queue fails f k d)).
Proof.
  intros H Hk. unfold on_queue. destruct fails; [done|]. apply Hk. eapply file_kept_trans; [done|]. by apply file_kept_rows.
Qed.

Lemma kept_pause e b d0 d : file_kept d0 d → file_kept d0 (snd (pause_for_credit w i e b d)).
Proof.
  intros H. unfold pause_for_credit. destruct b as [b|]; [|done]. destruct (k_job b) as [[|c j]|]; [done| |done].
  destruct (str_eqb _ _); [|done]. apply kept_queue; [done|]. intros d1 H1.
  apply attempt_kept; [done|intros ? ?; apply kept_hold|]. intros d2 H2. by apply kept_queue.
Qed.

Lemma kept_reject_items c t j xs k d0 d :
  file_kept d0 d → (∀ d, file_kept d0 d → file_kept d0 (snd (k d))) →
  file_kept d0 (snd (reject_items w c t j xs k d)).
Proof.
  intros H Hk. revert d H. induction xs as [|x xs IH]; intros d H; cbn [reject_items]; [auto|].
  destruct (xstatus_in _ _); [|auto]. apply attempt_kept; [done|intros ? ?; by apply kept_update_item|].
  intros d' H'. destruct (x_job_item x) as [[|]|]; [by apply IH| |by apply IH]. apply kept_queue; [done|exact IH].
Qed.

Lemma kept_reject c t b k d0 d :
  file_kept d0 d → (∀ d, file_kept d0 d → file_kept d0 (snd (k d))) →
  file_kept d0 (snd (reject_uploaded w i c t b k d)).
Proof.
  intros H Hk. unfold reject_uploaded. apply attempt_kept; [done|intros ? ?; by apply kept_update_batch|].
  intros d1 H1. apply kept_reject_items; [done|]. intros d2 H2. apply attempt_kept; [done| |done].
  intros ? ?. by apply kept_cas.
Qed.

Lemma kept_handler e s : file_kept (sd s) (snd (handler w i e s)).
Proof.
  unfold handler. cbv zeta. destruct (w_fails w 24); [apply file_kept_refl|]. set (definite := negb _ && _).
  destruct (definite && w_fails w 25); [apply file_kept_refl|]. set (d := if definite then release_reserve i (sd s) else sd s).
  assert (file_kept (sd s) d) as Hd by (unfold d; destruct definite; by apply file_kept_rows). clearbody d.
  match goal with |- context [if ?c && w_fails w 26 then _ else _] => destruct (c && w_fails w 26) end; [done|].
  match goal with |- context [match ?x with Some _ => _ | None => _ end] => destruct x as [j|] end.
  - unfold hold_for_credit. apply attempt_kept; [done|intros ? ?; by apply kept_update_batch|]. intros d1 H1.
    apply attempt_kept; [done|intros ? ?; by apply kept_cas|]. intros d2 H2. apply kept_queue; [done|]. intros d3 H3.
    apply attempt_kept; [done|intros ? ?; apply kept_hold|done].
  - destruct (_ || _); [done|]. unfold dispose. cbv zeta.
    do 3 (match goal with |- context [if ?c then attempt _ _ _ else _] => destruct c end; [apply attempt_kept;
      [done|intros ? ?; first [apply kept_submission_unknown|apply kept_upload_unknown]|intros; by apply kept_pause]|]).
    destruct (get_batch _ _) as [b|]; [destruct (opt_truthy _)|].
    + apply kept_reject; [done|]. intros. by apply kept_pause.
    + apply attempt_kept; [done|intros ? ?; apply kept_fail_local|intros; by apply kept_pause].
    + apply attempt_kept; [done|intros ? ?; apply kept_fail_local|intros; by apply kept_pause].
Qed.

(** Memberships in closed lists. *)
Ltac by_decide := apply (bool_decide_unpack _); by vm_compute.

(** ** The marks of the handler hit *)

(** The row has status [st], and the reserves are those of [d0]. *)
Definition ended_in (st : bstatus) (d0 d : bdb) : Prop :=
  holds d = holds d0 ∧ ∃ b, get_batch d i = Some b ∧ k_status b = st.

Lemma marked_hit d guard f from to er t b :
  constraints d = true → get_batch d i = Some b → guard b = true → (∀ b, k_id (f b) = k_id b) →
  (∀ b, k_remote_id (f b) = k_remote_id b) → (row_ok b = true → row_ok (f b) = true) →
  Forall (λ s, s ∈ active_content) (to :: from) →
  (let '(hit, d1) := cas i guard f d in commit hit (if hit then move_items i from to er t d1 else d1))
  = Ok (true, move_items i from to er t (snd (cas i guard f d))).
Proof.
  intros Hc Hb Hg Hk Hr Hok Hf. pose proof (cas_hit i guard f d b Hc Hb) as Hhit. rewrite Hg in Hhit.
  assert (constraints (snd (cas i guard f d)) = true) as Hc1 by (eapply constraints_cas; eauto).
  destruct (cas i guard f d) as [hit d1]. cbn [fst snd] in *. subst hit. unfold commit.
  by rewrite constraints_move.
Qed.

Lemma ended_hold st d0 d t j c x d' :
  ended_in st d0 d → hold_prepared_for_credit d t j c = Ok (x, d') → ended_in st d0 d'.
Proof.
  intros (Hh & r & Hr & Hs) E. unfold hold_prepared_for_credit in E. apply commit_inv in E as (_ & -> & _).
  split; [done|]. unfold get_batch in *. simpl. rewrite get_row_update, Hr by done. simpl.
  eexists. split; [done|]. by destruct (_ && _).
Qed.

Lemma pause_ended st e b d0 d : ended_in st d0 d → ended_in st d0 (snd (pause_for_credit w i e b d)).
Proof.
  intros H. unfold pause_for_credit, on_queue, attempt. destruct b as [b|]; [|done].
  destruct (k_job b) as [[|c j]|]; [done| |done]. destruct (str_eqb _ _); [|done].
  destruct (w_fails w 8); [done|]. destruct (w_fails w 9); [done|].
  destruct (hold_prepared_for_credit _ _ _ _) as [[x d']|] eqn:E; [|done].
  apply (ended_hold st d0) in E; [|done]. by destruct (w_fails w 10).
Qed.

(** The row was marked [st], or a statement failed and it is still as it was. *)
Definition marked_or_stuck (st : bstatus) (d0 d : bdb) : Prop :=
  ended_in st d0 d ∨ (d = d0 ∧ ∃ n, w_fails w n = true).

Lemma stuck st d n : w_fails w n = true → marked_or_stuck st d d.
Proof. intros H. right. eauto. Qed.

Lemma submission_marked t c m b k d :
  constraints d = true → get_batch d i = Some b → submitting b → k_cleanup b ≠ CleanupNotRequired →
  (∀ d', ended_in BSubmissionUnknown d d' → ended_in BSubmissionUnknown d (snd (k d'))) →
  marked_or_stuck BSubmissionUnknown d
    (snd (attempt (w_fails w 5) (λ d, mark_submission_unknown d t i (w_submission_attempt w) (w_owner w) c m) k d)).
Proof.
  intros Hc Hb Hs Hn Hk. unfold attempt. destruct (w_fails w 5) eqn:Ef; [by eapply stuck|left].
  unfold mark_submission_unknown. pose proof (submitting_guard b Hs) as Hg.
  match goal with |- context [cas i ?g ?f d] => set (guard := g) in *; set (upd := f) in * end.
  rewrite (marked_hit d guard upd _ _ _ _ b); try done.
  - apply Hk. split; [done|]. exists (upd b). split; [by apply (get_batch_cas i guard)|done].
  - intros Hok. eapply row_ok_moved; [exact Hok|done..|by left].
  - by_decide.
Qed.

Lemma upload_marked t c m b k d :
  constraints d = true → get_batch d i = Some b → uploading b → k_cleanup b ≠ CleanupNotRequired →
  (∀ d', ended_in BUploadUnknown d d' → ended_in BUploadUnknown d (snd (k d'))) →
  marked_or_stuck BUploadUnknown d
    (snd (attempt (w_fails w 5) (λ d, mark_upload_unknown d t i (w_upload_attempt w) (w_owner w) c m) k d)).
Proof.
  intros Hc Hb Hs Hn Hk. unfold attempt. destruct (w_fails w 5) eqn:Ef; [by eapply stuck|left].
  unfold mark_upload_unknown. pose proof (uploading_guard b Hs) as Hg.
  match goal with |- context [cas i ?g ?f d] => set (guard := g) in *; set (upd := f) in * end.
  rewrite (marked_hit d guard upd _ _ _ _ b); try done.
  - apply Hk. split; [done|]. exists (upd b). split; [by apply (get_batch_cas i guard)|done].
  - intros Hok. eapply row_ok_moved; [exact Hok|done..|by left].
  - by_decide.
Qed.

(** Provider exceptions never carry the service's own lifecycle codes. *)
Definition foreign (e : sexn) : Prop :=
  e_code e ∉ map u ["BATCH-ALREADY-CLAIMED"; "BATCH-CLAIM-STALE"; "BATCH-UPLOAD-UNKNOWN"]%string.

Lemma foreign_eqb e c : foreign e → c ∈ ["BATCH-ALREADY-CLAIMED"; "BATCH-CLAIM-STALE"; "BATCH-UPLOAD-UNKNOWN"]%string →
  str_eqb (e_code e) (u c) = false.
Proof.
  intros Hf Hc. destruct (str_eqb _ _) eqn:E; [|done]. apply str_eqb_eq in E. destruct Hf. rewrite E.
  by apply list_elem_of_fmap_2.
Qed.

(** The read of the parent job. *)
Ltac parent_read :=
  match goal with |- context [if ?c && w_fails w 26 then _ else _] =>
    let E := fresh in destruct (c && w_fails w 26) eqn:E; [apply Bool.andb_true_iff in E as [_ E]; by eapply stuck|clear E]
  end.

(** An ambiguous upload ends in upload_unknown. *)
Lemma handler_upload e s b :
  constraints (sd s) = true → get_batch (sd s) i = Some b → k_cleanup b ≠ CleanupNotRequired → uploading b →
  upload_tried s = true → submission_tried s = false → remote_created s = false →
  (foreign e ∧ e_ambiguous e = true) ∨ e = lifecycle "BATCH-UPLOAD-UNKNOWN" →
  marked_or_stuck BUploadUnknown (sd s) (snd (handler w i e s)).
Proof.
  intros Hc Hb Hn Hu Ht Hs Hr He.
  assert (ambiguous_failure e = true) as Ha.
  { unfold ambiguous_failure. destruct He as [[_ ->] | ->]; done. }
  assert (str_eqb (e_code e) (u "BATCH-ALREADY-CLAIMED") || (str_eqb (e_code e) (u "BATCH-CLAIM-STALE") && true) = false) as Hcode.
  { destruct He as [[Hf _] | ->]; [rewrite !foreign_eqb by (done || by_decide); done|done]. }
  unfold handler, dispose. cbv zeta. destruct (w_fails w 24) eqn:E24; [by eapply stuck|].
  rewrite Ha, Hr, Hb, Hs, Ht. cbn [negb andb].
  parent_read. rewrite Bool.andb_false_r. cbn [andb]. rewrite Hcode. destruct Hu as (Hst & Hat & Ho).
  assert (in_status BUploading b = true) as -> by (unfold in_status; by rewrite Hst).
  rewrite Bool.orb_true_r. cbn [andb]. apply (upload_marked _ _ _ b); try done.
  intros d'. apply pause_ended.
Qed.

(** A create call that may have worked ends in submission_unknown. *)
Lemma handler_create e s b :
  constraints (sd s) = true → get_batch (sd s) i = Some b → k_cleanup b ≠ CleanupNotRequired → submitting b →
  submission_tried s = true →
  (foreign e ∧ e_ambiguous e = true ∧ remote_created s = false)
  ∨ (remote_created s = true ∧ e_code e ≠ u "BATCH-ALREADY-CLAIMED") →
  marked_or_stuck BSubmissionUnknown (sd s) (snd (handler w i e s)).
Proof.
  intros Hc Hb Hn Hu Hs He.
  assert (in_status BUploading b = false) as Hst by (unfold in_status; destruct Hu as [-> _]; done).
  unfold handler, dispose. cbv zeta. destruct (w_fails w 24) eqn:E24; [by eapply stuck|]. rewrite Hb, Hs, Hst.
  destruct He as [(Hf & Ha & Hr)|[Hr Hcode]]; rewrite Hr.
  - assert (ambiguous_failure e = true) as -> by (unfold ambiguous_failure; by rewrite Ha).
    cbn [negb andb]. parent_read. rewrite Bool.andb_false_r. cbn [andb]. rewrite !foreign_eqb by (done || by_decide).
    cbn [orb andb]. apply (submission_marked _ _ _ b); try done. intros d'. apply pause_ended.
  - cbn [negb]. rewrite !Bool.andb_false_r. cbn [andb]. parent_read.
    assert (str_eqb (e_code e) (u "BATCH-ALREADY-CLAIMED") = false) as ->.
    { destruct (str_eqb _ _) eqn:E; [|done]. by apply str_eqb_eq in E. }
    cbn [orb]. apply (submission_marked _ _ _ b); try done. intros d'. apply pause_ended.
Qed.
(** A stored row whose file could not be saved is failed at most. *)
Lemma fail_local_status t c m js sib x d d' b :
  fail_local_batch d t i c m js sib = Ok (x, d') → get_batch d i = Some b →
  ∃ b', get_batch d' i = Some b' ∧ (k_status b' = k_status b ∨ k_status b' = BFailed).
Proof.
  unfold fail_local_batch. intros (? & _ & H)%rbind_ok Hb. rewrite Hb in H. apply rbind_ok in H as (? & _ & H).
  cbv zeta in H.
  assert (∀ sel f, (∀ y, k_id (f y) = k_id y) → (∀ y, k_status (f y) = BFailed) →
    rows d' = update_where sel f (rows d) →
    ∃ b', get_batch d' i = Some b' ∧ (k_status b' = k_status b ∨ k_status b' = BFailed)) as Hup.
  { intros sel f Hk Hst E. unfold get_batch in *. rewrite E, get_row_update, Hb by done. simpl. eexists. split; [done|].
    destruct (sel b); auto. }
  destruct (negb _); [|destruct (k_job b) as [[|]|]]; apply commit_inv in H as (_ & -> & _);
    (eapply Hup; [| |reflexivity]; done).
Qed.

Lemma handler_not_stored s b :
  get_batch (sd s) i = Some b → uploading b → opt_truthy (rf_id (k_input b)) = false →
  submission_tried s = false → remote_created s = false →
  ∃ b', get_batch (snd (handler w i uncoded s)) i = Some b' ∧ k_status b' ∈ [BUploading; BFailed].
Proof.
  intros Hb (Hst & _) Hf Hs Hr.
  assert (∀ d, rows d = rows (sd s) → ∃ b', get_batch d i = Some b' ∧ k_status b' ∈ [BUploading; BFailed]) as Hsame.
  { intros d E. exists b. unfold get_batch in *. rewrite E, Hst. split; [done|]. by left. }
  unfold handler. cbv zeta. destruct (w_fails w 24); [by apply Hsame|].
  change (ambiguous_failure uncoded) with false. rewrite Hr. cbn [negb andb].
  destruct (w_fails w 25); [by apply Hsame|]. destruct (_ && w_fails w 26); [by apply Hsame|].
  change (credit_failure (e_code uncoded)) with false. rewrite Bool.andb_false_r.
  unfold dispose. cbv zeta. change (ambiguous_failure uncoded) with false. rewrite Hr, Hb, Hf. cbn [andb].
  change (str_eqb (e_code uncoded) _ || (str_eqb (e_code uncoded) (u "BATCH-CLAIM-STALE") && negb false)) with false.
  cbv iota. unfold attempt. destruct (w_fails w 5); [by apply Hsame|].
  destruct (fail_local_batch _ _ _ _ _ _ _) as [[x d']|] eqn:E; [|by apply Hsame].
  apply (fail_local_status _ _ _ _ _ _ _ _ b) in E as (b' & Hb' & E); [|done]. exists b'.
  split; [|rewrite !elem_of_cons; destruct E; [left; congruence|by right; left]].
  unfold pause_for_credit. destruct (k_job b) as [[|]|]; done.
Qed.
End invariant.

(** A call whose outcome is not known for certain: the Batch is held, or even
    the hold could not be stored and the claim still stands. *)
Definition held (w : submit_world) (b : batch_row) (unknown claimed : bstatus) : Prop :=
  k_status b = unknown ∨ (k_status b = claimed ∧ ∃ n, w_fails w n = true).

(** What the tables say of a remote call that was made. *)
Definition recorded (w : submit_world) (i : str) (failed : bool) (d : bdb) (b : batch_row) (c : remote_call) : Prop :=
  match c with
  | UploadCall (Ok f) =>
      if opt_truthy f
      then rf_id (k_input b) = f ∨ (w_fails w 1 = true ∧ k_status b ∈ [BUploading; BFailed])
      else held w b BUploadUnknown BUploading
  | UploadCall (Raise e) => e_ambiguous e = true → held w b BUploadUnknown BUploading
  | CreateCall (Ok r) =>
      existsb (reserve_of i) (holds d) = true
      ∧ if failed then held w b BSubmissionUnknown BSubmitting
        else opt_truthy (rm_id r) = true ∧ k_remote_id b = rm_id r
  | CreateCall (Raise e) =>
      e_ambiguous e = true → existsb (reserve_of i) (holds d) = true ∧ held w b BSubmissionUnknown BSubmitting
  end.

Definition remote_shape (cs : list remote_call) : Prop :=
  cs = [] ∨ (∃ r, cs = [UploadCall r]) ∨ (∃ r, cs = [CreateCall r]) ∨ ∃ f r, cs = [UploadCall (Ok (Some f)); CreateCall r].

Lemma uploads_recorded w i failed d cs b b' c :
  uploads cs b → rf_id (k_input b') = rf_id (k_input b) → c ∈ cs → recorded w i failed d b' c.
Proof.
  intros [-> | (f & -> & Hf & Hi)] E Hc; [by apply elem_of_nil in Hc|]. apply list_elem_of_singleton in Hc as ->.
  simpl. destruct f; [done|]. simpl. left. by rewrite E.
Qed.

Lemma uploads_shape cs b r : uploads cs b → remote_shape cs ∧ remote_shape (cs ++ [CreateCall r]).
Proof. unfold remote_shape. intros [-> | (f & -> & _)]; simpl; eauto 10. Qed.

Lemma stopped_shape w i e s b : stopped w i e s b → remote_shape (calls s).
Proof.
  intros [Hu|r _ -> _ _ _ _ _|f _ _ -> _ _ _ _ _|cs r _ -> Hu _ _ _ _].
  - by eapply (uploads_shape _ _ (Raise e)) in Hu as [? _].
  - right. left. eauto.
  - right. left. eauto.
  - by eapply uploads_shape.
Qed.

Lemma stopped_recorded w i e s b b2 d2 c :
  (∀ e, w_upload w = Raise e → foreign e) → (∀ e, w_create w = Raise e → foreign e) →
  match w_input_bytes w with Some n => 0 ≤ n | None => True end →
  constraints (sd s) = true → get_batch (sd s) i = Some b → k_cleanup b ≠ CleanupNotRequired →
  stopped w i e s b → snd (handler w i e s) = d2 → get_batch d2 i = Some b2 →
  rf_id (k_input b2) = rf_id (k_input b) → c ∈ calls s → recorded w i true d2 b2 c.
Proof.
  intros Hfu Hfc Hby Hc Hb Hn Hst Hd Hb2 Hf Hin.
  destruct Hst as [Hu|r Hr Hcs Hu Ht Hs Hcr He|f E1 -> Hcs Hne Hu Hnf Hs Hcr|cs r Hr Hcs Hu Hsub Hres Hs He].
  - by eapply uploads_recorded.
  - rewrite Hcs in Hin. apply list_elem_of_singleton in Hin as ->.
    assert ((foreign e ∧ e_ambiguous e = true) ∨ e = lifecycle "BATCH-UPLOAD-UNKNOWN" → held w b2 BUploadUnknown BUploading) as Hgo.
    { intros Hx. destruct (handler_upload w i Hby e s b) as [(_ & b3 & Hb3 & Hs3)|[E Hn1]]; try done; rewrite Hd in *.
      - rewrite Hb2 in Hb3. injection Hb3 as <-. by left.
      - right. split; [|done]. rewrite E, Hb in Hb2. injection Hb2 as <-. by destruct Hu as [-> _]. }
    destruct He as [-> | [-> Hus]]; simpl; [auto|]. destruct r as [f|]; simpl in *; [rewrite Hus; auto|done].
  - rewrite Hcs in Hin. apply list_elem_of_singleton in Hin as ->.
    destruct (handler_not_stored w i s b) as (b3 & Hb3 & Hs3); try done. rewrite Hd, Hb2 in Hb3. injection Hb3 as <-.
    destruct f; [done|]. by right.
  - rewrite Hcs in Hin. apply elem_of_app in Hin as [Hin|Hin]; [by eapply uploads_recorded|].
    apply list_elem_of_singleton in Hin as ->.
    assert ((foreign e ∧ e_ambiguous e = true ∧ remote_created s = false)
            ∨ (remote_created s = true ∧ e_code e ≠ u "BATCH-ALREADY-CLAIMED") →
            existsb (reserve_of i) (holds d2) = true ∧ held w b2 BSubmissionUnknown BSubmitting) as Hgo.
    { intros Hx. destruct (handler_create w i Hby e s b) as [(Hh & b3 & Hb3 & Hs3)|[E Hn1]]; try done; rewrite Hd in *.
      - rewrite Hb2 in Hb3. injection Hb3 as <-. rewrite Hh. split; [done|by left].
      - rewrite E in *. split; [done|]. right. split; [|done]. rewrite Hb in Hb2. injection Hb2 as <-.
        by destruct Hsub as [-> _]. }
    destruct He as [[-> Hnc]|He]; simpl; [auto|]. destruct r as [f|]; simpl; auto.
Qed.


(** ** Concrete submissions *)

Definition demo_world (create : result sexn remote) : submit_world :=
  mk_submit_world (u "submit:1") (u "up1") (u "sub1") (λ n, 100 + Z.of_nat n) (Ok 400) (Ok 400) (λ _, None) (Some 5) None
    (Ok (Some (u "file-1"))) (Ok f0) true create (λ n, Nat.eqb n 10).
Definition demo_prepared : bdb := run demo_sum (take 1 demo_prefix) (demo_bdb <| holds := [] |>).
Definition demo_timeout : sexn := mk_sexn (u "API_TIMEOUT") true (u "timeout").

(** Uploaded and created; uploaded, and the create call timed out. *)
Example demo_submitted :
  let '(x, d, cs) := _submit_one (demo_world (Ok (demo_remote "validating"))) (u "b1") None demo_prepared in
  x = None ∧ (k_remote_id <$> get_batch d (u "b1")) = Some (Some (u "r1")) ∧ length cs = 2%nat.
Proof. vm_compute. auto. Qed.


(** The upload succeeds and its file id cannot be stored: the Batch is failed
    and the remote file is in no table. *)
Example upload_lost_when_not_stored :
  let w := mk_submit_world (u "submit:1") (u "up1") (u "sub1") (λ n, 100 + Z.of_nat n) (Ok 400) (Ok 400) (λ _, None)
             (Some 5) None (Ok (Some (u "file-1"))) (Ok f0) true (Raise demo_timeout) (λ n, Nat.eqb n 1) in
  let '(x, d, cs) := _submit_one w (u "b1") None demo_prepared in
  (e_code <$> x) = Some (u "BATCH-SUBMIT-001") ∧ cs = [UploadCall (Ok (Some (u "file-1")))]
  ∧ ((λ b, (k_status b, rf_id (k_input b))) <$> get_batch d (u "b1")) = Some (BFailed, None).
Proof. vm_compute. auto. Qed.

(** A submitter that finds the submission claimed by another releases the
    reserve the other one is using: both use the reservation batch:<id>. *)
Definition demo_claimed_elsewhere : bdb :=
  grant (demo_world (Raise demo_timeout)) (u "b1") (BatchesProps.row_at demo_prepared) f0
    (run demo_sum (firstn 2 demo_run) (run demo_sum demo_prefix (demo_bdb <| holds := [] |>))).

Example loser_frees_reserve :
  let '(x, d, cs) := _submit_one (demo_world (Raise demo_timeout)) (u "b1") None demo_claimed_elsewhere in
  (e_code <$> x) = Some (u "BATCH-ALREADY-CLAIMED") ∧ cs = []
  ∧ existsb (reserve_of (u "b1")) (holds demo_claimed_elsewhere) = true
  ∧ existsb (reserve_of (u "b1")) (holds d) = false
  ∧ (k_status <$> get_batch d (u "b1")) = Some BSubmitting.
Proof. vm_compute. auto 6. Qed.
