(* ===== verification/Quota.v ===== *)
(** * Provider quota and circuit breaker

    Models [ProviderQuotaRepository] of
    [inktime/app/repositories/provider_quota.py]: the rate, token and
    concurrency limits an account's channels share across worker processes,
    and the circuit that stops calls after failures.  Instants and delays are
    microseconds in [Z] (the code keeps seconds as REAL); [scope] is the
    account the repository object was built for. *)

From S2P Require Import Prelude PyStr Sql.
Local Open Scope Z_scope.

Definition sec (n : Z) : Z := n * 1000000.

(** The limits of a provider channel; 0 means unlimited for the two rates. *)
Record channel := mk_channel {
  requests_per_minute : Z; tokens_per_minute : Z; request_token_reserve : Z; max_concurrency : Z;
  cooldown : Z; timeout : Z }.

Record quota_event := mk_qevent { qe_id : str; qe_scope : str; qe_started : Z; qe_tokens : Z; qe_lease : Z }.
Record quota_state := mk_qstate { qs_scope : str; qs_failures : Z; qs_circuit : Z }.

Definition qstate_eta (s : quota_state) : quota_state := mk_qstate (qs_scope s) (qs_failures s) (qs_circuit s).
#[export] Instance set_qs_failures : Settable qs_failures := ltac:(derive_setter qstate_eta qs_failures).
#[export] Instance set_qs_circuit : Settable qs_circuit := ltac:(derive_setter qstate_eta qs_circuit).

Record quota := mk_quota { q_events : list quota_event; q_states : list quota_state }.

Definition quota_eta (q : quota) : quota := mk_quota (q_events q) (q_states q).
#[export] Instance set_q_events : Settable q_events := ltac:(derive_setter quota_eta q_events).
#[export] Instance set_q_states : Settable q_states := ltac:(derive_setter quota_eta q_states).

Definition in_scope (scope : str) (e : quota_event) : bool := str_eqb (qe_scope e) scope.
Definition recent (now : Z) (e : quota_event) : bool := now - sec 60 <? qe_started e.
Definition live (now : Z) (e : quota_event) : bool := now <? qe_lease e.

(** The two arms of the UNION ALL, which are disjoint. *)
Definition counted (scope : str) (now : Z) (e : quota_event) : bool :=
  in_scope scope e && (recent now e || live now e && (qe_started e <=? now - sec 60)).

Definition sum_tokens (l : list quota_event) : Z := fold_right (λ e n, qe_tokens e + n) 0 l.

Definition circuit_open (q : quota) (scope : str) (now : Z) : bool :=
  match get_row qs_scope scope (q_states q) with Some s => now <? qs_circuit s | None => false end.

(** [_allowed] *)
Definition allowed (q : quota) (scope : str) (c : channel) (now : Z) : bool :=
  if circuit_open q scope now then false
  else
    let rows := List.filter (counted scope now) (q_events q) in
    ((requests_per_minute c =? 0) || (Z.of_nat (length rows) <? requests_per_minute c))
    && ((tokens_per_minute c =? 0) || (sum_tokens rows + request_token_reserve c <=? tokens_per_minute c))
    && (countb (live now) rows <? max_concurrency c).

Definition available (q : quota) (scope : str) (c : channel) (now : Z) : bool := allowed q scope c now.

Definition circuit_wait (q : quota) (scope : str) (now : Z) : option Z :=
  match get_row qs_scope scope (q_states q) with
  | Some s => if now <? qs_circuit s then Some (Z.max (sec 1) (qs_circuit s - now)) else None
  | None => None
  end.

Definition rate_delay (q : quota) (scope : str) (c : channel) (now : Z) : Z :=
  let events := sort_by (λ a b, qe_started a <=? qe_started b)
                  (List.filter (λ e, in_scope scope e && recent now e) (q_events q)) in
  let rpm_full := negb (requests_per_minute c =? 0)
                  && (requests_per_minute c <=? Z.of_nat (length events)) in
  let tpm_full := negb (tokens_per_minute c =? 0)
                  && (tokens_per_minute c <=? sum_tokens events + request_token_reserve c) in
  match events with
  | first :: _ => if rpm_full || tpm_full then Z.max (sec 1) (qe_started first + sec 60 - now) else sec 5
  | [] => sec 5
  end.

Definition retry_after (q : quota) (scope : str) (c : channel) (now : Z) : Z :=
  match circuit_wait q scope now with Some delay => delay | None => rate_delay q scope c now end.

Definition lapsed (now : Z) (e : quota_event) : bool := (qe_lease e <=? now) && (qe_started e <=? now - sec 60).

Inductive quota_exn : Type := DuplicateEvent.

(** [acquire]; [identifier] is the fresh uuid, the primary key of the event. *)
Definition acquire (q : quota) (scope : str) (c : channel) (now : Z) (identifier : str)
  : result quota_exn (option str * quota) :=
  let q1 := q <| q_events := List.filter (λ e, negb (lapsed now e)) (q_events q) |> in
  if negb (allowed q1 scope c now) then Ok (None, q1)
  else if has_key qe_id identifier (q_events q1) then Raise DuplicateEvent
  else Ok (Some identifier,
        q1 <| q_events := q_events q1 ++
               [mk_qevent identifier scope now (request_token_reserve c)
                  (now + Z.max (sec 1) (timeout c) + sec 60)] |>).

Definition of_id (identifier scope : str) (e : quota_event) : bool :=
  str_eqb (qe_id e) identifier && in_scope scope e.

Definition cancel (q : quota) (scope identifier : str) : quota :=
  q <| q_events := List.filter (λ e, negb (of_id identifier scope e)) (q_events q) |>.

(** What the finished call reported: [tokens] when the provider counted them,
    and the error with its [retry_after] (0 when it has none). *)
Record outcome := mk_outcome { reported_tokens : option Z; failed : option Z }.

Definition settle_event (now tokens : Z) (e : quota_event) : quota_event :=
  mk_qevent (qe_id e) (qe_scope e) now tokens 0.

Definition ensure_state (scope : str) (l : list quota_state) : list quota_state :=
  if has_key qs_scope scope l then l else l ++ [mk_qstate scope 0 0].

Definition trip (now : Z) (c : channel) (failure_threshold retry : Z) (s : quota_state) : quota_state :=
  let s' := s <| qs_failures := qs_failures s + 1 |> in
  if (failure_threshold <=? qs_failures s') || negb (retry =? 0)
  then s' <| qs_circuit := Z.max (qs_circuit s') (now + Z.max retry (cooldown c)) |>
  else s'.

Definition release (q : quota) (scope identifier : str) (c : channel) (now : Z) (o : outcome)
    (failure_threshold : Z) : quota :=
  let tokens := default (request_token_reserve c) (reported_tokens o) in
  let q1 := q <| q_events := update_where (of_id identifier scope) (settle_event now tokens) (q_events q) |>
              <| q_states := ensure_state scope (q_states q) |> in
  q1 <| q_states := update_where (by_key qs_scope scope)
          (match failed o with
           | None => λ s, s <| qs_failures := 0 |>
           | Some retry => trip now c failure_threshold retry
           end) (q_states q1) |>.

(** ** Interleavings of the worker processes *)

Inductive quota_op : Type :=
| QAcquire (now : Z) (scope : str) (c : channel) (identifier : str)
| QCancel (now : Z) (scope identifier : str)
| QRelease (now : Z) (scope identifier : str) (c : channel) (o : outcome) (failure_threshold : Z).

Definition op_now (o : quota_op) : Z :=
  match o with QAcquire now _ _ _ | QCancel now _ _ | QRelease now _ _ _ _ _ => now end.

Definition quota_exec (q : quota) (o : quota_op) : quota :=
  match o with
  | QAcquire now scope c k => match acquire q scope c now k with Ok (_, q') => q' | Raise _ => q end
  | QCancel _ scope k => cancel q scope k
  | QRelease now scope k c o thr => release q scope k c now o thr
  end.

(** The clock does not run backwards. *)
Fixpoint clocked (t : Z) (ops : list quota_op) : Prop :=
  match ops with [] => True | o :: ops' => t ≤ op_now o ∧ clocked (op_now o) ops' end.

Definition end_time (t : Z) (ops : list quota_op) : Z := fold_left (λ _ o, op_now o) ops t.

Definition caps_ok (cap : str → Z) (o : quota_op) : Prop :=
  match o with QAcquire _ scope c _ => max_concurrency c = cap scope | _ => True end.

Definition in_flight (scope : str) (now : Z) (e : quota_event) : bool := in_scope scope e && live now e.

Lemma in_flight_later scope t t' e : t ≤ t' → in_flight scope t' e = true → in_flight scope t e = true.
Proof. unfold in_flight, live. destruct (in_scope scope e); cbn; [bprop; lia|done]. Qed.

Lemma in_flight_counted scope now e : in_flight scope now e = counted scope now e && live now e.
Proof.
  unfold in_flight, counted, recent, live. destruct (in_scope scope e), (now <? qe_lease e) eqn:El; cbn; try done.
  - destruct (now - sec 60 <? qe_started e) eqn:E; cbn; [done|]. symmetry. apply Bool.andb_true_iff.
    split; [|done]. bprop. lia.
  - by rewrite Bool.andb_false_r.
Qed.

Lemma allowed_spec q scope c now :
  allowed q scope c now = true →
  circuit_open q scope now = false ∧
  (requests_per_minute c ≠ 0 → countb (counted scope now) (q_events q) < requests_per_minute c) ∧
  (tokens_per_minute c ≠ 0 →
   sum_tokens (List.filter (counted scope now) (q_events q)) + request_token_reserve c ≤ tokens_per_minute c) ∧
  countb (in_flight scope now) (q_events q) < max_concurrency c.
Proof.
  unfold allowed. destruct (circuit_open q scope now); [done|]. intros H. split; [done|].
  apply Bool.andb_true_iff in H as [H Hc]. apply Bool.andb_true_iff in H as [Hr Ht].
  rewrite countb_filter in Hc. apply Z.ltb_lt in Hc.
  rewrite (countb_ext (in_flight scope now) (λ x, counted scope now x && live now x))
    by (intros; apply in_flight_counted).
  split; [|split]; [| |done].
  - intros Hn. apply Bool.orb_true_iff in Hr as [Hr|Hr]; [bprop; done|]. by apply Z.ltb_lt in Hr.
  - intros Hn. apply Bool.orb_true_iff in Ht as [Ht|Ht]; [bprop; done|]. by apply Z.leb_le in Ht.
Qed.

Lemma acquire_inv q scope c now k k' q' :
  acquire q scope c now k = Ok (Some k', q') →
  ∃ l, l = List.filter (λ e, negb (lapsed now e)) (q_events q) ∧ k' = k ∧
       allowed (q <| q_events := l |>) scope c now = true ∧ q_states q' = q_states q ∧
       q_events q' = l ++ [mk_qevent k scope now (request_token_reserve c)
                             (now + Z.max (sec 1) (timeout c) + sec 60)].
Proof.
  unfold acquire. cbv zeta. destruct (allowed _ _ _ _) eqn:E; cbn [negb]; [|intros; simplify_eq].
  destruct (has_key _ _ _); [done|]. intros [= <- <-].
  eexists. split; [done|]. by split_and!.
Qed.

(** A slot is handed out only within every limit of the channel: with
    the circuit closed, and counting the new request, the last minute stays
    within the request and token rates and the live leases within the
    concurrency of the account. *)
Theorem acquire_within_limits q scope c now k k' q' :
  acquire q scope c now k = Ok (Some k', q') →
  circuit_open q scope now = false ∧
  (requests_per_minute c ≠ 0 → countb (counted scope now) (q_events q') ≤ requests_per_minute c) ∧
  (tokens_per_minute c ≠ 0 → 
   sum_tokens (List.filter (counted scope now) (q_events q')) ≤ tokens_per_minute c) ∧
  countb (in_flight scope now) (q_events q') ≤ max_concurrency c.
Proof.
  intros (l & El & -> & Ha & _ & E)%acquire_inv. apply allowed_spec in Ha as (Hc & Hr & Ht & Hl).
  change (q_events (q <| q_events := l |>)) with l in Hr, Ht, Hl. rewrite E. set (x := mk_qevent _ _ _ _ _).
  assert (counted scope now x = true) as Hx.
  { unfold counted, in_scope, recent. subst x. cbn [qe_scope qe_started]. rewrite str_eqb_refl.
    assert ((now - sec 60 <? now) = true) as -> by (unfold sec; lia). done. }
  split; [exact Hc|]. split; [|split].
  - intros Hn. rewrite countb_app, countb_cons, countb_nil, Hx. specialize (Hr Hn). lia.
  - intros Hn. rewrite List.filter_app. cbn [List.filter]. rewrite Hx. specialize (Ht Hn).
    unfold sum_tokens in *. rewrite fold_right_app. cbn [fold_right].
    enough (∀ l' n, fold_right (λ e m, qe_tokens e + m) n l' = fold_right (λ e m, qe_tokens e + m) 0 l' + n) as ->
      by (subst x; cbn [qe_tokens]; lia).
    intros l' n. induction l'; cbn [fold_right]; lia.
  - rewrite countb_app, countb_cons, countb_nil. destruct (in_flight scope now x); lia.
Qed.

Lemma exec_in_flight cap q o scope t :
  caps_ok cap o → 0 ≤ op_now o → t ≤ op_now o →
  countb (in_flight scope t) (q_events q) ≤ Z.max 0 (cap scope) →
  countb (in_flight scope (op_now o)) (q_events (quota_exec q o)) ≤ Z.max 0 (cap scope).
Proof.
  intros Hcap H0 Ht Hq.
  assert (countb (in_flight scope (op_now o)) (q_events q) ≤ Z.max 0 (cap scope)) as Hn.
  { etrans; [|exact Hq]. apply countb_mono. intros e _. by apply in_flight_later. }
  destruct o as [now sc c k|now sc k|now sc k c o thr]; cbn [op_now quota_exec caps_ok] in *.
  - destruct (acquire q sc c now k) as [[[k'|] q']|] eqn:E; [| |exact Hn].
    + apply acquire_inv in E as (l & El & -> & Ha & _ & E). apply allowed_spec in Ha as (_ & _ & _ & Hl).
      change (q_events (q <| q_events := l |>)) with l in Hl. rewrite E, countb_app, countb_cons, countb_nil.
      assert (countb (in_flight scope now) l ≤ Z.max 0 (cap scope)).
      { etrans; [|exact Hn]. subst l. apply countb_filter_le. }
      destruct (in_flight scope now (mk_qevent _ _ _ _ _)) eqn:Ex; [|lia].
      unfold in_flight, in_scope in Ex. cbn [qe_scope] in Ex. apply Bool.andb_true_iff in Ex as [Ex _].
      apply str_eqb_eq in Ex as <-. lia.
    + unfold acquire in E. cbv zeta in E. destruct (allowed _ _ _ _); cbn [negb] in E; 
        [destruct (has_key _ _ _); done|]. injection E as <-. 
      etrans; [|exact Hn]. apply countb_filter_le.
  - etrans; [|exact Hn]. apply countb_filter_le.
  - etrans; [|exact Hn].
    change (q_events (release q sc k c now o thr)) with
      (update_where (of_id k sc) (settle_event now (default (request_token_reserve c) (reported_tokens o)))
         (q_events q)).
    rewrite countb_update. apply countb_mono. intros e _.
    destruct (of_id k sc e); [|done]. unfold in_flight, live. cbn [qe_lease settle_event].
    assert ((now <? 0) = false) as -> by lia. by rewrite Bool.andb_false_r.
Qed.

(** However the worker processes interleave, the requests in flight on
    an account never exceed its concurrency: at every instant after the last
    step, at most [cap scope] leases are live. *)
Theorem concurrency_never_exceeded cap ops scope t' :
  clocked 0 ops → Forall (caps_ok cap) ops → end_time 0 ops ≤ t' →
  countb (in_flight scope t') (q_events (fold_left quota_exec ops (mk_quota [] []))) ≤ Z.max 0 (cap scope).
Proof.
  intros Hc Hf He.
  enough (∀ ops t q, 0 ≤ t → clocked t ops → Forall (caps_ok cap) ops →
    countb (in_flight scope t) (q_events q) ≤ Z.max 0 (cap scope) →
    countb (in_flight scope (end_time t ops)) (q_events (fold_left quota_exec ops q)) ≤ Z.max 0 (cap scope)) as G.
  { etrans; [|apply (G ops 0 (mk_quota [] [])); [done|done|done|cbn [q_events]; rewrite countb_nil; lia]].
    apply countb_mono. intros e _. by apply in_flight_later. }
  clear. induction ops as [|o ops IH]; intros t q H0 Hc Hf Hq; [done|].
  destruct Hc as [Ht Hc]. inversion Hf as [|?? Hcap Hf']; subst. unfold end_time. cbn [fold_left].
  apply IH; [lia|done|done|]. apply (exec_in_flight cap q o scope t); [done|lia|done|done].
Qed.

(** ** The circuit *)

Definition failures_of (q : quota) (scope : str) : Z :=
  match get_row qs_scope scope (q_states q) with Some s => qs_failures s | None => 0 end.

Definition circuit_until (q : quota) (scope : str) : Z :=
  match get_row qs_scope scope (q_states q) with Some s => qs_circuit s | None => 0 end.

Definition tripped (scope : str) (v : Z) (q : quota) : Prop :=
  ∃ s, get_row qs_scope scope (q_states q) = Some s ∧ v ≤ qs_circuit s.

Lemma tripped_open scope v q now : tripped scope v q → now < v → circuit_open q scope now = true.
Proof. intros (s & E & Hv) Hn. unfold circuit_open. rewrite E. apply Z.ltb_lt. lia. Qed.

Lemma has_key_get {A} (key : A → str) k l : has_key key k l = true ↔ is_Some (get_row key k l).
Proof.
  unfold has_key. rewrite existsb_elem. split.
  - intros (r & Hr & Hk). destruct (get_row key k l) eqn:E; [done|]. exfalso.
    eapply (get_row_None key) in E; [|exact Hr]. unfold by_key in Hk. by apply str_eqb_eq in Hk.
  - intros [r [Hr Hk]%get_row_Some]. exists r. unfold by_key. by rewrite Hk, str_eqb_refl.
Qed.

Lemma ensure_state_get scope l :
  get_row qs_scope scope (ensure_state scope l) =
  Some (default (mk_qstate scope 0 0) (get_row qs_scope scope l)).
Proof.
  unfold ensure_state. destruct (has_key qs_scope scope l) eqn:E.
  - apply has_key_get in E as [s ->]. done.
  - rewrite get_row_app_fresh. destruct (get_row qs_scope scope l) eqn:Eg.
    + assert (has_key qs_scope scope l = true) by (apply has_key_get; eauto). congruence.
    + cbn [qs_scope]. by rewrite str_eqb_refl.
Qed.

Lemma ensure_state_other scope scope' l s :
  get_row qs_scope scope' l = Some s → get_row qs_scope scope' (ensure_state scope l) = Some s.
Proof.
  intros H. unfold ensure_state. destruct (has_key _ _ _); [done|]. by rewrite get_row_app_fresh, H.
Qed.

Lemma trip_circuit now c thr retry s : qs_circuit s ≤ qs_circuit (trip now c thr retry s).
Proof.
  unfold trip. cbv zeta. destruct (_ || _); [|apply Z.le_refl].
  change (qs_circuit s ≤ Z.max (qs_circuit s) (now + Z.max retry (cooldown c))). lia.
Qed.

Lemma trip_scope now c thr retry s : qs_scope (trip now c thr retry s) = qs_scope s.
Proof. unfold trip. cbv zeta. by destruct (_ || _). Qed.

Lemma exec_tripped scope v q o : tripped scope v q → tripped scope v (quota_exec q o).
Proof.
  intros (s & E & Hv). destruct o as [now sc c k|now sc k|now sc k c o thr]; cbn [quota_exec].
  - unfold acquire. cbv zeta. destruct (negb _); [by exists s|]. destruct (has_key _ _ _); by exists s.
  - by exists s.
  - unfold tripped, release. cbv zeta.
    set (f := match failed o with Some r => _ | None => _ end).
    change (∃ s0, get_row qs_scope scope
              (update_where (by_key qs_scope sc) f (ensure_state sc (q_states q))) = Some s0 ∧ v ≤ qs_circuit s0).
    rewrite get_row_update by (intros r; subst f; destruct (failed o); [apply trip_scope|done]).
    rewrite (ensure_state_other _ _ _ s E). cbn [fmap option_fmap option_map].
    destruct (by_key qs_scope sc s); [|by exists s]. eexists. split; [done|].
    subst f. destruct (failed o); [|done]. etrans; [exact Hv|apply trip_circuit].
Qed.

Lemma release_trips q scope k c now o thr retry :
  failed o = Some retry → thr ≤ failures_of q scope + 1 ∨ retry ≠ 0 →
  tripped scope (now + Z.max retry (cooldown c)) (release q scope k c now o thr).
Proof.
  intros Hf Ht. unfold tripped, release. cbv zeta. rewrite Hf.
  change (∃ s0, get_row qs_scope scope
            (update_where (by_key qs_scope scope) (trip now c thr retry) (ensure_state scope (q_states q))) = Some s0
          ∧ now + Z.max retry (cooldown c) ≤ qs_circuit s0).
  rewrite get_row_update by (intros; apply trip_scope). rewrite ensure_state_get.
  unfold failures_of in Ht. set (s := default _ _).
  assert (qs_failures s = match get_row qs_scope scope (q_states q) with
                          | Some s => qs_failures s | None => 0 end ∧ qs_scope s = scope) as [Es Ek].
  { subst s. destruct (get_row qs_scope scope (q_states q)) as [s|] eqn:E; [|done].
    by apply get_row_Some in E as [_ ?]. }
  cbn [fmap option_fmap option_map]. unfold by_key. rewrite Ek, str_eqb_refl.
  eexists. split; [done|]. unfold trip. cbv zeta.
  assert ((thr <=? qs_failures (s <| qs_failures := qs_failures s + 1 |>)) || negb (retry =? 0) = true) as ->.
  { change (qs_failures (s <| qs_failures := qs_failures s + 1 |>)) with (qs_failures s + 1).
    rewrite Es. apply Bool.orb_true_iff. rewrite negb_true, Z.leb_le, Z.eqb_neq. done. }
  change (now + Z.max retry (cooldown c) ≤ Z.max (qs_circuit s) (now + Z.max retry (cooldown c))). lia.
Qed.

(** The circuit breaker holds: once a failed call reaches the failure
    threshold, or asks to be retried later, no step of any process (a success
    included) hands out a slot on that account before the cooldown and the
    requested delay have passed. *)
Theorem circuit_holds q scope k c now o thr retry ops c' now' k' :
  failed o = Some retry → thr ≤ failures_of q scope + 1 ∨ retry ≠ 0 →
  now' < now + Z.max retry (cooldown c) →
  let q' := fold_left quota_exec ops (release q scope k c now o thr) in
  available q' scope c' now' = false ∧ ∃ q'', acquire q' scope c' now' k' = Ok (None, q'').
Proof.
  intros Hf Ht Hn q'.
  assert (tripped scope (now + Z.max retry (cooldown c)) q') as H.
  { subst q'. generalize (release_trips q scope k c now o thr retry Hf Ht).
    generalize (release q scope k c now o thr). clear. induction ops as [|x ops IH]; intros q H; [done|].
    apply IH, exec_tripped, H. }
  assert (∀ l, allowed (q' <| q_events := l |>) scope c' now' = false) as Ha.
  { intros l. unfold allowed. change (circuit_open (q' <| q_events := l |>) scope now')
      with (circuit_open q' scope now'). by rewrite (tripped_open _ _ _ _ H Hn). }
  split.
  - unfold available, allowed. by rewrite (tripped_open _ _ _ _ H Hn).
  - unfold acquire. cbv zeta. rewrite Ha. cbn [negb]. eauto.
Qed.

Lemma rate_delay_min q scope c now : sec 1 ≤ rate_delay q scope c now.
Proof. unfold rate_delay. destruct (sort_by _ _); [|destruct (_ || _)]; unfold sec; lia. Qed.

Lemma rate_delay_window q scope c now :
  Forall (λ e, qe_started e ≤ now) (q_events q) →
  rate_delay q scope c now ≤ sec 60 ∧
  (0 < requests_per_minute c ≤ countb (λ e, in_scope scope e && recent now e) (q_events q) →
   ∃ e, e ∈ q_events q ∧ in_scope scope e && recent now e = true ∧
        recent (now + rate_delay q scope c now) e = false).
Proof.
  intros Hs. unfold rate_delay. set (p := λ e, in_scope scope e && recent now e).
  destruct (sort_by _ (List.filter p (q_events q))) as [|e l] eqn:E.
  - split; [unfold sec; lia|]. intros [H1 H2]. exfalso. unfold countb in H2.
    rewrite <- (sort_by_length (λ a b, qe_started a <=? qe_started b)), E in H2. cbn in H2. lia.
  - assert (e ∈ List.filter p (q_events q)) as He.
    { rewrite <- (sort_by_elem (λ a b, qe_started a <=? qe_started b)), E. left. }
    apply filter_elem in He as [He Hp]. rewrite Forall_forall in Hs. specialize (Hs e He).
    split; [destruct (_ || _); unfold sec; lia|]. intros [H1 H2]. exists e. do 2 (split; [done|]).
    assert (negb (requests_per_minute c =? 0) && (requests_per_minute c <=? Z.of_nat (length (e :: l))) = true)
      as ->.
    { rewrite <- E, sort_by_length. fold (countb p (q_events q)). apply Bool.andb_true_iff.
      rewrite negb_true, Z.eqb_neq, Z.leb_le. split; [lia|done]. }
    cbn [orb]. unfold recent. apply Z.ltb_ge. unfold sec. lia.
Qed.

(** The polling delay is at least a second; it outlasts an open circuit;
    with the circuit closed it is at most a minute; and when the request rate
    is what blocks, a counted request has left the window by then. *)
Theorem retry_after_spec q scope c now :
  Forall (λ e, qe_started e ≤ now) (q_events q) →
  let delay := retry_after q scope c now in
  sec 1 ≤ delay ∧
  (circuit_open q scope now = true → circuit_open q scope (now + delay) = false) ∧
  (circuit_open q scope now = false →
   delay ≤ sec 60 ∧
   (0 < requests_per_minute c ≤ countb (λ e, in_scope scope e && recent now e) (q_events q) →
    ∃ e, e ∈ q_events q ∧ in_scope scope e && recent now e = true ∧ recent (now + delay) e = false)).
Proof.
  intros Hs delay. subst delay. unfold retry_after, circuit_open, circuit_wait.
  destruct (get_row qs_scope scope (q_states q)) as [s|] eqn:Es; [destruct (now <? qs_circuit s) eqn:Ec|].
  - split; [lia|]. split; [intros _; apply Z.ltb_ge; lia|done].
  - split; [apply rate_delay_min|]. split; [done|]. intros _. by apply rate_delay_window.
  - split; [apply rate_delay_min|]. split; [done|]. intros _. by apply rate_delay_window.
Qed.

(** ** Witnesses *)

Definition demo_channel : channel := mk_channel 2 0 100 1 (sec 30) (sec 120).
Definition acct : str := u "acct".
Definition demo_quota : quota := quota_exec (mk_quota [] []) (QAcquire (sec 100) acct demo_channel (u "e1")).

Lemma acquire_within_limits_witness :
  countb (in_flight acct (sec 100)) (q_events demo_quota) ≤ 1.
Proof.
  apply (acquire_within_limits (mk_quota [] []) acct demo_channel (sec 100) (u "e1") (u "e1")). reflexivity.
Defined.

Definition demo_quota_ops : list quota_op :=
  [QAcquire (sec 100) acct demo_channel (u "e1"); QAcquire (sec 101) acct demo_channel (u "e2");
   QRelease (sec 103) acct (u "e1") demo_channel (mk_outcome (Some 50) None) 3;
   QAcquire (sec 104) acct demo_channel (u "e3")].

Lemma concurrency_never_exceeded_witness :
  countb (in_flight acct (sec 104)) (q_events (fold_left quota_exec demo_quota_ops (mk_quota [] []))) ≤ 1.
Proof.
  apply (concurrency_never_exceeded (λ _, 1) demo_quota_ops acct (sec 104)).
  - cbn. unfold sec. lia.
  - repeat constructor.
  - vm_compute. discriminate.
Defined.

Lemma circuit_holds_witness :
  let q' := fold_left quota_exec [QRelease (sec 111) acct (u "e9") demo_channel (mk_outcome None None) 3]
              (release demo_quota acct (u "e1") demo_channel (sec 110) (mk_outcome None (Some (sec 45))) 3) in
  available q' acct demo_channel (sec 150) = false
  ∧ ∃ q'', acquire q' acct demo_channel (sec 150) (u "e4") = Ok (None, q'').
Proof.
  apply (circuit_holds demo_quota acct (u "e1") demo_channel (sec 110) (mk_outcome None (Some (sec 45))) 3 (sec 45)).
  - reflexivity.
  - right. discriminate.
  - vm_compute. reflexivity.
Defined.

Lemma retry_after_spec_witness : sec 1 ≤ retry_after demo_quota acct demo_channel (sec 120).
Proof.
  assert (Forall (λ e, qe_started e ≤ sec 120) (q_events demo_quota)) as H.
  { constructor; [vm_compute; discriminate|constructor]. }
  exact (proj1 (retry_after_spec demo_quota acct demo_channel (sec 120) H)).
Defined.
