(* ===== verification/Router.v ===== *)
(** * The provider router (providers/router.py)

    [FailoverVisionProvider] tries the configured channels in priority order:
    a channel is taken with a semaphore permit and a request slot (its own
    sliding minute, or a lease of the account's shared quota of [Quota]), the
    daily free-quota gate may still refuse it, the provider is called, and the
    permit, slot and lease are given back with the outcome.  Effects survive an
    exception, so the operations are in a state-and-exception monad [M].

    What comes from outside is an argument: the clocks, the uuid of a lease,
    the account's free quota and the provider's reply ([tick], [attempt]).
    Times are microseconds; a channel's identity [id(channel)] is its position
    in the sorted route.  Logging is left out. *)

From S2P Require Import Prelude PyStr Sql Quota.
Local Open Scope Z_scope.

(** What the router reads of an exception raised below it. *)
Record perror := mk_perror {
  e_code : str; e_http : bool; e_retry_after : option Z;
  e_ambiguous : bool; e_vision_started : bool; e_request_started : bool }.

(** [SemaphoreError]: the bounded semaphore was released too often;
    [StorageError]: a quota transaction did not commit. *)
Inductive rexn := Failed (e : perror) | SemaphoreError | StorageError.

Record usage := mk_usage { input_tokens : Z; output_tokens : Z; tokens_reported : bool }.
Record response := mk_response { content : str; resp_usage : usage }.

Record pchannel := mk_pchannel {
  provider_id : str; base_url : str; api_key : str;
  free_only : bool; can_guard : bool; can_read_quota : bool;
  priority : Z; limits : Quota.channel; model : option str; shared_scope : option str;
  daily_free_first : bool;
  permits : Z; request_times : list Z; token_events : list (Z * Z); failures : Z; circuit_until : Z }.

Definition pchannel_eta (c : pchannel) : pchannel :=
  mk_pchannel (provider_id c) (base_url c) (api_key c) (free_only c) (can_guard c) (can_read_quota c)
    (priority c) (limits c) (model c) (shared_scope c) (daily_free_first c)
    (permits c) (request_times c) (token_events c) (failures c) (circuit_until c).
#[export] Instance set_permits : Settable permits := ltac:(derive_setter pchannel_eta permits).
#[export] Instance set_request_times : Settable request_times := ltac:(derive_setter pchannel_eta request_times).
#[export] Instance set_token_events : Settable token_events := ltac:(derive_setter pchannel_eta token_events).
#[export] Instance set_failures : Settable failures := ltac:(derive_setter pchannel_eta failures).
#[export] Instance set_circuit_until : Settable circuit_until := ltac:(derive_setter pchannel_eta circuit_until).

(** The bound of the semaphore. *)
Definition capacity (c : pchannel) : Z := Z.max 1 (max_concurrency (limits c)).

(** Dictionaries keyed by [id(channel)]. *)
Abbreviation idmap V := (list (nat * V)).
Fixpoint id_get {V} (i : nat) (m : idmap V) : option V :=
  match m with [] => None | (j, v) :: m' => if Nat.eqb i j then Some v else id_get i m' end.
Definition id_pop {V} (i : nat) (m : idmap V) : idmap V := List.filter (λ p, negb (Nat.eqb i (fst p))) m.
Definition id_set {V} (i : nat) (v : V) (m : idmap V) : idmap V := id_pop i m ++ [(i, v)].

(** [threading.local()] of the running thread. *)
Record local := mk_local {
  l_channel : option nat; quota_gate_errors : idmap perror; quota_reservations : idmap str;
  request_slots : idmap Z }.
Definition local_eta (l : local) : local :=
  mk_local (l_channel l) (quota_gate_errors l) (quota_reservations l) (request_slots l).
#[export] Instance set_l_channel : Settable l_channel := ltac:(derive_setter local_eta l_channel).
#[export] Instance set_gate_errors : Settable quota_gate_errors := ltac:(derive_setter local_eta quota_gate_errors).
#[export] Instance set_reservations : Settable quota_reservations := ltac:(derive_setter local_eta quota_reservations).
#[export] Instance set_request_slots : Settable request_slots := ltac:(derive_setter local_eta request_slots).

(** [calls] records the provider calls made, in order: channel and reply. *)
Record router := mk_router {
  channels : list pchannel; failure_threshold : Z; shared : Quota.quota; loc : local;
  calls : list (nat * result perror response) }.
Definition router_eta (r : router) : router :=
  mk_router (channels r) (failure_threshold r) (shared r) (loc r) (calls r).
#[export] Instance set_channels : Settable channels := ltac:(derive_setter router_eta channels).
#[export] Instance set_shared : Settable shared := ltac:(derive_setter router_eta shared).
#[export] Instance set_loc : Settable loc := ltac:(derive_setter router_eta loc).
#[export] Instance set_calls : Settable calls := ltac:(derive_setter router_eta calls).

(** ** State and exceptions *)

Definition M (A : Type) : Type := router → result rexn A * router.
Definition ret {A} (a : A) : M A := λ r, (Ok a, r).
Definition fail {A} (e : rexn) : M A := λ r, (Raise e, r).
Definition bind {A B} (m : M A) (k : A → M B) : M B :=
  λ r, match m r with (Ok a, r') => k a r' | (Raise e, r') => (Raise e, r') end.
(** [try: m except Exception as e: h e] *)
Definition catch {A} (m : M A) (h : rexn → M A) : M A :=
  λ r, match m r with (Ok a, r') => (Ok a, r') | (Raise e, r') => h e r' end.
(** [try: m finally: k] *)
Definition finally {A} (m : M A) (k : M unit) : M A :=
  λ r, match m r with
       | (x, r') => match k r' with (Ok _, r'') => (x, r'') | (Raise e, r'') => (Raise e, r'') end
       end.
Definition gets {A} (f : router → A) : M A := λ r, (Ok (f r), r).
Definition modify (f : router → router) : M unit := λ r, (Ok tt, f r).

Notation "'do' x <- m ; k" := (bind m (λ x, k))
  (at level 10, x pattern, m at level 100, k at level 200) : ink_scope.
Notation "m ;; k" := (bind m (λ _, k)) (at level 100, k at level 200, right associativity) : ink_scope.

(** The dataclass objects of the route are mutable and shared. *)
Definition blank_channel : pchannel :=
  mk_pchannel [] [] [] false false false 0 (Quota.mk_channel 0 0 0 0 0 0) None None false 0 [] [] 0 0.
Definition chan (i : nat) (r : router) : pchannel := nth i (channels r) blank_channel.
Definition update_chan (i : nat) (f : pchannel → pchannel) (r : router) : router :=
  r <| channels := alter f i (channels r) |>.
Definition update_loc (f : local → local) (r : router) : router := r <| loc := f (loc r) |>.

(** [FailoverVisionProvider.__init__]: the route sorted by priority, with fresh semaphores. *)
Definition new_channel (c : pchannel) : pchannel := c <| permits := capacity c |>.
Definition new_router (l : list pchannel) (threshold : Z) (q : Quota.quota) : result unit router :=
  match l with
  | [] => Raise tt
  | _ => Ok (mk_router (sort_by (λ a b, priority a <=? priority b) (map new_channel l)) threshold q
               (mk_local None [] [] []) [])
  end.

(** Outside world at one reservation attempt. *)
Record tick := mk_tick {
  t_mono : Z; t_wall : Z; t_uuid : str;
  t_guard : option perror;                    (** [assert_free_model]: the error, if it raises *)
  t_free : nat → result perror Z;             (** [free_daily_quota()["remaining"]] per channel *)
  t_stored : bool;                            (** the quota transaction of the reservation commits *)
  t_cancel_stored : bool }.                   (** the transaction that withdraws it commits *)

(** ** Local rate limits *)

Fixpoint drop_old {A} (time : A → Z) (limit : Z) (l : list A) : list A :=
  match l with
  | [] => []
  | x :: l' => if time x <=? limit then drop_old time limit l' else l
  end.

Definition _prune_quota_events (now : Z) (c : pchannel) : pchannel :=
  c <| request_times := drop_old id (now - sec 60) (request_times c) |>
    <| token_events := drop_old fst (now - sec 60) (token_events c) |>.

Definition sum_events (l : list (Z * Z)) : Z := fold_right (λ e n, snd e + n) 0 l.

(** The local half of [_can_use_channel_locked], on a pruned channel. *)
Definition locally_usable (c : pchannel) (now : Z) : bool :=
  if now <? circuit_until c then false
  else if negb (requests_per_minute (limits c) =? 0)
          && (requests_per_minute (limits c) <=? Z.of_nat (length (request_times c))) then false
  else if negb (tokens_per_minute (limits c) =? 0)
          && (tokens_per_minute (limits c) <=? sum_events (token_events c)) then false
  else true.

Definition _can_use_channel_locked (i : nat) (t : tick) : M bool :=
  modify (update_chan i (_prune_quota_events (t_mono t))) ;;
  do c <- gets (chan i);
  match shared_scope c with
  | Some scope => gets (λ r, Quota.available (shared r) scope (limits c) (t_wall t))
  | None => ret (locally_usable c (t_mono t))
  end.

Definition _available (i : nat) (t : tick) : M bool := _can_use_channel_locked i t.

(** ** Deferral: when the route may be tried again *)

Definition or_default (x : option Z) (d : Z) : Z :=
  match x with Some z => if z =? 0 then d else z | None => d end.

Definition channel_delay (r : router) (t : tick) (i : nat) : Z :=
  let c := chan i r in
  match id_get i (quota_gate_errors (loc r)) with
  | Some deferred => or_default (e_retry_after deferred) (sec 60)
  | None =>
      match shared_scope c with
      | Some scope => Quota.retry_after (shared r) scope (limits c) (t_wall t)
      | None =>
          if t_mono t <? circuit_until c then circuit_until c - t_mono t
          else if negb (requests_per_minute (limits c) =? 0)
                  && (requests_per_minute (limits c) <=? Z.of_nat (length (request_times c)))
          then Z.max (sec 1) (hd 0 (request_times c) + sec 60 - t_mono t)
          else sec 5
      end
  end.

Fixpoint zmin_default (d : Z) (l : list Z) : Z :=
  match l with [] => d | [x] => x | x :: l' => Z.min x (zmin_default d l') end.

Definition deferral (retry : Z) : perror := mk_perror (u "VLM-005") true (Some retry) false false false.

Definition _unavailable (r : router) (t : tick) (ids : list nat) : perror :=
  let delays := map (channel_delay r t) ids in
  let soonest := zmin_default (sec 60) delays in
  let deferred i := match id_get i (quota_gate_errors (loc r)) with
    | Some e => if or_default (e_retry_after e) (sec 60) =? soonest then Some e else None
    | None => None end in
  match omap deferred ids with
  | e :: _ => e
  | [] => deferral (Z.max (sec 1) soonest)
  end.
Definition route (r : router) : list nat := seq 0 (length (channels r)).

(** ** The daily free-quota gate *)

Definition ends_with (suffix s : str) : bool := starts_with (rev suffix) (rev s).
Definition _free_model (c : pchannel) : bool :=
  match model c with
  | Some m => str_eqb m (u "openrouter/free") || ends_with (u ":free") m
  | None => false
  end.

Definition nonempty (s : str) : bool := match s with [] => false | _ => true end.
Definition _same_account (a b : pchannel) : bool :=
  nonempty (base_url a) && nonempty (api_key a) && str_eqb (base_url a) (base_url b)
  && str_eqb (api_key a) (api_key b).

Definition until_utc_midnight (wall : Z) : Z := Z.max (sec 1) (sec 86400 - wall mod sec 86400).
Definition config_invalid : perror := mk_perror (u "CONFIG_INVALID") true None false false false.
Definition backfill_guard : perror := mk_perror (u "BACKFILL-FREE-GUARD") true None false false false.

Definition from_reply {A} (x : result perror A) : M A :=
  match x with Ok a => ret a | Raise e => fail (Failed e) end.

(** The free sibling a paid channel waits for. *)
Definition free_sibling (r : router) (i : nat) : option nat :=
  if _free_model (chan i r) then Some i
  else List.find (λ j, daily_free_first (chan j r) && _free_model (chan j r)
                       && _same_account (chan j r) (chan i r)) (route r).

Definition _daily_free_gate (i : nat) (t : tick) : M unit :=
  do c <- gets (chan i);
  if free_only c then
    if negb (can_guard c && can_read_quota c) then fail (Failed backfill_guard)
    else
      match t_guard t with
      | Some e => fail (Failed e)
      | None =>
          do remaining <- from_reply (t_free t i);
          if remaining =? 0 then fail (Failed (deferral (until_utc_midnight (t_wall t)))) else ret tt
      end
  else if negb (daily_free_first c) then ret tt
  else
    do free <- gets (λ r, free_sibling r i);
    match free with
    | None => fail (Failed config_invalid)
    | Some j =>
        do f <- gets (chan j);
        if negb (can_read_quota f) then fail (Failed config_invalid)
        else
          do remaining <- from_reply (t_free t j);
          if _free_model c && (remaining =? 0)
          then fail (Failed (deferral (until_utc_midnight (t_wall t))))
          else if negb (_free_model c) && (0 <? remaining)
          then modify (update_loc (λ l, l <| quota_gate_errors := id_pop j (quota_gate_errors l) |>)) ;;
               do e <- gets (λ r, _unavailable r t [j]);
               fail (Failed e)
          else ret tt
    end.

(** ** Taking and returning a channel *)

(** [semaphore.acquire(blocking=False)] and [semaphore.release()]. *)
Definition semaphore_acquire (i : nat) : M bool :=
  do c <- gets (chan i);
  if 0 <? permits c then modify (update_chan i (λ c, c <| permits := permits c - 1 |>)) ;; ret true
  else ret false.
Definition semaphore_release (i : nat) : M unit :=
  do c <- gets (chan i);
  if capacity c <=? permits c then fail SemaphoreError
  else modify (update_chan i (λ c, c <| permits := permits c + 1 |>)).

(** [deque.remove(slot)]: the first equal element. *)
Fixpoint remove_first (x : Z) (l : list Z) : list Z :=
  match l with [] => [] | y :: l' => if x =? y then l' else y :: remove_first x l' end.

Definition _cancel_local_reservation (i : nat) (stored : bool) : M unit :=
  do c <- gets (chan i);
  match shared_scope c with
  | Some scope =>
      do held <- gets (λ r, id_get i (quota_reservations (loc r)));
      modify (update_loc (λ l, l <| quota_reservations := id_pop i (quota_reservations l) |>)) ;;
      match held with
      | Some identifier =>
          if stored then modify (λ r, r <| shared := Quota.cancel (shared r) scope identifier |>)
          else fail StorageError
      | None => ret tt
      end
  | None =>
      do slot <- gets (λ r, id_get i (request_slots (loc r)));
      modify (update_loc (λ l, l <| request_slots := id_pop i (request_slots l) |>)) ;;
      match slot with
      | Some s => modify (update_chan i (λ c, c <| request_times := remove_first s (request_times c) |>))
      | None => ret tt
      end
  end ;;
  semaphore_release i.

Definition _reserve_request_slot (i : nat) (t : tick) : M bool :=
  do c <- gets (chan i);
  match shared_scope c with
  | Some scope =>
      do q <- gets shared;
      if negb (t_stored t) then fail StorageError else
      match Quota.acquire q scope (limits c) (t_wall t) (t_uuid t) with
      | Raise _ => fail StorageError
      | Ok (None, q') => modify (λ r, r <| shared := q' |>) ;; ret false
      | Ok (Some identifier, q') =>
          modify (λ r, r <| shared := q' |>) ;;
          modify (update_loc (λ l, l <| quota_reservations := id_set i identifier (quota_reservations l) |>)) ;;
          ret true
      end
  | None =>
      do usable <- _can_use_channel_locked i t;
      if negb usable then ret false
      else
        modify (update_chan i (λ c, c <| request_times := request_times c ++ [t_mono t] |>)) ;;
        modify (update_loc (λ l, l <| request_slots := id_set i (t_mono t) (request_slots l) |>)) ;;
        ret true
  end.

Definition acquire_channel (i : nat) (t : tick) : M bool :=
  modify (update_loc (λ l, l <| quota_gate_errors := id_pop i (quota_gate_errors l) |>)) ;;
  do permit <- semaphore_acquire i;
  if negb permit then ret false
  else
    do reserved <- _reserve_request_slot i t;
    if reserved then
      modify (update_loc (λ l, l <| l_channel := Some i |>)) ;;
      catch (_daily_free_gate i t ;; ret true)
        (λ x, _cancel_local_reservation i (t_cancel_stored t) ;;
              match x with
              | Failed e =>
                  if e_http e && str_eqb (e_code e) (u "VLM-005")
                  then modify (update_loc (λ l,
                         l <| quota_gate_errors := id_set i e (quota_gate_errors l) |>)) ;;
                       ret false
                  else fail x
              | _ => fail x
              end)
    else semaphore_release i ;; ret false.

(** Local bookkeeping of [release_channel]. *)
Definition note_outcome (threshold now : Z) (use : option usage) (error : option perror) (c : pchannel)
  : pchannel :=
  match error with
  | Some e =>
      let c := c <| failures := failures c + 1 |> in
      let retry := or_default (e_retry_after e) 0 in
      if (threshold <=? failures c) || negb (retry =? 0)
      then c <| circuit_until := now + Z.max retry (cooldown (limits c)) |>
      else c
  | None =>
      let c := c <| failures := 0 |> in
      match use with
      | Some w =>
          let used := input_tokens w + output_tokens w in
          if used =? 0 then c else c <| token_events := token_events c ++ [(now, used)] |>
      | None => c
      end
  end.

Definition outcome_of (use : option usage) (error : option perror) : Quota.outcome :=
  Quota.mk_outcome
    (match use with Some w => if tokens_reported w then Some (input_tokens w + output_tokens w) else None
                  | None => None end)
    (option_map (λ e, or_default (e_retry_after e) 0) error).

Definition release_channel (i : nat) (mono wall : Z) (stored : bool) (use : option usage)
    (error : option perror) : M unit :=
  do threshold <- gets failure_threshold;
  modify (update_chan i (note_outcome threshold mono use error)) ;;
  do c <- gets (chan i);
  finally
    (match shared_scope c with
     | Some scope =>
         do held <- gets (λ r, id_get i (quota_reservations (loc r)));
         modify (update_loc (λ l, l <| quota_reservations := id_pop i (quota_reservations l) |>)) ;;
         match held with
         | Some identifier =>
             if stored
             then modify (λ r, r <| shared := Quota.release (shared r) scope identifier (limits c) wall
                                                (outcome_of use error) threshold |>)
             else fail StorageError
         | None => ret tt
         end
     | None => ret tt
     end)
    (modify (update_loc (λ l, l <| request_slots := id_pop i (request_slots l) |>)) ;; semaphore_release i).

(** ** Routing *)

Definition excluded_channel (excluded : list str) (c : pchannel) : bool := str_in (provider_id c) excluded.

(** [candidate_channels]: eligible for the network, by the local limits only. *)
Definition candidate_channels (excluded : list str) (now : Z) : M (list nat) :=
  modify (λ r, r <| channels := map (_prune_quota_events now) (channels r) |>) ;;
  gets (λ r, List.filter (λ i, negb (excluded_channel excluded (chan i r)) && locally_usable (chan i r) now)
               (route r)).

Definition route_channels (excluded : list str) (r : router) : list nat :=
  List.filter (λ i, negb (excluded_channel excluded (chan i r))) (route r).

(** One provider call: when it is taken, when it is returned, what it answers. *)
Record attempt := mk_attempt {
  at_tick : tick; at_mono : Z; at_wall : Z; at_stored : bool; at_reply : result perror response }.

(** [bool(vision_started) or bool(request_started) or bool(ambiguous)] *)
Definition may_have_started (e : perror) : bool :=
  e_vision_started e || e_request_started e || e_ambiguous e.

Fixpoint select_from (ids : list nat) (excluded : list str) (world : nat → tick) (t : tick) : M nat :=
  match ids with
  | [] => do e <- gets (λ r, _unavailable r t (route r)); fail (Failed e)
  | i :: ids' =>
      do c <- gets (chan i);
      if excluded_channel excluded c then select_from ids' excluded world t
      else
        do got <- acquire_channel i (world i);
        if got then ret i else select_from ids' excluded world t
  end.
Definition select_channel (excluded : list str) (world : nat → tick) (t : tick) : M nat :=
  do ids <- gets route;
  select_from ids excluded world t.

(** The loop of [_execute] and [analyze_isolated] over the remaining channels;
    [last] is [last_error]. *)
Fixpoint execute_from (ids : list nat) (last : option perror) (world : nat → attempt) (t : tick) : M response :=
  match ids with
  | [] =>
      match last with
      | Some e => fail (Failed e)
      | None => do e <- gets (λ r, _unavailable r t (route r)); fail (Failed e)
      end
  | i :: ids' =>
      let a := world i in
      do got <- acquire_channel i (at_tick a);
      if negb got then execute_from ids' last world t
      else
        modify (update_loc (λ l, l <| l_channel := Some i |>)) ;;
        modify (λ r, r <| calls := calls r ++ [(i, at_reply a)] |>) ;;
        match at_reply a with
        | Raise e =>
            release_channel i (at_mono a) (at_wall a) (at_stored a) None (Some e) ;;
            if may_have_started e then fail (Failed e) else execute_from ids' (Some e) world t
        | Ok resp =>
            release_channel i (at_mono a) (at_wall a) (at_stored a) (Some (resp_usage resp)) None ;;
            ret resp
        end
  end.
Definition _execute (world : nat → attempt) (t : tick) : M response :=
  do ids <- gets route;
  execute_from ids None world t.

Definition _execute_sticky (i : nat) (a : attempt) : M response :=
  do got <- acquire_channel i (at_tick a);
  if negb got then do e <- gets (λ r, _unavailable r (at_tick a) [i]); fail (Failed e)
  else
    modify (update_loc (λ l, l <| l_channel := Some i |>)) ;;
    modify (λ r, r <| calls := calls r ++ [(i, at_reply a)] |>) ;;
    match at_reply a with
    | Raise e => release_channel i (at_mono a) (at_wall a) (at_stored a) None (Some e) ;; fail (Failed e)
    | Ok resp => release_channel i (at_mono a) (at_wall a) (at_stored a) (Some (resp_usage resp)) None ;; ret resp
    end.

Definition repair_json (world : nat → attempt) (t : tick) : M response :=
  do c <- gets (λ r, l_channel (loc r));
  match c with
  | None => _execute world t
  | Some i => _execute_sticky i (world i)
  end.
