(* ===== verification/RouterProps.v ===== *)
(** * What the provider router guarantees

    Reasoning is by a weakest-precondition calculus for the monad [M] of
    [Router].  Shown: a request that may have started is never repeated on
    another provider; permits are returned on every path and never exceed the
    channel's concurrency, whatever the interleaving of the threads; a paid
    channel is used only when the account's free quota is exhausted. *)

From S2P Require Import Prelude PyStr Sql Quota Router.
Local Open Scope Z_scope.

(** ** Weakest preconditions *)

Definition wp {A} (m : M A) (Q : result rexn A → router → Prop) (r : router) : Prop :=
  Q (fst (m r)) (snd (m r)).

Lemma wp_run {A} (m : M A) Q r x r' : wp m Q r → m r = (x, r') → Q x r'.
Proof. unfold wp. intros H E. by rewrite E in H. Qed.

Lemma wp_mono {A} (m : M A) (Q Q' : result rexn A → router → Prop) r :
  wp m Q r → (∀ x r', Q x r' → Q' x r') → wp m Q' r.
Proof. unfold wp. auto. Qed.

Lemma wp_ret {A} (a : A) (Q : result rexn A → router → Prop) r : Q (Ok a) r → wp (ret a) Q r.
Proof. done. Qed.

Lemma wp_fail {A} e (Q : result rexn A → router → Prop) r : Q (Raise e) r → wp (fail e) Q r.
Proof. done. Qed.

Lemma wp_gets {A} (f : router → A) (Q : result rexn A → router → Prop) r : Q (Ok (f r)) r → wp (gets f) Q r.
Proof. done. Qed.

Lemma wp_modify f (Q : result rexn unit → router → Prop) r : Q (Ok tt) (f r) → wp (modify f) Q r.
Proof. done. Qed.

Lemma wp_bind {A B} (m : M A) (k : A → M B) Q r :
  wp m (λ x r', match x with Ok a => wp (k a) Q r' | Raise e => Q (Raise e) r' end) r → wp (bind m k) Q r.
Proof. unfold wp, bind. by destruct (m r) as [[]]. Qed.

Lemma wp_catch {A} (m : M A) h (Q : result rexn A → router → Prop) r :
  wp m (λ x r', match x with Ok a => Q (Ok a) r' | Raise e => wp (h e) Q r' end) r → wp (catch m h) Q r.
Proof. unfold wp, catch. by destruct (m r) as [[]]. Qed.

Lemma wp_finally {A} (m : M A) k (Q : result rexn A → router → Prop) r :
  wp m (λ x r', wp k (λ y r'', match y with Ok _ => Q x r'' | Raise e => Q (Raise e) r'' end) r') r →
  wp (finally m k) Q r.
Proof. unfold wp, finally. destruct (m r) as [x r']. simpl. by destruct (k r') as [[]]. Qed.

(** One step of symbolic execution. *)
Ltac wp_step :=
  lazymatch goal with
  | |- wp (bind _ _) _ _ => apply wp_bind
  | |- wp (ret _) _ _ => apply wp_ret
  | |- wp (fail _) _ _ => apply wp_fail
  | |- wp (gets _) _ _ => apply wp_gets; cbv beta
  | |- wp (modify _) _ _ => apply wp_modify; cbv beta
  | |- wp (catch _ _) _ _ => apply wp_catch
  | |- wp (finally _ _) _ _ => apply wp_finally
  | |- wp (from_reply ?x) _ _ => unfold from_reply; destruct x eqn:?
  | |- wp (if ?b then _ else _) _ _ => destruct b eqn:?
  | |- wp (match ?x with _ => _ end) _ _ => destruct x eqn:?
  end.

(** ** What the operations leave alone

    [fixed r r']: same route configuration, same recorded calls. *)

Definition static (c : pchannel) : pchannel :=
  c <| permits := 0 |> <| request_times := [] |> <| token_events := [] |> <| failures := 0 |>
    <| circuit_until := 0 |>.
Definition permits_of (r : router) (j : nat) : option Z := permits <$> channels r !! j.
Definition config_of (r : router) : list pchannel := map static (channels r).

(** Everything but the permits, the limits' bookkeeping and the thread's own data. *)
Record fixed (r r' : router) : Prop := {
  fx_config : config_of r' = config_of r;
  fx_calls : calls r' = calls r;
  fx_threshold : failure_threshold r' = failure_threshold r;
}.
(** [fixed], and the permits too. *)
Record quiet (r r' : router) : Prop := {
  qt_fixed : fixed r r';
  qt_permits : ∀ j, permits_of r' j = permits_of r j;
}.

#[export] Instance fixed_po : PreOrder fixed.
Proof. split; [done|]. intros a b c [] []. split; congruence. Qed.
#[export] Instance quiet_po : PreOrder quiet.
Proof. split; [done|]. intros a b c [] []. split; [by etransitivity|congruence]. Qed.

Lemma config_length r r' : config_of r' = config_of r → length (channels r') = length (channels r).
Proof. intros H. apply (f_equal length) in H. unfold config_of in H. by rewrite !length_map in H. Qed.

Lemma chan_static i r r' : config_of r' = config_of r → static (chan i r') = static (chan i r).
Proof.
  intros H. unfold chan. rewrite <- !(map_nth static). change (static blank_channel) with blank_channel.
  by change (map static (channels ?x)) with (config_of x); rewrite H.
Qed.

Lemma static_proj {A} (f : pchannel → A) c c' : (∀ c, f (static c) = f c) → static c = static c' → f c = f c'.
Proof. intros Hf H. by rewrite <- (Hf c), <- (Hf c'), H. Qed.

Lemma map_alter_same {A B} (f : A → B) (g : A → A) i (l : list A) :
  (∀ x, f (g x) = f x) → map f (alter g i l) = map f l.
Proof.
  intros H. revert i. induction l as [|x l IH]; intros [|i]; [done|done|..].
  - change (f (g x) :: map f l = f x :: map f l). by rewrite H.
  - change (f x :: map f (alter g i l) = f x :: map f l). by rewrite IH.
Qed.

Lemma update_chan_channels i f r : channels (update_chan i f r) = alter f i (channels r).
Proof. done. Qed.

Lemma update_chan_quiet i f r :
  (∀ c, static (f c) = static c) → (∀ c, permits (f c) = permits c) → quiet r (update_chan i f r).
Proof.
  intros Hs Hp. split; [split|]; try done.
  - unfold config_of. rewrite update_chan_channels. by apply map_alter_same.
  - intros j. unfold permits_of. rewrite update_chan_channels.
    destruct (decide (i = j)) as [->|]; [rewrite list_lookup_alter_eq|by rewrite list_lookup_alter_ne].
    destruct (channels r !! j); simpl; by rewrite ?Hp.
Qed.

Lemma update_loc_quiet f r : quiet r (update_loc f r).
Proof. done. Qed.

Lemma set_shared_quiet q r : quiet r (r <| shared := q |>).
Proof. done. Qed.

Lemma prune_quiet i now r : quiet r (update_chan i (_prune_quota_events now) r).
Proof. by apply update_chan_quiet. Qed.

Lemma note_outcome_static threshold now use error c : static (note_outcome threshold now use error c) = static c.
Proof. unfold note_outcome. destruct error; [destruct (_ || _)|destruct use; [destruct (_ =? _)|]]; done. Qed.
Lemma note_outcome_permits threshold now use error c : permits (note_outcome threshold now use error c) = permits c.
Proof. unfold note_outcome. destruct error; [destruct (_ || _)|destruct use; [destruct (_ =? _)|]]; done. Qed.

(** ** Permits *)

(** [r'] is [r] with the permits of channel [i] moved by [d]. *)
Record moved (i : nat) (d : Z) (r r' : router) : Prop := {
  mv_fixed : fixed r r';
  mv_permits : ∀ j, permits_of r' j = (λ p, p + if decide (j = i) then d else 0) <$> permits_of r j;
}.

Lemma quiet_moved i r r' : quiet r r' ↔ moved i 0 r r'.
Proof.
  split; intros [Hf Hp]; split; try done; intros j; rewrite Hp; destruct (permits_of r j); simpl; try done;
    f_equal; destruct (decide _); lia.
Qed.

Lemma moved_trans i d d' r r' r'' : moved i d r r' → moved i d' r' r'' → moved i (d + d') r r''.
Proof.
  intros [H1 H2] [H3 H4]. split; [by etransitivity|]. intros j. rewrite H4, H2.
  destruct (permits_of r j); simpl; [|done]. f_equal. destruct (decide _); lia.
Qed.

Lemma moved_quiet i d r r' r'' : moved i d r r' → quiet r' r'' → moved i d r r''.
Proof. intros H1 H2%(quiet_moved i). replace d with (d + 0) by lia. by eapply moved_trans. Qed.
Lemma quiet_moved_trans i d r r' r'' : quiet r r' → moved i d r' r'' → moved i d r r''.
Proof. intros H1%(quiet_moved i) H2. replace d with (0 + d) by lia. by eapply moved_trans. Qed.

Lemma update_permits_moved i d r : moved i d r (update_chan i (λ c, c <| permits := permits c + d |>) r).
Proof.
  split; [split; try done|].
  - unfold config_of. rewrite update_chan_channels. by apply map_alter_same.
  - intros j. unfold permits_of. rewrite update_chan_channels.
    destruct (decide (j = i)) as [->|]; [rewrite list_lookup_alter_eq|rewrite list_lookup_alter_ne by done];
      destruct (channels r !! _); simpl; try done. by rewrite Z.add_0_r.
Qed.

(** Inside the route, a permit count between 0 and the capacity. *)
Definition in_route (i : nat) (r : router) : Prop := (i < length (channels r))%nat.
Lemma chan_lookup i r : in_route i r → channels r !! i = Some (chan i r).
Proof. intros [c Hc]%lookup_lt_is_Some. unfold chan. by rewrite (nth_lookup_Some _ _ _ _ Hc). Qed.

Lemma fixed_capacity i r r' : fixed r r' → capacity (chan i r') = capacity (chan i r).
Proof. intros [H _ _]. by apply (static_proj capacity), chan_static. Qed.
Lemma fixed_scope i r r' : fixed r r' → shared_scope (chan i r') = shared_scope (chan i r).
Proof. intros [H _ _]. by apply (static_proj shared_scope), chan_static. Qed.
Lemma fixed_in_route i r r' : fixed r r' → in_route i r → in_route i r'.
Proof. intros [H _ _]. unfold in_route. by rewrite (config_length r r'). Qed.

Lemma moved_permits i d r r' : in_route i r → moved i d r r' → permits (chan i r') = permits (chan i r) + d.
Proof.
  intros Hi [Hf Hp]. pose proof (fixed_in_route _ _ _ Hf Hi) as Hi'. specialize (Hp i). unfold permits_of in Hp.
  rewrite (chan_lookup i r), (chan_lookup i r') in Hp by done. simpl in Hp. injection Hp as ->.
  by rewrite decide_True by done.
Qed.

(** A semaphore permit taken and given back. *)
Lemma wp_semaphore_acquire i r (Q : result rexn bool → router → Prop) :
  (permits (chan i r) ≤ 0 → Q (Ok false) r) →
  (0 < permits (chan i r) → ∀ r', moved i (-1) r r' → loc r' = loc r → Q (Ok true) r') →
  wp (semaphore_acquire i) Q r.
Proof.
  intros H0 H1. unfold semaphore_acquire. repeat wp_step; bprop; [|by apply H0].
  apply H1; [done| |done]. apply (update_permits_moved i (-1)).
Qed.

Lemma wp_semaphore_release i r (Q : result rexn unit → router → Prop) :
  permits (chan i r) < capacity (chan i r) →
  (∀ r', moved i 1 r r' → loc r' = loc r → Q (Ok tt) r') → wp (semaphore_release i) Q r.
Proof.
  intros Hlt H. unfold semaphore_release. repeat wp_step; bprop; [lia|].
  apply H; [apply update_permits_moved|done].
Qed.

(** ** Quiet operations *)

Lemma quiet_loc r r' f : quiet r r' → quiet r (update_loc f r').
Proof. intros H. etransitivity; [exact H|apply update_loc_quiet]. Qed.
Lemma quiet_shared r r' q : quiet r r' → quiet r (r' <| shared := q |>).
Proof. intros H. etransitivity; [exact H|apply set_shared_quiet]. Qed.
Lemma quiet_chan r r' i f :
  quiet r r' → (∀ c, static (f c) = static c) → (∀ c, permits (f c) = permits c) → quiet r (update_chan i f r').
Proof. intros H ??. etransitivity; [exact H|by apply update_chan_quiet]. Qed.
Lemma quiet_prune r r' i now : quiet r r' → quiet r (update_chan i (_prune_quota_events now) r').
Proof. intros H. by apply quiet_chan. Qed.
Lemma quiet_outcome r r' i threshold now use error :
  quiet r r' → quiet r (update_chan i (note_outcome threshold now use error) r').
Proof. intros H. apply quiet_chan; [done| |]; intros; [apply note_outcome_static|apply note_outcome_permits]. Qed.

Ltac quiet :=
  repeat first [assumption | reflexivity | apply quiet_loc | apply quiet_shared | apply quiet_prune
               | apply quiet_outcome | apply quiet_chan; [|intros; reflexivity|intros; reflexivity]].

Lemma wp_can_use i t r0 r :
  quiet r0 r → wp (_can_use_channel_locked i t) (λ x r', quiet r0 r' ∧ ∃ b, x = Ok b) r.
Proof. intros H. unfold _can_use_channel_locked. repeat wp_step; split; eauto; quiet. Qed.

Lemma wp_reserve i t r0 r :
  quiet r0 r →
  wp (_reserve_request_slot i t) (λ x r', quiet r0 r' ∧ (∀ e, x = Raise e → e = StorageError)) r.
Proof.
  intros H. unfold _reserve_request_slot. repeat wp_step; try (split; [quiet|by intros ? [= <-]]).
  eapply wp_mono; [by apply wp_can_use|]. cbv beta. intros x r' (Hq & b & ->). destruct b; repeat wp_step; (split; [quiet|done]).
Qed.

Lemma wp_gate i t r0 r :
  quiet r0 r →
  wp (_daily_free_gate i t) (λ x r', quiet r0 r' ∧ (∀ e, x = Raise e → ∃ f, e = Failed f)) r.
Proof.
  intros H. unfold _daily_free_gate. repeat wp_step; (split; [quiet|try (intros e' [= <-]; eauto); done]).
Qed.

(** [_cancel_local_reservation] gives the permit back, unless the storage fails. *)
Lemma wp_cancel i stored r0 r :
  in_route i r0 → moved i (-1) r0 r → permits (chan i r0) ≤ capacity (chan i r0) →
  wp (_cancel_local_reservation i stored)
    (λ x r', match x with Ok _ => quiet r0 r' | Raise e => e = StorageError ∧ moved i (-1) r0 r' end) r.
Proof.
  intros Hi Hm Hcap. unfold _cancel_local_reservation.
  assert (Hrel : ∀ r', quiet r r' → wp (semaphore_release i)
    (λ x r', match x with Ok _ => quiet r0 r' | Raise e => e = StorageError ∧ moved i (-1) r0 r' end) r').
  { intros r' Hq. assert (Hm' : moved i (-1) r0 r') by (by eapply moved_quiet).
    apply wp_semaphore_release.
    - rewrite (moved_permits _ _ _ _ Hi Hm'), (fixed_capacity i r0 r') by apply Hm'. lia.
    - intros r'' Hm'' _. apply (quiet_moved i). replace 0 with (-1 + 1) by lia. by eapply moved_trans. }
  repeat wp_step; try (apply Hrel; quiet). split; [done|]. eapply moved_quiet; [exact Hm|quiet].
Qed.

(** [acquire_channel] keeps the permit exactly when it returns true or the
    storage fails under it. *)
Lemma wp_acquire i t r :
  in_route i r → permits (chan i r) ≤ capacity (chan i r) →
  wp (acquire_channel i t)
    (λ x r', match x with
             | Ok true => moved i (-1) r r' ∧ 0 < permits (chan i r)
             | Ok false => quiet r r'
             | Raise StorageError => moved i (-1) r r' ∧ 0 < permits (chan i r)
             | Raise SemaphoreError => False
             | Raise (Failed _) => quiet r r'
             end) r.
Proof.
  intros Hi Hcap. unfold acquire_channel. wp_step. wp_step. wp_step.
  set (r1 := update_loc _ r). assert (Hq1 : quiet r r1) by (unfold r1; quiet).
  assert (Hp1 : permits (chan i r1) = permits (chan i r)) by done.
  apply wp_semaphore_acquire; [intros _; cbn [negb]; wp_step; quiet|]. intros Hpos r2 Hm2 _. cbn [negb].
  assert (Hm : moved i (-1) r r2) by (by eapply quiet_moved_trans).
  wp_step. eapply wp_mono; [by apply (wp_reserve i t r2)|]. cbv beta. intros x r3 (Hq3 & He).
  assert (Hm3 : moved i (-1) r r3) by (by eapply moved_quiet).
  destruct x as [[]|e]; [| |rewrite (He e eq_refl); split; [done|lia]].
  - wp_step. wp_step. wp_step. wp_step. eapply wp_mono; [apply (wp_gate i t r3); quiet|].
    cbv beta. intros x r4 (Hq4 & Hg). destruct x as [[]|e].
    + wp_step. split; [by eapply moved_quiet|lia].
    + destruct (Hg e eq_refl) as (f & ->). wp_step.
      eapply wp_mono; [apply (wp_cancel i _ r); [done|by eapply moved_quiet|done]|].
      cbv beta. intros y r5 Hy. destruct y as [[]|e]; [|destruct Hy as [-> Hy]; split; [exact Hy|lia]].
      wp_step; repeat wp_step; quiet.
  - wp_step. apply wp_semaphore_release.
    + rewrite (moved_permits _ _ _ _ Hi Hm3), (fixed_capacity i r r3) by apply Hm3. lia.
    + intros r4 Hm4 _. wp_step. apply (quiet_moved i). replace 0 with (-1 + 1) by lia. by eapply moved_trans.
Qed.

(** [release_channel] always gives the permit back, also when the storage fails. *)
Lemma wp_release i mono wall stored use error r :
  in_route i r → permits (chan i r) < capacity (chan i r) →
  wp (release_channel i mono wall stored use error)
    (λ x r', moved i 1 r r' ∧ (∀ e, x = Raise e → e = StorageError)) r.
Proof.
  intros Hi Hlt. unfold release_channel. do 6 wp_step. set (r1 := update_chan i _ r).
  assert (Hq1 : quiet r r1) by (unfold r1; quiet).
  assert (Hend : ∀ (x : result rexn unit) r', quiet r r' → (∀ e, x = Raise e → e = StorageError) →
    wp (modify (update_loc (λ l, l <| request_slots := id_pop i (request_slots l) |>)) ;; semaphore_release i)
       (λ y r'', match y with
         | Ok _ => moved i 1 r r'' ∧ (∀ e, x = Raise e → e = StorageError)
         | Raise e => moved i 1 r r'' ∧ (∀ e', @Raise rexn unit e = Raise e' → e' = StorageError) end) r').
  { intros x r' Hq Hx. wp_step. wp_step. apply wp_semaphore_release.
    - assert (Hq' : quiet r (update_loc (λ l, l <| request_slots := id_pop i (request_slots l) |>) r')) by quiet.
      rewrite (moved_permits i 0 r), (fixed_capacity i r) by (done || apply Hq' || by apply quiet_moved). lia.
    - intros r'' Hm _. split; [|done]. eapply quiet_moved_trans; [|exact Hm]. quiet. }
  wp_step. repeat wp_step; apply Hend; try (by intros ? [= <-]); quiet.
Qed.

(** ** One route, at most one started request *)

(** The semaphores of the route are within their bounds. *)
Definition bounded (r : router) : Prop := ∀ j, in_route j r → permits (chan j r) ≤ capacity (chan j r).

(** Same route, same permits. *)
Record settled (r r' : router) : Prop := {
  st_config : config_of r' = config_of r;
  st_permits : ∀ j, permits_of r' j = permits_of r j;
}.
#[export] Instance settled_po : PreOrder settled.
Proof. split; [done|]. intros a b c [] []. split; [congruence|]. intros j. congruence. Qed.

Lemma quiet_settled r r' : quiet r r' → settled r r'.
Proof. by intros [[] ?]. Qed.

Lemma settled_in_route j r r' : settled r r' → in_route j r ↔ in_route j r'.
Proof. intros [H _]. unfold in_route. by rewrite (config_length r r'). Qed.

Lemma settled_bounded r r' : settled r r' → bounded r → bounded r'.
Proof.
  intros Hs Hb j Hj. pose proof Hs as [Hc Hp]. assert (Hj0 : in_route j r) by (by apply (settled_in_route j r r')).
  specialize (Hp j). unfold permits_of in Hp. rewrite (chan_lookup j r), (chan_lookup j r') in Hp by done.
  injection Hp as ->. rewrite (static_proj capacity (chan j r') (chan j r)); [auto|done|by apply chan_static].
Qed.

Definition started (c : nat * result perror response) : bool :=
  match snd c with Ok _ => true | Raise e => may_have_started e end.

(** The calls of one execution: every one but the last failed before anything
    was sent; a success is the last call; an error that reports nothing was
    started is truthful about the whole trace. *)
Record one_start (x : result rexn response) (tr : list (nat * result perror response)) : Prop := {
  os_prefix : ∀ a b, tr = a ++ b → b ≠ [] → Forall (λ c, started c = false) a;
  os_success : ∀ resp, x = Ok resp → ∃ i, last tr = Some (i, Ok resp);
  os_truthful : ∀ e, x = Raise (Failed e) → may_have_started e = false → Forall (λ c, started c = false) tr;
}.

Lemma all_unstarted_prefix tr :
  Forall (λ c, started c = false) tr → ∀ a b, tr = a ++ b → b ≠ [] → Forall (λ c, started c = false) a.
Proof. intros H a b -> _. by apply Forall_app in H as [H _]. Qed.

Lemma one_start_nil e : one_start (Raise e) [].
Proof. split; try done. by apply all_unstarted_prefix. Qed.

Lemma one_start_cons x i e tr :
  may_have_started e = false → one_start x tr → one_start x ((i, Raise e) :: tr).
Proof.
  intros He [Hp Hs Ht]. split.
  - intros [|c a] b Hab Hb; [constructor|]. injection Hab as <- ->. constructor; [done|]. by eapply Hp.
  - intros resp ->. destruct (Hs resp eq_refl) as (j & Hj). exists j. by destruct tr.
  - intros f -> Hf. constructor; [done|]. by eapply Ht.
Qed.

Lemma one_start_single_ok i resp : one_start (Ok resp) [(i, Ok resp)].
Proof.
  split; [|intros ? [= <-]; eauto|done]. intros [|c [|d a]] b Hab Hb; [constructor|..]; injection Hab as <- Hab.
  - by rewrite <- Hab in Hb.
  - by destruct a.
Qed.

Lemma one_start_single i e f :
  (f = Failed e ∧ may_have_started e = true) ∨ (∀ g, f ≠ Failed g) → one_start (Raise f) [(i, Raise e)].
Proof.
  intros H. split; [|done|].
  - intros [|c [|d a]] b Hab Hb; [constructor|..]; injection Hab as <- Hab; [by rewrite <- Hab in Hb|by destruct a].
  - intros g [= ->] Hg. destruct H as [[[= ->] H]|H]; [congruence|by destruct (H g)].
Qed.

Lemma one_start_single_raise i rep f : (∀ g, f ≠ Failed g) → one_start (Raise f) [(i, rep)].
Proof.
  intros H. split; [|done|intros g [= ->]; by destruct (H g)].
  intros [|c [|d a]] b Hab Hb; [constructor|..]; injection Hab as <- Hab; [by rewrite <- Hab in Hb|by destruct a].
Qed.

(** Postcondition of an execution over the channels [ids]. *)
Definition routed (ids : list nat) (r : router) (x : result rexn response) (r' : router) : Prop :=
  ∃ tr, calls r' = calls r ++ tr ∧ sublist (map fst tr) ids ∧ one_start x tr ∧
        x ≠ Raise SemaphoreError ∧ (x ≠ Raise StorageError → settled r r').

Lemma routed_skip ids i r r1 x r' :
  quiet r r1 → routed ids r1 x r' → routed (i :: ids) r x r'.
Proof.
  intros Hq (tr & Hc & Hs & Ho & Hx & Hst). exists tr.
  rewrite Hc, (fx_calls _ _ (qt_fixed _ _ Hq)). split_and!; try done.
  - by apply sublist_cons.
  - intros Hne. etransitivity; [by apply quiet_settled|auto].
Qed.

Lemma routed_first ids i rep r r1 x r' :
  settled r r1 → calls r1 = calls r ++ [(i, rep)] →
  (∃ e, rep = Raise e ∧ may_have_started e = false) → routed ids r1 x r' → routed (i :: ids) r x r'.
Proof.
  intros Hst1 Hc1 (e & -> & He) (tr & Hc & Hs & Ho & Hx & Hst).
  exists ((i, Raise e) :: tr). rewrite Hc, Hc1, <- app_assoc. split_and!; try done.
  - by apply sublist_skip.
  - by apply one_start_cons.
  - intros Hne. etransitivity; [exact Hst1|auto].
Qed.

(** The call made while a permit is held, and its return. *)
Definition called (i : nat) (rep : result perror response) (r : router) : router :=
  (update_loc (λ l, l <| l_channel := Some i |>) r) <| calls := calls r ++ [(i, rep)] |>.

Lemma wp_called_release i rep mono wall stored use error r r1 (Q : result rexn unit → router → Prop) :
  in_route i r → bounded r → moved i (-1) r r1 →
  (∀ x r', settled r r' → calls r' = calls r ++ [(i, rep)] → (∀ e, x = Raise e → e = StorageError) → Q x r') →
  wp (release_channel i mono wall stored use error) Q (called i rep r1).
Proof.
  intros Hi Hb Hm HQ. eapply wp_mono.
  - apply wp_release; [change (in_route i r1); by eapply fixed_in_route; [apply Hm|]|].
    change (permits (chan i r1) < capacity (chan i r1)).
    rewrite (moved_permits _ _ _ _ Hi Hm), (fixed_capacity i r r1) by apply Hm. specialize (Hb i Hi). lia.
  - intros x r' [Hm' He]. apply HQ; [| |done].
    + assert (Hc : moved i (-1 + 1) r (r' <| calls := calls r |>)); 
        [|apply (quiet_moved i), quiet_settled in Hc as [Hc1 Hc2]; split; [exact Hc1|exact Hc2]].
      eapply moved_trans; [exact Hm|]. destruct Hm' as [[] Hp]. destruct Hm as [[] _]. split; [|exact Hp].
      split; [exact fx_config0|exact (eq_sym fx_calls1)|exact fx_threshold0].
    + destruct Hm' as [[_ -> _] _]. destruct Hm as [[_ Hc _] _]. simpl. by rewrite Hc.
Qed.

Lemma wp_execute_from ids last world t r :
  (∀ i, i ∈ ids → in_route i r) → bounded r → (∀ e, last = Some e → may_have_started e = false) →
  wp (execute_from ids last world t) (routed ids r) r.
Proof.
  revert last r. induction ids as [|i ids IH]; intros last r Hin Hb Hl; cbn [execute_from].
  - repeat wp_step; exists []; rewrite app_nil_r; (split_and!; [done|done|apply one_start_nil|done|done]).
  - assert (Hi : in_route i r) by (apply Hin; left).
    wp_step. eapply wp_mono; [by apply wp_acquire; [|apply Hb]|]. cbv beta. intros x r1 Hx.
    destruct x as [[]|[e| |]].
    + destruct Hx as [Hm _]. cbn [negb]. wp_step. wp_step. wp_step. wp_step.
      change (router_eta _) with (called i (at_reply (world i)) r1) ||
        match goal with |- wp _ _ ?s => change s with (called i (at_reply (world i)) r1) end.
      destruct (at_reply (world i)) as [resp|e] eqn:Hrep.
      * wp_step. apply (wp_called_release i _ _ _ _ _ _ r); [done..|]. intros x r' Hst Hc He.
        destruct x as [[]|e]; [wp_step|rewrite (He e eq_refl)]; exists [(i, Ok resp)]; split_and!; try done;
          try (apply sublist_skip, sublist_nil_l); [apply one_start_single_ok|by apply one_start_single_raise].
      * wp_step. apply (wp_called_release i _ _ _ _ _ _ r); [done..|]. intros x r' Hst Hc He.
        destruct x as [[]|f]; [wp_step|rewrite (He f eq_refl)].
        -- wp_step. exists [(i, Raise e)]; split_and!; try done; [apply sublist_skip, sublist_nil_l|].
           apply one_start_single. by left.
        -- eapply wp_mono; [apply IH|].
           ++ intros j Hj. apply (settled_in_route j r r' Hst), Hin. by right.
           ++ by eapply settled_bounded.
           ++ by intros ? [= <-].
           ++ intros x r'' Hr. eapply routed_first; [exact Hst|exact Hc|eauto|exact Hr].
        -- exists [(i, Raise e)]; split_and!; try done; [apply sublist_skip, sublist_nil_l|].
           apply one_start_single. by right.
    + cbn [negb]. eapply wp_mono; [apply IH|].
      * intros j Hj. apply (settled_in_route j r r1 (quiet_settled _ _ Hx)), Hin. by right.
      * eapply settled_bounded; [by apply quiet_settled|done].
      * done.
      * intros x r'' Hr. by eapply routed_skip.
    + exists []. rewrite app_nil_r, (fx_calls _ _ (qt_fixed _ _ Hx)).
      split_and!; [done|apply sublist_nil_l|apply one_start_nil|done|intros _; by apply quiet_settled].
    + done.
    + destruct Hx as [Hx _]. exists []. rewrite app_nil_r, (fx_calls _ _ (mv_fixed _ _ _ _ Hx)).
      split_and!; [done|apply sublist_nil_l|apply one_start_nil|done|done].
Qed.

Lemma route_in_route i r : i ∈ route r → in_route i r.
Proof. unfold route, in_route. rewrite elem_of_seq. lia. Qed.

Lemma wp_execute world t r : bounded r → wp (_execute world t) (routed (route r) r) r.
Proof.
  intros Hb. unfold _execute. wp_step. wp_step. apply wp_execute_from; [intros i Hi; by apply route_in_route|exact Hb|done].
Qed.

Lemma one_start_count x tr : one_start x tr → countb started tr ≤ 1.
Proof.
  intros [Hp _ _]. destruct tr as [|c tr] using rev_ind; [done|].
  rewrite countb_app, countb_cons, countb_nil. specialize (Hp tr [c] eq_refl ltac:(done)).
  assert (countb started tr = 0); [|destruct (started c); lia].
  apply countb_zero. apply not_true_is_false. intros (y & Hy & Hs)%existsb_exists.
  rewrite List.Forall_forall in Hp. specialize (Hp y Hy). congruence.
Qed.

(** C24. Failover never repeats work that may have been paid for: one
    [_execute] (or [analyze_isolated]) calls the channels of the route in
    priority order, each at most once, and every call but the last failed
    before a request was started; a returned response is the reply of the last
    call; and an error that says nothing was started is truthful for the whole
    route, so the photo may be queued again. *)
Theorem failover_starts_one_request world t r :
  bounded r →
  let '(x, r') := _execute world t r in
  ∃ tr, calls r' = calls r ++ tr ∧ sublist (map fst tr) (route r) ∧ NoDup (map fst tr)
    ∧ countb started tr ≤ 1
    ∧ (∀ resp, x = Ok resp → ∃ i, last tr = Some (i, Ok resp))
    ∧ (∀ e, x = Raise (Failed e) → may_have_started e = false → countb started tr = 0).
Proof.
  intros Hb. pose proof (wp_execute world t r Hb) as H. unfold wp in H.
  destruct (_execute world t r) as [x r']. destruct H as (tr & Hc & Hs & Ho & _). exists tr.
  split_and!; [done|done| |by eapply one_start_count|apply Ho|].
  - eapply sublist_NoDup; [|exact Hs]. apply NoDup_seq.
  - intros e He Hm. pose proof (os_truthful _ _ Ho e He Hm) as Hf. apply countb_zero, not_true_is_false.
    intros (y & Hy & Hst)%existsb_exists. rewrite List.Forall_forall in Hf. specialize (Hf y Hy). congruence.
Qed.

(** Every path through [_execute] and [_execute_sticky], success, refused
    channels, failed gates and provider errors alike, gives back the permits it
    took, and the bounded semaphores are never over-released; only a storage
    failure of the shared quota ends otherwise. *)
Theorem permits_returned world t a i r :
  bounded r → in_route i r →
  (∀ x r', _execute world t r = (x, r') → x ≠ Raise SemaphoreError
     ∧ (x ≠ Raise StorageError → ∀ j, permits_of r' j = permits_of r j)) ∧
  (∀ x r', _execute_sticky i a r = (x, r') → x ≠ Raise SemaphoreError
     ∧ (x ≠ Raise StorageError → ∀ j, permits_of r' j = permits_of r j)).
Proof.
  intros Hb Hi. split.
  - intros x r' Hx. pose proof (wp_run _ _ _ _ _ (wp_execute world t r Hb) Hx) as (tr & _ & _ & _ & Hne & Hst).
    split; [done|]. intros Hs. apply (Hst Hs).
  - intros x r' Hx.
    enough (wp (_execute_sticky i a) (λ x r', x ≠ Raise SemaphoreError
      ∧ (x ≠ Raise StorageError → settled r r')) r) as H.
    { destruct (wp_run _ _ _ _ _ H Hx) as [Hne Hst]. split; [done|]. intros Hs. apply (Hst Hs). }
    clear x r' Hx. unfold _execute_sticky. wp_step. eapply wp_mono; [by apply wp_acquire; [|apply Hb]|].
    cbv beta. intros x r1 Hx. destruct x as [[]|[e| |]]; cbn [negb]; try done.
    + destruct Hx as [Hm _]. wp_step. wp_step. wp_step. wp_step.
      match goal with |- wp _ _ ?s => change s with (called i (at_reply a) r1) end.
      destruct (at_reply a) as [resp|e]; wp_step; (apply (wp_called_release i _ _ _ _ _ _ r); [done..|]);
        intros x r' Hst _ He; (destruct x as [[]|f]; [wp_step; done|by rewrite (He f eq_refl)]).
    + wp_step. wp_step. wp_step. split; [done|]. intros _. by apply quiet_settled.
    + split; [done|]. intros _. by apply quiet_settled.
Qed.

(** ** Threads sharing the channels

    Threads interleave between taking a channel and returning it.  [held] are
    the permits in use, [lost] those a storage failure left taken. *)

Record pool := mk_pool {
  p_router : router; p_locals : idmap local; held : list (nat * nat); lost : list nat }.

Inductive pool_op :=
| PAcquire (thread i : nat) (t : tick)
| PRelease (thread i : nat) (mono wall : Z) (stored : bool) (use : option usage) (error : option perror).

Definition blank_local : local := mk_local None [] [] [].
Definition as_thread (w : nat) (p : pool) : router := (p_router p) <| loc := default blank_local (id_get w (p_locals p)) |>.
Definition held_by (w i : nat) (p : pool) : bool := existsb (λ h, Nat.eqb w (fst h) && Nat.eqb i (snd h)) (held p).
Fixpoint drop_hold (w i : nat) (l : list (nat * nat)) : list (nat * nat) :=
  match l with
  | [] => []
  | h :: l' => if Nat.eqb w (fst h) && Nat.eqb i (snd h) then l' else h :: drop_hold w i l'
  end.

Definition pool_exec (p : pool) (o : pool_op) : option rexn * pool :=
  match o with
  | PAcquire w i t =>
      if Nat.ltb i (length (channels (p_router p))) then
        let '(x, r') := acquire_channel i t (as_thread w p) in
        (match x with Raise e => Some e | Ok _ => None end,
         mk_pool r' (id_set w (loc r') (p_locals p))
           (match x with Ok true => (w, i) :: held p | _ => held p end)
           (match x with Raise StorageError => i :: lost p | _ => lost p end))
      else (None, p)
  | PRelease w i mono wall stored use error =>
      if held_by w i p then
        let '(x, r') := release_channel i mono wall stored use error (as_thread w p) in
        (match x with Raise e => Some e | Ok _ => None end,
         mk_pool r' (id_set w (loc r') (p_locals p)) (drop_hold w i (held p)) (lost p))
      else (None, p)
  end.

Fixpoint pool_run (p : pool) (ops : list pool_op) : list (option rexn) * pool :=
  match ops with
  | [] => ([], p)
  | o :: ops' => let '(e, p1) := pool_exec p o in let '(es, p2) := pool_run p1 ops' in (e :: es, p2)
  end.

Definition holders (i : nat) (p : pool) : Z := countb (λ h, Nat.eqb i (snd h)) (held p).
Definition losses (i : nat) (p : pool) : Z := countb (Nat.eqb i) (lost p).

(** Every permit is free, held or lost; only channels of the route are held. *)
Definition accounted (p : pool) : Prop :=
  (∀ w i, (w, i) ∈ held p → in_route i (p_router p)) ∧
  ∀ i, in_route i (p_router p) →
    0 ≤ permits (chan i (p_router p)) ∧
    permits (chan i (p_router p)) + holders i p + losses i p = capacity (chan i (p_router p)).

Lemma holders_drop w i j l :
  existsb (λ h, Nat.eqb w (fst h) && Nat.eqb i (snd h)) l = true →
  countb (λ h, Nat.eqb j (snd h)) (drop_hold w i l)
  = countb (λ h, Nat.eqb j (snd h)) l - (if decide (j = i) then 1 else 0).
Proof.
  induction l as [|[w' i'] l IH]; [done|]. cbn [existsb drop_hold fst snd].
  destruct (Nat.eqb w w' && Nat.eqb i i') eqn:E.
  - intros _. rewrite countb_cons. cbn [snd]. apply andb_prop in E as [_ ->%Nat.eqb_eq].
    destruct (decide (j = i')) as [->|Hne]; [rewrite Nat.eqb_refl; lia|].
    destruct (Nat.eqb j i') eqn:E'; [apply Nat.eqb_eq in E'; done|lia].
  - cbn [orb]. intros H. rewrite !countb_cons, (IH H). lia.
Qed.

Lemma drop_hold_elem w i h l : h ∈ drop_hold w i l → h ∈ l.
Proof.
  induction l as [|x l IH]; simpl; [done|]. destruct (_ && _); [by right|].
  rewrite !elem_of_cons. intros [->|?]; auto.
Qed.

Lemma moved_at i d j r r' :
  moved i d r r' → in_route j r →
  permits (chan j r') = permits (chan j r) + (if decide (j = i) then d else 0)
  ∧ capacity (chan j r') = capacity (chan j r).
Proof.
  intros Hm Hj. split; [|apply fixed_capacity, Hm]. pose proof (fixed_in_route j _ _ (mv_fixed _ _ _ _ Hm) Hj) as Hj'.
  pose proof (mv_permits _ _ _ _ Hm j) as Hp. unfold permits_of in Hp.
  rewrite (chan_lookup j r), (chan_lookup j r') in Hp by done. by injection Hp as ->.
Qed.

Lemma fixed_in_route_iff i r r' : fixed r r' → in_route i r' ↔ in_route i r.
Proof. intros [H _ _]. unfold in_route. by rewrite (config_length r r'). Qed.

Lemma accounted_bounded p i : accounted p → in_route i (p_router p) →
  permits (chan i (p_router p)) ≤ capacity (chan i (p_router p)).
Proof.
  intros [_ H] Hi. destruct (H i Hi) as [_ He].
  pose proof (countb_nonneg (λ h : nat * nat, Nat.eqb i (snd h)) (held p)).
  pose proof (countb_nonneg (Nat.eqb i) (lost p)). unfold holders, losses in He. lia.
Qed.

(** A step that moves the permits of [i] by [-dh - dl] and takes [dh] holders, [dl] losses. *)
Lemma accounted_step p p' i d :
  accounted p → moved i d (p_router p) (p_router p') →
  (∀ w j, (w, j) ∈ held p' → (w, j) ∈ held p ∨ j = i ∧ in_route i (p_router p)) →
  (∀ j, holders j p' + losses j p' = holders j p + losses j p - (if decide (j = i) then d else 0)) →
  (0 ≤ permits (chan i (p_router p)) + d) →
  accounted p'.
Proof.
  intros [Hh Ha] Hm Hin Hc Hd. split.
  - intros w j [Hj|[-> Hi]]%Hin; apply (fixed_in_route_iff _ _ _ (mv_fixed _ _ _ _ Hm)); [by eapply Hh|done].
  - intros j Hj. apply (fixed_in_route_iff _ _ _ (mv_fixed _ _ _ _ Hm)) in Hj.
    destruct (moved_at _ _ j _ _ Hm Hj) as [-> ->]. destruct (Ha j Hj) as [Hp He]. specialize (Hc j).
    destruct (decide (j = i)); subst; lia.
Qed.

Lemma counts_cons_ne (i j : nat) : j ≠ i → Nat.eqb j i = false.
Proof. by intros H%Nat.eqb_neq. Qed.

Lemma accounted_quiet p r' ls :
  accounted p → quiet (p_router p) r' → accounted (mk_pool r' ls (held p) (lost p)).
Proof.
  intros Ha Hq. destruct (decide (0 < length (channels (p_router p)))%nat) as [H0|Hno].
  - apply (accounted_step p _ 0 0 Ha); [by apply quiet_moved|auto| |].
    + intros j. unfold holders, losses. cbn [held lost]. destruct (decide (j = 0%nat)); lia.
    + destruct (proj2 Ha 0%nat H0). lia.
  - destruct Ha as [Hh _]. apply (quiet_moved 0) in Hq. split.
    + intros w j Hj. apply (fixed_in_route_iff _ _ _ (mv_fixed _ _ _ _ Hq)). by eapply Hh.
    + intros j Hj. apply (fixed_in_route_iff _ _ _ (mv_fixed _ _ _ _ Hq)) in Hj. unfold in_route in *. lia.
Qed.

Lemma exec_acquire_accounted p w i t :
  accounted p → in_route i (p_router p) →
  let '(x, r') := acquire_channel i t (as_thread w p) in
  accounted (mk_pool r' (id_set w (loc r') (p_locals p))
    (match x with Ok true => (w, i) :: held p | _ => held p end)
    (match x with Raise StorageError => i :: lost p | _ => lost p end))
  ∧ x ≠ Raise SemaphoreError ∧ config_of r' = config_of (p_router p).
Proof.
  intros Hacc Hi. pose proof (wp_acquire i t (as_thread w p) Hi (accounted_bounded p i Hacc Hi)) as H. unfold wp in H.
  destruct (acquire_channel i t (as_thread w p)) as [x r']. cbn [fst snd] in *.
  assert (Hq : quiet (as_thread w p) r' → quiet (p_router p) r') by (intros [[] ?]; by split).
  assert (Hm : moved i (-1) (as_thread w p) r' → moved i (-1) (p_router p) r') by (intros [[] ?]; by split).
  destruct x as [[]|[e| |]]; (split_and!; [|done|]); try done.
  - destruct H as [Hmv Hpos]. apply (accounted_step p _ i (-1) Hacc); [exact (Hm Hmv)|..].
    + intros w' j Hj. cbn [held] in Hj. apply elem_of_cons in Hj as [[= -> ->]|Hj]; auto.
    + intros j. unfold holders, losses. cbn [held lost]. rewrite countb_cons. cbn [snd].
      destruct (decide (j = i)) as [->|Hne]; [rewrite Nat.eqb_refl; lia|]. rewrite counts_cons_ne by done. lia.
    + change (0 < permits (chan i (p_router p))) in Hpos. lia.
  - apply H.
  - by apply accounted_quiet, Hq.
  - apply H.
  - by apply accounted_quiet, Hq.
  - apply H.
  - destruct H as [Hmv Hpos]. apply (accounted_step p _ i (-1) Hacc); [exact (Hm Hmv)|auto|..].
    + intros j. unfold holders, losses. cbn [held lost]. rewrite countb_cons.
      destruct (decide (j = i)) as [->|Hne]; [rewrite Nat.eqb_refl; lia|]. rewrite counts_cons_ne by done. lia.
    + change (0 < permits (chan i (p_router p))) in Hpos. lia.
  - apply H.
Qed.

Lemma holder_counts w i p : held_by w i p = true → 1 ≤ holders i p ∧ (w, i) ∈ held p.
Proof.
  intros ([w' i'] & Hin & [->%Nat.eqb_eq ->%Nat.eqb_eq]%andb_prop)%existsb_exists. cbn [fst snd]. split.
  - assert (0 < holders i' p); [|lia]. apply countb_pos, existsb_exists. exists (w', i'). split; [done|]. apply Nat.eqb_refl.
  - by apply list_elem_of_In.
Qed.

Lemma exec_release_accounted p w i mono wall stored use error :
  accounted p → held_by w i p = true →
  let '(x, r') := release_channel i mono wall stored use error (as_thread w p) in
  accounted (mk_pool r' (id_set w (loc r') (p_locals p)) (drop_hold w i (held p)) (lost p))
  ∧ x ≠ Raise SemaphoreError ∧ config_of r' = config_of (p_router p).
Proof.
  intros Hacc Hh. destruct (holder_counts _ _ _ Hh) as [H1 Hel]. pose proof (proj1 Hacc _ _ Hel) as Hi.
  destruct (proj2 Hacc i Hi) as [Hp0 Hsum]. pose proof (countb_nonneg (Nat.eqb i) (lost p)) as Hn.
  pose proof (wp_release i mono wall stored use error (as_thread w p) Hi) as H. unfold wp in H.
  change (permits (chan i (as_thread w p))) with (permits (chan i (p_router p))) in H.
  change (capacity (chan i (as_thread w p))) with (capacity (chan i (p_router p))) in H.
  unfold losses in Hsum. specialize (H ltac:(lia)).
  destruct (release_channel _ _ _ _ _ _ _) as [x r']. cbn [fst snd] in H. destruct H as [Hm He].
  split_and!; [|intros ->; by specialize (He _ eq_refl)|apply Hm].
  assert (Hm' : moved i 1 (p_router p) r') by (destruct Hm as [[] ?]; by split).
  apply (accounted_step p _ i 1 Hacc); [exact Hm'|..].
  - intros w' j Hj%drop_hold_elem. auto.
  - intros j. unfold holders, losses. cbn [held lost]. rewrite holders_drop by done. destruct (decide (j = i)); lia.
  - lia.
Qed.

Lemma pool_exec_accounted p o :
  accounted p → accounted (snd (pool_exec p o)) ∧ fst (pool_exec p o) ≠ Some SemaphoreError
    ∧ config_of (p_router (snd (pool_exec p o))) = config_of (p_router p).
Proof.
  intros Hacc. destruct o as [w i t|w i mono wall stored use error]; cbn [pool_exec].
  - destruct (Nat.ltb i _) eqn:Hi; [|done]. apply Nat.ltb_lt in Hi.
    pose proof (exec_acquire_accounted p w i t Hacc Hi) as H.
    destruct (acquire_channel i t (as_thread w p)) as [x r']. destruct H as (? & Hx & ?). split_and!; [done| |done].
    destruct x; simpl; congruence.
  - destruct (held_by w i p) eqn:Hh; [|done].
    pose proof (exec_release_accounted p w i mono wall stored use error Hacc Hh) as H.
    destruct (release_channel _ _ _ _ _ _ _) as [x r']. destruct H as (? & Hx & ?). split_and!; [done| |done].
    destruct x; simpl; congruence.
Qed.

Lemma pool_run_accounted p ops :
  accounted p → accounted (snd (pool_run p ops)) ∧ (Some SemaphoreError ∉ fst (pool_run p ops))
    ∧ config_of (p_router (snd (pool_run p ops))) = config_of (p_router p).
Proof.
  revert p. induction ops as [|o ops IH]; intros p Hacc; cbn [pool_run]; [split_and!; [done|apply not_elem_of_nil|done]|].
  destruct (pool_exec_accounted p o Hacc) as (Ha & He & Hc). destruct (pool_exec p o) as [e p1]. cbn [fst snd] in *.
  destruct (IH p1 Ha) as (Ha' & He' & Hc'). destruct (pool_run p1 ops) as [es p2]. cbn [fst snd] in *.
  split_and!; [done| |congruence]. rewrite not_elem_of_cons. split; [congruence|done].
Qed.

Lemma new_router_accounted l threshold q r :
  new_router l threshold q = Ok r → accounted (mk_pool r [] [] []).
Proof.
  intros H. assert (Hc : channels r = sort_by (λ a b, priority a <=? priority b) (map new_channel l)).
  { destruct l; [done|]. by injection H as <-. }
  split; [intros w i Hi; by apply elem_of_nil in Hi|]. intros i Hi. unfold holders, losses. cbn [held lost p_router].
  rewrite !countb_nil. apply chan_lookup, list_elem_of_lookup_2 in Hi. cbn [p_router] in Hi.
  rewrite Hc, sort_by_elem, list_elem_of_In, in_map_iff in Hi. destruct Hi as (c & Hci & _). rewrite <- Hci.
  change (permits (new_channel c)) with (capacity c). change (capacity (new_channel c)) with (capacity c).
  unfold capacity. lia.
Qed.

(** However the worker threads interleave reservations and releases on a
    router, at most [max(1, max_concurrency)] of them hold a channel at any
    time, and the bounded semaphore never raises. *)
Theorem channel_concurrency_bounded l threshold q r ops i :
  new_router l threshold q = Ok r → in_route i r →
  let '(es, p) := pool_run (mk_pool r [] [] []) ops in
  holders i p ≤ Z.max 1 (max_concurrency (limits (chan i r))) ∧ Some SemaphoreError ∉ es.
Proof.
  intros Hr Hi. pose proof (pool_run_accounted (mk_pool r [] [] []) ops (new_router_accounted _ _ _ _ Hr)) as H.
  destruct (pool_run _ ops) as [es p]. cbn [fst snd p_router] in H. destruct H as (Ha & He & Hc). split; [|done].
  assert (Hi' : in_route i (p_router p)) by (unfold in_route in *; by rewrite (config_length _ _ Hc)).
  destruct (proj2 Ha i Hi') as [Hp Hs]. change (Z.max 1 _) with (capacity (chan i r)).
  rewrite <- (static_proj capacity (chan i (p_router p)) (chan i r)); [|done|by apply chan_static].
  pose proof (countb_nonneg (Nat.eqb i) (lost p)). unfold losses in Hs. lia.
Qed.

(** ** Paid channels wait for the free quota *)

Lemma free_sibling_fixed i r r' : fixed r r' → free_sibling r' i = free_sibling r i.
Proof.
  intros [Hc _ _]. pose proof (config_length _ _ Hc) as Hlen. unfold free_sibling.
  assert (Hs : ∀ j, static (chan j r') = static (chan j r)) by (intros; by apply chan_static).
  rewrite (static_proj _free_model (chan i r') (chan i r)) by done.
  destruct (_free_model (chan i r)); [done|]. unfold route. rewrite Hlen.
  induction (seq 0 (length (channels r))) as [|j l IH]; cbn [List.find]; [done|]. rewrite IH.
  rewrite (static_proj daily_free_first (chan j r') (chan j r)), (static_proj _free_model (chan j r') (chan j r)) by done.
  assert (_same_account (chan j r') (chan i r') = _same_account (chan j r) (chan i r)) as ->; [|done].
  unfold _same_account. rewrite (static_proj base_url (chan j r') (chan j r)), (static_proj api_key (chan j r') (chan j r)),
    (static_proj base_url (chan i r') (chan i r)), (static_proj api_key (chan i r') (chan i r)) by done. done.
Qed.

(** What an open gate has checked. *)
Definition gate_passed (i : nat) (t : tick) (r : router) : Prop :=
  let c := chan i r in
  (free_only c = true → t_guard t = None ∧ ∃ n, t_free t i = Ok n ∧ n ≠ 0) ∧
  (free_only c = false → daily_free_first c = true →
     ∃ j n, free_sibling r i = Some j ∧ t_free t j = Ok n ∧ (if _free_model c then n ≠ 0 else n ≤ 0)).

Lemma gate_passed_fixed i t r r' : fixed r r' → gate_passed i t r' → gate_passed i t r.
Proof.
  intros Hf. pose proof (chan_static i _ _ (fx_config _ _ Hf)) as Hs. unfold gate_passed.
  rewrite (free_sibling_fixed i _ _ Hf). cbv zeta.
  by rewrite (static_proj free_only (chan i r') (chan i r)), (static_proj daily_free_first (chan i r') (chan i r)),
    (static_proj _free_model (chan i r') (chan i r)) by done.
Qed.

Lemma wp_gate_passed i t r : wp (_daily_free_gate i t) (λ x _, x = Ok tt → gate_passed i t r) r.
Proof.
  unfold _daily_free_gate, gate_passed. repeat wp_step; try done; intros _; (split; [try done|try done]); intros; try congruence.
  - split; [done|]. eexists. split; [done|]. bprop. done.
  - bprop. congruence.
  - eexists _, _. split; [done|]. split; [done|]. destruct (_free_model (chan i r)); simpl in *; bprop; [naive_solver|lia].
Qed.

Lemma cancel_not_true {A} i stored (k : M A) (x : A) r :
  (∀ r', wp k (λ y _, y ≠ Ok x) r') →
  wp (_cancel_local_reservation i stored ;; k) (λ y _, y ≠ Ok x) r.
Proof.
  intros Hk. wp_step. unfold _cancel_local_reservation, semaphore_release. repeat wp_step; try done; apply Hk.
Qed.

(** A channel is handed out only after the daily free gate: a backfill
    channel only with a verified free model and free requests left; a paid
    channel of a free-first account only when the same account's free channel
    reports an exhausted daily quota; the free channel itself only while
    requests remain. *)
Theorem paid_only_after_free_quota i t r r' :
  acquire_channel i t r = (Ok true, r') → gate_passed i t r.
Proof.
  intros H. enough (wp (acquire_channel i t) (λ x _, x = Ok true → gate_passed i t r) r) as Hw.
  { exact (wp_run _ _ _ _ _ Hw H eq_refl). }
  clear r' H. unfold acquire_channel. wp_step. wp_step. set (r1 := update_loc _ r).
  assert (Hf1 : fixed r r1) by done. wp_step.
  apply wp_semaphore_acquire; [intros _; cbn [negb]; by wp_step|]. intros _ r2 [Hf2 _] _. cbn [negb].
  wp_step. eapply wp_mono; [by apply (wp_reserve i t r2)|]. cbv beta. intros x r3 ([Hf3 _] & _).
  destruct x as [[]|e]; [| |done].
  - wp_step. wp_step. wp_step. wp_step. set (r4 := update_loc _ r3).
    assert (Hf : fixed r r4) by (etransitivity; [exact Hf1|]; etransitivity; [exact Hf2|]; etransitivity; [exact Hf3|done]).
    eapply wp_mono; [apply wp_gate_passed|]. cbv beta. intros x r5 Hg. destruct x as [[]|e].
    + wp_step. intros _. eapply gate_passed_fixed; [exact Hf|auto].
    + eapply wp_mono; [apply (cancel_not_true i _ _ true)|by intros y ? Hy ->].
      intros r'. repeat wp_step; done.
  - wp_step. unfold semaphore_release. repeat wp_step; done.
Qed.

(** A storage failure under a reservation leaves its permit taken. *)
Lemma storage_failure_keeps_permit i t r r' :
  in_route i r → permits (chan i r) ≤ capacity (chan i r) →
  acquire_channel i t r = (Raise StorageError, r') → permits (chan i r') = permits (chan i r) - 1.
Proof.
  intros Hi Hc H. pose proof (wp_run _ _ _ _ _ (wp_acquire i t r Hi Hc) H) as [Hm _]. cbn in Hm.
  by apply (moved_permits i (-1)).
Qed.

(** ** Witnesses *)

Definition demo_limits : Quota.channel := Quota.mk_channel 10 0 9200 2 (sec 300) (sec 120).
Definition demo_free : pchannel :=
  mk_pchannel (u "free") (u "https://a") (u "key") false true true 1 demo_limits (Some (u "m:free")) None true
    0 [] [] 0 0.
Definition demo_paid : pchannel :=
  mk_pchannel (u "paid") (u "https://a") (u "key") false true true 2 demo_limits (Some (u "m")) (Some (u "acct")) true
    0 [] [] 0 0.
Definition demo_router : router :=
  match new_router [demo_paid; demo_free] 3 (Quota.mk_quota [] []) with
  | Ok r => r
  | Raise _ => mk_router [] 0 (Quota.mk_quota [] []) blank_local []
  end.

(** The free quota is used up, so the paid sibling may be tried. *)
Definition demo_tick : tick := mk_tick (sec 5) (sec 1005) (u "lease-1") None (λ _, Ok 0) true true.
Definition refused : perror := mk_perror (u "VLM-005") true None false false false.
Definition timed_out : perror := mk_perror (u "VLM-006") true None true true true.
Definition demo_world (i : nat) : attempt :=
  mk_attempt (mk_tick (sec 5) (sec 1005) (u "lease-1") None (λ _, Ok (if Nat.eqb i 0 then 3 else 0)) true true)
    (sec 9) (sec 1009) true (Raise (if Nat.eqb i 0 then refused else timed_out)).

Lemma demo_bounded : bounded demo_router.
Proof.
  intros [|[|j]] Hj; [vm_compute; intros H; discriminate H..|].
  exfalso. revert Hj. unfold in_route. change (length (channels demo_router)) with 2%nat. lia.
Qed.

(** The free channel fails before sending, the paid one times out: two calls,
    one of which may have started. *)
Example demo_failover :
  map fst (calls (snd (_execute demo_world demo_tick demo_router))) = [0; 1]%nat ∧
  fst (_execute demo_world demo_tick demo_router) = Raise (Failed timed_out).
Proof. vm_compute. done. Qed.

Lemma failover_starts_one_request_witness :
  let '(x, r') := _execute demo_world demo_tick demo_router in
  ∃ tr, calls r' = calls demo_router ++ tr ∧ countb started tr ≤ 1.
Proof.
  pose proof (failover_starts_one_request demo_world demo_tick demo_router demo_bounded) as H.
  destruct (_execute demo_world demo_tick demo_router) as [x r']. destruct H as (tr & H1 & _ & _ & H2 & _).
  exists tr. split; [exact H1|exact H2].
Defined.

Lemma permits_returned_witness :
  permits_of (snd (_execute demo_world demo_tick demo_router)) 0 = permits_of demo_router 0 ∧
  permits_of (snd (_execute demo_world demo_tick demo_router)) 1 = permits_of demo_router 1.
Proof.
  assert (Hi : in_route 0 demo_router) by (vm_compute; repeat constructor).
  destruct (permits_returned demo_world demo_tick (demo_world 0) 0 demo_router demo_bounded Hi) as [H _].
  destruct (_execute demo_world demo_tick demo_router) as [x r'] eqn:E.
  destruct (H x r' eq_refl) as [_ H']. split; apply H'; intros Hx; apply (f_equal fst) in E; rewrite Hx in E;
    vm_compute in E; discriminate E.
Defined.

Lemma channel_concurrency_bounded_witness :
  let '(es, p) := pool_run (mk_pool demo_router [] [] [])
    [PAcquire 1 1 demo_tick; PAcquire 2 1 demo_tick; PRelease 1 1 0 0 true None None] in
  holders 1 p ≤ 2 ∧ Some SemaphoreError ∉ es.
Proof.
  apply (channel_concurrency_bounded [demo_paid; demo_free] 3 (Quota.mk_quota [] [])); [vm_compute; reflexivity|].
  vm_compute. repeat constructor.
Defined.

Lemma paid_only_after_free_quota_witness : gate_passed 1 demo_tick demo_router.
Proof. eapply paid_only_after_free_quota. vm_compute. reflexivity. Defined.

(** The same reservation when the quota transaction does not commit. *)
Example demo_permit_lost :
  let t := mk_tick (sec 5) (sec 1005) (u "lease-1") None (λ _, Ok 0) false true in
  fst (acquire_channel 1 t demo_router) = Raise StorageError ∧
  permits (chan 1 (snd (acquire_channel 1 t demo_router))) = 1 ∧ permits (chan 1 demo_router) = 2.
Proof. vm_compute. done. Qed.
