(* ===== verification/OfflineSchedule.v ===== *)
(** * Offline display schedules

    Models [inktime/app/domain/photopainter/offline_schedule.py] (and
    [weekly_schedule.py]): validation of a day's HH:MM slots, their resolution
    to instants across daylight-saving changes, deadlines, the next network
    wake and the server's preparation plan.

    Instants are microseconds since the epoch (UTC); a wall clock reading is
    microseconds since local midnight of day 0, so a local date is a day
    number.  The IANA database is not part of the repository: a [zone] is an
    argument, as the two conversions [zoneinfo] offers. *)

From S2P Require Import Prelude PyStr Json Sql.
Local Open Scope Z_scope.

Definition minute : Z := 60000000.
Definition day : Z := 1440 * minute.
Definition minutes (n : Z) : Z := n * minute.

Inductive sched_exn : Type :=
| BadCount | BadGapSetting | BadTime | DuplicateTime | GapTooSmall
| BadStrategy | UnexpectedSyncTime | MissingSyncTime
| BadDeliveryMode | PrefetchMismatch
| BadLead | BadMargin | BadHour | BadZone | BadGrace
| NoInstant | CrossesDay | NoSyncCandidate.

Definition MINIMUM_SCHEDULE_GAP_MINUTES : Z := 60.
Definition MINIMUM_ALLOWED_GAP_MINUTES : Z := 30.
Definition MAXIMUM_ALLOWED_GAP_MINUTES : Z := 360.
Definition LEGACY_MAX_OFFLINE_SLOTS : Z := 12.
Definition MAX_OFFLINE_SLOTS : Z := 24.

(** ** Slot texts *)

(** The code points of value zero of Unicode's decimal digits (category Nd,
    Unicode 15.0): Python's [\d] and [int()] accept every one of them. *)
Definition decimal_zeros : list Z :=
  [48; 1632; 1776; 1984; 2406; 2534; 2662; 2790; 2918; 3046; 3174; 3302; 3430; 3558; 3664; 3792;
   3872; 4160; 4240; 6112; 6160; 6470; 6608; 6784; 6800; 6992; 7088; 7232; 7248; 42528; 43216;
   43264; 43472; 43504; 43600; 44016; 65296; 66720; 68912; 69734; 69872; 69942; 70096; 70384;
   70736; 70864; 71248; 71360; 71472; 71904; 72016; 72784; 73040; 73120; 73552; 92768; 92864;
   93008; 120782; 120792; 120802; 120812; 120822; 123200; 123632; 124144; 125264; 130032].

Definition decimal (c : Z) : option Z :=
  match List.find (λ z, (z <=? c) && (c <=? z + 9)) decimal_zeros with
  | Some z => Some (c - z)
  | None => None
  end.

(** [_TIME = ^(?:[01]\d|2[0-3]):[0-5]\d$] with its value in minutes: the two
    halves of [schedule_minutes]. *)
Definition slot_hour (a b : Z) : option Z :=
  if (48 <=? a) && (a <=? 49) then (λ d, (a - 48) * 10 + d) <$> decimal b
  else if (a =? 50) && (48 <=? b) && (b <=? 51) then Some (20 + (b - 48))
  else None.
Definition slot_minute (a b : Z) : option Z :=
  if (48 <=? a) && (a <=? 53) then (λ d, (a - 48) * 10 + d) <$> decimal b else None.

Definition time_minutes (s : str) : option Z :=
  match s with
  | [a; b; c; d; e] =>
      if c =? 58 then
        match slot_hour a b, slot_minute d e with
        | Some h, Some m => Some (h * 60 + m)
        | _, _ => None
        end
      else None
  | _ => None
  end.

Definition schedule_minutes (s : str) : result sched_exn Z :=
  match time_minutes s with Some n => Ok n | None => Raise BadTime end.

Definition valid_time (s : str) : bool := match time_minutes s with Some _ => true | None => false end.

(** [zip(m, m[1:])] *)
Fixpoint gaps (m : list Z) : list Z :=
  match m with
  | a :: ((b :: _) as m') => (b - a) :: gaps m'
  | _ => []
  end.

(** .. and the wrap-around gap when there are several slots. *)
Definition cyclic_gaps (m : list Z) : list Z :=
  gaps m ++ match m with
            | a :: (_ :: _) => [a + 1440 - List.last m 0]
            | _ => []
            end.

Definition validate_offline_schedule (values : list str) (maximum gap : Z) : result sched_exn (list str) :=
  let n := Z.of_nat (length values) in
  raise_if (negb ((1 <=? n) && (n <=? maximum))) BadCount ;;;
  raise_if (negb ((MINIMUM_ALLOWED_GAP_MINUTES <=? gap) && (gap <=? MAXIMUM_ALLOWED_GAP_MINUTES)))
    BadGapSetting ;;;
  let normalized := map strip values in
  raise_if (existsb (λ v, negb (valid_time v)) normalized) BadTime ;;;
  raise_if (negb (nodupb normalized)) DuplicateTime ;;;
  let ordered := sort_by str_leb normalized in
  let m := omap time_minutes ordered in
  raise_if (existsb (λ g, g <? gap) (cyclic_gaps m)) GapTooSmall ;;;
  Ok ordered.

(** [resolve_offline_schedule_max_slots] *)
Definition resolve_offline_schedule_max_slots (capabilities : json) : Z :=
  match capabilities with
  | JObj m =>
      match assoc_get (u "offline_schedule_max_slots") m with
      | Some (JInt v) => if (v =? 16) || (v =? MAX_OFFLINE_SLOTS) then v else LEGACY_MAX_OFFLINE_SLOTS
      | _ => LEGACY_MAX_OFFLINE_SLOTS
      end
  | _ => LEGACY_MAX_OFFLINE_SLOTS
  end.

Definition slots_capability (n : Z) : json := JObj [(u "offline_schedule_max_slots", JInt n)].

Definition offline_schedule_capability_state (maximum_slots : Z) : str :=
  let v := resolve_offline_schedule_max_slots (slots_capability maximum_slots) in
  if v =? 16 then u "confirmed_16"
  else if v =? MAX_OFFLINE_SLOTS then u "confirmed_24" else u "unknown_12".

Definition offline_schedule_capability_is_usable (state : option str) : bool :=
  str_in (match state with Some s => s | None => [] end)
    (map u ["unknown_12"; "confirmed_16"; "confirmed_24"]%string).

(** ** Delivery contracts *)

Inductive sync_strategy : Type := FirstDisplayLead | FixedDaily (sync_minutes : Z).

(** The optional text parameters: [None] is Python's [None]. *)
Definition normalize_sync_strategy (strategy sync_time : option str) : result sched_exn (str * option str) :=
  let s := strip (str_or strategy (u "first_display_lead")) in
  raise_if (negb (str_in s (map u ["first_display_lead"; "fixed_daily"]%string))) BadStrategy ;;;
  let t := match sync_time with None | Some [] => None | Some x => Some (strip x) end in
  if str_eqb s (u "first_display_lead") then
    match t with Some _ => Raise UnexpectedSyncTime | None => Ok (s, None) end
  else
    match t with
    | Some x => if valid_time x then Ok (s, Some x) else Raise MissingSyncTime
    | None => Raise MissingSyncTime
    end.

(** What the planners use of the pair. *)
Definition as_strategy (p : str * option str) : sync_strategy :=
  match p.2 with
  | Some t => match time_minutes t with Some m => FixedDaily m | None => FirstDisplayLead end
  | None => FirstDisplayLead
  end.

Definition normalize_delivery_contract (mode : str) (prefetch : option bool) (explicit : bool)
  : result sched_exn (str * bool) :=
  let m := strip mode in
  raise_if (negb (str_in m (map u ["legacy_online"; "stock_compat"; "inktime_offline_schedule"]%string)))
    BadDeliveryMode ;;;
  let expected := str_eqb m (u "inktime_offline_schedule") in
  match explicit, prefetch with
  | true, Some b => if Bool.eqb b expected then Ok (m, expected) else Raise PrefetchMismatch
  | _, _ => Ok (m, expected)
  end.

(** ** Time zones *)

Record zone := mk_zone {
  utc_of : Z → bool → Z;     (* naive.replace(tzinfo=zone, fold=..).astimezone(utc) *)
  wall_of : Z → Z }.         (* instant.astimezone(zone), as a naive reading *)

Definition date_of (z : zone) (t : Z) : Z := wall_of z t / day.

(** [local_slot_datetime]: the earlier of the exact readings, else the
    earlier of those that a gap moved forward. *)
Definition local_slot_datetime (z : zone) (target slot_min : Z) : result sched_exn Z :=
  let naive := target * day + minutes slot_min in
  let candidates := [utc_of z naive false; utc_of z naive true] in
  match List.filter (λ t, wall_of z t =? naive) candidates with
  | t :: ts => Ok (fold_left Z.min ts t)
  | [] =>
      match List.filter (λ t, naive <? wall_of z t) candidates with
      | t :: ts => Ok (fold_left Z.min ts t)
      | [] => Raise NoInstant
      end
  end.

(** The loop of [resolved_slot_datetimes] after validation; [last] is
    [result[-1]]. *)
Fixpoint resolve_slots (z : zone) (target gap : Z) (slots : list Z) (last : option Z)
  : result sched_exn (list Z) :=
  match slots with
  | [] => Ok []
  | m :: slots' =>
      let* instant := local_slot_datetime z target m in
      let instant := match last with Some l => Z.max instant (l + minutes gap) | None => instant end in
      raise_if (negb (date_of z instant =? target)) CrossesDay ;;;
      let* rest := resolve_slots z target gap slots' (Some instant) in
      Ok (instant :: rest)
  end.

Definition slot_times (slots : list str) : list Z := omap time_minutes slots.

Definition resolved_slot_datetimes (z : zone) (target : Z) (values : list str) (gap maximum : Z)
  : result sched_exn (list Z) :=
  let* schedule := validate_offline_schedule values maximum gap in
  resolve_slots z target gap (slot_times schedule) None.

(** [prefetch_slots]: each slot with the wall time [lead] minutes earlier. *)
Definition hhmm (m : Z) : str := pad2 (m / 60) ++ [58] ++ pad2 (m mod 60).

Definition prefetch_slots (values : list str) (lead gap : Z) : result sched_exn (list (str * str)) :=
  let* schedule := validate_offline_schedule values MAX_OFFLINE_SLOTS gap in
  raise_if (negb ((0 <=? lead) && (lead <=? 120))) BadLead ;;;
  Ok (map (λ s, let m := default 0 (time_minutes s) - lead in
                (s, hhmm (if m <? 0 then m + 1440 else m))) schedule).

(** [slot_deadlines]: each reservation lives until the following slot. *)
Definition slot_deadlines (z : zone) (target : Z) (values : list str) (grace gap maximum : Z)
  : result sched_exn (list Z) :=
  raise_if (negb ((0 <=? grace) && (grace <=? 1440))) BadGrace ;;;
  let* schedule := validate_offline_schedule values
                     (resolve_offline_schedule_max_slots (slots_capability maximum)) gap in
  let* starts := resolved_slot_datetimes z target schedule gap maximum in
  let* next_day := resolved_slot_datetimes z (target + 1) schedule gap maximum in
  match next_day with
  | [] => Raise BadCount
  | first :: _ => Ok (map (λ t, t + minutes grace) (tail starts ++ [first]))
  end.

(** ** Weekly schedules *)

Fixpoint split_comma (s cur : str) : list str :=
  match s with
  | [] => [rev cur]
  | c :: s' => if c =? 44 then rev cur :: split_comma s' [] else split_comma s' (c :: cur)
  end.

Definition WEEKDAY_TIMES : str := u "08:00,18:00,20:00,22:00".
Definition WEEKEND_TIMES : str := u "08:00,10:00,12:00,14:00,16:00,18:00,20:00,22:00".

(** [date.weekday()]: day 0 is a Thursday. *)
Definition weekday (target : Z) : Z := (target + 3) mod 7.

(** [weekly_times]; the settings are the enabled flag and the two optional texts. *)
Definition weekly_times (enabled : option bool) (weekday_times weekend_times : option str)
    (target : Z) (fallback : list str) : result sched_exn (list str) :=
  if negb (default true enabled) then Ok fallback
  else
    let value := if 5 <=? weekday target then default WEEKEND_TIMES weekend_times
                 else default WEEKDAY_TIMES weekday_times in
    validate_offline_schedule (split_comma value []) 16 30.

(** ** The next network wake *)

(** One slot of the inner loop of [next_sync_epoch]. *)
Definition sync_candidate (now lead : Z) (acc : list Z) (candidate : Z) : list Z :=
  let sync_at := candidate - minutes lead in
  if now <? sync_at then acc ++ [sync_at]
  else if (now <? candidate) && bool_decide (acc = []) then acc ++ [now]
  else acc.

Definition day_candidates (z : zone) (now lead : Z) (strategy : sync_strategy) (slots : list str)
    (gap maximum : Z) (target : Z) (acc : list Z) : result sched_exn (list Z) :=
  match strategy with
  | FixedDaily m =>
      let* t := local_slot_datetime z target m in
      Ok (if now <? t then acc ++ [t] else acc)
  | FirstDisplayLead =>
      let* ts := resolved_slot_datetimes z target slots gap maximum in
      Ok (fold_left (sync_candidate now lead) ts acc)
  end.

Definition next_sync_instant (z : zone) (now : Z) (schedule : list str) (lead : Z)
    (strategy : option str) (sync_time : option str) (gap maximum : Z) : result sched_exn Z :=
  raise_if (negb ((0 <=? lead) && (lead <=? 120))) BadLead ;;;
  let* p := normalize_sync_strategy strategy sync_time in
  let* slots := validate_offline_schedule schedule
                  (resolve_offline_schedule_max_slots (slots_capability maximum)) gap in
  let today := date_of z now in
  let* c1 := day_candidates z now lead (as_strategy p) slots gap maximum today [] in
  let* c2 := day_candidates z now lead (as_strategy p) slots gap maximum (today + 1) c1 in
  match c2 with
  | [] => Raise NoSyncCandidate
  | t :: ts => Ok (fold_left Z.min ts t)
  end.

(** [int(min(candidates).timestamp())]: whole seconds, truncated.  (The float
    of [timestamp()] is within an eighth of a microsecond of the quotient until
    2242, so truncating it truncates the quotient.) *)
Definition next_sync_epoch (z : zone) (now : Z) (schedule : list str) (lead : Z)
    (strategy : option str) (sync_time : option str) (gap maximum : Z) : result sched_exn Z :=
  let* t := next_sync_instant z now schedule lead strategy sync_time gap maximum in
  Ok (Z.quot t 1000000).

(** [next_sleep_epoch] *)
Definition next_sleep_epoch := next_sync_epoch.

(** ** The preparation plan *)

Record prepare_plan := mk_plan { due_target_dates : list Z; next_deadline : Z }.

Section plan.
Context (z : zone) (now lead margin hour : Z) (strategy : sync_strategy).
Context (slots : list str) (gap maximum : Z) (skipped : list Z).

Definition is_skipped (target : Z) : bool := bool_decide (target ∈ skipped).

Definition technical_deadline (target : Z) : result sched_exn Z :=
  match strategy with
  | FixedDaily m => local_slot_datetime z target m
  | FirstDisplayLead =>
      let* ts := resolved_slot_datetimes z target slots gap maximum in
      match ts with [] => Raise BadCount | t :: _ => Ok (t - minutes (lead + margin)) end
  end.

(** [any(slot_at(target, slot) > now for slot in slots)] *)
Definition slots_remain (target : Z) : result sched_exn bool :=
  let* ts := resolved_slot_datetimes z target slots gap maximum in
  Ok (existsb (λ t, now <? t) ts).

Definition handoff (target : Z) : result sched_exn Z := local_slot_datetime z target (hour * 60).

Definition today_due (today : Z) : result sched_exn bool :=
  if is_skipped today then Ok false
  else let* technical := technical_deadline today in
       if technical <=? now then slots_remain today else Ok false.

Definition tomorrow_due (today : Z) : result sched_exn bool :=
  if is_skipped (today + 1) then Ok false
  else let* h := handoff today in
       let* technical := technical_deadline (today + 1) in
       Ok (Z.min technical h <=? now).

(** The loop over [offset in range(3)]: [Some] on [break]. *)
Definition deadline_today (today : Z) : result sched_exn (option Z) :=
  if is_skipped today then Ok None
  else let* technical := technical_deadline today in
       if now <? technical then Ok (Some technical)
       else let* remain := slots_remain today in Ok (if remain then Some now else None).

Definition deadline_later (target : Z) : result sched_exn (option Z) :=
  if is_skipped target then Ok None
  else let* technical := technical_deadline target in
       let* h := handoff (target - 1) in
       let candidate := Z.min technical h in
       Ok (Some (if candidate <=? now then now else candidate)).

Definition first_deadline (today : Z) : result sched_exn Z :=
  let* d0 := deadline_today today in
  match d0 with
  | Some t => Ok t
  | None =>
      let* d1 := deadline_later (today + 1) in
      match d1 with
      | Some t => Ok t
      | None =>
          let* d2 := deadline_later (today + 2) in
          Ok (match d2 with Some t => t | None => now + minutes 15 end)
      end
  end.

Definition plan_for : result sched_exn prepare_plan :=
  let today := date_of z now in
  let* a := today_due today in
  let* b := tomorrow_due today in
  let* next := first_deadline today in
  Ok (mk_plan ((if a then [today] else []) ++ (if b then [today + 1] else [])) next).
End plan.

Definition offline_prepare_plan (zo : option zone) (now lead margin hour : Z)
    (strategy sync_time : option str) (schedule : list str) (gap maximum : Z) (skipped : list Z)
  : result sched_exn prepare_plan :=
  raise_if (negb ((0 <=? lead) && (lead <=? 120))) BadLead ;;;
  raise_if (negb ((0 <=? margin) && (margin <=? 60))) BadMargin ;;;
  raise_if (negb ((0 <=? hour) && (hour <=? 23))) BadHour ;;;
  match zo with
  | None => Raise BadZone
  | Some z =>
      let* p := normalize_sync_strategy strategy sync_time in
      let* slots := validate_offline_schedule schedule
                      (resolve_offline_schedule_max_slots (slots_capability maximum)) gap in
      plan_for z now lead margin hour (as_strategy p) slots gap maximum skipped
  end.
