(* ===== verification/OfflineScheduleProps.v ===== *)
(** * Correctness of offline schedules

    Accepted schedules are canonical and keep the cyclic minimum gap, their
    resolution keeps it across daylight-saving changes, a reservation outlives
    its own slot, and the next wake never misses an upcoming slot. *)

From S2P Require Import Prelude PyStr Json Sql OfflineSchedule.
Local Open Scope Z_scope.

(** Each element is followed by elements at least [g] later. *)
Definition spaced (g : Z) : list Z → Prop := StronglySorted (λ a b, a + g ≤ b).

Lemma gaps_spaced g m : 0 ≤ g → Forall (λ x, g ≤ x) (gaps m) → spaced g m.
Proof.
  intros Hg. induction m as [|a m IH]; intros Hf; [constructor|]. destruct m as [|b m]; [repeat constructor|].
  cbn [gaps] in Hf. apply Forall_cons in Hf as [Hab Hf]. specialize (IH Hf).
  constructor; [done|]. apply StronglySorted_inv in IH as [_ Hb].
  constructor; [lia|]. eapply Forall_impl; [exact Hb|]. simpl. intros x Hx. lia.
Qed.

Lemma small_gap_false g l : existsb (λ x, x <? g) l = false → Forall (λ x, g ≤ x) l.
Proof. rewrite existsb_none, Forall_forall. intros H x Hx. apply H in Hx. bprop. lia. Qed.

Lemma valid_time_some s : valid_time s = true → ∃ m, time_minutes s = Some m.
Proof. unfold valid_time. destruct (time_minutes s); [eauto|done]. Qed.

Lemma omap_length {A B} (f : A → option B) l :
  Forall (λ x, is_Some (f x)) l → length (omap f l) = length l.
Proof. induction 1 as [|x l [y Hy] _ IH]; [done|]. csimpl. rewrite Hy. simpl. by rewrite IH. Qed.

(** What an accepted schedule is. *)
Record accepted (values : list str) (maximum gap : Z) (out : list str) : Prop := mk_accepted {
  acc_perm : out ≡ₚ map strip values;
  acc_count : 1 ≤ Z.of_nat (length out) ≤ maximum;
  acc_gap : MINIMUM_ALLOWED_GAP_MINUTES ≤ gap ≤ MAXIMUM_ALLOWED_GAP_MINUTES;
  acc_valid : Forall (λ s, valid_time s = true) out;
  acc_sorted : StronglySorted (λ a b, str_leb a b = true) out;
  acc_length : length (slot_times out) = length out;
  acc_cyclic : Forall (λ g, gap ≤ g) (cyclic_gaps (slot_times out)) }.

Lemma validate_accepted values maximum gap out :
  validate_offline_schedule values maximum gap = Ok out → accepted values maximum gap out.
Proof.
  unfold validate_offline_schedule. intros H. res_inv.
  assert (sort_by str_leb (map strip values) ≡ₚ map strip values) as Hp by apply sort_by_perm.
  assert (Forall (λ s, valid_time s = true) (sort_by str_leb (map strip values))) as Hv.
  { rewrite Hp. apply Forall_forall. intros s Hs.
    match goal with H : existsb (λ v, negb (valid_time v)) _ = false |- _ => rewrite existsb_none in H; apply H in Hs end.
    by apply negb_false_iff in Hs. }
  split; [done| | |done| | |].
  - rewrite Hp, length_map. bprop. lia.
  - bprop. unfold MINIMUM_ALLOWED_GAP_MINUTES, MAXIMUM_ALLOWED_GAP_MINUTES in *. lia.
  - apply sort_by_sorted; [apply str_leb_total|apply str_leb_trans].
  - apply omap_length. eapply Forall_impl; [exact Hv|]. intros s Hs. by apply valid_time_some in Hs as [m ->].
  - by apply small_gap_false.
Qed.

Lemma accepted_spaced values maximum gap out : accepted values maximum gap out → spaced gap (slot_times out).
Proof.
  intros [_ _ Hg _ _ _ Hc]. apply Forall_app in Hc as [Hc _]. apply gaps_spaced; [|done].
  unfold MINIMUM_ALLOWED_GAP_MINUTES in Hg. lia.
Qed.

Lemma accepted_again values maximum gap out :
  accepted values maximum gap out → validate_offline_schedule out maximum gap = Ok out.
Proof.
  intros [Hp Hn Hg Hv Hs Hl Hc]. unfold validate_offline_schedule.
  assert (map strip out = out) as ->.
  { rewrite <- (map_id out) at 2. apply map_ext_in. intros s Hin%list_elem_of_In. rewrite Hp in Hin.
    apply list_elem_of_fmap in Hin as (s0 & -> & _). apply strip_idemp. }
  rewrite sort_by_fix by done. fold (slot_times out).
  assert ((1 <=? Z.of_nat (length out)) && (Z.of_nat (length out) <=? maximum) = true) as -> by (bprop; lia).
  assert ((MINIMUM_ALLOWED_GAP_MINUTES <=? gap) && (gap <=? MAXIMUM_ALLOWED_GAP_MINUTES) = true) as ->
    by (bprop; lia).
  assert (existsb (λ v, negb (valid_time v)) out = false) as ->.
  { apply existsb_none. intros s Hin. rewrite Forall_forall in Hv. by rewrite (Hv s Hin). }
  assert (existsb (λ g, g <? gap) (cyclic_gaps (slot_times out)) = false) as ->.
  { apply existsb_none. intros g Hin. rewrite Forall_forall in Hc. specialize (Hc g Hin). bprop. lia. }
  assert (nodupb out = true) as ->; [|done]. apply nodupb_spec.
  assert (spaced gap (slot_times out)) as Hsp by (by eapply (accepted_spaced values maximum)).
  assert (0 < gap) as Hpos by (unfold MINIMUM_ALLOWED_GAP_MINUTES in Hg; lia).
  clear -Hsp Hpos Hv. induction Hv as [|s l [m Hm]%valid_time_some Hv IH]; [constructor|].
  unfold slot_times in Hsp. csimpl in *. rewrite Hm in Hsp. apply StronglySorted_inv in Hsp as [Hsp Hf].
  constructor; [|by apply IH]. intros Hin. rewrite Forall_forall in Hf.
  assert (m + gap ≤ m); [|lia]. apply Hf, list_elem_of_omap. by exists s.
Qed.

(** An accepted schedule is the sorted, trimmed, duplicate-free list of
    the given times; its slots are at least the requested gap apart all
    around the clock, midnight included, and it validates to itself. *)
Theorem validate_offline_schedule_sound values maximum gap out :
  validate_offline_schedule values maximum gap = Ok out →
  out ≡ₚ map strip values ∧ 1 ≤ Z.of_nat (length out) ≤ maximum ∧
  Forall (λ s, valid_time s = true) out ∧ spaced gap (slot_times out) ∧
  (∀ a b m, slot_times out = a :: b :: m → List.last (slot_times out) 0 + gap ≤ a + 1440) ∧
  validate_offline_schedule out maximum gap = Ok out.
Proof.
  intros H%validate_accepted. split_and!; [apply H|apply H|apply H|apply H|by eapply accepted_spaced| |by eapply accepted_again].
  intros a b m E. destruct H as [_ _ _ _ _ _ Hc]. rewrite E in Hc |- *. unfold cyclic_gaps in Hc.
  apply Forall_app in Hc as [_ Hc]. apply Forall_cons in Hc as [Hc _]. lia.
Qed.

(** ** Resolution to instants *)

Lemma resolve_slots_spec z target gap slots last ts :
  0 ≤ gap → resolve_slots z target gap slots last = Ok ts →
  length ts = length slots ∧ Forall (λ t, date_of z t = target) ts ∧ spaced (minutes gap) ts ∧
  Forall (λ t, match last with Some l => l + minutes gap ≤ t | None => True end) ts ∧
  Forall2 (λ m t, ∃ t0, local_slot_datetime z target m = Ok t0 ∧ t0 ≤ t) slots ts.
Proof.
  intros Hg. revert last ts. induction slots as [|m slots IH]; intros last ts H; simpl in H.
  { injection H as <-. split_and!; try done; constructor. }
  apply rbind_ok in H as (t0 & E0 & H). apply rbind_ok in H as (_ & Hd%raise_if_ok & H).
  apply rbind_ok in H as (rest & Hr & H). injection H as <-.
  set (t := match last with Some l => Z.max t0 (l + minutes gap) | None => t0 end) in *.
  destruct (IH (Some t) rest Hr) as (Hlen & Hdate & Hsp & Hfrom & Hall).
  assert (t0 ≤ t) as Ht by (unfold t; destruct last; lia).
  assert (match last with Some l => l + minutes gap ≤ t | None => True end) as Hl by (unfold t; destruct last; [lia|done]).
  split_and!.
  - simpl. by rewrite Hlen.
  - constructor; [|done]. apply negb_false_iff in Hd. by bprop.
  - by constructor.
  - constructor; [done|]. eapply Forall_impl; [exact Hfrom|]. simpl. intros x Hx.
    destruct last; [|done]. assert (0 ≤ minutes gap) by (unfold minutes, minute; lia). lia.
  - constructor; [by exists t0|done].
Qed.

Lemma resolved_spec z target values gap maximum ts :
  resolved_slot_datetimes z target values gap maximum = Ok ts →
  length ts = length values ∧ ts ≠ [] ∧ Forall (λ t, date_of z t = target) ts ∧ spaced (minutes gap) ts ∧
  30 ≤ gap.
Proof.
  unfold resolved_slot_datetimes. intros (out & H%validate_accepted & Hr)%rbind_ok.
  pose proof (acc_gap _ _ _ _ H) as Hg. unfold MINIMUM_ALLOWED_GAP_MINUTES in Hg.
  apply resolve_slots_spec in Hr as (Hl & Hd & Hs & _); [|lia].
  rewrite (acc_length _ _ _ _ H) in Hl. pose proof (acc_count _ _ _ _ H) as Hc.
  pose proof (acc_perm _ _ _ _ H) as Hp. apply Permutation_length in Hp. rewrite length_map in Hp.
  split_and!; [congruence| |done|done|lia]. intros ->. simpl in Hl. lia.
Qed.

(** Whatever the zone's transitions, resolving a day keeps every slot:
    one instant per slot, in schedule order, at least the minimum gap apart,
    all on the target's local date and none before its own local time. *)
Theorem resolved_slots_sound z target values gap maximum ts :
  resolved_slot_datetimes z target values gap maximum = Ok ts →
  length ts = length values ∧ Forall (λ t, date_of z t = target) ts ∧ spaced (minutes gap) ts ∧
  ∃ out, validate_offline_schedule values maximum gap = Ok out ∧
    Forall2 (λ m t, ∃ t0, local_slot_datetime z target m = Ok t0 ∧ t0 ≤ t) (slot_times out) ts.
Proof.
  intros H. pose proof (resolved_spec _ _ _ _ _ _ H) as (Hl & _ & Hd & Hs & Hg).
  split_and!; [done|done|done|]. unfold resolved_slot_datetimes in H. apply rbind_ok in H as (out & Ho & Hr).
  exists out. split; [done|]. by apply resolve_slots_spec in Hr as (_ & _ & _ & _ & ?); [|lia].
Qed.

(** ** Deadlines and wakes *)

Section ordered_days.
Context (z : zone).
(** The civil calendar of the zone advances with time: an instant of an
    earlier local date is earlier. *)
Definition days_ordered : Prop := ∀ a b, date_of z a < date_of z b → a < b.
Hypothesis Hz : days_ordered.

Lemma later_day t1 t2 ts1 ts2 target :
  Forall (λ t, date_of z t = target) ts1 → Forall (λ t, date_of z t = target + 1) ts2 →
  t1 ∈ ts1 → t2 ∈ ts2 → t1 < t2.
Proof.
  rewrite !Forall_forall. intros H1 H2 E1%H1 E2%H2. apply Hz. lia.
Qed.

Lemma spaced_next g ts first :
  ts ≠ [] → spaced g ts → Forall (λ t, t < first) ts →
  Forall2 (λ s n, s < n ∨ (s + g ≤ n)) ts (tail ts ++ [first]).
Proof.
  induction ts as [|a ts IH]; intros Hne Hs Hf; [done|].
  apply StronglySorted_inv in Hs as [Hs Ha]. apply Forall_cons in Hf as [Hlt Hf].
  destruct ts as [|b ts]; simpl; [constructor; [by left|constructor]|]. constructor.
  - right. by apply Forall_cons in Ha as [Hab _].
  - by apply IH.
Qed.
End ordered_days.

(** A prefetched image stays reserved past its own slot: each deadline
    lies strictly after the slot it belongs to, by at least the grace period,
    also for the last slot of the day. *)
Theorem slot_deadlines_outlive_slots z target values grace gap maximum ds :
  days_ordered z → slot_deadlines z target values grace gap maximum = Ok ds →
  ∃ out starts, validate_offline_schedule values
                  (resolve_offline_schedule_max_slots (slots_capability maximum)) gap = Ok out ∧
    resolved_slot_datetimes z target out gap maximum = Ok starts ∧
    Forall2 (λ s d, s + minutes grace < d) starts ds.
Proof.
  intros Hz H. unfold slot_deadlines in H. apply rbind_ok in H as (_ & _ & H).
  apply rbind_ok in H as (out & Ho & H). apply rbind_ok in H as (starts & Hs & H).
  apply rbind_ok in H as (next & Hn & H). exists out, starts. split; [done|]. split; [done|].
  apply resolved_spec in Hs as (_ & Hns & Hd & Hsp & Hg). apply resolved_spec in Hn as (_ & Hne & Hdn & _).
  destruct next as [|first next]; [done|]. injection H as <-.
  assert (Forall (λ t, t < first) starts) as Hlt.
  { apply Forall_forall. intros t Ht. eapply (later_day z Hz); [exact Hd|exact Hdn|done|left]. }
  assert (0 < minutes gap) as Hpos by (unfold minutes, minute; lia).
  apply Forall2_fmap_r. eapply Forall2_impl; [by apply (spaced_next (minutes gap))|]. simpl. lia.
Qed.

(** The candidate loop: [acc] already serves every earlier slot. *)
Definition served (now lead : Z) (acc : list Z) (c : Z) : Prop :=
  now < c → ∃ x, x ∈ acc ∧ x ≤ Z.max now (c - minutes lead).

Lemma served_mono now lead acc acc' c :
  (∀ x, x ∈ acc → x ∈ acc') → served now lead acc c → served now lead acc' c.
Proof. intros Hs H Hc. destruct (H Hc) as (x & Hx & Hle). eauto. Qed.

Lemma sync_candidate_mono now lead acc c x : x ∈ acc → x ∈ sync_candidate now lead acc c.
Proof. unfold sync_candidate. intros Hx. repeat case_goal; try apply elem_of_app; auto. Qed.

(** Invariant: candidates are not in the past, and a future wake among them
    means that all later slots are still ahead of their lead window. *)
Definition cand_ok (now lead : Z) (acc : list Z) (bound : Z) : Prop :=
  Forall (λ x, now ≤ x) acc ∧ (∀ x, x ∈ acc → x = now ∨ x + minutes lead ≤ bound).

Lemma sync_candidate_step now lead acc c bound :
  0 ≤ lead → cand_ok now lead acc bound → bound ≤ c →
  cand_ok now lead (sync_candidate now lead acc c) c ∧ served now lead (sync_candidate now lead acc c) c.
Proof.
  intros Hl [Hn Hb] Hc. unfold sync_candidate. destruct (now <? c - minutes lead) eqn:E; bprop.
  - split; [split|].
    + apply Forall_app. split; [done|]. repeat constructor. lia.
    + intros x [Hx|Hx]%elem_of_app; [destruct (Hb x Hx); lia|]. apply list_elem_of_singleton in Hx. lia.
    + intros _. exists (c - minutes lead). split; [apply elem_of_app; right; left|lia].
  - destruct ((now <? c) && bool_decide (acc = [])) eqn:E2.
    + apply andb_true_iff in E2 as [E2 E3]. rewrite bool_decide_eq_true in E3. subst acc. split; [split|].
      * repeat constructor. lia.
      * intros x Hx%list_elem_of_singleton. by left.
      * intros _. exists now. split; [left|lia].
    + split; [split; [done|]|].
      * intros x Hx. destruct (Hb x Hx); lia.
      * intros Hlt. apply andb_false_iff in E2 as [E2|E2]; [bprop; lia|].
        rewrite bool_decide_eq_false in E2. destruct acc as [|x acc]; [done|]. exists x. split; [left|].
        rewrite Forall_cons in Hn. destruct (Hb x ltac:(left)); lia.
Qed.

Lemma sync_fold now lead ts acc bound :
  0 ≤ lead → cand_ok now lead acc bound → Forall (λ c, bound ≤ c) ts → StronglySorted Z.le ts →
  let out := fold_left (sync_candidate now lead) ts acc in
  (∃ b, cand_ok now lead out b ∧ (b = bound ∨ b ∈ ts)) ∧ (∀ x, x ∈ acc → x ∈ out) ∧
  ∀ c, c ∈ ts → served now lead out c.
Proof.
  intros Hl. revert acc bound. induction ts as [|c ts IH]; intros acc bound Hok Hb Hs; simpl.
  { split; [exists bound; auto|]. split; [done|]. by intros c ?%not_elem_of_nil. }
  apply Forall_cons in Hb as [Hbc Hb]. apply StronglySorted_inv in Hs as [Hs Hf].
  destruct (sync_candidate_step now lead acc c bound Hl Hok Hbc) as [Hok' Hserved].
  destruct (IH _ c Hok' Hf Hs) as ((b & Hb' & Hin) & Hsub & Hall). split; [|split].
  - exists b. split; [done|]. right. destruct Hin as [->|Hin]; [left|by right].
  - intros x Hx. by apply Hsub, sync_candidate_mono.
  - intros c' [->|Hc]%elem_of_cons; [|by apply Hall]. by eapply served_mono.
Qed.

Lemma spaced_le g ts : 0 ≤ g → spaced g ts → StronglySorted Z.le ts.
Proof.
  intros Hg. induction 1 as [|a ts _ IH Hf]; constructor; [done|].
  eapply Forall_impl; [exact Hf|]. simpl. lia.
Qed.

Lemma min_fold_spec t ts :
  fold_left Z.min ts t ∈ t :: ts ∧ ∀ x, x ∈ t :: ts → fold_left Z.min ts t ≤ x.
Proof.
  revert t. induction ts as [|a ts IH]; intros t; simpl.
  { split; [left|]. intros x Hx%list_elem_of_singleton. lia. }
  destruct (IH (Z.min t a)) as [Hin Hle]. split.
  - apply elem_of_cons in Hin as [E|Hin]; [|right; by right].
    destruct (Z.min_spec t a) as [[_ Em]|[_ Em]]; rewrite E, Em; [left|right; left].
  - intros x [->|[->|Hx]%elem_of_cons]%elem_of_cons.
    + pose proof (Hle (Z.min t a) ltac:(left)). lia.
    + pose proof (Hle (Z.min t a) ltac:(left)). lia.
    + apply Hle. by right.
Qed.

Lemma default_strategy : normalize_sync_strategy None None = Ok (u "first_display_lead", None).
Proof. vm_compute. reflexivity. Qed.

(** Every candidate is now, or the lead of a slot that lies ahead of it. *)
Lemma sync_fold_from now lead ts acc x :
  x ∈ fold_left (sync_candidate now lead) ts acc → x ∈ acc ∨ x = now ∨ ∃ c, c ∈ ts ∧ x = c - minutes lead ∧ now < x.
Proof.
  revert acc. induction ts as [|c ts IH]; intros acc; simpl; [by left|]. intros [H|[H|(c' & Hc & H)]]%IH.
  - unfold sync_candidate in H. destruct (now <? c - minutes lead) eqn:E; bprop.
    + apply elem_of_app in H as [H|H%list_elem_of_singleton]; [by left|]. right. right. exists c. split; [left|lia].
    + destruct (_ && _); [|by left]. apply elem_of_app in H as [H|H%list_elem_of_singleton]; auto.
  - auto.
  - right. right. exists c'. split; [by right|done].
Qed.

(** The next wake before truncation. *)
Lemma next_sync_instant_spec z now schedule lead gap maximum out ts1 ts2 :
  days_ordered z → 0 ≤ lead ≤ 120 →
  validate_offline_schedule schedule (resolve_offline_schedule_max_slots (slots_capability maximum)) gap = Ok out →
  resolved_slot_datetimes z (date_of z now) out gap maximum = Ok ts1 →
  resolved_slot_datetimes z (date_of z now + 1) out gap maximum = Ok ts2 →
  ∃ t, next_sync_instant z now schedule lead None None gap maximum = Ok t ∧
       (t = now ∨ ∃ c, c ∈ ts1 ++ ts2 ∧ t = c - minutes lead ∧ now < t) ∧
       ∀ c, c ∈ ts1 ++ ts2 → now < c → t ≤ Z.max now (c - minutes lead).
Proof.
  intros Hz Hl Ho H1 H2. unfold next_sync_instant.
  assert ((0 <=? lead) && (lead <=? 120) = true) as -> by (bprop; lia).
  rewrite default_strategy, Ho. simpl. rewrite H1. simpl. rewrite H2. simpl.
  apply resolved_spec in H1 as (_ & _ & D1 & S1 & Hg). apply resolved_spec in H2 as (_ & N2 & D2 & S2 & _).
  assert (0 ≤ minutes gap) as Hg' by (unfold minutes, minute; lia).
  apply spaced_le in S1, S2; try done. rewrite <- fold_left_app.
  assert (StronglySorted Z.le (ts1 ++ ts2)) as Hs.
  { clear -S1 S2 D1 D2 Hz. induction S1 as [|a ts1 _ IH Hf]; [done|]. apply Forall_cons in D1 as [Da D1].
    simpl. constructor; [by apply IH|]. apply Forall_app. split; [done|]. apply Forall_forall.
    intros b Hb. rewrite Forall_forall in D2. apply D2 in Hb. assert (a < b); [apply Hz|]; lia. }
  assert (∃ b, Forall (λ c, b ≤ c) (ts1 ++ ts2)) as [b Hb].
  { destruct Hs as [|a l _ Hf]; [by exists 0|]. exists a. constructor; [lia|done]. }
  destruct (sync_fold now lead (ts1 ++ ts2) [] b) as (_ & _ & Hall);
    [lia|split; [constructor|by intros x ?%not_elem_of_nil]|done|done|].
  assert (∃ c, c ∈ ts2 ∧ now < c) as (c & Hc & Hlt).
  { destruct ts2 as [|c ts2]; [done|]. exists c. split; [left|]. apply Forall_cons in D2 as [Dc _]. apply Hz. lia. }
  destruct (Hall c) as (x & Hx & _); [apply elem_of_app; by right|done|].
  pose proof (sync_fold_from now lead (ts1 ++ ts2) []) as Hfrom.
  destruct (fold_left (sync_candidate now lead) (ts1 ++ ts2) []) as [|t ts]; [by apply not_elem_of_nil in Hx|].
  destruct (min_fold_spec t ts) as [Hin Hmin]. eexists. split; [reflexivity|]. split.
  - destruct (Hfrom _ Hin) as [H%not_elem_of_nil|H]; [done|exact H].
  - intros c' Hc' Hlt'. destruct (Hall c' Hc' Hlt') as (y & Hy & Hle). specialize (Hmin y Hy). lia.
Qed.

(** C38. With the default strategy there is a next network wake, an epoch of
    whole seconds: it is the second of now, when the lead window of a slot is
    already open, or the second of the prefetch lead of a slot whose lead lies
    ahead; so it is never before the second of now (it may be less than one
    second before now itself, since the fraction is cut off), and for every
    slot still ahead today or tomorrow it comes no later than that slot's lead
    or than now.  This holds from 1970 on when both days resolve and the
    zone's calendar never goes back to an earlier date; where it does, as in
    America/St_Johns until 2010, the code can find no next wake and raise. *)
Theorem next_sync_never_misses z now schedule lead gap maximum out ts1 ts2 :
  days_ordered z → 0 ≤ now → 0 ≤ lead ≤ 120 →
  validate_offline_schedule schedule (resolve_offline_schedule_max_slots (slots_capability maximum)) gap = Ok out →
  resolved_slot_datetimes z (date_of z now) out gap maximum = Ok ts1 →
  resolved_slot_datetimes z (date_of z now + 1) out gap maximum = Ok ts2 →
  ∃ e, next_sync_epoch z now schedule lead None None gap maximum = Ok e ∧
       (e = now / 1000000 ∨ ∃ c, c ∈ ts1 ++ ts2 ∧ now < c - minutes lead ∧ e = (c - minutes lead) / 1000000) ∧
       now / 1000000 ≤ e ∧
       ∀ c, c ∈ ts1 ++ ts2 → now < c → e * 1000000 ≤ Z.max now (c - minutes lead).
Proof.
  intros Hz Hn Hl Ho H1 H2. destruct (next_sync_instant_spec z now schedule lead gap maximum out ts1 ts2 Hz Hl Ho H1 H2) as (t & Ht & Hfrom & Hle).
  assert (now ≤ t) as Hnt by (destruct Hfrom as [->|(c & _ & _ & H)]; lia).
  exists (t / 1000000). unfold next_sync_epoch. rewrite Ht. cbn [rbind]. rewrite Z.quot_div_nonneg by lia. split; [done|]. split_and!.
  - destruct Hfrom as [->|(c & Hc & -> & Hlt)]; [by left|right]. by exists c.
  - apply Z.div_le_mono; lia.
  - intros c Hc Hlt. specialize (Hle c Hc Hlt). pose proof (Z.mul_div_le t 1000000 ltac:(lia)). lia.
Qed.

(** ** The preparation plan *)

Lemma deadline_today_late z now lead margin strategy slots gap maximum skipped today r :
  deadline_today z now lead margin strategy slots gap maximum skipped today = Ok r →
  (∀ t, r = Some t → now ≤ t) ∧
  (today_due z now lead margin strategy slots gap maximum skipped today = Ok true → r = Some now).
Proof.
  unfold deadline_today, today_due. destruct (is_skipped skipped today); [intros; res_inv; split; by intros|].
  intros (tech & -> & H)%rbind_ok. simpl. destruct (now <? tech) eqn:E; bprop.
  - injection H as <-. split; [intros t [= <-]; lia|].
    rewrite (proj2 (Z.leb_gt tech now)) by lia. done.
  - apply rbind_ok in H as (b & Hb & H). injection H as <-. rewrite Hb.
    rewrite (proj2 (Z.leb_le tech now)) by lia. split; [destruct b; [intros t [= <-]; lia|done]|by intros [= ->]].
Qed.

Lemma deadline_later_late z now lead margin hour strategy slots gap maximum skipped target r :
  deadline_later z now lead margin hour strategy slots gap maximum skipped target = Ok r →
  ∀ t, r = Some t → now ≤ t.
Proof.
  unfold deadline_later. destruct (is_skipped skipped target); [intros; res_inv; done|].
  intros (tech & _ & H)%rbind_ok t ->. apply rbind_ok in H as (h & _ & H). injection H as <-.
  destruct (Z.min tech h <=? now) eqn:E; bprop; lia.
Qed.

(** The two projections of the preparation plan agree: the dates due are
    today and/or tomorrow, in that order, and never a skipped one; the next
    deadline is never in the past, and is immediate whenever today is due. *)
Theorem prepare_plan_coherent z now lead margin hour strategy sync_time schedule gap maximum skipped p :
  offline_prepare_plan (Some z) now lead margin hour strategy sync_time schedule gap maximum skipped = Ok p →
  now ≤ next_deadline p ∧
  due_target_dates p `sublist_of` [date_of z now; date_of z now + 1] ∧
  (∀ t, t ∈ due_target_dates p → t ∉ skipped) ∧
  (date_of z now ∈ due_target_dates p → next_deadline p = now).
Proof.
  unfold offline_prepare_plan. intros H. apply rbind_ok in H as (_ & _ & H).
  apply rbind_ok in H as (_ & _ & H). apply rbind_ok in H as (_ & _ & H).
  apply rbind_ok in H as (st & _ & H). apply rbind_ok in H as (slots & _ & H). unfold plan_for in H.
  apply rbind_ok in H as (a & Ha & H). apply rbind_ok in H as (b & Hb & H).
  apply rbind_ok in H as (next & Hn & H). injection H as <-. cbn [due_target_dates next_deadline].
  assert (a = true → date_of z now ∉ skipped) as Sa.
  { intros ->. unfold today_due, is_skipped in Ha. case_in Ha; [done|]. by apply bool_decide_eq_false in Heqb0. }
  assert (b = true → date_of z now + 1 ∉ skipped) as Sb.
  { intros ->. unfold tomorrow_due, is_skipped in Hb. case_in Hb; [done|]. by apply bool_decide_eq_false in Heqb. }
  unfold first_deadline in Hn. apply rbind_ok in Hn as (d0 & H0 & Hn).
  destruct (deadline_today_late _ _ _ _ _ _ _ _ _ _ _ H0) as [L0 L1]. split_and!.
  - destruct d0 as [t|]; [injection Hn as <-; by apply L0|].
    apply rbind_ok in Hn as (d1 & H1 & Hn). pose proof (deadline_later_late _ _ _ _ _ _ _ _ _ _ _ _ H1) as M1.
    destruct d1 as [t|]; [injection Hn as <-; by apply M1|].
    apply rbind_ok in Hn as (d2 & H2 & Hn). pose proof (deadline_later_late _ _ _ _ _ _ _ _ _ _ _ _ H2) as M2.
    injection Hn as <-. destruct d2 as [t|]; [by apply M2|]. unfold minutes, minute. lia.
  - destruct a, b; simpl; repeat constructor.
  - intros t Ht. destruct a, b; simpl in Ht; rewrite ?elem_of_cons, ?elem_of_nil in Ht;
      repeat destruct Ht as [->|Ht]; auto; done.
  - intros Ht. assert (a = true) as ->.
    { destruct a; [done|]. destruct b; simpl in Ht; [|by apply not_elem_of_nil in Ht].
      apply list_elem_of_singleton in Ht. lia. }
    rewrite (L1 Ha) in Hn. by injection Hn as <-.
Qed.

(** ** A zone with a spring-forward change

    Local time is UTC+1 until 02:00 of day 100 and UTC+2 from then on: the
    wall times from 02:00 to 03:00 of that day do not exist. *)

Definition change_at : Z := 100 * day + minutes 60.

Definition spring_zone : zone := {|
  utc_of := λ naive fold,
    if naive <? change_at + minutes 60 then naive - minutes 60
    else if change_at + minutes 120 <=? naive then naive - minutes 120
    else if fold then naive - minutes 120 else naive - minutes 60;
  wall_of := λ t, if t <? change_at then t + minutes 60 else t + minutes 120 |}.

Lemma spring_days_ordered : days_ordered spring_zone.
Proof.
  intros a b H. destruct (Z.lt_ge_cases a b) as [|Hge]; [done|exfalso].
  assert (date_of spring_zone b ≤ date_of spring_zone a); [|lia]. unfold date_of. apply Z.div_le_mono; [by vm_compute|].
  cbn [wall_of spring_zone]. unfold minutes, minute. destruct (a <? change_at) eqn:E, (b <? change_at) eqn:F; bprop; lia.
Qed.

Definition spring_slots : list str := [u "03:00"; u " 02:30"].

Lemma validate_offline_schedule_sound_witness :
  ∃ out, validate_offline_schedule spring_slots 24 30 = Ok out ∧ out = [u "02:30"; u "03:00"] ∧
         validate_offline_schedule out 24 30 = Ok out.
Proof.
  exists [u "02:30"; u "03:00"]. split; [reflexivity|]. split; [reflexivity|].
  apply (validate_offline_schedule_sound spring_slots 24 30). reflexivity.
Defined.

(** 02:30 does not exist: it moves to 03:30, and 03:00 is deferred past it. *)
Lemma resolved_slots_sound_witness :
  ∃ ts, resolved_slot_datetimes spring_zone 100 spring_slots 30 24 = Ok ts ∧
    ts = [change_at + minutes 30; change_at + minutes 60] ∧ spaced (minutes 30) ts.
Proof.
  destruct (resolved_slot_datetimes spring_zone 100 spring_slots 30 24) as [ts|e] eqn:E;
    [|vm_compute in E; discriminate].
  exists ts. split; [reflexivity|]. split; [vm_compute in E; injection E as <-; reflexivity|].
  apply (resolved_slots_sound spring_zone 100 spring_slots 30 24 ts E).
Defined.

Lemma slot_deadlines_outlive_slots_witness :
  ∃ ds, slot_deadlines spring_zone 100 spring_slots 15 30 24 = Ok ds ∧ length ds = 2%nat ∧
    ∃ starts, Forall2 (λ s d, s + minutes 15 < d) starts ds.
Proof.
  destruct (slot_deadlines spring_zone 100 spring_slots 15 30 24) as [ds|e] eqn:E; [|vm_compute in E; discriminate].
  exists ds. split; [reflexivity|]. split; [vm_compute in E; injection E as <-; reflexivity|].
  destruct (slot_deadlines_outlive_slots spring_zone 100 spring_slots 15 30 24 ds spring_days_ordered E)
    as (out & starts & _ & _ & H). exists starts. exact H.
Defined.

(** Half a second past 01:56 the wake is 03:25, the lead of 03:30 to which the
    missing 02:30 moved; inside the lead window, half a second past 03:27, it
    is the present second. *)
Lemma next_sync_never_misses_witness :
  next_sync_epoch spring_zone (change_at - minutes 4 + 500000) spring_slots 5 None None 30 24 = Ok ((change_at + minutes 25) / 1000000) ∧
  ∃ e, next_sync_epoch spring_zone (change_at + minutes 27 + 500000) spring_slots 5 None None 30 24 = Ok e ∧
       e = (change_at + minutes 27 + 500000) / 1000000 ∧ e * 1000000 < change_at + minutes 27 + 500000.
Proof.
  split; [vm_compute; reflexivity|]. set (now := change_at + minutes 27 + 500000).
  destruct (resolved_slot_datetimes spring_zone (date_of spring_zone now) [u "02:30"; u "03:00"] 30 24)
    as [ts1|e] eqn:E1; [|vm_compute in E1; discriminate].
  destruct (resolved_slot_datetimes spring_zone (date_of spring_zone now + 1) [u "02:30"; u "03:00"] 30 24)
    as [ts2|e] eqn:E2; [|vm_compute in E2; discriminate].
  destruct (next_sync_never_misses spring_zone now spring_slots 5 30 24 [u "02:30"; u "03:00"] ts1 ts2
    spring_days_ordered ltac:(vm_compute; discriminate) ltac:(lia) eq_refl E1 E2) as (e & H & _ & H1 & H2).
  exists e. split; [exact H|]. assert (e = now / 1000000) as ->.
  { specialize (H2 (change_at + minutes 30)). assert (change_at + minutes 30 ∈ ts1 ++ ts2) as Hin.
    { vm_compute in E1. injection E1 as <-. left. }
    specialize (H2 Hin ltac:(vm_compute; reflexivity)).
    replace (Z.max now (change_at + minutes 30 - minutes 5)) with now in H2 by (vm_compute; reflexivity).
    apply Z.le_antisymm; [|exact H1]. apply Z.div_le_lower_bound; [lia|]. rewrite Z.mul_comm. exact H2. }
  split; [reflexivity|vm_compute; reflexivity].
Defined.

(** Local time is UTC until 00:01 of day 100 and goes back to 23:01 of day 99:
    half an hour later, a frame that shows at midnight has no next wake, since
    that midnight is already past. *)
Definition back_at : Z := 100 * day + minutes 1.
Definition midnight_zone : zone := {|
  utc_of := λ naive fold,
    if naive <? back_at - minutes 60 then naive
    else if back_at <=? naive then naive + minutes 60
    else if fold then naive + minutes 60 else naive;
  wall_of := λ t, if t <? back_at then t else t - minutes 60 |}.

Example midnight_zone_no_wake :
  ¬ days_ordered midnight_zone ∧
  next_sync_epoch midnight_zone (back_at + minutes 30) [u "00:00"] 5 None None 60 24 = Raise NoSyncCandidate.
Proof.
  split; [|vm_compute; reflexivity]. intros H. specialize (H (back_at + minutes 30) (back_at - minutes 1)).
  assert (back_at + minutes 30 < back_at - minutes 1) as Hlt by (apply H; vm_compute; reflexivity). vm_compute in Hlt. discriminate Hlt.
Qed.

Lemma prepare_plan_coherent_witness :
  ∃ p, offline_prepare_plan (Some spring_zone) (100 * day + minutes 80) 5 10 20 None None spring_slots 30 24 [] = Ok p ∧
    due_target_dates p = [100] ∧ next_deadline p = 100 * day + minutes 80.
Proof.
  destruct (offline_prepare_plan (Some spring_zone) (100 * day + minutes 80) 5 10 20 None None spring_slots 30 24 [])
    as [p|e] eqn:E; [|vm_compute in E; discriminate].
  exists p. split; [reflexivity|].
  assert (due_target_dates p = [100]) as Hd by (vm_compute in E; injection E as <-; reflexivity).
  split; [exact Hd|].
  apply (prepare_plan_coherent spring_zone _ 5 10 20 None None spring_slots 30 24 [] p E).
  rewrite Hd. left.
Defined.
