(* ===== verification/OfflineRetry.v ===== *)
(** * Retry advice for a frame without a playlist

    The planning half of [inktime/app/repositories/offline_schedules.py]:
    [next_prepare_deadline], [retry_after_details], [retry_after_epoch] and
    [retry_after_target_details], on the zones, slots and instants of
    [OfflineSchedule].  Epochs are whole seconds. *)

From S2P Require Import Prelude PyStr Json Sql OfflineSchedule OfflineScheduleProps.
Local Open Scope Z_scope.

Record RetryAfterDetails := mk_retry { retry_after : Z; next_slot : option Z }.

(** [int(value.timestamp())] *)
Definition epoch (t : Z) : Z := Z.quot t 1000000.

Definition next_prepare_deadline (zo : option zone) (now lead margin hour : Z) (strategy sync_time : option str)
    (schedule : list str) (gap maximum : Z) (skipped : list Z) : result sched_exn Z :=
  let* p := offline_prepare_plan zo now lead margin hour strategy sync_time schedule gap maximum skipped in
  Ok (next_deadline p).

(** One turn of [retry_before_slots]. *)
Definition slot_candidate (now_epoch lead slot_epoch : Z) : option Z :=
  if slot_epoch <=? now_epoch + 1 then None
  else
    let safe_deadline := slot_epoch - Z.min lead 5 * 60 in
    let candidate := Z.min (now_epoch + 15 * 60) safe_deadline in
    let candidate := Z.max candidate (now_epoch + 60) in
    let candidate := if slot_epoch <=? candidate then slot_epoch - 1 else candidate in
    if (now_epoch <? candidate) && (candidate <? slot_epoch) then Some candidate else None.

Fixpoint retry_before_slots (now_epoch lead : Z) (slot_epochs : list Z) : option RetryAfterDetails :=
  match slot_epochs with
  | [] => None
  | e :: es =>
      match slot_candidate now_epoch lead e with
      | Some c => Some (mk_retry c (Some e))
      | None => retry_before_slots now_epoch lead es
      end
  end.

(** [[epoch(slot_at(target, slot)) for slot in slots]] *)
Fixpoint slot_epochs (z : zone) (target : Z) (slots : list Z) : result sched_exn (list Z) :=
  match slots with
  | [] => Ok []
  | m :: slots' =>
      let* t := local_slot_datetime z target m in
      let* es := slot_epochs z target slots' in
      Ok (epoch t :: es)
  end.

Definition prepare_epoch (z : zone) (target lead margin : Z) (strategy : sync_strategy) (es : list Z)
  : result sched_exn Z :=
  match strategy with
  | FixedDaily m => let* t := local_slot_datetime z target m in Ok (epoch t)
  | FirstDisplayLead =>
      match es with [] => Raise BadCount | e :: _ => Ok (e - (lead + margin) * 60) end
  end.

Definition head_epoch (es : list Z) : result sched_exn Z :=
  match es with [] => Raise BadCount | e :: _ => Ok e end.

(** [retry_for_day] with [allow_prepare_point] (its only call). *)
Definition retry_for_day (z : zone) (now_epoch target lead margin : Z) (strategy : sync_strategy) (slots : list Z)
  : result sched_exn (option RetryAfterDetails) :=
  let* es := slot_epochs z target slots in
  let* p := prepare_epoch z target lead margin strategy es in
  let* first := head_epoch es in
  if (now_epoch <? p) && (p <? first) then Ok (Some (mk_retry p (Some first)))
  else Ok (retry_before_slots now_epoch lead es).

(** Rules A, B and C after validation. *)
Definition retry_after_plan (z : zone) (now lead margin : Z) (strategy : sync_strategy) (slots : list Z)
  : result sched_exn RetryAfterDetails :=
  let today := date_of z now in
  let now_epoch := epoch now in
  let* today_details := retry_for_day z now_epoch today lead margin strategy slots in
  match today_details with
  | Some d => Ok d
  | None =>
      let* es := slot_epochs z (today + 1) slots in
      let* p := prepare_epoch z (today + 1) lead margin strategy es in
      let* first := head_epoch es in
      if (now_epoch <? p) && (p <? first) then Ok (mk_retry p None)
      else
        match retry_before_slots now_epoch lead es with
        | Some d => Ok d
        | None => Ok (mk_retry (now_epoch + 1) None)
        end
  end.

Definition retry_inputs (zo : option zone) (lead margin : Z) (strategy sync_time : option str) (schedule : list str)
    (gap maximum : Z) : result sched_exn (zone * sync_strategy * list Z) :=
  raise_if (negb ((0 <=? lead) && (lead <=? 120))) BadLead ;;;
  raise_if (negb ((0 <=? margin) && (margin <=? 60))) BadMargin ;;;
  match zo with
  | None => Raise BadZone
  | Some z =>
      let* p := normalize_sync_strategy strategy sync_time in
      let* slots := validate_offline_schedule schedule
                      (resolve_offline_schedule_max_slots (slots_capability maximum)) gap in
      Ok (z, as_strategy p, slot_times slots)
  end.

Definition retry_after_details (zo : option zone) (now lead margin : Z) (strategy sync_time : option str)
    (schedule : list str) (gap maximum : Z) : result sched_exn RetryAfterDetails :=
  let* (z, st, slots) := retry_inputs zo lead margin strategy sync_time schedule gap maximum in
  retry_after_plan z now lead margin st slots.

Definition retry_after_epoch (zo : option zone) (now lead margin : Z) (strategy sync_time : option str)
    (schedule : list str) (gap maximum : Z) : result sched_exn Z :=
  let* d := retry_after_details zo now lead margin strategy sync_time schedule gap maximum in
  Ok (retry_after d).

(** [target_date] is the day number of the parsed date. *)
Definition retry_after_target_details (zo : option zone) (now target lead margin : Z) (strategy sync_time : option str)
    (schedule : list str) (gap maximum : Z) : result sched_exn RetryAfterDetails :=
  let* (z, st, slots) := retry_inputs zo lead margin strategy sync_time schedule gap maximum in
  let now_epoch := epoch now in
  let* es := slot_epochs z target slots in
  let* p := prepare_epoch z target lead margin st es in
  let* first := head_epoch es in
  if (now_epoch <? p) && (p <? first) then Ok (mk_retry p (Some first))
  else
    match retry_before_slots now_epoch lead es with
    | Some d => Ok d
    | None => Ok (mk_retry (now_epoch + 1) None)
    end.

(** ** The wake comes before the next slot *)

(** The first slot, in schedule order, that an integer wake can still serve. *)
Definition serviceable (now_epoch e : Z) : bool := now_epoch + 1 <? e.
Definition next_serviceable (now_epoch : Z) (es : list Z) : option Z := find_where (serviceable now_epoch) es.

Lemma slot_candidate_spec now lead e :
  match slot_candidate now lead e with
  | Some c => serviceable now e = true ∧ now < c < e ∧ c ≤ now + 900
  | None => serviceable now e = false
  end.
Proof.
  unfold slot_candidate, serviceable. destruct (e <=? now + 1) eqn:E; bprop; [lia|].
  repeat case_goal; bprop; lia.
Qed.

Lemma retry_before_slots_spec now lead es :
  match retry_before_slots now lead es with
  | Some d => ∃ e, next_serviceable now es = Some e ∧ next_slot d = Some e ∧ now < retry_after d < e ∧ retry_after d ≤ now + 900
  | None => next_serviceable now es = None
  end.
Proof.
  unfold next_serviceable, find_where. induction es as [|e es IH]; simpl; [done|].
  pose proof (slot_candidate_spec now lead e) as H. destruct (slot_candidate now lead e) as [c|].
  - destruct H as (-> & Hc & Hb). exists e. done.
  - by rewrite H.
Qed.

Lemma head_serviceable now p e es : now < p < e → next_serviceable now (e :: es) = Some e.
Proof. intros H. unfold next_serviceable, find_where. simpl. unfold serviceable. by replace (now + 1 <? e) with true by lia. Qed.

(** What the advice for one day guarantees. *)
Definition advice_ok (now : Z) (es : list Z) (d : RetryAfterDetails) : Prop :=
  ∃ e, next_serviceable now es = Some e ∧ next_slot d = Some e ∧ now < retry_after d < e.

Lemma retry_for_day_spec z now target lead margin st slots r :
  retry_for_day z now target lead margin st slots = Ok r →
  ∃ es p, slot_epochs z target slots = Ok es ∧ prepare_epoch z target lead margin st es = Ok p ∧
    match r with
    | Some d => advice_ok now es d ∧ (retry_after d = p ∨ retry_after d ≤ now + 900)
    | None => next_serviceable now es = None
    end.
Proof.
  unfold retry_for_day. intros (es & Hes & (p & Hp & (first & Hf & H)%rbind_ok)%rbind_ok)%rbind_ok.
  exists es, p. split; [done|]. split; [done|]. destruct es as [|e es]; [done|]. injection Hf as <-.
  pose proof (retry_before_slots_spec now lead (e :: es)) as Hs.
  revert Hs H. generalize (retry_before_slots now lead (e :: es)). intros rb Hs H.
  destruct ((now <? p) && (p <? e)) eqn:E; bprop; injection H as <-.
  - split; [|by left]. exists e. split; [by apply (head_serviceable now p)|]. simpl. split; [done|lia].
  - destruct rb as [d|]; [|done]. destruct Hs as (e' & He & Hn & Hb & Hu). split; [by exists e'|by right].
Qed.

Lemma first_serviceable_least now es e :
  StronglySorted Z.le es → next_serviceable now es = Some e → ∀ x, x ∈ es → serviceable now x = true → e ≤ x.
Proof.
  unfold next_serviceable, find_where. induction 1 as [|a es Hs IH Hf]; simpl; [done|].
  destruct (serviceable now a) eqn:E.
  - intros [= <-] x [->|Hx]%elem_of_cons _; [lia|]. rewrite Forall_forall in Hf. by apply Hf.
  - intros He x [->|Hx]%elem_of_cons Hv; [congruence|]. by apply IH.
Qed.

Lemma tomorrow_advice now lead es p first d :
  head_epoch es = Ok first →
  (if (now <? p) && (p <? first) then Ok (mk_retry p None)
   else match retry_before_slots now lead es with Some d => Ok d | None => Ok (mk_retry (now + 1) None) end)
  = Ok (E := sched_exn) d →
  now < retry_after d ∧ ∀ e, next_serviceable now es = Some e → retry_after d < e.
Proof.
  destruct es as [|e0 es]; [done|]. intros [= ->]. destruct ((now <? p) && (p <? first)) eqn:E; bprop.
  - intros [= <-]. cbn [retry_after]. split; [lia|]. intros e. rewrite (head_serviceable now p) by lia. intros [= <-]. lia.
  - pose proof (retry_before_slots_spec now lead (first :: es)) as Hs.
    destruct (retry_before_slots now lead (first :: es)) as [d'|]; intros [= <-].
    + destruct Hs as (e' & -> & _ & Hb & _). split; [lia|]. intros e [= <-]. lia.
    + rewrite Hs. cbn [retry_after]. split; [lia|done].
Qed.

(** C37. The retry advice of a frame without a playlist never lies in the
    past and never steps over a slot: while an integer wake can still serve a
    slot of today, the advice names the first such slot and wakes strictly
    before it (before every later one too when the day's slots ascend, which
    daylight saving may break), either at the day's preparation point or
    within fifteen minutes; once today is exhausted it wakes before
    tomorrow's first serviceable slot. *)
Theorem retry_never_skips_slot zo now lead margin strategy sync_time schedule gap maximum d :
  retry_after_details zo now lead margin strategy sync_time schedule gap maximum = Ok d →
  ∃ z st slots today tomorrow, retry_inputs zo lead margin strategy sync_time schedule gap maximum = Ok (z, st, slots) ∧
    slot_epochs z (date_of z now) slots = Ok today ∧ epoch now < retry_after d ∧
    match next_serviceable (epoch now) today with
    | Some e =>
        next_slot d = Some e ∧ retry_after d < e ∧
        (StronglySorted Z.le today → ∀ x, x ∈ today → serviceable (epoch now) x = true → retry_after d < x) ∧
        (prepare_epoch z (date_of z now) lead margin st today = Ok (retry_after d) ∨ retry_after d ≤ epoch now + 900)
    | None =>
        slot_epochs z (date_of z now + 1) slots = Ok tomorrow ∧
        ∀ e, next_serviceable (epoch now) tomorrow = Some e → retry_after d < e
    end.
Proof.
  unfold retry_after_details, retry_after_plan. intros (((z & st) & slots) & Hi & (r & Hr & H)%rbind_ok)%rbind_ok.
  apply retry_for_day_spec in Hr as (today & p & Ht & Hp & Hr). destruct r as [d'|]; [injection H as <-|].
  - destruct Hr as [(e & He & Hn & Hb) Hu]. exists z, st, slots, today, []. rewrite He.
    split_and!; [done|done|lia|done|lia| |].
    + intros Hs x Hx Hv. pose proof (first_serviceable_least _ _ _ Hs He x Hx Hv). lia.
    + destruct Hu as [->|Hu]; [by left|by right].
  - apply rbind_ok in H as (tm & Htm & (p' & _ & (first & Hf & H)%rbind_ok)%rbind_ok). exists z, st, slots, today, tm. rewrite Hr.
    destruct (tomorrow_advice _ _ _ _ _ _ Hf H) as [Hlt Hall]. done.
Qed.

(** Slots at 08:00 and 20:00 in a fixed zone, five minutes of lead: at 07:58
    of day 100 the advice is 07:59, a minute away and before the slot. *)
Definition fixed_zone : zone := mk_zone (λ naive _, naive) (λ t, t).

Lemma retry_never_skips_slot_witness :
  ∃ z st slots today tomorrow,
    retry_inputs (Some fixed_zone) 5 10 None None (map u ["08:00"; "20:00"]%string) 60 12 = Ok (z, st, slots) ∧
    slot_epochs z (date_of z (100 * day + minutes 478)) slots = Ok today ∧ 8668680 < 8668740 ∧
    match next_serviceable 8668680 today with
    | Some e =>
        Some 8668800 = Some e ∧ 8668740 < e ∧
        (StronglySorted Z.le today → ∀ x, x ∈ today → serviceable 8668680 x = true → 8668740 < x) ∧
        (prepare_epoch z (date_of z (100 * day + minutes 478)) 5 10 st today = Ok 8668740 ∨ 8668740 ≤ 8668680 + 900)
    | None =>
        slot_epochs z (date_of z (100 * day + minutes 478) + 1) slots = Ok tomorrow ∧
        ∀ e, next_serviceable 8668680 tomorrow = Some e → 8668740 < e
    end.
Proof.
  apply (retry_never_skips_slot (Some fixed_zone) (100 * day + minutes 478) 5 10 None None
           (map u ["08:00"; "20:00"]%string) 60 12 (mk_retry 8668740 (Some 8668800))).
  vm_compute. reflexivity.
Defined.
