(* ===== verification/Calendar.v ===== *)
(** * The calendar of [datetime]

    The proleptic Gregorian calendar as CPython computes it: the ordinal of a
    date and the date of an ordinal.  The two are inverse to each other and
    preserve the order, so that comparing (year, month, day, hour, minute)
    tuples is comparing wall clocks. *)

From S2P Require Import Prelude PyStr.
Local Open Scope Z_scope.

(** [lia] on division and remainder by constants. *)
#[local] Ltac Zify.zify_post_hook ::= Z.to_euclidean_division_equations.

Definition leap (y : Z) : bool := (y mod 4 =? 0) && (negb (y mod 100 =? 0) || (y mod 400 =? 0)).
Definition monthrange (y m : Z) : Z :=
  if m =? 2 then (if leap y then 29 else 28)
  else if bool_decide (m ∈ [4; 6; 9; 11]) then 30 else 31.

Definition days_before_year (y : Z) : Z := (y - 1) * 365 + (y - 1) / 4 - (y - 1) / 100 + (y - 1) / 400.
(** The table of a common year, from January. *)
Definition month_offset (m : Z) : Z :=
  nth (Z.to_nat (m - 1)) [0; 31; 59; 90; 120; 151; 181; 212; 243; 273; 304; 334] 334.
Definition month_length (m : Z) : Z := nth (Z.to_nat (m - 1)) [31; 28; 31; 30; 31; 30; 31; 31; 30; 31; 30; 31] 31.
Definition b2i (b : bool) : Z := if b then 1 else 0.
Definition days_before_month (y m : Z) : Z := month_offset m + b2i ((2 <? m) && leap y).

Record date := mk_date { d_year : Z; d_month : Z; d_day : Z }.
Definition ymd2ord (c : date) : Z := days_before_year (d_year c) + days_before_month (d_year c) (d_month c) + d_day c.

(** Month and day from the day of the year. *)
Definition month_day (leapyear : bool) (n : Z) : Z * Z :=
  let month := Z.shiftr (n + 50) 5 in
  let preceding := month_offset month + b2i ((2 <? month) && leapyear) in
  if n <? preceding then
    let month' := month - 1 in
    (month', n - (preceding - (month_length month' + b2i ((month' =? 2) && leapyear))) + 1)
  else (month, n - preceding + 1).

Definition ord2ymd (ordinal : Z) : date :=
  let n := ordinal - 1 in
  let n400 := n / 146097 in let n := n mod 146097 in
  let n100 := n / 36524 in let n := n mod 36524 in
  let n4 := n / 1461 in let n := n mod 1461 in
  let n1 := n / 365 in let n := n mod 365 in
  let year := n400 * 400 + 1 + n100 * 100 + n4 * 4 + n1 in
  if (n1 =? 4) || (n100 =? 4) then mk_date (year - 1) 12 31
  else
    let '(month, d) := month_day ((n1 =? 3) && (negb (n4 =? 24) || (n100 =? 3))) n in
    mk_date year month d.

Definition date_ok (c : date) : Prop := 1 ≤ d_month c ≤ 12 ∧ 1 ≤ d_day c ≤ monthrange (d_year c) (d_month c).

(** ** Inverse *)

Lemma b2i_cases b : (b = true ∧ b2i b = 1) ∨ (b = false ∧ b2i b = 0).
Proof. destruct b; auto. Qed.

(** Split a month number into its twelve cases. *)
Ltac month_cases m :=
  assert (m = 1 ∨ m = 2 ∨ m = 3 ∨ m = 4 ∨ m = 5 ∨ m = 6 ∨ m = 7 ∨ m = 8 ∨ m = 9 ∨ m = 10 ∨ m = 11 ∨ m = 12)
    as Hmonth by lia;
  destruct Hmonth as [->|[->|[->|[->|[->|[->|[->|[->|[->|[->|[->| ->]]]]]]]]]]].

(** Evaluate the tables at known months. *)
Ltac eval_months :=
  repeat match goal with
  | |- context [month_offset ?m] => let v := eval vm_compute in (month_offset m) in change (month_offset m) with v
  | |- context [month_length ?m] => let v := eval vm_compute in (month_length m) in change (month_length m) with v
  | |- context [b2i ?b] => let v := eval vm_compute in (b2i b) in change (b2i b) with v
  end.

Lemma month_day_ok l n : 0 ≤ n < 365 + b2i l →
  let '(m, d) := month_day l n in
  1 ≤ m ≤ 12 ∧ 1 ≤ d ≤ month_length m + b2i ((m =? 2) && l) ∧ month_offset m + b2i ((2 <? m) && l) + d = n + 1.
Proof.
  intros Hn. unfold month_day. rewrite Z.shiftr_div_pow2 by lia. change (2 ^ 5) with 32.
  assert (1 ≤ (n + 50) / 32 ≤ 12) as Hm by (destruct l; simpl in Hn; lia).
  remember ((n + 50) / 32) as m eqn:E. assert (32 * m ≤ n + 50 < 32 * m + 32) as Hb by lia. clear E.
  month_cases m; destruct l; cbn [b2i] in Hn; eval_months; destruct (n <? _) eqn:E; bprop; eval_months; lia.
Qed.

Lemma monthrange_length y m : 1 ≤ m ≤ 12 → monthrange y m = month_length m + b2i ((m =? 2) && leap y).
Proof. intros H. month_cases m; try done. unfold monthrange. simpl. by destruct (leap y). Qed.

Lemma days_before_year_parts a b c d : 0 ≤ b ≤ 3 → 0 ≤ c ≤ 24 → 0 ≤ d ≤ 3 →
  days_before_year (a * 400 + 1 + b * 100 + c * 4 + d) = 146097 * a + 36524 * b + 1461 * c + 365 * d.
Proof. intros. unfold days_before_year. lia. Qed.

Lemma leap_parts a b c d : 0 ≤ b ≤ 3 → 0 ≤ c ≤ 24 → 0 ≤ d ≤ 3 →
  leap (a * 400 + 1 + b * 100 + c * 4 + d) = (d =? 3) && (negb (c =? 24) || (b =? 3)).
Proof.
  intros. unfold leap. set (y := a * 400 + 1 + b * 100 + c * 4 + d).
  assert (y mod 4 = (d + 1) mod 4) as -> by (subst y; lia).
  assert (y mod 100 = (c * 4 + d + 1) mod 100) as -> by (subst y; lia).
  assert (y mod 400 = (b * 100 + c * 4 + d + 1) mod 400) as -> by (subst y; lia).
  apply Bool.eq_true_iff_eq. rewrite !Bool.andb_true_iff, !Bool.orb_true_iff, !Bool.negb_true_iff, !Z.eqb_eq, !Z.eqb_neq. lia.
Qed.

(** The date of an ordinal is a date, and its ordinal is the given one. *)
Lemma ord2ymd_spec n : date_ok (ord2ymd n) ∧ ymd2ord (ord2ymd n) = n.
Proof.
  unfold ord2ymd. set (m := n - 1). cbv zeta.
  set (a := m / 146097). set (r := m mod 146097). set (b := r / 36524). set (s := r mod 36524).
  set (c := s / 1461). set (t := s mod 1461). set (d := t / 365). set (k := t mod 365).
  assert (m = 146097 * a + 36524 * b + 1461 * c + 365 * d + k) as Hm by lia.
  assert (0 ≤ b ≤ 4 ∧ 0 ≤ c ≤ 24 ∧ 0 ≤ d ≤ 4 ∧ 0 ≤ k < 365) as (Hb & Hc & Hd & Hk) by lia.
  destruct ((d =? 4) || (b =? 4)) eqn:E.
  - assert (∃ b' c', 0 ≤ b' ≤ 3 ∧ 0 ≤ c' ≤ 24 ∧ (c' = 24 → b' = 3) ∧ a * 400 + 1 + b * 100 + c * 4 + d - 1 = a * 400 + 1 + b' * 100 + c' * 4 + 3
      ∧ n = 146097 * a + 36524 * b' + 1461 * c' + 1461) as (b' & c' & Hb' & Hc' & Hl & Ey & En).
    { bprop. destruct (Z.eq_dec b 4); [exists 3, 24|exists b, c]; lia. }
    rewrite Ey.
    pose proof (leap_parts a b' c' 3 Hb' Hc' ltac:(lia)) as Hleap.
    assert (leap (a * 400 + 1 + b' * 100 + c' * 4 + 3) = true) as Hy.
    { rewrite Hleap. destruct (Z.eqb_spec c' 24) as [E'|E']; [|done]. rewrite (Hl E'). done. }
    split; [split; simpl; [lia|done]|]. unfold ymd2ord, days_before_month. cbn [d_year d_month d_day].
    rewrite days_before_year_parts by lia. rewrite Hy. eval_months. lia.
  - assert (0 ≤ b ≤ 3 ∧ 0 ≤ d ≤ 3) as [Hb' Hd'] by (bprop; lia).
    pose proof (leap_parts a b c d Hb' Hc Hd') as Hleap. rewrite <- Hleap.
    pose proof (month_day_ok (leap (a * 400 + 1 + b * 100 + c * 4 + d)) k) as H.
    destruct (month_day _ k) as [mo dy]. destruct H as (Hmo & Hdy & Heq).
    { destruct (leap _); simpl; lia. }
    split.
    + split; cbn [d_year d_month d_day]; [done|]. by rewrite monthrange_length.
    + unfold ymd2ord, days_before_month. cbn [d_year d_month d_day]. rewrite days_before_year_parts by lia. lia.
Qed.

(** ** Order *)

(** Tuples compare like texts. *)
Definition date_key (c : date) : list Z := [d_year c; d_month c; d_day c].

Lemma year_length y : days_before_year (y + 1) = days_before_year y + 365 + b2i (leap y).
Proof.
  unfold days_before_year, leap, b2i. replace (y + 1 - 1) with y by lia.
  destruct (_ && _) eqn:E; bprop; lia.
Qed.

Lemma years_grow y y' : y < y' → days_before_year y + 365 + b2i (leap y) ≤ days_before_year y'.
Proof.
  intros H. rewrite <- year_length. assert (y + 1 ≤ y') as H' by lia. clear H.
  revert y' H'. apply (Z.right_induction (λ y', days_before_year (y + 1) ≤ days_before_year y') _ (y + 1)); [lia|].
  intros y' Hy IH. rewrite <- Z.add_1_r, (year_length y'). destruct (b2i_cases (leap y')) as [[_ ->]|[_ ->]]; lia.
Qed.

Lemma month_end y m : 1 ≤ m ≤ 12 →
  days_before_month y m + monthrange y m = (if m =? 12 then 365 + b2i (leap y) else days_before_month y (m + 1)).
Proof.
  intros H. rewrite monthrange_length by done. unfold days_before_month.
  month_cases m; destruct (leap y); vm_compute; done.
Qed.

Lemma months_grow y m m' : 1 ≤ m < m' → m' ≤ 12 → days_before_month y m + monthrange y m ≤ days_before_month y m'.
Proof.
  intros H H'. rewrite monthrange_length by lia. unfold days_before_month.
  destruct (leap y); month_cases m; month_cases m'; try lia; vm_compute; discriminate.
Qed.

Lemma day_of_year c : date_ok c → 1 ≤ days_before_month (d_year c) (d_month c) + d_day c ≤ 365 + b2i (leap (d_year c)).
Proof.
  intros [Hm Hd]. pose proof (month_end (d_year c) (d_month c) Hm) as E.
  assert (0 ≤ days_before_month (d_year c) (d_month c)).
  { unfold days_before_month. destruct (leap _); month_cases (d_month c); vm_compute; discriminate. }
  destruct (Z.eqb_spec (d_month c) 12); [lia|].
  pose proof (months_grow (d_year c) (d_month c) 12 ltac:(lia) ltac:(lia)).
  pose proof (month_end (d_year c) 12 ltac:(lia)) as E12. rewrite Z.eqb_refl in E12.
  assert (monthrange (d_year c) 12 = 31) by done. lia.
Qed.

Definition date_lt (c c' : date) : Prop :=
  d_year c < d_year c' ∨ d_year c = d_year c' ∧ (d_month c < d_month c' ∨ d_month c = d_month c' ∧ d_day c < d_day c').

Lemma ymd2ord_lt c c' : date_ok c → date_ok c' → date_lt c c' → ymd2ord c < ymd2ord c'.
Proof.
  intros Hc Hc' Hlt. pose proof (day_of_year c Hc). pose proof (day_of_year c' Hc').
  unfold ymd2ord. destruct Hlt as [Hy|[Ey [Hm|[Em Hd]]]].
  - pose proof (years_grow _ _ Hy). lia.
  - destruct Hc as [Hmc Hdc], Hc' as [Hmc' Hdc'].
    pose proof (months_grow (d_year c) (d_month c) (d_month c') ltac:(lia) ltac:(lia)). rewrite Ey in *. lia.
  - rewrite Ey, Em. lia.
Qed.

Lemma date_trichotomy c c' : date_lt c c' ∨ date_lt c' c ∨ c = c'.
Proof.
  destruct c as [y m d], c' as [y' m' d']. unfold date_lt. simpl.
  assert (y = y' ∧ m = m' ∧ d = d' ∨ ¬ (y = y' ∧ m = m' ∧ d = d')) as [(-> & -> & ->)|Hn] by lia; [auto|lia].
Qed.

Lemma ymd2ord_inj c c' : date_ok c → date_ok c' → ymd2ord c = ymd2ord c' → c = c'.
Proof. intros Hc Hc' E. destruct (date_trichotomy c c') as [H|[H|H]]; [| |done]; apply ymd2ord_lt in H; try done; lia. Qed.

Lemma date_lt_ord c c' : date_ok c → date_ok c' → ymd2ord c < ymd2ord c' → date_lt c c'.
Proof.
  intros Hc Hc' H. destruct (date_trichotomy c c') as [Hd|[Hd| ->]]; [done| |lia].
  apply ymd2ord_lt in Hd; try done. lia.
Qed.

(** ** Wall clocks *)

(** The ordinal of 1970-01-01. *)
Definition epoch_ordinal : Z := 719163.
(** [(year, month, day, hour, minute)] of minute [n] since 1970-01-01T00:00. *)
Definition wall_date (n : Z) : date := ord2ymd (n / 1440 + epoch_ordinal).
Definition wall_hour (n : Z) : Z := n mod 1440 / 60.
Definition wall_min (n : Z) : Z := n mod 60.
Definition wall_minute (n : Z) : list Z := date_key (wall_date n) ++ [wall_hour n; wall_min n].
(** [weekday()]: Monday is 0. *)
Definition wall_weekday (n : Z) : Z := (n / 1440 + epoch_ordinal + 6) mod 7.

Lemma wall_date_ok n : date_ok (wall_date n).
Proof. apply ord2ymd_spec. Qed.
Lemma wall_date_ord n : ymd2ord (wall_date n) = n / 1440 + epoch_ordinal.
Proof. apply ord2ymd_spec. Qed.

(** Comparing the tuples is comparing the clocks. *)
Lemma wall_minute_leb a b : str_leb (wall_minute a) (wall_minute b) = (a <=? b).
Proof.
  pose proof (wall_date_ok a) as Ha. pose proof (wall_date_ok b) as Hb.
  pose proof (wall_date_ord a) as Ea. pose proof (wall_date_ord b) as Eb.
  assert (wall_hour a * 60 + wall_min a = a mod 1440 ∧ 0 ≤ wall_min a < 60) as [Hta Hma] by (unfold wall_hour, wall_min; lia).
  assert (wall_hour b * 60 + wall_min b = b mod 1440 ∧ 0 ≤ wall_min b < 60) as [Htb Hmb] by (unfold wall_hour, wall_min; lia).
  unfold wall_minute, date_key. apply Bool.eq_true_iff_eq. rewrite Z.leb_le. simpl.
  destruct (Z.lt_trichotomy (a / 1440) (b / 1440)) as [Hd|[Hd|Hd]].
  - pose proof (date_lt_ord _ _ Ha Hb ltac:(lia)) as Hlt. unfold date_lt in Hlt. lia.
  - assert (wall_date a = wall_date b) as -> by (apply ymd2ord_inj; [done|done|congruence]). lia.
  - pose proof (date_lt_ord _ _ Hb Ha ltac:(lia)) as Hlt. unfold date_lt in Hlt. lia.
Qed.
