(* ===== verification/Cron.v ===== *)
(** * Cron expressions (repositories/schedules.py)

    The parser and the matcher of [ScheduledTaskRepository] and its search for
    the next run.  An aware datetime is an instant in a [zone] of
    [OfflineSchedule]; a naive one is an instant of the zone whose wall clock
    shows the instant itself.  Every exception is a ValueError; the
    constructors of [cron_exn] tell the places apart. *)

From S2P Require Import Prelude PyStr Calendar OfflineSchedule Schema.
Local Open Scope Z_scope.

Inductive cron_exn := CronFields | CronPart | CronInt | CronSemantics | CronNever.

Definition cron_bounds : list (Z * Z) := [(0, 59); (0, 23); (1, 31); (1, 12); (0, 7)].

(** [s.isdigit()] with [int(s)]: None when either refuses the text. *)
Fixpoint digits_from (acc : Z) (s : str) : option Z :=
  match s with
  | [] => Some acc
  | c :: s' => match decimal c with Some d => digits_from (acc * 10 + d) s' | None => None end
  end.
Definition int_digits (s : str) : option Z := match s with [] => None | _ => digits_from 0 s end.

(** [range(lower, upper + 1, step)] *)
Definition range_step (lower upper step : Z) : list Z :=
  List.filter (λ v, (v - lower) mod step =? 0) (seqZ lower (upper + 1 - lower)).

Definition star : str := u "*".
Definition every_prefix (part : str) : option str :=
  match part with 42 :: 47 :: rest => Some rest | _ => None end.
Definition positive_step (part : str) : option Z :=
  match every_prefix part with
  | Some rest => match int_digits rest with Some n => if 0 <? n then Some n else None | None => None end
  | None => None
  end.

Definition part_values (lower upper : Z) (part : str) : result cron_exn (list Z) :=
  if str_eqb part star then Ok (range_step lower upper 1)
  else match positive_step part with
       | Some n => Ok (range_step lower upper n)
       | None => match int_digits part with
                 | Some n => if (lower <=? n) && (n <=? upper) then Ok [n] else Raise CronPart
                 | None => Raise CronPart
                 end
       end.

Fixpoint parts_values (lower upper : Z) (parts : list str) : result cron_exn (list Z) :=
  match parts with
  | [] => Ok []
  | p :: ps => let* vs := part_values lower upper p in let* rest := parts_values lower upper ps in Ok (vs ++ rest)
  end.
Definition _field_values (field : str) (b : Z * Z) : result cron_exn (list Z) :=
  parts_values (fst b) (snd b) (split_comma field []).

(** The five sets, in order. *)
Fixpoint all_values (fields : list str) (bs : list (Z * Z)) : result cron_exn (list (list Z)) :=
  match fields, bs with
  | f :: fs, b :: bs' => let* v := _field_values f b in let* vs := all_values fs bs' in Ok (v :: vs)
  | _, _ => Ok []
  end.

Definition _cron (value : str) : result cron_exn str :=
  let fields := py_split value in
  raise_if (negb (Z.of_nat (length fields) =? 5) || (256 <? slen value)) CronFields ;;;
  let* _ := all_values fields cron_bounds in
  Ok (join_words fields).

(** ** The legacy matcher *)

(** [int(s)] of a text without blanks: a sign, digits, single underscores. *)
Fixpoint int_tail (acc : Z) (after_digit : bool) (s : str) : option Z :=
  match s with
  | [] => if after_digit then Some acc else None
  | c :: s' =>
      if c =? 95 then if after_digit then int_tail acc false s' else None
      else match decimal c with Some d => int_tail (acc * 10 + d) true s' | None => None end
  end.
Definition py_int (s : str) : option Z :=
  match s with
  | 43 :: s' => int_tail 0 false s'
  | 45 :: s' => Z.opp <$> int_tail 0 false s'
  | _ => int_tail 0 false s
  end.

Fixpoint matches_parts (parts : list str) (value : Z) : result cron_exn bool :=
  match parts with
  | [] => Ok false
  | p :: ps =>
      if str_eqb p star || str_eqb p (z_str value) then Ok true
      else match every_prefix p with
           | Some rest =>
               match py_int rest with
               | None => Raise CronInt
               | Some n => if (0 <? n) && (value mod n =? 0) then Ok true else matches_parts ps value
               end
           | None => matches_parts ps value
           end
  end.
Definition _matches (field : str) (value : Z) : result cron_exn bool := matches_parts (split_comma field []) value.

(** ** The next run *)

Definition has_star (field : str) : bool := existsb (Z.eqb 42) field.
Definition z_in (x : Z) (l : list Z) : bool := bool_decide (x ∈ l).
Definition weekday_allowed (weekdays : list Z) (n : Z) : bool :=
  match weekdays with [] => true | _ => z_in (wall_weekday n) weekdays end.
Definition cron_weekday (n : Z) : Z := (wall_weekday n + 1) mod 7.

(** The test of cronie_v2 at wall minute [n]; 7 is Sunday as well as 0. *)
Definition cronie_match (minutes hours days months wdays : list Z) (day weekday : str) (weekdays : list Z) (n : Z) : bool :=
  let c := wall_date n in
  let day_match := z_in (d_day c) days in
  let weekday_match := z_in (cron_weekday n) (if z_in 7 wdays then 0 :: wdays else wdays) in
  let date_match := if has_star day || has_star weekday then day_match && weekday_match else day_match || weekday_match in
  z_in (wall_min n) minutes && z_in (wall_hour n) hours && z_in (d_month c) months && date_match
  && weekday_allowed weekdays n.

(** The test of legacy_v1, with [and]'s early exit. *)
Definition and_then (m : result cron_exn bool) (k : result cron_exn bool) : result cron_exn bool :=
  let* b := m in if b then k else Ok false.
Definition legacy_match (minute hour day month weekday : str) (weekdays : list Z) (n : Z) : result cron_exn bool :=
  let c := wall_date n in
  and_then (_matches minute (wall_min n))
    (and_then (_matches hour (wall_hour n))
      (and_then (_matches day (d_day c))
        (and_then (_matches month (d_month c))
          (and_then (_matches weekday (cron_weekday n)) (Ok (weekday_allowed weekdays n)))))).

(** The wall minute of an instant. *)
Definition wall (z : zone) (t : Z) : Z := wall_of z t / minute.

(** The loop over the candidates; [seen] is max_wall_minute. *)
Fixpoint search (z : zone) (test : Z → result cron_exn bool) (k : nat) (t : Z) (seen : list Z) : result cron_exn Z :=
  match k with
  | O => Raise CronNever
  | S k' =>
      let w := wall_minute (wall z t) in
      if str_leb w seen then search z test k' (t + minute) seen
      else
        let* hit := test (wall z t) in
        if hit then Ok t else search z test k' (t + minute) w
  end.

Definition CANDIDATES : Z := 527041.
Definition first_candidate (after : Z) : Z := after / minute * minute + minute.
Definition search_all (z : zone) (after : Z) (test : Z → result cron_exn bool) : result cron_exn Z :=
  search z test (Z.to_nat CANDIDATES) (first_candidate after) (wall_minute (wall z after)).

Definition _next_run (cron : str) (z : zone) (after : Z) (weekdays : list Z) (semantics : str) : result cron_exn Z :=
  match py_split cron with
  | [mi; h; d; mo; wd] =>
      if str_eqb semantics (u "cronie_v2") then
        let* _ := _cron cron in
        let* vs := all_values [mi; h; d; mo; wd] cron_bounds in
        match vs with
        | [mis; hs; ds; mos; wds] =>
            search_all z after (λ n, Ok (cronie_match mis hs ds mos wds d wd weekdays n))
        | _ => Raise CronFields
        end
      else if str_eqb semantics (u "legacy_v1") then search_all z after (legacy_match mi h d mo wd weekdays)
      else Raise CronSemantics
  | _ => Raise CronFields
  end.

(** ** The search finds the first run *)

(** [u] is a candidate minute after [after]. *)
Definition candidate (after u : Z) : Prop := after < u ∧ u mod minute = 0.
(** Its wall minute is shown for the first time since [after]. *)
Definition fresh (z : zone) (after u : Z) : Prop :=
  wall z after < wall z u ∧ ∀ v, candidate after v → v < u → wall z v < wall z u.
(** [u] is a run of the schedule whose test is [f]. *)
Definition runs (z : zone) (f : Z → bool) (after u : Z) : Prop := candidate after u ∧ fresh z after u ∧ f (wall z u) = true.

(** The same from the middle of the search: [t] is the next candidate and [s]
    the largest wall minute so far. *)
Definition later (t v : Z) : Prop := t ≤ v ∧ (v - t) mod minute = 0.
Definition new_from (z : zone) (s t v : Z) : Prop :=
  s < wall z v ∧ ∀ l, later t l → l < v → wall z l < wall z v.

Lemma minute_pos : 0 < minute.
Proof. done. Qed.

Lemma later_step t v : later t v ↔ v = t ∨ later (t + minute) v.
Proof.
  unfold later. pose proof minute_pos as Hm. split.
  - intros [Hv Hd]. destruct (Z.eq_dec v t) as [->|Hne]; [by left|right].
    apply Z.mod_divide in Hd as [q Hq]; [|lia]. assert (0 < q) by nia. split; [nia|].
    apply Z.mod_divide; [lia|]. exists (q - 1). lia.
  - intros [->|[Hv Hd]]; [rewrite Z.sub_diag; split; [lia|by apply Z.mod_0_l; lia]|].
    apply Z.mod_divide in Hd as [q Hq]; [|lia]. split; [lia|]. apply Z.mod_divide; [lia|]. exists (q + 1). lia.
Qed.

Lemma new_from_step z s t v : later (t + minute) v →
  new_from z s t v ↔ new_from z (Z.max s (wall z t)) (t + minute) v.
Proof.
  intros Hv. unfold new_from. destruct Hv as [Hle _]. split.
  - intros [Hs Hl]. assert (wall z t < wall z v).
    { apply Hl; [apply later_step; by left|]. pose proof minute_pos. lia. }
    split; [lia|]. intros l Hlat Hlv. apply Hl; [|done]. apply later_step. by right.
  - intros [Hs Hl]. split; [lia|]. intros l [->|Hlat]%later_step Hlv; [lia|auto].
Qed.

Definition first_hit (z : zone) (f : Z → bool) (s t : Z) (k : nat) (r : result cron_exn Z) : Prop :=
  match r with
  | Ok v => later t v ∧ v < t + Z.of_nat k * minute ∧ new_from z s t v ∧ f (wall z v) = true
            ∧ ∀ l, later t l → l < v → new_from z s t l → f (wall z l) = false
  | Raise e => e = CronNever ∧ ∀ l, later t l → l < t + Z.of_nat k * minute → new_from z s t l → f (wall z l) = false
  end.

Lemma first_hit_skip z f s t k r :
  (wall z t ≤ s ∨ f (wall z t) = false) → first_hit z f (Z.max s (wall z t)) (t + minute) k r → first_hit z f s t (S k) r.
Proof.
  intros Hskip. pose proof minute_pos as Hm.
  assert (∀ l, l = t → new_from z s t l → f (wall z l) = false) as Hhere.
  { intros l -> [Hs _]. destruct Hskip; [lia|done]. }
  destruct r as [v|e]; simpl.
  - intros (Hv & Hlt & Hn & Hf & Hmin). assert (later t v) by (apply later_step; by right).
    split; [done|]. split; [lia|]. split; [by apply (new_from_step z s t v Hv)|]. split; [done|].
    intros l [Hl|Hl]%later_step Hlv Hln; [by apply Hhere|]. apply Hmin; [done|done|by apply (new_from_step z s t l Hl)].
  - intros [-> Hmin]. split; [done|]. intros l [Hl|Hl]%later_step Hlt Hln; [by apply Hhere|].
    apply Hmin; [done|lia|by apply (new_from_step z s t l Hl)].
Qed.

Lemma search_spec z f k t s : first_hit z f s t k (search z (λ n, Ok (f n)) k t (wall_minute s)).
Proof.
  revert t s. induction k as [|k IH]; intros t s; cbn [search].
  - simpl. split; [done|]. intros l [Hl _] Hlt. lia.
  - rewrite wall_minute_leb. destruct (Z.leb_spec (wall z t) s) as [Hle|Hlt].
    + apply first_hit_skip; [by left|]. rewrite Z.max_l by done. apply IH.
    + cbn [rbind]. destruct (f (wall z t)) eqn:Ef.
      * pose proof minute_pos. assert (later t t) by (apply later_step; by left). split; [done|]. split; [lia|].
        split; [split; [done|intros l [Hl _] Hlv; lia]|]. split; [done|]. intros l [Hl _] Hlv. lia.
      * apply first_hit_skip; [by right|]. rewrite Z.max_r by lia. apply IH.
Qed.

Lemma first_candidate_spec after v : later (first_candidate after) v ↔ candidate after v.
Proof.
  unfold later, candidate, first_candidate. pose proof minute_pos as Hm.
  pose proof (Z.div_mod after minute ltac:(lia)) as Ha. pose proof (Z.mod_pos_bound after minute ltac:(lia)) as Hb.
  replace (v - (after / minute * minute + minute)) with (v + (- (after / minute + 1)) * minute) by ring.
  rewrite Z.mod_add by lia. split; intros [Hv Hd]; split; try done; [lia|].
  apply Z.mod_divide in Hd as [q Hq]; [|lia].
  assert (after / minute < q) by (apply Z.div_lt_upper_bound; lia). nia.
Qed.

(** The bound of the search: 366 days and a minute. *)
Definition horizon (after : Z) : Z := first_candidate after + CANDIDATES * minute.

Lemma search_all_spec z after f :
  match search_all z after (λ n, Ok (f n)) with
  | Ok v => runs z f after v ∧ v < horizon after ∧ ∀ l, runs z f after l → v ≤ l
  | Raise e => e = CronNever ∧ ∀ l, l < horizon after → ¬ runs z f after l
  end.
Proof.
  unfold search_all, horizon. pose proof (search_spec z f (Z.to_nat CANDIDATES) (first_candidate after) (wall z after)) as H.
  assert (∀ l, candidate after l → new_from z (wall z after) (first_candidate after) l ↔ fresh z after l) as Hfresh.
  { intros l Hl. unfold new_from, fresh. split; intros [H1 H2]; (split; [done|]); intros v Hv; apply H2; by apply first_candidate_spec. }
  unfold first_hit in H. rewrite !Z2Nat.id in H by done. destruct (search _ _ _ _ _) as [v|e].
  - destruct H as (Hv & Hlt & Hn & Hf & Hmin). rewrite first_candidate_spec in Hv. split; [split; [done|]; split; [by apply Hfresh|done]|].
    split; [done|]. intros l (Hl & Hfr & Hfl). destruct (Z.le_gt_cases v l) as [|Hlv]; [done|].
    rewrite Hmin in Hfl; [done|by apply first_candidate_spec|done|by apply Hfresh].
  - destruct H as [-> Hmin]. split; [done|]. intros l Hlt (Hl & Hfr & Hfl).
    rewrite Hmin in Hfl; [done|by apply first_candidate_spec|done|by apply Hfresh].
Qed.

Lemma search_forward z test k t seen v : search z test k t seen = Ok v → t ≤ v.
Proof.
  revert t seen. induction k as [|k IH]; intros t seen; cbn [search]; [done|]. pose proof minute_pos as Hm.
  destruct (str_leb _ _); [intros H%IH; lia|]. intros (hit & _ & H)%rbind_ok. destruct hit; [injection H as <-; lia|].
  apply IH in H. lia.
Qed.

(** Whatever its meaning, a next run lies after the instant it was asked for. *)
Lemma next_run_after cron z after weekdays semantics t : _next_run cron z after weekdays semantics = Ok t → after < t.
Proof.
  assert (∀ test v, search_all z after test = Ok v → after < v) as Hs.
  { intros test v Hv. apply search_forward in Hv. assert (candidate after (first_candidate after)) as [? _].
    { apply first_candidate_spec. split; [lia|]. by rewrite Z.sub_diag. } lia. }
  unfold _next_run. destruct (py_split cron) as [|mi [|h [|d [|mo [|wd [|]]]]]]; try done.
  destruct (str_eqb _ _).
  - intros (c & _ & H)%rbind_ok. apply rbind_ok in H as (vs & _ & H). repeat (destruct vs as [|? vs]; try done). by eapply Hs.
  - destruct (str_eqb _ _); [apply Hs|done].
Qed.

(** ** Accepted expressions *)

Lemma range_step_elem lower upper step v :
  v ∈ range_step lower upper step ↔ lower ≤ v ≤ upper ∧ (v - lower) mod step = 0.
Proof.
  unfold range_step. rewrite list_elem_of_In, List.filter_In, <- list_elem_of_In, elem_of_seqZ, Z.eqb_eq. lia.
Qed.

Lemma part_values_ok lower upper p vs : lower ≤ upper → part_values lower upper p = Ok vs →
  (∃ v, v ∈ vs) ∧ ∀ v, v ∈ vs → lower ≤ v ≤ upper.
Proof.
  intros Hb. unfold part_values.
  assert (∀ n, (∃ v, v ∈ range_step lower upper n) ∧ ∀ v, v ∈ range_step lower upper n → lower ≤ v ≤ upper) as Hr.
  { intros n. split; [exists lower|]; intros; rewrite range_step_elem in *; [|tauto]. rewrite Z.sub_diag, Zmod_0_l. lia. }
  destruct (str_eqb p star); [intros [= <-]; apply Hr|]. destruct (positive_step p) as [n|]; [intros [= <-]; apply Hr|].
  destruct (int_digits p) as [n|]; [|done]. destruct (_ && _) eqn:E; [|done]. intros [= <-]. bprop.
  split; [exists n; by apply list_elem_of_singleton|]. intros v ->%list_elem_of_singleton. lia.
Qed.

Lemma parts_values_ok lower upper ps vs : lower ≤ upper → ps ≠ [] → parts_values lower upper ps = Ok vs →
  (∃ v, v ∈ vs) ∧ ∀ v, v ∈ vs → lower ≤ v ≤ upper.
Proof.
  intros Hb. revert vs. induction ps as [|p ps IH]; intros vs Hne; [done|]. cbn [parts_values].
  intros (v0 & H0 & H)%rbind_ok. apply rbind_ok in H as (rest & H1 & [= <-]).
  apply part_values_ok in H0 as [[v Hv] H0]; [|done].
  split; [exists v; apply elem_of_app; by left|]. intros x [Hx|Hx]%elem_of_app; [by apply H0|].
  destruct ps as [|q ps]; [injection H1 as <-; by apply elem_of_nil in Hx|]. by eapply IH.
Qed.

Lemma split_comma_nonempty s cur : split_comma s cur ≠ [].
Proof. revert cur. induction s as [|c s IH]; intros cur; simpl; [done|]. destruct (c =? 44); [done|apply IH]. Qed.

Lemma field_values_ok f b vs : fst b ≤ snd b → _field_values f b = Ok vs →
  (∃ v, v ∈ vs) ∧ ∀ v, v ∈ vs → fst b ≤ v ≤ snd b.
Proof. intros Hb H. eapply parts_values_ok; [done| |exact H]. apply split_comma_nonempty. Qed.

(** The test an accepted expression stands for. *)
Definition cron_test (cron : str) (weekdays : list Z) : option (Z → bool) :=
  match py_split cron with
  | [mi; h; d; mo; wd] =>
      match all_values [mi; h; d; mo; wd] cron_bounds with
      | Ok [mis; hs; ds; mos; wds] => Some (cronie_match mis hs ds mos wds d wd weekdays)
      | _ => None
      end
  | _ => None
  end.

(** What [_cron] has checked. *)
Lemma cron_accepted cron c : _cron cron = Ok c →
  ∃ mi h d mo wd mis hs ds mos wds,
    py_split cron = [mi; h; d; mo; wd] ∧ c = join_words [mi; h; d; mo; wd] ∧ slen cron ≤ 256 ∧
    all_values [mi; h; d; mo; wd] cron_bounds = Ok [mis; hs; ds; mos; wds] ∧
    _field_values mi (0, 59) = Ok mis ∧ _field_values h (0, 23) = Ok hs ∧ _field_values d (1, 31) = Ok ds ∧
    _field_values mo (1, 12) = Ok mos ∧ _field_values wd (0, 7) = Ok wds.
Proof.
  unfold _cron. cbv zeta. intros ([] & Hl%raise_if_ok & H)%rbind_ok. apply rbind_ok in H as (vs & Hv & [= <-]).
  apply Bool.orb_false_iff in Hl as [Hl Hs]. apply Bool.negb_false_iff in Hl. bprop.
  destruct (py_split cron) as [|mi [|h [|d [|mo [|wd [|]]]]]] eqn:E; simpl length in Hl; try lia. pose proof Hv as Hv'.
  cbn [all_values cron_bounds] in Hv.
  apply rbind_ok in Hv as (mis & H1 & Hv). apply rbind_ok in Hv as (r1 & Hv & [= <-]).
  apply rbind_ok in Hv as (hs & H2 & Hv). apply rbind_ok in Hv as (r2 & Hv & [= <-]).
  apply rbind_ok in Hv as (ds & H3 & Hv). apply rbind_ok in Hv as (r3 & Hv & [= <-]).
  apply rbind_ok in Hv as (mos & H4 & Hv). apply rbind_ok in Hv as (r4 & Hv & [= <-]).
  apply rbind_ok in Hv as (wds & H5 & Hv). injection Hv as <-.
  exists mi, h, d, mo, wd, mis, hs, ds, mos, wds. done.
Qed.

Lemma next_run_spec cron c z after weekdays :
  _cron cron = Ok c →
  ∃ f, cron_test cron weekdays = Some f ∧
  match _next_run cron z after weekdays (u "cronie_v2") with
  | Ok v => runs z f after v ∧ v < horizon after ∧ ∀ l, runs z f after l → v ≤ l
  | Raise e => e = CronNever ∧ ∀ l, l < horizon after → ¬ runs z f after l
  end.
Proof.
  intros Hc. destruct (cron_accepted cron c Hc) as (mi & h & d & mo & wd & mis & hs & ds & mos & wds & Hs & _ & _ & Hv & _).
  exists (cronie_match mis hs ds mos wds d wd weekdays). unfold cron_test, _next_run. rewrite Hs, Hv. split; [done|].
  rewrite Hc. assert (str_eqb (u "cronie_v2") (u "cronie_v2") = true) as -> by apply str_eqb_refl. cbn [rbind].
  apply search_all_spec.
Qed.

(** C32. The scheduler's next run is the right one: for every Cron expression
    the settings accept, [_next_run] either returns the first minute after
    [after] that the expression matches and whose wall clock was not shown
    before (so a fall-back hour never repeats a run), or raises after a whole
    year, and then there is no such minute within 366 days. *)
Theorem next_run_is_first cron c z after weekdays :
  _cron cron = Ok c →
  ∃ f, cron_test cron weekdays = Some f ∧
  match _next_run cron z after weekdays (u "cronie_v2") with
  | Ok v => runs z f after v ∧ v < horizon after ∧ ∀ l, runs z f after l → v ≤ l
  | Raise e => e = CronNever ∧ ∀ l, l < horizon after → ¬ runs z f after l
  end.
Proof. apply next_run_spec. Qed.

Lemma next_run_is_first_witness :
  ∃ f, cron_test (u "*/5 * * * *") [] = Some f ∧
  match _next_run (u "*/5 * * * *") (mk_zone (λ w _, w) (λ t, t)) 0 [] (u "cronie_v2") with
  | Ok v => runs (mk_zone (λ w _, w) (λ t, t)) f 0 v ∧ v < horizon 0 ∧ ∀ l, runs (mk_zone (λ w _, w) (λ t, t)) f 0 l → v ≤ l
  | Raise e => e = CronNever ∧ ∀ l, l < horizon 0 → ¬ runs (mk_zone (λ w _, w) (λ t, t)) f 0 l
  end.
Proof. apply (next_run_is_first _ (u "*/5 * * * *")). vm_compute. reflexivity. Defined.

(** ** The normal form *)

Definition word_ok (w : str) : Prop := w ≠ [] ∧ Forall (λ c, is_space c = false) w.

Lemma split_words_ok cur s : Forall (λ c, is_space c = false) cur → Forall word_ok (split_words cur s).
Proof.
  revert cur. induction s as [|c s IH]; intros cur Hc; simpl.
  - destruct cur as [|x cur]; constructor; [|done]. split; [intros E; by apply (f_equal length) in E; rewrite length_rev in E|].
    by apply Forall_rev.
  - destruct (is_space c) eqn:E.
    + destruct cur as [|x cur]; [by apply IH|]. constructor; [|by apply IH].
      split; [intros E'; by apply (f_equal length) in E'; rewrite length_rev in E'|by apply Forall_rev].
    + apply IH. by constructor.
Qed.

Lemma split_words_word cur w s : Forall (λ c, is_space c = false) w → split_words cur (w ++ s) = split_words (rev w ++ cur) s.
Proof.
  revert cur. induction w as [|c w IH]; intros cur Hw; [done|]. apply Forall_cons in Hw as [Hc Hw].
  cbn [app split_words]. rewrite Hc, IH by done. simpl. by rewrite <- app_assoc.
Qed.

Lemma split_join l : Forall word_ok l → py_split (join_words l) = l.
Proof.
  unfold py_split. induction l as [|w l IH]; intros Hl; [done|]. apply Forall_cons in Hl as [[Hne Hw] Hl].
  assert (∃ x xs, rev w = x :: xs) as (x & xs & Er).
  { destruct (rev w) eqn:E; [|eauto]. destruct Hne. by rewrite <- (rev_involutive w), E. }
  destruct l as [|w' l].
  - cbn [join_words]. rewrite <- (app_nil_r w), split_words_word by done. rewrite app_nil_r, Er. cbn [split_words].
    by rewrite <- Er, rev_involutive, app_nil_r.
  - change (join_words (w :: w' :: l)) with (w ++ 32 :: join_words (w' :: l)). rewrite split_words_word by done.
    rewrite app_nil_r, Er. cbn [split_words]. change (is_space 32) with true. cbv match.
    rewrite IH by done. by rewrite <- Er, rev_involutive.
Qed.

Lemma join_split_length cur s : (length (join_words (split_words cur s)) ≤ length cur + length s)%nat.
Proof.
  revert cur. induction s as [|c s IH]; intros cur; simpl.
  - destruct cur as [|x cur]; simpl; [lia|]. rewrite length_app, length_rev. simpl. lia.
  - destruct (is_space c).
    + destruct cur as [|x cur]; [specialize (IH []); simpl in *; lia|]. specialize (IH []).
      destruct (split_words [] s) as [|w l] eqn:E; [simpl; rewrite length_app, length_rev; simpl; lia|].
      change (join_words (rev (x :: cur) :: w :: l)) with (rev (x :: cur) ++ 32 :: join_words (w :: l)).
      rewrite length_app, length_rev. simpl length in *. lia.
    + specialize (IH (c :: cur)). simpl in IH. lia.
Qed.

Lemma cron_split cron c : _cron cron = Ok c → py_split c = py_split cron.
Proof.
  intros Hc. destruct (cron_accepted cron c Hc) as (mi & h & d & mo & wd & mis & hs & ds & mos & wds & Hs & E & _).
  rewrite E, Hs. apply split_join. rewrite <- Hs. by apply split_words_ok.
Qed.

Lemma cron_fix cron c : _cron cron = Ok c → _cron c = Ok c.
Proof.
  intros Hc. destruct (cron_accepted cron c Hc) as (mi & h & d & mo & wd & mis & hs & ds & mos & wds & Hs & E & Hl & Hv & _).
  unfold _cron. rewrite (cron_split _ _ Hc), Hs, Hv. assert ((256 <? slen c) = false) as ->; [|by rewrite <- E].
  apply Z.ltb_ge. unfold slen in *. rewrite E, <- Hs. pose proof (join_split_length [] cron). unfold py_split. simpl in *. lia.
Qed.

(** The stored Cron expression is a normal form: normalising it again
    changes nothing, and it has the runs of the text that was entered. *)
Theorem cron_normal_form cron c :
  _cron cron = Ok c →
  _cron c = Ok c ∧
  ∀ z after weekdays, _next_run c z after weekdays (u "cronie_v2") = _next_run cron z after weekdays (u "cronie_v2").
Proof.
  intros Hc. pose proof (cron_fix _ _ Hc) as Hf. split; [done|]. intros z after weekdays. unfold _next_run.
  by rewrite (cron_split _ _ Hc), Hc, Hf.
Qed.

Lemma cron_normal_form_witness :
  _cron (u "0 3 1 * *") = Ok (u "0 3 1 * *") ∧
  ∀ z after weekdays, _next_run (u "0 3 1 * *") z after weekdays (u "cronie_v2")
                      = _next_run (u " 0  3 1 * * ") z after weekdays (u "cronie_v2").
Proof. apply (cron_normal_form (u " 0  3 1 * * ")). vm_compute. reflexivity. Defined.

(** ** Whether there is a next run *)

(** A zone without clock changes, such as the default Asia/Taipei. *)
Definition fixed_zone (offset : Z) : zone := mk_zone (λ w _, w - offset) (λ t, t + offset).

(** The wall minute of a date, an hour and a minute. *)
Definition minute_of (c : date) (h mi : Z) : Z := (ymd2ord c - epoch_ordinal) * 1440 + h * 60 + mi.

Lemma minute_of_wall c h mi : date_ok c → 0 ≤ h ≤ 23 → 0 ≤ mi ≤ 59 →
  wall_date (minute_of c h mi) = c ∧ wall_hour (minute_of c h mi) = h ∧ wall_min (minute_of c h mi) = mi.
Proof.
  intros Hc Hh Hm. unfold minute_of, wall_hour, wall_min. set (o := ymd2ord c - epoch_ordinal).
  assert (o * 1440 + h * 60 + mi = 1440 * o + (h * 60 + mi)) as -> by lia.
  assert ((1440 * o + (h * 60 + mi)) / 1440 = o) as Hd by (symmetry; apply (Z.div_unique _ _ o (h * 60 + mi)); lia).
  assert ((1440 * o + (h * 60 + mi)) mod 1440 = h * 60 + mi) as -> by (symmetry; apply (Z.mod_unique _ _ o); lia).
  split; [|split].
  - apply ymd2ord_inj; [apply wall_date_ok|done|]. rewrite wall_date_ord, Hd. subst o. lia.
  - symmetry. apply (Z.div_unique _ _ h mi); lia.
  - symmetry. apply (Z.mod_unique _ _ (24 * o + h)); lia.
Qed.

Lemma date_in_year y mo d : 1 ≤ mo ≤ 12 → 1 ≤ d ≤ 28 → date_ok (mk_date y mo d).
Proof. intros Hm Hd. split; simpl; [done|]. rewrite monthrange_length by done. destruct (leap y); month_cases mo; eval_months; lia. Qed.

(** A day that every month has comes round within 366 days. *)
Lemma date_recurs n mo d h mi : 1 ≤ mo ≤ 12 → 1 ≤ d ≤ 28 → 0 ≤ h ≤ 23 → 0 ≤ mi ≤ 59 →
  ∃ y, n < minute_of (mk_date y mo d) h mi ≤ n + 527040.
Proof.
  intros Hmo Hd Hh Hmi. pose proof (wall_date_ok n) as Hok. pose proof (wall_date_ord n) as Hord.
  pose proof (day_of_year _ Hok) as Hy. revert Hok Hord Hy. generalize (wall_date n). intros [y m0 d0] Hok Hord Hy.
  cbn [d_year d_month d_day] in Hy.
  pose proof (day_of_year _ (date_in_year y mo d Hmo Hd)) as Hy0. cbn [d_year d_month d_day] in Hy0.
  pose proof (day_of_year _ (date_in_year (y + 1) mo d Hmo Hd)) as Hy1. cbn [d_year d_month d_day] in Hy1.
  assert (n = n / 1440 * 1440 + n mod 1440) as En by (rewrite Z.mul_comm; apply Z.div_mod; lia).
  pose proof (Z.mod_pos_bound n 1440 ltac:(lia)) as Hn. pose proof (year_length y) as Hlen.
  assert (ymd2ord (mk_date (y + 1) mo d) - ymd2ord (mk_date y mo d) ≤ 366) as Hgap.
  { unfold ymd2ord, days_before_month. cbn [d_year d_month d_day]. rewrite Hlen.
    destruct (leap y), (leap (y + 1)), (2 <? mo); simpl b2i; lia. }
  unfold ymd2ord in Hord. cbn [d_year d_month d_day] in Hord. pose proof (b2i_cases (leap y)) as Hb.
  destruct (Z.lt_ge_cases n (minute_of (mk_date y mo d) h mi)) as [Hlt|Hge].
  - exists y. split; [done|]. unfold minute_of, ymd2ord in *. cbn [d_year d_month d_day] in *. lia.
  - exists (y + 1). unfold minute_of in *. split; [|lia]. unfold ymd2ord in *. cbn [d_year d_month d_day] in *. lia.
Qed.

Lemma wall_fixed offset t : offset mod minute = 0 → wall (fixed_zone offset) t = t / minute + offset / minute.
Proof.
  intros Ho. unfold wall. simpl. apply Z.mod_divide in Ho as [q ->]; [|done]. rewrite Z.div_add, Z.div_mul by done. done.
Qed.

(** In a fixed zone every later minute is fresh. *)
Lemma fixed_runs offset f after n : offset mod minute = 0 → wall (fixed_zone offset) after < n → f n = true →
  runs (fixed_zone offset) f after ((n - offset / minute) * minute).
Proof.
  intros Ho Hn Hf. rewrite wall_fixed in Hn by done. pose proof minute_pos as Hm.
  assert (wall (fixed_zone offset) ((n - offset / minute) * minute) = n) as Ew.
  { rewrite wall_fixed, Z.div_mul by done. lia. }
  pose proof (Z.div_mod after minute ltac:(lia)). pose proof (Z.mod_pos_bound after minute Hm).
  split; [split; [nia|by apply Z.mod_mul]|]. split; [|by rewrite Ew]. split; [rewrite Ew, wall_fixed by done; lia|].
  intros v _ Hv. rewrite Ew, wall_fixed by done.
  assert (v / minute < n - offset / minute) by (apply Z.div_lt_upper_bound; lia). lia.
Qed.

Lemma z_in_true x l : z_in x l = true ↔ x ∈ l.
Proof. unfold z_in. apply bool_decide_eq_true. Qed.

Lemma any_weekday n wds : _field_values star (0, 7) = Ok wds → z_in (cron_weekday n) (if z_in 7 wds then 0 :: wds else wds) = true.
Proof.
  intros H. assert (∀ v, 0 ≤ v ≤ 7 → v ∈ wds) as Hall.
  { change (_field_values star (0, 7)) with (Ok (E := cron_exn) (range_step 0 7 1 ++ [])) in H.
    assert (wds = range_step 0 7 1 ++ []) as -> by congruence. intros v Hv. rewrite app_nil_r. apply range_step_elem. split; [done|apply Z.mod_1_r]. }
  assert (0 ≤ cron_weekday n < 7) by (apply Z.mod_pos_bound; lia).
  apply z_in_true. destruct (z_in 7 wds); [right|]; apply Hall; lia.
Qed.

(** C33. A schedule that can run is never refused: an accepted expression with a
    day that every month has and any weekday always has a next run, in any
    zone without clock changes. *)
Theorem next_run_exists cron c offset after mi h d mo wd ds v :
  _cron cron = Ok c → py_split cron = [mi; h; d; mo; wd] → wd = star →
  _field_values d (1, 31) = Ok ds → v ∈ ds → v ≤ 28 → offset mod minute = 0 →
  ∃ t, _next_run cron (fixed_zone offset) after [] (u "cronie_v2") = Ok t ∧ after < t < horizon after.
Proof.
  intros Hc Hs -> Hds Hv Hle Ho. destruct (next_run_spec cron c (fixed_zone offset) after [] Hc) as (f & Hf & Hrun).
  destruct (_next_run _ _ _ _ _) as [t|e].
  { destruct Hrun as (((Ht & _) & _) & Hlt & _). exists t. done. }
  exfalso. destruct Hrun as [_ Hnone].
  destruct (cron_accepted cron c Hc) as (? & ? & ? & ? & ? & mis & hs & ds' & mos & wds & Hs' & _ & _ & Hvs & H1 & H2 & H3 & H4 & H5).
  rewrite Hs in Hs'. injection Hs' as <- <- <- <- <-. rewrite Hds in H3. injection H3 as <-.
  unfold cron_test in Hf. rewrite Hs, Hvs in Hf. injection Hf as <-.
  apply field_values_ok in H1 as [[mi0 Hmi] Bmi]; [|done]. apply field_values_ok in H2 as [[h0 Hh] Bh]; [|done].
  apply field_values_ok in H4 as [[mo0 Hmo] Bmo]; [|done]. apply field_values_ok in Hds as [_ Bd]; [|done].
  specialize (Bmi _ Hmi). specialize (Bh _ Hh). specialize (Bmo _ Hmo). specialize (Bd _ Hv). cbn [fst snd] in *.
  destruct (date_recurs (wall (fixed_zone offset) after) mo0 v h0 mi0) as (y & Hy1 & Hy2); [lia..|].
  destruct (minute_of_wall (mk_date y mo0 v) h0 mi0) as (Ed & Eh & Em); [apply date_in_year; lia|lia|lia|].
  set (n := minute_of (mk_date y mo0 v) h0 mi0) in *. clearbody n.
  apply (Hnone ((n - offset / minute) * minute)).
  - rewrite wall_fixed in Hy2 by done. unfold horizon, first_candidate, CANDIDATES. pose proof minute_pos. nia.
  - apply fixed_runs; [done|done|]. unfold cronie_match. cbv zeta. rewrite Ed, Eh, Em. cbn [d_year d_month d_day].
    rewrite (any_weekday n wds H5). rewrite !(proj2 (z_in_true _ _)) by done.
    change (has_star star) with true. rewrite Bool.orb_true_r. done.
Qed.

Lemma next_run_exists_witness :
  ∃ t, _next_run (u "0 3 1 * *") (fixed_zone 28800000000) 0 [] (u "cronie_v2") = Ok t ∧ 0 < t < horizon 0.
Proof.
  apply (next_run_exists (u "0 3 1 * *") (u "0 3 1 * *") 28800000000 0 (u "0") (u "3") (u "1") star star [1] 1);
    try (vm_compute; reflexivity); [by apply list_elem_of_singleton|done].
Defined.

Example five_minutes : _next_run (u "*/5 * * * *") (fixed_zone 28800000000) 0 [] (u "cronie_v2") = Ok (5 * minute).
Proof. vm_compute. reflexivity. Qed.

(** ** An accepted schedule without a next run *)

Definition leap_day_cron : str := u "0 0 29 2 *".

Lemma leap_years_apart y y' : leap y = true → leap y' = true → y < y' → y + 4 ≤ y'.
Proof.
  unfold leap. intros [Hy _]%Bool.andb_true_iff [Hy' _]%Bool.andb_true_iff Hlt. apply Z.eqb_eq in Hy, Hy'.
  apply Z.mod_divide in Hy as [q ->]; [|lia]. apply Z.mod_divide in Hy' as [q' ->]; [|lia]. lia.
Qed.

(** On 29 February, at midnight, it is accepted and has no next run. *)
Lemma leap_day_never y : leap y = true →
  _next_run leap_day_cron (fixed_zone 0) (minute_of (mk_date y 2 29) 0 0 * minute) [] (u "cronie_v2") = Raise CronNever.
Proof.
  intros Hy. set (after := minute_of (mk_date y 2 29) 0 0 * minute).
  assert (_cron leap_day_cron = Ok leap_day_cron) as Hc by (vm_compute; reflexivity).
  destruct (next_run_spec leap_day_cron leap_day_cron (fixed_zone 0) after [] Hc) as (f & Hf & Hrun).
  destruct (_next_run _ _ _ _ _) as [t|e]; [|by destruct Hrun as [-> _]]. exfalso.
  destruct Hrun as (((Ht & Hg) & (Hfr & _) & Hhit) & Hlt & _).
  assert (after / minute = minute_of (mk_date y 2 29) 0 0) as Ea by (by apply Z.div_mul).
  rewrite !wall_fixed, Ea in Hfr by done. rewrite wall_fixed in Hhit by done. change (0 / minute) with 0 in *. rewrite Z.add_0_r in *.
  assert (t / minute < minute_of (mk_date y 2 29) 0 0 + 1 + CANDIDATES) as Hwin.
  { apply Z.div_lt_upper_bound; [done|]. unfold horizon, first_candidate in Hlt. rewrite Ea in Hlt. lia. }
  set (n := t / minute) in *. clearbody n. clear Hlt Hg Ht t Ea. subst after.
  assert (cronie_match [0] [0] [29] [2] (range_step 0 7 1) (u "29") star [] n = true) as Hm.
  { replace (cron_test leap_day_cron []) with (Some (cronie_match [0] [0] [29] [2] (range_step 0 7 1) (u "29") star [])) in Hf
      by reflexivity. by injection Hf as <-. }
  unfold cronie_match in Hm. change (has_star (u "29") || has_star star) with true in Hm. cbv zeta match in Hm.
  rewrite !Bool.andb_true_iff in Hm. destruct Hm as [[[[H1 H2] H3] [H4 _]] _].
  apply z_in_true, list_elem_of_singleton in H1, H2, H3, H4.
  pose proof (wall_date_ok n) as Hok. pose proof (wall_date_ord n) as Hord.
  assert (n = n / 1440 * 1440) as En.
  { unfold wall_min, wall_hour in *. pose proof (Z.div_mod n 1440 ltac:(lia)). assert (n mod 1440 = 0); [|lia].
    pose proof (Z.div_mod (n mod 1440) 60 ltac:(lia)). rewrite (Z.mod_mod_divide n 1440 60) in * by (by exists 24). lia. }
  revert Hok Hord H3 H4. generalize (wall_date n). intros [y' m' d'] Hok Hord E3 E4. cbn [d_month d_day] in E3, E4. subst m' d'.
  assert (leap y' = true) as Hy'.
  { destruct Hok as [_ [_ Hd]]. cbn [d_year d_month d_day] in Hd. unfold monthrange in Hd. simpl in Hd. destruct (leap y'); [done|lia]. }
  unfold minute_of, CANDIDATES in *. unfold ymd2ord, days_before_month in *. cbn [d_year d_month d_day] in *.
  change (month_offset 2) with 31 in *. change ((2 <? 2) && leap y) with false in *. change ((2 <? 2) && leap y') with false in *.
  simpl b2i in *.
  destruct (Z.lt_trichotomy y y') as [Hlt|[<-|Hlt]]; [|lia|].
  - pose proof (leap_years_apart y y' Hy Hy' Hlt). pose proof (years_grow y (y + 1) ltac:(lia)).
    pose proof (years_grow (y + 1) (y + 2) ltac:(lia)). pose proof (years_grow (y + 2) y' ltac:(lia)).
    destruct (b2i_cases (leap (y + 1))), (b2i_cases (leap (y + 2))), (b2i_cases (leap y)); lia.
  - pose proof (years_grow y' y Hlt). destruct (b2i_cases (leap y')); lia.
Qed.
