(* ===== verification/Schedules.v ===== *)
(** * Scheduled tasks (repositories/schedules.py)

    The table scheduled_tasks and the methods of [ScheduledTaskRepository],
    with the configuration of the render task ([DisplayPrepareConfig] of
    services/display_prepare.py) and the scalar readers of
    core/json_values.py.

    Every method but [ensure_defaults] is one autocommitted statement or runs in
    the caller's transaction: one that raises changes nothing.  The column next_run is an ISO text with an offset, so it is a
    [stamp]: the instant and the wall clock it shows; texts are equal when
    both are.  config_json is kept without its member _cron_semantics, which
    is a field of its own; a missing one reads as legacy_v1. *)

From S2P Require Import Prelude PyStr Json Sql Store Reservations Calendar OfflineSchedule Schema Cron.
Local Open Scope Z_scope.

(** ValueError and its subclasses, and KeyError. *)
Inductive sched_error :=
| UnknownTask | CronError (e : cron_exn) | BadScheduleValue | BadJsonScalar | BadDisplayConfig.

Definition of_cron {A} (m : result cron_exn A) : result sched_error A :=
  match m with Ok a => Ok a | Raise e => Raise (CronError e) end.

Record stamp := mk_stamp { st_at : Z; st_shown : Z }.
Definition iso (z : zone) (t : Z) : stamp := mk_stamp t (wall_of z t).
Definition stamp_eqb (a b : stamp) : bool := (st_at a =? st_at b) && (st_shown a =? st_shown b).
Definition same_stamp (a b : option stamp) : bool :=
  match a, b with Some x, Some y => stamp_eqb x y | _, _ => false end.

Record task := mk_task {
  t_key : str; t_name : str; t_kind : str; t_enabled : bool; t_cron : str; t_weekdays : list Z;
  t_start : str; t_window_start : option str; t_window_end : option str;
  t_timeout : Z; t_retry_count : Z; t_retry_interval : Z;
  t_last_success : option Z; t_last_failure : option Z; t_next_run : option stamp; t_error : option str;
  t_config : list (str * json); t_semantics : str; t_created : Z; t_updated : Z }.
Definition task_eta (t : task) : task :=
  mk_task (t_key t) (t_name t) (t_kind t) (t_enabled t) (t_cron t) (t_weekdays t) (t_start t) (t_window_start t)
    (t_window_end t) (t_timeout t) (t_retry_count t) (t_retry_interval t) (t_last_success t) (t_last_failure t)
    (t_next_run t) (t_error t) (t_config t) (t_semantics t) (t_created t) (t_updated t).
#[export] Instance set_t_last_success : Settable t_last_success := ltac:(derive_setter task_eta t_last_success).
#[export] Instance set_t_last_failure : Settable t_last_failure := ltac:(derive_setter task_eta t_last_failure).
#[export] Instance set_t_next_run : Settable t_next_run := ltac:(derive_setter task_eta t_next_run).
#[export] Instance set_t_error : Settable t_error := ltac:(derive_setter task_eta t_error).
#[export] Instance set_t_updated : Settable t_updated := ltac:(derive_setter task_eta t_updated).

Definition schedule_table : Type := list task.
Definition get_task (l : schedule_table) (key : str) : option task := get_row t_key key l.

(** ** Reading JSON scalars *)

Definition json_int (m : list (str * json)) (field : str) (minimum maximum : Z) : result sched_error Z :=
  match assoc_get field m with
  | Some (JInt n) => if (minimum <=? n) && (n <=? maximum) then Ok n else Raise BadJsonScalar
  | _ => Raise BadJsonScalar
  end.
Definition json_bool (m : list (str * json)) (field : str) (dflt : bool) : result sched_error bool :=
  match assoc_get field m with
  | None => Ok dflt
  | Some (JBool b) => Ok b
  | Some _ => Raise BadJsonScalar
  end.

Definition _bounded (value : json) (lower upper : Z) : result sched_error Z :=
  match value with
  | JInt n => if (lower <=? n) && (n <=? upper) then Ok n else Raise BadScheduleValue
  | _ => Raise BadScheduleValue
  end.

(** [isdigit()] of both halves, with their values in range: HH:MM. *)
Definition _clock (value : str) : result sched_error str :=
  match value with
  | [a; b; c; d; e] =>
      match int_digits [a; b], int_digits [d; e] with
      | Some h, Some m =>
          if (c =? 58) && (h <=? 23) && (m <=? 59) then Ok value else Raise BadScheduleValue
      | _, _ => Raise BadScheduleValue
      end
  | _ => Raise BadScheduleValue
  end.

Definition _optional_clock (value : json) : result sched_error (option str) :=
  match value with
  | JNull => Ok None
  | JStr [] => Ok None
  | JStr s => let* c := _clock s in Ok (Some c)
  | _ => Raise BadScheduleValue
  end.

Definition weekday_of (j : json) : option Z :=
  match j with JInt n => if (0 <=? n) && (n <=? 6) then Some n else None | _ => None end.
(** [sorted(set(value))] of days 0 to 6. *)
Definition _weekdays (value : json) : result sched_error (list Z) :=
  match value with
  | JList l =>
      if forallb (λ j, negb (is_null (weekday_of j))) l
      then Ok (List.filter (λ d, z_in d (omap weekday_of l)) (seqZ 0 7)) else Raise BadScheduleValue
  | _ => Raise BadScheduleValue
  end.

(** ** The render task's configuration *)

Record display_config := mk_display_config {
  display_times : list str; lead_minutes : Z; daily_count : Z; device_ids : list str;
  candidate_years : list Z; prefetch_count : Z; ai_fallback : str; render_fallback : str }.

Definition ALLOWED_KEYS : list str :=
  map u ["display_times"; "lead_minutes"; "daily_count"; "device_ids"; "candidate_years"; "prefetch_count";
         "ai_fallback"; "render_fallback"]%string.

Definition keys_in (allowed : list str) (m : list (str * json)) : bool := forallb (λ kv, str_in (fst kv) allowed) m.

Definition bounded_int (m : list (str * json)) (key : string) (dflt lower upper : Z) : result sched_error Z :=
  match default (JInt dflt) (assoc_get (u key) m) with
  | JInt n => if (lower <=? n) && (n <=? upper) then Ok n else Raise BadDisplayConfig
  | _ => Raise BadDisplayConfig
  end.

Definition year_of (j : json) : option Z :=
  match j with JInt n => if (1900 <=? n) && (n <=? 2200) then Some n else None | _ => None end.
Definition device_of (j : json) : option str :=
  match j with JStr s => match strip s with [] => None | t => Some t end | _ => None end.
(** [sorted(set(l))] *)
Definition sorted_set (l : list Z) : list Z := remove_dups (sort_by Z.leb l).

(** A choice among texts; [str()] of anything but a text is none of them. *)
Definition choice (m : list (str * json)) (key dflt : string) (allowed : list string) : result sched_error str :=
  match default (JStr (u dflt)) (assoc_get (u key) m) with
  | JStr s => if str_in s (map u allowed) then Ok s else Raise BadDisplayConfig
  | _ => Raise BadDisplayConfig
  end.

Definition from_mapping (m : list (str * json)) : result sched_error display_config :=
  raise_if (negb (keys_in ALLOWED_KEYS m)) BadDisplayConfig ;;;
  let* times := match default (JList [JStr (u "08:00")]) (assoc_get (u "display_times") m) with
                | JList ((_ :: _) as l) =>
                    match all_strings l with
                    | Some ss => if forallb valid_time ss then Ok (fromkeys ss) else Raise BadDisplayConfig
                    | None => Raise BadDisplayConfig
                    end
                | _ => Raise BadDisplayConfig
                end in
  let* daily := bounded_int m "daily_count" 1 1 24 in
  raise_if (Z.of_nat (length times) <? daily) BadDisplayConfig ;;;
  let* devices := match default (JList []) (assoc_get (u "device_ids") m) with
                  | JList l => if forallb (λ j, negb (is_null (device_of j))) l
                               then Ok (fromkeys (omap device_of l)) else Raise BadDisplayConfig
                  | _ => Raise BadDisplayConfig
                  end in
  let* years := match default (JList []) (assoc_get (u "candidate_years") m) with
                | JList l => if forallb (λ j, negb (is_null (year_of j))) l
                             then Ok (sorted_set (omap year_of l)) else Raise BadDisplayConfig
                | _ => Raise BadDisplayConfig
                end in
  let* ai := choice m "ai_fallback" "use_existing" ["use_existing"; "skip"; "fail"]%string in
  let* render := choice m "render_fallback" "keep_current" ["keep_current"; "fail"]%string in
  let* lead := bounded_int m "lead_minutes" 30 0 1440 in
  let* prefetch := bounded_int m "prefetch_count" 1 1 10 in
  Ok (mk_display_config times lead daily devices years prefetch ai render).

(** [dict(normalized.__dict__)] with lists for the tuples. *)
Definition display_members (c : display_config) : list (str * json) :=
  [(u "display_times", JList (map JStr (display_times c))); (u "lead_minutes", JInt (lead_minutes c));
   (u "daily_count", JInt (daily_count c)); (u "device_ids", JList (map JStr (device_ids c)));
   (u "candidate_years", JList (map JInt (candidate_years c))); (u "prefetch_count", JInt (prefetch_count c));
   (u "ai_fallback", JStr (ai_fallback c)); (u "render_fallback", JStr (render_fallback c))].

Definition output_count (c : display_config) : Z := Z.min 50 (daily_count c * prefetch_count c).

(** ** Configurations of the other kinds *)

Definition integer_fields : list (str * (Z * Z)) :=
  [(u "batch_size", (1, 100000)); (u "concurrency", (1, 32)); (u "missing_safe_percent", (0, 100));
   (u "lead_minutes", (0, 1440)); (u "daily_count", (1, 24)); (u "prefetch_count", (1, 10));
   (u "new_photo_delay_minutes", (0, 43200)); (u "max_bytes", (1, 10 * 1024 * 1024 * 1024 * 1024));
   (u "retention_days", (0, 3650))].
Definition boolean_fields : list str :=
  map u ["build_thumbnails"; "catch_up"; "delay_high_load"; "check_missing"; "check_moves"; "verify_hashes";
         "clean_orphan_thumbnails"; "clean_orphans"]%string.
Definition allowed_by_kind (kind : str) : option (list str) :=
  if str_eqb kind (u "scan") then
    Some (map u ["library_name"; "root_path"; "mode"; "batch_size"; "concurrency"; "catch_up"; "delay_high_load";
                 "build_thumbnails"; "check_missing"; "check_moves"; "verify_hashes"; "clean_orphan_thumbnails";
                 "missing_safe_percent"]%string)
  else if str_eqb kind (u "render") then Some ALLOWED_KEYS
  else if str_eqb kind (u "analysis") then
    Some (map u ["mode"; "fixed_times"; "night_window"; "new_photo_delay_minutes"; "strategy"; "concurrency"]%string)
  else if str_eqb kind (u "cleanup") then Some (map u ["max_bytes"; "retention_days"; "clean_orphans"]%string)
  else None.

(** The value is kept as it is when it has the right type and range. *)
Definition field_valid (updates : list (str * json)) (kv : str * json) : bool :=
  match assoc_get (fst kv) integer_fields with
  | Some (lower, upper) =>
      match json_int updates (fst kv) lower upper with Ok _ => true | Raise _ => false end
  | None => if str_in (fst kv) boolean_fields
            then match json_bool updates (fst kv) false with Ok _ => true | Raise _ => false end else true
  end.
(** [a | b] on dicts *)
Definition merge (a b : list (str * json)) : list (str * json) :=
  fold_left (λ m kv, assoc_set (fst kv) (snd kv) m) b a.

Definition _config (kind : str) (current : list (str * json)) (updates : json) : result sched_error (list (str * json)) :=
  match updates with
  | JObj ups =>
      match allowed_by_kind kind with
      | None => Raise BadScheduleValue
      | Some allowed =>
          raise_if (negb (keys_in allowed ups)) BadScheduleValue ;;;
          raise_if (negb (forallb (field_valid ups) ups)) BadJsonScalar ;;;
          let merged := merge current ups in
          if str_eqb kind (u "render") then let* c := from_mapping merged in Ok (display_members c) else Ok merged
      end
  | _ => Raise BadScheduleValue
  end.

(** ** The tasks every installation has *)

Definition default_task (key name kind cron start : string) (window : option (string * string))
    (timeout retries interval : Z) (config : list (str * json)) : task :=
  mk_task (u key) (u name) (u kind) (negb (str_in (u key) (map u ["display_prepare"; "ai_schedule"]%string)))
    (u cron) [] (u start) (option_map (λ w, u (fst w)) window) (option_map (λ w, u (snd w)) window)
    timeout retries interval None None None None config (u "cronie_v2") 0 0.

Definition TASK_DEFAULTS : list task :=
  [default_task "incremental_scan" "增量掃描" "scan" "0 3 1 * *" "03:00" (Some ("00:00", "06:00")%string) 14400 2 900
     [(u "library_name", JStr (u "主要照片庫")); (u "root_path", JStr []); (u "mode", JStr (u "incremental"));
      (u "build_thumbnails", JBool true); (u "batch_size", JInt 500); (u "concurrency", JInt 1);
      (u "catch_up", JBool true); (u "delay_high_load", JBool true)];
   default_task "full_reconcile" "完整一致性掃描" "scan" "0 4 1 * *" "04:00" (Some ("00:00", "08:00")%string) 28800 1 1800
     [(u "library_name", JStr (u "主要照片庫")); (u "root_path", JStr []); (u "mode", JStr (u "full"));
      (u "check_missing", JBool true); (u "check_moves", JBool true); (u "verify_hashes", JBool false);
      (u "clean_orphan_thumbnails", JBool true); (u "missing_safe_percent", JInt 10); (u "delay_high_load", JBool true)];
   default_task "display_prepare" "換圖準備" "render" "30 7 * * *" "07:30" None 3600 1 600
     [(u "lead_minutes", JInt 30); (u "display_times", JList [JStr (u "08:00")]); (u "daily_count", JInt 1);
      (u "device_ids", JList []); (u "candidate_years", JList []); (u "prefetch_count", JInt 1);
      (u "ai_fallback", JStr (u "use_existing")); (u "render_fallback", JStr (u "keep_current"))];
   default_task "ai_schedule" "AI 排程入口" "analysis" "0 1 * * *" "01:00" (Some ("00:00", "06:00")%string) 14400 2 900
     [(u "mode", JStr (u "disabled")); (u "fixed_times", JList [JStr (u "01:00")]);
      (u "night_window", JList [JStr (u "00:00"); JStr (u "06:00")]); (u "new_photo_delay_minutes", JInt 30);
      (u "strategy", JStr (u "single")); (u "concurrency", JInt 1)];
   default_task "cache_cleanup" "快取清理" "cleanup" "30 4 * * *" "04:30" (Some ("00:00", "06:00")%string) 3600 1 900
     [(u "max_bytes", JInt 5368709120); (u "retention_days", JInt 30); (u "clean_orphans", JBool true)]].

(** ** The repository *)

(** The zone and the instant of the caller's clock; [stamp_at] is utc_now(). *)
Record moment := mk_moment { m_zone : zone; m_at : Z; stamp_at : Z }.

Definition next_of (cron : str) (m : moment) (weekdays : list Z) (semantics : str) : result sched_error stamp :=
  let* t := of_cron (_next_run cron (m_zone m) (m_at m) weekdays semantics) in Ok (iso (m_zone m) t).
Definition task_next (t : task) (m : moment) : result sched_error stamp :=
  next_of (t_cron t) m (t_weekdays t) (t_semantics t).

(** INSERT OR IGNORE of each default, one statement each: the exception, if
    any, and the rows so far. *)
Definition insert_default (m : moment) (t : task) (next : stamp) (l : schedule_table) : schedule_table :=
  if has_key t_key (t_key t) l then l
  else l ++ [mk_task (t_key t) (t_name t) (t_kind t) (t_enabled t) (t_cron t) (t_weekdays t) (t_start t)
               (t_window_start t) (t_window_end t) (t_timeout t) (t_retry_count t) (t_retry_interval t)
               None None (Some next) None (t_config t) (t_semantics t) (stamp_at m) (stamp_at m)].
Fixpoint insert_defaults (m : moment) (ds : list task) (l : schedule_table) : option sched_error * schedule_table :=
  match ds with
  | [] => (None, l)
  | t :: ds' =>
      match task_next t m with
      | Raise e => (Some e, l)
      | Ok next => insert_defaults m ds' (insert_default m t next l)
      end
  end.
Definition ensure_defaults (m : moment) (l : schedule_table) : option sched_error * schedule_table :=
  insert_defaults m TASK_DEFAULTS l.

Definition update_task (key : str) (f : task → task) (l : schedule_table) : schedule_table :=
  update_where (by_key t_key key) f l.

(** [payload.get(key, current)] *)
Definition get_or_current (payload : list (str * json)) (key : string) (current : json) : json :=
  default current (assoc_get (u key) payload).
(** [str(value)] of a text; of anything else it is neither HH:MM nor Cron. *)
Definition text_of_json (j : json) : result sched_error str :=
  match j with JStr s => Ok s | _ => Raise BadScheduleValue end.

(** The semantics and the expression an update leaves. *)
Definition resolve_cron (payload : list (str * json)) (cur : task) : result sched_error (str * str) :=
  let* text := text_of_json (get_or_current payload "cron" (JStr (t_cron cur))) in
  let changed := negb (is_null (assoc_get (u "cron") payload)) && negb (str_eqb (strip text) (t_cron cur)) in
  let asked := match assoc_get (u "cron_semantics") payload with
               | Some (JStr s) => str_eqb s (u "cronie_v2") | _ => false end in
  let semantics := if changed || asked then u "cronie_v2" else t_semantics cur in
  if str_eqb semantics (u "cronie_v2") then let* c := of_cron (_cron text) in Ok (c, semantics)
  else Ok (t_cron cur, semantics).

Definition opt_text (s : option str) : json := match s with Some s => JStr s | None => JNull end.

Definition update (l : schedule_table) (m : moment) (key : str) (payload : list (str * json))
  : result sched_error schedule_table :=
  match get_task l key with
  | None => Raise UnknownTask
  | Some cur =>
      let* cs := resolve_cron payload cur in
      let '(cron, semantics) := cs in
      let* weekdays := _weekdays (get_or_current payload "weekdays" (JList (map JInt (t_weekdays cur)))) in
      let* text := text_of_json (get_or_current payload "start_time" (JStr (t_start cur))) in
      let* start := _clock text in
      let* window_start := _optional_clock (get_or_current payload "window_start" (opt_text (t_window_start cur))) in
      let* window_end := _optional_clock (get_or_current payload "window_end" (opt_text (t_window_end cur))) in
      let* enabled := json_bool payload (u "enabled") (t_enabled cur) in
      let* config := _config (t_kind cur) (t_config cur) (get_or_current payload "config" (JObj [])) in
      let* config := if str_eqb (t_kind cur) (u "render")
                     then let* c := from_mapping config in Ok (display_members c) else Ok config in
      let* next := if enabled then let* n := next_of cron m weekdays semantics in Ok (Some n) else Ok None in
      let* timeout := _bounded (get_or_current payload "timeout_seconds" (JInt (t_timeout cur))) 30 86400 in
      let* retries := _bounded (get_or_current payload "retry_count" (JInt (t_retry_count cur))) 0 10 in
      let* interval := _bounded (get_or_current payload "retry_interval_seconds" (JInt (t_retry_interval cur))) 30 86400 in
      Ok (update_task key
            (λ t, mk_task (t_key t) (t_name t) (t_kind t) enabled cron weekdays start window_start window_end timeout
                    retries interval (t_last_success t) (t_last_failure t) next (t_error t) config semantics
                    (t_created t) (stamp_at m)) l)
  end.

(** ORDER BY julianday(next_run), key *)
Definition run_at (t : task) : Z := match t_next_run t with Some s => st_at s | None => 0 end.
Definition due_order (a b : task) : bool :=
  (run_at a <? run_at b) || ((run_at a =? run_at b) && str_leb (t_key a) (t_key b)).
Definition is_due (now : Z) (t : task) : bool :=
  t_enabled t && match t_next_run t with Some s => st_at s <=? now | None => false end.
Definition due (l : schedule_table) (now : Z) : list task := sort_by due_order (List.filter (is_due now) l).

(** One row of [rebase_enabled_next_runs]. *)
Definition rebase_row (m : moment) (l : schedule_table) (t : task) : result sched_error (Z * schedule_table) :=
  let* next := task_next t m in
  if same_stamp (t_next_run t) (Some next) then Ok (0, l)
  else Ok (1, update_task (t_key t) (λ r, r <| t_next_run := Some next |> <| t_updated := stamp_at m |>) l).
Fixpoint rebase_rows (m : moment) (ts : list task) (l : schedule_table) : result sched_error (Z * schedule_table) :=
  match ts with
  | [] => Ok (0, l)
  | t :: ts' =>
      let* r := rebase_row m l t in
      let* r' := rebase_rows m ts' (snd r) in Ok (fst r + fst r', snd r')
  end.
Definition key_order (a b : task) : bool := str_leb (t_key a) (t_key b).
Definition rebase_enabled_next_runs (m : moment) (l : schedule_table) : result sched_error (Z * schedule_table) :=
  rebase_rows m (sort_by key_order (List.filter t_enabled l)) l.

Definition mark_enqueued (l : schedule_table) (m : moment) (t : task) : result sched_error schedule_table :=
  let* next := task_next t m in
  Ok (update_task (t_key t) (λ r, r <| t_next_run := Some next |> <| t_error := None |> <| t_updated := stamp_at m |>) l).

(** The cursor after a success: the run after the occurrence, or the next one
    when that is past; only an unmoved cursor is repaired. *)
Definition repaired_next (t : task) (m : moment) (occurrence : stamp) : result sched_error stamp :=
  let* next := task_next t (mk_moment (m_zone m) (st_at occurrence) (stamp_at m)) in
  if st_at next <=? m_at m then task_next t m else Ok next.
Definition set_success (m : moment) (occurrence next : stamp) (r : task) : task :=
  r <| t_last_success := Some (stamp_at m) |> <| t_error := None |>
    <| t_next_run := if same_stamp (t_next_run r) (Some occurrence) then Some next else t_next_run r |>
    <| t_updated := stamp_at m |>.
Definition record_success (l : schedule_table) (m : moment) (t : task) (occurrence : stamp)
  : result sched_error schedule_table :=
  let* next := repaired_next t m occurrence in Ok (update_task (t_key t) (set_success m occurrence next) l).

Definition record_terminal_outcome (l : schedule_table) (m : moment) (t : task) : result sched_error schedule_table :=
  let* next := task_next t m in
  Ok (update_task (t_key t)
        (λ r, r <| t_last_failure := None |> <| t_error := None |> <| t_next_run := Some next |>
                <| t_updated := stamp_at m |>) l).

Definition set_failure (m : moment) (message : str) (next : stamp) (r : task) : task :=
  r <| t_last_failure := Some (stamp_at m) |> <| t_error := Some (take 1000 message) |> <| t_next_run := Some next |>
    <| t_updated := stamp_at m |>.
Definition record_retry_exhausted (l : schedule_table) (m : moment) (t : task) (message : str)
  : result sched_error schedule_table :=
  let* next := task_next t m in Ok (update_task (t_key t) (set_failure m message next) l).
Definition record_terminal := record_retry_exhausted.

Definition second : Z := 1000000.
(** [now + timedelta(...)] of an aware datetime adds on the wall clock and
    reads the sum as its first occurrence. *)
Definition plus_wall (m : moment) (delay : Z) : stamp :=
  let shown := wall_of (m_zone m) (m_at m) + delay in mk_stamp (utc_of (m_zone m) shown false) shown.
Definition record_failure (l : schedule_table) (m : moment) (t : task) (message : str) : schedule_table :=
  update_task (t_key t) (set_failure m message (plus_wall m (t_retry_interval t * second))) l.
