(* ===== verification/SchedulesProps.v ===== *)
(** * Theorems on scheduled tasks

    The configuration of the render task is a normal form, the rows of
    scheduled_tasks stay within the limits of the settings page, and the cursor
    next_run is moved only by the rules of the repository. *)

From stdpp Require Import relations.
From S2P Require Import Prelude PyStr Json Sql Store Reservations Calendar OfflineSchedule Schema Cron Schedules.
Local Open Scope Z_scope.

(** ** Normalised lists *)

Lemma fromkeys_from_fresh seen l : Forall (λ x, x ∉ seen) (fromkeys_from seen l).
Proof.
  revert seen. induction l as [|x l IH]; intros seen; simpl; [done|]. destruct (str_in x seen) eqn:E; [done|].
  constructor; [by apply str_in_false|]. eapply Forall_impl; [apply IH|]. intros y Hy Hs. apply Hy. by right.
Qed.

Lemma fromkeys_from_nodup seen l : NoDup (fromkeys_from seen l).
Proof.
  revert seen. induction l as [|x l IH]; intros seen; simpl; [constructor|]. destruct (str_in x seen); [done|].
  constructor; [|done]. intros Hx. pose proof (fromkeys_from_fresh (x :: seen) l) as Hf. rewrite Forall_forall in Hf.
  apply (Hf x Hx). by left.
Qed.

Lemma fromkeys_from_fix seen l : NoDup l → Forall (λ x, x ∉ seen) l → fromkeys_from seen l = l.
Proof.
  revert seen. induction l as [|x l IH]; intros seen Hn Hf; [done|]. apply NoDup_cons in Hn as [Hx Hn].
  apply Forall_cons in Hf as [Hs Hf]. cbn [fromkeys_from]. destruct (str_in x seen) eqn:E; [by apply str_in_elem in E|].
  f_equal. apply IH; [done|]. rewrite Forall_forall in *. intros y Hy [->|Hin]%elem_of_cons; [done|by apply (Hf y)].
Qed.

Lemma fromkeys_fix l : NoDup l → fromkeys l = l.
Proof. intros H. apply fromkeys_from_fix; [done|]. apply Forall_forall. intros x _ Hx. by apply elem_of_nil in Hx. Qed.

Lemma fromkeys_from_sub seen l x : x ∈ fromkeys_from seen l → x ∈ l.
Proof.
  revert seen. induction l as [|y l IH]; intros seen; simpl; [done|]. destruct (str_in y seen); [intros H; right; by eapply IH|].
  intros [->|H]%elem_of_cons; [by left|right; by eapply IH].
Qed.

Lemma all_strings_map l : all_strings (map JStr l) = Some l.
Proof. induction l as [|x l IH]; simpl; [done|]. by rewrite IH. Qed.

Lemma all_strings_nonempty l ss : all_strings l = Some ss → l ≠ [] → ss ≠ [].
Proof.
  destruct l as [|[] l]; simpl; try done. destruct (all_strings l); [|done]. intros [= <-] _. done.
Qed.

Lemma fromkeys_nonempty l : l ≠ [] → fromkeys l ≠ [].
Proof. by destruct l. Qed.

Lemma omap_map_id {A B} (f : A → B) (g : B → option A) l : Forall (λ x, g (f x) = Some x) l → omap g (map f l) = l.
Proof. induction 1 as [|x l Hx _ IH]; [done|]. csimpl. by rewrite Hx, IH. Qed.

Lemma forallb_some_map {A B} (f : A → B) (g : B → option A) l :
  Forall (λ x, g (f x) = Some x) l → forallb (λ j, negb (is_null (g j))) (map f l) = true.
Proof. induction 1 as [|x l Hx _ IH]; simpl; [done|]. by rewrite Hx. Qed.

Lemma remove_dups_fix (l : list Z) : NoDup l → remove_dups l = l.
Proof.
  induction 1 as [|x l Hx _ IH]; simpl; [done|]. destruct (decide_rel _ x l) as [H|_]; [done|]. by rewrite IH.
Qed.

Lemma remove_dups_sorted (l : list Z) : StronglySorted (λ a b, Z.leb a b = true) l → StronglySorted (λ a b, Z.leb a b = true) (remove_dups l).
Proof.
  induction 1 as [|x l Hl IH Hx]; simpl; [constructor|]. destruct (decide_rel _ x l) as [H|_]; [done|]. constructor; [done|].
  rewrite Forall_forall in *. intros y Hy. apply Hx. by apply elem_of_remove_dups.
Qed.

Lemma sorted_set_idemp l : sorted_set (sorted_set l) = sorted_set l.
Proof.
  unfold sorted_set. rewrite (sort_by_fix Z.leb).
  - apply remove_dups_fix, NoDup_remove_dups.
  - apply remove_dups_sorted, sort_by_sorted; intros; rewrite ?Z.leb_le in *; lia.
Qed.

(** ** The render task's configuration *)

(** What a normalised configuration satisfies. *)
Record display_ok (c : display_config) : Prop := {
  dk_times : Forall (λ s, valid_time s = true) (display_times c);
  dk_times_nodup : NoDup (display_times c);
  dk_count : 1 ≤ daily_count c ≤ 24 ∧ daily_count c ≤ Z.of_nat (length (display_times c));
  dk_devices : Forall (λ s, strip s = s ∧ s ≠ []) (device_ids c) ∧ NoDup (device_ids c);
  dk_years : Forall (λ y, 1900 ≤ y ≤ 2200) (candidate_years c) ∧ sorted_set (candidate_years c) = candidate_years c;
  dk_ai : str_in (ai_fallback c) (map u ["use_existing"; "skip"; "fail"]%string) = true;
  dk_render : str_in (render_fallback c) (map u ["keep_current"; "fail"]%string) = true;
  dk_lead : 0 ≤ lead_minutes c ≤ 1440;
  dk_prefetch : 1 ≤ prefetch_count c ≤ 10 }.

Lemma bounded_int_ok m key d lo hi n : bounded_int m key d lo hi = Ok n → lo ≤ n ≤ hi.
Proof. unfold bounded_int. destruct (default _ _); try done. destruct (_ && _) eqn:E; [|done]. intros [= <-]. bprop. lia. Qed.

Lemma choice_ok m key d allowed s : choice m key d allowed = Ok s → str_in s (map u allowed) = true.
Proof. unfold choice. destruct (default _ _); try done. destruct (str_in _ _) eqn:E; [|done]. by intros [= <-]. Qed.

Lemma device_of_strip j s : device_of j = Some s → strip s = s ∧ s ≠ [].
Proof.
  destruct j as [| | | |t| |]; try done. unfold device_of. pose proof (strip_idemp t) as Hi. destruct (strip t) as [|x r] eqn:E; [done|].
  intros [= <-]. done.
Qed.
Lemma device_of_self s : strip s = s ∧ s ≠ [] → device_of (JStr s) = Some s.
Proof. intros [E Hne]. unfold device_of. rewrite E. by destruct s. Qed.
Lemma year_of_range j y : year_of j = Some y → 1900 ≤ y ≤ 2200.
Proof. destruct j; try done. unfold year_of. destruct (_ && _) eqn:E; [|done]. intros [= <-]. bprop. lia. Qed.
Lemma year_of_self y : 1900 ≤ y ≤ 2200 → year_of (JInt y) = Some y.
Proof. intros H. unfold year_of. assert ((1900 <=? y) && (y <=? 2200) = true) as ->; [|done]. apply andb_true_intro. split; apply Z.leb_le; lia. Qed.

Lemma elem_omap {A B} (g : A → option B) (P : B → Prop) l : (∀ a b, g a = Some b → P b) → Forall P (omap g l).
Proof. intros H. apply Forall_forall. intros x Hx. apply list_elem_of_omap in Hx as (a & _ & Ha). by eapply H. Qed.

Lemma fromkeys_forall (P : str → Prop) l : Forall P l → Forall P (fromkeys l).
Proof. rewrite !Forall_forall. intros H x Hx. apply H. by eapply fromkeys_from_sub. Qed.

Lemma from_mapping_ok m c : from_mapping m = Ok c → display_ok c.
Proof.
  unfold from_mapping. intros ([] & _ & H)%rbind_ok. apply rbind_ok in H as (times & Ht & H).
  apply rbind_ok in H as (daily & Hd%bounded_int_ok & H). apply rbind_ok in H as ([] & Hl%raise_if_ok & H).
  apply rbind_ok in H as (devices & Hv & H). apply rbind_ok in H as (years & Hy & H).
  apply rbind_ok in H as (ai & Ha%choice_ok & H). apply rbind_ok in H as (render & Hr%choice_ok & H).
  apply rbind_ok in H as (lead & Hle%bounded_int_ok & H). apply rbind_ok in H as (pre & Hp%bounded_int_ok & H). injection H as <-.
  apply Z.ltb_ge in Hl. constructor; cbn [display_times lead_minutes daily_count device_ids candidate_years prefetch_count ai_fallback render_fallback]; try done.
  - destruct (default _ _) as [| | | | |[|j l]|]; try done. destruct (all_strings _) as [ss|]; [|done].
    destruct (forallb _ _) eqn:E; [|done]. injection Ht as <-. apply fromkeys_forall. apply Forall_forall.
    rewrite forallb_forall in E. intros x Hx. apply E. by apply list_elem_of_In.
  - destruct (default _ _) as [| | | | |[|j l]|]; try done. destruct (all_strings _) as [ss|]; [|done].
    destruct (forallb _ _); [|done]. injection Ht as <-. apply fromkeys_from_nodup.
  - clear Ht. destruct (default _ _) as [| | | | |l|]; try done. destruct (forallb _ _); [|done]. injection Hv as <-.
    split; [apply fromkeys_forall, elem_omap, device_of_strip|apply fromkeys_from_nodup].
  - clear Ht Hv. destruct (default _ _) as [| | | | |l|]; try done. destruct (forallb _ _); [|done]. injection Hy as <-.
    split; [|apply sorted_set_idemp]. unfold sorted_set. apply Forall_forall. intros y Hy.
    apply elem_of_remove_dups, sort_by_elem in Hy. revert y Hy. apply Forall_forall, elem_omap, year_of_range.
Qed.

Lemma bounded_int_get m key d lo hi n : assoc_get (u key) m = Some (JInt n) → lo ≤ n ≤ hi → bounded_int m key d lo hi = Ok n.
Proof.
  intros Hg Hn. unfold bounded_int. rewrite Hg. cbn [from_option id]. assert ((lo <=? n) && (n <=? hi) = true) as ->; [|done].
  apply andb_true_intro. split; apply Z.leb_le; lia.
Qed.
Lemma choice_get m key d allowed s : assoc_get (u key) m = Some (JStr s) → str_in s (map u allowed) = true → choice m key d allowed = Ok s.
Proof. intros Hg Hs. unfold choice. rewrite Hg. cbn [from_option id]. by rewrite Hs. Qed.

Lemma from_members c : display_ok c → from_mapping (display_members c) = Ok c.
Proof.
  intros []. unfold from_mapping.
  assert (keys_in ALLOWED_KEYS (display_members c) = true) as -> by reflexivity. cbn [negb raise_if rbind].
  assert (assoc_get (u "display_times") (display_members c) = Some (JList (map JStr (display_times c)))) as -> by reflexivity.
  assert (assoc_get (u "device_ids") (display_members c) = Some (JList (map JStr (device_ids c)))) as -> by reflexivity.
  assert (assoc_get (u "candidate_years") (display_members c) = Some (JList (map JInt (candidate_years c)))) as -> by reflexivity.
  rewrite (bounded_int_get _ "daily_count" 1 1 24 (daily_count c)), (bounded_int_get _ "lead_minutes" 30 0 1440 (lead_minutes c)),
    (bounded_int_get _ "prefetch_count" 1 1 10 (prefetch_count c)), (choice_get _ "ai_fallback" _ _ (ai_fallback c)),
    (choice_get _ "render_fallback" _ _ (render_fallback c)) by (reflexivity || tauto).
  assert (∃ t ts, display_times c = t :: ts) as (t & ts & Et).
  { destruct (display_times c) as [|t ts]; [simpl in *; lia|eauto]. }
  cbn [from_option id]. rewrite all_strings_map. assert (forallb valid_time (display_times c) = true) as ->.
  { apply forallb_forall. intros x Hx%list_elem_of_In. rewrite Forall_forall in dk_times0. by apply dk_times0. }
  rewrite (fromkeys_fix (display_times c)) by done.
  destruct dk_devices0 as [Hd Hdn], dk_years0 as [Hy Hys], dk_count0 as [Hc1 Hc2].
  assert (Forall (λ x, device_of (JStr x) = Some x) (device_ids c)) as Hd' by (eapply Forall_impl; [exact Hd|apply device_of_self]).
  assert (Forall (λ x, year_of (JInt x) = Some x) (candidate_years c)) as Hy' by (eapply Forall_impl; [exact Hy|apply year_of_self]).
  rewrite (forallb_some_map JStr device_of), (forallb_some_map JInt year_of), (omap_map_id JStr device_of), (omap_map_id JInt year_of) by done.
  rewrite (fromkeys_fix (device_ids c)), Hys, Et by done. cbn [map rbind]. assert ((Z.of_nat (length (t :: ts)) <? daily_count c) = false) as ->.
  { apply Z.ltb_ge. by rewrite <- Et. }
  cbn [raise_if rbind]. rewrite <- Et. by destruct c.
Qed.

(** The render task's configuration is a normal form: what the settings
    page stores is accepted again and reads back as itself, its times are
    distinct HH:MM texts, at least as many as pictures per day, and a run
    prepares between 1 and 50 pictures. *)
Theorem display_config_roundtrip m c :
  from_mapping m = Ok c →
  from_mapping (display_members c) = Ok c ∧ display_ok c ∧ 1 ≤ output_count c ≤ 50.
Proof.
  intros Hc%from_mapping_ok. split; [by apply from_members|]. split; [done|]. destruct Hc. unfold output_count. nia.
Qed.

Lemma display_config_roundtrip_witness :
  let c := mk_display_config [u "08:00"; u "20:30"] 30 2 [u "frame-1"] [2019; 2021] 1 (u "skip") (u "fail") in
  from_mapping (display_members c) = Ok c ∧ display_ok c ∧ 1 ≤ output_count c ≤ 50.
Proof.
  intros c. apply (display_config_roundtrip
    [(u "render_fallback", JStr (u "fail")); (u "ai_fallback", JStr (u "skip"));
     (u "candidate_years", JList [JInt 2021; JInt 2019; JInt 2021]); (u "device_ids", JList [JStr (u " frame-1 ")]);
     (u "daily_count", JInt 2); (u "display_times", JList [JStr (u "08:00"); JStr (u "20:30"); JStr (u "08:00")])] c).
  vm_compute. reflexivity.
Defined.

(** ** Rows within the limits *)

(** A member of a task's configuration has the type and range of its name. *)
Definition member_valid (kv : str * json) : Prop := field_valid [kv] kv = true.

Definition config_valid (kind : str) (c : list (str * json)) : Prop :=
  match allowed_by_kind kind with
  | None => False
  | Some allowed => keys_in allowed c = true ∧ Forall member_valid c
  end ∧ (str_eqb kind (u "render") = true → is_ok (from_mapping c) = true).

Definition clock_valid (s : str) : Prop := _clock s = Ok s.
Definition window_valid (o : option str) : Prop := match o with Some s => clock_valid s | None => True end.
Definition weekdays_valid (l : list Z) : Prop := Forall (λ d, 0 ≤ d ≤ 6) l ∧ StronglySorted Z.lt l.
Definition cron_valid (cron semantics : str) : Prop :=
  (semantics = u "cronie_v2" ∧ _cron cron = Ok cron) ∨ semantics = u "legacy_v1".

Record task_ok (t : task) : Prop := {
  tk_cron : cron_valid (t_cron t) (t_semantics t);
  tk_weekdays : weekdays_valid (t_weekdays t);
  tk_start : clock_valid (t_start t);
  tk_window : window_valid (t_window_start t) ∧ window_valid (t_window_end t);
  tk_timeout : 30 ≤ t_timeout t ≤ 86400;
  tk_retries : 0 ≤ t_retry_count t ≤ 10;
  tk_interval : 30 ≤ t_retry_interval t ≤ 86400;
  tk_config : config_valid (t_kind t) (t_config t);
  tk_cursor : t_enabled t = true → is_Some (t_next_run t) }.

Definition table_ok (l : schedule_table) : Prop := keys_unique t_key l ∧ Forall task_ok l.

(** The settings of a task: every column but the cursor and the outcomes. *)
Definition settings_of (t : task) :=
  (t_key t, t_kind t, t_enabled t, (t_cron t, t_semantics t), t_weekdays t, t_start t, (t_window_start t, t_window_end t),
   (t_timeout t, t_retry_count t, t_retry_interval t), t_config t).

Lemma task_ok_moved r r' : settings_of r' = settings_of r → (t_enabled r = true → is_Some (t_next_run r')) → task_ok r → task_ok r'.
Proof. unfold settings_of. intros [= E0 E1 E2 E3 E4 E5 E6 E7 E8 E9 E10 E11 E12] Hn []. split; rewrite ?E1, ?E2, ?E3, ?E4, ?E5, ?E6, ?E7, ?E8, ?E9, ?E10, ?E11, ?E12; auto. Qed.

Lemma table_ok_update l key f :
  (∀ r, t_key (f r) = t_key r) → (∀ r, r ∈ l → t_key r = key → task_ok r → task_ok (f r)) →
  table_ok l → table_ok (update_task key f l).
Proof.
  intros Hk Hf [Hu Hok]. rewrite Forall_forall in Hok. split.
  - unfold keys_unique, update_task in *. by rewrite update_where_map.
  - apply Forall_forall. intros r Hr. apply update_where_elem in Hr as (r0 & Hr0 & ->).
    destruct (by_key _ _ _) eqn:E; [|auto]. apply str_eqb_eq in E. auto.
Qed.

(** An UPDATE of the cursor and the outcomes only. *)
Lemma table_ok_cursor l key f :
  (∀ r, settings_of (f r) = settings_of r) → (∀ r, is_Some (t_next_run r) → is_Some (t_next_run (f r))) →
  table_ok l → table_ok (update_task key f l).
Proof.
  intros Hs Hn. apply table_ok_update; [intros r; by injection (Hs r)|]. intros r Hr _ Hok.
  apply (task_ok_moved r); [done| |done]. intros He. apply Hn. by apply tk_cursor.
Qed.

(** ** Each operation keeps them *)

Lemma bounded_ok j lo hi n : _bounded j lo hi = Ok n → lo ≤ n ≤ hi.
Proof. destruct j; try done. unfold _bounded. destruct (_ && _) eqn:E; [|done]. intros [= <-]. bprop. lia. Qed.

Lemma clock_ok s c : _clock s = Ok c → clock_valid c.
Proof.
  intros H. assert (c = s) as ->; [|done]. unfold _clock in H. repeat (destruct s as [|? s]; try done).
  destruct (int_digits _); [|done]. destruct (int_digits _); [|done]. destruct (_ && _); [|done]. by injection H as <-.
Qed.

Lemma optional_clock_ok j o : _optional_clock j = Ok o → window_valid o.
Proof.
  destruct j as [| | | |[|x s]| |]; try done; unfold _optional_clock; [by intros [= <-]|by intros [= <-]|].
  intros (c & Hc%clock_ok & H)%rbind_ok. by injection H as <-.
Qed.

Lemma filter_sorted (p : Z → bool) l : StronglySorted Z.lt l → StronglySorted Z.lt (List.filter p l).
Proof.
  induction 1 as [|x l Hl IH Hx]; simpl; [constructor|]. destruct (p x); [|done]. constructor; [done|].
  rewrite Forall_forall in *. intros y [Hy _]%filter_elem. auto.
Qed.

Lemma weekdays_ok j l : _weekdays j = Ok l → weekdays_valid l.
Proof.
  assert (weekdays_valid (seqZ 0 7)) as [Hw Hs].
  { split; [apply Forall_forall; intros d Hd%elem_of_seqZ; lia|].
    change (seqZ 0 7) with [0; 1; 2; 3; 4; 5; 6]. repeat constructor. }
  destruct j; try done. unfold _weekdays. destruct (forallb _ _); [|done]. revert Hw Hs. generalize (seqZ 0 7).
  intros week Hw Hs [= <-]. split; [|by apply filter_sorted].
  rewrite Forall_forall in *. intros d [Hd _]%filter_elem. auto.
Qed.

Lemma resolve_cron_ok payload t cron sem :
  cron_valid (t_cron t) (t_semantics t) → resolve_cron payload t = Ok (cron, sem) → cron_valid cron sem.
Proof.
  unfold resolve_cron. intros Hv (text & _ & H)%rbind_ok. cbv zeta in H. revert H.
  set (s := if _ || _ then _ else _). assert (s = u "cronie_v2" ∨ s = t_semantics t) as Hs by (subst s; destruct (_ || _); auto).
  clearbody s. destruct (str_eqb s _) eqn:E.
  - apply str_eqb_eq in E as ->. intros (c & Hc & H)%rbind_ok. injection H as <- <-. left. split; [done|].
    unfold of_cron in Hc. destruct (_cron text) as [c'|] eqn:Ec; [|done]. injection Hc as <-. by apply cron_fix in Ec.
  - intros [= <- <-]. apply str_eqb_neq in E. destruct Hs as [->| ->]; [by destruct E|]. destruct Hv as [[E' _]|Hv]; [by destruct E|by right].
Qed.

(** ** Configurations *)

Lemma assoc_get_nodup {V} k (v : V) m : NoDup (map fst m) → (k, v) ∈ m → assoc_get k m = Some v.
Proof.
  induction m as [|[k' v'] m IH]; simpl; intros Hn Hin; [by apply elem_of_nil in Hin|]. apply NoDup_cons in Hn as [Hk Hn].
  apply elem_of_cons in Hin as [[= -> ->]|Hin]; [by rewrite str_eqb_refl|]. destruct (str_eqb k k') eqn:E; [|by apply IH].
  apply str_eqb_eq in E as ->. destruct Hk. apply list_elem_of_fmap. by exists (k', v).
Qed.

Lemma field_valid_value m kv : assoc_get (fst kv) m = Some (snd kv) → field_valid m kv = field_valid [kv] kv.
Proof.
  destruct kv as [k v]. simpl. intros E. unfold field_valid, json_int, json_bool. cbn [fst]. rewrite E. cbn [assoc_get]. by rewrite str_eqb_refl.
Qed.

Lemma assoc_set_elem {V} k (v : V) m kv : kv ∈ assoc_set k v m → kv = (k, v) ∨ kv ∈ m.
Proof.
  induction m as [|[k' v'] m IH]; simpl; [intros ?%list_elem_of_singleton; by left|].
  destruct (str_eqb k k') eqn:E; intros [->|H]%elem_of_cons; [left|by right; right|by right; left|].
  - apply str_eqb_eq in E as ->. done.
  - destruct (IH H); [by left|by right; right].
Qed.

Lemma merge_elem a b kv : kv ∈ merge a b → kv ∈ a ∨ kv ∈ b.
Proof.
  unfold merge. revert a. induction b as [|[k v] b IH]; intros a; simpl; [by left|]. intros [H|H]%IH; [|by right; right].
  apply assoc_set_elem in H as [->|H]; [by right; left|by left].
Qed.

Lemma keys_in_elem allowed m : keys_in allowed m = true ↔ ∀ kv, kv ∈ m → str_in (fst kv) allowed = true.
Proof. unfold keys_in. rewrite forallb_forall. by setoid_rewrite list_elem_of_In. Qed.

(** The updates are a dict: no key twice. *)
Definition is_dict (j : json) : Prop := match j with JObj m => NoDup (map fst m) | _ => True end.

Lemma int_member_valid k n lo hi : assoc_get k integer_fields = Some (lo, hi) → lo ≤ n ≤ hi → member_valid (k, JInt n).
Proof.
  intros Hk Hn. unfold member_valid, field_valid, json_int. cbn [fst assoc_get]. rewrite Hk, str_eqb_refl.
  assert ((lo <=? n) && (n <=? hi) = true) as ->; [|done]. apply andb_true_intro. split; apply Z.leb_le; lia.
Qed.

Lemma display_members_valid c : display_ok c → keys_in ALLOWED_KEYS (display_members c) = true ∧ Forall member_valid (display_members c).
Proof.
  intros []. split; [reflexivity|]. unfold display_members.
  repeat (constructor; [first [reflexivity | eapply int_member_valid; [reflexivity|tauto]]|]). constructor.
Qed.

Lemma config_ok kind cur updates c :
  is_dict updates → config_valid kind cur → _config kind cur updates = Ok c → config_valid kind c.
Proof.
  intros Hd [Hv Hr]. unfold _config. destruct updates as [| | | | | |ups]; try done. destruct (allowed_by_kind kind) as [allowed|] eqn:Ea; [|done].
  intros ([] & Hk%raise_if_ok & H)%rbind_ok. apply rbind_ok in H as ([] & Hf%raise_if_ok & H).
  apply Bool.negb_false_iff in Hk, Hf. cbv zeta in H. destruct Hv as [Hv1 Hv2]. unfold config_valid. rewrite Ea.
  destruct (str_eqb kind (u "render")) eqn:Er.
  - apply rbind_ok in H as (d & Hd'%from_mapping_ok & H). injection H as <-. apply str_eqb_eq in Er as ->.
    assert (allowed = ALLOWED_KEYS) as -> by (injection Ea as <-; reflexivity).
    split; [by apply display_members_valid|]. intros _. by rewrite from_members.
  - injection H as <-. split; [|done]. rewrite keys_in_elem in *. rewrite Forall_forall in *. rewrite forallb_forall in Hf. split.
    + intros kv [H|H]%merge_elem; auto.
    + intros kv [H|H]%merge_elem; [auto|]. unfold member_valid. rewrite <- (field_valid_value ups).
      * apply Hf. by apply list_elem_of_In.
      * destruct kv. by apply assoc_get_nodup.
Qed.

Lemma config_normal kind cur updates c : str_eqb kind (u "render") = true → _config kind cur updates = Ok c →
  ∃ d, from_mapping c = Ok d ∧ display_members d = c.
Proof.
  intros Er. unfold _config. destruct updates; try done. destruct (allowed_by_kind kind); [|done].
  intros ([] & _ & H)%rbind_ok. apply rbind_ok in H as ([] & _ & H). cbv zeta in H. rewrite Er in H.
  apply rbind_ok in H as (d & Hd%from_mapping_ok & H). injection H as <-. exists d. split; [by apply from_members|done].
Qed.

Lemma update_ok l m key payload l' :
  (∀ j, assoc_get (u "config") payload = Some j → is_dict j) → update l m key payload = Ok l' → table_ok l → table_ok l'.
Proof.
  intros Hd. unfold update. destruct (get_task l key) as [cur|] eqn:Eg; [|done].
  apply get_row_Some in Eg as [Hin Hkey].
  intros ([cron sem] & Hc & H)%rbind_ok. apply rbind_ok in H as (wd & Hw%weekdays_ok & H).
  apply rbind_ok in H as (text & _ & H). apply rbind_ok in H as (start & Hst%clock_ok & H).
  apply rbind_ok in H as (ws & Hws%optional_clock_ok & H). apply rbind_ok in H as (we & Hwe%optional_clock_ok & H).
  apply rbind_ok in H as (enabled & _ & H). apply rbind_ok in H as (config & Hcf & H).
  apply rbind_ok in H as (config' & Hcf' & H). apply rbind_ok in H as (next & Hn & H).
  apply rbind_ok in H as (timeout & Ht%bounded_ok & H). apply rbind_ok in H as (retries & Hr%bounded_ok & H).
  apply rbind_ok in H as (interval & Hi%bounded_ok & H). injection H as <-.
  intros Hok. assert (task_ok cur) as Hcur by (destruct Hok as [_ Hok]; rewrite Forall_forall in Hok; auto).
  assert (config_valid (t_kind cur) config) as Hv.
  { eapply config_ok; [|apply Hcur|exact Hcf]. unfold get_or_current. destruct (assoc_get (u "config") payload) as [j|] eqn:E; [by apply Hd|].
    constructor. }
  assert (config' = config) as ->.
  { destruct (str_eqb (t_kind cur) (u "render")) eqn:Er; [|by injection Hcf']. apply rbind_ok in Hcf' as (c & Hc' & [= <-]).
    destruct (config_normal _ _ _ _ Er Hcf) as (d & Hd' & <-). congruence. }
  apply table_ok_update; [done| |done]. intros r Hr' Ek _.
  assert (r = cur) as -> by (eapply keys_unique_inj; [apply Hok|done|done|congruence]).
  split; cbn; try done; [by eapply resolve_cron_ok; [apply Hcur|exact Hc]|]. intros ->.
  apply rbind_ok in Hn as (n & _ & [= <-]). by eexists.
Qed.

Lemma defaults_ok : Forall (λ t, task_ok (t <| t_next_run := Some (mk_stamp 0 0) |>)) TASK_DEFAULTS.
Proof.
  repeat constructor; try (vm_compute; congruence); try (left; split; vm_compute; reflexivity);
    try (vm_compute; reflexivity); try (intros _; by eexists).
Qed.

Lemma insert_defaults_ok m ds l r l' :
  Forall (λ t, task_ok (t <| t_next_run := Some (mk_stamp 0 0) |>)) ds → insert_defaults m ds l = (r, l') → table_ok l → table_ok l'.
Proof.
  intros Hds. revert l. induction Hds as [|t ds Ht _ IH]; intros l; cbn [insert_defaults]; [by intros [= _ <-]|].
  destruct (task_next t m) as [next|e]; [|by intros [= _ <-]]. intros H Hok. apply (IH _ H). clear H IH.
  unfold insert_default. destruct (has_key t_key (t_key t) l) eqn:Ek; [done|]. destruct Hok as [Hu Hok]. split.
  - by apply keys_unique_insert.
  - apply Forall_app. split; [done|]. constructor; [|done].
    eapply task_ok_moved; [|intros _; by eexists|exact Ht]. by destruct t.
Qed.

Lemma rebase_ok m ts l n l' : rebase_rows m ts l = Ok (n, l') → table_ok l → table_ok l'.
Proof.
  revert l n. induction ts as [|t ts IH]; intros l n; cbn [rebase_rows]; [by intros [= _ <-]|].
  intros ([k1 l1] & H1 & H)%rbind_ok. apply rbind_ok in H as ([k2 l2] & H2 & [= _ <-]). intros Hok. apply (IH _ _ H2). simpl.
  unfold rebase_row in H1. apply rbind_ok in H1 as (next & _ & H1). destruct (same_stamp _ _); [by injection H1 as _ <-|].
  injection H1 as _ <-. apply table_ok_cursor; [by intros []|intros r _; by eexists|done].
Qed.

(** ** Reachable tables *)

(** One transaction of the repository, with any clock and arguments. *)
Inductive schedule_step (l : schedule_table) : schedule_table → Prop :=
| step_defaults m r l' : ensure_defaults m l = (r, l') → schedule_step l l'
| step_update m key payload l' :
    (∀ j, assoc_get (u "config") payload = Some j → is_dict j) → update l m key payload = Ok l' → schedule_step l l'
| step_rebase m n l' : rebase_enabled_next_runs m l = Ok (n, l') → schedule_step l l'
| step_mark m t l' : mark_enqueued l m t = Ok l' → schedule_step l l'
| step_success m t occurrence l' : record_success l m t occurrence = Ok l' → schedule_step l l'
| step_outcome m t l' : record_terminal_outcome l m t = Ok l' → schedule_step l l'
| step_exhausted m t message l' : record_retry_exhausted l m t message = Ok l' → schedule_step l l'
| step_terminal m t message l' : record_terminal l m t message = Ok l' → schedule_step l l'
| step_failure m t message : schedule_step l (record_failure l m t message).

Lemma schedule_step_ok l l' : schedule_step l l' → table_ok l → table_ok l'.
Proof.
  intros [m r l2 H|m key payload l2 Hd H|m n l2 H|m t l2 H|m t o l2 H|m t l2 H|m t msg l2 H|m t msg l2 H|m t msg] Hok.
  - eapply insert_defaults_ok; [apply defaults_ok|exact H|done].
  - by eapply update_ok.
  - by eapply rebase_ok.
  - apply rbind_ok in H as (n & _ & [= <-]). apply table_ok_cursor; [by intros []|intros r _; by eexists|done].
  - apply rbind_ok in H as (n & _ & [= <-]). apply table_ok_cursor; [by intros []|intros r [x Hx]|done]. simpl.
    destruct (same_stamp _ _); [by eexists|by exists x].
  - apply rbind_ok in H as (n & _ & [= <-]). apply table_ok_cursor; [by intros []|intros r _; by eexists|done].
  - apply rbind_ok in H as (n & _ & [= <-]). apply table_ok_cursor; [by intros []|intros r _; by eexists|done].
  - apply rbind_ok in H as (n & _ & [= <-]). apply table_ok_cursor; [by intros []|intros r _; by eexists|done].
  - apply table_ok_cursor; [by intros []|intros r _; by eexists|done].
Qed.

(** The scheduled tasks stay within the limits of the settings: whatever
    is edited and however jobs end, from an empty table every row keeps a
    unique key, an accepted Cron expression, valid weekdays, clocks and
    windows, bounded timeout, retries and interval, a valid configuration for
    its kind, and every enabled task keeps a next run. *)
Theorem scheduled_tasks_valid l : rtc schedule_step [] l → table_ok l.
Proof.
  intros H. assert (table_ok []) as H0 by (split; constructor). revert H0. induction H as [|l1 l2 l3 Hs _ IH]; [done|].
  intros H1. apply IH. by eapply schedule_step_ok.
Qed.

Lemma scheduled_tasks_valid_witness :
  table_ok (snd (ensure_defaults (mk_moment (fixed_zone 0) 0 0) [])) ∧
  map t_key (snd (ensure_defaults (mk_moment (fixed_zone 0) 0 0) [])) =
  map u ["incremental_scan"; "full_reconcile"; "display_prepare"; "ai_schedule"; "cache_cleanup"]%string.
Proof.
  split; [|vm_compute; reflexivity].
  apply scheduled_tasks_valid, rtc_once. eapply step_defaults. apply surjective_pairing.
Defined.

(** ** The cursor *)

Lemma task_next_after t m n : task_next t m = Ok n → m_at m < st_at n.
Proof.
  unfold task_next, next_of. intros (x & Hx & [= <-])%rbind_ok. unfold of_cron in Hx.
  destruct (_next_run _ _ _ _ _) eqn:E; [|done]. injection Hx as <-. by apply next_run_after in E.
Qed.

Lemma same_stamp_eq a o : same_stamp a (Some o) = true ↔ a = Some o.
Proof.
  destruct a as [[x y]|], o as [x' y']; simpl; [|done]. unfold stamp_eqb. simpl. rewrite Bool.andb_true_iff, !Z.eqb_eq. split; [by intros [-> ->]|by intros [= -> ->]].
Qed.

Lemma repaired_next_future t m occurrence n : repaired_next t m occurrence = Ok n → m_at m < st_at n.
Proof.
  unfold repaired_next. intros (x & Hx & H)%rbind_ok. destruct (Z.leb_spec (st_at x) (m_at m)); [by apply task_next_after in H|].
  by injection H as <-.
Qed.

(** A finished job cannot move a cursor that is not its own: recording the
    success of an occurrence moves next_run only where it still shows that
    occurrence, and then to an instant in the future, which is the run after
    the occurrence unless that one is already past; a cursor that has moved on
    or was edited, and every other task, is left alone. *)
Theorem success_moves_only_its_cursor l m t occurrence l' r :
  record_success l m t occurrence = Ok l' → r ∈ l →
  ∃ r', r' ∈ l' ∧ settings_of r' = settings_of r ∧
    (t_key r ≠ t_key t → r' = r) ∧
    (t_next_run r ≠ Some occurrence → t_next_run r' = t_next_run r) ∧
    (t_key r = t_key t → t_next_run r = Some occurrence →
     ∃ n, t_next_run r' = Some n ∧ m_at m < st_at n ∧
       ∀ n0, task_next t (mk_moment (m_zone m) (st_at occurrence) (stamp_at m)) = Ok n0 → m_at m < st_at n0 → n = n0).
Proof.
  unfold record_success. intros (n & Hn & [= <-])%rbind_ok Hr.
  set (f := set_success m occurrence n).
  exists (if by_key t_key (t_key t) r then f r else r). split; [apply update_where_elem; by exists r|].
  assert (settings_of (f r) = settings_of r ∧ t_next_run (f r) = if same_stamp (t_next_run r) (Some occurrence) then Some n else t_next_run r)
    as [Es En] by (by destruct r).
  assert (same_stamp (t_next_run r) (Some occurrence) = true ↔ t_next_run r = Some occurrence) as Hsame by apply same_stamp_eq.
  unfold by_key. destruct (str_eqb (t_key r) (t_key t)) eqn:Ek; bprop; (split; [done|]).
  - split; [done|]. rewrite En. split.
    + intros Hne. destruct (same_stamp _ _); [by rewrite <- Hsame in Hne|done].
    + intros _ Ho. rewrite (proj2 Hsame Ho). exists n. split; [done|]. split; [by eapply repaired_next_future|].
      intros n0 H0 Hlt. unfold repaired_next in Hn. rewrite H0 in Hn. cbn [rbind] in Hn.
      assert ((st_at n0 <=? m_at m) = false) as E by (apply Z.leb_gt; lia). rewrite E in Hn. by injection Hn.
  - split; [done|]. split; [done|]. done.
Qed.

Lemma success_moves_only_its_cursor_witness :
  let z := fixed_zone 0 in
  let t := mk_task (u "cache_cleanup") [] (u "cleanup") true (u "*/5 * * * *") [] (u "04:30") None None 3600 1 900
             None None (Some (iso z (5 * minute))) None [] (u "cronie_v2") 0 0 in
  ∃ r', r' ∈ [set_success (mk_moment z (6 * minute) 7) (iso z (5 * minute)) (iso z (10 * minute)) t] ∧ settings_of r' = settings_of t ∧
    (t_key t ≠ t_key t → r' = t) ∧
    (t_next_run t ≠ Some (iso z (5 * minute)) → t_next_run r' = t_next_run t) ∧
    (t_key t = t_key t → t_next_run t = Some (iso z (5 * minute)) →
     ∃ n, t_next_run r' = Some n ∧ 6 * minute < st_at n ∧
       ∀ n0, task_next t (mk_moment z (5 * minute) 7) = Ok n0 → 6 * minute < st_at n0 → n = n0).
Proof.
  intros z t. apply (success_moves_only_its_cursor [t] (mk_moment z (6 * minute) 7) t (iso z (5 * minute))).
  - vm_compute. reflexivity.
  - by apply list_elem_of_singleton.
Defined.
