(* ===== verification/Scheduler.v ===== *)
(** * The scheduler's tick (workers/scheduler.py)

    The part of [SchedulerRunner.tick] that turns due tasks into jobs:
    [_enqueue_task], [_record_schedule_exception], [_within_window] and the loop
    over [due], on the tables of [Schedules] and the queue of [JobQueue].
    Effects survive exceptions, so a step returns the state beside its result.

    Arguments: the load of the machine, the photo directory, the seasonal and
    the analysis job services, [str()] of a JSON value that is not a text, and
    the text of an exception.  Logging is left out. *)

From S2P Require Import Prelude PyStr PyFloat Json Sql FailurePolicy Store Reservations JobQueue Calendar OfflineSchedule Schema Cron Schedules.
Local Open Scope Z_scope.

Record sched_state := mk_sched_state { tasks : schedule_table; qdb : db }.

(** The exceptions of the callees without a code of their own. *)
Definition plain_error : failure := FExc None None false.
Definition InvalidJobTransition : failure := FExc (Some (u "JOB-001")) None false.
Definition of_sched (e : sched_error) : failure :=
  match e with BadDisplayConfig => JobConfigurationError | _ => plain_error end.

(** What one task sees of the outside. *)
Record task_world := mk_task_world {
  tw_job : str; tw_item : str; tw_clock : clock; tw_start_clock : clock;
  tw_high_load : bool; tw_photo_dir : str; tw_py_str : json → str; tw_text : failure → str;
  tw_seasonal : str → option (result failure unit);        (** per strategy, in mode seasonal_ai: the outcome of [ensure] *)
  tw_analysis : str → db → result failure (str * db) }.    (** [create_analysis_job], per strategy *)

Section tick.
Context (m : moment) (w : task_world).

Definition sched_step : Type := result failure unit * sched_state.
Definition lift_tasks (r : result sched_error schedule_table) (s : sched_state) : sched_step :=
  match r with Ok l => (Ok tt, mk_sched_state l (qdb s)) | Raise e => (Raise (of_sched e), s) end.

(** [now.strftime("%H:%M")] *)
Definition clock_text (n : Z) : str := pad2 (wall_hour n) ++ [58] ++ pad2 (wall_min n).
Definition _within_window (t : task) : bool :=
  match t_window_start t, t_window_end t with
  | Some ((_ :: _) as start), Some ((_ :: _) as stop) =>
      let current := clock_text (wall (m_zone m) (m_at m)) in
      if str_leb start stop then str_leb start current && str_leb current stop
      else str_leb start current || str_leb current stop
  | _, _ => true
  end.

(** ISO text of a stamp. *)
Definition pad4 (n : Z) : str := pad2 (n / 100) ++ pad2 (n mod 100).
Definition pad6 (n : Z) : str := pad2 (n / 10000) ++ pad4 (n mod 10000).
Definition clock_span (n : Z) : str :=
  pad2 (n / 3600) ++ [58] ++ pad2 (n / 60 mod 60) ++ (if n mod 60 =? 0 then [] else [58] ++ pad2 (n mod 60)).
Definition iso_text (s : stamp) : str :=
  let n := st_shown s / minute in
  let c := wall_date n in
  let micros := st_shown s mod minute in
  let offset := (st_shown s - st_at s) / second in
  pad4 (d_year c) ++ [45] ++ pad2 (d_month c) ++ [45] ++ pad2 (d_day c) ++ [84]
  ++ clock_text n ++ [58] ++ pad2 (micros / second)
  ++ (if micros mod second =? 0 then [] else [46] ++ pad6 (micros mod second))
  ++ (if offset <? 0 then 45 :: clock_span (- offset) else 43 :: clock_span offset).

(** Members of the task's configuration. *)
Definition member_text (c : list (str * json)) (key : string) (dflt : str) : str :=
  match assoc_get (u key) c with
  | None => dflt | Some (JStr s) => s | Some j => tw_py_str w j
  end.
Definition member_true (c : list (str * json)) (key : string) (dflt : bool) : bool :=
  match assoc_get (u key) c with None => dflt | Some j => truthy j end.
(** An integer that [_config] has validated. *)
Definition member_int (c : list (str * json)) (key : string) (dflt : Z) : result failure Z :=
  match assoc_get (u key) c with None => Ok dflt | Some (JInt n) => Ok n | Some _ => Raise plain_error end.

Definition common (t : task) (scheduled : bool) (trigger : str) : list (str * json) :=
  [(u "timeout_seconds", JInt (t_timeout t)); (u "trigger_source", JStr trigger); (u "max_retries", JInt (t_retry_count t));
   (u "max_attempts", JInt (t_retry_count t + 1)); (u "retry_interval_seconds", JInt (t_retry_interval t))]
  ++ (if scheduled then
        [(u "scheduled_task", JStr (t_key t));
         (u "scheduled_occurrence_at", JStr (match t_next_run t with Some s => iso_text s | None => u "None" end))]
      else []).

Definition dedupe_key (t : task) : str := u "scheduled:" ++ t_key t.

(** The job of a maintenance task: name, priority and settings. *)
Definition maintenance_of (t : task) (scheduled : bool) (trigger : str) : result failure maint_args :=
  let c := t_config t in
  let base := common t scheduled trigger in
  let args kind priority settings :=
    mk_maint (u kind) (u "排程：" ++ t_name t) (JObj settings) None (Some priority)
      (if scheduled then Some (dedupe_key t) else None) None in
  if str_eqb (t_kind t) (u "scan") then
    let mode := member_text c "mode" (u "incremental") in
    let* batch := member_int c "batch_size" 500 in
    let* safe := member_int c "missing_safe_percent" 10 in
    let root := if member_true c "root_path" false then member_text c "root_path" [] else tw_photo_dir w in
    Ok (args "scan"%string (if str_eqb mode (u "full") then 5 else 4)
          (merge base
             [(u "root_path", JStr root); (u "library_name", JStr (member_text c "library_name" (u "主要照片庫")));
              (u "mode", JStr mode); (u "build_thumbnails", JBool (member_true c "build_thumbnails" true));
              (u "trigger_source", JStr trigger); (u "disk_batch_size", JInt batch);
              (u "missing_threshold_percent", JFloat (f64_of_Z safe))]))
  else if str_eqb (t_kind t) (u "render") then
    Ok (args "render"%string 2 (merge base [(u "photo_ids", JList []); (u "display_prepare", JObj c)]))
  else Ok (args "cleanup"%string 6 (merge base c)).

Definition create_maintenance_job (t : task) (scheduled : bool) (trigger : str) (d : db) : result failure (str * db) :=
  let* a := maintenance_of t scheduled trigger in
  match create_maintenance d (tw_clock w) (tw_job w) (tw_item w) None a with
  | Ok (Some id, d') => Ok (id, d')
  | Ok (None, _) => Raise plain_error
  | Raise _ => Raise plain_error
  end.

(** [JobService.start] *)
Definition start_job (job_id : str) (d : db) : result failure unit * db :=
  match transition d (tw_start_clock w) job_id [JPending] JRunning (u "started") with
  | Ok (true, d') => (Ok tt, d')
  | Ok (false, d') => (Raise InvalidJobTransition, d')
  | Raise _ => (Raise plain_error, d)
  end.

(** Start the new job and move the cursor. *)
Definition launch (t : task) (scheduled : bool) (job_id : str) (s : sched_state) : sched_step :=
  let go s := if scheduled then lift_tasks (mark_enqueued (tasks s) m t) s else (Ok tt, s) in
  match get (qdb s) job_id with
  | None => (Raise plain_error, s)
  | Some j =>
      if bool_decide (j_status j = JPending) then
        match start_job job_id (qdb s) with
        | (Ok _, d') => go (mk_sched_state (tasks s) d')
        | (Raise e, d') => (Raise e, mk_sched_state (tasks s) d')
        end
      else go s
  end.

Definition _enqueue_task (t : task) (force : bool) (trigger : str) (s : sched_state) : sched_step :=
  let scheduled := str_eqb trigger (u "scheduler") in
  let c := t_config t in
  let strategy := member_text c "strategy" (u "single") in
  let scheduled_at := match t_next_run t with Some x => st_at x | None => m_at m end in
  let postpone message := (Ok tt, mk_sched_state (record_failure (tasks s) m t message) (qdb s)) in
  let made r := match r with
                | Ok (id, d') => launch t scheduled id (mk_sched_state (tasks s) d')
                | Raise e => (Raise e, s)
                end in
  if negb force && negb (_within_window t) then postpone (u "目前不在允許執行時段，已延後")
  else if negb force && negb (member_true c "catch_up" true) && (300 * second <? m_at m - scheduled_at)
  then lift_tasks (mark_enqueued (tasks s) m t) s
  else if negb force && member_true c "delay_high_load" false && tw_high_load w
  then postpone (u "NAS 目前負載偏高，已延後執行")
  else if str_eqb (t_kind t) (u "analysis") then
    if match assoc_get (u "mode") c with Some (JStr x) => str_eqb x (u "disabled") | _ => false end && negb force
    then lift_tasks (mark_enqueued (tasks s) m t) s
    else match tw_seasonal w strategy with
         | Some (Raise e) => (Raise e, s)
         | Some (Ok _) => if scheduled then lift_tasks (mark_enqueued (tasks s) m t) s else (Ok tt, s)
         | None => made (tw_analysis w strategy (qdb s))
         end
  else made (create_maintenance_job t scheduled trigger (qdb s)).

(** [_record_schedule_exception] can raise itself: then the tick ends there. *)
Definition _record_schedule_exception (t : task) (e : failure) (s : sched_state) : sched_step :=
  let message := take 1000 (tw_text w e) in
  match classify_failure e with
  | TERMINAL_NO_RETRY | STALE_RECOVERY => lift_tasks (record_terminal (tasks s) m t message) s
  | RETRYABLE => (Ok tt, mk_sched_state (record_failure (tasks s) m t message) (qdb s))
  end.

Definition guarded (t : task) (r : sched_step) : sched_step :=
  match r with (Ok _, s) => (Ok tt, s) | (Raise e, s) => _record_schedule_exception t e s end.

Definition live_again : list job_status := [JRunning; JPreparing; JPausing; JRetrying].

(** One task of the loop. *)
Definition tick_task (t : task) (s : sched_state) : sched_step :=
  match active_dedupe_job (qdb s) (dedupe_key t) with
  | Some j =>
      let go s := guarded t (lift_tasks (mark_enqueued (tasks s) m t) s) in
      if bool_decide (j_status j = JPending) then
        match start_job (j_id j) (qdb s) with
        | (Ok _, d') => go (mk_sched_state (tasks s) d')
        | (Raise e, d') =>
            let s' := mk_sched_state (tasks s) d' in
            match get d' (j_id j) with
            | Some cur => if jstatus_in live_again (j_status cur) then go s' else _record_schedule_exception t e s'
            | None => _record_schedule_exception t e s'
            end
        end
      else go s
  | None => guarded t (_enqueue_task t false (u "scheduler") s)
  end.
End tick.

(** The loop: the exception that ends it early, the tables, and the tasks it
    has come to. *)
Fixpoint tick_tasks (m : moment) (worlds : nat → task_world) (k : nat) (ts : list task) (s : sched_state)
  : option failure * sched_state * list task :=
  match ts with
  | [] => (None, s, [])
  | t :: ts' =>
      match tick_task m (worlds k) t s with
      | (Ok _, s') => let '(r, s'', done) := tick_tasks m worlds (S k) ts' s' in (r, s'', t :: done)
      | (Raise e, s') => (Some e, s', [t])
      end
  end.
Definition tick_due (m : moment) (worlds : nat → task_world) (s : sched_state) : option failure * sched_state * list task :=
  tick_tasks m worlds 0 (due (tasks s) (m_at m)) s.
