(* ===== verification/SchedulerProps.v ===== *)
(** * Theorems on the scheduler's tick

    Every due task is reached and served in one tick, whatever its job does,
    and a task whose job is still in flight is never started twice.  The
    examples at the end show what an accepted Cron expression without a next
    run does to the tick. *)

From S2P Require Import Prelude PyStr PyFloat Json Sql FailurePolicy Store Reservations JobQueue JobQueueWf Calendar OfflineSchedule Schema Cron Schedules SchedulesProps Scheduler.
Local Open Scope Z_scope.

(** ** Serving one task *)

(** [r'] is the row [r] with its settings and with a cursor past now: the next
    run of [t], or its retry. *)
Definition set_ahead (m : moment) (t r r' : task) : Prop :=
  settings_of r' = settings_of r ∧
  ∃ n, t_next_run r' = Some n ∧ m_at m < st_at n ∧ (task_next t m = Ok n ∨ n = plus_wall m (t_retry_interval t * second)).

(** [l'] is [l] with the cursor of [t] moved past now. *)
Definition moved (m : moment) (t : task) (l l' : schedule_table) : Prop :=
  ∃ f, l' = update_task (t_key t) f l ∧ ∀ r, set_ahead m t r (f r).

(** A task that can be served: it has a next run, and the retry lies ahead. *)
Definition servable (m : moment) (t : task) : Prop :=
  is_ok (task_next t m) = true ∧ m_at m < st_at (plus_wall m (t_retry_interval t * second)).

(** A step either moves the cursor or raises and leaves the table alone. *)
Definition serves (m : moment) (t : task) (s : sched_state) (r : sched_step) : Prop :=
  match r with
  | (Ok _, s') => moved m t (tasks s) (tasks s')
  | (Raise _, s') => tasks s' = tasks s
  end.

Lemma mark_moved l m t l' : mark_enqueued l m t = Ok l' → moved m t l l'.
Proof.
  unfold mark_enqueued. intros (n & Hn & [= <-])%rbind_ok. eexists. split; [done|]. intros r. split; [by destruct r|].
  exists n. split_and!; [by destruct r|by eapply task_next_after|by left].
Qed.

Lemma mark_serves m t s s0 : tasks s = tasks s0 → serves m t s0 (lift_tasks (mark_enqueued (tasks s) m t) s).
Proof.
  intros E. unfold lift_tasks. destruct (mark_enqueued (tasks s) m t) eqn:Em; [|done]. simpl. rewrite <- E. by eapply mark_moved.
Qed.

Lemma failure_moved m t l message : servable m t → moved m t l (record_failure l m t message).
Proof.
  intros [_ Hr]. eexists. split; [done|]. intros r. split; [by destruct r|]. eexists. split_and!; [by destruct r|done|by right].
Qed.

Lemma terminal_moved m t l message : servable m t → ∃ l', record_terminal l m t message = Ok l' ∧ moved m t l l'.
Proof.
  intros [Hn _]. unfold record_terminal, record_retry_exhausted. destruct (task_next t m) as [n|] eqn:E; [|done].
  cbn [rbind]. eexists. split; [done|]. eexists. split; [done|]. intros r. split; [by destruct r|].
  exists n. split_and!; [by destruct r|by eapply task_next_after|by left].
Qed.

Lemma mark_ok m t l : servable m t → ∃ l', mark_enqueued l m t = Ok l' ∧ moved m t l l'.
Proof.
  intros [Hn _]. destruct (mark_enqueued l m t) eqn:E; [eexists; split; [done|by apply mark_moved]|].
  unfold mark_enqueued in E. by destruct (task_next t m).
Qed.

Lemma exception_served m w t e s : servable m t →
  ∃ s', _record_schedule_exception m w t e s = (Ok tt, s') ∧ moved m t (tasks s) (tasks s') ∧ qdb s' = qdb s.
Proof.
  intros Hs. unfold _record_schedule_exception.
  destruct (terminal_moved m t (tasks s) (take 1000 (tw_text w e)) Hs) as (l & El & Hl).
  destruct (classify_failure e); rewrite ?El; eexists; (split; [done|]); (split; [|done]); [done| |done].
  by apply failure_moved.
Qed.

Lemma guarded_served m w t s r : servable m t → serves m t s r →
  ∃ s', guarded m w t r = (Ok tt, s') ∧ moved m t (tasks s) (tasks s').
Proof.
  intros Hs. destruct r as [[[]|e] s1]; simpl; intros H; [by exists s1|].
  destruct (exception_served m w t e s1 Hs) as (s' & E & Hm & _). exists s'. by rewrite <- H.
Qed.

Lemma launch_serves m w t id s s0 : tasks s = tasks s0 → serves m t s0 (launch m w t true id s).
Proof.
  intros E. unfold launch. destruct (get _ _) as [j|]; [|done]. destruct (bool_decide _); [|by apply mark_serves].
  destruct (start_job w id (qdb s)) as [[]]; [by apply (mark_serves m t (mk_sched_state (tasks s) _))|done].
Qed.

Lemma enqueue_serves m w t s : servable m t → serves m t s (_enqueue_task m w t false (u "scheduler") s).
Proof.
  intros Hs. unfold _enqueue_task. rewrite str_eqb_refl. cbn [negb andb].
  destruct (negb (_within_window m t)); [by apply failure_moved|].
  destruct (negb _ && _); [by apply mark_serves|]. destruct (_ && tw_high_load w); [by apply failure_moved|].
  destruct (str_eqb (t_kind t) (u "analysis")).
  - destruct (_ && true); [by apply mark_serves|]. destruct (tw_seasonal w _) as [[[]|]|]; [by apply mark_serves|done|].
    destruct (tw_analysis w _ _) as [[id d]|]; [by apply launch_serves|done].
  - destruct (create_maintenance_job w t true _ _) as [[id d]|]; [by apply launch_serves|done].
Qed.

Lemma tick_task_served m w t s : servable m t → ∃ s', tick_task m w t s = (Ok tt, s') ∧ moved m t (tasks s) (tasks s').
Proof.
  intros Hs. unfold tick_task. destruct (active_dedupe_job _ _) as [j|]; [|by apply guarded_served, enqueue_serves].
  assert (∀ s1, tasks s1 = tasks s → ∃ s', guarded m w t (lift_tasks (mark_enqueued (tasks s1) m t) s1) = (Ok tt, s')
                                         ∧ moved m t (tasks s) (tasks s')) as Hgo.
  { intros s1 E. by apply guarded_served, mark_serves. }
  destruct (bool_decide _); [|by apply Hgo]. destruct (start_job w (j_id j) (qdb s)) as [[]]; [by apply Hgo|].
  assert (∀ s1 x, tasks s1 = tasks s → ∃ s', _record_schedule_exception m w t x s1 = (Ok tt, s') ∧ moved m t (tasks s) (tasks s')) as Hx.
  { intros s1 x E. destruct (exception_served m w t x s1 Hs) as (s' & E' & Hm & _). exists s'. by rewrite <- E. }
  destruct (get _ _); [|by apply Hx]. destruct (jstatus_in _ _); [by apply Hgo|by apply Hx].
Qed.

(** ** The loop *)

(** What the loop over [ts] does to a row. *)
Definition reached (m : moment) (ts : list task) (r r' : task) : Prop :=
  (∃ t, t ∈ ts ∧ t_key t = t_key r ∧ set_ahead m t r r') ∨ ((t_key r ∉ map t_key ts) ∧ r' = r).

Lemma moved_rows m t l l' : moved m t l l' → Forall2 (reached m [t]) l l'.
Proof.
  intros (f & -> & Hf). unfold update_task, update_where. induction l as [|r l IH]; [constructor|]. constructor; [|exact IH].
  unfold by_key. destruct (str_eqb _ _) eqn:E.
  - left. exists t. apply str_eqb_eq in E. split_and!; [by left|done|apply Hf].
  - right. apply str_eqb_neq in E. cbn [map]. rewrite list_elem_of_singleton. done.
Qed.

Lemma reached_cons m t ts r r1 r2 :
  t_key t ∉ map t_key ts → reached m [t] r r1 → reached m ts r1 r2 → reached m (t :: ts) r r2.
Proof.
  intros Hnd H1 H2. destruct H1 as [(x & Hx%list_elem_of_singleton & Ek & Hs)|[Hk ->]].
  - subst x. assert (t_key r1 = t_key r) as Ek1 by (destruct Hs as [[=] _]; done). destruct H2 as [(y & Hy & Ey & _)|[_ ->]].
    + destruct Hnd. rewrite Ek, <- Ek1, <- Ey. by apply list_elem_of_fmap_2.
    + left. exists t. split_and!; [by left|done|done].
  - destruct H2 as [(y & Hy & Ey & Hs)|[Hk2 ->]]; [left|right].
    + exists y. split_and!; [by right|done|done].
    + split; [|done]. cbn [map] in *. rewrite elem_of_cons. rewrite list_elem_of_singleton in Hk. by intros [|].
Qed.

Lemma tick_tasks_served m worlds k ts s : Forall (servable m) ts → NoDup (map t_key ts) →
  ∃ s', tick_tasks m worlds k ts s = (None, s', ts) ∧ Forall2 (reached m ts) (tasks s) (tasks s').
Proof.
  intros Hts. revert k s. induction Hts as [|t ts Ht _ IH]; intros k s Hnd; cbn [tick_tasks].
  - exists s. split; [done|]. apply Forall2_same_length_lookup_2; [done|]. intros i r r' H1 H2. right. split; [apply not_elem_of_nil|congruence].
  - cbn [map] in Hnd. apply NoDup_cons in Hnd as [Hn Hnd].
    destruct (tick_task_served m (worlds k) t s Ht) as (s1 & -> & H1%moved_rows).
    destruct (IH (S k) s1 Hnd) as (s2 & -> & H2). exists s2. split; [done|].
    revert H2. generalize (tasks s2). induction H1 as [|r r1 l l1 Hr _ IHl]; intros l2 H2; inversion H2; subst; [constructor|].
    constructor; [by eapply reached_cons|by apply IHl].
Qed.

(** The effect of one tick on a row, by whether it was due. *)
Definition served (m : moment) (r r' : task) : Prop :=
  if is_due (m_at m) r then set_ahead m r r r' else r' = r.

Lemma reached_served m l r r' : keys_unique t_key l → r ∈ l → reached m (due l (m_at m)) r r' → served m r r'.
Proof.
  intros Hu Hr. unfold served.
  assert (∀ t, t ∈ due l (m_at m) ↔ t ∈ l ∧ is_due (m_at m) t = true) as Hdue by (intros t; unfold due; rewrite sort_by_elem; apply filter_elem).
  intros [(t & [Ht Hd]%Hdue & Ek & Hs)|[Hk ->]].
  - rewrite (keys_unique_inj t_key l t r Hu Ht Hr Ek) in *. by rewrite Hd.
  - destruct (is_due (m_at m) r) eqn:E; [|done]. destruct Hk. apply list_elem_of_fmap_2, Hdue. done.
Qed.

Lemma served_not_due m r r' : served m r r' → is_due (m_at m) r' = false.
Proof.
  unfold served. destruct (is_due (m_at m) r) eqn:E; [|by intros ->]. intros (_ & n & En & Hn & _). unfold is_due. rewrite En.
  apply Bool.andb_false_iff. right. apply Z.leb_gt. lia.
Qed.

Lemma due_keys l now : keys_unique t_key l → NoDup (map t_key (due l now)).
Proof.
  unfold keys_unique, due. intros H. eapply NoDup_Permutation_proper; [apply fmap_Permutation, sort_by_perm|].
  eapply sublist_NoDup; [exact H|]. apply fmap_sublist. clear H. induction l as [|r l IH]; [constructor|]. cbn [List.filter].
  destruct (is_due now r); by constructor.
Qed.

(** In a zone without clock changes a retry lies ahead of now. *)
Lemma retry_ahead m offset t : m_zone m = fixed_zone offset → task_ok t → m_at m < st_at (plus_wall m (t_retry_interval t * second)).
Proof. intros E []. unfold plus_wall. rewrite E. simpl. unfold second. lia. Qed.

(** C34. One tick serves every due task and touches no other.  In a zone
    without clock changes, when every due task's Cron expression has a next
    run, the loop comes to all due tasks in order, whatever jobs, load, windows
    and exceptions it meets on the way.  Afterwards the table has the same rows
    in the same places: a row that was due keeps its settings and its cursor
    lies past now, at the task's own next run or at its retry; a row that was
    not due is exactly as before.  So no task is due any more. *)
Theorem tick_serves_every_due_task m offset worlds s :
  m_zone m = fixed_zone offset → table_ok (tasks s) →
  (∀ t, t ∈ due (tasks s) (m_at m) → is_ok (task_next t m) = true) →
  ∃ s', tick_due m worlds s = (None, s', due (tasks s) (m_at m)) ∧
        Forall2 (served m) (tasks s) (tasks s') ∧ due (tasks s') (m_at m) = [].
Proof.
  intros Ez [Hu Hok] Hn.
  assert (Forall (servable m) (due (tasks s) (m_at m))) as Hs.
  { apply Forall_forall. intros t Ht. split; [by apply Hn|]. eapply retry_ahead; [done|].
    rewrite Forall_forall in Hok. apply Hok. unfold due in Ht. by apply sort_by_elem, filter_elem in Ht as [Ht _]. }
  destruct (tick_tasks_served m worlds 0 _ s Hs (due_keys _ _ Hu)) as (s' & E & H). exists s'. split; [done|].
  assert (Forall2 (served m) (tasks s) (tasks s')) as Hserved.
  { apply Forall2_same_length_lookup_2; [by eapply Forall2_length|]. intros i r r' Hr Hr'.
    eapply reached_served; [exact Hu|by eapply list_elem_of_lookup_2|]. by eapply Forall2_lookup_lr. }
  split; [done|]. unfold due. rewrite filter_drop; [done|]. intros r' Hr'. apply list_elem_of_lookup_1 in Hr' as (i & Hi).
  destruct (Forall2_lookup_r _ _ _ _ _ Hserved Hi) as (r & _ & Hrr). by eapply served_not_due.
Qed.

(** ** No second job while one is in flight *)

Lemma start_job_rows w id d r d' : start_job w id d = (r, d') → map j_id (jobs d') = map j_id (jobs d) ∧ items d' = items d.
Proof.
  unfold start_job. destruct (transition _ _ _ _ _ _) as [[b d1]|] eqn:E; [|by intros [= _ <-]].
  assert (map j_id (jobs d1) = map j_id (jobs d) ∧ items d1 = items d) as H.
  { unfold transition in E. apply rbind_ok in E as (d2 & [_ ->]%put_jobs_ok & E).
    assert (jobs d1 = update_where (λ j, by_id id j && jstatus_in [JPending] (j_status j)) (set_status_heartbeat JRunning (now (tw_start_clock w))) (jobs d)
            ∧ items d1 = items d) as [-> ->] by (destruct (existsb _ _); by injection E as _ <-).
    split; [|done]. apply update_where_map. by intros []. }
  destruct b; by intros [= _ <-].
Qed.

Lemma lift_tasks_db r s : qdb (snd (lift_tasks r s)) = qdb s.
Proof. by destruct r. Qed.

Lemma exception_db m w t e s : qdb (snd (_record_schedule_exception m w t e s)) = qdb s.
Proof. unfold _record_schedule_exception. destruct (classify_failure e); by rewrite ?lift_tasks_db. Qed.

Lemma guarded_db m w t r : qdb (snd (guarded m w t r)) = qdb (snd r).
Proof. destruct r as [[[]|e] s]; [done|apply exception_db]. Qed.

(** A scheduled task never has two jobs at once: while a job with the
    task's key is in flight, a tick adds neither a job nor an item for it; it
    starts that job if it was left pending and otherwise only moves the task's
    cursor or records the failure. *)
Theorem in_flight_task_not_doubled m w t s j :
  active_dedupe_job (qdb s) (dedupe_key t) = Some j →
  let s' := snd (tick_task m w t s) in
  map j_id (jobs (qdb s')) = map j_id (jobs (qdb s)) ∧ items (qdb s') = items (qdb s) ∧
  (j_status j ≠ JPending → qdb s' = qdb s).
Proof.
  intros Ej. unfold tick_task. rewrite Ej. cbv zeta. case_bool_decide as Ep.
  - destruct (start_job w (j_id j) (qdb s)) as [r d] eqn:Es. apply start_job_rows in Es as [E1 E2].
    destruct r; rewrite ?guarded_db, ?lift_tasks_db; [done|].
    destruct (get d (j_id j)); [|by rewrite exception_db]. destruct (jstatus_in _ _); by rewrite ?guarded_db, ?lift_tasks_db, ?exception_db.
  - by rewrite guarded_db, lift_tasks_db.
Qed.

(** ** Examples *)

Definition demo_world : task_world :=
  mk_task_world (u "job-1") (u "item-1") (mk_clock 0 0) (mk_clock 0 0) false (u "/photos") (λ _, []) (λ _, u "error") (λ _, None)
    (λ _ _, Raise plain_error).
Definition demo_task (key cron : string) (start stop : option str) : task :=
  mk_task (u key) [] (u "cleanup") true (u cron) [] (u "04:30") start stop 3600 1 900
    None None (Some (iso (fixed_zone 0) 0)) None [] (u "cronie_v2") 0 0.
Definition demo_queue_db : db := mk_db [] [] [] [] [] [] [] [] [] false None None [] [] [].
Definition demo_later : task := (demo_task "weekly" "0 3 * * 1" None None) <| t_next_run := Some (iso (fixed_zone 0) (3600 * second)) |>.
Definition demo_tasks : schedule_table :=
  [demo_task "cache_cleanup" "*/5 * * * *" None None; demo_later; demo_task "night" "0 1 * * *" (Some (u "01:00")) (Some (u "02:00"))].
Definition demo_moment : moment := mk_moment (fixed_zone 0) 1 0.

Lemma demo_tasks_ok : table_ok demo_tasks.
Proof.
  split; [by apply nodupb_spec; vm_compute|].
  repeat constructor; try (vm_compute; congruence); try (left; split; vm_compute; reflexivity); try (vm_compute; reflexivity);
    try (intros _; by eexists).
Qed.

(** Two of three tasks are due: one gets its job, the other is outside its
    window, and the third is left alone. *)
Lemma tick_serves_every_due_task_witness :
  ∃ s' r1 r3, tick_due demo_moment (λ _, demo_world) (mk_sched_state demo_tasks demo_queue_db) = (None, s', due demo_tasks 1) ∧
    map t_key (due demo_tasks 1) = [u "cache_cleanup"; u "night"] ∧ tasks s' = [r1; demo_later; r3] ∧ due (tasks s') 1 = [].
Proof.
  destruct (tick_serves_every_due_task demo_moment 0 (λ _, demo_world) (mk_sched_state demo_tasks demo_queue_db)) as (s' & E & H & Hd).
  - reflexivity.
  - apply demo_tasks_ok.
  - intros t Ht. unfold due in Ht. apply sort_by_elem, filter_elem in Ht as [Ht _]. cbn [tasks] in Ht. unfold demo_tasks in Ht.
    rewrite !elem_of_cons in Ht. destruct Ht as [->|[->|[->|Ht]]]; [vm_compute; reflexivity..|]. by apply elem_of_nil in Ht.
  - cbn [tasks] in *. unfold demo_tasks in H. apply Forall2_cons_inv_l in H as (r1 & l1 & _ & H & E1).
    apply Forall2_cons_inv_l in H as (r2 & l2 & H2 & H & E2). apply Forall2_cons_inv_l in H as (r3 & l3 & _ & H & E3).
    apply Forall2_nil_inv_l in H. exists s', r1, r3. split; [exact E|]. split; [vm_compute; reflexivity|]. split; [|exact Hd].
    change (r2 = demo_later) in H2. by rewrite E1, E2, E3, H, H2.
Defined.

Definition demo_scheduled_job : job :=
  maint_job (u "job-0") (mk_maint (u "cleanup") [] (JObj []) None (Some 6) (Some (u "scheduled:cache_cleanup")) None) 6 0.

Lemma in_flight_task_not_doubled_witness :
  let s := mk_sched_state demo_tasks (demo_queue_db <| jobs := [demo_scheduled_job] |>) in
  let t := demo_task "cache_cleanup" "*/5 * * * *" None None in
  let s' := snd (tick_task demo_moment demo_world t s) in
  map j_id (jobs (qdb s')) = map j_id (jobs (qdb s)) ∧ items (qdb s') = items (qdb s) ∧
  (j_status demo_scheduled_job ≠ JPending → qdb s' = qdb s).
Proof.
  intros s t. apply (in_flight_task_not_doubled demo_moment demo_world t s demo_scheduled_job). vm_compute. reflexivity.
Defined.

(** ** A task without a next run *)

(** The job is created and started, and then its cursor cannot be moved: the
    exception is retryable, so the task is due again after the retry interval
    although the job ran. *)
Lemma unschedulable_task_restarts m w t s id d j d' e :
  active_dedupe_job (qdb s) (dedupe_key t) = None → _within_window m t = true →
  t_config t = [] → str_eqb (t_kind t) (u "analysis") = false →
  create_maintenance_job w t true (u "scheduler") (qdb s) = Ok (id, d) → get d id = Some j → j_status j = JPending →
  start_job w id d = (Ok tt, d') → task_next t m = Raise (CronError e) →
  tick_task m w t s =
  (Ok tt, mk_sched_state (record_failure (tasks s) m t (take 1000 (tw_text w plain_error))) d').
Proof.
  intros Ha Hw Hc Hk Hm Hg Hp Hs Hn. unfold tick_task. rewrite Ha. unfold _enqueue_task. rewrite str_eqb_refl, Hw, Hc, Hk, Hm. cbn [negb andb].
  assert (negb (member_true [] "catch_up" true) = false) as -> by reflexivity.
  assert (member_true [] "delay_high_load" false = false) as -> by reflexivity. cbn [andb]. unfold launch. cbn [qdb tasks].
  rewrite Hg, Hp. cbn. rewrite Hs. unfold mark_enqueued. by rewrite Hn.
Qed.

(** A task for 29 February, at midnight of that day in 2024: its job starts,
    and fifteen minutes later the task is due again. *)
Definition leap_midnight : Z := minute_of (mk_date 2024 2 29) 0 0 * minute.
Definition leap_moment : moment := mk_moment (fixed_zone 0) leap_midnight 0.
Definition leap_task : task :=
  (demo_task "leap" "0 0 29 2 *" None None) <| t_next_run := Some (iso (fixed_zone 0) leap_midnight) |>.

Example leap_task_restarts :
  ∃ s', tick_task leap_moment demo_world leap_task (mk_sched_state [leap_task] demo_queue_db) = (Ok tt, s') ∧
        map j_status (jobs (qdb s')) = [JRunning] ∧
        map t_next_run (tasks s') = [Some (iso (fixed_zone 0) (leap_midnight + 900 * second))].
Proof.
  assert (task_next leap_task leap_moment = Raise (CronError CronNever)) as Hn.
  { unfold task_next, next_of. pose proof (leap_day_never 2024 eq_refl) as H.
    change (t_cron leap_task) with leap_day_cron. change (t_semantics leap_task) with (u "cronie_v2").
    change (t_weekdays leap_task) with (@nil Z). unfold leap_moment, leap_midnight. cbn [m_zone m_at]. by rewrite H. }
  destruct (create_maintenance_job demo_world leap_task true (u "scheduler") demo_queue_db) as [[id d]|] eqn:Ec; [|vm_compute in Ec; done].
  destruct (start_job demo_world id d) as [[[]|] d'] eqn:Es; vm_compute in Ec; injection Ec as <- <-; [|vm_compute in Es; done].
  eexists. split; [|split].
  - eapply (unschedulable_task_restarts leap_moment demo_world leap_task (mk_sched_state [leap_task] demo_queue_db)); 
      [vm_compute; reflexivity..| | | |exact Es|exact Hn]; vm_compute; reflexivity.
  - cbn [qdb]. vm_compute in Es. injection Es as <-. reflexivity.
  - vm_compute. reflexivity.
Qed.
