(* ===== verification/Hmac.v ===== *)
(** * Keyed digests (core/security.py)

    [hmac.new(key, message, sha256).hexdigest()] of the standard library on
    byte lists, and the digests the code derives from it: device tokens, device
    secrets, pairing nonces and rate-limit scopes.  Texts have no lone
    surrogates, so [encode("utf-8")] is total. *)

From S2P Require Import Prelude PyStr Sha256.
Local Open Scope Z_scope.

Definition sha256_bytes (m : list Z) : list Z :=
  let w := words_of (pad256 m) in concat (map (be_bytes 4) (blocks (length w) w h256)).

(** RFC 2104 with a block of 64 bytes. *)
Definition hmac_key (key : list Z) : list Z :=
  let k := if 64 <? Z.of_nat (length key) then sha256_bytes key else key in
  k ++ repeat 0 (64 - length k).
Definition hmac_sha256 (key message : list Z) : list Z :=
  let k := hmac_key key in
  sha256_bytes (map (Z.lxor 92) k ++ sha256_bytes (map (Z.lxor 54) k ++ message)).
Definition hexdigest (bytes : list Z) : str := concat (map (λ b, [hex_digit (b / 16); hex_digit (b mod 16)]) bytes).
Definition hmac_hex (key message : str) : str := hexdigest (hmac_sha256 (utf8_encode key) (utf8_encode message)).
Arguments hmac_hex : simpl never.

Example hmac_rfc4231 :
  hmac_hex (u "Jefe") (u "what do ya want for nothing?")
  = u "5bdcc146bf60754e6a042426089575c75a003f089d2739839dec58b964ec3843".
Proof. vm_compute. reflexivity. Qed.

Definition hash_device_token (token pepper : str) : str := hmac_hex pepper token.
Definition _hash_domain (value pepper purpose : str) : str := hmac_hex pepper (purpose ++ [0] ++ value).
Definition hash_device_secret (secret pepper : str) : str := _hash_domain secret pepper (u "device-secret-v1").
Definition hash_pairing_nonce (nonce pepper : str) : str := _hash_domain nonce pepper (u "pairing-nonce-v1").
Definition hash_pairing_scope (scope value pepper : str) : str :=
  _hash_domain value pepper (u "pairing-scope-" ++ scope ++ u "-v1").

(** ** A digest has 64 hexadecimal digits *)

Lemma round256_length s kw : length s = 8%nat → length (round256 s kw) = 8%nat.
Proof. intros H. do 8 (destruct s as [|? s]; [done|]). by destruct s. Qed.

Lemma compress_length h b : length h = 8%nat → length (compress h b) = 8%nat.
Proof.
  intros H. unfold compress. rewrite length_zip_with.
  assert (∀ l x, length x = 8%nat → length (fold_left round256 l x) = 8%nat) as Hf.
  { intros l. induction l as [|y l IH]; intros x Hx; [done|]. apply IH. by apply round256_length. }
  by rewrite Hf, H by done.
Qed.

Lemma blocks_length n w h : length h = 8%nat → length (blocks n w h) = 8%nat.
Proof.
  revert w h. induction n as [|n IH]; intros w h H; [done|]. destruct w as [|x w]; [done|]. apply IH. by apply compress_length.
Qed.

Lemma concat_length {A B} (f : A → list B) n l : (∀ x, length (f x) = n) → length (concat (map f l)) = (length l * n)%nat.
Proof. intros H. induction l as [|x l IH]; [done|]. simpl. by rewrite length_app, H, IH. Qed.

Lemma hmac_hex_length key message : length (hmac_hex key message) = 64%nat.
Proof.
  unfold hmac_hex, hexdigest, hmac_sha256, sha256_bytes. rewrite (concat_length _ 2) by done.
  rewrite (concat_length _ 4) by done. by rewrite blocks_length.
Qed.
