(* ===== verification/Devices.v ===== *)
(** * Devices and their credentials (repositories/devices.py)

    The columns of the table devices that admission and authentication use,
    grouped as settings ([dconfig]) and credentials ([dauth]), with
    [DeviceRepository.create], [regenerate] and [authenticate].

    Columns that are NOT NULL with a CHECK are plain values.  Times are
    instants; their ISO texts in UTC order the same way.  Identifiers, tokens
    and random placeholders are arguments.  The triggers on devices compare
    columns these writes always set together, so they never fire and are left
    out. *)

From S2P Require Import Prelude PyStr Json Sql Store Reservations Sha256 Hmac OfflineSchedule.
Local Open Scope Z_scope.

Inductive auth_mode := Automatic | LegacyToken | StockToken.
Inductive pairing_state := Unpaired | PairingPending | Paired | Revoked | AuthInvalid | PairingExpired.
#[export] Instance auth_mode_eq : EqDecision auth_mode.
Proof. solve_decision. Defined.
#[export] Instance pairing_state_eq : EqDecision pairing_state.
Proof. solve_decision. Defined.

Record dconfig := mk_dconfig {
  c_name : str; c_timezone : str; c_schedule : str; c_rotation : Z; c_panel : str;
  c_orientation : option str; c_layout : option str; c_fit : option str;
  c_delivery : str; c_prefetch_allowed : bool; c_offline_schedule : json; c_offline_version : Z;
  c_schedule_times : json; c_prefetch_lead : Z; c_button : str; c_gap : Z; c_sync_strategy : str; c_sync_time : option str;
  c_stock_host : option str; c_max_slots : Z; c_capability : str; c_next_prepare : option Z }.

Record dauth := mk_dauth {
  a_mode : auth_mode; a_state : pairing_state; a_version : Z; a_token_hash : str; a_secret_hash : option str;
  a_paired_at : option Z; a_last_auth : option Z; a_revoked_at : option Z; a_repair_until : option Z }.
Definition dauth_eta (a : dauth) : dauth :=
  mk_dauth (a_mode a) (a_state a) (a_version a) (a_token_hash a) (a_secret_hash a) (a_paired_at a) (a_last_auth a)
    (a_revoked_at a) (a_repair_until a).
#[export] Instance set_a_mode : Settable a_mode := ltac:(derive_setter dauth_eta a_mode).
#[export] Instance set_a_state : Settable a_state := ltac:(derive_setter dauth_eta a_state).
#[export] Instance set_a_token_hash : Settable a_token_hash := ltac:(derive_setter dauth_eta a_token_hash).
#[export] Instance set_a_last_auth : Settable a_last_auth := ltac:(derive_setter dauth_eta a_last_auth).
#[export] Instance set_a_revoked_at : Settable a_revoked_at := ltac:(derive_setter dauth_eta a_revoked_at).
#[export] Instance set_a_repair_until : Settable a_repair_until := ltac:(derive_setter dauth_eta a_repair_until).

Record device := mk_device {
  v_id : str; v_enabled : bool; v_config : dconfig; v_auth : dauth;
  v_firmware_version : option str; v_firmware_identity : option str;
  v_pairing_expires : option Z; v_claim_attempts : Z; v_pairing_requested : option Z;
  v_config_version : Z; v_last_seen : option Z; v_last_ip : option str; v_created : Z; v_updated : Z }.
Definition device_eta (d : device) : device :=
  mk_device (v_id d) (v_enabled d) (v_config d) (v_auth d) (v_firmware_version d) (v_firmware_identity d)
    (v_pairing_expires d) (v_claim_attempts d) (v_pairing_requested d) (v_config_version d) (v_last_seen d) (v_last_ip d)
    (v_created d) (v_updated d).
#[export] Instance set_v_enabled : Settable v_enabled := ltac:(derive_setter device_eta v_enabled).
#[export] Instance set_v_auth : Settable v_auth := ltac:(derive_setter device_eta v_auth).
#[export] Instance set_v_firmware_version : Settable v_firmware_version := ltac:(derive_setter device_eta v_firmware_version).
#[export] Instance set_v_firmware_identity : Settable v_firmware_identity := ltac:(derive_setter device_eta v_firmware_identity).
#[export] Instance set_v_pairing_expires : Settable v_pairing_expires := ltac:(derive_setter device_eta v_pairing_expires).
#[export] Instance set_v_claim_attempts : Settable v_claim_attempts := ltac:(derive_setter device_eta v_claim_attempts).
#[export] Instance set_v_pairing_requested : Settable v_pairing_requested := ltac:(derive_setter device_eta v_pairing_requested).
#[export] Instance set_v_last_seen : Settable v_last_seen := ltac:(derive_setter device_eta v_last_seen).
#[export] Instance set_v_last_ip : Settable v_last_ip := ltac:(derive_setter device_eta v_last_ip).
#[export] Instance set_v_updated : Settable v_updated := ltac:(derive_setter device_eta v_updated).

Definition has_state (s : pairing_state) (d : device) : bool := bool_decide (a_state (v_auth d) = s).
Definition is_automatic (d : device) : bool := bool_decide (a_mode (v_auth d) = Automatic).
Definition token_mode (d : device) : bool := negb (is_automatic d).
Definition get_device (l : list device) (k : str) : option device := get_row v_id k l.
Definition update_device (k : str) (f : device → device) (l : list device) : list device := update_where (by_key v_id k) f l.

(** ** Authentication *)

Inductive dev_exn :=
| RateLimited (retry_after : Z) | DevKeyError | DevIntegrity | DevValue (e : sched_exn) | DevAuthMode | DevGap | DevLead | DevButton.

Definition _DEVICE_AUTH_FAILURE_LIMIT : Z := 20.
Definition _DEVICE_AUTH_FAILURE_WINDOW : Z := 5 * minute.
Definition _DEVICE_AUTH_FAILURE_MAX_ROWS : Z := 10000.
Definition _DEVICE_AUTH_TIMESTAMP_UPDATE_INTERVAL : Z := minute.

(** One row of device_auth_failures; the list is in insertion order. *)
Record auth_failure := mk_auth_failure { f_ip : str; f_at : Z }.

Record devdb := mk_devdb { devices : list device; failures : list auth_failure }.

Definition hash_is (stored : option str) (digest : str) : bool :=
  match stored with Some ((_ :: _) as s) => str_eqb s digest | _ => false end.

Definition _repair_permission_active (until : option Z) (now : Z) : bool :=
  match until with Some t => now <? t | None => false end.

Section authentication.
Context (pepper : str).

(** The rows of the SELECT. *)
Definition auth_candidate (legacy secret : str) (d : device) : bool :=
  v_enabled d
  && (str_in (a_token_hash (v_auth d)) [legacy; secret]
      || match a_secret_hash (v_auth d) with Some h => str_in h [legacy; secret] | None => false end).

(** Whether the loop stops at this row. *)
Definition accepts (legacy secret : str) (version : option Z) (allow_repair : bool) (now : Z) (d : device) : bool :=
  let a := v_auth d in
  if negb allow_repair && token_mode d && str_eqb (a_token_hash a) legacy then true
  else if token_mode d then false
  else
    let repair_authorized := allow_repair && has_state PairingPending d && negb (is_null (a_revoked_at a))
                             && _repair_permission_active (a_repair_until a) now in
    if allow_repair && negb repair_authorized then false
    else if negb (has_state Paired d) && negb repair_authorized then false
    else (hash_is (a_secret_hash a) secret || hash_is (a_secret_hash a) legacy)
         && match version with Some n => n =? a_version a | None => false end.

Definition id_leb (a b : device) : bool := str_leb (v_id a) (v_id b).

Definition seen (now : Z) (ip : str) (last_auth : option Z) (d : device) : device :=
  let due := match last_auth with Some t => _DEVICE_AUTH_TIMESTAMP_UPDATE_INTERVAL <=? now - t | None => true end in
  d <| v_last_seen := Some now |> <| v_last_ip := Some (take 64 ip) |>
    <| v_auth := if due then (v_auth d) <| a_last_auth := Some now |> else v_auth d |> <| v_updated := now |>.

(** ORDER BY attempted_at DESC, id DESC; the newest rows stay. *)
Definition newest_failures (l : list auth_failure) : list auth_failure :=
  let order (a b : nat * auth_failure) := (f_at (snd b) <? f_at (snd a)) || ((f_at (snd a) =? f_at (snd b)) && (fst b <=? fst a)%nat) in
  let kept := take (Z.to_nat _DEVICE_AUTH_FAILURE_MAX_ROWS) (sort_by order (imap (λ i f, (i, f)) l)) in
  map snd (List.filter (λ p, bool_decide (fst p ∈ map fst kept)) (imap (λ i f, (i, f)) l)).

Definition retry_after (earliest now : Z) : Z :=
  Z.max 1 (Z.min (Z.max 1 ((earliest + _DEVICE_AUTH_FAILURE_WINDOW - now) / 1000000 + 1)) 300).

Definition authenticate (token ip : str) (version : option Z) (allow_repair : bool) (now : Z) (s : devdb)
  : result dev_exn (option device * devdb) :=
  let legacy := hash_device_token token pepper in
  let secret := hash_device_secret token pepper in
  match find_where (accepts legacy secret version allow_repair now)
          (sort_by id_leb (List.filter (auth_candidate legacy secret) (devices s))) with
  | Some d => Ok (Some d, mk_devdb (update_device (v_id d) (seen now ip (a_last_auth (v_auth d))) (devices s)) (failures s))
  | None =>
      let ip_hash := hash_device_token (take 64 ip) pepper in
      let cutoff := now - _DEVICE_AUTH_FAILURE_WINDOW in
      let recent := List.filter (λ f, negb (f_at f <? cutoff)) (failures s) in
      let mine := List.filter (λ f, str_eqb (f_ip f) ip_hash && (cutoff <=? f_at f)) recent in
      raise_if (_DEVICE_AUTH_FAILURE_LIMIT <=? Z.of_nat (length mine))
        (RateLimited (retry_after (foldr (λ f m, Z.min (f_at f) m) now mine) now)) ;;;
      Ok (None, mk_devdb (devices s) (newest_failures (recent ++ [mk_auth_failure ip_hash now])))
  end.

(** ** Creation and token renewal *)

Record create_args := mk_create_args {
  ca_name : str; ca_enabled : bool; ca_timezone : str; ca_schedule : str; ca_delivery : str; ca_prefetch : option bool;
  ca_offline_schedule : list str; ca_schedule_times : list str; ca_max_slots : Z; ca_lead : Z; ca_button : str; ca_gap : Z;
  ca_sync_strategy : str; ca_sync_time : option str; ca_stock_host : option str; ca_rotation : Z; ca_panel : str;
  ca_orientation : option str; ca_layout : option str; ca_fit : option str; ca_auth_mode : str }.

Definition of_sched_exn {A} (m : result sched_exn A) : result dev_exn A :=
  match m with Ok a => Ok a | Raise e => Raise (DevValue e) end.

Definition mode_of (s : str) : option auth_mode :=
  if str_eqb s (u "automatic") then Some Automatic else if str_eqb s (u "legacy_token") then Some LegacyToken
  else if str_eqb s (u "stock") then Some StockToken else None.

(** OFFLINE_PREPARE_BOOTSTRAP_AT *)
Definition bootstrap : Z := 0.

Definition is_offline (delivery : str) : bool := str_eqb delivery (u "inktime_offline_schedule").

(** INSERT INTO devices: the primary key and the unique token_hash. *)
Definition insert_device (d : device) (l : list device) : result dev_exn (list device) :=
  raise_if (has_key v_id (v_id d) l || existsb (λ x, str_eqb (a_token_hash (v_auth x)) (a_token_hash (v_auth d))) l) DevIntegrity ;;;
  Ok (l ++ [d]).

(** [token] is the issued token, [placeholder] the random text of a device
    without one; the result is the token shown to the administrator. *)
Definition create (a : create_args) (id token placeholder : str) (now : Z) (l : list device)
  : result dev_exn (option str * list device) :=
  let text := match strip (ca_auth_mode a) with [] => u "legacy_token" | s => s end in
  let text := if str_eqb (ca_delivery a) (u "stock_compat") then u "stock" else text in
  match mode_of text with
  | None => Raise DevAuthMode
  | Some mode =>
      let automatic := bool_decide (mode = Automatic) in
      let enabled := ca_enabled a && negb automatic in
      let* dp := of_sched_exn (normalize_delivery_contract (ca_delivery a) (ca_prefetch a) (negb (is_null (ca_prefetch a)))) in
      let '(delivery, prefetch) := dp in
      raise_if (negb ((30 <=? ca_gap a) && (ca_gap a <=? 360))) DevGap ;;;
      let slots := resolve_offline_schedule_max_slots (slots_capability (ca_max_slots a)) in
      let* times := of_sched_exn (validate_offline_schedule
                      (match ca_schedule_times a with
                       | [] => match ca_offline_schedule a with [] => [ca_schedule a] | l => l end | l => l end) slots (ca_gap a)) in
      raise_if (negb ((0 <=? ca_lead a) && (ca_lead a <=? 120))) DevLead ;;;
      raise_if (negb (str_in (ca_button a) (map u ["check_new"; "local_next"]%string))) DevButton ;;;
      let* sync := of_sched_exn (normalize_sync_strategy (Some (ca_sync_strategy a)) (ca_sync_time a)) in
      let config :=
        mk_dconfig (strip (ca_name a)) (ca_timezone a) (ca_schedule a) (ca_rotation a) (ca_panel a) (ca_orientation a)
          (ca_layout a) (ca_fit a) delivery prefetch (JList (map JStr times)) (if is_offline delivery then 1 else 0)
          (JList (map JStr times)) (ca_lead a) (ca_button a) (ca_gap a) (fst sync) (snd sync) (ca_stock_host a) slots
          (offline_schedule_capability_state slots) (if prefetch && enabled then Some bootstrap else None) in
      let auth :=
        mk_dauth mode (if automatic then Unpaired else Paired) 0
          (hash_device_token (if automatic then u "auto-placeholder-" ++ placeholder else token) pepper) None None None None None in
      let* l' := insert_device (mk_device id enabled config auth None None None 0 None 1 None None now now) l in
      Ok (if automatic then None else Some token, l')
  end.

Definition regenerate (id token : str) (now : Z) (l : list device) : result dev_exn (list device) :=
  match get_device l id with
  | None => Raise DevKeyError
  | Some d =>
      raise_if (is_automatic d) DevAuthMode ;;;
      let digest := hash_device_token token pepper in
      raise_if (existsb (λ x, negb (str_eqb (v_id x) id) && str_eqb (a_token_hash (v_auth x)) digest) l) DevIntegrity ;;;
      Ok (update_device id (λ x, x <| v_auth := (v_auth x) <| a_token_hash := digest |>
                                       <| a_mode := match a_mode (v_auth x) with StockToken => StockToken | _ => LegacyToken end |> |>
                                   <| v_updated := now |>) l)
  end.
End authentication.
