(* ===== verification/Delivery.v ===== *)
(** * Content delivery: the tables

    The rows that carry an image to a frame: releases, the content queue of
    each device with its items and acknowledgements, the offline playlists and
    the rollout campaigns, as the migrations declare them, with the
    constraints and triggers an INSERT into the queue meets.

    Times are instants: every column compared as text holds a UTC ISO text,
    and those order as the instants do.  A day is its number.  A rollout
    target is identified by its campaign and device, a stage by its campaign
    and number (both UNIQUE).  Free texts that no code reads back (names,
    messages) are left out. *)

From S2P Require Import Prelude PyStr PyFloat Json Sql Reservations OfflineSchedule Devices.
Local Open Scope Z_scope.

(** ** Errors *)

Inductive dl_exn :=
| DValue (code : string)     (* ValueError *)
| DKey                       (* KeyError *)
| DIndex                     (* IndexError *)
| DPermission                (* PermissionError *)
| DIntegrity                 (* sqlite3.IntegrityError *)
| DType                      (* AttributeError, TypeError *)
| DRuntime                   (* RuntimeError *)
| DZone.                     (* ZoneInfoNotFoundError *)

(** ** Releases *)

(** [rl_manifest] is [None] when manifest_json does not parse. *)
Record release := mk_release {
  rl_id : str; rl_status : str; rl_reconciliation : str; rl_profile : str; rl_manifest : option json }.

Definition not_pruned (r : release) : bool := negb (str_eqb (rl_reconciliation r) (u "payload_pruned")).
Definition published (r : release) : bool := str_eqb (rl_status r) (u "published") && not_pruned r.
Definition restorable (r : release) : bool := str_in (rl_status r) [u "published"; u "superseded"] && not_pruned r.

(** ** The content queue *)

Inductive queue_status :=
| QPending | QReady | QAvailable | QDownloaded | QAcknowledged | QDisplayed | QFailed | QExpired | QCancelled.
#[export] Instance queue_status_eq : EqDecision queue_status.
Proof. solve_decision. Defined.

Inductive ack_event :=
| MANIFEST_RECEIVED | DOWNLOAD_STARTED | DOWNLOAD_COMPLETED | HASH_VERIFIED | DISPLAY_STARTED | DISPLAY_COMPLETED
| DISPLAY_FAILED.
#[export] Instance ack_event_eq : EqDecision ack_event.
Proof. solve_decision. Defined.

Inductive event_type := Ack (e : ack_event) | FutureSlotSuperseded | ModeTransitionCancelled.
#[export] Instance event_type_eq : EqDecision event_type.
Proof. solve_decision. Defined.

Record queue := mk_queue {
  cq_device : str; cq_depth : Z; cq_version : Z; cq_current : option str; cq_current_at : option Z;
  cq_good : option str; cq_good_at : option Z; cq_next : option str; cq_emergency : option str; cq_updated : Z }.
Definition queue_eta (q : queue) : queue :=
  mk_queue (cq_device q) (cq_depth q) (cq_version q) (cq_current q) (cq_current_at q) (cq_good q) (cq_good_at q) (cq_next q)
    (cq_emergency q) (cq_updated q).
#[export] Instance set_cq_depth : Settable cq_depth := ltac:(derive_setter queue_eta cq_depth).
#[export] Instance set_cq_version : Settable cq_version := ltac:(derive_setter queue_eta cq_version).
#[export] Instance set_cq_current : Settable cq_current := ltac:(derive_setter queue_eta cq_current).
#[export] Instance set_cq_current_at : Settable cq_current_at := ltac:(derive_setter queue_eta cq_current_at).
#[export] Instance set_cq_good : Settable cq_good := ltac:(derive_setter queue_eta cq_good).
#[export] Instance set_cq_good_at : Settable cq_good_at := ltac:(derive_setter queue_eta cq_good_at).
#[export] Instance set_cq_next : Settable cq_next := ltac:(derive_setter queue_eta cq_next).
#[export] Instance set_cq_updated : Settable cq_updated := ltac:(derive_setter queue_eta cq_updated).

(** delivery_mode is ['offline_schedule'] when [qi_offline]. *)
Record queue_item := mk_queue_item {
  qi_id : str; qi_device : str; qi_release : str; qi_position : Z; qi_priority : Z;
  qi_display_after : option Z; qi_expires : option Z; qi_status : queue_status;
  qi_downloaded : option Z; qi_displayed : option Z; qi_retry : Z; qi_error : option str; qi_key : option str;
  qi_offline : bool; qi_prefetch : bool; qi_slot : option str; qi_ack_deadline : option Z; qi_retention : option Z;
  qi_schedule : option str; qi_created : Z; qi_updated : Z }.
Definition queue_item_eta (i : queue_item) : queue_item :=
  mk_queue_item (qi_id i) (qi_device i) (qi_release i) (qi_position i) (qi_priority i) (qi_display_after i) (qi_expires i)
    (qi_status i) (qi_downloaded i) (qi_displayed i) (qi_retry i) (qi_error i) (qi_key i) (qi_offline i) (qi_prefetch i)
    (qi_slot i) (qi_ack_deadline i) (qi_retention i) (qi_schedule i) (qi_created i) (qi_updated i).
#[export] Instance set_qi_release : Settable qi_release := ltac:(derive_setter queue_item_eta qi_release).
#[export] Instance set_qi_priority : Settable qi_priority := ltac:(derive_setter queue_item_eta qi_priority).
#[export] Instance set_qi_status : Settable qi_status := ltac:(derive_setter queue_item_eta qi_status).
#[export] Instance set_qi_downloaded : Settable qi_downloaded := ltac:(derive_setter queue_item_eta qi_downloaded).
#[export] Instance set_qi_displayed : Settable qi_displayed := ltac:(derive_setter queue_item_eta qi_displayed).
#[export] Instance set_qi_retry : Settable qi_retry := ltac:(derive_setter queue_item_eta qi_retry).
#[export] Instance set_qi_error : Settable qi_error := ltac:(derive_setter queue_item_eta qi_error).
#[export] Instance set_qi_ack_deadline : Settable qi_ack_deadline := ltac:(derive_setter queue_item_eta qi_ack_deadline).
#[export] Instance set_qi_updated : Settable qi_updated := ltac:(derive_setter queue_item_eta qi_updated).

Definition active_statuses : list queue_status := [QPending; QReady; QAvailable; QDownloaded; QAcknowledged].
Definition terminal_statuses : list queue_status := [QDisplayed; QFailed; QExpired; QCancelled].
Definition status_in (l : list queue_status) (i : queue_item) : bool := bool_decide (qi_status i ∈ l).
Definition item_active (i : queue_item) : bool := status_in active_statuses i.
Definition of_device (d : str) (i : queue_item) : bool := str_eqb (qi_device i) d.

Record queue_event := mk_queue_event {
  qe_item : str; qe_device : str; qe_type : event_type; qe_key : option str; qe_payload : list (str * json); qe_at : Z }.

(** selection_method is 'device_queue_ack' throughout. *)
Record shown := mk_shown {
  sh_photo : str; sh_date : Z; sh_release : str; sh_at : Z; sh_device : str; sh_item : str; sh_source : string }.

(** ** Rollouts *)

Inductive rollout_status :=
| DRAFT | VALIDATING | CANARY | OBSERVING | EXPANDING | PAUSED | ROLLING_BACK | COMPLETED | ROLLED_BACK | RFAILED | RCANCELLED.
#[export] Instance rollout_status_eq : EqDecision rollout_status.
Proof. solve_decision. Defined.

(** config_json holds at most the frozen cohort and the start of a pause. *)
Record campaign := mk_campaign {
  rc_id : str; rc_release : str; rc_status : rollout_status; rc_cohort : option (list str); rc_paused_at : option Z;
  rc_reason : option str; rc_created : Z; rc_updated : Z }.
Definition campaign_eta (c : campaign) : campaign :=
  mk_campaign (rc_id c) (rc_release c) (rc_status c) (rc_cohort c) (rc_paused_at c) (rc_reason c) (rc_created c) (rc_updated c).
#[export] Instance set_rc_status : Settable rc_status := ltac:(derive_setter campaign_eta rc_status).
#[export] Instance set_rc_cohort : Settable rc_cohort := ltac:(derive_setter campaign_eta rc_cohort).
#[export] Instance set_rc_paused_at : Settable rc_paused_at := ltac:(derive_setter campaign_eta rc_paused_at).
#[export] Instance set_rc_reason : Settable rc_reason := ltac:(derive_setter campaign_eta rc_reason).
#[export] Instance set_rc_updated : Settable rc_updated := ltac:(derive_setter campaign_eta rc_updated).

Inductive stage_status := StPending | StActive | StCompleted.
#[export] Instance stage_status_eq : EqDecision stage_status.
Proof. solve_decision. Defined.

Record stage := mk_stage {
  rs_rollout : str; rs_number : Z; rs_percent : Z; rs_observe : Z; rs_min_success : Z; rs_max_failure : f64;
  rs_max_timeout : f64; rs_min_ack : f64; rs_manual : bool; rs_ack_timeout : Z; rs_status : stage_status;
  rs_started : option Z; rs_completed : option Z }.
Definition stage_eta (s : stage) : stage :=
  mk_stage (rs_rollout s) (rs_number s) (rs_percent s) (rs_observe s) (rs_min_success s) (rs_max_failure s) (rs_max_timeout s)
    (rs_min_ack s) (rs_manual s) (rs_ack_timeout s) (rs_status s) (rs_started s) (rs_completed s).
#[export] Instance set_rs_status : Settable rs_status := ltac:(derive_setter stage_eta rs_status).
#[export] Instance set_rs_started : Settable rs_started := ltac:(derive_setter stage_eta rs_started).
#[export] Instance set_rs_completed : Settable rs_completed := ltac:(derive_setter stage_eta rs_completed).

Inductive target_status :=
| TPending | TInProgress | TSucceeded | TFailed | TSkippedOffline | TRollbackSkippedOffline | TRollbackFailed
| TRollbackPending | TCancelledFuture.
#[export] Instance target_status_eq : EqDecision target_status.
Proof. solve_decision. Defined.

Record target := mk_target {
  rt_rollout : str; rt_device : str; rt_status : target_status; rt_item : option str; rt_error : option str;
  rt_rollback : option str; rt_updated : Z }.
Definition target_eta (t : target) : target :=
  mk_target (rt_rollout t) (rt_device t) (rt_status t) (rt_item t) (rt_error t) (rt_rollback t) (rt_updated t).
#[export] Instance set_rt_status : Settable rt_status := ltac:(derive_setter target_eta rt_status).
#[export] Instance set_rt_item : Settable rt_item := ltac:(derive_setter target_eta rt_item).
#[export] Instance set_rt_error : Settable rt_error := ltac:(derive_setter target_eta rt_error).
#[export] Instance set_rt_updated : Settable rt_updated := ltac:(derive_setter target_eta rt_updated).

(** rollout_health_events and rollout_actions. *)
Record health := mk_health { he_rollout : str; he_device : str; he_type : string + ack_event; he_severity : string; he_error : option str; he_at : Z }.
Record action := mk_action { ac_rollout : str; ac_actor : option str; ac_action : string; ac_reason : option str }.

(** ** Offline playlists *)

Inductive schedule_status := Preparing | SReady | SFailed | SCancelled.
#[export] Instance schedule_status_eq : EqDecision schedule_status.
Proof. solve_decision. Defined.

(** The members of snapshot_json that are read back; the others repeat the
    columns of the schedule. *)
Record recovery := mk_recovery { rv_count : Z; rv_exhausted : Z; rv_next : Z; rv_backoff : Z }.
Record snapshot := mk_snapshot { sn_playlist : option str; sn_revision : option Z; sn_recovery : option recovery }.
Definition no_snapshot : snapshot := mk_snapshot None None None.

Record schedule := mk_schedule {
  os_id : str; os_device : str; os_date : Z; os_config : Z; os_timezone : str; os_status : schedule_status;
  os_created : Z; os_updated : Z; os_panel : str; os_rotation : Z; os_times : json; os_lead : Z; os_button : str;
  os_version : Z; os_gap : Z; os_strategy : str; os_sync : option str; os_snapshot : snapshot; os_outcome : option str }.
Definition schedule_eta (s : schedule) : schedule :=
  mk_schedule (os_id s) (os_device s) (os_date s) (os_config s) (os_timezone s) (os_status s) (os_created s) (os_updated s)
    (os_panel s) (os_rotation s) (os_times s) (os_lead s) (os_button s) (os_version s) (os_gap s) (os_strategy s) (os_sync s)
    (os_snapshot s) (os_outcome s).
#[export] Instance set_os_status : Settable os_status := ltac:(derive_setter schedule_eta os_status).
#[export] Instance set_os_updated : Settable os_updated := ltac:(derive_setter schedule_eta os_updated).
#[export] Instance set_os_snapshot : Settable os_snapshot := ltac:(derive_setter schedule_eta os_snapshot).
#[export] Instance set_os_outcome : Settable os_outcome := ltac:(derive_setter schedule_eta os_outcome).

Record slot := mk_slot {
  sl_id : str; sl_schedule : str; sl_index : Z; sl_show : Z; sl_release : str; sl_item : str; sl_sha : str; sl_created : Z }.
Definition slot_eta (s : slot) : slot :=
  mk_slot (sl_id s) (sl_schedule s) (sl_index s) (sl_show s) (sl_release s) (sl_item s) (sl_sha s) (sl_created s).
#[export] Instance set_sl_release : Settable sl_release := ltac:(derive_setter slot_eta sl_release).
#[export] Instance set_sl_sha : Settable sl_sha := ltac:(derive_setter slot_eta sl_sha).

(** ** The database *)

Record ddb := mk_ddb {
  devs : list device; releases : list release; photos : list str; queues : list queue; items : list queue_item;
  events : list queue_event; history : list shown; campaigns : list campaign; stages : list stage; targets : list target;
  actions : list action; healths : list health; schedules : list schedule; slots : list slot }.
Definition ddb_eta (s : ddb) : ddb :=
  mk_ddb (devs s) (releases s) (photos s) (queues s) (items s) (events s) (history s) (campaigns s) (stages s) (targets s)
    (actions s) (healths s) (schedules s) (slots s).
#[export] Instance set_devs : Settable devs := ltac:(derive_setter ddb_eta devs).
#[export] Instance set_queues : Settable queues := ltac:(derive_setter ddb_eta queues).
#[export] Instance set_items : Settable items := ltac:(derive_setter ddb_eta items).
#[export] Instance set_events : Settable events := ltac:(derive_setter ddb_eta events).
#[export] Instance set_history : Settable history := ltac:(derive_setter ddb_eta history).
#[export] Instance set_campaigns : Settable campaigns := ltac:(derive_setter ddb_eta campaigns).
#[export] Instance set_stages : Settable stages := ltac:(derive_setter ddb_eta stages).
#[export] Instance set_targets : Settable targets := ltac:(derive_setter ddb_eta targets).
#[export] Instance set_actions : Settable actions := ltac:(derive_setter ddb_eta actions).
#[export] Instance set_healths : Settable healths := ltac:(derive_setter ddb_eta healths).
#[export] Instance set_schedules : Settable schedules := ltac:(derive_setter ddb_eta schedules).
#[export] Instance set_slots : Settable slots := ltac:(derive_setter ddb_eta slots).

Definition update_queue (d : str) (f : queue → queue) (s : ddb) : ddb := s <| queues := update_where (by_key cq_device d) f (queues s) |>.
Definition update_item (k : str) (f : queue_item → queue_item) (s : ddb) : ddb := s <| items := update_where (by_key qi_id k) f (items s) |>.
Definition get_queue (d : str) (s : ddb) : option queue := get_row cq_device d (queues s).
Definition get_item (k : str) (s : ddb) : option queue_item := get_row qi_id k (items s).
Definition get_release (k : str) (s : ddb) : option release := get_row rl_id k (releases s).
Definition get_schedule (k : str) (s : ddb) : option schedule := get_row os_id k (schedules s).

Definition offline_device (d : device) : bool := is_offline (c_delivery (v_config d)).

(** The defaults of device_content_queues. *)
Definition new_queue (d : str) (depth now : Z) : queue := mk_queue d depth 0 None None None None None None now.
Definition default_depth : Z := 3.

(** COALESCE(MAX(position),0) *)
Definition max_position (d : str) (s : ddb) : Z :=
  match map qi_position (List.filter (of_device d) (items s)) with
  | [] => 0
  | p :: ps => fold_left Z.max ps p
  end.

(** trg_queue_offline_schedule_owner_insert, trg_queue_online_schedule_owner
    and trg_queue_device_delivery_mode_insert. *)
Definition owner_trigger (i : queue_item) (s : ddb) : bool :=
  if qi_offline i then
    match qi_schedule i with
    | None => true
    | Some k => negb (existsb (λ o, str_eqb (os_id o) k && str_eqb (os_device o) (qi_device i)) (schedules s))
    end
  else negb (is_null (qi_schedule i)).
Definition mode_trigger (i : queue_item) (s : ddb) : bool :=
  if qi_offline i
  then negb (existsb (λ d, str_eqb (v_id d) (qi_device i) && offline_device d && c_prefetch_allowed (v_config d)) (devs s))
  else existsb (λ d, str_eqb (v_id d) (qi_device i) && offline_device d) (devs s).

Definition same_text (a b : option str) : bool :=
  match a, b with Some x, Some y => str_eqb x y | _, _ => false end.

(** PRIMARY KEY, UNIQUE(device_id,position), UNIQUE(device_id,idempotency_key)
    and idx_queue_active_device_release_unique. *)
Definition item_conflict (i x : queue_item) : bool :=
  str_eqb (qi_id x) (qi_id i)
  || (str_eqb (qi_device x) (qi_device i)
      && ((qi_position x =? qi_position i) || same_text (qi_key x) (qi_key i)
          || (item_active x && item_active i && str_eqb (qi_release x) (qi_release i)))).

Definition insert_item (i : queue_item) (s : ddb) : result dl_exn ddb :=
  raise_if (owner_trigger i s || mode_trigger i s) DIntegrity ;;;
  raise_if (negb (has_key v_id (qi_device i) (devs s)) || negb (has_key rl_id (qi_release i) (releases s))) DIntegrity ;;;
  raise_if (existsb (item_conflict i) (items s)) DIntegrity ;;;
  Ok (s <| items := items s ++ [i] |>).

(** INSERT OR IGNORE INTO device_content_queue_events, on
    UNIQUE(queue_item_id,event_type,idempotency_key). *)
Definition same_event (a b : queue_event) : bool :=
  str_eqb (qe_item a) (qe_item b) && bool_decide (qe_type a = qe_type b) && same_text (qe_key a) (qe_key b).
Definition ignore_event (e : queue_event) (s : ddb) : ddb :=
  if existsb (same_event e) (events s) then s else s <| events := events s ++ [e] |>.

(** Run a step for each row of a SELECT made beforehand. *)
Fixpoint for_rows {E A S} (f : A → S → result E S) (l : list A) (s : S) : result E S :=
  match l with [] => Ok s | x :: l' => let* s' := f x s in for_rows f l' s' end.
