(* ===== verification/Rollouts.v ===== *)
(** * Rollout campaigns (repositories/resilience.py)

    A campaign delivers one release to growing stages of a frozen cohort,
    watches the acknowledgements and goes back to each frame's last good
    release when a stage is unhealthy.

    A [ValueError] inside a transaction that a caller catches, or that is
    raised after the commit, keeps its writes: such an operation returns
    [Ok (Some code, s)]; [Raise] is a rolled back transaction.  New identifiers
    are arguments ([fresh] gives one per device), and so is the clock. *)

From S2P Require Import Prelude PyStr PyFloat Json Sql Reservations OfflineSchedule Devices Delivery.
Local Open Scope Z_scope.

Definition live_statuses : list rollout_status := [CANARY; OBSERVING; EXPANDING; PAUSED; ROLLING_BACK].
Definition finished_statuses : list rollout_status := [COMPLETED; ROLLED_BACK; RFAILED; RCANCELLED].
Definition rstatus_in (l : list rollout_status) (c : campaign) : bool := bool_decide (rc_status c ∈ l).

Definition ROLL_OUT_STATES (s : rollout_status) : list rollout_status :=
  match s with
  | DRAFT => [VALIDATING; RCANCELLED]
  | VALIDATING => [CANARY; RFAILED; RCANCELLED]
  | CANARY => [OBSERVING; PAUSED; ROLLING_BACK; RFAILED; RCANCELLED]
  | OBSERVING => [EXPANDING; PAUSED; ROLLING_BACK; COMPLETED; RFAILED]
  | EXPANDING => [OBSERVING; PAUSED; ROLLING_BACK; COMPLETED; RFAILED]
  | PAUSED => [CANARY; OBSERVING; EXPANDING; ROLLING_BACK; RCANCELLED]
  | ROLLING_BACK => [ROLLED_BACK; RFAILED]
  | COMPLETED | ROLLED_BACK | RFAILED | RCANCELLED => []
  end.

(** [target.lower()] *)
Definition rollout_name (s : rollout_status) : string :=
  match s with
  | DRAFT => "draft" | VALIDATING => "validating" | CANARY => "canary" | OBSERVING => "observing" | EXPANDING => "expanding"
  | PAUSED => "paused" | ROLLING_BACK => "rolling_back" | COMPLETED => "completed" | ROLLED_BACK => "rolled_back"
  | RFAILED => "failed" | RCANCELLED => "cancelled"
  end.

Definition get_campaign (k : str) (s : ddb) : option campaign := get_row rc_id k (campaigns s).
Definition update_campaign (k : str) (f : campaign → campaign) (s : ddb) : ddb :=
  s <| campaigns := update_where (by_key rc_id k) f (campaigns s) |>.
Definition set_status (k : str) (st : rollout_status) (now : Z) : ddb → ddb :=
  update_campaign k (λ c, c <| rc_status := st |> <| rc_updated := now |>).
Definition is_target (rollout d : str) (t : target) : bool := str_eqb (rt_rollout t) rollout && str_eqb (rt_device t) d.
Definition update_target (rollout d : str) (f : target → target) (s : ddb) : ddb :=
  s <| targets := update_where (is_target rollout d) f (targets s) |>.
Definition is_stage (rollout : str) (n : Z) (g : stage) : bool := str_eqb (rs_rollout g) rollout && (rs_number g =? n).
Definition update_stage (g : stage) (f : stage → stage) (s : ddb) : ddb :=
  s <| stages := update_where (is_stage (rs_rollout g) (rs_number g)) f (stages s) |>.
Definition stage_leb (a b : stage) : bool := rs_number a <=? rs_number b.

Definition _action (rollout : str) (actor : option str) (name : string) (reason : option str) (s : ddb) : ddb :=
  s <| actions := actions s ++ [mk_action rollout actor name reason] |>.

(** ** Delivery of one release to one frame *)

Definition _rollback_identity_locked (d candidate : str) (s : ddb) : option str :=
  match get_queue d s, get_device (devs s) d with
  | Some q, Some v =>
      match cq_good q with
      | Some g =>
          match get_release g s with
          | Some r =>
              if negb (str_eqb (rl_id r) candidate) && str_eqb (rl_profile r) (c_panel (v_config v)) && restorable r
              then Some (rl_id r) else None
          | None => None
          end
      | None => None
      end
  | _, _ => None
  end.

Definition ensure_queue_row (d : str) (now : Z) (s : ddb) : ddb :=
  if has_key cq_device d (queues s) then s else s <| queues := queues s ++ [new_queue d default_depth now] |>.

Definition _rollout_delivery_locked (fresh d release : str) (now priority deadline : Z) (s : ddb)
  : result dl_exn (str * ddb) :=
  let s := ensure_queue_row d now s in
  match find_where (λ i, of_device d i && str_eqb (qi_release i) release && item_active i) (items s) with
  | Some i =>
      Ok (qi_id i,
          update_item (qi_id i)
            (λ x, x <| qi_priority := Z.max (qi_priority x) priority |>
                    <| qi_ack_deadline := Some (default deadline (qi_ack_deadline x)) |> <| qi_updated := now |>) s)
  | None =>
      let* s := insert_item
        (mk_queue_item fresh d release (max_position d s + 1) priority None None QReady None None 0 None None false false None
           (Some deadline) None None now now) s in
      Ok (fresh, update_queue d (λ q, q <| cq_version := cq_version q + 1 |> <| cq_next := Some release |> <| cq_updated := now |>) s)
  end.

(** ** Rollback *)

Definition rollout_items (rollout : str) (s : ddb) : list str :=
  omap rt_item (List.filter (λ t, str_eqb (rt_rollout t) rollout) (targets s)).

Definition cancel_items (ids : list str) (now : Z) (s : ddb) : ddb :=
  s <| items := update_where (λ i, str_in (qi_id i) ids && item_active i) (λ i, i <| qi_status := QCancelled |> <| qi_updated := now |>)
                  (items s) |>.

(** The rows of [rollout_targets t JOIN devices d]. *)
Definition targets_with_devices (rollout : str) (s : ddb) : list (target * device) :=
  omap (λ t, (λ d, (t, d)) <$> get_device (devs s) (rt_device t)) (List.filter (λ t, str_eqb (rt_rollout t) rollout) (targets s)).

(** One target of the loop; the flag is [missing]. *)
Definition rollback_target (fresh : str → str) (now : Z) (td : target * device) (sm : ddb * bool) : result dl_exn (ddb * bool) :=
  let '(t, d) := td in
  let '(s, missing) := sm in
  let set f := update_target (rt_rollout t) (rt_device t) f in
  if offline_device d then Ok (set (λ x, x <| rt_status := TRollbackSkippedOffline |> <| rt_updated := now |>) s, missing)
  else
    let valid := match rt_rollback t with
                 | Some ((_ :: _) as k) =>
                     match get_release k s with
                     | Some r => str_eqb (rl_profile r) (c_panel (v_config d)) && restorable r
                     | None => false
                     end
                 | _ => false
                 end in
    if negb valid
    then Ok (set (λ x, x <| rt_status := TRollbackFailed |> <| rt_error := Some (u "ROLLBACK-002") |> <| rt_updated := now |>) s, true)
    else
      let* (item, s) := _rollout_delivery_locked (fresh (rt_device t)) (rt_device t) (default [] (rt_rollback t)) now 1000 (now + day) s in
      Ok (set (λ x, x <| rt_item := Some item |> <| rt_status := TRollbackPending |> <| rt_error := None |> <| rt_updated := now |>) s, missing).

Definition no_rollback : list rollout_status := [ROLLING_BACK; ROLLED_BACK; COMPLETED; RFAILED; RCANCELLED].

Definition _start_rollback_locked (fresh : str → str) (rollout : str) (now : Z) (reason : str) (actor : option str) (s : ddb)
  : result dl_exn ddb :=
  match get_campaign rollout s with
  | None => Ok s
  | Some c =>
      if rstatus_in no_rollback c then Ok s
      else
        let s := cancel_items (rollout_items rollout s) now s in
        let ts := targets_with_devices rollout s in
        let* (s, missing) := for_rows (rollback_target fresh now) ts (s, match ts with [] => true | _ => false end) in
        let detail := if missing then u "ROLLBACK-002 缺少可驗證的回復身分" else reason in
        let s := update_campaign rollout
                   (λ c, c <| rc_status := if missing then RFAILED else ROLLING_BACK |> <| rc_reason := Some (take 500 detail) |>
                           <| rc_updated := now |>) s in
        Ok (_action rollout actor (if missing then "rollback_failed" else "rollback_started") (Some detail) s)
  end.

(** ** Stage allocation *)

(** The enabled devices of the release's profile, ORDER BY id. *)
Definition profile_devices (release : str) (s : ddb) : list device :=
  sort_by id_leb
    (List.filter (λ d, v_enabled d && match get_release release s with
                                      | Some r => str_eqb (rl_profile r) (c_panel (v_config d))
                                      | None => false
                                      end) (devs s)).

Definition has_target (rollout d : str) (s : ddb) : bool := existsb (is_target rollout d) (targets s).

(** INSERT OR IGNORE of a skipped offline frame, and its health event. *)
Definition skip_offline (rollout : str) (now : Z) (d : device) (s : ddb) : ddb :=
  if offline_device d && negb (has_target rollout (v_id d) s)
  then s <| targets := targets s ++ [mk_target rollout (v_id d) TSkippedOffline None (Some (u "ROLLOUT-005")) None now] |>
         <| healths := healths s ++ [mk_health rollout (v_id d) (inl "skipped_incompatible_offline") "info" (Some (u "ROLLOUT-005")) now] |>
  else s.

Definition live_elsewhere (rollout d : str) (s : ddb) : bool :=
  existsb (λ t, str_eqb (rt_device t) d && negb (str_eqb (rt_rollout t) rollout)
                && match get_campaign (rt_rollout t) s with Some c => rstatus_in live_statuses c | None => false end) (targets s).

(** [min(len(online), max(minimum, ceil(len(online) * percent / 100)))]; the
    float quotient and its exact value have the same ceiling below 2^46 frames. *)
Definition stage_size (g : stage) (online : list device) : Z :=
  let n := Z.of_nat (length online) in
  Z.min n (Z.max (rs_min_success g) ((n * rs_percent g + 99) / 100)).

Definition allocate_device (fresh : str → str) (c : campaign) (g : stage) (now : Z) (d : device) (s : ddb) : result dl_exn ddb :=
  if has_target (rc_id c) (v_id d) s then Ok s
  else
    let fallback := _rollback_identity_locked (v_id d) (rc_release c) s in
    let* (item, s) := _rollout_delivery_locked (fresh (v_id d)) (v_id d) (rc_release c) now 900 (now + minutes (rs_ack_timeout g)) s in
    Ok (s <| targets := targets s ++ [mk_target (rc_id c) (v_id d) TPending (Some item) None fallback now] |>).

Definition _allocate_rollout_stage_locked (fresh : str → str) (c : campaign) (g : stage) (now : Z) (s : ddb)
  : result dl_exn (option string * ddb) :=
  let candidates := profile_devices (rc_release c) s in
  let cohort := match rc_cohort c with Some l => l | None => map v_id candidates end in
  let s := match rc_cohort c with
           | Some _ => s
           | None => update_campaign (rc_id c) (λ x, x <| rc_cohort := Some cohort |>) s
           end in
  let members := List.filter (λ d, str_in (v_id d) cohort) candidates in
  let online := List.filter (λ d, negb (offline_device d)) members in
  match online with
  | [] => Ok (Some "ROLLOUT-005", s)
  | _ =>
      if Z.of_nat (length online) <? rs_min_success g then Ok (Some "ROLLOUT-002", s)
      else
        let s := fold_left (λ s d, skip_offline (rc_id c) now d s) members s in
        let chosen := take (Z.to_nat (stage_size g online)) online in
        if existsb (λ d, live_elsewhere (rc_id c) (v_id d) s) chosen then Ok (Some "ROLLOUT-002", s)
        else
          let* s := for_rows (allocate_device fresh c g now) chosen s in
          Ok (None, update_stage g (λ x, if bool_decide (rs_status x = StPending)
                                         then x <| rs_status := StActive |> <| rs_started := Some now |> else x) s)
  end.

(** ** Evaluation *)

Definition evaluated_statuses : list rollout_status := [CANARY; OBSERVING; EXPANDING; ROLLING_BACK].
Definition tstatus_in (l : list target_status) (t : target) : bool := bool_decide (rt_status t ∈ l).
Definition target_item (t : target) (s : ddb) : option queue_item :=
  match rt_item t with Some k => get_item k s | None => None end.

Definition mentions_timeout (t : target) : bool := contains (u "TIMEOUT") (str_or (rt_error t) []).
Definition past_deadline (now : Z) (i : option queue_item) : bool :=
  match i with Some i => match qi_ack_deadline i with Some t => t <=? now | None => false end | None => false end.

Definition timed_out (now : Z) (s : ddb) (t : target) : bool :=
  negb (tstatus_in [TSucceeded] t)
  && (match target_item t s with Some i => status_in [QExpired] i | None => false end
      || mentions_timeout t || past_deadline now (target_item t s)).

Definition rate (n total : Z) : f64 := fdiv (f64_of_Z n) (f64_of_Z total).

(** The targets a stage is judged by. *)
Definition counted (rollout : str) (s : ddb) : list target :=
  List.filter (λ t, str_eqb (rt_rollout t) rollout && negb (tstatus_in [TSkippedOffline; TRollbackSkippedOffline] t)) (targets s).

Definition successes (ts : list target) : Z := countb (tstatus_in [TSucceeded]) ts.
Definition timeouts (now : Z) (s : ddb) (ts : list target) : Z := countb (timed_out now s) ts.
Definition failed_targets (ts : list target) : Z := countb (λ t, tstatus_in [TFailed] t && negb (mentions_timeout t)) ts.

Definition unhealthy (g : stage) (now : Z) (s : ddb) (ts : list target) : bool :=
  let total := Z.of_nat (length ts) in
  fltb (rs_max_failure g) (rate (failed_targets ts) total) || fltb (rs_max_timeout g) (rate (timeouts now s ts) total).
Definition stage_ready (g : stage) (ts : list target) : bool :=
  (rs_min_success g <=? successes ts) && fleb (rs_min_ack g) (rate (successes ts) (Z.of_nat (length ts))).

Definition active_stage (rollout : str) (s : ddb) : option stage :=
  head (sort_by stage_leb (List.filter (λ g, str_eqb (rs_rollout g) rollout && bool_decide (rs_status g = StActive)) (stages s))).
Definition pending_stage (rollout : str) (after : Z) (s : ddb) : option stage :=
  head (sort_by stage_leb (List.filter (λ g, str_eqb (rs_rollout g) rollout && (after <? rs_number g)
                                             && bool_decide (rs_status g = StPending)) (stages s))).

Definition rollback_expired (rollout : str) (now : Z) (s : ddb) : bool :=
  existsb (λ t, str_eqb (rt_rollout t) rollout && tstatus_in [TRollbackPending; TInProgress] t && past_deadline now (target_item t s)) (targets s).

(** The stage has been observed and, where required, approved. *)
Definition observed (g : stage) (started now : Z) (approved : bool) : bool :=
  negb ((now - started <? minutes (rs_observe g)) || (rs_manual g && negb approved)).

Definition advance_stage (fresh : str → str) (c : campaign) (g : stage) (now : Z) (s : ddb) : result dl_exn (bool * ddb) :=
  let finish (next : bool) (s : ddb) : bool * ddb :=
    let s := update_stage g (λ x, x <| rs_status := StCompleted |> <| rs_completed := Some now |>) s in
    let s := set_status (rc_id c) (if next then EXPANDING else COMPLETED) now s in
    (true, _action (rc_id c) None (if next then "stage_advanced" else "completed") None s) in
  match pending_stage (rc_id c) (rs_number g) s with
  | None => Ok (finish false s)
  | Some next =>
      let* (refused, s) := _allocate_rollout_stage_locked fresh c next now s in
      match refused with
      | Some _ => let* s := _start_rollback_locked fresh (rc_id c) now (u "ROLLBACK-001 下一 Stage cohort 不再可用") None s in Ok (false, s)
      | None => Ok (finish true s)
      end
  end.

Definition evaluate_stage (fresh : str → str) (c : campaign) (g : stage) (now : Z) (approved : bool) (s : ddb)
  : result dl_exn (bool * ddb) :=
  let ts := counted (rc_id c) s in
  match ts with
  | [] => Ok (false, s)
  | _ =>
      if unhealthy g now s ts
      then let* s := _start_rollback_locked fresh (rc_id c) now (u "ROLLBACK-001 Stage 健康門檻超標") None s in Ok (false, s)
      else if negb (stage_ready g ts) then Ok (false, s)
      else
        let s := set_status (rc_id c) OBSERVING now s in
        match rs_started g with
        | None => Raise (DValue "isoformat")
        | Some started => if observed g started now approved then advance_stage fresh c g now s else Ok (false, s)
        end
  end.

Definition _evaluate_rollout_locked (fresh : str → str) (rollout : str) (now : Z) (approved : bool) (s : ddb)
  : result dl_exn (bool * ddb) :=
  match get_campaign rollout s with
  | None => Ok (false, s)
  | Some c =>
      if negb (rstatus_in evaluated_statuses c) then Ok (false, s)
      else
        let s := update_campaign rollout (λ c, c <| rc_updated := now |>) s in
        if rstatus_in [ROLLING_BACK] c then
          Ok (false,
              if rollback_expired rollout now s then
                _action rollout None "rollback_timeout" None
                  (update_campaign rollout (λ c, c <| rc_status := RFAILED |> <| rc_reason := Some (u "ROLLBACK-004 回復 ACK 逾時") |>
                                                   <| rc_updated := now |>) s)
              else s)
        else
          match active_stage rollout s with
          | None => Ok (false, s)
          | Some g => evaluate_stage fresh c g now approved s
          end
  end.

Definition campaign_leb (a b : campaign) : bool :=
  (rc_updated a <? rc_updated b) || ((rc_updated a =? rc_updated b) && str_leb (rc_id a) (rc_id b)).

(** One transaction over a bounded page; [fresh] names a new item per
    campaign and device. *)
Definition evaluate_rollouts (fresh : str → str → str) (now limit : Z) (s : ddb) : result dl_exn (Z * ddb) :=
  let page := take (Z.to_nat (Z.max 1 (Z.min limit 100)))
                (sort_by campaign_leb (List.filter (rstatus_in evaluated_statuses) (campaigns s))) in
  for_rows (λ c '(n, s), let* (changed, s) := _evaluate_rollout_locked (fresh (rc_id c)) (rc_id c) now false s in
                         Ok (if changed then n + 1 else n, s)) page (0, s).

(** ** Acknowledgements *)

Definition outcome_of (e : ack_event) : target_status :=
  match e with DISPLAY_COMPLETED => TSucceeded | DISPLAY_FAILED => TFailed | _ => TInProgress end.

Definition all_restored (rollout : str) (s : ddb) : bool :=
  negb (existsb (λ t, str_eqb (rt_rollout t) rollout && negb (tstatus_in [TSucceeded; TRollbackSkippedOffline] t)) (targets s)).

(** One row of [rollout_targets t JOIN rollout_campaigns c]; [error] is the
    reported code, cut to 64 characters. *)
Definition record_target_ack (fresh : str → str → str) (d : str) (e : ack_event) (error : option str) (now : Z)
    (tc : target * campaign) (s : ddb) : result dl_exn ddb :=
  let '(t, c) := tc in
  let rollout := rt_rollout t in
  if negb (rstatus_in live_statuses c) then Ok s
  else
    let st := outcome_of e in
    let failed := bool_decide (st = TFailed) in
    let s := update_target rollout d (λ x, x <| rt_status := st |> <| rt_error := error |> <| rt_updated := now |>) s in
    let s := s <| healths := healths s ++ [mk_health rollout d (inr e) (if failed then "error" else "info") error now] |> in
    if rstatus_in [ROLLING_BACK] c then
      if failed then
        Ok (update_campaign rollout (λ c, c <| rc_status := RFAILED |> <| rc_reason := Some (u "ROLLBACK-003 回復顯示失敗") |>
                                            <| rc_updated := now |>) s)
      else if bool_decide (st = TSucceeded) && all_restored rollout s then
        Ok (_action rollout None "rollback_completed" None (set_status rollout ROLLED_BACK now s))
      else Ok s
    else let* (_, s) := _evaluate_rollout_locked (fresh rollout) rollout now false s in Ok s.

Definition _record_rollout_ack_locked (fresh : str → str → str) (item d : str) (e : ack_event) (error : option str) (now : Z) (s : ddb)
  : result dl_exn ddb :=
  for_rows (record_target_ack fresh d e error now)
    (omap (λ t, (λ c, (t, c)) <$> get_campaign (rt_rollout t) s)
       (List.filter (λ t, same_text (rt_item t) (Some item)) (targets s))) s.

(** ** Creation, start and transitions *)

Record stage_spec := mk_stage_spec {
  sp_percent : option Z; sp_observe : option Z; sp_min_success : option Z; sp_max_failure : option f64; sp_max_timeout : option f64;
  sp_min_ack : option f64; sp_manual : bool; sp_ack_timeout : option Z }.
Definition percent_spec (p : Z) (min_success : option Z) : stage_spec := mk_stage_spec (Some p) None min_success None None None false None.
Definition default_stages : list stage_spec :=
  [percent_spec 1 (Some 1); percent_spec 10 None; percent_spec 50 None; percent_spec 100 None].

Definition tenth : f64 := dec 1 10.
Definition nine_tenths : f64 := dec 9 10.
Definition unit_rate (x : f64) : bool := fleb f0 x && fleb x (f64_of_Z 1).
Definition rates_ok (p : stage_spec) : bool :=
  unit_rate (default tenth (sp_max_failure p)) && unit_rate (default tenth (sp_max_timeout p)) && unit_rate (default nine_tenths (sp_min_ack p)).

Definition stage_of (rollout : str) (n : Z) (p : stage_spec) : stage :=
  mk_stage rollout n (Z.max 1 (Z.min (default 100 (sp_percent p)) 100)) (Z.max 1 (Z.min (default 30 (sp_observe p)) 1440))
    (Z.max 1 (default 1 (sp_min_success p))) (default tenth (sp_max_failure p)) (default tenth (sp_max_timeout p))
    (default nine_tenths (sp_min_ack p)) (sp_manual p) (Z.max 1 (Z.min (default 1440 (sp_ack_timeout p)) 10080)) StPending None None.

Definition create_rollout (id release user : str) (specs : list stage_spec) (now : Z) (s : ddb) : result dl_exn ddb :=
  let specs := match specs with [] => default_stages | _ => specs end in
  raise_if (negb (forallb rates_ok specs)) (DValue "ROLLOUT-002") ;;;
  raise_if (negb (match get_release release s with Some r => published r | None => false end)) (DValue "ROLLOUT-001") ;;;
  raise_if (has_key rc_id id (campaigns s)) DIntegrity ;;;
  let s := s <| campaigns := campaigns s ++ [mk_campaign id release DRAFT None None None now now] |>
             <| stages := stages s ++ imap (λ i p, stage_of id (Z.of_nat i + 1) p) specs |> in
  Ok (_action id (Some user) "create" None s).

Definition start_rollout (fresh : str → str) (rollout actor : str) (now : Z) (s : ddb) : result dl_exn ddb :=
  match get_campaign rollout s with
  | None => Raise DKey
  | Some c =>
      raise_if (negb (rstatus_in [DRAFT] c)) (DValue "ROLLOUT-001") ;;;
      match head (sort_by stage_leb (List.filter (λ g, str_eqb (rs_rollout g) rollout) (stages s))) with
      | None => Raise (DValue "ROLLOUT-001")
      | Some g =>
          let* (refused, s) := _allocate_rollout_stage_locked fresh c g now s in
          match refused with
          | Some code => Raise (DValue code)
          | None => Ok (_action rollout (Some actor) "start_canary" None (set_status rollout CANARY now s))
          end
      end
  end.

(** Resuming shifts the running observation and the open deadlines by the
    length of the pause. *)
Definition resume (rollout : str) (duration : Z) (s : ddb) : result dl_exn ddb :=
  let ids := rollout_items rollout s in
  let running (g : stage) := str_eqb (rs_rollout g) rollout && bool_decide (rs_status g = StActive) in
  raise_if (existsb (λ g, running g && is_null (rs_started g)) (stages s)) (DValue "isoformat") ;;;
  Ok (s <| stages := update_where running (λ g, g <| rs_started := (λ t, t + duration) <$> rs_started g |>) (stages s) |>
    <| items := update_where (λ i, str_in (qi_id i) ids && item_active i)
                   (λ i, i <| qi_ack_deadline := (λ t, t + duration) <$> qi_ack_deadline i |>) (items s) |>).

Definition plain_transition (rollout actor : str) (c : campaign) (target : rollout_status) (reason : option str) (now : Z) (s : ddb)
  : result dl_exn ddb :=
  let* (paused, s) :=
    (if bool_decide (target = PAUSED) then Ok (Some now, s)
     else match rc_status c, rc_paused_at c with
          | PAUSED, Some since => let* s := resume rollout (Z.max 0 (now - since)) s in Ok (None, s)
          | _, p => Ok (p, s)
          end) in
  Ok (_action rollout (Some actor) (rollout_name target) reason
    (update_campaign rollout (λ x, x <| rc_status := target |> <| rc_cohort := rc_cohort c |> <| rc_paused_at := paused |> <| rc_updated := now |>) s)).

(** [target] is the requested status (an unknown text is in no row of
    [ROLL_OUT_STATES]). *)
Definition transition_rollout (fresh : str → str) (rollout : str) (target : rollout_status) (actor : str) (reason : option str)
    (now : Z) (s : ddb) : result dl_exn (option string * ddb) :=
  match get_campaign rollout s with
  | None => Raise DKey
  | Some c =>
      raise_if (negb (bool_decide (target ∈ ROLL_OUT_STATES (rc_status c)))) (DValue "ROLLOUT-001") ;;;
      if bool_decide (target = ROLLING_BACK) then
        let* s := _start_rollback_locked fresh rollout now (str_or reason (u "人工回復")) (Some actor) s in
        Ok (match get_campaign rollout s with
            | Some c => if rstatus_in [RFAILED] c then Some "ROLLBACK-002" else None
            | None => None
            end, s)
      else if bool_decide (target = EXPANDING) && negb (rstatus_in [PAUSED] c) then
        let* (advanced, s) := _evaluate_rollout_locked fresh rollout now true s in
        Ok (if advanced then None else Some "ROLLOUT-002",
            if advanced then _action rollout (Some actor) "approve" reason s else s)
      else let* s := plain_transition rollout actor c target reason now s in Ok (None, s)
  end.
