(* ===== verification/ContentQueue.v ===== *)
(** * The device content queue (repositories/resilience.py)

    [ensure_queue], [enqueue_release], [queue_ack] and the queue part of
    [expire_operational_data], with [release_source_photo_ids]
    (domain/rendering/release_sources.py) and [json_int]
    (core/json_values.py).

    A payload is the parsed JSON object a frame posts; [py_str] is the text
    Python's [str] gives a value that is not a text.  The display times an
    administrator passes to [enqueue_release] are the instants of their ISO
    texts. *)

From S2P Require Import Prelude PyStr PyFloat Json Sql Reservations OfflineSchedule Devices Delivery Rollouts.
Local Open Scope Z_scope.

(** ** Queues and items *)

Definition ensure_queue (d : str) (depth now : Z) (s : ddb) : result dl_exn ddb :=
  raise_if (negb ((1 <=? depth) && (depth <=? 24))) (DValue "QUEUE-001") ;;;
  raise_if (negb (existsb (λ v, str_eqb (v_id v) d && v_enabled v) (devs s))) DKey ;;;
  let s := if has_key cq_device d (queues s) then s else s <| queues := queues s ++ [new_queue d depth now] |> in
  Ok (update_queue d (λ q, q <| cq_depth := depth |> <| cq_updated := now |>) s).

Record enqueue_args := mk_enqueue {
  eq_device : str; eq_release : str; eq_position : option Z; eq_priority : Z; eq_display_after : option Z; eq_expires : option Z;
  eq_key : option str; eq_mode : str; eq_prefetch : bool; eq_slot : option str; eq_ack_deadline : option Z;
  eq_schedule : option str; eq_retention : option Z }.

Definition clamp_priority (p : Z) : Z := Z.max 1 (Z.min p 1000).

Definition same_opt {A} `{EqDecision A} (a b : option A) : bool := bool_decide (a = b).

(** The prior item of the idempotency key answers the same request. *)
Definition same_request (a : enqueue_args) (offline : bool) (i : queue_item) : bool :=
  str_eqb (qi_release i) (eq_release a) && (qi_priority i =? clamp_priority (eq_priority a))
  && same_opt (qi_display_after i) (eq_display_after a) && same_opt (qi_expires i) (eq_expires a)
  && Bool.eqb (qi_offline i) offline && Bool.eqb (qi_prefetch i) (eq_prefetch a) && same_opt (qi_slot i) (eq_slot a)
  && same_opt (qi_ack_deadline i) (eq_ack_deadline a) && same_opt (qi_schedule i) (eq_schedule a)
  && same_opt (qi_retention i) (eq_retention a)
  && match eq_position a with Some p => qi_position i =? p | None => true end.

Definition waiting_online (d : str) (i : queue_item) : bool := of_device d i && negb (qi_offline i) && item_active i.

(** ORDER BY priority ASC, position DESC, id DESC *)
Definition eviction_leb (a b : queue_item) : bool :=
  (qi_priority a <? qi_priority b)
  || ((qi_priority a =? qi_priority b)
      && ((qi_position b <? qi_position a) || ((qi_position a =? qi_position b) && str_leb (qi_id b) (qi_id a)))).

(** The queue is full: its least item that was not downloaded gives way. *)
Definition evict (d : str) (now : Z) (s : ddb) : ddb :=
  let s := match head (sort_by eviction_leb
                   (List.filter (λ i, of_device d i && negb (qi_offline i) && status_in [QPending; QReady; QAvailable] i) (items s))) with
           | Some i => update_item (qi_id i) (λ x, x <| qi_status := QCancelled |> <| qi_updated := now |>) s
           | None => s
           end in
  update_queue d (λ q, q <| cq_version := cq_version q + 1 |> <| cq_updated := now |>) s.

Definition bump (d release : str) (now : Z) : ddb → ddb :=
  update_queue d (λ q, q <| cq_version := cq_version q + 1 |> <| cq_next := Some release |> <| cq_updated := now |>).

(** The checks of an offline request before the release is looked up. *)
Definition mode_check (a : enqueue_args) (offline : bool) (s : ddb) : result dl_exn unit :=
  match get_device (devs s) (eq_device a) with
  | None => Raise (if offline then DValue "QUEUE-005" else DKey)
  | Some d =>
      if offline then
        raise_if (negb (offline_device d && c_prefetch_allowed (v_config d))) (DValue "QUEUE-005") ;;;
        raise_if (negb (existsb (λ o, same_text (Some (os_id o)) (eq_schedule a) && str_eqb (os_device o) (eq_device a)) (schedules s)))
          (DValue "QUEUE-005")
      else raise_if (offline_device d) (DValue "QUEUE-005")
  end.

Definition compatible (a : enqueue_args) (s : ddb) : bool :=
  match get_release (eq_release a) s, get_device (devs s) (eq_device a) with
  | Some r, Some d => published r && str_eqb (rl_profile r) (c_panel (v_config d))
  | _, _ => false
  end.

Definition enqueue_new (a : enqueue_args) (id : str) (key : option str) (offline : bool) (now : Z) (q : queue) (s : ddb)
  : result dl_exn (queue_item * ddb) :=
  mode_check a offline s ;;;
  raise_if (negb (compatible a s)) (DValue "QUEUE-002") ;;;
  match find_where (λ i, of_device (eq_device a) i && str_eqb (qi_release i) (eq_release a) && item_active i) (items s) with
  | Some i => Ok (i, s)
  | None =>
      raise_if offline (DValue "QUEUE-005") ;;;
      let s := if cq_depth q <=? countb (waiting_online (eq_device a)) (items s) then evict (eq_device a) now s else s in
      let position := match eq_position a with
                      | Some p => if p =? 0 then max_position (eq_device a) s + 1 else p
                      | None => max_position (eq_device a) s + 1
                      end in
      let i := mk_queue_item id (eq_device a) (eq_release a) position (clamp_priority (eq_priority a)) (eq_display_after a) (eq_expires a)
                 QReady None None 0 None key offline (eq_prefetch a) (eq_slot a) (eq_ack_deadline a) (eq_retention a) (eq_schedule a)
                 now now in
      let* s := insert_item i s in
      Ok (i, bump (eq_device a) (eq_release a) now s)
  end.

Definition enqueue_release (a : enqueue_args) (id : str) (now : Z) (s : ddb) : result dl_exn (queue_item * ddb) :=
  let key := match strip (str_or (eq_key a) []) with [] => None | k => Some k end in
  raise_if (match key with Some k => 256 <? slen k | None => false end) (DValue "QUEUE-005") ;;;
  raise_if (negb (str_in (eq_mode a) [u "online_queue"; u "offline_schedule"])) (DValue "QUEUE-005") ;;;
  let offline := str_eqb (eq_mode a) (u "offline_schedule") in
  raise_if (negb (Bool.eqb offline (eq_prefetch a))) (DValue "QUEUE-005") ;;;
  raise_if (if offline then match strip (str_or (eq_schedule a) []) with [] => true | _ => false end else negb (is_null (eq_schedule a)))
    (DValue "QUEUE-005") ;;;
  match find_where (λ i, of_device (eq_device a) i && same_text (qi_key i) key) (items s) with
  | Some i => if same_request a offline i then Ok (i, s) else Raise (DValue "IDEMPOTENCY_CONFLICT")
  | None =>
      match get_queue (eq_device a) s with
      | None => Raise (DValue "QUEUE-001")
      | Some q => enqueue_new a id key offline now q s
      end
  end.

(** ** Acknowledgements *)

Definition QUEUE_EVENTS : list (str * ack_event) :=
  [(u "MANIFEST_RECEIVED", MANIFEST_RECEIVED); (u "DOWNLOAD_STARTED", DOWNLOAD_STARTED);
   (u "DOWNLOAD_COMPLETED", DOWNLOAD_COMPLETED); (u "HASH_VERIFIED", HASH_VERIFIED); (u "DISPLAY_STARTED", DISPLAY_STARTED);
   (u "DISPLAY_COMPLETED", DISPLAY_COMPLETED); (u "DISPLAY_FAILED", DISPLAY_FAILED)].

Definition QUEUE_STATUS_FOR_EVENT (e : ack_event) : queue_status :=
  match e with
  | MANIFEST_RECEIVED | DOWNLOAD_STARTED => QAvailable
  | DOWNLOAD_COMPLETED => QDownloaded
  | HASH_VERIFIED | DISPLAY_STARTED => QAcknowledged
  | DISPLAY_COMPLETED => QDisplayed
  | DISPLAY_FAILED => QFailed
  end.

Definition QUEUE_ALLOWED_EVENTS (s : queue_status) : list ack_event :=
  match s with
  | QReady => [MANIFEST_RECEIVED; DOWNLOAD_STARTED; DISPLAY_FAILED]
  | QAvailable => [MANIFEST_RECEIVED; DOWNLOAD_STARTED; DOWNLOAD_COMPLETED; DISPLAY_FAILED]
  | QDownloaded => [DOWNLOAD_COMPLETED; HASH_VERIFIED; DISPLAY_FAILED]
  | QAcknowledged => [HASH_VERIFIED; DISPLAY_STARTED; DISPLAY_COMPLETED; DISPLAY_FAILED]
  | QDisplayed => [DISPLAY_COMPLETED]
  | QFailed | QExpired | QCancelled | QPending => []
  end.

Definition event_in (l : list ack_event) (e : ack_event) : bool := bool_decide (e ∈ l).

Definition json_int (p : list (str * json)) (field : string) (minimum maximum : Z) (code : string) : result dl_exn Z :=
  match assoc_get (u field) p with
  | Some (JInt n) => if (minimum <=? n) && (n <=? maximum) then Ok n else Raise (DValue code)
  | _ => Raise (DValue code)
  end.

(** [raw if type(raw) is str else ""] *)
Definition text_member (p : list (str * json)) (field : string) : str :=
  match assoc_get (u field) p with Some (JStr t) => t | _ => [] end.

(** A dict, or the error of calling [.get] on another value. *)
Definition as_dict (j : json) : result dl_exn (list (str * json)) :=
  match j with JObj m => Ok m | _ => Raise DType end.
(** The values a [for] loop visits: members of a list, keys of a dict,
    characters of a text. *)
Definition iterate (j : json) : result dl_exn (list json) :=
  match j with
  | JList l => Ok l
  | JObj m => Ok (map (λ kv, JStr (fst kv)) m)
  | JStr t => Ok (map (λ c, JStr [c]) t)
  | _ => Raise DType
  end.
Definition or_else (j : option json) (d : json) : json := match j with Some v => if truthy v then v else d | None => d end.

Fixpoint split_plus (s cur : str) : list str :=
  match s with
  | [] => [rev cur]
  | c :: s' => if c =? 43 then rev cur :: split_plus s' [] else split_plus s' (c :: cur)
  end.

Section texts.
Context (py_str : json → str).

Definition str_of_json (j : json) : str := match j with JStr t => t | _ => py_str j end.
(** [str(payload.get(field, ""))] *)
Definition text_or_empty (p : list (str * json)) (field : string) : str :=
  match assoc_get (u field) p with Some j => str_of_json j | None => [] end.

Definition plan_ids (plan : json) : list str :=
  match plan with
  | JObj m => omap (λ key, match assoc_get (u key) m with
                           | Some v => if truthy v then Some (str_of_json v) else None
                           | None => None
                           end) ["primary_photo_id"; "secondary_photo_id"]%string
  | _ => []
  end.

Fixpoint file_ids (files : list json) : result dl_exn (list str) :=
  match files with
  | [] => Ok []
  | f :: files' =>
      let* m := as_dict f in
      let* rest := file_ids files' in
      let text := match or_else (assoc_get (u "source_photo_id") m) (JStr []) with JStr t => t | j => py_str j end in
      Ok (List.filter (λ k, match k with [] => false | _ => true end) (split_plus text []) ++ rest)
  end.

Definition release_source_photo_ids (manifest : json) : result dl_exn (list str) :=
  let* m := as_dict manifest in
  let* options := as_dict (or_else (assoc_get (u "render_options") m) (JObj [])) in
  let* plans := iterate (or_else (assoc_get (u "render_plans") options) (JList [])) in
  match concat (map plan_ids plans) with
  | [] =>
      let* files := iterate (match assoc_get (u "files") m with Some j => j | None => JList [] end) in
      let* ids := file_ids files in
      Ok (fromkeys ids)
  | ids => Ok (fromkeys ids)
  end.

(** What the answer to an acknowledgement says. *)
Inductive ack_reply := AckReplayed | AckCommitted (delayed_terminal : bool).

Definition delayed_mode (p : list (str * json)) : bool := str_eqb (text_or_empty p "ack_mode") (u "delayed_terminal").

Definition download_evidence (i : queue_item) (s : ddb) : bool :=
  negb (is_null (qi_downloaded i))
  || existsb (λ e, str_eqb (qe_item e) (qi_id i)
                   && bool_decide (qe_type e ∈ [Ack DOWNLOAD_COMPLETED; Ack HASH_VERIFIED])) (events s).

Definition is_delayed_terminal (p : list (str * json)) (e : ack_event) (i : queue_item) (evidence : bool) (now : Z) : bool :=
  event_in [DISPLAY_COMPLETED; DISPLAY_FAILED] e && delayed_mode p && qi_offline i && qi_prefetch i && opt_truthy (qi_schedule i)
  && (status_in [QAcknowledged; QDisplayed] i || (status_in [QCancelled] i && evidence))
  && match assoc_get (u "release_id") p with Some j => str_eqb (str_of_json j) (qi_release i) | None => false end
  && match qi_retention i with Some t => now <=? t | None => false end.

Definition progress_events : list ack_event :=
  [DOWNLOAD_COMPLETED; HASH_VERIFIED; DISPLAY_STARTED; DISPLAY_COMPLETED; DISPLAY_FAILED].

Definition version_accepted (version : Z) (q : queue) (p : list (str * json)) (e : ack_event) (delayed evidence : bool) : bool :=
  let stale := (version <? cq_version q) && negb delayed && negb (delayed_mode p) && evidence && event_in progress_events e in
  (cq_version q =? version) || (delayed && (version <=? cq_version q)) || stale.

(** The time of the event, its day in the display history and its source. *)
Record ack_time := mk_ack_time { at_event : Z; at_date : Z; at_source : string }.

Definition skew : Z := minutes 10.

Definition present (p : list (str * json)) (field : string) : bool :=
  match assoc_get (u field) p with Some JNull | None => false | Some _ => true end.

Definition ack_time_of (p : list (str * json)) (i : queue_item) (delayed : bool) (now : Z) (s : ddb) : result dl_exn ack_time :=
  if negb delayed then Ok (mk_ack_time now (now / day) "server_fallback")
  else
    match find_where (λ x, str_eqb (sl_item x) (qi_id i) && same_text (Some (sl_schedule x)) (qi_schedule i)) (slots s) with
    | None => Raise (DValue "QUEUE-005")
    | Some x =>
        match get_schedule (sl_schedule x) s with
        | None => Raise (DValue "QUEUE-005")
        | Some o =>
            if present p "event_epoch" then
              let* n := json_int p "event_epoch" 1 4102444800 "QUEUE-005" in
              let t := n * 1000000 in
              raise_if ((now + skew <? t) || (t <? sl_show x - skew)
                        || match qi_retention i with Some r => r <? t | None => true end) (DValue "QUEUE-005") ;;;
              Ok (mk_ack_time t (os_date o) "device_event")
            else Ok (mk_ack_time now (os_date o) "server_fallback")
        end
    end.

(** UPDATE device_content_queue_items *)
Definition acked (e : ack_event) (delayed : bool) (at_ now : Z) (error : option str) (i : queue_item) : queue_item :=
  i <| qi_status := if status_in [QCancelled] i && delayed then QCancelled else QUEUE_STATUS_FOR_EVENT e |>
    <| qi_downloaded := if event_in [DOWNLOAD_COMPLETED; HASH_VERIFIED] e then Some now else qi_downloaded i |>
    <| qi_displayed := match qi_displayed i with
                       | Some t => Some t
                       | None => if bool_decide (e = DISPLAY_COMPLETED) then Some at_ else None
                       end |>
    <| qi_retry := qi_retry i + (if bool_decide (e = DISPLAY_FAILED) then 1 else 0) |>
    <| qi_error := error |> <| qi_updated := now |>.

(** The pointer of the frame follows the time of display, not of arrival. *)
Definition advance_pointer (d : str) (q : queue) (release : str) (at_ now : Z) (s : ddb) : result dl_exn ddb :=
  let move := update_queue d (λ q, q <| cq_current := Some release |> <| cq_current_at := Some at_ |> <| cq_good := Some release |>
                                     <| cq_good_at := Some at_ |> <| cq_updated := now |>) s in
  match str_or (cq_current q) [], cq_current_at q with
  | (_ :: _) as current, Some t =>
      if t <? at_ then Ok move
      else if (at_ =? t) && negb (str_eqb current release) then Raise (DValue "QUEUE-005")
      else Ok s
  | _, _ => Ok move
  end.

Definition show_photo (d : str) (i : queue_item) (t : ack_time) (photo : str) (s : ddb) : ddb :=
  if existsb (str_eqb photo) (photos s)
     && negb (existsb (λ h, str_eqb (sh_photo h) photo && str_eqb (sh_release h) (qi_release i) && str_eqb (sh_item h) (qi_id i)) (history s))
  then s <| history := history s ++ [mk_shown photo (at_date t) (qi_release i) (at_event t) d (qi_id i) (at_source t)] |>
  else s.

Definition record_display (d : str) (q : queue) (i : queue_item) (t : ack_time) (now : Z) (s : ddb) : result dl_exn ddb :=
  let* s := advance_pointer d q (qi_release i) (at_event t) now s in
  let manifest := match get_release (qi_release i) s with Some r => default (JObj []) (rl_manifest r) | None => JObj [] end in
  let* ids := release_source_photo_ids manifest in
  Ok (fold_left (λ s k, match k with [] => s | _ => show_photo d i t k s end) ids s).

Definition cut_code (j : str) : option str := match take 64 j with [] => None | c => Some c end.
Definition rollout_error (p : list (str * json)) : option str :=
  cut_code (match assoc_get (u "error_code") p with Some j => if truthy j then str_of_json j else [] | None => [] end).

(** The members kept in payload_json. *)
Definition logged_payload (p : list (str * json)) : list (str * json) :=
  List.filter (λ kv, negb (str_in (fst kv) [u "token"; u "authorization"])) p.

Definition find_event (item : str) (e : ack_event) (key : str) (s : ddb) : option queue_event :=
  find_where (λ x, str_eqb (qe_item x) item && bool_decide (qe_type x = Ack e) && same_text (qe_key x) (Some key)) (events s).

Definition replay (d : str) (p : list (str * json)) (x : queue_event) : result dl_exn ack_reply :=
  let incoming := strip (text_or_empty p "release_id") in
  raise_if (negb (str_eqb incoming []) && negb (str_eqb incoming (strip (text_or_empty (qe_payload x) "release_id")))) (DValue "QUEUE-005") ;;;
  raise_if (negb (str_eqb (qe_device x) d)) DPermission ;;;
  Ok AckReplayed.

(** The part after the duplicate check, on the item [i] and queue [q]. *)
Definition ack_fresh (fresh : str → str → str) (d : str) (p : list (str * json)) (e : ack_event) (key : str) (version : Z) (i : queue_item)
    (now : Z) (s : ddb) : result dl_exn (ack_reply * ddb) :=
  let evidence := download_evidence i s in
  let delayed := is_delayed_terminal p e i evidence now in
  match get_queue d s with
  | None => Raise (DValue "QUEUE-003")
  | Some q =>
      raise_if (negb (version_accepted version q p e delayed evidence)) (DValue "QUEUE-003") ;;;
      raise_if (negb delayed && negb (event_in (QUEUE_ALLOWED_EVENTS (qi_status i)) e)) (DValue "QUEUE-004") ;;;
      raise_if (present p "event_epoch" && negb delayed) (DValue "QUEUE-005") ;;;
      let* t := ack_time_of p i delayed now s in
      let s := s <| events := events s ++ [mk_queue_event (qi_id i) d (Ack e) (Some key) (logged_payload p) now] |> in
      let s := update_item (qi_id i) (acked e delayed (at_event t) now (cut_code (text_or_empty p "error_code"))) s in
      let* s := (if bool_decide (e = DISPLAY_COMPLETED) then record_display d q i t now s else Ok s) in
      let* s := _record_rollout_ack_locked fresh (qi_id i) d e (rollout_error p) now s in
      Ok (AckCommitted delayed, s)
  end.

Definition queue_ack (fresh : str → str → str) (d : str) (p : list (str * json)) (now : Z) (s : ddb) : result dl_exn (ack_reply * ddb) :=
  let item := text_member p "queue_item_id" in
  let key := strip (text_member p "idempotency_key") in
  match assoc_get (text_member p "event") QUEUE_EVENTS with
  | None => Raise (DValue "QUEUE-001")
  | Some e =>
      raise_if (str_eqb item [] || (128 <? slen item) || str_eqb key [] || (128 <? slen key)) (DValue "QUEUE-001") ;;;
      let* version := json_int p "queue_version" 0 2147483647 "QUEUE-001" in
      match find_where (λ i, str_eqb (qi_id i) item && of_device d i) (items s) with
      | None => Raise DPermission
      | Some i =>
          match find_event item e key s with
          | Some x => let* r := replay d p x in Ok (r, s)
          | None => ack_fresh fresh d p e key version i now s
          end
      end
  end.
End texts.

(** ** Expiry *)

Definition expirable (now : Z) (i : queue_item) : bool :=
  negb (status_in [QDisplayed; QExpired; QCancelled] i)
  && match qi_expires i with Some t => t <=? now | None => false end
  && negb (status_in [QAcknowledged] i && qi_offline i && match qi_retention i with Some t => now <? t | None => false end).

Definition mentions (release : str) (q : queue) : bool :=
  existsb (λ x, same_text x (Some release)) [cq_current q; cq_good q; cq_next q; cq_emergency q].

Definition collectable (cutoff now : Z) (s : ddb) (i : queue_item) : bool :=
  status_in terminal_statuses i && negb (qi_offline i) && is_null (qi_schedule i) && (qi_updated i <? cutoff)
  && match qi_retention i with Some t => t <? now | None => true end
  && negb (existsb (λ e, str_eqb (qe_item e) (qi_id i)) (events s))
  && negb (existsb (λ t, same_text (rt_item t) (Some (qi_id i))) (targets s))
  && negb (existsb (λ q, str_eqb (cq_device q) (qi_device i) && mentions (qi_release i) q) (queues s)).

Definition collect_leb (a b : queue_item) : bool :=
  (qi_updated a <? qi_updated b) || ((qi_updated a =? qi_updated b) && str_leb (qi_id a) (qi_id b)).

(** The queue's part of the maintenance step: expiry, then the removal of
    at most 200 unreferenced items older than ninety days. *)
Definition expire_operational_data (now : Z) (s : ddb) : ddb :=
  let s := s <| items := update_where (expirable now) (λ i, i <| qi_status := QExpired |> <| qi_updated := now |>) (items s) |> in
  let gone := map qi_id (take 200 (sort_by collect_leb (List.filter (collectable (now - 90 * day) now s) (items s)))) in
  s <| items := List.filter (λ i, negb (str_in (qi_id i) gone)) (items s) |>.
