(* ===== verification/OfflineStore.v ===== *)
(** * Offline playlists (repositories/offline_schedules.py)

    Preparation of a device-day playlist, the replacement of one slot, the
    durable recovery state of a failed preparation and the deadlines the
    scheduler reads, with [payload_entry_from_manifest]
    (services/device_releases.py).

    The IANA database is the argument [zone_named]; the weekly settings, new
    identifiers and the clock are arguments as well.  A [target_date] is its
    day number: a text that is not a date is refused before anything else. *)

From S2P Require Import Prelude PyStr Json Sql Reservations Sha256 Calendar OfflineSchedule Devices Delivery.
Local Open Scope Z_scope.

(** ** Release manifests *)

Record payload_entry := mk_entry { pe_name : str; pe_size : Z; pe_sha : str; pe_source : option json }.

Definition MAX_DEVICE_PAYLOAD_BYTES : Z := 64 * 1024 * 1024.
Definition lower_ascii (c : Z) : Z := if (65 <=? c) && (c <=? 90) then c + 32 else c.
Definition is_hex (c : Z) : bool :=
  ((48 <=? c) && (c <=? 57)) || ((65 <=? c) && (c <=? 70)) || ((97 <=? c) && (c <=? 102)).
Definition payload_digest (s : str) : bool := (slen s =? 64) && forallb is_hex s.

(** [name.lower().endswith(".bin")]: no other character lowers to one of these. *)
Definition is_bin (name : str) : bool := starts_with (rev (u ".bin")) (rev (map lower_ascii name)).

Definition bad_name (name : str) : bool :=
  str_in name [[]; u "."; u ".."; u "manifest.json"] || contains (u "..") name
  || existsb (λ c, (c =? 0) || (c =? 47) || (c =? 92)) name.

Fixpoint payload_entries (files : list json) (names : list str) : result dl_exn (list payload_entry) :=
  match files with
  | [] => Ok []
  | JObj m :: files' =>
      match assoc_get (u "name") m with
      | Some (JStr name) =>
          raise_if (bad_name name || str_in name names) (DValue "QUEUE-002") ;;;
          if negb (is_bin name) then payload_entries files' (name :: names)
          else
            match assoc_get (u "size") m, assoc_get (u "sha256") m with
            | Some (JInt size), Some (JStr digest) =>
                raise_if (negb ((1 <=? size) && (size <=? MAX_DEVICE_PAYLOAD_BYTES) && payload_digest digest)) (DValue "QUEUE-002") ;;;
                let* rest := payload_entries files' (name :: names) in
                Ok (mk_entry name size (map lower_ascii digest) (assoc_get (u "source_photo_id") m) :: rest)
            | _, _ => Raise (DValue "QUEUE-002")
            end
      | _ => Raise (DValue "QUEUE-002")
      end
  | _ :: _ => Raise (DValue "QUEUE-002")
  end.

Definition payload_entries_from_manifest (manifest : json) : result dl_exn (list payload_entry) :=
  match manifest with
  | JObj m =>
      match assoc_get (u "files") m with
      | Some (JList files) =>
          let* es := payload_entries files [] in
          raise_if (match es with [] => true | _ => false end) (DValue "QUEUE-002") ;;;
          Ok es
      | _ => Raise (DValue "QUEUE-002")
      end
  | _ => Raise DType
  end.

Definition payload_entry_from_manifest (manifest : json) : result dl_exn payload_entry :=
  let* es := payload_entries_from_manifest manifest in
  match es with [e] => Ok e | _ => Raise (DValue "QUEUE-002") end.

Definition _manifest_entry (manifest_json : option json) : result dl_exn payload_entry :=
  match manifest_json with Some m => payload_entry_from_manifest m | None => Raise (DValue "QUEUE-002") end.

(** ** The identity of a playlist *)

(** [json.dumps(text, ensure_ascii=False)] *)
Definition hex2 (c : Z) : str := [hex_digit (c / 16); hex_digit (c mod 16)].
Definition json_escape (c : Z) : str :=
  if c =? 34 then [92; 34] else if c =? 92 then [92; 92]
  else if c =? 10 then [92; 110] else if c =? 13 then [92; 114] else if c =? 9 then [92; 116]
  else if c =? 12 then [92; 102] else if c =? 8 then [92; 98]
  else if (0 <=? c) && (c <? 32) then [92; 117; 48; 48] ++ hex2 c
  else [c].
Definition json_text (s : str) : str := [34] ++ concat (map json_escape s) ++ [34].
Fixpoint json_items (l : list str) : str :=
  match l with
  | [] => []
  | [x] => json_text x
  | x :: l' => json_text x ++ [44] ++ json_items l'
  end.
Definition json_texts (l : list str) : str := [91] ++ json_items l ++ [93].
Definition json_integer (n : Z) : str := if n <? 0 then 45 :: z_str (- n) else z_str n.

(** [day.isoformat()] *)
Definition date_text (d : Z) : str :=
  let c := ord2ymd (d + epoch_ordinal) in
  pad2 (d_year c / 100) ++ pad2 (d_year c mod 100) ++ [45] ++ pad2 (d_month c) ++ [45] ++ pad2 (d_day c).

Record playlist := mk_playlist {
  pl_device : str; pl_date : str; pl_config : Z; pl_times : list str; pl_releases : list str }.

Definition key_of (name : string) : str := [34] ++ u name ++ [34; 58].

Definition playlist_text (p : playlist) : str :=
  [123] ++ key_of "config_version" ++ json_integer (pl_config p) ++ [44] ++ key_of "device_id" ++ json_text (pl_device p)
  ++ [44] ++ key_of "release_ids" ++ json_texts (pl_releases p) ++ [44] ++ key_of "schedule_times" ++ json_texts (pl_times p)
  ++ [44] ++ key_of "target_date" ++ json_text (pl_date p) ++ [125].

Definition playlist_version (p : playlist) : str := sha256_hex (playlist_text p).

(** ** The columns of devices this repository writes *)

Definition dconfig_eta (c : dconfig) : dconfig :=
  mk_dconfig (c_name c) (c_timezone c) (c_schedule c) (c_rotation c) (c_panel c) (c_orientation c) (c_layout c) (c_fit c)
    (c_delivery c) (c_prefetch_allowed c) (c_offline_schedule c) (c_offline_version c) (c_schedule_times c) (c_prefetch_lead c)
    (c_button c) (c_gap c) (c_sync_strategy c) (c_sync_time c) (c_stock_host c) (c_max_slots c) (c_capability c) (c_next_prepare c).
#[export] Instance set_c_next_prepare : Settable c_next_prepare := ltac:(derive_setter dconfig_eta c_next_prepare).
#[export] Instance set_v_config : Settable v_config := ltac:(derive_setter device_eta v_config).

Definition next_prepare (d : device) : option Z := c_next_prepare (v_config d).
Definition with_next_prepare (t : option Z) (d : device) : device := d <| v_config := (v_config d) <| c_next_prepare := t |> |>.

(** UPDATE devices SET next_offline_prepare_at=? WHERE id=? AND config_version=? *)
Definition postpone (d : str) (config : Z) (t : Z) (s : ddb) : ddb :=
  s <| devs := update_where (λ x, str_eqb (v_id x) d && (v_config_version x =? config)) (with_next_prepare (Some t)) (devs s) |>.

Definition offline_ready_device (d : device) : bool :=
  v_enabled d && offline_device d && c_prefetch_allowed (v_config d)
  && str_in (c_capability (v_config d)) (map u ["unknown_12"; "confirmed_16"; "confirmed_24"]%string).

(** [due_prefetch_devices]: the devices and [has_more]. *)
Definition deadline_leb (a b : device) : bool :=
  match next_prepare a, next_prepare b with
  | Some x, Some y => (x <? y) || ((x =? y) && str_leb (v_id a) (v_id b))
  | _, _ => true
  end.
Definition prepare_due (now : Z) (d : device) : bool :=
  offline_ready_device d && match next_prepare d with Some t => t <=? now | None => false end.
Definition due_prefetch_devices (limit now : Z) (s : ddb) : list device * bool :=
  let bounded := Z.max 1 (Z.min limit 128) in
  let rows := take (Z.to_nat (bounded + 1)) (sort_by deadline_leb (List.filter (prepare_due now) (devs s))) in
  (take (Z.to_nat bounded) rows, bounded <? Z.of_nat (length rows)).

Definition invalidate_prepare_deadlines_for_policy_change (s : ddb) : Z * ddb :=
  let hit (d : device) := offline_ready_device d && negb (bool_decide (next_prepare d = Some bootstrap)) in
  (countb hit (devs s), s <| devs := update_where hit (with_next_prepare (Some bootstrap)) (devs s) |>).

Definition set_next_prepare_deadline (d : str) (deadline config : option Z) (s : ddb) : bool * ddb :=
  let hit (x : device) :=
    str_eqb (v_id x) d && match config with Some n => v_config_version x =? n | None => true end
    && negb (bool_decide (next_prepare x = deadline)) in
  (existsb hit (devs s), s <| devs := update_where hit (with_next_prepare deadline) (devs s) |>).

(** ** Reading a playlist back *)

Definition schedule_key (d : str) (date config : Z) (o : schedule) : bool :=
  str_eqb (os_device o) d && (os_date o =? date) && (os_config o =? config).
Definition find_schedule (d : str) (date config : Z) (s : ddb) : option schedule := find_where (schedule_key d date config) (schedules s).
Definition update_schedule (k : str) (f : schedule → schedule) (s : ddb) : ddb :=
  s <| schedules := update_where (by_key os_id k) f (schedules s) |>.
Definition sstatus_in (l : list schedule_status) (o : schedule) : bool := bool_decide (os_status o ∈ l).

Definition slot_leb (a b : slot) : bool := sl_index a <=? sl_index b.
Definition slots_of (k : str) (s : ddb) : list slot := sort_by slot_leb (List.filter (λ x, str_eqb (sl_schedule x) k) (slots s)).

(** [schedule_times_json] as the list it encodes; a member that is not a text
    is no valid time, whatever [str] makes of it. *)
Definition times_of (j : json) : option (list str) :=
  match j with JList l => Some (map (λ v, match v with JStr t => t | _ => u "?" end) l) | _ => None end.

Record slot_view := mk_slot_view { vw_slot : slot; vw_item : queue_item; vw_entry : payload_entry; vw_queue_version : Z }.

(** One row of the JOIN of slots, releases, items and queues. *)
Definition view_slot (x : slot) (s : ddb) : result dl_exn (option slot_view) :=
  match get_release (sl_release x) s, get_item (sl_item x) s with
  | Some r, Some i =>
      let* e := _manifest_entry (rl_manifest r) in
      Ok (Some (mk_slot_view x i e (match get_queue (qi_device i) s with Some q => cq_version q | None => 0 end)))
  | _, _ => Ok None
  end.
Fixpoint view_slots (l : list slot) (s : ddb) : result dl_exn (list slot_view) :=
  match l with
  | [] => Ok []
  | x :: l' => let* v := view_slot x s in let* vs := view_slots l' s in Ok (match v with Some v => v :: vs | None => vs end)
  end.

Definition playlist_of (o : schedule) (times releases : list str) : playlist :=
  mk_playlist (os_device o) (date_text (os_date o)) (os_config o) times releases.

Record schedule_view := mk_view { vw_schedule : schedule; vw_version : str; vw_slots : list slot_view }.

Definition _row (k : str) (s : ddb) : result dl_exn (option schedule_view) :=
  match get_schedule k s with
  | None => Ok None
  | Some o =>
      let* vs := view_slots (slots_of k s) s in
      let ids := map (λ v, sl_release (vw_slot v)) vs in
      (* [str(None)] is a text: the version is recomputed only for an empty one *)
      let version := match default (u "None") (sn_playlist (os_snapshot o)) with
                     | [] => match times_of (os_times o) with
                             | Some times => if Nat.eqb (length times) (length ids) && negb (Nat.eqb (length ids) 0)
                                             then playlist_version (playlist_of o times ids) else []
                             | None => []
                             end
                     | v => v
                     end in
      Ok (Some (mk_view o version vs))
  end.

Definition latest_leb (a b : schedule) : bool :=
  (os_date b <? os_date a) || ((os_date a =? os_date b) && ((os_config b <? os_config a)
     || ((os_config a =? os_config b) && (os_created b <=? os_created a)))).
Definition latest_for_device (d : str) (s : ddb) : result dl_exn (option schedule_view) :=
  match head (sort_by latest_leb (List.filter (λ o, str_eqb (os_device o) d && sstatus_in [SReady] o) (schedules s))) with
  | Some o => _row (os_id o) s
  | None => Ok None
  end.

Definition ready_for_device (d : str) (date config : Z) (s : ddb) : result dl_exn (option schedule_view) :=
  match find_schedule d date config s, get_device (devs s) d with
  | Some o, Some v =>
      if sstatus_in [SReady] o && offline_device v && c_prefetch_allowed (v_config v) then _row (os_id o) s else Ok None
  | _, _ => Ok None
  end.

Record download_totals := mk_totals { dt_total : Z; dt_verified : Z; dt_last : option (str * Z) }.
(** MAX(created_at) of the HASH_VERIFIED events of an item. *)
Definition verified_at (item : str) (s : ddb) : option Z :=
  match map qe_at (List.filter (λ e, str_eqb (qe_item e) item && bool_decide (qe_type e = Ack HASH_VERIFIED)) (events s)) with
  | [] => None
  | t :: ts => Some (fold_left Z.max ts t)
  end.
Definition later (a b : str * Z) : str * Z := if snd a <? snd b then b else a.
Definition download_summary (d : str) (date config : Z) (s : ddb) : download_totals :=
  match find_schedule d date config s with
  | Some o =>
      if sstatus_in [SReady] o then
        let rows := slots_of (os_id o) s in
        let verified := omap (λ x, (λ t, (sl_release x, t)) <$> verified_at (sl_item x) s) rows in
        mk_totals (Z.of_nat (length rows)) (Z.of_nat (length verified))
          (match verified with [] => None | v :: vs => Some (fold_left later vs v) end)
      else mk_totals 0 0 None
  | None => mk_totals 0 0 None
  end.

(** ** Failed preparations *)

Definition SHORTAGE_RETRY_COOLDOWN_SECONDS : Z := 3600.
Definition TRANSIENT_RETRY_BASE_SECONDS : Z := 1800.
Definition TRANSIENT_RETRY_CAP_SECONDS : Z := 14400.
Definition seconds (n : Z) : Z := n * 1000000.
Definition TERMINAL_PREPARATION_OUTCOMES : list str := map u ["NO_CONTENT"; "NO_ELIGIBLE_CANDIDATES"]%string.

Definition terminal_outcome_for_device (d : str) (date config : Z) (s : ddb) : option schedule :=
  match find_schedule d date config s with
  | Some o => if sstatus_in [SFailed] o && match os_outcome o with Some c => str_in c TERMINAL_PREPARATION_OUTCOMES | None => false end
              then Some o else None
  | None => None
  end.

Definition transient_recovery_for_device (d : str) (date config : Z) (s : ddb) : option recovery :=
  match find_schedule d date config s with
  | Some o => if sstatus_in [SReady] o then None else sn_recovery (os_snapshot o)
  | None => None
  end.
Definition transient_recovery_blocks_retry (d : str) (date config now : Z) (s : ddb) : bool :=
  match transient_recovery_for_device d date config s with Some r => now <? rv_next r | None => false end.

(** The row a failed preparation inserts, from the device's columns. *)
Definition failed_schedule (k : str) (v : device) (date now : Z) (snap : snapshot) (code : option str) : schedule :=
  let c := v_config v in
  mk_schedule k (v_id v) date (v_config_version v) (c_timezone c) SFailed now now (c_panel c) (c_rotation c) (c_schedule_times c)
    (c_prefetch_lead c) (c_button c) (c_offline_version c) (c_gap c) (c_sync_strategy c) (c_sync_time c) snap code.

(** PRIMARY KEY of device_offline_schedules. *)
Definition insert_schedule (o : schedule) (s : ddb) : result dl_exn ddb :=
  raise_if (has_key os_id (os_id o) (schedules s)) DIntegrity ;;; Ok (s <| schedules := schedules s ++ [o] |>).

Definition enabled_device (d : str) (s : ddb) : option device :=
  match get_device (devs s) d with Some v => if v_enabled v then Some v else None | None => None end.

Definition next_recovery (previous : option recovery) (now : Z) : recovery :=
  let count := Z.max 0 (match previous with Some r => rv_count r | None => 0 end) + 1 in
  let backoff := Z.min TRANSIENT_RETRY_CAP_SECONDS (TRANSIENT_RETRY_BASE_SECONDS * 2 ^ Z.min (count - 1) 3) in
  mk_recovery count now (now + seconds backoff) backoff.

Definition with_recovery (r : option recovery) (n : snapshot) : snapshot := mk_snapshot (sn_playlist n) (sn_revision n) r.

Definition record_transient_exhausted (fresh d : str) (date config now : Z) (s : ddb) : result dl_exn (option recovery * ddb) :=
  match find_schedule d date config s with
  | Some o =>
      if sstatus_in [SReady] o then Ok (None, s)
      else
        let r := next_recovery (sn_recovery (os_snapshot o)) now in
        raise_if (negb (sstatus_in [Preparing; SFailed] o)) DRuntime ;;;
        let s := update_schedule (os_id o) (λ x, x <| os_status := SFailed |> <| os_updated := now |>
                   <| os_snapshot := with_recovery (Some r) (os_snapshot o) |> <| os_outcome := None |>) s in
        Ok (Some r, postpone d config (rv_next r) s)
  | None =>
      match enabled_device d s with
      | None => Raise DKey
      | Some v =>
          raise_if (negb (v_config_version v =? config)) (DValue "DISPLAY-CONFIG-RACE") ;;;
          let r := next_recovery None now in
          let* s := insert_schedule (failed_schedule fresh v date now (with_recovery (Some r) no_snapshot) None) s in
          Ok (Some r, postpone d config (rv_next r) s)
      end
  end.

Definition clear_transient_recovery (d : str) (date config : Z) (s : ddb) : ddb :=
  match find_schedule d date config s with
  | Some o => update_schedule (os_id o) (λ x, x <| os_snapshot := with_recovery None (os_snapshot o) |>) s
  | None => s
  end.

(** What [terminal_outcome_for_device] handed to the scheduler. *)
Record outcome_seen := mk_outcome { oc_id : str; oc_code : str; oc_updated : Z }.

Definition claimable (d : str) (date config : Z) (t : outcome_seen) (o : schedule) : bool :=
  str_eqb (os_id o) (oc_id t) && schedule_key d date config o && sstatus_in [SFailed] o
  && same_text (os_outcome o) (Some (oc_code t)) && (os_updated o =? oc_updated t).

Definition claim_terminal_outcome_retry (t : option outcome_seen) (d : str) (date config now retry_after : Z) (s : ddb) : bool * ddb :=
  match t with
  | None => (false, s)
  | Some t =>
      let cooldown := Z.max 0 retry_after in
      if negb (str_in (oc_code t) TERMINAL_PREPARATION_OUTCOMES) || (now <? oc_updated t + seconds cooldown) then (false, s)
      else if existsb (claimable d date config t) (schedules s) then
        (true, postpone d config (now + seconds cooldown)
                 (s <| schedules := update_where (claimable d date config t) (λ o, o <| os_updated := now |>) (schedules s) |>))
      else (false, s)
  end.

Inductive outcome_reply := AlreadyReady (id : str) | NoContent (code : str) (idempotent : bool).

Definition record_terminal_outcome (fresh d : str) (date config : Z) (code : str) (now : Z) (s : ddb) : result dl_exn (outcome_reply * ddb) :=
  let code := strip code in
  raise_if (negb (str_in code TERMINAL_PREPARATION_OUTCOMES)) (DValue "DEVICE-008") ;;;
  match enabled_device d s with
  | None => Raise DKey
  | Some v =>
      raise_if (negb (v_config_version v =? config)) (DValue "DISPLAY-CONFIG-RACE") ;;;
      let later := now + seconds SHORTAGE_RETRY_COOLDOWN_SECONDS in
      match find_schedule d date config s with
      | Some o =>
          if sstatus_in [SReady] o then Ok (AlreadyReady (os_id o), s)
          else
            let s := update_schedule (os_id o) (λ x, x <| os_status := SFailed |> <| os_updated := now |>
                       <| os_snapshot := no_snapshot |> <| os_outcome := Some code |>) s in
            Ok (NoContent code true, postpone d config later s)
      | None =>
          let* s := insert_schedule (failed_schedule fresh v date now no_snapshot (Some code)) s in
          Ok (NoContent code false, postpone d config later s)
      end
  end.

(** ** The legacy cursor *)

(** device_offline_prefetch_cursors has at most the row 1; the state is its
    device. *)
Definition prefetch_cursor (row : option str) : option str :=
  match row with Some ((_ :: _) as d) => Some d | _ => None end.
Definition advance_prefetch_cursor (d : str) (row : option str) : option str := Some d.
Definition reset_prefetch_cursor (row : option str) : option str := None.
