(* ===== verification/OfflinePrepare.v ===== *)
(** * Preparing a device-day playlist (repositories/offline_schedules.py)

    [prepare_day] and [replace_slot], one transaction each: the playlist, its
    slots and the queue items that carry them are written together or not at
    all.  The projection both return is read after the commit, so it is a
    result of its own beside the new state. *)

From S2P Require Import Prelude PyStr Json Sql Reservations Calendar OfflineSchedule Devices Delivery OfflineStore.
Local Open Scope Z_scope.

Definition MAX_PREPARED_SLOTS : Z := MAX_OFFLINE_SLOTS.

Definition of_sched {A} (m : result sched_exn A) : result dl_exn A :=
  match m with Ok a => Ok a | Raise _ => Raise (DValue "DEVICE-008") end.

(** [^[A-Za-z0-9][A-Za-z0-9._-]{0,127}$] *)
Definition alnum (c : Z) : bool :=
  ((48 <=? c) && (c <=? 57)) || ((65 <=? c) && (c <=? 90)) || ((97 <=? c) && (c <=? 122)).
Definition _RELEASE_ID (s : str) : bool :=
  match s with
  | c :: s' => alnum c && (slen s' <=? 127) && forallb (λ c, alnum c || (c =? 46) || (c =? 95) || (c =? 45)) s'
  | [] => false
  end.

(** [_is_future_item] *)
Definition _is_future_item (t : option Z) (now : Z) : bool := match t with Some t => now <? t | None => false end.

(** ** Superseding the previous playlists of the day *)

Definition supersede_item (d : str) (date now : Z) (i : queue_item) (s : ddb) : ddb :=
  let s := update_item (qi_id i)
             (λ x, x <| qi_status := QCancelled |> <| qi_error := Some (u "QUEUE-005") |> <| qi_updated := now |>) s in
  let s := ignore_event
             (mk_queue_event (qi_id i) d FutureSlotSuperseded (Some (u "FUTURE_SLOT_SUPERSEDED:" ++ d ++ [58] ++ qi_id i))
                [(u "reason", JStr (u "device_schedule_changed")); (u "change_kind", JStr (u "offline_schedule_reprepared"));
                 (u "offline_slot", match qi_slot i with Some t => JStr t | None => JNull end);
                 (u "offline_schedule_id", match qi_schedule i with Some t => JStr t | None => JNull end);
                 (u "target_date", JStr (date_text date))] now) s in
  s <| targets := update_where (λ t, same_text (rt_item t) (Some (qi_id i)))
                    (λ t, t <| rt_status := TCancelledFuture |> <| rt_error := Some (u "QUEUE-005") |> <| rt_updated := now |>) (targets s) |>.

Definition item_id_leb (a b : queue_item) : bool := str_leb (qi_id a) (qi_id b).

(** Another live playlist of the same device and day. *)
Definition rival (d : str) (date : Z) (k : str) (o : schedule) : bool :=
  str_eqb (os_device o) d && (os_date o =? date) && negb (str_eqb (os_id o) k) && sstatus_in [Preparing; SReady] o.

Definition _supersede_previous_schedule_items (d : str) (date : Z) (k : str) (now : Z) (s : ddb) : Z * ddb :=
  let old := map os_id (List.filter (rival d date k) (schedules s)) in
  match old with
  | [] => (0, s)
  | _ =>
      let s := s <| schedules := update_where (λ o, str_in (os_id o) old)
                                   (λ o, o <| os_status := SCancelled |> <| os_updated := now |>) (schedules s) |> in
      let open_item (i : queue_item) :=
        of_device d i && match qi_schedule i with Some x => str_in x old | None => false end
        && negb (status_in terminal_statuses i) in
      let future := List.filter (λ i, _is_future_item (qi_display_after i) now)
                      (sort_by item_id_leb (List.filter open_item (items s))) in
      (Z.of_nat (length future), fold_left (λ s i, supersede_item d date now i s) future s)
  end.

(** ** The plan of the day *)

Record weekly_settings := mk_weekly { wk_enabled : option bool; wk_weekday : option str; wk_weekend : option str }.

Record day_plan := mk_day_plan {
  dp_device : device; dp_zone : zone; dp_times : list str; dp_starts : list Z; dp_max : Z; dp_sync : str * option str }.

(** [list(fallback)]: a list, the keys of a dict or the characters of a text. *)
Definition fallback_times (j : json) : option (list str) :=
  match j with
  | JObj m => Some (map fst m)
  | JStr t => Some (map (λ c, [c]) t)
  | _ => times_of j
  end.

Definition times_for_date (w : weekly_settings) (date : Z) (configured : json) : result dl_exn (list str) :=
  if default true (wk_enabled w)
  then of_sched (weekly_times (wk_enabled w) (wk_weekday w) (wk_weekend w) date [])
  else match fallback_times configured with Some l => Ok l | None => Raise DType end.

Section zones.
Context (zone_named : str → option zone).

Definition plan_day (w : weekly_settings) (d : str) (date : Z) (ids : list str) (expected : option Z) (s : ddb) : result dl_exn day_plan :=
  match enabled_device d s with
  | None => Raise DKey
  | Some v =>
      let c := v_config v in
      raise_if (match expected with Some n => negb (v_config_version v =? n) | None => false end) (DValue "DISPLAY-CONFIG-RACE") ;;;
      raise_if (negb (offline_device v && c_prefetch_allowed c)) (DValue "QUEUE-005") ;;;
      raise_if (negb (offline_schedule_capability_is_usable (Some (c_capability c)))) (DValue "DEVICE-008") ;;;
      let maximum := resolve_offline_schedule_max_slots (slots_capability (c_max_slots c)) in
      let* sync := of_sched (normalize_sync_strategy (Some (c_sync_strategy c)) (c_sync_time c)) in
      let* configured := times_for_date w date (c_schedule_times c) in
      let* times := of_sched (validate_offline_schedule configured maximum (c_gap c)) in
      raise_if (negb (Nat.eqb (length ids) (length times))) (DValue "DEVICE-008") ;;;
      match zone_named (c_timezone c) with
      | None => Raise DZone
      | Some z =>
          let* starts := of_sched (resolved_slot_datetimes z date times (c_gap c) maximum) in
          Ok (mk_day_plan v z times starts maximum sync)
      end
  end.

(** ** Writing the playlist *)

(** INSERT .. ON CONFLICT(device_id,target_date,config_version) DO UPDATE *)
Definition upsert_schedule (k : str) (p : day_plan) (date now : Z) (version : str) (existing : option schedule) (s : ddb)
  : result dl_exn ddb :=
  let c := v_config (dp_device p) in
  let snap := mk_snapshot (Some version) None None in
  let times := JList (map JStr (dp_times p)) in
  match existing with
  | Some o =>
      Ok (update_schedule (os_id o)
            (λ x, mk_schedule (os_id x) (os_device x) (os_date x) (os_config x) (os_timezone x) Preparing (os_created x) now
                    (c_panel c) (c_rotation c) times (c_prefetch_lead c) (c_button c) (c_offline_version c) (c_gap c)
                    (fst (dp_sync p)) (snd (dp_sync p)) snap None) s)
  | None =>
      insert_schedule
        (mk_schedule k (v_id (dp_device p)) date (v_config_version (dp_device p)) (c_timezone c) Preparing now now (c_panel c)
           (c_rotation c) times (c_prefetch_lead c) (c_button c) (c_offline_version c) (c_gap c)
           (fst (dp_sync p)) (snd (dp_sync p)) snap None) s
  end.

(** One slot of the day: its time, release, start and deadline. *)
Record slot_plan := mk_slot_plan { sp_time : str; sp_release : str; sp_start : Z; sp_deadline : Z }.

Fixpoint slot_plans (times releases : list str) (starts deadlines : list Z) : list slot_plan :=
  match times, releases, starts, deadlines with
  | t :: ts, r :: rs, a :: starts', b :: deadlines' => mk_slot_plan t r a b :: slot_plans ts rs starts' deadlines'
  | _, _, _, _ => []
  end.

Definition slot_conflict (x y : slot) : bool :=
  str_eqb (sl_id x) (sl_id y)
  || (str_eqb (sl_schedule x) (sl_schedule y) && ((sl_index x =? sl_index y) || (sl_show x =? sl_show y))).
Definition insert_slot (x : slot) (s : ddb) : result dl_exn ddb :=
  raise_if (existsb (slot_conflict x) (slots s)) DIntegrity ;;; Ok (s <| slots := slots s ++ [x] |>).

Definition usable_release (panel k : str) (s : ddb) : option release :=
  match get_release k s with
  | Some r => if published r && str_eqb (rl_profile r) panel then Some r else None
  | None => None
  end.

Definition slot_key (k : str) (n : nat) : str := u "offline:" ++ k ++ [58] ++ z_str (Z.of_nat n).

Record new_ids := mk_new_ids { id_schedule : str; id_item : nat → str; id_slot : nat → str }.

Definition slot_item (f : new_ids) (k d : str) (base target_end now : Z) (n : nat) (x : slot_plan) : queue_item :=
  mk_queue_item (id_item f n) d (sp_release x) (base + Z.of_nat n + 1) 100 (Some (sp_start x))
    (Some (Z.max (sp_deadline x) target_end)) QReady None None 0 None (Some (slot_key k n)) true true (Some (sp_time x))
    (Some (sp_deadline x)) (Some (sp_deadline x + 7 * day)) (Some k) now now.

Fixpoint place_slots (f : new_ids) (k : str) (d panel : str) (base target_end now : Z) (queued : list str) (n : nat)
    (plans : list slot_plan) (s : ddb) : result dl_exn ddb :=
  match plans with
  | [] => Ok s
  | x :: plans' =>
      match usable_release panel (sp_release x) s with
      | None => Raise (DValue "QUEUE-002")
      | Some r =>
          let* e := _manifest_entry (rl_manifest r) in
          raise_if (str_in (sp_release x) queued) (DValue "QUEUE-005") ;;;
          let* s := insert_item (slot_item f k d base target_end now n x) s in
          let* s := insert_slot (mk_slot (id_slot f n) k (Z.of_nat n) (sp_start x) (sp_release x) (id_item f n) (pe_sha e) now) s in
          place_slots f k d panel base target_end now queued (S n) plans' s
      end
  end.

(** The row of device_content_queues, created on demand. *)
Definition day_queue (d : str) (n now : Z) (s : ddb) : queue * ddb :=
  match get_queue d s with
  | Some q => (q, s)
  | None => let q := new_queue d (Z.max 3 n) now in (q, s <| queues := queues s ++ [q] |>)
  end.

Definition store_day (f : new_ids) (p : day_plan) (d : str) (date : Z) (ids : list str) (version : str) (existing : option schedule)
    (now : Z) (s : ddb) : result dl_exn (str * ddb) :=
  let v := dp_device p in
  let c := v_config v in
  let k := match existing with Some o => os_id o | None => id_schedule f end in
  let* s := upsert_schedule k p date now version existing s in
  let s := s <| slots := List.filter (λ x, negb (str_eqb (sl_schedule x) k)) (slots s) |> in
  let '(cancelled, s) := _supersede_previous_schedule_items d date k now s in
  let n := Z.of_nat (length ids) in
  let '(q, s) := day_queue d n now s in
  raise_if (cq_depth q <? n) (DValue "QUEUE-005") ;;;
  let base := max_position d s in
  let* deadlines := of_sched (slot_deadlines (dp_zone p) date (dp_times p) 15 (c_gap c) (dp_max p)) in
  let target_end := utc_of (dp_zone p) ((date + 1) * day) false in
  let queued := map qi_release (List.filter (λ i, of_device d i && str_in (qi_release i) ids) (items s)) in
  let* s := place_slots f k d (c_panel c) base target_end now queued 0 (slot_plans (dp_times p) ids (dp_starts p) deadlines) s in
  let s := update_queue d (λ x, x <| cq_version := cq_version q + (if 0 <? cancelled then 1 else 0) + n |>
                                  <| cq_next := head ids |> <| cq_updated := now |>) s in
  let s := update_schedule k (λ o, o <| os_status := SReady |> <| os_outcome := None |> <| os_updated := now |>) s in
  raise_if (negb (str_eqb (c_sync_strategy c) (fst (dp_sync p)))
            || negb (str_eqb (str_or (c_sync_time c) []) (str_or (snd (dp_sync p)) []))) (DValue "DISPLAY-CONFIG-RACE") ;;;
  Ok (k, if _is_future_item (c_next_prepare c) now then s else postpone d (v_config_version v) (now + minutes 15) s).

(** The projection after the commit, with its version replaced. *)
Definition prepared_view (k version : str) (s : ddb) : result dl_exn schedule_view :=
  let* row := _row k s in
  match row with Some w => Ok (mk_view (vw_schedule w) version (vw_slots w)) | None => Raise DRuntime end.

Definition prepare_day (w : weekly_settings) (f : new_ids) (d : str) (date : Z) (release_ids : list str) (expected : option Z) (now : Z)
    (s : ddb) : result dl_exn (result dl_exn schedule_view * ddb) :=
  let n := Z.of_nat (length release_ids) in
  raise_if (negb ((1 <=? n) && (n <=? MAX_PREPARED_SLOTS))) (DValue "DEVICE-008") ;;;
  let ids := map strip release_ids in
  raise_if (existsb (λ x, negb (_RELEASE_ID x)) ids) (DValue "QUEUE-002") ;;;
  raise_if (negb (nodupb ids)) (DValue "DEVICE-008") ;;;
  let* p := plan_day w d date ids expected s in
  let config := v_config_version (dp_device p) in
  let version := playlist_version (mk_playlist d (date_text date) config (dp_times p) ids) in
  let existing := find_schedule d date config s in
  match existing with
  | Some o =>
      if sstatus_in [SReady] o then
        let* row := _row (os_id o) s in
        match row with
        | Some x => if str_eqb (vw_version x) version then Ok (Ok x, s) else Raise (DValue "QUEUE-005")
        | None => Raise (DValue "QUEUE-005")
        end
      else let* (k, s) := store_day f p d date ids version existing now s in Ok (prepared_view k version s, s)
  | None => let* (k, s) := store_day f p d date ids version existing now s in Ok (prepared_view k version s, s)
  end.
End zones.

(** ** Replacing one slot *)

Definition revised (version : str) (n : snapshot) : snapshot :=
  mk_snapshot (Some version) (Some (default 0 (sn_revision n) + 1)) (sn_recovery n).

Definition swap_release (o : schedule) (x : slot) (maximum : Z) (release sha : str) (now : Z) (s : ddb) : result dl_exn ddb :=
  let d := os_device o in
  let s := s <| items := update_where (λ i, str_eqb (qi_id i) (sl_item x) && of_device d i && status_in [QPending; QReady] i)
                           (λ i, i <| qi_release := release |> <| qi_error := None |> <| qi_retry := 0 |> <| qi_updated := now |>) (items s) |>
             <| slots := update_where (λ y, str_eqb (sl_id y) (sl_id x) && str_eqb (sl_schedule y) (os_id o))
                           (λ y, y <| sl_release := release |> <| sl_sha := sha |>) (slots s) |> in
  match times_of (os_times o) with
  | None => Raise (DValue "DEVICE-008")
  | Some times =>
      let* times := of_sched (validate_offline_schedule times maximum (os_gap o)) in
      let version := playlist_version (playlist_of o times (map sl_release (slots_of (os_id o) s))) in
      let s := update_schedule (os_id o) (λ y, y <| os_snapshot := revised version (os_snapshot o) |> <| os_updated := now |>) s in
      Ok (update_queue d (λ q, q <| cq_version := cq_version q + 1 |>
                                 <| cq_next := if sl_index x =? 0 then Some release else cq_next q |> <| cq_updated := now |>) s)
  end.

Definition replace_slot (d k : str) (index : Z) (release_id : str) (expected : option Z) (now : Z) (s : ddb)
  : result dl_exn (result dl_exn (option schedule_view) * ddb) :=
  raise_if (index <? 0) (DValue "DEVICE-008") ;;;
  let release := strip release_id in
  raise_if (negb (_RELEASE_ID release)) (DValue "QUEUE-002") ;;;
  match find_where (λ o, str_eqb (os_id o) k && str_eqb (os_device o) d && sstatus_in [SReady] o) (schedules s) with
  | None => Raise DKey
  | Some o =>
      match enabled_device d s with
      | None => Raise DKey
      | Some v =>
          raise_if (negb (offline_device v && c_prefetch_allowed (v_config v)
                          && offline_schedule_capability_is_usable (Some (c_capability (v_config v)))
                          && (v_config_version v =? os_config o))) (DValue "DISPLAY-CONFIG-RACE") ;;;
          raise_if (match expected with Some n => negb (os_config o =? n) | None => false end) (DValue "DISPLAY-CONFIG-RACE") ;;;
          match find_where (λ x, str_eqb (sl_schedule x) k && (sl_index x =? index)) (slots s) with
          | None => Raise DIndex
          | Some x =>
              match find_where (λ i, str_eqb (qi_id i) (sl_item x) && of_device d i) (items s) with
              | None => Raise (DValue "QUEUE-005")
              | Some i =>
                  raise_if (negb (status_in [QPending; QReady] i)) (DValue "QUEUE-005") ;;;
                  raise_if (negb (_is_future_item (qi_display_after i) now)) (DValue "QUEUE-005") ;;;
                  if str_eqb (sl_release x) release then Ok (_row k s, s)
                  else
                    match usable_release (os_panel o) release s with
                    | None => Raise (DValue "QUEUE-002")
                    | Some r =>
                        raise_if (existsb (λ j, of_device d j && str_eqb (qi_release j) release && negb (str_eqb (qi_id j) (sl_item x))) (items s))
                          (DValue "QUEUE-005") ;;;
                        let* e := _manifest_entry (rl_manifest r) in
                        let* s := swap_release o x (resolve_offline_schedule_max_slots (slots_capability (c_max_slots (v_config v))))
                                    release (pe_sha e) now s in
                        Ok (_row k s, s)
                    end
              end
          end
      end
  end.
