(* ===== verification/DeviceUpdate.v ===== *)
(** * Changing the settings of a frame (repositories/devices.py)

    [update] and [update_render_inputs] with the queue items they supersede,
    the classification of changes (domain/photopainter/device_configuration.py)
    and [stored_schedule_state] (domain/photopainter/offline_schedule.py).

    A stored schedule is its JSON value; a text that does not parse is, like
    every value that is not an array, kept as it is.  The rows written to
    device_events are returned beside the new state. *)

From S2P Require Import Prelude PyStr Json Sql Reservations OfflineSchedule Devices Delivery OfflineStore OfflinePrepare.
Local Open Scope Z_scope.

(** ** Which settings changed *)

Definition DEVICE_RENDER_INPUT_FIELDS : list string := ["panel_profile"; "rotation"; "frame_orientation"; "layout_mode"; "fit_mode"]%string.
Definition DEVICE_OFFLINE_SCHEDULE_FIELDS : list string :=
  ["timezone"; "schedule_definition"; "delivery_mode"; "offline_prefetch_allowed"; "prefetch_lead_minutes"; "button_wake_action";
   "minimum_schedule_gap_minutes"; "sync_strategy"; "sync_time"]%string.
Definition DEVICE_REMOTE_CONFIG_FIELDS : list string :=
  DEVICE_RENDER_INPUT_FIELDS ++ DEVICE_OFFLINE_SCHEDULE_FIELDS ++ ["enabled"; "stock_endpoint_host"]%string.

(** The mapping both sides of the comparison are given as. *)
Record device_view := mk_device_view {
  dv_timezone : str; dv_rotation : Z; dv_panel : str; dv_delivery : str; dv_prefetch : bool; dv_enabled : bool; dv_lead : Z; dv_button : str;
  dv_gap : Z; dv_sync_strategy : str; dv_sync_time : option str; dv_stock : option str; dv_orientation : option str;
  dv_layout : option str; dv_fit : option str }.

Definition differs {A} `{EqDecision A} (field : string) (a b : A) : list string := if bool_decide (a = b) then [] else [field].

Definition classify_device_configuration_changes (a b : device_view) (schedule_definition_changed : bool) : list string :=
  differs "timezone" (dv_timezone a) (dv_timezone b) ++ differs "rotation" (dv_rotation a) (dv_rotation b)
  ++ differs "panel_profile" (dv_panel a) (dv_panel b) ++ differs "delivery_mode" (dv_delivery a) (dv_delivery b)
  ++ differs "offline_prefetch_allowed" (dv_prefetch a) (dv_prefetch b) ++ differs "enabled" (dv_enabled a) (dv_enabled b)
  ++ differs "prefetch_lead_minutes" (dv_lead a) (dv_lead b) ++ differs "button_wake_action" (dv_button a) (dv_button b)
  ++ differs "minimum_schedule_gap_minutes" (dv_gap a) (dv_gap b) ++ differs "sync_strategy" (dv_sync_strategy a) (dv_sync_strategy b)
  ++ differs "sync_time" (dv_sync_time a) (dv_sync_time b) ++ differs "stock_endpoint_host" (dv_stock a) (dv_stock b)
  ++ differs "frame_orientation" (dv_orientation a) (dv_orientation b) ++ differs "layout_mode" (dv_layout a) (dv_layout b)
  ++ differs "fit_mode" (dv_fit a) (dv_fit b) ++ (if schedule_definition_changed then ["schedule_definition"%string] else []).

Definition any_of (fields changed : list string) : bool := existsb (λ f, bool_decide (f ∈ fields)) changed.
Definition render_inputs_changed : list string → bool := any_of DEVICE_RENDER_INPUT_FIELDS.
Definition offline_schedule_changed : list string → bool := any_of DEVICE_OFFLINE_SCHEDULE_FIELDS.
Definition remote_config_changed : list string → bool := any_of DEVICE_REMOTE_CONFIG_FIELDS.

(** ** Superseding items *)

(** [_supersede_future_queue_items]: [transition] when the delivery mode
    changed; [kind] is change_kind. *)
Definition supersede_future_item (d old_mode new_mode kind : str) (transition : bool) (now : Z) (i : queue_item) (s : ddb) : ddb :=
  let s := update_item (qi_id i)
             (λ x, x <| qi_status := QCancelled |> <| qi_error := Some (u "QUEUE-005") |> <| qi_updated := now |>) s in
  let name := if transition then u "DELIVERY_MODE_TRANSITION_CANCELLED" else u "FUTURE_SLOT_SUPERSEDED" in
  let s := ignore_event
             (mk_queue_event (qi_id i) d (if transition then ModeTransitionCancelled else FutureSlotSuperseded)
                (Some (name ++ [58] ++ d ++ [58] ++ qi_id i))
                [(u "reason", JStr kind); (u "change_kind", JStr kind); (u "old_delivery_mode", JStr old_mode);
                 (u "new_delivery_mode", JStr new_mode);
                 (u "queue_item_delivery_mode", JStr (if qi_offline i then u "offline_schedule" else u "online_queue"));
                 (u "offline_slot", match qi_slot i with Some t => JStr t | None => JNull end);
                 (u "offline_schedule_id", match qi_schedule i with Some t => JStr t | None => JNull end)] now) s in
  s <| targets := update_where (λ t, same_text (rt_item t) (Some (qi_id i)))
                    (λ t, t <| rt_status := TCancelledFuture |> <| rt_error := Some (u "QUEUE-005") |> <| rt_updated := now |>) (targets s) |>.

(** [modes]: the delivery modes that are superseded ([true] is
    offline_schedule). *)
Definition open_in_modes (d : str) (modes : list bool) (i : queue_item) : bool :=
  of_device d i && bool_decide (qi_offline i ∈ modes) && negb (status_in terminal_statuses i).

Definition _supersede_future_queue_items (d : str) (modes : list bool) (now : Z) (old_mode new_mode kind : str) (transition : bool) (s : ddb)
  : Z * ddb :=
  let future := List.filter (λ i, _is_future_item (qi_display_after i) now)
                  (sort_by item_id_leb (List.filter (open_in_modes d modes) (items s))) in
  let cancelled := Z.of_nat (length future) in
  let s := fold_left (λ s i, supersede_future_item d old_mode new_mode kind transition now i s) future s in
  (cancelled, if 0 <? cancelled
              then update_queue d (λ q, q <| cq_version := cq_version q + cancelled |> <| cq_updated := now |>) s else s).

(** ** Slots that are already past *)

(** A row of device_events: schedule_replan_skip. *)
Record replan_skip := mk_replan_skip { rp_device : str; rp_slot : str; rp_date : Z; rp_config : Z; rp_at : Z }.

(** Both sides of the comparison carry the same zone, so Python compares
    their wall clocks. *)
Definition _record_past_schedule_slots (z : option zone) (d : str) (old_schedule new_schedule : list str) (now config : Z) : list replan_skip :=
  match z with
  | None => []
  | Some z =>
      omap (λ t, match time_minutes t with
                 | Some m =>
                     if negb (str_in t old_schedule) && (date_of z now * day + minutes m <=? wall_of z now)
                     then Some (mk_replan_skip d t (date_of z now) config now) else None
                 | None => None
                 end) new_schedule
  end.

(** ** The update *)

Record update_args := mk_update {
  ua_name : str; ua_enabled : bool; ua_timezone : str; ua_schedule : str; ua_delivery : str; ua_prefetch : option bool;
  ua_offline_schedule : option (list str); ua_times : option (list str); ua_replacement : option bool; ua_lead : Z; ua_button : str;
  ua_gap : Z; ua_sync_strategy : str; ua_sync_time : option str; ua_stock : option str; ua_rotation : Z; ua_panel : str;
  ua_orientation : option (option str); ua_layout : option (option str); ua_fit : option (option str);
  ua_expected_version : option Z; ua_expected_updated : option Z }.

(** [value or None] *)
Definition text_or_none (t : option str) : option str := match t with Some [] => None | _ => t end.
Definition gap_or_default (n : Z) : Z := if n =? 0 then MINIMUM_SCHEDULE_GAP_MINUTES else n.

(** [stored_schedule_state]: the members of an array. *)
Definition stored_schedule_state (j : json) : option (list json) := match j with JList l => Some l | _ => None end.
Definition same_texts (given : list str) (stored : list json) : bool := bool_decide (map Some given = map (λ v, match v with JStr t => Some t | _ => None end) stored).
Definition replaces (given : list str) (j : json) : bool :=
  match stored_schedule_state j with Some l => negb (same_texts given l) | None => true end.
(** A member that is not a text is no valid time, whatever [str] makes of it. *)
Definition as_times (l : list json) : list str := map (λ v, match v with JStr t => t | _ => u "?" end) l.

Definition existing_schedule (c : dconfig) : list str :=
  match stored_schedule_state (c_schedule_times c), stored_schedule_state (c_offline_schedule c) with
  | Some ((_ :: _) as l), _ => as_times l
  | _, Some ((_ :: _) as l) => as_times l
  | _, _ => []
  end.

Definition explicit_schedule (a : update_args) : option (list str) :=
  match ua_times a with Some l => Some l | None => ua_offline_schedule a end.

Definition explicit_schedule_changed (a : update_args) (c : dconfig) : bool :=
  match ua_replacement a with
  | Some b => b
  | None =>
      match ua_times a, ua_offline_schedule a with
      | Some l, _ => replaces l (c_schedule_times c)
      | None, Some l => replaces l (c_offline_schedule c)
      | None, None => false
      end
  end.

Definition selected_schedule (a : update_args) (c : dconfig) : list str :=
  match explicit_schedule a with
  | Some l => l
  | None => match existing_schedule c with [] | [_] => [ua_schedule a] | l => l end
  end.

Definition schedule_was_modified (a : update_args) (c : dconfig) : bool :=
  explicit_schedule_changed a c || negb (str_eqb (c_schedule c) (ua_schedule a)) || negb (gap_or_default (c_gap c) =? ua_gap a).

Definition quarantined (c : dconfig) : bool := str_eqb (c_capability c) (u "legacy_ambiguous").

(** The schedule to store: its times, its first time and the two columns. *)
Record stored_times := mk_stored { st_values : list str; st_schedule : str; st_offline : json; st_times : json }.

Definition store_schedule (a : update_args) (c : dconfig) (delivery : str) : result dl_exn (bool * stored_times) :=
  let modified := schedule_was_modified a c in
  let preserve := quarantined c && negb modified && (negb (ua_enabled a) || negb (is_offline delivery)) in
  raise_if (quarantined c && negb modified && negb preserve) (DValue "DEVICE-008") ;;;
  if preserve then Ok (true, mk_stored (existing_schedule c) (c_schedule c) (c_offline_schedule c) (c_schedule_times c))
  else
    let* values := of_sched (validate_offline_schedule (selected_schedule a c)
                     (resolve_offline_schedule_max_slots (slots_capability (c_max_slots c))) (ua_gap a)) in
    let j := JList (map JStr values) in
    Ok (false, mk_stored values (default [] (head values)) j j).

(** What the update will write, from the arguments and the row. *)
Record update_plan := mk_update_plan {
  up_config : dconfig; up_mode : auth_mode; up_state : pairing_state; up_changes : list string; up_values : list str; up_modified : bool }.

Definition stored_view (v : device) : device_view :=
  let c := v_config v in
  mk_device_view (c_timezone c) (c_rotation c) (c_panel c) (c_delivery c) (c_prefetch_allowed c) (v_enabled v) (c_prefetch_lead c) (c_button c)
    (gap_or_default (c_gap c)) (c_sync_strategy c) (text_or_none (c_sync_time c)) (text_or_none (c_stock_host c)) (c_orientation c)
    (c_layout c) (c_fit c).

Definition is_stock (delivery : str) : bool := str_eqb delivery (u "stock_compat").

Definition plan_update (a : update_args) (v : device) : result dl_exn update_plan :=
  let c := v_config v in
  let* (delivery, prefetch) := of_sched (normalize_delivery_contract (ua_delivery a) (ua_prefetch a) (negb (is_null (ua_prefetch a)))) in
  raise_if (is_stock delivery && is_automatic v) (DValue "DEVICE-011") ;;;
  let mode := if is_stock delivery then StockToken
              else match a_mode (v_auth v) with StockToken => LegacyToken | m => m end in
  let state := if bool_decide (mode = Automatic) then a_state (v_auth v) else Paired in
  raise_if (negb ((30 <=? ua_gap a) && (ua_gap a <=? 360))) (DValue "DEVICE-008") ;;;
  let* (preserved, t) := store_schedule a c delivery in
  raise_if (negb ((0 <=? ua_lead a) && (ua_lead a <=? 120))) (DValue "DEVICE-008") ;;;
  raise_if (negb (str_in (ua_button a) (map u ["check_new"; "local_next"]%string))) (DValue "DEVICE-008") ;;;
  let* (strategy, sync_time) := of_sched (normalize_sync_strategy (Some (ua_sync_strategy a)) (ua_sync_time a)) in
  let orientation := default (c_orientation c) (ua_orientation a) in
  let layout := default (c_layout c) (ua_layout a) in
  let fit := default (c_fit c) (ua_fit a) in
  let modified := schedule_was_modified a c in
  let changes := classify_device_configuration_changes (stored_view v)
                   (mk_device_view (ua_timezone a) (ua_rotation a) (ua_panel a) delivery prefetch (ua_enabled a) (ua_lead a) (ua_button a)
                      (ua_gap a) strategy (text_or_none sync_time) (text_or_none (ua_stock a)) orientation layout fit) modified in
  let remote := remote_config_changed changes in
  Ok (mk_update_plan
        (mk_dconfig (strip (ua_name a)) (ua_timezone a) (st_schedule t) (ua_rotation a) (ua_panel a) orientation layout fit delivery prefetch
           (st_offline t) (c_offline_version c + (if offline_schedule_changed changes && negb preserved then 1 else 0)) (st_times t)
           (ua_lead a) (ua_button a) (ua_gap a) strategy sync_time (ua_stock a) (c_max_slots c) (c_capability c)
           (if negb (is_offline delivery) || negb (ua_enabled a) then None else if remote then Some bootstrap else c_next_prepare c))
        mode state changes (st_values t) modified).

(** UPDATE devices *)
Definition write_device (a : update_args) (p : update_plan) (now : Z) (v : device) : device :=
  let x := v_auth v in
  mk_device (v_id v) (ua_enabled a) (up_config p)
    (mk_dauth (up_mode p) (up_state p) (a_version x) (a_token_hash x) (a_secret_hash x) (a_paired_at x) (a_last_auth x) (a_revoked_at x)
       (a_repair_until x))
    (v_firmware_version v) (v_firmware_identity v) (v_pairing_expires v) (v_claim_attempts v) (v_pairing_requested v)
    (v_config_version v + (if remote_config_changed (up_changes p) then 1 else 0)) (v_last_seen v) (v_last_ip v) (v_created v) now.

(** The modes that no longer fit; the mode of a changed Enhanced frame is
    among them, since its prepared snapshot is stale. *)
Definition incompatible_modes (old_mode new_mode : str) : list bool :=
  if is_offline new_mode then false :: (if str_eqb old_mode new_mode then [true] else []) else [true].

Definition change_kind (old_mode new_mode : str) (changes : list string) : str :=
  if negb (str_eqb old_mode new_mode) then u "delivery_mode_transition"
  else if render_inputs_changed changes && negb (offline_schedule_changed changes) then u "device_render_changed"
  else u "device_schedule_changed".

Section updates.
Context (zone_named : str → option zone).

Definition update (a : update_args) (d : str) (now : Z) (s : ddb) : result dl_exn ((bool * list replan_skip) * ddb) :=
  match get_device (devs s) d with
  | None => Raise DKey
  | Some v =>
      raise_if (match ua_expected_version a with Some n => negb (v_config_version v =? n) | None => false end) (DValue "DEVICE-008") ;;;
      raise_if (match ua_expected_updated a with Some t => negb (v_updated v =? t) | None => false end) (DValue "DEVICE-008") ;;;
      let* p := plan_update a v in
      let remote := remote_config_changed (up_changes p) in
      if negb remote && str_eqb (c_name (v_config v)) (strip (ua_name a)) then Ok ((false, []), s)
      else
        let old_mode := c_delivery (v_config v) in
        let new_mode := c_delivery (up_config p) in
        let s := s <| devs := update_device d (write_device a p now) (devs s) |> in
        let s := if remote
                 then snd (_supersede_future_queue_items d (incompatible_modes old_mode new_mode) now old_mode new_mode
                             (change_kind old_mode new_mode (up_changes p)) (negb (str_eqb old_mode new_mode)) s)
                 else s in
        let skipped := if is_offline new_mode && remote && up_modified p
                       then _record_past_schedule_slots (zone_named (ua_timezone a)) d (existing_schedule (v_config v)) (up_values p) now
                              (v_config_version v + 1)
                       else [] in
        Ok ((true, skipped), s)
  end.

(** The settings of the row with other render inputs; [None] is _UNSET. *)
Definition render_args (v : device) (panel : option str) (orientation layout fit : option (option str)) : update_args :=
  let c := v_config v in
  mk_update (c_name c) (v_enabled v) (c_timezone c) (c_schedule c) (c_delivery c) (Some (c_prefetch_allowed c)) None None (Some false)
    (c_prefetch_lead c) (str_or (Some (c_button c)) (u "check_new")) (gap_or_default (c_gap c))
    (str_or (Some (c_sync_strategy c)) (u "first_display_lead")) (c_sync_time c) (c_stock_host c) (c_rotation c)
    (default (c_panel c) panel) orientation layout fit None None.

Definition update_render_inputs (d : str) (panel : option str) (orientation layout fit : option (option str)) (now : Z) (s : ddb)
  : result dl_exn ((bool * list replan_skip) * ddb) :=
  match get_device (devs s) d with
  | None => Raise DKey
  | Some v => update (render_args v panel orientation layout fit) d now s
  end.
End updates.
