(* ===== verification/DeliveryLife.v ===== *)
(** * The protocol of a queue item

    An abstract machine over the items, acknowledgements and queues of the
    delivery database: its transitions ([qstep]) are all that the operations
    of the queue, the rollouts and the offline playlists ever do to them.
    [good s s'] says that an operation is a sequence of these transitions, so
    that operations compose by transitivity and what holds of the protocol
    holds of the code.  Every transition moves forward ([evolves]). *)

From stdpp Require Import relations.
From S2P Require Import Prelude PyStr PyFloat Json Sql Reservations OfflineSchedule Devices Delivery Rollouts ContentQueue OfflineStore OfflinePrepare DeviceUpdate.
Local Open Scope Z_scope.

Definition rank (s : queue_status) : Z :=
  match s with
  | QPending => 0 | QReady => 1 | QAvailable => 2 | QDownloaded => 3 | QAcknowledged => 4
  | QDisplayed | QFailed | QExpired | QCancelled => 5
  end.

(** ** The transitions *)

(** The server touches an item without news from the frame: at most it ends
    it; a playlist operation ([pl]) may still change the release of an item
    that was not offered. *)
Record touched (pl : bool) (i j : queue_item) : Prop := mk_touched {
  to_id : qi_id j = qi_id i;
  to_device : qi_device j = qi_device i;
  to_offline : qi_offline j = qi_offline i;
  to_schedule : qi_schedule j = qi_schedule i;
  to_downloaded : qi_downloaded j = qi_downloaded i;
  to_displayed : qi_displayed j = qi_displayed i;
  to_status : qi_status j = qi_status i ∨ qi_status j ∈ [QExpired; QCancelled];
  to_release : pl = false ∨ 2 ≤ rank (qi_status i) → qi_release j = qi_release i;
  to_named : qi_release i ≠ [] → qi_release j ≠ [] }.

Definition new_item (i : queue_item) : Prop := qi_status i = QReady ∧ qi_downloaded i = None ∧ qi_displayed i = None.

(** An online item nobody acknowledged; maintenance may drop it. *)
Definition forgotten (s : ddb) (i : queue_item) : Prop :=
  qi_offline i = false ∧ ∀ e, e ∈ events s → qe_item e ≠ qi_id i.

(** The server touches a queue: the version may grow, the pointer stays. *)
Record queue_touched (q q' : queue) : Prop := mk_queue_touched {
  qt_device : cq_device q' = cq_device q;
  qt_version : cq_version q ≤ cq_version q';
  qt_current : cq_current q' = cq_current q;
  qt_current_at : cq_current_at q' = cq_current_at q }.

(** When an acknowledgement counts. *)
Definition ack_allowed (s : ddb) (i : queue_item) (e : ack_event) (delayed : bool) : Prop :=
  if delayed
  then (e = DISPLAY_COMPLETED ∨ e = DISPLAY_FAILED) ∧
       (qi_status i = QAcknowledged ∨ qi_status i = QDisplayed ∨ qi_status i = QCancelled ∧ download_evidence i s = true)
  else e ∈ QUEUE_ALLOWED_EVENTS (qi_status i).

Definition move_pointer (release : str) (at_ now : Z) (q : queue) : queue :=
  q <| cq_current := Some release |> <| cq_current_at := Some at_ |> <| cq_good := Some release |> <| cq_good_at := Some at_ |>
    <| cq_updated := now |>.

(** The pointer after an acknowledgement: it moves only for a display, and
    only to a later one (or when it had no date). *)
Definition pointer_moves (d : str) (i : queue_item) (e : ack_event) (at_ now : Z) (s s' : ddb) : Prop :=
  queues s' = queues s ∨
  (e = DISPLAY_COMPLETED ∧ queues s' = update_where (by_key cq_device d) (move_pointer (qi_release i) at_ now) (queues s) ∧
   ∃ q, get_queue d s = Some q ∧ (str_or (cq_current q) [] = [] ∨ ∀ t, cq_current_at q = Some t → t < at_)).

(** Only a playlist operation writes playlists and slots. *)
Definition quiet (pl : bool) (s s' : ddb) : Prop := pl = false → slots s' = slots s ∧ schedules s' = schedules s.

Inductive qstep (pl : bool) (s s' : ddb) : Prop :=
| QFrame :
    items s' = items s → events s' = events s → queues s' = queues s → releases s' = releases s → quiet pl s s' → qstep pl s s'
| QTouch p f :
    (∀ i, i ∈ items s → p i = true → touched pl i (f i)) → items s' = update_where p f (items s) →
    events s' = events s → queues s' = queues s → releases s' = releases s → quiet pl s s' → qstep pl s s'
| QInsert i :
    new_item i → existsb (item_conflict i) (items s) = false → has_key rl_id (qi_release i) (releases s) = true →
    items s' = items s ++ [i] → events s' = events s → queues s' = queues s → releases s' = releases s → quiet pl s s' → qstep pl s s'
| QForget p :
    (∀ i, i ∈ items s → p i = false → forgotten s i) → items s' = List.filter p (items s) →
    events s' = events s → queues s' = queues s → releases s' = releases s → quiet pl s s' → qstep pl s s'
| QQueue d f :
    (∀ q, get_queue d s = Some q → queue_touched q (f q)) → queues s' = update_where (by_key cq_device d) f (queues s) →
    items s' = items s → events s' = events s → releases s' = releases s → quiet pl s s' → qstep pl s s'
| QNewQueue q :
    has_key cq_device (cq_device q) (queues s) = false → cq_current_at q = None → queues s' = queues s ++ [q] →
    items s' = items s → events s' = events s → releases s' = releases s → quiet pl s s' → qstep pl s s'
| QNote e :
    (∀ a, qe_type e ≠ Ack a) → events s' = events s ++ [e] →
    items s' = items s → queues s' = queues s → releases s' = releases s → quiet pl s s' → qstep pl s s'
| QAck d i e delayed at_ now err key payload :
    i ∈ items s → qi_device i = d → ack_allowed s i e delayed →
    items s' = update_where (by_key qi_id (qi_id i)) (acked e delayed at_ now err) (items s) →
    events s' = events s ++ [mk_queue_event (qi_id i) d (Ack e) (Some key) payload now] →
    pointer_moves d i e at_ now s s' → releases s' = releases s → quiet pl s s' → qstep pl s s'.

(** ** What the protocol keeps *)

(** A dated pointer names a release. *)
Definition pointer_ok (q : queue) : Prop := is_Some (cq_current_at q) → str_or (cq_current q) [] ≠ [].

Record wf (s : ddb) : Prop := mk_wf {
  wf_items : keys_unique qi_id (items s);
  wf_queues : keys_unique cq_device (queues s);
  wf_releases : ∀ r, r ∈ releases s → rl_id r ≠ [];
  wf_named : ∀ i, i ∈ items s → qi_release i ≠ [];
  wf_pointers : ∀ q, q ∈ queues s → pointer_ok q }.

Lemma no_conflict_key i l : existsb (item_conflict i) l = false → has_key qi_id (qi_id i) l = false.
Proof.
  rewrite existsb_none. intros H. unfold has_key. apply existsb_none. intros x Hx. apply H in Hx. unfold item_conflict in Hx.
  unfold by_key. bprop. tauto.
Qed.

Lemma unique_map_ids {A} (key : A → str) (p : A → bool) f l :
  (∀ x, x ∈ l → p x = true → key (f x) = key x) → keys_unique key l → keys_unique key (update_where p f l).
Proof.
  intros H. unfold keys_unique, update_where. rewrite map_map, (map_ext_in (λ x, key (if p x then f x else x)) key); [done|].
  intros x Hx%list_elem_of_In. destruct (p x) eqn:E; auto.
Qed.

Lemma by_key_elem {A} (key : A → str) k l x :
  keys_unique key l → x ∈ l → by_key key k x = true → get_row key k l = Some x.
Proof. intros U Hx E. unfold by_key in E. bprop. subst k. by apply get_row_elem. Qed.

(** Read the columns of the state after a transition. *)
Ltac after_step s' :=
  repeat match goal with
  | H : items s' = _ |- _ => rewrite ?H; clear H
  | H : events s' = _ |- _ => rewrite ?H; clear H
  | H : queues s' = _ |- _ => rewrite ?H; clear H
  | H : releases s' = _ |- _ => rewrite ?H; clear H
  end.

Lemma wf_qstep {pl} s s' : wf s → qstep pl s s' → wf s'.
Proof.
  intros [Wi Wq Wr Wn Wp] []; split; after_step s'; try done.
  - apply unique_map_ids; [|done]. intros i Hi E. by destruct (H i Hi E).
  - intros j (i & Hi & ->)%update_where_elem. destruct (p i) eqn:E; [|auto]. apply (to_named _ _ _ (H i Hi E)); auto.
  - apply keys_unique_insert; [by apply no_conflict_key|done].
  - intros j [Hj|Hj]%elem_of_app; [auto|]. apply list_elem_of_singleton in Hj as ->.
    apply existsb_elem in H1 as (r & Hin & Hk). unfold by_key in Hk. bprop. rewrite <- Hk. auto.
  - by apply filter_unique.
  - intros i [Hi _]%filter_elem. auto.
  - apply unique_map_ids; [|done]. intros q Hq E. apply (by_key_elem _ _ _ _ Wq Hq) in E. by destruct (H q E).
  - intros q' (q & Hq & ->)%update_where_elem. destruct (by_key cq_device d q) eqn:E; [|auto].
    apply (by_key_elem _ _ _ _ Wq Hq) in E. destruct (H q E) as [_ _ Hc Ha]. unfold pointer_ok. rewrite Hc, Ha. by apply Wp.
  - by apply keys_unique_insert.
  - intros x [Hx|Hx]%elem_of_app; [auto|]. apply list_elem_of_singleton in Hx as ->. intros [t Ht]. congruence.
  - by apply unique_map_ids.
  - destruct H4 as [->|(_ & -> & _)]; [done|]. by apply unique_map_ids.
  - intros j (x & Hx & ->)%update_where_elem. destruct (by_key _ _ _); simpl; auto.
  - intros q. destruct H4 as [->|(_ & -> & _)]; [auto|]. intros (x & Hx & ->)%update_where_elem.
    destruct (by_key cq_device d x); [|auto]. intros _. simpl. specialize (Wn _ H). by destruct (qi_release i).
Qed.

Lemma wf_steps {pl} s s' : wf s → rtc (qstep pl) s s' → wf s'.
Proof. intros W H. revert W. induction H as [|a b c Hab _ IH]; [done|]. intros W. apply IH. by eapply wf_qstep. Qed.

(** ** Forward *)

(** [j] is a later version of the item [i]. *)
Record item_le (i j : queue_item) : Prop := mk_item_le {
  le_id : qi_id j = qi_id i;
  le_device : qi_device j = qi_device i;
  le_offline : qi_offline j = qi_offline i;
  le_schedule : qi_schedule j = qi_schedule i;
  le_rank : rank (qi_status i) ≤ rank (qi_status j);
  le_release : 2 ≤ rank (qi_status i) → qi_release j = qi_release i;
  le_downloaded : is_Some (qi_downloaded i) → is_Some (qi_downloaded j);
  le_displayed : is_Some (qi_displayed i) → qi_displayed j = qi_displayed i }.

Record queue_le (q q' : queue) : Prop := mk_queue_le {
  le_owner : cq_device q' = cq_device q;
  le_version : cq_version q ≤ cq_version q';
  le_shown : ∀ t, cq_current_at q = Some t → ∃ t', cq_current_at q' = Some t' ∧ t ≤ t' }.

#[export] Instance item_le_preorder : PreOrder item_le.
Proof.
  split; [intros i; by constructor|]. intros i j k Hij Hjk. destruct Hij, Hjk. constructor; try congruence; try lia; [|auto|].
  - intros H. rewrite le_release1, le_release0 by lia. done.
  - intros H. rewrite le_displayed1, le_displayed0; [done..|]. by rewrite le_displayed0.
Qed.
#[export] Instance queue_le_preorder : PreOrder queue_le.
Proof.
  split; [intros q; constructor; [done|lia|eauto with lia]|]. intros a b c Hab Hbc. destruct Hab, Hbc.
  constructor; [congruence|lia|]. intros t Ht. destruct (le_shown0 _ Ht) as (t' & Ht' & ?).
  destruct (le_shown1 _ Ht') as (t2 & ? & ?). exists t2. split; [done|lia].
Qed.

Record evolves (s s' : ddb) : Prop := mk_evolves {
  ev_items : ∀ i, i ∈ items s → (∃ j, j ∈ items s' ∧ item_le i j) ∨ forgotten s i;
  ev_events : ∀ e, e ∈ events s → e ∈ events s';
  ev_queues : ∀ q, q ∈ queues s → ∃ q', q' ∈ queues s' ∧ queue_le q q' }.

#[export] Instance evolves_preorder : PreOrder evolves.
Proof.
  split.
  - intros s. constructor; [intros i ?; left; by exists i|done|intros q ?; by exists q].
  - intros a b c [Hi He Hq] [Hi' He' Hq']. constructor; [|auto|].
    + intros i Hin. destruct (Hi i Hin) as [(j & Hj & Hij)|]; [|by right].
      destruct (Hi' j Hj) as [(k & Hk & Hjk)|[Ho Hn]]; [left; exists k; split; [done|by etrans]|right].
      destruct Hij. split; [congruence|]. intros e Hev Heq. apply (Hn e); [auto|congruence].
    + intros q (q1 & H1 & E1)%Hq. destruct (Hq' _ H1) as (q2 & H2 & E2). exists q2. split; [done|by etrans].
Qed.

Lemma touched_le {pl} i j : touched pl i j → item_le i j.
Proof.
  intros []. constructor; [done|done|done|done| |auto|by rewrite to_downloaded0|done]. destruct to_status0 as [->|H]; [done|].
  rewrite !elem_of_cons in H. destruct (qi_status i); destruct H as [->|[->|H]]; simpl; try lia; inversion H.
Qed.

Lemma acked_le s i e delayed at_ now err : ack_allowed s i e delayed → item_le i (acked e delayed at_ now err i).
Proof.
  intros Hok. assert (rank (qi_status i) ≤ rank (qi_status (acked e delayed at_ now err i))) as Hr.
  { unfold acked, ack_allowed, status_in in *. simpl. destruct delayed.
    - destruct Hok as [[-> | ->] _]; destruct (qi_status i); simpl; lia.
    - destruct (qi_status i), e; simpl in *; try lia; repeat (apply elem_of_cons in Hok as [Hok|Hok]; [discriminate Hok|]); inversion Hok. }
  constructor; try done.
  - unfold acked. simpl. destruct (event_in [DOWNLOAD_COMPLETED; HASH_VERIFIED] e); [intros _; by exists now|done].
  - unfold acked. simpl. intros [t ->]. done.
Qed.

Lemma kept_items p f l i : i ∈ l → (p i = true → item_le i (f i)) → ∃ j, j ∈ update_where p f l ∧ item_le i j.
Proof.
  intros Hi H. exists (if p i then f i else i). split; [apply update_where_elem; eauto|]. destruct (p i); [auto|done].
Qed.

Lemma evolves_qstep {pl} s s' : wf s → qstep pl s s' → evolves s s'.
Proof.
  intros [Wi Wq Wr Wn Wp] []; split; after_step s'; try done;
    try (intros x ?; left; by exists x); try (intros x ?; by exists x); try (intros x ?; apply elem_of_app; by left).
  - intros i Hi. left. apply kept_items; [done|]. intros E. eapply touched_le; auto.
  - intros x Hx. left. exists x. split; [apply elem_of_app; by left|done].
  - intros i Hi. destruct (p i) eqn:E; [left|right; auto]. exists i. split; [by apply filter_elem|done].
  - intros q Hq. exists (if by_key cq_device d q then f q else q). split; [apply update_where_elem; eauto|].
    destruct (by_key cq_device d q) eqn:E; [|done]. apply (by_key_elem _ _ _ _ Wq Hq) in E. destruct (H q E).
    constructor; [done|done|]. intros t. rewrite qt_current_at0. eauto with lia.
  - intros x Hx. exists x. split; [apply elem_of_app; by left|done].
  - intros x Hx. left. apply kept_items; [done|]. intros E. unfold by_key in E. bprop.
    assert (x = i) as -> by (by eapply keys_unique_inj). by eapply acked_le.
  - intros q Hq. destruct H4 as [->|(_ & -> & q0 & Hq0 & Hlt)]; [by exists q|].
    exists (if by_key cq_device d q then move_pointer (qi_release i) at_ now q else q).
    split; [apply update_where_elem; eauto|]. destruct (by_key cq_device d q) eqn:E; [|done].
    apply (by_key_elem _ _ _ _ Wq Hq) in E. assert (q0 = q) as -> by (unfold get_queue in Hq0; congruence).
    constructor; simpl; [done|lia|]. intros t Ht. exists at_. split; [done|].
    destruct Hlt as [Hn|Hlt]; [|apply Hlt in Ht; lia]. exfalso. apply (Wp q Hq); [by exists t|done].
Qed.

Lemma evolves_steps {pl} s s' : wf s → rtc (qstep pl) s s' → evolves s s'.
Proof.
  intros W H. revert W. induction H as [|a b c Hab _ IH]; [done|]. intros W.
  etrans; [by eapply evolves_qstep|]. apply IH. by eapply wf_qstep.
Qed.

(** ** Operations as sequences of transitions *)

Definition good (pl : bool) (s s' : ddb) : Prop := wf s → rtc (qstep pl) s s'.

#[export] Instance good_preorder pl : PreOrder (good pl).
Proof.
  split; [intros s _; done|]. intros a b c Hab Hbc Ha. specialize (Hab Ha). etrans; [exact Hab|].
  apply Hbc. by eapply wf_steps.
Qed.

Lemma good_step {pl} s s' : (wf s → qstep pl s s') → good pl s s'.
Proof. intros H W. by apply rtc_once, H. Qed.

Lemma good_frame {pl} s s' :
  items s' = items s → events s' = events s → queues s' = queues s → releases s' = releases s → quiet pl s s' → good pl s s'.
Proof. intros. apply good_step. intros _. by apply QFrame. Qed.

Lemma good_update_items {pl} p f s s' :
  (wf s → ∀ i, i ∈ items s → p i = true → touched pl i (f i)) →
  items s' = update_where p f (items s) → events s' = events s → queues s' = queues s → releases s' = releases s → quiet pl s s' → good pl s s'.
Proof. intros H ?????. apply good_step. intros W. apply (QTouch _ _ _ p f); auto. Qed.

Lemma good_update_item {pl} k f s :
  (wf s → ∀ i, get_item k s = Some i → touched pl i (f i)) → good pl s (update_item k f s).
Proof.
  intros H. apply (good_update_items (by_key qi_id k) f); [|done..]. intros W i Hin Hk.
  apply H; [done|]. apply by_key_elem; [apply W|done..].
Qed.

Lemma good_update_queue {pl} d f s :
  (wf s → ∀ q, get_queue d s = Some q → queue_touched q (f q)) → good pl s (update_queue d f s).
Proof. intros H. apply good_step. intros W. apply (QQueue _ _ _ d f); [auto|done..]. Qed.

Lemma good_add_queue {pl} s q :
  has_key cq_device (cq_device q) (queues s) = false → cq_current_at q = None → good pl s (s <| queues := queues s ++ [q] |>).
Proof. intros. apply good_step. intros _. by apply (QNewQueue _ _ _ q). Qed.

Lemma good_ignore_event {pl} s e : (∀ a, qe_type e ≠ Ack a) → good pl s (ignore_event e s).
Proof.
  intros H. unfold ignore_event. destruct (existsb _ _); [done|]. apply good_step. intros _. by apply (QNote _ _ _ e).
Qed.

Lemma insert_item_ok i s s' :
  insert_item i s = Ok s' →
  s' = s <| items := items s ++ [i] |> ∧ existsb (item_conflict i) (items s) = false ∧ has_key rl_id (qi_release i) (releases s) = true.
Proof. unfold insert_item. intros H. res_inv. bprop. tauto. Qed.

Lemma good_insert_item {pl} i s s' : new_item i → insert_item i s = Ok s' → good pl s s'.
Proof. intros Hn (-> & Hc & Hr)%insert_item_ok. apply good_step. intros _. by apply (QInsert _ _ _ i). Qed.

Lemma good_for_rows {pl} {E A S} (π : S → ddb) (f : A → S → result E S) l s s' :
  (∀ x s s', f x s = Ok s' → good pl (π s) (π s')) → for_rows f l s = Ok s' → good pl (π s) (π s').
Proof.
  intros Hf. revert s. induction l as [|x l IH]; simpl; intros s H; res_inv; [done|]. etrans; [by eapply Hf|by apply IH].
Qed.

Lemma good_fold {pl} {A} (f : ddb → A → ddb) l s : (∀ s x, good pl s (f s x)) → good pl s (fold_left f l s).
Proof. intros Hf. revert s. induction l as [|x l IH]; simpl; intros s; [done|]. etrans; [apply Hf|apply IH]. Qed.

(** The updates of the code. *)
Lemma ended_touched {pl} i st now : st ∈ [QExpired; QCancelled] → touched pl i (i <| qi_status := st |> <| qi_updated := now |>).
Proof. intros. constructor; try done. by right. Qed.

Lemma cancelled_touched {pl} i now : touched pl i (i <| qi_status := QCancelled |> <| qi_updated := now |>).
Proof. apply ended_touched. right. left. Qed.

Lemma version_touched q r now : queue_touched q (q <| cq_version := cq_version q + 1 |> <| cq_next := r |> <| cq_updated := now |>).
Proof. constructor; simpl; try done; lia. Qed.

(** A step that leaves items, acknowledgements and queues alone. *)
Ltac untouched := apply good_frame; [reflexivity..|done].

(** ** Rollouts *)

Lemma good_update_campaign {pl} k f s : good pl s (update_campaign k f s).
Proof. untouched. Qed.
Lemma good_action {pl} k a n r s : good pl s (_action k a n r s).
Proof. untouched. Qed.
Lemma good_update_target {pl} k d f s : good pl s (update_target k d f s).
Proof. untouched. Qed.
Lemma good_update_stage {pl} g f s : good pl s (update_stage g f s).
Proof. untouched. Qed.

Lemma good_ensure_queue_row {pl} d now s : good pl s (ensure_queue_row d now s).
Proof. unfold ensure_queue_row. destruct (has_key _ _ _) eqn:E; [done|]. by apply good_add_queue. Qed.

Lemma good_rollout_delivery {pl} fresh d r now p deadline s k s' :
  _rollout_delivery_locked fresh d r now p deadline s = Ok (k, s') → good pl s s'.
Proof.
  unfold _rollout_delivery_locked. intros H. etrans; [apply (good_ensure_queue_row d now)|].
  destruct (find_where _ _) as [i|] eqn:E; res_inv.
  - apply good_update_item. intros _ x _. constructor; try done. by left.
  - etrans; [eapply good_insert_item; [|eassumption]; done|]. apply good_update_queue. intros _ q _. apply version_touched.
Qed.

Lemma good_cancel_items {pl} ids now s : good pl s (cancel_items ids now s).
Proof. eapply good_update_items; [|reflexivity..|done]. intros _ i _ _. apply cancelled_touched. Qed.

Lemma good_rollback_target {pl} fresh now td sm sm' :
  rollback_target fresh now td sm = Ok sm' → good pl (fst sm) (fst sm').
Proof.
  destruct td as [t d], sm as [s m]. cbn -[_rollout_delivery_locked update_target]. intros H.
  destruct (offline_device d); [injection H as <-; apply good_update_target|].
  destruct (negb _); [injection H as <-; apply good_update_target|].
  apply rbind_ok in H as ([k s1] & H1 & [= <-]). cbn [fst]. etrans; [by eapply good_rollout_delivery|apply good_update_target].
Qed.

Lemma good_start_rollback {pl} fresh k now reason actor s s' :
  _start_rollback_locked fresh k now reason actor s = Ok s' → good pl s s'.
Proof.
  unfold _start_rollback_locked. destruct (get_campaign k s) as [c|]; [|by intros [= <-]].
  destruct (rstatus_in no_rollback c); [by intros [= <-]|]. intros ([s1 m] & H1 & [= <-])%rbind_ok.
  etrans; [apply good_cancel_items|]. etrans; [exact (good_for_rows fst _ _ _ _ (good_rollback_target fresh now) H1)|].
  etrans; [apply good_update_campaign|apply good_action].
Qed.

Lemma good_allocate_device {pl} fresh c g now d s s' : allocate_device fresh c g now d s = Ok s' → good pl s s'.
Proof.
  unfold allocate_device. destruct (has_target _ _ _); [by intros [= <-]|]. intros ([k s1] & H1 & [= <-])%rbind_ok.
  etrans; [by eapply good_rollout_delivery|untouched].
Qed.

Lemma good_allocate {pl} fresh c g now s r s' :
  _allocate_rollout_stage_locked fresh c g now s = Ok (r, s') → good pl s s'.
Proof.
  unfold _allocate_rollout_stage_locked. set (s1 := match rc_cohort c with Some _ => s | None => _ end).
  assert (good pl s s1) as H1 by (subst s1; destruct (rc_cohort c); [done|untouched]).
  intros H. etrans; [exact H1|]. clearbody s1. clear H1.
  destruct (List.filter _ (List.filter _ _)) as [|d0 online]; [by injection H as <- <-|].
  destruct (_ <? _); [by injection H as <- <-|].
  match type of H with context [fold_left ?f ?l s1] => set (s2 := fold_left f l s1) in H end.
  assert (good pl s1 s2) as H2.
  { apply good_fold. intros x d. unfold skip_offline. destruct (_ && _); [untouched|done]. }
  clearbody s2. etrans; [exact H2|]. destruct (existsb _ _); [by injection H as <- <-|].
  apply rbind_ok in H as (s3 & H3 & [= <- <-]).
  etrans; [exact (good_for_rows id _ _ _ _ (good_allocate_device fresh c g now) H3)|apply good_update_stage].
Qed.

Lemma good_set_status {pl} k st now s : good pl s (set_status k st now s).
Proof. untouched. Qed.

Lemma good_advance_stage {pl} fresh c g now s b s' : advance_stage fresh c g now s = Ok (b, s') → good pl s s'.
Proof.
  unfold advance_stage. destruct (pending_stage _ _ _) as [next|]; [|intros [= <- <-]; untouched].
  intros ([r s1] & H1 & H)%rbind_ok. etrans; [by eapply good_allocate|]. destruct r.
  - apply rbind_ok in H as (s2 & H2 & [= <- <-]). by eapply good_start_rollback.
  - injection H as <- <-. untouched.
Qed.

Lemma good_evaluate_stage {pl} fresh c g now a s b s' : evaluate_stage fresh c g now a s = Ok (b, s') → good pl s s'.
Proof.
  unfold evaluate_stage. destruct (counted _ _); [by intros [= <- <-]|]. destruct (unhealthy _ _ _ _).
  { intros (s1 & H1 & [= <- <-])%rbind_ok. by eapply good_start_rollback. }
  destruct (negb _); [by intros [= <- <-]|]. destruct (rs_started g); [|done].
  etrans; [apply (good_set_status (rc_id c) OBSERVING now)|]. destruct (observed _ _ _ _); [by eapply good_advance_stage|].
  by injection H as <- <-.
Qed.

Lemma good_evaluate {pl} fresh k now a s b s' : _evaluate_rollout_locked fresh k now a s = Ok (b, s') → good pl s s'.
Proof.
  unfold _evaluate_rollout_locked. destruct (get_campaign k s) as [c|]; [|by intros [= <- <-]].
  destruct (negb _); [by intros [= <- <-]|]. intros H. etrans; [apply (good_update_campaign k (λ c, c <| rc_updated := now |>))|].
  destruct (rstatus_in [ROLLING_BACK] c).
  - injection H as <- <-. destruct (rollback_expired _ _ _); [untouched|done].
  - destruct (active_stage _ _); [by eapply good_evaluate_stage|by injection H as <- <-].
Qed.

Lemma good_evaluate_rollouts {pl} fresh now limit s n s' : evaluate_rollouts fresh now limit s = Ok (n, s') → good pl s s'.
Proof.
  unfold evaluate_rollouts. intros H. refine (good_for_rows snd _ _ _ _ _ H). intros c [m s1] [m' s2].
  intros ([b s3] & H1 & [= <- <-])%rbind_ok. by eapply good_evaluate.
Qed.

Lemma good_record_target_ack {pl} fresh d e err now tc s s' : record_target_ack fresh d e err now tc s = Ok s' → good pl s s'.
Proof.
  destruct tc as [t c]. unfold record_target_ack. destruct (negb _); [by intros [= <-]|]. intros H.
  set (s1 := set_with healths _ _) in H. assert (good pl s s1) as H1 by untouched. clearbody s1. etrans; [exact H1|].
  destruct (rstatus_in [ROLLING_BACK] c).
  - destruct (bool_decide _); [injection H as <-; untouched|]. destruct (_ && _); injection H as <-; [untouched|done].
  - apply rbind_ok in H as ([b s2] & H2 & [= <-]). by eapply good_evaluate.
Qed.

Lemma good_record_rollout_ack {pl} fresh k d e err now s s' :
  _record_rollout_ack_locked fresh k d e err now s = Ok s' → good pl s s'.
Proof. apply (good_for_rows id). apply good_record_target_ack. Qed.

Lemma good_create_rollout {pl} id r user specs now s s' : create_rollout id r user specs now s = Ok s' → good pl s s'.
Proof. unfold create_rollout. intros H. res_inv. untouched. Qed.

Lemma good_start_rollout {pl} fresh k a now s s' : start_rollout fresh k a now s = Ok s' → good pl s s'.
Proof.
  unfold start_rollout. destruct (get_campaign k s); [|done]. intros (_ & _ & H)%rbind_ok. destruct (head _); [|done].
  apply rbind_ok in H as ([r s1] & H1 & H). destruct r; [done|]. injection H as <-.
  etrans; [by eapply good_allocate|untouched].
Qed.

Lemma good_resume {pl} k n s s' : resume k n s = Ok s' → good pl s s'.
Proof.
  unfold resume. intros H. res_inv. eapply good_update_items; [|reflexivity..|done]. intros _ i _ _. constructor; try done. by left.
Qed.

Lemma good_transition {pl} fresh k st a r now s c s' : transition_rollout fresh k st a r now s = Ok (c, s') → good pl s s'.
Proof.
  unfold transition_rollout. destruct (get_campaign k s) as [c0|]; [|done]. intros (_ & _ & H)%rbind_ok.
  destruct (bool_decide (st = ROLLING_BACK)).
  { apply rbind_ok in H as (s1 & H1 & [= <- <-]). by eapply good_start_rollback. }
  destruct (_ && _).
  { apply rbind_ok in H as ([b s1] & H1 & H). injection H as <- <-. etrans; [by eapply good_evaluate|].
    destruct b; [untouched|done]. }
  apply rbind_ok in H as (s1 & H1 & [= <- <-]). unfold plain_transition in H1.
  apply rbind_ok in H1 as ([p s2] & H2 & [= <-]). transitivity s2; [|untouched].
  destruct (bool_decide _); [by injection H2 as <- <-|].
  destruct (rc_status c0); try (by injection H2 as <- <-). destruct (rc_paused_at c0); [|by injection H2 as <- <-].
  apply rbind_ok in H2 as (s3 & H3 & [= <- <-]). by eapply good_resume.
Qed.

(** ** The content queue *)

Lemma good_ensure_queue {pl} d depth now s s' : ensure_queue d depth now s = Ok s' → good pl s s'.
Proof.
  unfold ensure_queue. intros H. res_inv. etrans; [|apply good_update_queue; intros _ q _; by constructor].
  destruct (has_key _ _ _) eqn:E; [done|]. by apply good_add_queue.
Qed.

Lemma good_evict {pl} d now s : good pl s (evict d now s).
Proof.
  unfold evict. etrans; [|apply good_update_queue; intros _ q _; constructor; simpl; try done; lia].
  destruct (head _) as [i|]; [|done]. apply good_update_item. intros _ x _. apply cancelled_touched.
Qed.

Lemma good_enqueue_release {pl} a id now s i s' : enqueue_release a id now s = Ok (i, s') → good pl s s'.
Proof.
  unfold enqueue_release. intros H. do 4 (apply rbind_ok in H as (_ & _ & H)).
  destruct (find_where _ _) as [x|]; [destruct (same_request _ _ _); [by injection H as <- <-|done]|].
  destruct (get_queue _ _) as [q|]; [|done]. unfold enqueue_new in H. do 2 (apply rbind_ok in H as (_ & _ & H)).
  destruct (find_where _ _) as [x|]; [by injection H as <- <-|]. apply rbind_ok in H as (_ & _ & H).
  apply rbind_ok in H as (s1 & H1 & [= <- <-]). etrans; [|etrans; [eapply good_insert_item; [|eassumption]; done|]].
  - destruct (_ <=? _); [apply good_evict|done].
  - apply good_update_queue. intros _ q' _. apply version_touched.
Qed.

(** The test of the code is the guard of the protocol. *)
Lemma delayed_allowed py p e i s now :
  let delayed := is_delayed_terminal py p e i (download_evidence i s) now in
  negb delayed && negb (event_in (QUEUE_ALLOWED_EVENTS (qi_status i)) e) = false → ack_allowed s i e delayed.
Proof.
  intros delayed H. unfold ack_allowed. destruct delayed eqn:Hd; cbn in H.
  - unfold delayed, is_delayed_terminal in Hd. bprop. destruct Hd as [[[[[[[He _] _] _] _] Hs] _] _].
    unfold event_in, status_in in *. rewrite !bool_decide_eq_true, !elem_of_cons in *.
    split; [destruct He as [?|[?|He]]; [tauto..|inversion He]|].
    destruct Hs as [[?|[?|Hs]]|[[?|Hs] ?]]; [tauto..|inversion Hs|tauto|inversion Hs].
  - bprop. unfold event_in in H. by apply bool_decide_eq_true in H.
Qed.

(** The tables an acknowledgement does not write before the rollouts. *)
Definition rest (s s' : ddb) : Prop :=
  releases s' = releases s ∧ slots s' = slots s ∧ schedules s' = schedules s ∧ campaigns s' = campaigns s ∧ targets s' = targets s.

Lemma pointer_cases d q i at_ now s s' :
  get_queue d s = Some q → advance_pointer d q (qi_release i) at_ now s = Ok s' →
  items s' = items s ∧ events s' = events s ∧ rest s s' ∧ pointer_moves d i DISPLAY_COMPLETED at_ now s s'.
Proof.
  unfold advance_pointer. intros Hq H.
  destruct (str_or (cq_current q) []) as [|c cur] eqn:E.
  { injection H as <-. split_and!; [done..|]. right. split_and!; [done..|]. exists q. by split; [|left]. }
  destruct (cq_current_at q) as [t|] eqn:Et.
  2: { injection H as <-. split_and!; [done..|]. right. split_and!; [done..|]. exists q. split; [done|]. right. congruence. }
  destruct (t <? at_) eqn:Elt.
  { injection H as <-. split_and!; [done..|]. right. split_and!; [done..|]. exists q. split; [done|]. right.
    intros t'. rewrite Et. intros [= <-]. by bprop. }
  destruct (_ && _); [done|]. injection H as <-. split_and!; [done..|]. by left.
Qed.

Lemma show_photos_frame d i t ids s :
  let s' := fold_left (λ s k, match k with [] => s | _ => show_photo d i t k s end) ids s in
  items s' = items s ∧ events s' = events s ∧ queues s' = queues s ∧ rest s s'.
Proof.
  revert s. induction ids as [|k ids IH]; intros s; [done|]. cbn. destruct (IH (match k with [] => s | _ => show_photo d i t k s end)) as (-> & -> & -> & R).
  unfold rest in *. destruct R as (-> & -> & -> & -> & ->). destruct k; [done|]. unfold show_photo. by destruct (_ && _).
Qed.

(** The display of an acknowledged frame, from the state [s0] in which the
    item and the event are written. *)
Lemma display_cases py d q i t now s s' :
  get_queue d s = Some q → record_display py d q i t now s = Ok s' →
  items s' = items s ∧ events s' = events s ∧ rest s s' ∧ pointer_moves d i DISPLAY_COMPLETED (at_event t) now s s'.
Proof.
  unfold record_display. intros Hq (s1 & H1 & (ids & _ & [= <-])%rbind_ok)%rbind_ok.
  apply pointer_cases in H1 as (E1 & E2 & E3 & Hp); [|done]. destruct (show_photos_frame d i t ids s1) as (-> & -> & Hs & R).
  unfold rest in *. destruct R as (-> & -> & -> & -> & ->). split; [done|]. split; [done|]. split; [exact E3|]. unfold pointer_moves in *. by rewrite Hs.
Qed.

(** An accepted acknowledgement is one transition, then the rollouts'
    bookkeeping. *)
Lemma ack_fresh_split py fresh d p e key v i now s r s' :
  ack_fresh py fresh d p e key v i now s = Ok (r, s') →
  ∃ s1 delayed at_ err, ack_allowed s i e delayed ∧
    items s1 = update_where (by_key qi_id (qi_id i)) (acked e delayed at_ now err) (items s) ∧
    events s1 = events s ++ [mk_queue_event (qi_id i) d (Ack e) (Some key) (logged_payload p) now] ∧
    pointer_moves d i e at_ now s s1 ∧ rest s s1 ∧
    _record_rollout_ack_locked fresh (qi_id i) d e (rollout_error py p) now s1 = Ok s'.
Proof.
  unfold ack_fresh. destruct (get_queue d s) as [q|] eqn:Eq; [|done].
  intros (_ & _ & (tt0 & Hok & (_ & _ & (t & _ & (s1 & H1 & (s2 & H2 & [= <- <-])%rbind_ok)%rbind_ok)%rbind_ok)%rbind_ok)%rbind_ok)%rbind_ok.
  apply raise_if_ok, delayed_allowed in Hok. set (delayed := is_delayed_terminal _ _ _ _ _ _) in *.
  set (f := acked e delayed (at_event t) now _) in *. exists s1, delayed, (at_event t).
  eexists. split; [exact Hok|]. destruct (bool_decide (e = DISPLAY_COMPLETED)) eqn:Ee.
  - apply bool_decide_eq_true in Ee as ->. apply display_cases in H1 as (E1 & E2 & E3 & Hp); [|exact Eq].
    split_and!; [exact E1|exact E2|exact Hp|exact E3|exact H2].
  - injection H1 as <-. split_and!; [reflexivity|reflexivity|by left|done|exact H2].
Qed.

Lemma good_ack_fresh {pl} py fresh d p e key v i now s r s' :
  i ∈ items s → qi_device i = d → ack_fresh py fresh d p e key v i now s = Ok (r, s') → good pl s s'.
Proof.
  intros Hin Hd (s1 & delayed & at_ & err & Hok & E1 & E2 & Hp & E3 & H2)%ack_fresh_split.
  transitivity s1; [|by eapply good_record_rollout_ack]. apply good_step. intros _.
  destruct E3 as (E3 & E4 & E5 & _). eapply (QAck _ _ _ d i); [done|done|exact Hok|exact E1|exact E2|exact Hp|exact E3|by intros _].
Qed.

Lemma good_queue_ack {pl} py fresh d p now s r s' : queue_ack py fresh d p now s = Ok (r, s') → good pl s s'.
Proof.
  unfold queue_ack. destruct (assoc_get _ _) as [e|]; [|done]. intros (_ & _ & (v & _ & H)%rbind_ok)%rbind_ok.
  destruct (find_where _ (items s)) as [i|] eqn:E; [|done]. apply find_where_Some in E as [Hin Hi]. unfold of_device in Hi. bprop.
  destruct (find_event _ _ _ _) as [x|]; [|eapply good_ack_fresh; [done|by destruct Hi|done]].
  apply rbind_ok in H as (r' & _ & [= <- <-]). done.
Qed.

Lemma good_expire {pl} now s : good pl s (expire_operational_data now s).
Proof.
  unfold expire_operational_data. set (s1 := s <| items := _ |>). transitivity s1.
  { eapply good_update_items; [|reflexivity..|done]. intros _ i _ _. apply ended_touched. left. }
  set (gone := map qi_id _). apply good_step. intros W. eapply (QForget _ _ _ (λ i, negb (str_in (qi_id i) gone))); [|reflexivity..|done].
  intros i Hin E. bprop. rename E into Hk. unfold gone in Hk.
  apply list_elem_of_fmap in Hk as (j & Ej & Hj). apply elem_of_take in Hj as (n & Hj & _). apply list_elem_of_lookup_2 in Hj.
  apply sort_by_elem, filter_elem in Hj as [Hj Hc].
  assert (j = i) as -> by (eapply keys_unique_inj; [apply W|done..]). unfold collectable in Hc. bprop.
  destruct Hc as [[[[[[[_ Ho] _] _] _] He] _] _]. split; [done|]. intros e Hin' Heq.
  apply (proj1 (existsb_none _ _) He) in Hin'. bprop. done.
Qed.

(** ** Offline playlists *)

Lemma good_postpone d c t s : good true s (postpone d c t s).
Proof. untouched. Qed.
Lemma good_update_schedule k f s : good true s (update_schedule k f s).
Proof. untouched. Qed.
Lemma good_insert_schedule o s s' : insert_schedule o s = Ok s' → good true s s'.
Proof. unfold insert_schedule. intros H. res_inv. untouched. Qed.

Lemma good_record_transient fresh d date config now s r s' :
  record_transient_exhausted fresh d date config now s = Ok (r, s') → good true s s'.
Proof.
  unfold record_transient_exhausted. destruct (find_schedule _ _ _ _) as [o|].
  - destruct (sstatus_in [SReady] o); [by intros [= <- <-]|]. intros (_ & _ & [= <- <-])%rbind_ok. untouched.
  - destruct (enabled_device d s); [|done]. intros (_ & _ & (s1 & H1 & [= <- <-])%rbind_ok)%rbind_ok.
    etrans; [by eapply good_insert_schedule|apply good_postpone].
Qed.

Lemma good_clear_transient d date config s : good true s (clear_transient_recovery d date config s).
Proof. unfold clear_transient_recovery. destruct (find_schedule _ _ _ _); [untouched|done]. Qed.

Lemma good_claim t d date config now after s b s' : claim_terminal_outcome_retry t d date config now after s = (b, s') → good true s s'.
Proof.
  unfold claim_terminal_outcome_retry. destruct t as [t|]; [|by intros [= <- <-]]. destruct (_ || _); [by intros [= <- <-]|].
  destruct (existsb _ _); intros [= <- <-]; [untouched|done].
Qed.

Lemma good_record_terminal fresh d date config code now s r s' :
  record_terminal_outcome fresh d date config code now s = Ok (r, s') → good true s s'.
Proof.
  unfold record_terminal_outcome. intros (_ & _ & H)%rbind_ok. destruct (enabled_device d s); [|done].
  apply rbind_ok in H as (_ & _ & H). destruct (find_schedule _ _ _ _) as [o|].
  - destruct (sstatus_in [SReady] o); injection H as <- <-; [done|untouched].
  - apply rbind_ok in H as (s1 & H1 & [= <- <-]). etrans; [by eapply good_insert_schedule|apply good_postpone].
Qed.

Lemma good_supersede_item d date now i s : good true s (supersede_item d date now i s).
Proof.
  unfold supersede_item. set (s1 := update_item _ _ s). transitivity s1.
  { apply good_update_item. intros _ x _. constructor; try done. right. right. left. }
  set (s2 := ignore_event _ s1). transitivity s2; [by apply good_ignore_event|untouched].
Qed.

Lemma good_supersede_future_item {pl} d o n kind tr now i s : good pl s (supersede_future_item d o n kind tr now i s).
Proof.
  unfold supersede_future_item. set (s1 := update_item _ _ s). transitivity s1.
  { apply good_update_item. intros _ x _. constructor; try done. right. right. left. }
  set (s2 := ignore_event _ s1). transitivity s2; [apply good_ignore_event; by destruct tr|untouched].
Qed.

Lemma good_supersede_future {pl} d modes now o n kind tr s : good pl s (snd (_supersede_future_queue_items d modes now o n kind tr s)).
Proof.
  unfold _supersede_future_queue_items. set (future := List.filter _ (sort_by _ _)). cbv zeta. cbn [snd].
  set (s1 := fold_left _ future s). transitivity s1; [apply good_fold; intros; apply good_supersede_future_item|].
  destruct (0 <? _); [|done]. apply good_update_queue. intros _ q _. constructor; simpl; try done; lia.
Qed.

(** [injection] would compute the state. *)
Lemma ok_pair {E A B} (a a' : A) (b b' : B) : @Ok E _ (a, b) = Ok (a', b') → a = a' ∧ b = b'.
Proof. by intros [= -> ->]. Qed.

Lemma good_update {pl} zn a d now s r s' : update zn a d now s = Ok (r, s') → good pl s s'.
Proof.
  unfold update. destruct (get_device _ _) as [v|]; [|done]. intros (_ & _ & (_ & _ & (p & _ & H)%rbind_ok)%rbind_ok)%rbind_ok.
  destruct (_ && str_eqb _ _); apply ok_pair in H as [<- <-]; [done|]. set (s1 := set_with devs _ s). transitivity s1; [untouched|].
  destruct (remote_config_changed _); [apply good_supersede_future|done].
Qed.

Lemma good_update_render {pl} zn d p o l f now s r s' : update_render_inputs zn d p o l f now s = Ok (r, s') → good pl s s'.
Proof. unfold update_render_inputs. destruct (get_device _ _); [apply good_update|done]. Qed.

Lemma good_supersede d date k now s n s' : _supersede_previous_schedule_items d date k now s = (n, s') → good true s s'.
Proof.
  unfold _supersede_previous_schedule_items. destruct (map os_id _) as [|x old] eqn:E; intros H; injection H as <- <-; [done|].
  set (s1 := set_with schedules _ s). transitivity s1; [untouched|]. apply good_fold. intros y i. apply good_supersede_item.
Qed.

Lemma good_insert_slot x s s' : insert_slot x s = Ok s' → good true s s'.
Proof. unfold insert_slot. intros H. res_inv. untouched. Qed.

Lemma good_place_slots f k d panel base target_end now queued n plans s s' :
  place_slots f k d panel base target_end now queued n plans s = Ok s' → good true s s'.
Proof.
  revert n s. induction plans as [|x plans IH]; intros n s; simpl; [by intros [= <-]|].
  destruct (usable_release _ _ _); [|done]. intros (e & _ & (_ & _ & (s1 & H1 & (s2 & H2 & H)%rbind_ok)%rbind_ok)%rbind_ok)%rbind_ok.
  etrans; [eapply good_insert_item; [|eassumption]; done|]. etrans; [by eapply good_insert_slot|]. by eapply IH.
Qed.

Lemma place_slots_queues f k d panel base target_end now queued n plans s s' :
  place_slots f k d panel base target_end now queued n plans s = Ok s' → queues s' = queues s.
Proof.
  revert n s. induction plans as [|x plans IH]; intros n s; simpl; [by intros [= <-]|].
  destruct (usable_release _ _ _); [|done]. intros (e & _ & (_ & _ & (s1 & H1 & (s2 & H2 & H)%rbind_ok)%rbind_ok)%rbind_ok)%rbind_ok.
  apply insert_item_ok in H1 as [-> _]. unfold insert_slot in H2. res_inv. by rewrite (IH _ _ H).
Qed.

Lemma good_day_queue d n now s q s' : day_queue d n now s = (q, s') → good true s s' ∧ get_queue d s' = Some q.
Proof.
  unfold day_queue. destruct (get_queue d s) as [q'|] eqn:E; intros [= <- <-]; [done|]. unfold get_queue in E. split.
  - apply good_add_queue; [|done]. apply existsb_none. intros x Hx. apply (find_where_None _ _ _ E Hx).
  - change (get_row cq_device d (queues s ++ [new_queue d (Z.max 3 n) now]) = Some (new_queue d (Z.max 3 n) now)).
    rewrite get_row_app_fresh, E. cbn. by rewrite str_eqb_refl.
Qed.

Lemma good_store_day f p d date ids version existing now s k s' :
  store_day f p d date ids version existing now s = Ok (k, s') → good true s s'.
Proof.
  unfold store_day. set (k0 := match existing with Some o => os_id o | None => id_schedule f end).
  intros (s1 & H1 & H)%rbind_ok. transitivity s1.
  { unfold upsert_schedule in H1. destruct existing; [injection H1 as <-; untouched|by eapply good_insert_schedule]. }
  set (s2 := s1 <| slots := _ |>) in H. transitivity s2; [untouched|]. clearbody s2.
  destruct (_supersede_previous_schedule_items d date k0 now s2) as [c s3] eqn:E3. transitivity s3; [by eapply good_supersede|].
  destruct (day_queue d _ now s3) as [q s4] eqn:E4. apply good_day_queue in E4 as [G4 Hq]. transitivity s4; [done|].
  apply rbind_ok in H as (_ & _ & (dl & _ & (s5 & H5 & (_ & _ & [= <- <-])%rbind_ok)%rbind_ok)%rbind_ok).
  transitivity s5; [by eapply good_place_slots|]. apply place_slots_queues in H5.
  set (s6 := update_queue d _ s5). transitivity s6; [|destruct (_is_future_item _ _); untouched].
  apply good_update_queue. intros _ q' Hq'. unfold get_queue in Hq, Hq'. rewrite H5, Hq in Hq'. injection Hq' as <-.
  constructor; simpl; try done. destruct (0 <? c); lia.
Qed.

Lemma good_prepare_day zn w f d date rs ex now s v s' : prepare_day zn w f d date rs ex now s = Ok (v, s') → good true s s'.
Proof.
  unfold prepare_day. intros (_ & _ & (_ & _ & (_ & _ & (p & _ & H)%rbind_ok)%rbind_ok)%rbind_ok)%rbind_ok.
  destruct (find_schedule _ _ _ _) as [o|]; [destruct (sstatus_in [SReady] o)|].
  - apply rbind_ok in H as ([x|] & _ & H); [|done]. destruct (str_eqb _ _); [by injection H as <- <-|done].
  - apply rbind_ok in H as ([k s1] & H1 & [= <- <-]). by eapply good_store_day.
  - apply rbind_ok in H as ([k s1] & H1 & [= <- <-]). by eapply good_store_day.
Qed.

Lemma release_id_named s : _RELEASE_ID s = true → s ≠ [].
Proof. by destruct s. Qed.

Lemma good_swap_release o x m r sha now s s' : r ≠ [] → swap_release o x m r sha now s = Ok s' → good true s s'.
Proof.
  intros Hr. unfold swap_release. set (s1 := set_with slots _ (set_with items _ s)). destruct (times_of _); [|done].
  intros (ts & _ & [= <-])%rbind_ok. transitivity s1.
  { eapply good_update_items; [|reflexivity..|done]. intros _ i _ Hi. bprop. destruct Hi as [_ Hi]. constructor; try done; [by left|].
    intros H. unfold status_in in Hi. apply bool_decide_eq_true in Hi. exfalso.
    rewrite !elem_of_cons in Hi. destruct Hi as [E|[E|Hi]]; [rewrite E in H; simpl in H; lia..|inversion Hi]. }
  set (s2 := update_schedule _ _ s1). transitivity s2; [untouched|]. apply good_update_queue. intros _ q _.
  constructor; simpl; try done; lia.
Qed.

Lemma good_replace_slot d k n r ex now s v s' : replace_slot d k n r ex now s = Ok (v, s') → good true s s'.
Proof.
  unfold replace_slot. intros (_ & _ & (? & Hr & H)%rbind_ok)%rbind_ok. apply raise_if_ok in Hr. bprop.
  destruct (find_where _ (schedules s)) as [o|]; [|done]. destruct (enabled_device d s) as [dv|]; [|done].
  apply rbind_ok in H as (_ & _ & (_ & _ & H)%rbind_ok). destruct (find_where _ (slots s)) as [x0|]; [|done].
  destruct (find_where _ (items s)) as [i|]; [|done]. apply rbind_ok in H as (_ & _ & (_ & _ & H)%rbind_ok).
  destruct (str_eqb _ _); [by injection H as <- <-|]. destruct (usable_release _ _ _); [|done].
  apply rbind_ok in H as (_ & _ & (e & _ & (s1 & H1 & [= <- <-])%rbind_ok)%rbind_ok).
  eapply good_swap_release; [by apply release_id_named|done].
Qed.
