(* ===== verification/DeliveryRuns.v ===== *)
(** * Runs of the delivery database

    Every operation of the queue, the rollouts, the offline playlists and the
    settings of frames as a request; a run applies a list of them.  A request that raises leaves the
    database as it was. *)

From stdpp Require Import relations.
From S2P Require Import Prelude PyStr PyFloat Json Sql Reservations OfflineSchedule Devices Delivery Rollouts ContentQueue OfflineStore OfflinePrepare DeviceUpdate DeliveryLife.
Local Open Scope Z_scope.

Inductive request :=
| EnsureQueue (d : str) (depth now : Z)
| Enqueue (a : enqueue_args) (id : str) (now : Z)
| Acknowledge (fresh : str → str → str) (d : str) (p : list (str * json)) (now : Z)
| Expire (now : Z)
| CreateRollout (id release user : str) (specs : list stage_spec) (now : Z)
| StartRollout (fresh : str → str) (rollout actor : str) (now : Z)
| TransitionRollout (fresh : str → str) (rollout : str) (target : rollout_status) (actor : str) (reason : option str) (now : Z)
| EvaluateRollouts (fresh : str → str → str) (now limit : Z)
| PrepareDay (w : weekly_settings) (f : new_ids) (d : str) (date : Z) (ids : list str) (expected : option Z) (now : Z)
| ReplaceSlot (d k : str) (index : Z) (release : str) (expected : option Z) (now : Z)
| TransientExhausted (fresh d : str) (date config now : Z)
| ClearTransient (d : str) (date config : Z)
| TerminalOutcome (fresh d : str) (date config : Z) (code : str) (now : Z)
| ClaimRetry (t : option outcome_seen) (d : str) (date config now after : Z)
| SetDeadline (d : str) (deadline config : option Z)
| InvalidateDeadlines
| UpdateDevice (a : update_args) (d : str) (now : Z)
| UpdateRenderInputs (d : str) (panel : option str) (orientation layout fit : option (option str)) (now : Z).

Definition state_of {A} (r : result dl_exn (A * ddb)) (s : ddb) : ddb := match r with Ok (_, s') => s' | Raise _ => s end.
Definition state_or (r : result dl_exn ddb) (s : ddb) : ddb := match r with Ok s' => s' | Raise _ => s end.

Section runs.
Context (py_str : json → str) (zone_named : str → option zone).

Definition apply (r : request) (s : ddb) : ddb :=
  match r with
  | EnsureQueue d depth now => state_or (ensure_queue d depth now s) s
  | Enqueue a id now => state_of (enqueue_release a id now s) s
  | Acknowledge fresh d p now => state_of (queue_ack py_str fresh d p now s) s
  | Expire now => expire_operational_data now s
  | CreateRollout id release user specs now => state_or (create_rollout id release user specs now s) s
  | StartRollout fresh k actor now => state_or (start_rollout fresh k actor now s) s
  | TransitionRollout fresh k target actor reason now => state_of (transition_rollout fresh k target actor reason now s) s
  | EvaluateRollouts fresh now limit => state_of (evaluate_rollouts fresh now limit s) s
  | PrepareDay w f d date ids expected now => state_of (prepare_day zone_named w f d date ids expected now s) s
  | ReplaceSlot d k index release expected now => state_of (replace_slot d k index release expected now s) s
  | TransientExhausted fresh d date config now => state_of (record_transient_exhausted fresh d date config now s) s
  | ClearTransient d date config => clear_transient_recovery d date config s
  | TerminalOutcome fresh d date config code now => state_of (record_terminal_outcome fresh d date config code now s) s
  | ClaimRetry t d date config now after => snd (claim_terminal_outcome_retry t d date config now after s)
  | SetDeadline d deadline config => snd (set_next_prepare_deadline d deadline config s)
  | InvalidateDeadlines => snd (invalidate_prepare_deadlines_for_policy_change s)
  | UpdateDevice a d now => state_of (update zone_named a d now s) s
  | UpdateRenderInputs d panel orientation layout fit now => state_of (update_render_inputs zone_named d panel orientation layout fit now s) s
  end.

Definition run (rs : list request) (s : ddb) : ddb := fold_left (λ s r, apply r s) rs s.

(** The requests that write playlists. *)
Definition on_playlists (r : request) : bool :=
  match r with
  | PrepareDay _ _ _ _ _ _ _ | ReplaceSlot _ _ _ _ _ _ | TransientExhausted _ _ _ _ _ | ClearTransient _ _ _
  | TerminalOutcome _ _ _ _ _ _ | ClaimRetry _ _ _ _ _ _ => true
  | _ => false
  end.

Lemma good_state_of {A pl} (r : result dl_exn (A * ddb)) s : (∀ a s', r = Ok (a, s') → good pl s s') → good pl s (state_of r s).
Proof. intros H. destruct r as [[a s']|]; simpl; [by eapply H|done]. Qed.
Lemma good_state_or {pl} r s : (∀ s', r = Ok s' → good pl s s') → good pl s (state_or r s).
Proof. intros H. destruct r; simpl; [by apply H|done]. Qed.

Lemma good_apply pl r s : (on_playlists r = true → pl = true) → good pl s (apply r s).
Proof.
  destruct r; simpl; intros Hp; try specialize (Hp eq_refl); subst;
    try (apply good_state_of; intros a0 s' H); try (apply good_state_or; intros s' H).
  - by eapply good_ensure_queue.
  - by eapply good_enqueue_release.
  - by eapply good_queue_ack.
  - apply good_expire.
  - by eapply good_create_rollout.
  - by eapply good_start_rollout.
  - by eapply good_transition.
  - by eapply good_evaluate_rollouts.
  - by eapply good_prepare_day.
  - by eapply good_replace_slot.
  - by eapply good_record_transient.
  - apply good_clear_transient.
  - by eapply good_record_terminal.
  - destruct (claim_terminal_outcome_retry _ _ _ _ _ _ _) as [b s'] eqn:E. by eapply good_claim.
  - untouched.
  - untouched.
  - by eapply good_update.
  - by eapply good_update_render.
Qed.

Lemma good_run rs s : good true s (run rs s).
Proof. unfold run. apply good_fold. intros x r. by apply good_apply. Qed.

(** C9. Every operation of the content queue, the rollouts, the offline
    playlists and the settings of frames is a sequence of transitions of the abstract queue protocol
    ([qstep]: touch, insert, forget, acknowledge, move the pointer), in any
    order they are asked; as long as no playlist operation is among them,
    playlists and slots are not written and no item changes its release. *)
Theorem delivery_refines_protocol rs s : wf s → rtc (qstep (existsb on_playlists rs)) s (run rs s).
Proof.
  assert (∀ r, r ∈ rs → on_playlists r = true → existsb on_playlists rs = true) as Hpl.
  { intros r Hr E. apply existsb_elem. by exists r. }
  revert Hpl. generalize (existsb on_playlists rs). intros pl Hpl. revert s. unfold run.
  induction rs as [|r rs IH]; intros s W; [done|]. cbn [fold_left]. assert (good pl s (apply r s)) as G.
  { apply good_apply. intros E. apply (Hpl r); [left|done]. }
  etrans; [by apply G|]. apply IH; [|by eapply wf_steps, G]. intros x Hx. apply Hpl. by right.
Qed.


(** C11. A frame's queue never goes back: its version, by which stale
    acknowledgements are refused, never falls, and the display pointer never
    returns to an earlier display, in whatever order acknowledgements
    arrive. *)
Theorem queue_never_goes_back rs s q :
  wf s → q ∈ queues s →
  ∃ q', q' ∈ queues (run rs s) ∧ cq_device q' = cq_device q ∧ cq_version q ≤ cq_version q' ∧
    ∀ t, cq_current_at q = Some t → ∃ t', cq_current_at q' = Some t' ∧ t ≤ t'.
Proof.
  intros W Hq. destruct (evolves_steps _ _ W (good_run rs s W)) as [_ _ Hev]. destruct (Hev q Hq) as (q' & Hin & []). by exists q'.
Qed.
End runs.
