(* ===== verification/DeliveryEvidence.v ===== *)
(** * Displays rest on evidence

    The invariant of the queue protocol that ties what the server believes a
    frame shows to the acknowledgements it received: downloads, verified
    hashes and completed displays. *)

From stdpp Require Import relations.
From S2P Require Import Prelude PyStr PyFloat Json Sql Reservations OfflineSchedule Devices Delivery Rollouts ContentQueue OfflineStore OfflinePrepare DeliveryLife DeliveryRuns.
Local Open Scope Z_scope.

Record item_ok (i : queue_item) : Prop := mk_item_ok {
  io_fresh : rank (qi_status i) ≤ 2 → qi_downloaded i = None ∧ qi_displayed i = None;
  io_downloaded : qi_status i = QDownloaded ∨ qi_status i = QAcknowledged ∨ qi_status i = QDisplayed → is_Some (qi_downloaded i);
  io_displayed : qi_status i = QDisplayed → is_Some (qi_displayed i);
  io_shown : is_Some (qi_displayed i) → is_Some (qi_downloaded i) }.

Definition about (k : str) (l : list event_type) (s : ddb) : Prop := ∃ e, e ∈ events s ∧ qe_item e = k ∧ qe_type e ∈ l.

Record evidence (s : ddb) : Prop := mk_evidence {
  ed_items : ∀ i, i ∈ items s → item_ok i;
  ed_events : ∀ e, e ∈ events s → qe_type e ∈ [Ack DOWNLOAD_COMPLETED; Ack HASH_VERIFIED] →
    ∃ i, i ∈ items s ∧ qi_id i = qe_item e ∧ is_Some (qi_downloaded i);
  ed_verified : ∀ i, i ∈ items s → qi_status i = QAcknowledged ∨ qi_status i = QDisplayed → about (qi_id i) [Ack HASH_VERIFIED] s;
  ed_pointer : ∀ q, q ∈ queues s → is_Some (cq_current_at q) →
    ∃ i, i ∈ items s ∧ qi_device i = cq_device q ∧ cq_current q = Some (qi_release i) ∧ is_Some (qi_displayed i) ∧
      about (qi_id i) [Ack DISPLAY_COMPLETED] s }.

Lemma item_ok_touched i j : touched true i j → item_ok i → item_ok j.
Proof.
  intros [_ _ _ _ Hd Hs Hst _ _] [H1 H2 H3 H4]. rewrite <- Hd, <- Hs in *.
  assert (rank (qi_status j) ≤ 2 ∨ qi_status j = QDownloaded ∨ qi_status j = QAcknowledged ∨ qi_status j = QDisplayed → qi_status j = qi_status i) as Hk.
  { destruct Hst as [?|Hst]; [done|]. rewrite !elem_of_cons in Hst. intros H.
    destruct Hst as [E|[E|Hst]]; [rewrite E in H; simpl in H; exfalso; naive_solver lia..|inversion Hst]. }
  split; [intros H|intros H|intros H|done]; rewrite Hk in H by tauto; auto.
Qed.

Lemma elem_of_single {A} (x y : A) : x ∈ [y] → x = y.
Proof. by intros ?%list_elem_of_singleton. Qed.

(** The evidence the code looks for is a download of this very item. *)
Lemma evidence_downloaded s i :
  wf s → evidence s → i ∈ items s → download_evidence i s = true → is_Some (qi_downloaded i).
Proof.
  intros W E Hi H. unfold download_evidence in H. bprop. destruct H as [H|H].
  - destruct (qi_downloaded i); [by eexists|done].
  - apply existsb_elem in H as (e & He & H). bprop. destruct H as [Hk Ht]. apply bool_decide_eq_true in Ht.
    destruct (ed_events s E e He Ht) as (j & Hj & Ej & Hd). assert (j = i) as -> by (eapply keys_unique_inj; [apply W|done|done|congruence]).
    done.
Qed.

Lemma item_ok_acked s i e delayed at_ now err :
  wf s → evidence s → i ∈ items s → ack_allowed s i e delayed → item_ok (acked e delayed at_ now err i).
Proof.
  intros W E Hi Ha. pose proof (ed_items s E i Hi) as [H1 H2 H3 H4].
  assert (qi_status i = QCancelled ∧ download_evidence i s = true → is_Some (qi_downloaded i)) as H5.
  { intros [_ ?]. by eapply evidence_downloaded. }
  unfold ack_allowed in Ha. destruct delayed.
  - destruct Ha as [He Hs]. assert (is_Some (qi_downloaded i)) as Hd by naive_solver.
    destruct He as [-> | ->]; unfold acked, status_in; split; simpl;
      destruct Hs as [Es|[Es|[Es _]]]; rewrite Es in *; simpl; try done; try lia; try (intros; by destruct (qi_displayed i)).
  - unfold acked, status_in; destruct (qi_status i) eqn:Es, e; simpl in *;
      try (exfalso; repeat (apply elem_of_cons in Ha as [Ha|Ha]; [discriminate Ha|]); by inversion Ha);
      (split; simpl; try done; try lia; try (intros; by eexists); try (intros; by apply H2; auto); try (intros [?|[?|?]]; discriminate);
       try (intros; by destruct (qi_displayed i)); try (destruct (H1 ltac:(lia)) as [-> ->]; done)).
Qed.

(** An item with an acknowledgement is still there, in a later version. *)
Lemma acknowledged_kept s s' i l :
  wf s → qstep true s s' → i ∈ items s → about (qi_id i) l s → ∃ j, j ∈ items s' ∧ item_le i j ∧ about (qi_id j) l s'.
Proof.
  intros W H Hi (e & He & Ek & Et). destruct (evolves_qstep s s' W H) as [Hev Hee _].
  destruct (Hev i Hi) as [(j & Hj & Hle)|[_ Hn]]; [|by destruct (Hn e He)].
  exists j. split_and!; [done..|]. exists e. split_and!; [auto|rewrite Ek; symmetry; apply Hle|done].
Qed.

Lemma about_mono s s' k l : (∀ e, e ∈ events s → e ∈ events s') → about k l s → about k l s'.
Proof. intros H (e & He & ?). exists e. auto. Qed.

(** Where the items, events and queues of the next state come from. *)
Lemma item_origin s s' j :
  wf s → evidence s → qstep true s s' → j ∈ items s' →
  item_ok j ∧ (qi_status j = QAcknowledged ∨ qi_status j = QDisplayed → about (qi_id j) [Ack HASH_VERIFIED] s').
Proof.
  intros W E H Hj. destruct (evolves_qstep s s' W H) as [_ Hee _].
  assert (∀ i, i ∈ items s → item_ok i ∧ (qi_status i = QAcknowledged ∨ qi_status i = QDisplayed → about (qi_id i) [Ack HASH_VERIFIED] s')) as Hold.
  { intros i Hi. split; [by apply E|]. intros Hs. eapply about_mono; [done|]. by apply E. }
  destruct H as [Ei|p f Ht Ei|i Hn Hc _ Ei|p Hf Ei|? ? ? ? Ei|? ? ? ? Ei|? ? ? Ei|d i e delayed at_ now err key payload Hi Hd Ha Ei Ee];
    rewrite Ei in Hj; auto.
  - apply update_where_elem in Hj as (i & Hi & ->). destruct (p i) eqn:Ep; [|auto]. specialize (Ht i Hi Ep).
    split; [eapply item_ok_touched; [done|by apply E]|]. intros Hs. rewrite (to_id _ _ _ Ht). apply (Hold i Hi).
    destruct (to_status _ _ _ Ht) as [Est|Est]; [by rewrite <- Est|]. rewrite !elem_of_cons in Est.
    destruct Hs as [Hs|Hs]; rewrite Hs in Est; destruct Est as [?|[?|Est]]; try done; inversion Est.
  - apply elem_of_app in Hj as [Hj|Hj%elem_of_single]; [auto|]. subst j. destruct Hn as (Hs & Hdl & Hdp). split.
    + split; rewrite ?Hs, ?Hdl, ?Hdp; simpl; try done; intros [?|[?|?]]; discriminate.
    + rewrite Hs. intros [?|?]; discriminate.
  - apply filter_elem in Hj as [Hj _]. auto.
  - apply update_where_elem in Hj as (x & Hx & ->). destruct (by_key _ _ x) eqn:Ep; [|auto]. unfold by_key in Ep. bprop.
    assert (x = i) as -> by (eapply keys_unique_inj; [apply W|done..]). split; [by eapply item_ok_acked|].
    change (qi_id (acked e delayed at_ now err i)) with (qi_id i). intros Hs.
    destruct (decide (e = HASH_VERIFIED)) as [->|Hne].
    { eexists. split; [rewrite Ee; apply elem_of_app; right; left|]. split; [done|left]. }
    apply (Hold i Hi). unfold acked, ack_allowed, status_in in *. simpl in Hs. destruct delayed.
    + destruct Ha as [He Hst]. destruct Hst as [Es|[Es|[Es _]]]; [tauto|tauto|]. rewrite Es in Hs. simpl in Hs.
      destruct Hs; discriminate.
    + clear - Ha Hs Hne. destruct (qi_status i), e; simpl in *; try tauto; try (destruct Hs; discriminate);
        exfalso; repeat (apply elem_of_cons in Ha as [Ha|Ha]; [discriminate Ha|]); by inversion Ha.
Qed.

Lemma event_origin s s' e :
  wf s → evidence s → qstep true s s' → e ∈ events s' → qe_type e ∈ [Ack DOWNLOAD_COMPLETED; Ack HASH_VERIFIED] →
  ∃ i, i ∈ items s' ∧ qi_id i = qe_item e ∧ is_Some (qi_downloaded i).
Proof.
  intros W E H He Ht. assert (e ∈ events s → ∃ i, i ∈ items s' ∧ qi_id i = qe_item e ∧ is_Some (qi_downloaded i)) as Hold.
  { intros Hin. destruct (ed_events s E e Hin Ht) as (i & Hi & Ek & Hd).
    destruct (acknowledged_kept s s' i [qe_type e] W H Hi) as (j & Hj & Hle & _); [exists e; split_and!; [done|done|left]|].
    exists j. split_and!; [done|rewrite <- Ek; apply Hle|by apply Hle]. }
  destruct H as [? Ee|? ? ? ? Ee|? ? ? ? ? Ee|? ? ? Ee|? ? ? ? ? Ee|? ? ? ? ? Ee|x Hx Ee|d i x delayed at_ now err key payload Hi Hd Ha Ei Ee];
    rewrite Ee in He; auto; apply elem_of_app in He as [He|He%elem_of_single]; auto; subst e.
  - rewrite !elem_of_cons in Ht. destruct Ht as [Ht|[Ht|Ht]]; [by apply Hx in Ht..|inversion Ht].
  - simpl in *. exists (acked x delayed at_ now err i). split_and!; [|done|].
    + rewrite Ei. apply update_where_elem. exists i. unfold by_key. by rewrite str_eqb_refl.
    + rewrite !elem_of_cons in Ht. destruct Ht as [[= ->]|[[= ->]|Ht]]; [by eexists..|inversion Ht].
Qed.

Lemma pointer_origin s s' q :
  wf s → evidence s → qstep true s s' → q ∈ queues s' → is_Some (cq_current_at q) →
  ∃ i, i ∈ items s' ∧ qi_device i = cq_device q ∧ cq_current q = Some (qi_release i) ∧ is_Some (qi_displayed i) ∧
    about (qi_id i) [Ack DISPLAY_COMPLETED] s'.
Proof.
  intros W E H Hq Hc.
  assert (∀ q0, q0 ∈ queues s → cq_device q = cq_device q0 → cq_current q = cq_current q0 → cq_current_at q = cq_current_at q0 →
    ∃ i, i ∈ items s' ∧ qi_device i = cq_device q ∧ cq_current q = Some (qi_release i) ∧ is_Some (qi_displayed i) ∧
    about (qi_id i) [Ack DISPLAY_COMPLETED] s') as Hold.
  { intros q0 Hq0 -> -> Ea. rewrite Ea in Hc. destruct (ed_pointer s E q0 Hq0 Hc) as (i & Hi & Hd & Hr & Hs & Ha).
    destruct (acknowledged_kept s s' i _ W H Hi Ha) as (j & Hj & Hle & Hab). exists j.
    assert (2 ≤ rank (qi_status i)) as Hk.
    { destruct (Z.le_gt_cases (rank (qi_status i)) 2) as [Hk|]; [|lia].
      destruct (io_fresh i (ed_items s E i Hi) Hk) as [_ Hn]. rewrite Hn in Hs. by destruct Hs. }
    split_and!; [done|rewrite <- Hd; apply Hle|by rewrite (le_release _ _ Hle Hk)|by rewrite (le_displayed _ _ Hle Hs)|done]. }
  destruct H as [? ? Eq|? ? ? ? ? Eq|? ? ? ? ? ? Eq|? ? ? ? Eq|d f Ht Eq|x Hk Hn Eq|? ? ? ? Eq|d i e delayed at_ now err key payload Hi Hd Ha Ei Ee Hp];
    try (rewrite Eq in Hq; by apply (Hold q)).
  - rewrite Eq in Hq. apply update_where_elem in Hq as (q0 & Hq0 & ->). destruct (by_key cq_device d q0) eqn:Ek; [|by apply (Hold q0)].
    apply (by_key_elem _ _ _ _ (wf_queues s W) Hq0) in Ek. destruct (Ht q0 Ek). by apply (Hold q0).
  - rewrite Eq in Hq. apply elem_of_app in Hq as [Hq|Hq%elem_of_single]; [by apply (Hold q)|]. subst q. rewrite Hn in Hc. by destruct Hc.
  - destruct Hp as [Hp|(-> & Hp & _)]; rewrite Hp in Hq; [by apply (Hold q)|].
    apply update_where_elem in Hq as (q0 & Hq0 & ->). destruct (by_key cq_device d q0) eqn:Ek; [|by apply (Hold q0)].
    unfold by_key in Ek. bprop. exists (acked DISPLAY_COMPLETED delayed at_ now err i). split_and!.
    + rewrite Ei. apply update_where_elem. exists i. unfold by_key. by rewrite str_eqb_refl.
    + simpl. congruence.
    + done.
    + simpl. by destruct (qi_displayed i).
    + eexists. split; [rewrite Ee; apply elem_of_app; right; left|]. split; [done|left].
Qed.

Lemma evidence_qstep s s' : wf s → evidence s → qstep true s s' → evidence s'.
Proof.
  intros W E H. split.
  - intros i Hi. by eapply item_origin.
  - intros e He Ht. by eapply event_origin.
  - intros i Hi. by eapply item_origin.
  - intros q Hq Hc. by eapply pointer_origin.
Qed.

Lemma evidence_steps s s' : wf s → evidence s → rtc (qstep true) s s' → evidence s'.
Proof.
  intros W E H. revert W E. induction H as [|a b c Hab _ IH]; [done|]. intros W E.
  apply IH; [by eapply wf_qstep|by eapply evidence_qstep].
Qed.

(** Where a dated pointer comes from. *)
Definition same_pointer (q q' : queue) : Prop :=
  cq_device q = cq_device q' ∧ cq_current q = cq_current q' ∧ cq_current_at q = cq_current_at q'.
Definition pointer_from (s s' : ddb) (l : list queue_event) : Prop :=
  ∀ q', q' ∈ queues s' → is_Some (cq_current_at q') →
    (∃ q, q ∈ queues s ∧ same_pointer q q') ∨
    ∃ e, e ∈ l ∧ qe_device e = cq_device q' ∧ qe_type e = Ack DISPLAY_COMPLETED.

Lemma pointer_from_same s s' l : queues s' = queues s → pointer_from s s' l.
Proof. intros E q' Hq _. left. exists q'. rewrite <- E. done. Qed.

Lemma pointer_from_step s s' : wf s → qstep true s s' → ∃ l, events s' = events s ++ l ∧ pointer_from s s' l.
Proof.
  intros W H.
  destruct H as [? Ee Eq|? ? ? ? Ee Eq|? ? ? ? ? Ee Eq|? ? ? Ee Eq|d f Ht Eq _ Ee|x Hk Hn Eq _ Ee|x _ Ee _ Eq|
                 d i e delayed at_ now err key payload Hi Hd Ha Ei Ee Hp].
  1-4: exists []; rewrite app_nil_r; split; [done|by apply pointer_from_same].
  - exists []. rewrite app_nil_r. split; [done|]. intros q'. rewrite Eq. intros (q & Hq & ->)%update_where_elem Hc. left.
    exists q. split; [done|]. destruct (by_key cq_device d q) eqn:Ek; [|done].
    apply (by_key_elem _ _ _ _ (wf_queues s W) Hq) in Ek. by destruct (Ht q Ek).
  - exists []. rewrite app_nil_r. split; [done|]. intros q'. rewrite Eq. intros [Hq|Hq%elem_of_single]%elem_of_app Hc.
    + left. by exists q'.
    + subst q'. rewrite Hn in Hc. by destruct Hc.
  - exists [x]. split; [done|by apply pointer_from_same].
  - eexists. split; [exact Ee|]. destruct Hp as [Hp|(-> & Hp & _)]; [by apply pointer_from_same|].
    intros q'. rewrite Hp. intros (q & Hq & ->)%update_where_elem Hc.
    destruct (by_key cq_device d q) eqn:Ek; [right|left; by exists q].
    eexists. split; [left|]. simpl. unfold by_key in Ek. bprop. by split.
Qed.

Lemma pointer_from_steps s s' : wf s → rtc (qstep true) s s' → ∃ l, events s' = events s ++ l ∧ pointer_from s s' l.
Proof.
  intros W H. revert W. induction H as [s|a b c Hab _ IH]; intros W.
  { exists []. rewrite app_nil_r. split; [done|by apply pointer_from_same]. }
  destruct (pointer_from_step a b W Hab) as (l1 & E1 & P1). destruct (IH (wf_qstep _ _ W Hab)) as (l2 & E2 & P2).
  exists (l1 ++ l2). split; [by rewrite E2, E1, app_assoc|]. intros q' Hq Hc.
  destruct (P2 q' Hq Hc) as [(q & Hb & Ed & Er & Et)|(e & He & ?)]; [|right; exists e; split; [apply elem_of_app; by right|done]].
  rewrite <- Et in Hc. destruct (P1 q Hb Hc) as [(q0 & H0 & Ed0 & Er0 & Et0)|(e & He & Ede & Ete)].
  - left. exists q0. split; [done|]. split_and!; congruence.
  - right. exists e. split; [apply elem_of_app; by left|]. split; [congruence|done].
Qed.

(** C12. The server's picture of a frame rests on what the frame reported.
    Take any state in which it does ([evidence], as in one where nothing was
    delivered yet) and any sequence of requests.  Afterwards an item counts as
    displayed only if its hash was verified by the frame; the release the
    server believes to be on the panel is the release of an item of that frame
    that was downloaded and whose display the frame reported; and where that
    pointer is not the one from before, the requests include a newly recorded
    DISPLAY_COMPLETED of this frame, so nothing else, no administrator,
    rollout or playlist operation, moves it. *)
Theorem displays_rest_on_evidence py zones rs s :
  wf s → evidence s →
  (∀ i, i ∈ items (run py zones rs s) → qi_status i = QDisplayed →
     is_Some (qi_displayed i) ∧ about (qi_id i) [Ack HASH_VERIFIED] (run py zones rs s)) ∧
  (∀ q t, q ∈ queues (run py zones rs s) → cq_current_at q = Some t →
     ∃ i, i ∈ items (run py zones rs s) ∧ qi_device i = cq_device q ∧ cq_current q = Some (qi_release i) ∧
       is_Some (qi_downloaded i) ∧ is_Some (qi_displayed i) ∧ about (qi_id i) [Ack DISPLAY_COMPLETED] (run py zones rs s)) ∧
  ∃ l, events (run py zones rs s) = events s ++ l ∧ pointer_from s (run py zones rs s) l.
Proof.
  intros W E. pose proof (evidence_steps _ _ W E (good_run py zones rs s W)) as [Hi He Hv Hp]. split_and!.
  - intros i Hin Hs. split; [by apply Hi|]. apply Hv; auto.
  - intros q t Hq Ht. destruct (Hp q Hq) as (i & Hin & Hd & Hr & Hs & Ha); [by eexists|].
    exists i. split_and!; try done. by apply (io_shown i (Hi i Hin)).
  - by apply pointer_from_steps; [|apply good_run].
Qed.

(** ** Acknowledgements count once *)

Lemma events_append s s' : qstep true s s' → ∃ l, events s' = events s ++ l.
Proof. intros []; eauto; exists []; by rewrite app_nil_r. Qed.

Lemma find_where_app {A} (p : A → bool) l l' x : find_where p l = Some x → find_where p (l ++ l') = Some x.
Proof. unfold find_where. induction l as [|y l IH]; simpl; [done|]. destruct (p y); auto. Qed.

Lemma find_event_steps k e key x s s' : rtc (qstep true) s s' → find_event k e key s = Some x → find_event k e key s' = Some x.
Proof.
  induction 1 as [|a b c Hab _ IH]; [done|]. intros H. apply IH. apply events_append in Hab as (l & Hl).
  unfold find_event in *. rewrite Hl. by apply find_where_app.
Qed.

Lemma find_new_event k e key x s s' :
  find_event k e key s = None → events s' = events s ++ [x] → qe_item x = k → qe_type x = Ack e → qe_key x = Some key →
  find_event k e key s' = Some x.
Proof.
  unfold find_event, find_where. intros Hn -> <- Et Ek. induction (events s) as [|y l IH]; simpl in *.
  - rewrite Et, Ek, str_eqb_refl, bool_decide_true by done. cbn. by rewrite str_eqb_refl.
  - destruct (_ && _); [done|auto].
Qed.

Lemma logged_release py p : text_or_empty py (logged_payload p) "release_id" = text_or_empty py p "release_id".
Proof.
  unfold text_or_empty, logged_payload. f_equal. induction p as [|[k v] p IH]; [done|]. cbn [List.filter fst].
  destruct (str_in k [u "token"; u "authorization"]) eqn:E; cbn [negb].
  - cbn [assoc_get]. destruct (str_eqb (u "release_id") k) eqn:Ek; [|exact IH]. apply str_eqb_eq in Ek as <-. vm_compute in E. done.
  - cbn [assoc_get]. destruct (str_eqb _ k); [done|exact IH].
Qed.

Lemma replay_own py d p k e key now : replay py d p (mk_queue_event k d (Ack e) (Some key) (logged_payload p) now) = Ok AckReplayed.
Proof.
  unfold replay. cbn [qe_payload qe_device]. rewrite logged_release, !str_eqb_refl.
  cbn [negb]. rewrite Bool.andb_false_r. done.
Qed.

(** The event an accepted acknowledgement leaves behind answers its replays. *)
Lemma ack_leaves_event py fresh d p now s r s' :
  wf s → queue_ack py fresh d p now s = Ok (r, s') →
  ∃ e i x version, assoc_get (text_member p "event") QUEUE_EVENTS = Some e ∧
    let item := text_member p "queue_item_id" in
    let key := strip (text_member p "idempotency_key") in
    (str_eqb item [] || (128 <? slen item) || str_eqb key [] || (128 <? slen key)) = false ∧
    json_int p "queue_version" 0 2147483647 "QUEUE-001" = Ok version ∧
    i ∈ items s' ∧ qi_id i = item ∧ qi_device i = d ∧ find_event item e key s' = Some x ∧ replay py d p x = Ok AckReplayed.
Proof.
  intros W H. unfold queue_ack in H.
  destruct (assoc_get _ _) as [e|]; [|done]. apply rbind_ok in H as (u0 & Hg & (v & Hv & H)%rbind_ok).
  apply raise_if_ok in Hg. destruct (find_where _ (items s)) as [i|] eqn:Ei; [|done].
  apply find_where_Some in Ei as [Hi Hk]. unfold of_device in Hk. rewrite Bool.andb_true_iff, !str_eqb_eq in Hk. destruct Hk as [Hk Hd].
  destruct (find_event _ _ _ s) as [x|] eqn:Ex.
  - apply rbind_ok in H as (r' & Hr & [= <- <-]). exists e, i, x, v. split_and!; try done.
    assert (r' = AckReplayed) as -> by (unfold replay in Hr; clear - Hr; by res_inv). done.
  - apply ack_fresh_split in H as (s1 & delayed & at_ & err & Hok & E1 & E2 & Hp & E3 & H2).
    assert (wf s1) as W1.
    { eapply wf_qstep; [exact W|]. eapply (QAck true _ _ d i); [done|done|exact Hok|exact E1|exact E2|exact Hp|apply E3|done]. }
    pose proof (good_record_rollout_ack (pl := true) _ _ _ _ _ _ _ _ H2 W1) as H3.
    assert (find_event (text_member p "queue_item_id") e (strip (text_member p "idempotency_key")) s1 = Some
              (mk_queue_event (qi_id i) d (Ack e) (Some (strip (text_member p "idempotency_key"))) (logged_payload p) now)) as Hf1
      by (eapply find_new_event; done).
    pose proof (find_event_steps _ _ _ _ _ _ H3 Hf1) as Hf.
    destruct (evolves_steps _ _ W1 H3) as [Hev _ _].
    destruct (Hev (acked e delayed at_ now err i)) as [(j & Hj & Hle)|[_ Hn]].
    { rewrite E1. apply update_where_elem. exists i. unfold by_key. by rewrite str_eqb_refl. }
    + exists e, j. eexists. exists v. pose proof (le_id _ _ Hle) as Hid. pose proof (le_device _ _ Hle) as Hdv. simpl in Hid, Hdv.
      split; [done|]. cbv zeta. split; [exact Hg|]. split; [exact Hv|]. split; [exact Hj|]. split; [congruence|].
      split; [congruence|]. split; [exact Hf|apply replay_own].
    + exfalso. eapply Hn; [rewrite E2; apply elem_of_app; right; left|done].
Qed.

