(* ===== verification/RolloutProps.v ===== *)
(** * Rollouts: one campaign per frame, and finished is finished

    The invariant of campaigns and targets ([rollout_inv]) under every
    request, with the two promises it carries: a frame takes part in at most
    one live campaign, and a finished campaign never changes its status.
    [kept k s s'] packages both for one operation; [k] is the campaign whose
    start is under way, if any: its targets are written before its status. *)

From S2P Require Import Prelude PyStr PyFloat Json Sql Reservations OfflineSchedule Devices Delivery Rollouts ContentQueue OfflineStore OfflinePrepare DeviceUpdate DeliveryLife DeliveryRuns.
Local Open Scope Z_scope.

Definition status_at (k : str) (s : ddb) : option rollout_status := rc_status <$> get_campaign k s.
Definition live_at (k : str) (s : ddb) : Prop := ∃ st, status_at k s = Some st ∧ st ∈ live_statuses.
Definition unstarted : list rollout_status := [DRAFT; VALIDATING].
Definition pair_of (t : target) : str * str := (rt_rollout t, rt_device t).

(** Frames of two targets that carry an item, in campaigns that count as live. *)
Definition exclusive (X : str → Prop) (ts : list target) : Prop :=
  ∀ t1 t2, t1 ∈ ts → t2 ∈ ts → rt_device t1 = rt_device t2 → is_Some (rt_item t1) → is_Some (rt_item t2) →
    X (rt_rollout t1) → X (rt_rollout t2) → rt_rollout t1 = rt_rollout t2.

Definition counts (k : option str) (s : ddb) (r : str) : Prop := live_at r s ∨ k = Some r.

Record rollout_inv (k : option str) (s : ddb) : Prop := mk_rollout_inv {
  ri_camps : keys_unique rc_id (campaigns s);
  ri_pairs : NoDup (map pair_of (targets s));
  ri_owner : ∀ t, t ∈ targets s → is_Some (status_at (rt_rollout t) s);
  ri_started : ∀ t st, t ∈ targets s → status_at (rt_rollout t) s = Some st → (st ∉ unstarted) ∨ k = Some (rt_rollout t);
  ri_item : ∀ t i, t ∈ targets s → rt_item t = Some i → ∃ x, x ∈ items s ∧ qi_id x = i ∧ qi_device x = rt_device t;
  ri_fallback : ∀ t, t ∈ targets s → is_Some (rt_rollback t) → is_Some (rt_item t);
  ri_exclusive : exclusive (counts k s) (targets s) }.

Definition final (s s' : ddb) : Prop :=
  ∀ c st, status_at c s = Some st → st ∈ finished_statuses → status_at c s' = Some st.

Definition kept (k : option str) (s s' : ddb) : Prop := rollout_inv k s → rollout_inv k s' ∧ final s s'.

#[export] Instance kept_preorder k : PreOrder (kept k).
Proof.
  split; [intros s H; split; [done|by intros c st]|]. intros a b c Hab Hbc Ha. destruct (Hab Ha) as [Hb F1]. destruct (Hbc Hb) as [Hc F2].
  split; [done|]. intros x st Hx Hf. apply F2; [by apply F1|done].
Qed.

(** ** Primitive writes *)

(** The items a target may refer to are still there. *)
Definition covers (s s' : ddb) : Prop :=
  ∀ i, i ∈ items s → (∃ j, j ∈ items s' ∧ qi_id j = qi_id i ∧ qi_device j = qi_device i) ∨
                     (∀ t, t ∈ targets s → rt_item t ≠ Some (qi_id i)).

Lemma covers_same s s' : items s' = items s → covers s s'.
Proof. intros E i Hi. left. exists i. by rewrite E. Qed.

Lemma covers_update p f s s' :
  items s' = update_where p f (items s) → (∀ i, qi_id (f i) = qi_id i ∧ qi_device (f i) = qi_device i) → covers s s'.
Proof.
  intros E H i Hi. left. exists (if p i then f i else i). rewrite E. split; [apply update_where_elem; eauto|].
  destruct (p i); [apply H|done].
Qed.

Lemma covers_insert i s s' : items s' = items s ++ [i] → covers s s'.
Proof. intros E x Hx. left. exists x. rewrite E. split; [apply elem_of_app; by left|done]. Qed.

Lemma status_same k s s' : campaigns s' = campaigns s → status_at k s' = status_at k s.
Proof. unfold status_at, get_campaign. by intros ->. Qed.

Lemma kept_frame k s s' : campaigns s' = campaigns s → targets s' = targets s → covers s s' → kept k s s'.
Proof.
  intros Hc Ht Hi [I1 I2 I3 I4 I5 I6 I7]. split; [|intros c st; by rewrite (status_same c s s') by done].
  split; rewrite ?Hc, ?Ht; try done.
  - intros t Hin. rewrite (status_same _ s s') by done. auto.
  - intros t st Hin. rewrite (status_same _ s s') by done. auto.
  - intros t i Hin Ei. destruct (I5 t i Hin Ei) as (x & Hx & Ek & Ed). destruct (Hi x Hx) as [(j & Hj & Ej & Edj)|Hn].
    + exists j. split_and!; [done|congruence..].
    + exfalso. apply (Hn t Hin). congruence.
  - intros t1 t2 H1 H2 Ed E1 E2 L1 L2. apply I7; try done; [destruct L1 as [(st & L & ?)|]|destruct L2 as [(st & L & ?)|]];
      try (by right); left; exists st; by rewrite <- (status_same _ s s').
Qed.

(** A target keeps its identity, its item and its fallback. *)
Definition target_touched (t t' : target) : Prop :=
  pair_of t' = pair_of t ∧ rt_item t' = rt_item t ∧ rt_rollback t' = rt_rollback t.

(** Targets rewritten one by one, with items that are there. *)
Lemma kept_targets k s s' (g : target → target) :
  targets s' = map g (targets s) → campaigns s' = campaigns s → covers s s' →
  (∀ t, t ∈ targets s → pair_of (g t) = pair_of t ∧ rt_rollback (g t) = rt_rollback t ∧
     (rt_item (g t) = rt_item t ∨
      is_Some (rt_rollback t) ∧ ∃ x, x ∈ items s' ∧ rt_item (g t) = Some (qi_id x) ∧ qi_device x = rt_device t)) →
  kept k s s'.
Proof.
  intros Ht Hc Hi Hg [I1 I2 I3 I4 I5 I6 I7]. split; [|intros c st; by rewrite (status_same c s s') by done].
  assert (∀ t', t' ∈ targets s' → ∃ t, t ∈ targets s ∧ t' = g t) as Hback.
  { intros t'. rewrite Ht. intros (t & -> & Hin)%list_elem_of_fmap. eauto. }
  assert (∀ t, t ∈ targets s → rt_rollout (g t) = rt_rollout t ∧ rt_device (g t) = rt_device t) as Hpr.
  { intros t Hin. destruct (Hg t Hin) as [E _]. injection E as ??. done. }
  assert (∀ t, t ∈ targets s → is_Some (rt_item (g t)) → is_Some (rt_item t)) as Hsome.
  { intros t Hin. destruct (Hg t Hin) as (_ & _ & [->|[Hr _]]); [done|]. intros _. auto. }
  split; rewrite ?Hc; try done.
  - rewrite Ht, map_map, (map_ext_in (λ t, pair_of (g t)) pair_of); [done|]. intros t Hin%list_elem_of_In. by apply Hg.
  - intros t' (t & Hin & ->)%Hback. destruct (Hpr t Hin) as [-> _]. rewrite (status_same _ s s') by done. auto.
  - intros t' st (t & Hin & ->)%Hback. destruct (Hpr t Hin) as [-> _]. rewrite (status_same _ s s') by done. auto.
  - intros t' i (t & Hin & ->)%Hback Ei. destruct (Hpr t Hin) as [_ ->].
    destruct (Hg t Hin) as (_ & _ & [E|(_ & x & Hx & E & Ed)]); [|exists x; split_and!; [done|congruence|done]].
    rewrite E in Ei. destruct (I5 t i Hin Ei) as (x & Hx & Ek & Ed). destruct (Hi x Hx) as [(j & Hj & Ej & Edj)|Hn].
    + exists j. split_and!; [done|congruence..].
    + exfalso. apply (Hn t Hin). congruence.
  - intros t' (t & Hin & ->)%Hback. destruct (Hg t Hin) as (_ & -> & [->|(_ & x & _ & -> & _)]); [auto|by eexists].
  - intros t1' t2' (t1 & H1 & ->)%Hback (t2 & H2 & ->)%Hback. destruct (Hpr t1 H1) as [-> ->], (Hpr t2 H2) as [-> ->].
    intros Ed E1%Hsome E2%Hsome L1 L2; [|done..]. apply I7; try done; [destruct L1 as [(st & L & ?)|]|destruct L2 as [(st & L & ?)|]];
      try (by right); left; exists st; by rewrite <- (status_same _ s s').
Qed.

Lemma kept_touch k p f s :
  (∀ t, target_touched t (f t)) → kept k s (s <| targets := update_where p f (targets s) |>).
Proof.
  intros H. apply (kept_targets _ _ _ (λ t, if p t then f t else t)); [done|done|by apply covers_same|].
  intros t _. destruct (p t); [destruct (H t) as (? & ? & ?); auto|auto].
Qed.

(** ** Status changes *)

Lemma status_update c k0 f s :
  (∀ c, rc_id (f c) = rc_id c) →
  status_at c (update_campaign k0 f s) = if decide (c = k0) then (λ c, rc_status (f c)) <$> get_campaign c s else status_at c s.
Proof.
  intros Hid. unfold status_at, get_campaign, update_campaign. cbn [campaigns set_with set_campaigns].
  change ((rc_status <$> get_row rc_id c (update_where (by_key rc_id k0) f (campaigns s))) =
    if decide (c = k0) then (λ c, rc_status (f c)) <$> get_row rc_id c (campaigns s) else rc_status <$> get_row rc_id c (campaigns s)).
  rewrite get_row_update by done. destruct (get_row rc_id c (campaigns s)) as [x|] eqn:E; [|by destruct (decide _)].
  apply get_row_Some in E as [_ <-]. cbn. unfold by_key. destruct (decide (rc_id x = k0)) as [<-|Hne]; [by rewrite str_eqb_refl|].
  destruct (str_eqb (rc_id x) k0) eqn:E; [|done]. by apply str_eqb_eq in E.
Qed.

Definition ok_move (k : option str) (st st' : rollout_status) : Prop :=
  st' = st ∨
  ((st ∉ finished_statuses) ∧ (st' ∈ live_statuses → st ∈ live_statuses ∨ (st ∈ unstarted ∧ k = None)) ∧
   (st' ∈ unstarted → st ∈ unstarted)).

Lemma kept_campaign k k0 f s :
  (∀ c, rc_id (f c) = rc_id c) → (∀ c, get_campaign k0 s = Some c → ok_move k (rc_status c) (rc_status (f c))) →
  kept k s (update_campaign k0 f s).
Proof.
  intros Hid Hm [I1 I2 I3 I4 I5 I6 I7]. set (s' := update_campaign k0 f s).
  assert (∀ r st', status_at r s' = Some st' → ∃ st, status_at r s = Some st ∧ ok_move k st st') as Hback.
  { intros r st'. unfold s'. rewrite status_update by done. unfold status_at. destruct (decide (r = k0)) as [->|].
    - destruct (get_campaign k0 s) as [c|]; [|done]. intros [= <-]. exists (rc_status c). auto.
    - intros H. exists st'. split; [done|by left]. }
  assert (∀ r, is_Some (status_at r s) → is_Some (status_at r s')) as Hsome.
  { intros r. unfold s'. rewrite status_update by done. unfold status_at. destruct (decide (r = k0)) as [->|]; [|done].
    destruct (get_campaign k0 s) as [c|]; [intros _; by exists (rc_status (f c))|done]. }
  assert (∀ t, t ∈ targets s → counts k s' (rt_rollout t) → counts k s (rt_rollout t)) as Hcnt.
  { intros t Hin [(st' & Hs & Hl)|]; [|by right]. destruct (Hback _ _ Hs) as (st & Hst & [->|(_ & Hlive & _)]); [left; by exists st|].
    destruct (Hlive Hl) as [?|[Hu ->]]; [left; by exists st|]. destruct (I4 t st Hin Hst); done. }
  split.
  - split; try done.
    + apply keys_unique_update; [done|exact I1].
    + intros t Hin. by apply Hsome, I3.
    + intros t st' Hin Hs. destruct (Hback _ _ Hs) as (st & Hst & [->|(_ & _ & Hu)]); [by apply (I4 t st)|].
      destruct (I4 t st Hin Hst) as [Hn|?]; [left; auto|by right].
    + intros t1 t2 H1 H2 Ed E1 E2 L1 L2. apply I7; auto.
  - intros c st Hs Hf. destruct (Hsome c) as [st' Hs']; [by exists st|].
    destruct (Hback _ _ Hs') as (st0 & Hst0 & Hmv). assert (st0 = st) as -> by congruence. rewrite Hs'.
    destruct Hmv as [->|[Hn _]]; [done|by destruct Hn].
Qed.

Lemma starts k s : rollout_inv None s → status_at k s = Some DRAFT → rollout_inv (Some k) s.
Proof.
  intros [I1 I2 I3 I4 I5 I6 I7] Hd. assert (∀ t, t ∈ targets s → rt_rollout t ≠ k) as Hno.
  { intros t Hin <-. destruct (I4 t DRAFT Hin Hd) as [Hn|?]; [|done]. apply Hn. left. }
  split; try done.
  - intros t st Hin Hs. destruct (I4 t st Hin Hs); [by left|done].
  - assert (∀ t, t ∈ targets s → counts (Some k) s (rt_rollout t) → counts None s (rt_rollout t)) as Hc.
    { intros t Hin [?|[= E]]; [by left|]. by destruct (Hno t Hin). }
    intros t1 t2 H1 H2 Ed E1 E2 L1 L2. apply I7; auto.
Qed.

Lemma started k now s :
  rollout_inv (Some k) s → status_at k s = Some DRAFT → rollout_inv None (set_status k CANARY now s) ∧ final s (set_status k CANARY now s).
Proof.
  intros [I1 I2 I3 I4 I5 I6 I7] Hd. set (s' := set_status k CANARY now s).
  assert (∀ r, status_at r s' = if decide (r = k) then Some CANARY else status_at r s) as Hst.
  { intros r. unfold s', set_status. rewrite status_update by done. destruct (decide (r = k)) as [->|]; [|done].
    unfold status_at in Hd. by destruct (get_campaign k s). }
  split; [|intros c st Hs Hf; rewrite Hst; destruct (decide (c = k)) as [->|]; [|done]].
  - split; try done.
    + apply keys_unique_update; [done|exact I1].
    + intros t Hin. rewrite Hst. destruct (decide _); [by eexists|auto].
    + intros t st Hin. rewrite Hst. destruct (decide (rt_rollout t = k)) as [E|Hne].
      * intros [= <-]. left. unfold unstarted. rewrite !elem_of_cons. intros [?|[?|H]]; [done..|inversion H].
      * intros Hs. destruct (I4 t st Hin Hs) as [?|[= ?]]; [by left|done].
    + intros t1 t2 H1 H2 Ed E1 E2 L1 L2. assert (∀ r, counts None s' r → counts (Some k) s r) as Hc.
      { intros r [(st & Hs & Hl)|]; [|done]. rewrite Hst in Hs. destruct (decide (r = k)) as [->|]; [by right|left; by exists st]. }
      apply I7; auto.
  - assert (st = DRAFT) as -> by congruence. unfold finished_statuses in Hf. rewrite !elem_of_cons in Hf.
    destruct Hf as [?|[?|[?|[?|Hf]]]]; [done..|inversion Hf].
Qed.

(** ** New targets *)

Lemma kept_add_target k s s' t :
  targets s' = targets s ++ [t] → campaigns s' = campaigns s → covers s s' →
  has_target (rt_rollout t) (rt_device t) s = false →
  (∃ st, status_at (rt_rollout t) s = Some st ∧ ((st ∉ unstarted) ∨ k = Some (rt_rollout t))) →
  (∀ i, rt_item t = Some i → ∃ x, x ∈ items s' ∧ qi_id x = i ∧ qi_device x = rt_device t) →
  (is_Some (rt_rollback t) → is_Some (rt_item t)) →
  (is_Some (rt_item t) → ∀ t2, t2 ∈ targets s → rt_device t2 = rt_device t → is_Some (rt_item t2) → counts k s (rt_rollout t2) →
     rt_rollout t2 = rt_rollout t) →
  kept k s s'.
Proof.
  intros Ht Hc Hi Hfresh (st0 & Hst0 & Hok) Hitem Hfb Hex I.
  assert (kept k s (s' <| targets := targets s |>)) as Hk by (apply kept_frame; [done|done|exact Hi]).
  destruct (Hk I) as [[I1 I2 I3 I4 I5 I6 I7] _]. split; [|intros c st; by rewrite (status_same c s s') by done].
  assert (∀ x, x ∈ targets s' → x ∈ targets s ∨ x = t) as Hback.
  { intros x. rewrite Ht. intros [?|?%list_elem_of_singleton]%elem_of_app; auto. }
  split; try done.
  - rewrite Ht, map_app. apply NoDup_app. split; [exact I2|]. split; [|apply NoDup_singleton].
    intros p Hp Hp'%list_elem_of_singleton. subst p. apply list_elem_of_fmap in Hp as (x & E & Hx). injection E as E1 E2.
    unfold has_target in Hfresh. apply (proj1 (existsb_none _ _) Hfresh) in Hx. unfold is_target in Hx.
    rewrite <- E1, <- E2, !str_eqb_refl in Hx. done.
  - intros x [Hx| ->]%Hback; [by apply I3|]. rewrite (status_same _ s s') by done. by eexists.
  - intros x st [Hx| ->]%Hback; [by apply I4|]. rewrite (status_same _ s s') by done. intros E. by assert (st = st0) as -> by congruence.
  - intros x i [Hx| ->]%Hback; [by apply I5|auto].
  - intros x [Hx| ->]%Hback; [by apply I6|auto].
  - assert (∀ r, counts k s' r → counts k s r) as Hcn.
    { intros r [(st & Hs & Hl)|]; [|by right]. left. exists st. by rewrite <- (status_same r s s'). }
    intros t1 t2 [H1| ->]%Hback [H2| ->]%Hback Ed E1 E2 L1 L2; try done.
    + by apply I7.
    + apply Hex; auto.
    + symmetry. apply Hex; auto.
Qed.

Lemma delivery_spec fresh d r now p dl s k s' :
  _rollout_delivery_locked fresh d r now p dl s = Ok (k, s') →
  campaigns s' = campaigns s ∧ targets s' = targets s ∧ devs s' = devs s ∧ covers s s' ∧ ∃ x, x ∈ items s' ∧ qi_id x = k ∧ qi_device x = d.
Proof.
  unfold _rollout_delivery_locked. intros H.
  assert (campaigns (ensure_queue_row d now s) = campaigns s ∧ targets (ensure_queue_row d now s) = targets s ∧
    devs (ensure_queue_row d now s) = devs s ∧ items (ensure_queue_row d now s) = items s) as (Ec & Et & Ed & Ei)
    by (unfold ensure_queue_row; by destruct (has_key _ _ _)).
  generalize dependent (ensure_queue_row d now s). intros s0 H Ec Et Ed Ei.
  destruct (find_where _ (items s0)) as [i|] eqn:E; res_inv.
  - apply find_where_Some in E as [Hin Hi]. unfold of_device in Hi. bprop. destruct Hi as [[Hd _] _]. split_and!; [done..| |].
    + eapply (covers_update (by_key qi_id (qi_id i))); [by rewrite <- Ei|done].
    + eexists. split; [apply update_where_elem; exists i; split; [done|reflexivity]|]. unfold by_key. rewrite str_eqb_refl. done.
  - match goal with H : insert_item ?i ?s = Ok ?x |- _ => apply insert_item_ok in H as (-> & _ & _) end.
    split_and!; [done..| |].
    + eapply covers_insert. cbn [items]. by rewrite <- Ei.
    + eexists. split; [apply elem_of_app; right; left|]. done.
Qed.

(** ** Operations on one campaign *)

Definition same_statuses (s s' : ddb) : Prop := ∀ c, status_at c s' = status_at c s.
Definition own (k0 : str) (s s' : ddb) : Prop := ∀ c, c ≠ k0 → status_at c s' = status_at c s.

(** An operation that may change the status of campaign [k0] only. *)
Definition acts (k0 : str) (s s' : ddb) : Prop := kept None s s' ∧ own k0 s s'.

#[export] Instance acts_preorder k0 : PreOrder (acts k0).
Proof.
  split; [intros s; split; [done|by intros c]|]. intros a b c [K1 O1] [K2 O2]. split; [by etrans|].
  intros x Hx. by rewrite O2, O1.
Qed.

(** Columns the invariant does not read. *)
Ltac kept_plain := apply kept_frame; [reflexivity|reflexivity|by apply covers_same].
Ltac acts_plain := split; [kept_plain|intros ? _; by apply status_same].

Lemma acts_touch k0 rollout d f s : (∀ t, target_touched t (f t)) → acts k0 s (update_target rollout d f s).
Proof. intros H. split; [by apply kept_touch|intros c _; by apply status_same]. Qed.

Lemma acts_action k0 k a n r s : acts k0 s (_action k a n r s).
Proof. acts_plain. Qed.

Lemma acts_stage k0 g f s : acts k0 s (update_stage g f s).
Proof. acts_plain. Qed.

Lemma acts_campaign k0 f s :
  (∀ c, rc_id (f c) = rc_id c) → (∀ c, get_campaign k0 s = Some c → ok_move None (rc_status c) (rc_status (f c))) →
  acts k0 s (update_campaign k0 f s).
Proof.
  intros H1 H2. split; [by apply kept_campaign|]. intros c Hc. rewrite status_update by done. by destruct (decide _).
Qed.

Lemma acts_set_status k0 st st' now s :
  status_at k0 s = Some st → ok_move None st st' → acts k0 s (set_status k0 st' now s).
Proof.
  intros Hs Hm. apply acts_campaign; [done|]. intros c Hc. unfold status_at in Hs. rewrite Hc in Hs. injection Hs as <-. done.
Qed.

Lemma status_set k0 st now s : is_Some (status_at k0 s) → status_at k0 (set_status k0 st now s) = Some st.
Proof.
  intros [x Hx]. unfold set_status. rewrite status_update by done. rewrite decide_True by done. unfold status_at in Hx.
  by destruct (get_campaign k0 s).
Qed.

(** Decide the statuses of a move. *)
Definition moveb (st st' : rollout_status) : bool :=
  bool_decide (st' = st) ||
  (bool_decide (st ∉ finished_statuses) && (negb (bool_decide (st' ∈ live_statuses)) || bool_decide (st ∈ live_statuses ++ unstarted))
   && (negb (bool_decide (st' ∈ unstarted)) || bool_decide (st ∈ unstarted))).

Lemma moveb_ok st st' : moveb st st' = true → ok_move None st st'.
Proof.
  unfold moveb, ok_move. rewrite Bool.orb_true_iff, !Bool.andb_true_iff, !Bool.orb_true_iff, !Bool.negb_true_iff, !bool_decide_eq_true,
    !bool_decide_eq_false, elem_of_app. tauto.
Qed.

Lemma allowed_move st st' : st' ∈ ROLL_OUT_STATES st → moveb st st' = true.
Proof. intros H. apply (bool_decide_eq_true_2 (st' ∈ ROLL_OUT_STATES st)) in H. by destruct st, st'. Qed.

(** ** Rollback *)

Definition fallbacks (s s' : ddb) : Prop :=
  ∀ x', x' ∈ targets s' → ∃ x, x ∈ targets s ∧ pair_of x' = pair_of x ∧ rt_rollback x' = rt_rollback x.
Definition knows (s : ddb) (t : target) : Prop := ∀ x, x ∈ targets s → pair_of x = pair_of t → rt_rollback x = rt_rollback t.

Lemma knows_later s s' t : fallbacks s s' → knows s t → knows s' t.
Proof. intros F K x' Hx' E. destruct (F x' Hx') as (x & Hx & Ep & ->). apply K; [done|congruence]. Qed.

Lemma is_target_pair t x : is_target (rt_rollout t) (rt_device t) x = true → pair_of x = pair_of t.
Proof. unfold is_target, pair_of. intros H. bprop. destruct H as [-> ->]. done. Qed.

Lemma fallbacks_update k d f s : (∀ t, pair_of (f t) = pair_of t ∧ rt_rollback (f t) = rt_rollback t) → fallbacks s (update_target k d f s).
Proof.
  intros H x' (x & Hx & ->)%update_where_elem. exists x. split; [done|]. destruct (is_target k d x); [apply H|done].
Qed.

Lemma rollback_target_spec fresh now t d s m s' m' :
  rollback_target fresh now (t, d) (s, m) = Ok (s', m') → knows s t → kept None s s' ∧ campaigns s' = campaigns s ∧ fallbacks s s'.
Proof.
  cbn -[_rollout_delivery_locked update_target]. intros H K.
  destruct (offline_device d).
  { injection H as <- <-. split_and!; [by apply kept_touch|done|by apply fallbacks_update]. }
  destruct (negb _) eqn:Hv.
  { injection H as <- <-. split_and!; [by apply kept_touch|done|by apply fallbacks_update]. }
  apply rbind_ok in H as ([k s1] & H1 & [= <- <-]). apply delivery_spec in H1 as (Ec & Et & _ & Hcov & x & Hx & Ek & Ed).
  split_and!; [|exact Ec|].
  - apply (kept_targets _ _ _ (λ y, if is_target (rt_rollout t) (rt_device t) y
      then y <| rt_item := Some k |> <| rt_status := TRollbackPending |> <| rt_error := None |> <| rt_updated := now |> else y));
      [by unfold update_target; cbn; rewrite Et|exact Ec|exact Hcov|].
    intros y Hy. destruct (is_target _ _ y) eqn:Ey; [|auto]. apply is_target_pair in Ey. split_and!; [done|done|]. right. split.
    + rewrite (K y Hy Ey). destruct (rt_rollback t); [by eexists|done].
    + exists x. split_and!; [exact Hx|by rewrite Ek|]. injection Ey as _ ->. done.
  - intros x' Hx'. destruct (fallbacks_update (rt_rollout t) (rt_device t)
      (λ y, y <| rt_item := Some k |> <| rt_status := TRollbackPending |> <| rt_error := None |> <| rt_updated := now |>) s1) with (x' := x')
      as (y & Hy & ?); [done|exact Hx'|]. exists y. by rewrite <- Et.
Qed.

Lemma rollback_loop fresh now ts s m s' m' :
  for_rows (rollback_target fresh now) ts (s, m) = Ok (s', m') → (∀ td, td ∈ ts → knows s (fst td)) →
  kept None s s' ∧ campaigns s' = campaigns s.
Proof.
  revert s m. induction ts as [|[t d] ts IH]; intros s m; cbn [for_rows].
  { intros [= <- <-] _. done. }
  intros ([s1 m1] & H1 & H)%rbind_ok K. destruct (rollback_target_spec _ _ _ _ _ _ _ _ H1) as (K1 & C1 & F1).
  { apply (K (t, d)). left. }
  destruct (IH _ _ H) as [K2 C2]; [|split; [by etrans|by rewrite C2]].
  intros td Htd. eapply knows_later; [exact F1|]. apply K. by right.
Qed.

Lemma knows_self s t : NoDup (map pair_of (targets s)) → t ∈ targets s → knows s t.
Proof. intros N Ht x Hx E. by rewrite (NoDup_map_inj pair_of (targets s) x t N Hx Ht E). Qed.

Lemma kept_cancel k ids now s : kept k s (cancel_items ids now s).
Proof. apply kept_frame; [done|done|]. eapply covers_update; [reflexivity|done]. Qed.

Lemma kept_under k s s' : (rollout_inv k s → kept k s s') → kept k s s'.
Proof. intros H I. by apply H. Qed.

(** The campaigns stay as they are during the loop, whatever the targets. *)
Lemma rollback_target_campaigns fresh now td sm sm' :
  rollback_target fresh now td sm = Ok sm' → campaigns (fst sm') = campaigns (fst sm).
Proof.
  destruct td as [t d], sm as [s m]. cbn -[_rollout_delivery_locked update_target]. intros H.
  destruct (offline_device d); [by injection H as <-|]. destruct (negb _); [by injection H as <-|].
  apply rbind_ok in H as ([k s1] & H1 & [= <-]). apply delivery_spec in H1 as (E1 & _). exact E1.
Qed.

Lemma for_rows_same {E A S B} (π : S → B) (f : A → S → result E S) l s s' :
  (∀ x s s', f x s = Ok s' → π s' = π s) → for_rows f l s = Ok s' → π s' = π s.
Proof.
  intros Hf. revert s. induction l as [|x l IH]; simpl; intros s H; res_inv; [done|]. transitivity (π x0); [by apply IH|by eapply Hf].
Qed.

Lemma acts_start_rollback fresh k now reason actor s s' :
  _start_rollback_locked fresh k now reason actor s = Ok s' → acts k s s'.
Proof.
  unfold _start_rollback_locked. destruct (get_campaign k s) as [c|] eqn:Ec; [|by intros [= <-]].
  destruct (rstatus_in no_rollback c) eqn:Es; [by intros [= <-]|]. set (s0 := cancel_items _ now s).
  intros ([s1 m] & H1 & [= <-])%rbind_ok.
  assert (campaigns s1 = campaigns s) as C1.
  { apply (for_rows_same (λ sm, campaigns (fst sm))) in H1; [exact H1|]. apply rollback_target_campaigns. }
  transitivity s1; [|etrans; [|apply acts_action]].
  - split; [|intros x _; by apply status_same]. transitivity s0; [apply kept_cancel|]. apply kept_under. intros I.
    eapply rollback_loop; [exact H1|]. intros [t d] Htd. apply knows_self; [apply I|].
    unfold targets_with_devices in Htd. apply list_elem_of_omap in Htd as (x & Hx & E).
    destruct (get_device _ _); [|done]. injection E as <- _. by apply filter_elem in Hx as [? _].
  - apply acts_campaign; [done|]. intros c'. unfold get_campaign in *. rewrite C1, Ec. intros [= <-]. apply moveb_ok. cbn.
    unfold rstatus_in in Es. by destruct (rc_status c), m.
Qed.

(** ** Allocation *)

(** The campaign may take new targets: it is being started, or has been. *)
Definition may_grow (k : option str) (c : str) (s : ddb) : Prop :=
  k = Some c ∧ is_Some (status_at c s) ∨ k = None ∧ ∃ st, status_at c s = Some st ∧ st ∉ unstarted.

Lemma may_grow_same k c s s' : same_statuses s s' → may_grow k c s → may_grow k c s'.
Proof. unfold may_grow. by intros ->. Qed.

Lemma may_grow_owner k c s : may_grow k c s → ∃ st, status_at c s = Some st ∧ ((st ∉ unstarted) ∨ k = Some c).
Proof. intros [[-> [st H]]|[-> (st & H & Hn)]]; exists st; auto. Qed.

Lemma live_elsewhere_false c d s t k :
  live_elsewhere c d s = false → k = None ∨ k = Some c → t ∈ targets s → rt_device t = d → counts k s (rt_rollout t) → rt_rollout t = c.
Proof.
  intros H Hk Hin <- [(st & Hs & Hl)|Hc]; [|destruct Hk; congruence].
  unfold live_elsewhere in H. apply (proj1 (existsb_none _ _) H) in Hin. rewrite str_eqb_refl in Hin.
  unfold status_at in Hs. destruct (get_campaign (rt_rollout t) s) as [x|]; [|done]. injection Hs as <-.
  unfold rstatus_in in Hin. rewrite bool_decide_eq_true_2 in Hin by done. cbn in Hin.
  destruct (str_eqb (rt_rollout t) c) eqn:E; [by apply str_eqb_eq in E|done].
Qed.

Lemma kept_skip k c now d s : may_grow k c s → kept k s (skip_offline c now d s) ∧ campaigns (skip_offline c now d s) = campaigns s.
Proof.
  intros Hg. unfold skip_offline. destruct (_ && _) eqn:E; [|done]. split; [|done]. bprop. destruct E as [_ E].
  eapply kept_add_target; [reflexivity|done|by apply covers_same|exact E|by apply may_grow_owner|done|done|]. intros H. by destruct H.
Qed.

Lemma kept_skips k c now ds s :
  may_grow k c s → let s' := fold_left (λ s d, skip_offline c now d s) ds s in kept k s s' ∧ campaigns s' = campaigns s.
Proof.
  revert s. induction ds as [|d ds IH]; intros s Hg; [done|]. cbn. destruct (kept_skip k c now d s Hg) as [K1 C1].
  destruct (IH (skip_offline c now d s)) as [K2 C2].
  { eapply may_grow_same; [|exact Hg]. intros x. by apply status_same. }
  split; [by etrans|by rewrite C2].
Qed.

Lemma live_elsewhere_add c d t s s' :
  targets s' = targets s ++ [t] → campaigns s' = campaigns s → rt_rollout t = c → live_elsewhere c d s' = live_elsewhere c d s.
Proof.
  intros Et Ec <-. unfold live_elsewhere, get_campaign. rewrite Et, Ec, existsb_app. cbn.
  by rewrite str_eqb_refl, Bool.andb_false_r, !Bool.orb_false_r.
Qed.

(** The frame is free for campaign [c]. *)
Lemma allocate_device_spec k fresh c g now d s s' :
  allocate_device fresh c g now d s = Ok s' → may_grow k (rc_id c) s → live_elsewhere (rc_id c) (v_id d) s = false →
  kept k s s' ∧ campaigns s' = campaigns s ∧ ∀ d', live_elsewhere (rc_id c) d' s' = live_elsewhere (rc_id c) d' s.
Proof.
  unfold allocate_device. destruct (has_target _ _ _) eqn:Eh; [by intros [= <-]|].
  intros ([i s1] & H1 & [= <-])%rbind_ok Hg Hl. apply delivery_spec in H1 as (Ec & Et & _ & Hcov & x & Hx & Ex & Ed).
  split_and!; [|exact Ec|].
  - eapply kept_add_target; [cbn; by rewrite Et|exact Ec|exact Hcov|exact Eh|by apply may_grow_owner|..].
    + intros j [= <-]. by exists x.
    + by eexists.
    + intros _ t Ht E _ Hc. cbn. eapply live_elsewhere_false; [exact Hl| |done|exact E|exact Hc].
      destruct Hg as [[-> _]|[-> _]]; auto.
  - intros d'. eapply live_elsewhere_add; [rewrite <- Et; reflexivity|exact Ec|reflexivity].
Qed.

Lemma allocate_loop k fresh c g now ds s s' :
  for_rows (allocate_device fresh c g now) ds s = Ok s' → may_grow k (rc_id c) s →
  existsb (λ d, live_elsewhere (rc_id c) (v_id d) s) ds = false → kept k s s' ∧ campaigns s' = campaigns s.
Proof.
  revert s. induction ds as [|d ds IH]; intros s; cbn [for_rows]; [by intros [= <-]|].
  intros (s1 & H1 & H)%rbind_ok Hg Hl. cbn in Hl. bprop. destruct Hl as [Hd Hl].
  destruct (allocate_device_spec _ _ _ _ _ _ _ _ H1 Hg Hd) as (K1 & C1 & L1).
  destruct (IH s1 H) as [K2 C2]; [| |split; [by etrans|by rewrite C2]].
  - eapply may_grow_same; [|exact Hg]. intros x. by apply status_same.
  - apply existsb_none. intros x Hx. rewrite L1. by apply (proj1 (existsb_none _ _) Hl).
Qed.

Lemma allocate_spec k fresh c g now s r s' :
  _allocate_rollout_stage_locked fresh c g now s = Ok (r, s') → may_grow k (rc_id c) s → kept k s s' ∧ same_statuses s s'.
Proof.
  unfold _allocate_rollout_stage_locked. set (s1 := match rc_cohort c with Some _ => s | None => _ end).
  assert (kept k s s1 ∧ same_statuses s s1) as [K1 S1].
  { subst s1. destruct (rc_cohort c); [done|]. split; [apply kept_campaign; [done|by left]|]. intros x.
    rewrite status_update by done. destruct (decide _) as [->|]; [|done]. unfold status_at. by destruct (get_campaign (rc_id c) s). }
  intros H Hg. apply (may_grow_same _ _ _ _ S1) in Hg. clearbody s1.
  assert (∀ s', kept k s1 s' ∧ campaigns s' = campaigns s1 → kept k s s' ∧ same_statuses s s') as Hfin.
  { intros s2 [K2 C2]. split; [by etrans|]. intros x. rewrite (status_same x s1 s2) by done. apply S1. }
  destruct (List.filter _ (List.filter _ _)) as [|d0 online]; [injection H as <- <-; by apply Hfin|].
  destruct (_ <? _); [injection H as <- <-; by apply Hfin|].
  match type of H with context [fold_left ?f ?l s1] => set (s2 := fold_left f l s1) in H; pose proof (kept_skips k (rc_id c) now l s1 Hg) as [K2 C2] end.
  fold s2 in K2, C2. clearbody s2. destruct (existsb _ _) eqn:El; [injection H as <- <-; by apply Hfin|].
  apply rbind_ok in H as (s3 & H3 & [= <- <-]). apply Hfin.
  destruct (allocate_loop k _ _ _ _ _ _ _ H3) as [K3 C3]; [|exact El|].
  { eapply may_grow_same; [|exact Hg]. intros x. by apply status_same. }
  split; [|etrans; [exact C3|exact C2]]. etrans; [exact K2|]. etrans; [exact K3|]. kept_plain.
Qed.

(** ** Evaluation *)

Lemma acts_advance fresh c g now s b s' :
  advance_stage fresh c g now s = Ok (b, s') → status_at (rc_id c) s = Some OBSERVING → acts (rc_id c) s s'.
Proof.
  unfold advance_stage. intros H Hs.
  assert (∀ (next : bool) s1, status_at (rc_id c) s1 = Some OBSERVING →
    acts (rc_id c) s1 (_action (rc_id c) None (if next then "stage_advanced" else "completed"%string) None
      (set_status (rc_id c) (if next then EXPANDING else COMPLETED) now
        (update_stage g (λ x, x <| rs_status := StCompleted |> <| rs_completed := Some now |>) s1)))) as Hfin.
  { intros next s1 H1. etrans; [apply acts_stage|]. etrans; [|apply acts_action].
    eapply acts_set_status; [exact H1|]. apply moveb_ok. by destruct next. }
  destruct (pending_stage _ _ _) as [next|]; [|injection H as <- <-; exact (Hfin false s Hs)].
  apply rbind_ok in H as ([r s1] & H1 & H). apply (allocate_spec None) in H1 as [K1 S1].
  2: { right. split; [done|]. exists OBSERVING. split; [done|]. apply (bool_decide_unpack _). by vm_compute. }
  assert (acts (rc_id c) s s1) as A1 by (split; [done|by intros x _]). etrans; [exact A1|]. destruct r.
  - apply rbind_ok in H as (s2 & H2 & [= <- <-]). by eapply acts_start_rollback.
  - injection H as <- <-. apply (Hfin true). by rewrite S1.
Qed.

Lemma acts_evaluate_stage fresh c g now a s b s' :
  evaluate_stage fresh c g now a s = Ok (b, s') →
  (∃ st, status_at (rc_id c) s = Some st ∧ moveb st OBSERVING = true) → acts (rc_id c) s s'.
Proof.
  unfold evaluate_stage. intros H (st & Hs & Hm). destruct (counted _ _); [by injection H as <- <-|]. destruct (unhealthy _ _ _ _).
  { apply rbind_ok in H as (s1 & H1 & [= <- <-]). by eapply acts_start_rollback. }
  destruct (negb _); [by injection H as <- <-|]. destruct (rs_started g); [|done].
  transitivity (set_status (rc_id c) OBSERVING now s); [eapply acts_set_status; [exact Hs|by apply moveb_ok]|].
  destruct (observed _ _ _ _); [|by injection H as <- <-]. eapply acts_advance; [exact H|]. apply status_set. by exists st.
Qed.

Lemma get_campaign_id k s c : get_campaign k s = Some c → rc_id c = k.
Proof. intros H. by apply get_row_Some in H as [_ ?]. Qed.

Lemma status_untouched k f s :
  (∀ c, rc_id (f c) = rc_id c ∧ rc_status (f c) = rc_status c) → same_statuses s (update_campaign k f s).
Proof.
  intros H x. rewrite status_update by apply H. destruct (decide _); [|done]. unfold status_at.
  destruct (get_campaign x s); [|done]. cbn. f_equal. apply H.
Qed.

Lemma acts_evaluate fresh k now a s b s' : _evaluate_rollout_locked fresh k now a s = Ok (b, s') → acts k s s'.
Proof.
  unfold _evaluate_rollout_locked. destruct (get_campaign k s) as [c|] eqn:Ec; [|by intros [= <- <-]].
  destruct (negb _) eqn:Ee; [by intros [= <- <-]|]. set (s1 := update_campaign k _ s). intros H. transitivity s1.
  { apply acts_campaign; [done|]. intros. by left. }
  assert (status_at k s1 = Some (rc_status c)) as Hs.
  { unfold s1. rewrite status_untouched by done. unfold status_at. by rewrite Ec. }
  clearbody s1. apply get_campaign_id in Ec. bprop. unfold rstatus_in in *.
  destruct (bool_decide (rc_status c ∈ [ROLLING_BACK])) eqn:Er.
  - injection H as <- <-. destruct (rollback_expired _ _ _); [|done]. etrans; [|apply acts_action].
    apply acts_campaign; [done|]. intros c1 H1. unfold status_at in Hs. rewrite H1 in Hs. injection Hs as ->.
    apply moveb_ok. by destruct (rc_status c).
  - destruct (active_stage _ _); [|by injection H as <- <-]. subst k. eapply acts_evaluate_stage; [exact H|].
    exists (rc_status c). split; [done|]. by destruct (rc_status c).
Qed.

Lemma kept_evaluate_rollouts fresh now limit s n s' : evaluate_rollouts fresh now limit s = Ok (n, s') → kept None s s'.
Proof.
  unfold evaluate_rollouts. generalize 0. generalize (take (Z.to_nat (Z.max 1 (Z.min limit 100))) (sort_by campaign_leb (List.filter (rstatus_in evaluated_statuses) (campaigns s)))).
  intros l. revert s. induction l as [|c l IH]; intros s m; cbn [for_rows]; [by intros [= <- <-]|].
  intros ([m1 s1] & H1 & H)%rbind_ok. apply rbind_ok in H1 as ([b s2] & H1 & E). injection E as _ ->.
  etrans; [by eapply acts_evaluate|by eapply IH].
Qed.

(** ** Acknowledgements *)

Lemma acts_record_target fresh d e err now t c s s' :
  record_target_ack fresh d e err now (t, c) s = Ok s' → status_at (rt_rollout t) s = Some (rc_status c) → acts (rt_rollout t) s s'.
Proof.
  unfold record_target_ack. destruct (negb _); [by intros [= <-]|]. intros H Hs. set (s1 := set_with healths _ _) in H.
  assert (acts (rt_rollout t) s s1 ∧ status_at (rt_rollout t) s1 = Some (rc_status c)) as [A1 Hs1].
  { split; [|exact Hs]. transitivity (update_target (rt_rollout t) d (λ x, x <| rt_status := outcome_of e |> <| rt_error := err |> <| rt_updated := now |>) s); [|acts_plain].
    by apply acts_touch. }
  clearbody s1. etrans; [exact A1|]. unfold rstatus_in in H. destruct (bool_decide (rc_status c ∈ [ROLLING_BACK])) eqn:Er.
  - assert (rc_status c = ROLLING_BACK) as Ec by (by destruct (rc_status c)). rewrite Ec in Hs1.
    destruct (bool_decide (outcome_of e = TFailed)).
    { injection H as <-. apply acts_campaign; [done|]. intros c1 H1. unfold status_at in Hs1. rewrite H1 in Hs1. injection Hs1 as ->.
      by apply moveb_ok. }
    destruct (_ && _); [|by injection H as <-]. injection H as <-. etrans; [|apply acts_action].
    eapply acts_set_status; [exact Hs1|by apply moveb_ok].
  - apply rbind_ok in H as ([b s2] & H2 & [= <-]). by eapply acts_evaluate.
Qed.

Lemma record_loop fresh d e err now l s s' :
  for_rows (record_target_ack fresh d e err now) l s = Ok s' →
  NoDup (map (λ tc, rt_rollout (fst tc)) l) → (∀ t c, (t, c) ∈ l → status_at (rt_rollout t) s = Some (rc_status c)) → kept None s s'.
Proof.
  revert s. induction l as [|[t c] l IH]; intros s; cbn [for_rows map fst]; [by intros [= <-]|].
  intros (s1 & H1 & H)%rbind_ok [Hn Hd]%NoDup_cons Hs. destruct (acts_record_target _ _ _ _ _ _ _ _ _ H1) as [K1 O1].
  { apply Hs. left. }
  etrans; [exact K1|]. apply (IH s1 H Hd). intros t' c' Hin. rewrite O1; [apply Hs; by right|].
  intros E. apply Hn. rewrite <- E. apply (list_elem_of_fmap_2 (λ tc : target * campaign, rt_rollout (fst tc)) l (t', c') Hin).
Qed.

(** Targets that share an item share the frame, so that their campaigns differ. *)
Lemma sharing_targets s i :
  keys_unique qi_id (items s) → rollout_inv None s → NoDup (map rt_rollout (List.filter (λ t, same_text (rt_item t) (Some i)) (targets s))).
Proof.
  intros U I. set (l := List.filter _ (targets s)).
  assert (∀ t, t ∈ l → ∃ x, x ∈ items s ∧ qi_id x = i ∧ qi_device x = rt_device t) as Hdev.
  { intros t [Hin Ht]%filter_elem. unfold same_text in Ht. destruct (rt_item t) as [j|] eqn:Ej; [|done].
    apply str_eqb_eq in Ht as ->. by eapply (ri_item _ _ I). }
  assert (NoDup (map pair_of l)) as N by apply NoDup_map_filter, I.
  apply NoDup_alt. intros n m r Hn Hm. rewrite list_lookup_fmap in Hn, Hm.
  destruct (l !! n) as [t1|] eqn:E1; [|done]. destruct (l !! m) as [t2|] eqn:E2; [|done]. injection Hn as Hn. injection Hm as Hm.
  eapply NoDup_lookup; [exact N|rewrite list_lookup_fmap, E1; reflexivity|]. rewrite list_lookup_fmap, E2. cbn. f_equal.
  unfold pair_of. f_equal; [congruence|]. apply list_elem_of_lookup_2 in E1, E2.
  destruct (Hdev _ E1) as (x1 & X1 & I1 & <-), (Hdev _ E2) as (x2 & X2 & I2 & <-). f_equal.
  eapply (keys_unique_inj qi_id); [exact U|done..|congruence].
Qed.

Lemma kept_record fresh k d e err now s s' :
  keys_unique qi_id (items s) → _record_rollout_ack_locked fresh k d e err now s = Ok s' → kept None s s'.
Proof.
  intros U H. apply kept_under. intros I. eapply record_loop; [exact H|..].
  - pose proof (sharing_targets s k U I) as N. revert N. generalize (List.filter (λ t, same_text (rt_item t) (Some k)) (targets s)).
    induction l as [|t l IH]; cbn; [done|]. intros [Hn N]%NoDup_cons. destruct (get_campaign (rt_rollout t) s) as [c|]; [|by apply IH].
    cbn. apply NoDup_cons. split; [|by apply IH]. intros ([t' c'] & E & Hin)%list_elem_of_fmap. apply Hn. cbn in E. rewrite E.
    apply list_elem_of_omap in Hin as (y & Hy & Ey). destruct (get_campaign _ s); [|done]. injection Ey as -> _. by apply list_elem_of_fmap_2.
  - intros t c Hin. apply list_elem_of_omap in Hin as (y & Hy & Ey). unfold status_at.
    destruct (get_campaign (rt_rollout y) s) eqn:E; [|done]. injection Ey as -> ->. by rewrite E.
Qed.

(** ** Creation, start, transitions *)

Lemma kept_create id r user specs now s s' : create_rollout id r user specs now s = Ok s' → kept None s s'.
Proof.
  unfold create_rollout. intros (_ & _ & (_ & _ & (u0 & Hk & [= <-])%rbind_ok)%rbind_ok)%rbind_ok. apply raise_if_ok in Hk.
  set (c := mk_campaign id r DRAFT None None None now now). intros [I1 I2 I3 I4 I5 I6 I7].
  set (s1 := _action _ _ _ _ _). assert (∀ x, is_Some (status_at x s) → status_at x s1 = status_at x s) as Hst.
  { intros x [st Hx]. unfold status_at, get_campaign in *. change (campaigns s1) with (campaigns s ++ [c]).
    rewrite get_row_app_fresh. by destruct (get_row rc_id x (campaigns s)). }
  split; [|intros x st Hx _; rewrite Hst; [done|by exists st]].
  split; try done.
  - change (campaigns s1) with (campaigns s ++ [c]). by apply keys_unique_insert.
  - intros t Hin. rewrite Hst by auto. auto.
  - intros t st Hin. rewrite Hst by auto. auto.
  - assert (∀ t, t ∈ targets s → counts None s1 (rt_rollout t) → counts None s (rt_rollout t)) as Hc.
    { intros t Hin [(st & Hs & Hl)|]; [|by right]. left. exists st. by rewrite <- Hst by auto. }
    intros t1 t2 H1 H2 Ed E1 E2 L1 L2. by apply I7; auto.
Qed.

Lemma kept_start fresh k a now s s' : start_rollout fresh k a now s = Ok s' → kept None s s'.
Proof.
  unfold start_rollout. destruct (get_campaign k s) as [c|] eqn:Ec; [|done]. intros (u0 & Hd & H)%rbind_ok. apply raise_if_ok in Hd.
  destruct (head _) as [g|]; [|done]. apply rbind_ok in H as ([r s1] & H1 & H). destruct r; [done|]. injection H as <-.
  assert (status_at k s = Some DRAFT) as Hs.
  { unfold status_at. rewrite Ec. unfold rstatus_in in Hd. cbn. f_equal. by destruct (rc_status c). }
  pose proof (get_campaign_id _ _ _ Ec) as <-. intros I.
  apply (allocate_spec (Some (rc_id c))) in H1 as [K1 S1]; [|left; by split; [|exists DRAFT]].
  destruct (K1 (starts _ _ I Hs)) as [I1 F1]. destruct (started (rc_id c) now s1 I1) as [I2 F2]; [by rewrite S1|].
  assert (kept None (set_status (rc_id c) CANARY now s1) (_action (rc_id c) (Some a) "start_canary" None (set_status (rc_id c) CANARY now s1)))
    as K3 by kept_plain.
  destruct (K3 I2) as [I3 F3]. split; [done|]. intros x st Hx Hf. apply F3; [apply F2; [by apply F1|done]|done].
Qed.

Lemma resume_kept k n s s' : resume k n s = Ok s' → kept None s s' ∧ campaigns s' = campaigns s.
Proof.
  unfold resume. intros H. res_inv. split; [|done]. apply kept_frame; [done|done|]. eapply covers_update; [reflexivity|done].
Qed.

Lemma kept_plain_transition k a c st r now s s' :
  plain_transition k a c st r now s = Ok s' → get_campaign k s = Some c → moveb (rc_status c) st = true → kept None s s'.
Proof.
  unfold plain_transition. intros ([p s2] & H2 & [= <-])%rbind_ok Ec Hm.
  assert (kept None s s2 ∧ campaigns s2 = campaigns s) as [K2 C2].
  { destruct (bool_decide _); [by injection H2 as <- <-|]. destruct (rc_status c); try (by injection H2 as <- <-).
    destruct (rc_paused_at c); [|by injection H2 as <- <-]. apply rbind_ok in H2 as (s3 & H3 & [= <- <-]). by eapply resume_kept. }
  etrans; [exact K2|]. set (s3 := update_campaign _ _ s2). transitivity s3; [|kept_plain]. apply kept_campaign; [done|].
  intros c1. unfold get_campaign in *. rewrite C2, Ec. intros [= <-]. by apply moveb_ok.
Qed.

Lemma kept_transition fresh k st a r now s c s' : transition_rollout fresh k st a r now s = Ok (c, s') → kept None s s'.
Proof.
  unfold transition_rollout. destruct (get_campaign k s) as [c0|] eqn:Ec; [|done]. intros (u0 & Hal & H)%rbind_ok. apply raise_if_ok in Hal.
  destruct (bool_decide (st = ROLLING_BACK)).
  { apply rbind_ok in H as (s1 & H1 & [= <- <-]). by eapply acts_start_rollback. }
  destruct (_ && _).
  { apply rbind_ok in H as ([b s1] & H1 & H). injection H as <- <-. etrans; [by eapply acts_evaluate|]. destruct b; [kept_plain|done]. }
  apply rbind_ok in H as (s1 & H1 & [= <- <-]). eapply kept_plain_transition; [exact H1|exact Ec|]. apply allowed_move.
  bprop. by apply bool_decide_eq_true in Hal.
Qed.

(** ** The content queue *)

Lemma campaigns_update_item k f s : (∀ i, qi_id (f i) = qi_id i ∧ qi_device (f i) = qi_device i) → kept None s (update_item k f s).
Proof. intros H. apply kept_frame; [done|done|]. eapply covers_update; [reflexivity|exact H]. Qed.
Lemma kept_update_queue d f s : kept None s (update_queue d f s).
Proof. kept_plain. Qed.
Lemma kept_insert_item i s s' : insert_item i s = Ok s' → kept None s s'.
Proof. intros (-> & _ & _)%insert_item_ok. apply kept_frame; [done|done|]. by eapply covers_insert. Qed.

Lemma kept_ensure_queue d depth now s s' : ensure_queue d depth now s = Ok s' → kept None s s'.
Proof. unfold ensure_queue. intros H. res_inv. etrans; [|apply kept_update_queue]. destruct (has_key _ _ _); [done|kept_plain]. Qed.

Lemma kept_evict d now s : kept None s (evict d now s).
Proof. unfold evict. etrans; [|apply kept_update_queue]. destruct (head _) as [i|]; [by apply campaigns_update_item|done]. Qed.

Lemma kept_enqueue a id now s i s' : enqueue_release a id now s = Ok (i, s') → kept None s s'.
Proof.
  unfold enqueue_release. intros H. do 4 (apply rbind_ok in H as (_ & _ & H)).
  destruct (find_where _ _) as [x|]; [destruct (same_request _ _ _); [by injection H as <- <-|done]|].
  destruct (get_queue _ _) as [q|]; [|done]. unfold enqueue_new in H. do 2 (apply rbind_ok in H as (_ & _ & H)).
  destruct (find_where _ _) as [x|]; [by injection H as <- <-|]. apply rbind_ok in H as (_ & _ & H).
  apply rbind_ok in H as (s1 & H1 & [= <- <-]). etrans; [|etrans; [by eapply kept_insert_item|apply kept_update_queue]].
  destruct (_ <=? _); [apply kept_evict|done].
Qed.

Lemma kept_ack_fresh py fresh d p e key v i now s r s' :
  keys_unique qi_id (items s) → ack_fresh py fresh d p e key v i now s = Ok (r, s') → kept None s s'.
Proof.
  intros U (s1 & delayed & at_ & err & _ & E1 & _ & _ & (_ & _ & _ & Ec & Et) & H2)%ack_fresh_split. transitivity s1.
  - apply kept_frame; [done|done|]. by eapply covers_update.
  - eapply kept_record; [|exact H2]. rewrite E1. by apply keys_unique_update.
Qed.

Lemma kept_queue_ack py fresh d p now s r s' :
  keys_unique qi_id (items s) → queue_ack py fresh d p now s = Ok (r, s') → kept None s s'.
Proof.
  unfold queue_ack. intros U. destruct (assoc_get _ _) as [e|]; [|done]. intros (_ & _ & (v & _ & H)%rbind_ok)%rbind_ok.
  destruct (find_where _ (items s)) as [i|] eqn:E; [|done]. destruct (find_event _ _ _ _) as [x|]; [|by eapply kept_ack_fresh].
  apply rbind_ok in H as (r' & _ & [= <- <-]). done.
Qed.

Lemma kept_expire now s : keys_unique qi_id (items s) → kept None s (expire_operational_data now s).
Proof.
  intros U. unfold expire_operational_data. set (s1 := s <| items := _ |>). transitivity s1.
  { apply kept_frame; [done|done|]. eapply covers_update; [reflexivity|done]. }
  assert (keys_unique qi_id (items s1)) as U1 by (by apply keys_unique_update). clearbody s1.
  set (gone := map qi_id _). apply kept_frame; [done|done|]. intros i Hi. destruct (str_in (qi_id i) gone) eqn:Eg.
  - right. bprop. unfold gone in Eg. apply list_elem_of_fmap in Eg as (j & Ej & Hj).
    apply elem_of_take in Hj as (n & Hj & _). apply list_elem_of_lookup_2 in Hj. apply sort_by_elem, filter_elem in Hj as [Hj Hc].
    assert (j = i) as -> by (eapply (keys_unique_inj qi_id); [exact U1|done..]). unfold collectable in Hc. bprop.
    destruct Hc as [[_ Ht] _]. intros t Hin E. apply (proj1 (existsb_none _ _) Ht) in Hin. rewrite E in Hin. cbn in Hin.
    by rewrite str_eqb_refl in Hin.
  - left. exists i. split; [|done]. apply filter_elem. split; [done|]. by rewrite Eg.
Qed.

(** ** Offline playlists *)

Lemma kept_insert_schedule o s s' : insert_schedule o s = Ok s' → kept None s s'.
Proof. unfold insert_schedule. intros H. res_inv. kept_plain. Qed.
Lemma kept_postpone d c t s : kept None s (postpone d c t s).
Proof. kept_plain. Qed.

Lemma kept_record_transient fresh d date config now s r s' :
  record_transient_exhausted fresh d date config now s = Ok (r, s') → kept None s s'.
Proof.
  unfold record_transient_exhausted. destruct (find_schedule _ _ _ _) as [o|].
  - destruct (sstatus_in [SReady] o); [by intros [= <- <-]|]. intros (_ & _ & [= <- <-])%rbind_ok. kept_plain.
  - destruct (enabled_device d s); [|done]. intros (_ & _ & (s1 & H1 & [= <- <-])%rbind_ok)%rbind_ok.
    etrans; [by eapply kept_insert_schedule|apply kept_postpone].
Qed.

Lemma kept_record_terminal fresh d date config code now s r s' :
  record_terminal_outcome fresh d date config code now s = Ok (r, s') → kept None s s'.
Proof.
  unfold record_terminal_outcome. intros (_ & _ & H)%rbind_ok. destruct (enabled_device d s); [|done].
  apply rbind_ok in H as (_ & _ & H). destruct (find_schedule _ _ _ _) as [o|].
  - destruct (sstatus_in [SReady] o); injection H as <- <-; [done|kept_plain].
  - apply rbind_ok in H as (s1 & H1 & [= <- <-]). etrans; [by eapply kept_insert_schedule|apply kept_postpone].
Qed.

Lemma kept_claim t d date config now after s b s' : claim_terminal_outcome_retry t d date config now after s = (b, s') → kept None s s'.
Proof.
  unfold claim_terminal_outcome_retry. destruct t as [t|]; [|by intros [= <- <-]]. destruct (_ || _); [by intros [= <- <-]|].
  destruct (existsb _ _); intros [= <- <-]; [kept_plain|done].
Qed.

Lemma kept_ignore_event e s : kept None s (ignore_event e s).
Proof. unfold ignore_event. destruct (existsb _ _); [done|kept_plain]. Qed.

Lemma kept_supersede_item d date now i s : kept None s (supersede_item d date now i s).
Proof.
  unfold supersede_item. set (s1 := update_item _ _ s). transitivity s1; [by apply campaigns_update_item|].
  set (s2 := ignore_event _ s1). transitivity s2; [apply kept_ignore_event|]. by apply kept_touch.
Qed.

Lemma kept_fold {A} (f : ddb → A → ddb) l s : (∀ s x, kept None s (f s x)) → kept None s (fold_left f l s).
Proof. intros Hf. revert s. induction l as [|x l IH]; simpl; intros s; [done|]. etrans; [apply Hf|apply IH]. Qed.

Lemma kept_supersede d date k now s n s' : _supersede_previous_schedule_items d date k now s = (n, s') → kept None s s'.
Proof.
  unfold _supersede_previous_schedule_items. destruct (map os_id _) as [|x old] eqn:E; intros H; injection H as <- <-; [done|].
  set (s1 := set_with schedules _ s). transitivity s1; [kept_plain|]. apply kept_fold. intros y i. apply kept_supersede_item.
Qed.

Lemma kept_place_slots f k d panel base target_end now queued n plans s s' :
  place_slots f k d panel base target_end now queued n plans s = Ok s' → kept None s s'.
Proof.
  revert n s. induction plans as [|x plans IH]; intros n s; simpl; [by intros [= <-]|].
  destruct (usable_release _ _ _); [|done]. intros (e & _ & (_ & _ & (s1 & H1 & (s2 & H2 & H)%rbind_ok)%rbind_ok)%rbind_ok)%rbind_ok.
  etrans; [by eapply kept_insert_item|]. etrans; [|by eapply IH]. unfold insert_slot in H2. res_inv. kept_plain.
Qed.

Lemma kept_store_day f p d date ids version existing now s k s' :
  store_day f p d date ids version existing now s = Ok (k, s') → kept None s s'.
Proof.
  unfold store_day. set (k0 := match existing with Some o => os_id o | None => id_schedule f end).
  intros (s1 & H1 & H)%rbind_ok. transitivity s1.
  { unfold upsert_schedule in H1. destruct existing; [injection H1 as <-; kept_plain|by eapply kept_insert_schedule]. }
  set (s2 := s1 <| slots := _ |>) in H. transitivity s2; [kept_plain|]. clearbody s2.
  destruct (_supersede_previous_schedule_items d date k0 now s2) as [c s3] eqn:E3. transitivity s3; [by eapply kept_supersede|].
  destruct (day_queue d _ now s3) as [q s4] eqn:E4. transitivity s4.
  { unfold day_queue in E4. destruct (get_queue d s3); injection E4 as <- <-; [done|kept_plain]. }
  apply rbind_ok in H as (_ & _ & (dl & _ & (s5 & H5 & (_ & _ & [= <- <-])%rbind_ok)%rbind_ok)%rbind_ok).
  transitivity s5; [by eapply kept_place_slots|].
  set (s6 := update_queue d _ s5). transitivity s6; [kept_plain|destruct (_is_future_item _ _); kept_plain].
Qed.

Lemma kept_prepare_day zn w f d date rs ex now s v s' : prepare_day zn w f d date rs ex now s = Ok (v, s') → kept None s s'.
Proof.
  unfold prepare_day. intros (_ & _ & (_ & _ & (_ & _ & (p & _ & H)%rbind_ok)%rbind_ok)%rbind_ok)%rbind_ok.
  destruct (find_schedule _ _ _ _) as [o|]; [destruct (sstatus_in [SReady] o)|].
  - apply rbind_ok in H as ([x|] & _ & H); [|done]. destruct (str_eqb _ _); [by injection H as <- <-|done].
  - apply rbind_ok in H as ([k s1] & H1 & [= <- <-]). by eapply kept_store_day.
  - apply rbind_ok in H as ([k s1] & H1 & [= <- <-]). by eapply kept_store_day.
Qed.

Lemma kept_replace_slot d k n r ex now s v s' : replace_slot d k n r ex now s = Ok (v, s') → kept None s s'.
Proof.
  unfold replace_slot. intros (_ & _ & (_ & _ & H)%rbind_ok)%rbind_ok.
  destruct (find_where _ (schedules s)) as [o|]; [|done]. destruct (enabled_device d s) as [dv|]; [|done].
  apply rbind_ok in H as (_ & _ & (_ & _ & H)%rbind_ok). destruct (find_where _ (slots s)) as [x0|]; [|done].
  destruct (find_where _ (items s)) as [i|]; [|done]. apply rbind_ok in H as (_ & _ & (_ & _ & H)%rbind_ok).
  destruct (str_eqb _ _); [by injection H as <- <-|]. destruct (usable_release _ _ _); [|done].
  apply rbind_ok in H as (_ & _ & (e & _ & (s1 & H1 & [= <- <-])%rbind_ok)%rbind_ok).
  unfold swap_release in H1. set (s2 := set_with slots _ (set_with items _ s)) in H1. destruct (times_of _); [|done].
  apply rbind_ok in H1 as (ts & _ & [= <-]). transitivity s2.
  - apply kept_frame; [done|done|]. eapply covers_update; [reflexivity|done].
  - kept_plain.
Qed.

(** ** Settings *)

Lemma kept_supersede_future d modes now o n kind tr s : kept None s (snd (_supersede_future_queue_items d modes now o n kind tr s)).
Proof.
  unfold _supersede_future_queue_items. set (future := List.filter _ (sort_by _ _)). cbv zeta. cbn [snd].
  set (s1 := fold_left _ future s). transitivity s1; [|destruct (0 <? _); [apply kept_update_queue|done]].
  apply kept_fold. intros y i. unfold supersede_future_item. set (s2 := update_item _ _ y). transitivity s2; [by apply campaigns_update_item|].
  set (s3 := ignore_event _ s2). transitivity s3; [apply kept_ignore_event|]. by apply kept_touch.
Qed.

Lemma kept_update zn a d now s r s' : update zn a d now s = Ok (r, s') → kept None s s'.
Proof.
  unfold update. destruct (get_device _ _) as [v|]; [|done]. intros (_ & _ & (_ & _ & (p & _ & H)%rbind_ok)%rbind_ok)%rbind_ok.
  destruct (_ && str_eqb _ _); apply ok_pair in H as [<- <-]; [done|]. set (s1 := set_with devs _ s). transitivity s1; [kept_plain|].
  destruct (remote_config_changed _); [apply kept_supersede_future|done].
Qed.

Lemma kept_update_render zn d p o l f now s r s' : update_render_inputs zn d p o l f now s = Ok (r, s') → kept None s s'.
Proof. unfold update_render_inputs. destruct (get_device _ _); [apply kept_update|done]. Qed.

(** ** Runs *)

Section rollouts.
Context (py_str : json → str) (zone_named : str → option zone).

Lemma kept_apply r s : wf s → kept None s (apply py_str zone_named r s).
Proof.
  intros W. destruct r; simpl; unfold state_of, state_or;
    try (match goal with |- context [match ?x with Ok _ => _ | Raise _ => _ end] => destruct x as [a0|] eqn:H end; [|done]; try destruct a0).
  - by eapply kept_ensure_queue.
  - by eapply kept_enqueue.
  - eapply kept_queue_ack; [apply W|done].
  - apply kept_expire, W.
  - by eapply kept_create.
  - by eapply kept_start.
  - by eapply kept_transition.
  - by eapply kept_evaluate_rollouts.
  - by eapply kept_prepare_day.
  - by eapply kept_replace_slot.
  - by eapply kept_record_transient.
  - unfold clear_transient_recovery. destruct (find_schedule _ _ _ _); [kept_plain|done].
  - by eapply kept_record_terminal.
  - destruct (claim_terminal_outcome_retry _ _ _ _ _ _ _) as [b s'] eqn:E. by eapply kept_claim.
  - kept_plain.
  - kept_plain.
  - by eapply kept_update.
  - by eapply kept_update_render.
Qed.

Lemma kept_run rs s : wf s → kept None s (run py_str zone_named rs s).
Proof.
  unfold run. revert s. induction rs as [|r rs IH]; intros s W; cbn; [done|]. etrans; [by apply kept_apply|]. apply IH.
  eapply wf_steps; [exact W|]. by apply (good_apply py_str zone_named true).
Qed.

(** C15. A finished campaign (completed, rolled back, failed or cancelled)
    keeps its status for ever: no later acknowledgement, evaluation or
    administrator's request revives it. *)
Theorem finished_campaign_is_final rs s k st :
  wf s → rollout_inv None s → status_at k s = Some st → st ∈ finished_statuses →
  status_at k (run py_str zone_named rs s) = Some st.
Proof. intros W I. by apply (kept_run rs s W I). Qed.

(** C14. Whatever is asked, in any order: a frame never carries the release
    of two live campaigns at once. *)
Theorem one_live_rollout_per_frame rs s t1 t2 :
  let s' := run py_str zone_named rs s in
  wf s → rollout_inv None s → t1 ∈ targets s' → t2 ∈ targets s' → rt_device t1 = rt_device t2 →
  is_Some (rt_item t1) → is_Some (rt_item t2) → live_at (rt_rollout t1) s' → live_at (rt_rollout t2) s' → t1 = t2.
Proof.
  intros s' W I H1 H2 Ed E1 E2 L1 L2. destruct (kept_run rs s W I) as [I' _].
  apply (NoDup_map_inj pair_of (targets s')); [apply I'|done..|]. unfold pair_of. f_equal; [|done].
  apply (ri_exclusive _ _ I'); try done; by left.
Qed.
End rollouts.
