(* ===== verification/PlaylistProps.v ===== *)
(** * Offline playlists: one per day, backed by the queue, named by its content

    The invariant of playlists and slots ([playlist_inv]) under every request:
    a device has at most one live playlist for a day, every slot has its own
    queue item with the same release, and the version of a ready playlist is
    the digest of what it holds.  While [prepare_day] rewrites a playlist, the
    invariant exempts it ([X]). *)

From stdpp Require Import relations.
From S2P Require Import Prelude PyStr PyFloat Json Sql Reservations OfflineSchedule OfflineScheduleProps Devices Delivery Rollouts ContentQueue OfflineStore OfflinePrepare DeliveryLife DeliveryRuns.
Local Open Scope Z_scope.

Definition live_schedule (o : schedule) : Prop := os_status o = Preparing ∨ os_status o = SReady.

Definition linked (s : ddb) (x : slot) : Prop :=
  ∃ i, i ∈ items s ∧ qi_id i = sl_item x ∧ qi_release i = sl_release x ∧ qi_schedule i = Some (sl_schedule x) ∧ qi_offline i = true ∧
    ∃ o, o ∈ schedules s ∧ os_id o = sl_schedule x ∧ os_device o = qi_device i.

(** Times as [validate_offline_schedule] leaves them. *)
Definition settled (times : list str) : Prop := sort_by str_leb (map strip times) = times.

Definition versioned (s : ddb) (o : schedule) : Prop :=
  ∃ times, times_of (os_times o) = Some times ∧ settled times ∧ length times = length (slots_of (os_id o) s) ∧
    sn_playlist (os_snapshot o) = Some (playlist_version (playlist_of o times (map sl_release (slots_of (os_id o) s)))).

Record playlist_inv (X : str → Prop) (s : ddb) : Prop := mk_playlist_inv {
  pi_ids : keys_unique os_id (schedules s);
  pi_one : ∀ o1 o2, o1 ∈ schedules s → o2 ∈ schedules s → os_device o1 = os_device o2 → os_date o1 = os_date o2 →
    live_schedule o1 → live_schedule o2 → (¬ X (os_id o1)) → (¬ X (os_id o2)) → os_id o1 = os_id o2;
  pi_slots : keys_unique sl_id (slots s);
  pi_items : NoDup (map sl_item (slots s));
  pi_linked : ∀ x, x ∈ slots s → linked s x;
  pi_version : ∀ o, o ∈ schedules s → os_status o = SReady → (¬ X (os_id o)) → versioned s o }.

Definition nobody (k : str) : Prop := False.

(** ** Operations that leave playlists alone *)

(** What a queue item of a playlist keeps. *)
Record same_load (i j : queue_item) : Prop := mk_same_load {
  sm_id : qi_id j = qi_id i; sm_device : qi_device j = qi_device i; sm_release : qi_release j = qi_release i;
  sm_schedule : qi_schedule j = qi_schedule i; sm_offline : qi_offline j = qi_offline i }.

Definition carries (s s' : ddb) : Prop := ∀ i, i ∈ items s → qi_offline i = true → ∃ j, j ∈ items s' ∧ same_load i j.

#[export] Instance carries_preorder : PreOrder carries.
Proof.
  split; [intros s i Hi _; by exists i|]. intros a b c Hab Hbc i Hi Ho. destruct (Hab i Hi Ho) as (j & Hj & []).
  destruct (Hbc j Hj) as (k & Hk & []); [congruence|]. exists k. split; [done|]. constructor; congruence.
Qed.

Lemma carries_update p f s s' :
  items s' = update_where p f (items s) → (∀ i, i ∈ items s → p i = true → same_load i (f i)) → carries s s'.
Proof.
  intros E H i Hi _. exists (if p i then f i else i). rewrite E. split; [apply update_where_elem; eauto|]. destruct (p i) eqn:Ep; [auto|done].
Qed.

Lemma carries_same s s' : items s' = items s → carries s s'.
Proof. intros E i Hi _. exists i. by rewrite E. Qed.

Lemma carries_insert i s s' : items s' = items s ++ [i] → carries s s'.
Proof. intros E x Hx _. exists x. rewrite E. split; [apply elem_of_app; by left|done]. Qed.

Lemma carries_qstep s s' : qstep false s s' → carries s s' ∧ slots s' = slots s ∧ schedules s' = schedules s.
Proof.
  assert (∀ P, P → quiet false s s' → P ∧ slots s' = slots s ∧ schedules s' = schedules s) as Hq.
  { intros P HP Q. split; [done|by apply Q]. }
  intros []; apply Hq; clear Hq; try done; try (by apply carries_same).
  - eapply carries_update; [done|]. intros i Hi E. destruct (H i Hi E). constructor; auto.
  - by eapply carries_insert.
  - intros x Hx Ho. exists x. split; [|done]. rewrite H0. apply filter_elem. split; [done|].
    destruct (p x) eqn:E; [done|]. destruct (H x Hx E). congruence.
  - by eapply carries_update.
Qed.

Lemma carries_steps s s' : rtc (qstep false) s s' → carries s s' ∧ slots s' = slots s ∧ schedules s' = schedules s.
Proof.
  induction 1 as [s|a b c Hab _ (IH & E1 & E2)]; [done|]. apply carries_qstep in Hab as (C & E3 & E4).
  split; [by etrans|]. split; congruence.
Qed.

Lemma slots_of_same k s s' : slots s' = slots s → slots_of k s' = slots_of k s.
Proof. unfold slots_of. by intros ->. Qed.

Lemma versioned_same s s' o : slots_of (os_id o) s' = slots_of (os_id o) s → versioned s o → versioned s' o.
Proof. unfold versioned. by intros ->. Qed.

Lemma linked_carried s s' x :
  carries s s' → (∀ o, o ∈ schedules s → ∃ o', o' ∈ schedules s' ∧ os_id o' = os_id o ∧ os_device o' = os_device o) → linked s x → linked s' x.
Proof.
  intros C H (i & Hi & E1 & E2 & E3 & E4 & o & Ho & E5 & E6). destruct (C i Hi E4) as (j & Hj & []). destruct (H o Ho) as (o' & Ho' & E7 & E8).
  exists j. split_and!; [done|congruence..|]. exists o'. split_and!; [done|congruence..].
Qed.

Lemma inv_carried X s s' : carries s s' → slots s' = slots s → schedules s' = schedules s → playlist_inv X s → playlist_inv X s'.
Proof.
  intros C E1 E2 [I1 I2 I3 I4 I5 I6]. split; rewrite ?E1, ?E2; try done.
  - intros x Hx. eapply linked_carried; [exact C| |by apply I5]. intros o Ho. exists o. by rewrite E2.
  - intros o Ho Hr Hx. eapply versioned_same; [by apply slots_of_same|auto].
Qed.

(** ** Writes to the schedules *)

(** A schedule keeps its identity; it does not come alive, and a ready one
    keeps what its version is made of. *)
Record settles (o o' : schedule) : Prop := mk_settles {
  se_id : os_id o' = os_id o; se_device : os_device o' = os_device o; se_date : os_date o' = os_date o;
  se_live : live_schedule o' → live_schedule o;
  se_ready : os_status o' = SReady → os_status o = SReady ∧ os_config o' = os_config o ∧ os_times o' = os_times o ∧
    sn_playlist (os_snapshot o') = sn_playlist (os_snapshot o) }.

Lemma versioned_settles s s' o o' :
  slots s' = slots s → settles o o' → os_status o' = SReady → versioned s o → versioned s' o'.
Proof.
  intros Es [] Hr (times & E1 & E2 & E3 & E4). destruct (se_ready0 Hr) as (_ & Ec & Et & En). exists times.
  rewrite Et, En, se_id0, (slots_of_same _ s s' Es). split_and!; try done. rewrite E4. unfold playlist_of. by rewrite se_device0, se_date0, Ec.
Qed.

Lemma inv_schedules X s s' p f :
  schedules s' = update_where p f (schedules s) → slots s' = slots s → carries s s' →
  (∀ o, o ∈ schedules s → p o = true → (X (os_id o) ∧ os_id (f o) = os_id o ∧ os_device (f o) = os_device o) ∨ settles o (f o)) →
  playlist_inv X s → playlist_inv X s'.
Proof.
  intros E1 E2 C Hf [I1 I2 I3 I4 I5 I6].
  assert (∀ o, o ∈ schedules s → p o = true → os_id (f o) = os_id o ∧ os_device (f o) = os_device o) as Hid.
  { intros o Ho Ep. destruct (Hf o Ho Ep) as [(_ & ? & ?)|[]]; done. }
  assert (∀ o', o' ∈ schedules s' → (¬ X (os_id o')) → ∃ o, o ∈ schedules s ∧ os_id o' = os_id o ∧ settles o o') as Hback.
  { intros o'. rewrite E1. intros (o & Ho & ->)%update_where_elem Hn. exists o. split; [done|].
    destruct (p o) eqn:Ep; [|split; [done|by constructor]]. destruct (Hf o Ho Ep) as [(HX & Ei & _)|Hs]; [by rewrite Ei in Hn|].
    split; [by destruct Hs|done]. }
  split; rewrite ?E2; try done.
  - rewrite E1. apply unique_map_ids; [|done]. intros o Ho Ep. by apply Hid.
  - intros o1' o2' H1 H2 Ed Et L1 L2 N1 N2. destruct (Hback _ H1 N1) as (o1 & O1 & K1 & []), (Hback _ H2 N2) as (o2 & O2 & K2 & []).
    rewrite K1, K2. apply I2; try done; try congruence; auto.
  - intros x Hx. eapply linked_carried; [exact C| |by apply I5]. intros o Ho. exists (if p o then f o else o). rewrite E1.
    split; [apply update_where_elem; eauto|]. destruct (p o) eqn:Ep; [by apply Hid|done].
  - intros o' Ho' Hr Hn. destruct (Hback o' Ho' Hn) as (o & Ho & Ek & Hs). eapply versioned_settles; [done|exact Hs|done|].
    apply I6; [done|by apply Hs|congruence].
Qed.

Lemma inv_insert_schedule X o s s' :
  insert_schedule o s = Ok s' → (X (os_id o) ∨ ¬ live_schedule o) → playlist_inv X s → playlist_inv X s'.
Proof.
  unfold insert_schedule. intros (u0 & Hk & [= <-])%rbind_ok Hl [I1 I2 I3 I4 I5 I6]. apply raise_if_ok in Hk.
  assert (∀ x, x ∈ schedules s ++ [o] → live_schedule x → (¬ X (os_id x)) → x ∈ schedules s) as Hback.
  { intros x [?|Hx%list_elem_of_singleton]%elem_of_app L N; [done|]. subst x. by destruct Hl. }
  split; try done.
  - by apply keys_unique_insert.
  - intros o1 o2 H1 H2 ?? L1 L2 N1 N2. apply I2; auto.
  - intros x Hx. eapply (linked_carried s); [by apply carries_same| |by apply I5]. intros y Hy. exists y.
    split; [apply elem_of_app; by left|done].
  - intros x Hx Hr N. apply (versioned_same s); [reflexivity|]. apply I6; [apply Hback; [done|by right|done]|done..].
Qed.

(** ** Superseding and placing *)

Lemma supersede_item_spec d date now i s :
  let s' := supersede_item d date now i s in carries s s' ∧ slots s' = slots s ∧ schedules s' = schedules s.
Proof.
  intros s'. unfold s', supersede_item, ignore_event. set (s1 := update_item _ _ s).
  assert (carries s s1) as C by (by eapply carries_update). destruct (existsb _ _); (split; [exact C|done]).
Qed.

Lemma supersede_items_spec d date now l s :
  let s' := fold_left (λ s i, supersede_item d date now i s) l s in carries s s' ∧ slots s' = slots s ∧ schedules s' = schedules s.
Proof.
  revert s. induction l as [|i l IH]; intros s; [done|]. cbn. destruct (supersede_item_spec d date now i s) as (C1 & E1 & E2).
  destruct (IH (supersede_item d date now i s)) as (C2 & -> & ->). split; [by etrans|done].
Qed.

Lemma supersede_spec X d date k now s n s' :
  _supersede_previous_schedule_items d date k now s = (n, s') → playlist_inv X s →
  playlist_inv X s' ∧ slots s' = slots s ∧ (∀ o, o ∈ schedules s' → rival d date k o = false) ∧
  (∀ o, o ∈ schedules s → os_id o = k → o ∈ schedules s').
Proof.
  unfold _supersede_previous_schedule_items. intros H I.
  destruct (map os_id (List.filter (rival d date k) (schedules s))) as [|k0 old0] eqn:Eold.
  { injection H as _ <-. split_and!; try done. intros o Ho. apply map_eq_nil in Eold.
    destruct (rival d date k o) eqn:E; [|done]. assert (o ∈ List.filter (rival d date k) (schedules s)) as Hf by (by apply filter_elem).
    rewrite Eold in Hf. inversion Hf. }
  rewrite <- Eold in H. set (old := map os_id _) in H. set (s1 := set_with schedules _ s) in H. injection H as _ <-.
  match goal with |- context [fold_left ?f ?l s1] => destruct (supersede_items_spec d date now l s1) as (C & E1 & E2) end.
  match goal with |- context [fold_left ?f ?l s1] => set (s2 := fold_left f l s1) in * end.
  assert (schedules s1 = update_where (λ o, str_in (os_id o) old) (λ o, o <| os_status := SCancelled |> <| os_updated := now |>) (schedules s)) as Es1
    by done.
  split_and!.
  - eapply (inv_schedules X s s2); [by rewrite E2|done|exact C| |done]. intros o Ho _. right. constructor; try done; intros [|]; done.
  - done.
  - intros o. rewrite E2, Es1. intros (x & Hx & ->)%update_where_elem. destruct (str_in (os_id x) old) eqn:Eo.
    + unfold rival, sstatus_in. cbn. by rewrite Bool.andb_false_r.
    + destruct (rival d date k x) eqn:Er; [|done]. exfalso. apply Bool.not_true_iff_false in Eo. apply Eo. bprop.
      unfold old. apply list_elem_of_fmap. exists x. split; [done|]. by apply filter_elem.
  - intros o Ho Ek. rewrite E2, Es1. apply update_where_elem. exists o. split; [done|].
    destruct (str_in (os_id o) old) eqn:Eo; [|done]. exfalso. bprop. unfold old in Eo. apply list_elem_of_fmap in Eo as (x & E & [_ Hr]%filter_elem).
    unfold rival in Hr. bprop. destruct Hr as [[_ Hn] _]. congruence.
Qed.

Lemma slots_of_snoc_other k x s s' : slots s' = slots s ++ [x] → sl_schedule x ≠ k → slots_of k s' = slots_of k s.
Proof.
  intros E Hn. unfold slots_of. rewrite E, List.filter_app. cbn. destruct (str_eqb (sl_schedule x) k) eqn:Ek; [by apply str_eqb_eq in Ek|].
  by rewrite app_nil_r.
Qed.

Lemma inv_add_slot X i x s s1 s2 :
  insert_item i s = Ok s1 → insert_slot x s1 = Ok s2 → qi_id i = sl_item x → qi_release i = sl_release x →
  qi_schedule i = Some (sl_schedule x) → qi_offline i = true → X (sl_schedule x) →
  (∃ o, o ∈ schedules s ∧ os_id o = sl_schedule x ∧ os_device o = qi_device i) →
  playlist_inv X s → playlist_inv X s2 ∧ slots s2 = slots s ++ [x] ∧ schedules s2 = schedules s.
Proof.
  intros (-> & Hc & _)%insert_item_ok H2 Ei Er Es Eo HX Howner [I1 I2 I3 I4 I5 I6]. unfold insert_slot in H2.
  apply rbind_ok in H2 as (u0 & Hs & [= <-]). apply raise_if_ok in Hs. split; [|done].
  apply no_conflict_key in Hc. split; try done.
  - apply keys_unique_insert; [|exact I3]. apply existsb_none. intros y Hy. apply (proj1 (existsb_none _ _) Hs) in Hy.
    unfold slot_conflict in Hy. unfold by_key. bprop. destruct Hy. congruence.
  - cbn. change (NoDup (map sl_item (slots s ++ [x]))). rewrite map_app. apply NoDup_app. split; [exact I4|]. split; [|apply NoDup_singleton].
    intros k Hk Hk'%list_elem_of_singleton. subst k. apply list_elem_of_fmap in Hk as (y & E & Hy). destruct (I5 y Hy) as (j & Hj & Ej & _).
    apply (proj1 (existsb_none _ _) Hc) in Hj. unfold by_key in Hj. bprop. congruence.
  - intros y [Hy|Hy%list_elem_of_singleton]%elem_of_app.
    + apply (linked_carried s); [by eapply carries_insert| |by apply I5]. intros o Ho. by exists o.
    + subst y. exists i. split_and!; try done. apply elem_of_app. right. left.
  - intros o Ho Hr N. apply (versioned_same s); [|by apply I6]. eapply slots_of_snoc_other; [reflexivity|]. intros E. apply N. by rewrite <- E.
Qed.

Lemma place_slots_spec X f k d panel base target_end now queued n plans s s' :
  place_slots f k d panel base target_end now queued n plans s = Ok s' → X k → (∃ o, o ∈ schedules s ∧ os_id o = k ∧ os_device o = d) →
  playlist_inv X s → playlist_inv X s' ∧ schedules s' = schedules s ∧
  ∃ new, slots s' = slots s ++ new ∧ map sl_release new = map sp_release plans ∧ Forall (λ x, sl_schedule x = k) new ∧
    Forall (λ x, Z.of_nat n ≤ sl_index x) new ∧ StronglySorted (λ a b, slot_leb a b = true) new.
Proof.
  intros H HX. revert n s H. induction plans as [|x plans IH]; intros n s; simpl.
  { intros [= <-] _ I. split; [done|]. split; [done|]. exists []. rewrite app_nil_r. split_and!; try done; constructor. }
  destruct (usable_release _ _ _); [|done]. intros (e & _ & (_ & _ & (s1 & H1 & (s2 & H2 & H)%rbind_ok)%rbind_ok)%rbind_ok)%rbind_ok Ho I.
  set (y := mk_slot _ _ _ _ _ _ _ _) in H2. destruct (inv_add_slot X _ y _ _ _ H1 H2) as (I2 & E2 & E3); try done.
  destruct (IH _ _ H) as (I3 & E4 & new & E5 & E6 & E7 & E8 & E9); [by rewrite E3|done|].
  split; [done|]. split; [congruence|]. exists (y :: new). split_and!.
  - by rewrite E5, E2, <- app_assoc.
  - cbn. by f_equal.
  - by constructor.
  - constructor; [done|]. eapply Forall_impl; [exact E8|]. cbn. lia.
  - constructor; [done|]. eapply Forall_impl; [exact E8|]. intros z Hz. unfold slot_leb. bprop. cbn in *. lia.
Qed.

Lemma slots_of_drop k k' s s' :
  slots s' = List.filter (λ x, negb (str_eqb (sl_schedule x) k)) (slots s) → slots_of k' s' = if str_eqb k' k then [] else slots_of k' s.
Proof.
  intros E. unfold slots_of. rewrite E. clear E. destruct (str_eqb k' k) eqn:Ek.
  - apply str_eqb_eq in Ek as ->. assert (List.filter (λ x, str_eqb (sl_schedule x) k) (List.filter (λ x, negb (str_eqb (sl_schedule x) k)) (slots s)) = []) as ->; [|done].
    induction (slots s) as [|x l IH]; [done|]. cbn. destruct (str_eqb (sl_schedule x) k) eqn:Ex; cbn; [exact IH|]. by rewrite Ex.
  - f_equal. induction (slots s) as [|x l IH]; [done|]. cbn. destruct (str_eqb (sl_schedule x) k) eqn:Ex; cbn; rewrite IH; [|done].
    apply str_eqb_eq in Ex as ->. destruct (str_eqb k k') eqn:E2; [|done]. apply str_eqb_eq in E2 as ->. by rewrite str_eqb_refl in Ek.
Qed.

Lemma inv_drop_slots (X : str → Prop) k s :
  X k → playlist_inv X s → playlist_inv X (s <| slots := List.filter (λ x, negb (str_eqb (sl_schedule x) k)) (slots s) |>).
Proof.
  intros HX [I1 I2 I3 I4 I5 I6]. split; try done.
  - by apply filter_unique.
  - by apply NoDup_map_filter.
  - intros x [Hx _]%filter_elem. by apply I5.
  - intros o Ho Hr N. apply (versioned_same s); [|by apply I6]. rewrite (slots_of_drop k _ s) by done.
    destruct (str_eqb (os_id o) k) eqn:E; [|done]. apply str_eqb_eq in E. by rewrite E in N.
Qed.

(** The rewritten playlist joins the others. *)
Lemma inv_finish k d date f s s' :
  playlist_inv (λ x, x = k) s → (∃ o, o ∈ schedules s ∧ os_id o = k ∧ os_device o = d ∧ os_date o = date ∧ versioned s o) →
  (∀ o, o ∈ schedules s → rival d date k o = false) →
  schedules s' = update_where (by_key os_id k) f (schedules s) → slots s' = slots s → items s' = items s →
  (∀ o, os_id (f o) = os_id o ∧ os_device (f o) = os_device o ∧ os_date (f o) = os_date o ∧ os_config (f o) = os_config o ∧
        os_times (f o) = os_times o ∧ os_snapshot (f o) = os_snapshot o) →
  playlist_inv nobody s'.
Proof.
  intros [I1 I2 I3 I4 I5 I6] (o0 & Ho0 & Ek & Ed & Et & Hv) Hriv E1 E2 E3 Hf.
  assert (∀ o', o' ∈ schedules s' → o' = f o0 ∨ (o' ∈ schedules s ∧ os_id o' ≠ k)) as Hback.
  { intros o'. rewrite E1. intros (o & Ho & ->)%update_where_elem. destruct (by_key os_id k o) eqn:E; unfold by_key in E; bprop; [|by right].
    left. f_equal. eapply (keys_unique_inj os_id); [exact I1|done..|congruence]. }
  destruct (Hf o0) as (F1 & F2 & F3 & F4 & F5 & F6).
  assert (∀ o, o ∈ schedules s → os_id o ≠ k → os_device o = d → os_date o = date → live_schedule o → False) as Hno.
  { intros o Ho Hn E4 E5 L. apply Hriv in Ho. unfold rival in Ho. rewrite E4, E5, str_eqb_refl, Z.eqb_refl in Ho. cbn in Ho.
    destruct (str_eqb (os_id o) k) eqn:E6; [by apply str_eqb_eq in E6|]. unfold sstatus_in in Ho. cbn in Ho.
    apply bool_decide_eq_false in Ho. apply Ho. destruct L as [-> | ->]; [left|right; left]. }
  split; rewrite ?E2; try done.
  - rewrite E1. apply keys_unique_update; [apply Hf|done].
  - intros o1 o2 [->|[H1 N1]]%Hback [->|[H2 N2]]%Hback D T L1 L2 _ _; try done.
    + exfalso. eapply (Hno o2); [done|done|congruence..|done].
    + exfalso. eapply (Hno o1); [done|done|congruence..|done].
    + by apply I2.
  - intros x Hx. apply (linked_carried s); [by apply carries_same| |by apply I5]. intros o Ho.
    exists (if by_key os_id k o then f o else o). rewrite E1. split; [apply update_where_elem; eauto|].
    destruct (by_key os_id k o); [|done]. by destruct (Hf o) as (-> & -> & _).
  - intros o [->|[Ho N]]%Hback Hr _.
    + destruct Hv as (times & T1 & T2 & T3 & T4). exists times. rewrite F1, F5, F6, (slots_of_same _ s s' E2), T4. split_and!; try done.
      unfold playlist_of. by rewrite F2, F3, F4.
    + apply (versioned_same s); [by apply slots_of_same|]. by apply I6.
Qed.

Lemma inv_weaken (X Y : str → Prop) s : (∀ k, X k → Y k) → playlist_inv X s → playlist_inv Y s.
Proof. intros H [I1 I2 I3 I4 I5 I6]. split; try done; intros; [apply I2|apply I6]; auto. Qed.

(** ** Preparing a day *)

Lemma settled_validate times maximum gap out : validate_offline_schedule times maximum gap = Ok out → settled times → out = times.
Proof. unfold validate_offline_schedule, settled. intros H S. res_inv. by rewrite S. Qed.

Lemma validate_settled times maximum gap out : validate_offline_schedule times maximum gap = Ok out → settled out.
Proof.
  intros H. apply validate_accepted, accepted_again in H. unfold validate_offline_schedule in H. unfold settled.
  do 4 (apply rbind_ok in H as (_ & _ & H)). apply rbind_ok in H as (_ & _ & [= E]). exact E.
Qed.

Lemma of_sched_ok {A} (m : result sched_exn A) a : of_sched m = Ok a → m = Ok a.
Proof. destruct m; cbn; congruence. Qed.

(** What a plan of the day guarantees. *)
Record planned (d : str) (ids : list str) (p : day_plan) : Prop := mk_planned {
  pn_device : v_id (dp_device p) = d; pn_settled : settled (dp_times p);
  pn_count : length ids = length (dp_times p); pn_starts : length (dp_starts p) = length (dp_times p) }.

Lemma plan_day_spec zn w d date ids ex s p : plan_day zn w d date ids ex s = Ok p → planned d ids p.
Proof.
  unfold plan_day, enabled_device. destruct (get_device (devs s) d) as [v|] eqn:Ev; [|done]. destruct (v_enabled v); [|done].
  intros H. do 3 (apply rbind_ok in H as (_ & _ & H)). apply rbind_ok in H as (sync & _ & H). apply rbind_ok in H as (conf & _ & H).
  apply rbind_ok in H as (times & Ht%of_sched_ok & H). apply rbind_ok in H as (u0 & Hn & H). apply raise_if_ok in Hn.
  destruct (zn _) as [z|]; [|done]. apply rbind_ok in H as (starts & Hs%of_sched_ok & [= <-]). apply resolved_spec in Hs as (Hl & _).
  split; cbn; [by apply get_row_Some in Ev as [_ ?]|by eapply validate_settled| |done].
  apply Bool.negb_false_iff, Nat.eqb_eq in Hn. done.
Qed.

Lemma deadlines_length z target times grace gap maximum ds :
  slot_deadlines z target times grace gap maximum = Ok ds → length ds = length times.
Proof.
  unfold slot_deadlines. intros (_ & _ & (sch & Hv & (st & Hs & (nd & _ & H)%rbind_ok)%rbind_ok)%rbind_ok)%rbind_ok.
  destruct nd as [|first nd]; [done|]. injection H as <-. apply resolved_spec in Hs as (Hl & Hne & _). apply validate_accepted in Hv.
  pose proof (acc_perm _ _ _ _ Hv) as Hp. apply Permutation_length in Hp. rewrite length_map in Hp.
  rewrite length_map, length_app. destruct st; [done|]. cbn in *. lia.
Qed.

Lemma slot_plans_releases times ids starts deadlines :
  length ids = length times → length starts = length times → length deadlines = length times →
  map sp_release (slot_plans times ids starts deadlines) = ids.
Proof.
  revert ids starts deadlines. induction times as [|t times IH]; intros [|r ids] [|a starts] [|b ds]; try done. cbn. intros. f_equal. apply IH; lia.
Qed.

Definition row_of_plan (k d : str) (date : Z) (p : day_plan) (version : str) (s : ddb) : Prop :=
  ∃ o, o ∈ schedules s ∧ os_id o = k ∧ os_device o = d ∧ os_date o = date ∧ os_config o = v_config_version (dp_device p) ∧
    os_times o = JList (map JStr (dp_times p)) ∧ sn_playlist (os_snapshot o) = Some version.

Lemma times_of_strings l : times_of (JList (map JStr l)) = Some l.
Proof. cbn. f_equal. rewrite map_map. apply map_id. Qed.

Lemma upsert_spec k p d date now version existing s s' :
  upsert_schedule k p date now version existing s = Ok s' → existing = find_schedule d date (v_config_version (dp_device p)) s →
  (∀ o, existing = Some o → os_id o = k) → v_id (dp_device p) = d → playlist_inv nobody s →
  playlist_inv (λ x, x = k) s' ∧ slots s' = slots s ∧ row_of_plan k d date p version s'.
Proof.
  unfold upsert_schedule. intros H Hex Hk Hd I. apply (inv_weaken _ (λ x, x = k)) in I; [|done].
  destruct existing as [o|].
  - pose proof (Hk o eq_refl) as Eo. injection H as <-. symmetry in Hex. apply find_where_Some in Hex as [Hin Hkey].
    unfold schedule_key in Hkey. bprop. destruct Hkey as [[E1 E2] E3]. split_and!; [|done|].
    + eapply (inv_schedules _ s); [reflexivity|done|by apply carries_same| |exact I]. intros x _ E. unfold by_key in E. bprop. left.
      split; [congruence|done].
    + eexists. split; [apply update_where_elem; exists o; split; [done|reflexivity]|]. unfold by_key. rewrite str_eqb_refl. cbn. done.
  - assert (playlist_inv (λ x, x = k) s') as I' by (eapply inv_insert_schedule; [exact H|by left|exact I]). unfold insert_schedule in H.
    apply rbind_ok in H as (_ & _ & [= <-]). split_and!; [done|done|]. eexists. split; [apply elem_of_app; right; left|]. by cbn.
Qed.

Lemma store_day_inv f p d date ids version existing now s k s' :
  store_day f p d date ids version existing now s = Ok (k, s') → planned d ids p →
  existing = find_schedule d date (v_config_version (dp_device p)) s →
  version = playlist_version (mk_playlist d (date_text date) (v_config_version (dp_device p)) (dp_times p) ids) →
  playlist_inv nobody s → playlist_inv nobody s'.
Proof.
  unfold store_day. set (k0 := match existing with Some o => os_id o | None => id_schedule f end). intros H [P1 P2 P3 P4] Hex Hver I.
  apply rbind_ok in H as (s1 & H1 & H). destruct (upsert_spec _ _ d _ _ _ _ _ _ H1 Hex) as (I1 & E1 & R1); [|done|done|].
  { intros o ->. done. }
  set (s2 := s1 <| slots := _ |>) in H. assert (playlist_inv (λ x, x = k0) s2) as I2 by (by apply inv_drop_slots).
  assert (slots_of k0 s2 = []) as N2 by (unfold s2; rewrite (slots_of_drop k0 k0 s1) by done; by rewrite str_eqb_refl).
  assert (row_of_plan k0 d date p version s2) as R2 by exact R1. clearbody s2. clear R1 I1 H1 E1 s1.
  destruct (_supersede_previous_schedule_items d date k0 now s2) as [c s3] eqn:E3.
  destruct (supersede_spec _ _ _ _ _ _ _ _ E3 I2) as (I3 & S3 & V3 & K3). destruct R2 as (o & Ho & Ek & Ed & Et & Ec & Eti & En).
  specialize (K3 o Ho Ek). destruct (day_queue d _ now s3) as [q s4] eqn:E4.
  assert (slots s4 = slots s3 ∧ schedules s4 = schedules s3 ∧ items s4 = items s3) as (S4 & O4 & J4).
  { unfold day_queue in E4. destruct (get_queue d s3); by injection E4 as <- <-. }
  assert (playlist_inv (λ x, x = k0) s4) as I4 by (eapply inv_carried; [by apply carries_same|done..]).
  apply rbind_ok in H as (_ & _ & (dl & Hdl%of_sched_ok & (s5 & H5 & (_ & _ & H)%rbind_ok)%rbind_ok)%rbind_ok). injection H as _ <-.
  destruct (place_slots_spec (λ x, x = k0) _ _ _ _ _ _ _ _ _ _ _ _ H5) as (I5 & O5 & new & S5 & M5 & F5 & _ & G5); [done| |done|].
  { exists o. rewrite O4. done. }
  apply deadlines_length in Hdl. rewrite slot_plans_releases in M5 by (congruence || lia).
  assert (slots_of k0 s5 = new) as N5.
  { unfold slots_of. rewrite S5, S4, S3, List.filter_app. unfold slots_of in N2.
    assert (List.filter (λ x, str_eqb (sl_schedule x) k0) (slots s2) = []) as ->.
    { apply (f_equal length) in N2. rewrite sort_by_length in N2. by apply nil_length_inv in N2. }
    assert (List.filter (λ x, str_eqb (sl_schedule x) k0) new = new) as ->.
    { clear -F5. induction F5 as [|x l E _ IH]; [done|]. cbn. rewrite E, str_eqb_refl. by f_equal. }
    by apply sort_by_fix. }
  set (s7 := update_schedule k0 _ _). assert (playlist_inv nobody s7) as I7.
  { eapply (inv_finish k0 d date _ s5); [exact I5| |by rewrite O5, O4|reflexivity|done|done|by intros x].
    exists o. rewrite O5, O4. split_and!; try done. exists (dp_times p). rewrite Ek, N5, Eti, times_of_strings. split_and!; try done.
    - rewrite <- P3, <- M5. apply length_map.
    - rewrite En, Hver, M5. unfold playlist_of. by rewrite Ed, Et, Ec. }
  destruct (_is_future_item _ _); [exact I7|]. apply (inv_carried _ s7); [by apply carries_same|done|done|exact I7].
Qed.

Lemma prepare_day_inv zn w f d date rs ex now s v s' :
  prepare_day zn w f d date rs ex now s = Ok (v, s') → playlist_inv nobody s → playlist_inv nobody s'.
Proof.
  unfold prepare_day. intros (_ & _ & (_ & _ & (_ & _ & (p & Hp%plan_day_spec & H)%rbind_ok)%rbind_ok)%rbind_ok)%rbind_ok.
  destruct (find_schedule _ _ _ _) as [o|] eqn:Ef; [destruct (sstatus_in [SReady] o)|].
  - apply rbind_ok in H as ([x|] & _ & H); [|done]. destruct (str_eqb _ _); [by injection H as <- <-|done].
  - apply rbind_ok in H as ([k s1] & H1 & [= <- <-]). by eapply store_day_inv.
  - apply rbind_ok in H as ([k s1] & H1 & [= <- <-]). by eapply store_day_inv.
Qed.

(** ** Replacing a slot *)

Lemma slots_of_update k p f s s' :
  slots s' = update_where p f (slots s) → (∀ x, sl_schedule (f x) = sl_schedule x) → length (slots_of k s') = length (slots_of k s).
Proof.
  intros E H. unfold slots_of. rewrite !sort_by_length, E. rewrite (update_where_filter (λ x, str_eqb (sl_schedule x) k)) by (intros r; destruct (p r); [by rewrite H|done]).
  apply update_where_length.
Qed.

Lemma slots_of_update_other k p f s s' :
  slots s' = update_where p f (slots s) → (∀ x, sl_schedule (f x) = sl_schedule x) → (∀ x, p x = true → sl_schedule x ≠ k) →
  slots_of k s' = slots_of k s.
Proof.
  intros E H Hp. unfold slots_of. rewrite E, (update_where_filter (λ x, str_eqb (sl_schedule x) k)) by (intros r; destruct (p r); [by rewrite H|done]).
  f_equal. apply update_where_none, existsb_none. intros x [_ Hx]%filter_elem. destruct (p x) eqn:Ep; [|done]. apply Hp in Ep. bprop. done.
Qed.

Lemma inv_swap k d x i release sha now s s' :
  x ∈ slots s → sl_schedule x = k → i ∈ items s → qi_id i = sl_item x → qi_device i = d → status_in [QPending; QReady] i = true →
  keys_unique qi_id (items s) →
  items s' = update_where (λ i, str_eqb (qi_id i) (sl_item x) && of_device d i && status_in [QPending; QReady] i)
               (λ i, i <| qi_release := release |> <| qi_error := None |> <| qi_retry := 0 |> <| qi_updated := now |>) (items s) →
  slots s' = update_where (λ y, str_eqb (sl_id y) (sl_id x) && str_eqb (sl_schedule y) k)
               (λ y, y <| sl_release := release |> <| sl_sha := sha |>) (slots s) →
  schedules s' = schedules s → playlist_inv (λ z, z = k) s → playlist_inv (λ z, z = k) s'.
Proof.
  intros Hx Ek Hi Ei Ed Est U Ej Es Eo [I1 I2 I3 I4 I5 I6].
  set (p := λ i, str_eqb (qi_id i) (sl_item x) && of_device d i && status_in [QPending; QReady] i) in *.
  assert (p i = true) as Hpi by (unfold p, of_device; by rewrite Ei, Ed, !str_eqb_refl, Est).
  split; rewrite ?Eo, ?Es; try done.
  - by apply keys_unique_update.
  - by rewrite update_where_map.
  - intros y' (y & Hy & ->)%update_where_elem. destruct (I5 y Hy) as (j & Hj & E1 & E2 & E3 & E4 & o & Ho & E5 & E6).
    destruct (str_eqb (sl_id y) (sl_id x) && str_eqb (sl_schedule y) k) eqn:Ey.
    + bprop. destruct Ey as [Ey _]. assert (y = x) as -> by (by eapply (keys_unique_inj sl_id)).
      assert (j = i) as -> by (eapply (keys_unique_inj qi_id); [exact U|done..|congruence]).
      exists (i <| qi_release := release |> <| qi_error := None |> <| qi_retry := 0 |> <| qi_updated := now |>). split.
      * rewrite Ej. apply update_where_elem. exists i. by rewrite Hpi.
      * split_and!; try done. exists o. rewrite Eo. done.
    + exists j. split_and!; try done; [|exists o; rewrite Eo; done]. rewrite Ej. apply update_where_elem. exists j. split; [done|].
      destruct (p j) eqn:Epj; [|done]. exfalso. unfold p in Epj. rewrite !Bool.andb_true_iff, str_eqb_eq in Epj. destruct Epj as [[Epj _] _].
      assert (y = x) as -> by (apply (NoDup_map_inj sl_item (slots s)); [done..|congruence]).
      by rewrite Ek, !str_eqb_refl in Ey.
  - intros o Ho Hr N. apply (versioned_same s); [|by apply I6]. eapply slots_of_update_other; [exact Es|done|].
    intros y Hy E. bprop. destruct Hy as [_ Hy]. apply N. congruence.
Qed.

Lemma update_where_id {A} (p : A → bool) l : update_where p id l = l.
Proof. unfold update_where. rewrite <- (map_id l) at 2. apply map_ext. intros x. by destruct (p x). Qed.

Lemma swap_inv o x i maximum release sha now s s' :
  swap_release o x maximum release sha now s = Ok s' → keys_unique qi_id (items s) → o ∈ schedules s → os_status o = SReady → x ∈ slots s →
  sl_schedule x = os_id o → i ∈ items s → qi_id i = sl_item x → qi_device i = os_device o → status_in [QPending; QReady] i = true →
  playlist_inv nobody s → playlist_inv nobody s'.
Proof.
  intros H U Ho Hr Hx Ek Hi Ei Ed Est I. unfold swap_release in H. set (s1 := set_with slots _ (set_with items _ s)) in H.
  assert (playlist_inv (λ z, z = os_id o) s1) as I1.
  { eapply (inv_swap (os_id o) (os_device o) x i release sha now s); [done..|]. by eapply (inv_weaken nobody). }
  destruct (pi_version _ _ I o Ho Hr) as (times & T1 & T2 & T3 & T4); [by intros []|]. rewrite T1 in H.
  apply rbind_ok in H as (ts & Hts%of_sched_ok & [= <-]). pose proof (settled_validate _ _ _ _ Hts T2) as ->.
  set (s2 := update_schedule _ _ s1). set (s3 := update_queue _ _ s2). apply (inv_carried _ s2); [by apply carries_same|done|done|].
  eapply (inv_finish (os_id o) (os_device o) (os_date o) id s2); [| | |by rewrite update_where_id|done|done|done].
  - eapply (inv_schedules _ s1); [reflexivity|done|by apply carries_same| |exact I1]. intros y _ E. unfold by_key in E. bprop. by left.
  - eexists. split; [apply update_where_elem; exists o; split; [exact Ho|reflexivity]|]. unfold by_key. rewrite str_eqb_refl. split_and!; try done.
    exists times. split_and!; try done. rewrite T3. symmetry. by eapply (slots_of_update (os_id o) _ _ s s2).
  - intros y (z & Hz & ->)%update_where_elem. destruct (rival _ _ _ _) eqn:Er; [|done]. exfalso. unfold rival, by_key in Er.
    destruct (str_eqb (os_id z) (os_id o)) eqn:Ez; [cbn in Er; by rewrite Ez, Bool.andb_false_r in Er|]. rewrite Ez in Er. bprop.
    destruct Er as [[[Er1 Er2] _] Er3]. unfold sstatus_in in Er3. apply bool_decide_eq_true in Er3. apply Ez.
    apply (pi_one _ _ I z o); [done|done|done|done| |by right|by intros []|by intros []]. rewrite !elem_of_cons in Er3. destruct Er3 as [?|[?|Er3]]; [by left|by right|inversion Er3].
Qed.

Lemma replace_slot_inv d k n r ex now s v s' :
  keys_unique qi_id (items s) → replace_slot d k n r ex now s = Ok (v, s') → playlist_inv nobody s → playlist_inv nobody s'.
Proof.
  intros U. unfold replace_slot. intros (_ & _ & (_ & _ & H)%rbind_ok)%rbind_ok.
  destruct (find_where _ (schedules s)) as [o|] eqn:Eo; [|done]. destruct (enabled_device d s) as [dv|]; [|done].
  apply rbind_ok in H as (_ & _ & (_ & _ & H)%rbind_ok). destruct (find_where _ (slots s)) as [x|] eqn:Ex; [|done].
  destruct (find_where _ (items s)) as [i|] eqn:Ei; [|done]. apply rbind_ok in H as (u0 & Hst & (_ & _ & H)%rbind_ok).
  destruct (str_eqb _ _); [by injection H as <- <-|]. destruct (usable_release _ _ _); [|done].
  apply rbind_ok in H as (_ & _ & (e & _ & (s1 & H1 & [= <- <-])%rbind_ok)%rbind_ok).
  apply find_where_Some in Eo as [Ho Eo], Ex as [Hx Ex], Ei as [Hi Ei]. apply raise_if_ok in Hst. unfold of_device, sstatus_in in *.
  rewrite !Bool.andb_true_iff, ?str_eqb_eq, ?bool_decide_eq_true in *. destruct Eo as [[Eo1 Eo2] Eo3], Ex as [Ex _], Ei as [Ei1 Ei2].
  eapply swap_inv; [exact H1|exact U|done|by apply list_elem_of_singleton in Eo3|done|congruence|exact Hi|done|congruence|].
  by apply Bool.negb_false_iff in Hst.
Qed.

(** ** Failed preparations *)

Lemma update_schedule_inv k f s :
  (∀ o, o ∈ schedules s → os_id o = k → settles o (f o)) → playlist_inv nobody s → playlist_inv nobody (update_schedule k f s).
Proof.
  intros H. apply (inv_schedules nobody s _ (by_key os_id k) f); [done|done|by apply carries_same|]. intros o Ho E. right. unfold by_key in E. bprop. auto.
Qed.

Lemma postpone_inv d c t s : playlist_inv nobody s → playlist_inv nobody (postpone d c t s).
Proof. by apply inv_carried; [apply carries_same|..]. Qed.

Lemma found_schedule d date config s o x :
  playlist_inv nobody s → find_schedule d date config s = Some o → x ∈ schedules s → os_id x = os_id o → x = o.
Proof. intros I [Ho _]%find_where_Some Hx E. eapply (keys_unique_inj os_id); [apply I|done..]. Qed.

Lemma failed_settles o o' :
  os_status o' = SFailed → os_id o' = os_id o → os_device o' = os_device o → os_date o' = os_date o → settles o o'.
Proof. intros Ef E1 E2 E3. constructor; try done; [intros [?|?]; congruence|congruence]. Qed.

Lemma record_transient_inv fresh d date config now s r s' :
  record_transient_exhausted fresh d date config now s = Ok (r, s') → playlist_inv nobody s → playlist_inv nobody s'.
Proof.
  unfold record_transient_exhausted. intros H I. destruct (find_schedule _ _ _ _) as [o|].
  - destruct (sstatus_in [SReady] o); [by injection H as <- <-|]. apply rbind_ok in H as (_ & _ & [= <- <-]).
    apply postpone_inv, update_schedule_inv; [|done]. intros. by apply failed_settles.
  - destruct (enabled_device d s); [|done]. apply rbind_ok in H as (_ & _ & (s1 & H1 & [= <- <-])%rbind_ok).
    apply postpone_inv. eapply inv_insert_schedule; [exact H1| |done]. right. by intros [?|?].
Qed.

Lemma record_terminal_inv fresh d date config code now s r s' :
  record_terminal_outcome fresh d date config code now s = Ok (r, s') → playlist_inv nobody s → playlist_inv nobody s'.
Proof.
  unfold record_terminal_outcome. intros (_ & _ & H)%rbind_ok I. destruct (enabled_device d s); [|done].
  apply rbind_ok in H as (_ & _ & H). destruct (find_schedule _ _ _ _) as [o|].
  - destruct (sstatus_in [SReady] o); injection H as <- <-; [done|]. apply postpone_inv, update_schedule_inv; [|done].
    intros. by apply failed_settles.
  - apply rbind_ok in H as (s1 & H1 & [= <- <-]). apply postpone_inv. eapply inv_insert_schedule; [exact H1| |done]. right. by intros [?|?].
Qed.

Lemma clear_transient_inv d date config s : playlist_inv nobody s → playlist_inv nobody (clear_transient_recovery d date config s).
Proof.
  intros I. unfold clear_transient_recovery. destruct (find_schedule _ _ _ _) as [o|] eqn:E; [|done]. apply update_schedule_inv; [|done].
  intros x Hx Ex. rewrite (found_schedule _ _ _ _ _ _ I E Hx Ex). by constructor.
Qed.

Lemma claim_retry_inv t d date config now after s b s' :
  claim_terminal_outcome_retry t d date config now after s = (b, s') → playlist_inv nobody s → playlist_inv nobody s'.
Proof.
  unfold claim_terminal_outcome_retry. intros H I. destruct t as [t|]; [|by injection H as <- <-]. destruct (_ || _); [by injection H as <- <-|].
  destruct (existsb _ _); injection H as <- <-; [|done]. apply postpone_inv.
  eapply (inv_schedules nobody s); [reflexivity|done|by apply carries_same| |done]. intros o _ _. right. by constructor.
Qed.

(** ** Runs *)

Section playlists.
Context (py_str : json → str) (zone_named : str → option zone).

Lemma apply_inv r s : wf s → playlist_inv nobody s → playlist_inv nobody (apply py_str zone_named r s).
Proof.
  intros W I. destruct (on_playlists r) eqn:Ep.
  2: { assert (good false s (apply py_str zone_named r s)) as G by (apply good_apply; congruence).
       destruct (carries_steps _ _ (G W)) as (C & E1 & E2). by apply (inv_carried _ s). }
  destruct r; try done; clear Ep; simpl; unfold state_of;
    try (match goal with |- context [match ?x with Ok _ => _ | Raise _ => _ end] => destruct x as [[a0 s']|] eqn:H end; [|done]).
  - by eapply prepare_day_inv.
  - eapply replace_slot_inv; [apply W|done..].
  - by eapply record_transient_inv.
  - by apply clear_transient_inv.
  - by eapply record_terminal_inv.
  - destruct (claim_terminal_outcome_retry _ _ _ _ _ _ _) as [b s'] eqn:E. by eapply claim_retry_inv.
Qed.

Lemma playlists_run_inv rs s : wf s → playlist_inv nobody s → playlist_inv nobody (run py_str zone_named rs s).
Proof.
  unfold run. revert s. induction rs as [|r rs IH]; intros s W I; cbn; [done|]. apply IH; [|by apply apply_inv].
  eapply wf_steps; [exact W|]. by apply (good_apply py_str zone_named true).
Qed.

(** C16. Whatever is asked, in any order: a frame has at most one live
    playlist for a day, so that preparing a day again, with new settings,
    leaves exactly one playlist to download; and every slot of a playlist has
    a queue item of its own, of that frame and playlist, that delivers the
    very release the slot announces, also after slots were replaced. *)
Theorem playlists_match_their_queue rs s :
  wf s → playlist_inv nobody s →
  let s' := run py_str zone_named rs s in
  (∀ o1 o2, o1 ∈ schedules s' → o2 ∈ schedules s' → os_device o1 = os_device o2 → os_date o1 = os_date o2 →
     live_schedule o1 → live_schedule o2 → o1 = o2) ∧
  (∀ x, x ∈ slots s' → linked s' x) ∧ NoDup (map sl_item (slots s')).
Proof.
  intros W I s'. destruct (playlists_run_inv rs s W I) as [I1 I2 I3 I4 I5 I6]. split_and!; [|done|done].
  intros o1 o2 H1 H2 Ed Et L1 L2. apply (keys_unique_inj os_id (schedules s')); [done..|]. apply I2; try done; by intros [].
Qed.

(** C17. The version a frame compares to learn whether its playlist changed
    is, for every ready playlist at every time, the digest of what the
    playlist holds now: device, day, configuration, times and the releases of
    its slots in order, one per time. *)
Theorem version_names_content rs s o :
  let s' := run py_str zone_named rs s in
  wf s → playlist_inv nobody s → o ∈ schedules s' → os_status o = SReady →
  ∃ times, times_of (os_times o) = Some times ∧ length times = length (slots_of (os_id o) s') ∧
    sn_playlist (os_snapshot o) = Some (playlist_version (playlist_of o times (map sl_release (slots_of (os_id o) s')))).
Proof.
  intros s' W I Ho Hr. destruct (pi_version _ _ (playlists_run_inv rs s W I) o Ho Hr) as (times & E1 & _ & E2 & E3); [by intros []|]. by exists times.
Qed.
End playlists.
