(* ===== verification/PlaylistText.v ===== *)
(** * The text a playlist's version digests

    [playlist_text] is the canonical JSON that [playlist_version] hashes.  It
    can be read back: decimal numbers, escaped texts and lists of texts are
    uniquely decodable where they end, so two playlists with the same text are
    the same playlist. *)

From S2P Require Import Prelude PyStr Json Sha256 OfflineStore.
Local Open Scope Z_scope.

(** ** Numbers *)

Definition step (a c : Z) : Z := 10 * a + (c - 48).
Definition value (s : str) : Z := fold_left step s 0.
Definition decimal (s : str) : Prop := Forall (λ c, 48 ≤ c ≤ 57) s.

Lemma z_digits_value fuel n acc : 0 ≤ n < 2 ^ Z.of_nat fuel → value (z_digits fuel n acc) = fold_left step acc n.
Proof.
  unfold value. revert n acc. induction fuel as [|f IH]; intros n acc Hn; cbn [z_digits].
  { change (2 ^ Z.of_nat 0) with 1 in Hn. by assert (n = 0) as -> by lia. }
  rewrite Nat2Z.inj_succ, Z.pow_succ_r in Hn by lia. destruct (n <? 10) eqn:E.
  - cbn. f_equal. unfold step, digit. lia.
  - bprop. pose proof (Z.div_mod n 10 ltac:(lia)). pose proof (Z.mod_pos_bound n 10 ltac:(lia)). rewrite IH by lia. cbn. f_equal.
    unfold step, digit. lia.
Qed.

Lemma z_digits_decimal fuel n acc : 0 ≤ n → decimal acc → decimal (z_digits fuel n acc).
Proof.
  unfold decimal. revert n acc. induction fuel as [|f IH]; intros n acc Hn Ha; cbn [z_digits]; [done|]. destruct (n <? 10) eqn:E; bprop.
  - constructor; [unfold digit; lia|done].
  - pose proof (Z.mod_pos_bound n 10 ltac:(lia)). apply IH; [apply Z.div_pos; lia|]. constructor; [unfold digit; lia|done].
Qed.

Lemma z_str_value n : 0 ≤ n → value (z_str n) = n.
Proof.
  intros Hn. unfold z_str. rewrite z_digits_value; [done|]. split; [done|].
  destruct (decide (n = 0)) as [->|]; [done|]. rewrite Nat2Z.inj_succ, Z2Nat.id by apply Z.log2_nonneg. apply Z.log2_spec. lia.
Qed.

Lemma z_str_decimal n : 0 ≤ n → decimal (z_str n).
Proof. intros. by apply z_digits_decimal; [|constructor]. Qed.

(** Two texts with one delimiter each. *)
Lemma delimited_inj (c : Z) a b x y : c ∉ a → c ∉ b → a ++ c :: x = b ++ c :: y → a = b ∧ x = y.
Proof.
  revert b. induction a as [|p a IH]; intros [|q b] Ha Hb E; cbn in E.
  - by injection E as ->.
  - injection E as -> _. exfalso. apply Hb. left.
  - injection E as -> _. exfalso. apply Ha. left.
  - injection E as -> E. rewrite not_elem_of_cons in Ha, Hb. destruct (IH b) as [-> ->]; try done; tauto.
Qed.

Lemma decimal_no c s : c < 48 → decimal s → c ∉ s.
Proof. intros Hc Hd Hin. eapply Forall_forall in Hd; [|exact Hin]. cbn in Hd. lia. Qed.

Lemma json_integer_no n : 44 ∉ json_integer n.
Proof.
  unfold json_integer. destruct (n <? 0) eqn:E; bprop.
  - rewrite not_elem_of_cons. split; [lia|]. apply decimal_no; [lia|]. apply z_str_decimal. lia.
  - apply decimal_no; [lia|]. apply z_str_decimal. lia.
Qed.

Lemma json_integer_inj n m : json_integer n = json_integer m → n = m.
Proof.
  unfold json_integer. destruct (n <? 0) eqn:E1, (m <? 0) eqn:E2; bprop; intros H.
  - injection H as H. apply (f_equal value) in H. rewrite !z_str_value in H by lia. lia.
  - pose proof (z_str_decimal m ltac:(lia)) as Hd. rewrite <- H in Hd. inversion_clear Hd. lia.
  - pose proof (z_str_decimal n ltac:(lia)) as Hd. rewrite H in Hd. inversion_clear Hd. lia.
  - apply (f_equal value) in H. rewrite !z_str_value in H by lia. lia.
Qed.

Lemma json_integer_end n m x y : json_integer n ++ 44 :: x = json_integer m ++ 44 :: y → n = m ∧ x = y.
Proof. intros H. apply delimited_inj in H as [H ->]; [|apply json_integer_no..]. split; [by apply json_integer_inj|done]. Qed.

(** ** Texts *)

Lemma hex_digit_inj a b : 0 ≤ a < 16 → 0 ≤ b < 16 → hex_digit a = hex_digit b → a = b.
Proof. unfold hex_digit. intros. destruct (a <? 10) eqn:E1, (b <? 10) eqn:E2; bprop; lia. Qed.

Lemma hex2_inj a b : 0 ≤ a < 32 → 0 ≤ b < 32 → hex2 a = hex2 b → a = b.
Proof.
  unfold hex2. intros Ha Hb [= E1 E2]. pose proof (Z.mod_pos_bound a 16 ltac:(lia)). pose proof (Z.mod_pos_bound b 16 ltac:(lia)).
  pose proof (Z.div_mod a 16 ltac:(lia)). pose proof (Z.div_mod b 16 ltac:(lia)). apply hex_digit_inj in E1, E2; lia.
Qed.

(** The one-character escapes, the control characters and the rest. *)
Inductive escaped (c : Z) : str → Prop :=
| EPlain : c ≠ 34 → c ≠ 92 → escaped c [c]
| EShort e : (c, e) ∈ [(34, 34); (92, 92); (10, 110); (13, 114); (9, 116); (12, 102); (8, 98)] → escaped c [92; e]
| EControl : 0 ≤ c < 32 → escaped c ([92; 117; 48; 48] ++ hex2 c).

Lemma json_escape_cases c : escaped c (json_escape c).
Proof.
  unfold json_escape.
  repeat match goal with |- context [c =? ?n] => destruct (c =? n) eqn:?; bprop; [subst c; apply EShort; rewrite !elem_of_cons; tauto|] end.
  destruct ((0 <=? c) && (c <? 32)) eqn:E; bprop; [by apply EControl|]. by apply EPlain.
Qed.

Lemma short_inj c d e : (c, e) ∈ [(34, 34); (92, 92); (10, 110); (13, 114); (9, 116); (12, 102); (8, 98)] →
  (d, e) ∈ [(34, 34); (92, 92); (10, 110); (13, 114); (9, 116); (12, 102); (8, 98)] → c = d ∧ e ≠ 117.
Proof.
  rewrite !elem_of_cons, !elem_of_nil. intros H1 H2.
  repeat match goal with H : _ ∨ _ |- _ => destruct H as [H|H] end; try done; injection H1 as -> ->; injection H2 as ->; done.
Qed.

Lemma json_escape_inj c d x y : json_escape c ++ x = json_escape d ++ y → c = d ∧ x = y.
Proof.
  destruct (json_escape_cases c) as [|e1 H1|H1], (json_escape_cases d) as [|e2 H2|H2]; cbn; intros HE; try (injection HE; intros; subst; done).
  - injection HE as -> ->. destruct (short_inj _ _ _ H1 H2) as [-> _]. done.
  - injection HE as -> _. by destruct (short_inj _ _ _ H1 H1).
  - injection HE as <- _. by destruct (short_inj _ _ _ H2 H2).
  - injection HE as E1 E2 ->. split; [|done]. apply hex2_inj; [done..|]. unfold hex2. congruence.
Qed.

Lemma json_escape_open c x y : json_escape c ++ x = 34 :: y → False.
Proof. destruct (json_escape_cases c); cbn; intros [= E]; lia. Qed.

Lemma escapes_inj a b x y : concat (map json_escape a) ++ 34 :: x = concat (map json_escape b) ++ 34 :: y → a = b ∧ x = y.
Proof.
  revert b. induction a as [|c a IH]; intros [|d b]; cbn [map concat]; rewrite ?app_nil_l, <- ?app_assoc; intros H.
  - by injection H as ->.
  - symmetry in H. by apply json_escape_open in H.
  - by apply json_escape_open in H.
  - apply json_escape_inj in H as [-> H]. apply IH in H as [-> ->]. done.
Qed.

Lemma json_text_end a b x y : json_text a ++ x = json_text b ++ y → a = b ∧ x = y.
Proof. unfold json_text. rewrite <- !app_assoc. cbn. intros [= H]. by apply escapes_inj in H. Qed.

Lemma json_text_open a x c y : json_text a ++ x = c :: y → c = 34.
Proof. unfold json_text. cbn. congruence. Qed.

Lemma json_items_end a b x y : json_items a ++ 93 :: x = json_items b ++ 93 :: y → a = b ∧ x = y.
Proof.
  revert b. induction a as [|s [|s' a] IH]; intros [|t [|t' b]]; cbn [json_items]; rewrite ?app_nil_l, <- ?app_assoc; intros H.
  1: by injection H as ->.
  all: try (symmetry in H; by apply json_text_open in H).
  all: try (by apply json_text_open in H).
  all: apply json_text_end in H as [-> H]; try done.
  - by injection H as ->.
  - injection H as H. apply (IH (t' :: b)) in H as [[= -> ->] ->]. done.
Qed.

Lemma json_texts_end a b x y : json_texts a ++ x = json_texts b ++ y → a = b ∧ x = y.
Proof. unfold json_texts. rewrite <- !app_assoc. cbn. intros [= H]. by apply json_items_end in H. Qed.

(** C18. The text whose digest is a playlist's version determines the
    playlist: device, day, configuration, times and releases, whatever
    characters they contain.  Two different playlists therefore never share a
    version except by a collision of SHA-256. *)
Theorem playlist_text_injective p q : playlist_text p = playlist_text q ↔ p = q.
Proof.
  split; [|by intros ->]. destruct p as [d1 t1 c1 l1 r1], q as [d2 t2 c2 l2 r2]. unfold playlist_text. cbn [pl_config pl_device pl_releases pl_times pl_date].
  intros H. apply app_inv_head, app_inv_head, json_integer_end in H as [-> H]. apply app_inv_head, json_text_end in H as [-> H].
  apply app_inv_head, app_inv_head, json_texts_end in H as [-> H]. apply app_inv_head, app_inv_head, json_texts_end in H as [-> H].
  apply app_inv_head, app_inv_head, json_text_end in H as [-> _]. done.
Qed.
