(* ===== verification/DeliveryWitness.v ===== *)
(** * A concrete household

    Two frames, one online and one with offline playlists, and three
    releases.  The runs below queue a release, acknowledge it to the end, roll
    out another one and prepare and change a playlist; on them the properties
    of the delivery database are instantiated. *)

From stdpp Require Import relations.
From S2P Require Import Prelude PyStr PyFloat Json Sql Reservations OfflineSchedule Devices Delivery Rollouts ContentQueue OfflineStore OfflinePrepare OfflineRetry DeliveryLife DeliveryRuns DeliveryEvidence RolloutProps PlaylistProps.
Local Open Scope Z_scope.

Definition demo_config (offline : bool) : dconfig :=
  mk_dconfig (u "frame") (u "UTC") (u "08:00") 0 (u "panel-a") None None None
    (u (if offline then "inktime_offline_schedule" else "legacy_online")) offline JNull (if offline then 1 else 0)
    (JList [JStr (u "08:00"); JStr (u "20:00")]) 5 (u "check_new") 60 (u "first_display_lead") None None 12 (u "unknown_12") None.
Definition demo_auth : dauth := mk_dauth Automatic Paired 1 [] None None None None None.
Definition demo_device (k : string) (offline : bool) : device :=
  mk_device (u k) true (demo_config offline) demo_auth None None None 0 None 1 None None 0 0.

Definition digest64 : str := repeat 97 64.
Definition demo_manifest (photo : string) : json :=
  JObj [(u "files", JList [JObj [(u "name", JStr (u "frame.bin")); (u "size", JInt 192000); (u "sha256", JStr digest64);
                                 (u "source_photo_id", JStr (u photo))]])].
Definition demo_release (k : string) : release :=
  mk_release (u k) (u "published") (u "verified") (u "panel-a") (Some (demo_manifest "photo-1")).

Definition household : ddb :=
  mk_ddb [demo_device "hall" false; demo_device "attic" true] (map demo_release ["r1"; "r2"; "r3"; "r4"]%string) [u "photo-1"]
    [] [] [] [] [] [] [] [] [] [] [].

Definition no_text (j : json) : str := [].
Definition utc_only (k : str) : option zone := if str_eqb k (u "UTC") then Some fixed_zone else None.

#[local] Abbreviation demo_run rs := (run no_text utc_only rs household).

(** ** Requests *)

Definition ask_queue : request := EnsureQueue (u "hall") 3 (seconds 10).
Definition ask_enqueue (r id : string) (t : Z) : request :=
  Enqueue (mk_enqueue (u "hall") (u r) None 100 None None None (u "online_queue") false None None None None) (u id) (seconds t).
Definition ack_payload (event key item : string) (version : Z) : list (str * json) :=
  [(u "event", JStr (u event)); (u "queue_item_id", JStr (u item)); (u "idempotency_key", JStr (u key)); (u "queue_version", JInt version)].
Definition fresh_name (r d : str) : str := r ++ d.
Definition ack (event key : string) (t : Z) : request := Acknowledge fresh_name (u "hall") (ack_payload event key "item-1" 1) (seconds t).

Definition queued : list request := [ask_queue; ask_enqueue "r1" "item-1" 20].
Definition downloads : list request :=
  [ack "MANIFEST_RECEIVED" "k1" 30; ack "DOWNLOAD_STARTED" "k2" 31; ack "DOWNLOAD_COMPLETED" "k3" 32; ack "HASH_VERIFIED" "k4" 33].
Definition displays : list request := [ack "DISPLAY_STARTED" "k5" 34; ack "DISPLAY_COMPLETED" "k6" 35].
Definition shown_run : list request := queued ++ downloads ++ displays.

Definition start (r : string) : list request :=
  [CreateRollout (u r) (u "r2") (u "root") [] (seconds 40); StartRollout (fun d => u r ++ d) (u r) (u "root") (seconds 50)].
Definition rolled_back : list request := start "campaign" ++ [TransitionRollout (fun d => u "back" ++ d) (u "campaign") ROLLING_BACK (u "root") None (seconds 60)].

Definition weekly_off : weekly_settings := mk_weekly (Some false) None None.
Definition ids (k : string) : new_ids := mk_new_ids (u k) (λ n, u k ++ u "-item-" ++ z_str (Z.of_nat n)) (λ n, u k ++ u "-slot-" ++ z_str (Z.of_nat n)).
Definition prepare (k : string) (t : Z) (rs : list string) : request :=
  PrepareDay weekly_off (ids k) (u "attic") 100 (map u rs) None (seconds t).
Definition replace : request := ReplaceSlot (u "attic") (u "list-1") 1 (u "r3") None (seconds 200).

(** ** The empty household is well formed *)

Lemma household_wf : wf household.
Proof.
  split; try constructor; try (intros x Hx; inversion Hx; fail).
  intros r Hr. apply list_elem_of_fmap in Hr as (k & -> & Hk). cbn. rewrite !elem_of_cons in Hk.
  destruct Hk as [->|[->|[->|[->|Hk]]]]; [done..|inversion Hk].
Qed.

Lemma household_run_wf rs : wf (demo_run rs).
Proof. eapply (wf_steps (pl := true)); [apply household_wf|]. apply good_run, household_wf. Qed.

Lemma household_evidence : evidence household.
Proof. split; intros x Hx; inversion Hx. Qed.

Lemma household_rollouts : rollout_inv None household.
Proof.
  split; [constructor|constructor|intros t Hx|intros t st Hx|intros t i Hx|intros t Hx|intros t t2 Hx]; inversion Hx.
Qed.

Lemma household_playlists : playlist_inv nobody household.
Proof. split; [constructor|intros o o2 Hx|constructor|constructor|intros x Hx|intros o Hx]; inversion Hx. Qed.

(** ** Reading a run *)

Lemma exists_row {A} (l : list A) (p : A → bool) : existsb p l = true → ∃ x, x ∈ l ∧ p x = true.
Proof. intros H. by apply existsb_elem in H. Qed.

#[local] Abbreviation after rs s := (run no_text utc_only rs s).

(** ** The content queue *)

Lemma delivery_refines_protocol_witness :
  existsb on_playlists shown_run = false ∧ rtc (qstep (existsb on_playlists shown_run)) household (demo_run shown_run).
Proof. split; [reflexivity|]. exact (delivery_refines_protocol no_text utc_only shown_run household household_wf). Defined.

Lemma downloaded_check :
  existsb (λ i, status_in [QAcknowledged] i && existsb (λ e, str_eqb (qe_item e) (qi_id i)) (events (demo_run (queued ++ downloads))))
    (items (demo_run (queued ++ downloads))) = true.
Proof. vm_compute. reflexivity. Qed.


Lemma shown_check : existsb (λ q, bool_decide (cq_current_at q = Some (seconds 35))) (queues (demo_run shown_run)) = true.
Proof. vm_compute. reflexivity. Qed.

Lemma queue_never_goes_back_witness :
  ∃ q q', q ∈ queues (demo_run shown_run) ∧ cq_current_at q = Some (seconds 35) ∧
    q' ∈ queues (after (start "campaign") (demo_run shown_run)) ∧ cq_device q' = cq_device q ∧ cq_version q ≤ cq_version q' ∧
    ∀ t, cq_current_at q = Some t → ∃ t', cq_current_at q' = Some t' ∧ t ≤ t'.
Proof.
  destruct (exists_row _ _ shown_check) as (q & Hq & Ht). apply bool_decide_eq_true in Ht.
  destruct (queue_never_goes_back no_text utc_only (start "campaign") (demo_run shown_run) q (household_run_wf _) Hq) as (q' & H).
  exists q, q'. exact (conj Hq (conj Ht H)).
Defined.

Lemma displays_rest_on_evidence_witness :
  existsb (status_in [QDisplayed]) (items (demo_run shown_run)) = true ∧
  (∀ i, i ∈ items (demo_run shown_run) → qi_status i = QDisplayed →
     is_Some (qi_displayed i) ∧ about (qi_id i) [Ack HASH_VERIFIED] (demo_run shown_run)) ∧
  (∀ q t, q ∈ queues (demo_run shown_run) → cq_current_at q = Some t →
     ∃ i, i ∈ items (demo_run shown_run) ∧ qi_device i = cq_device q ∧ cq_current q = Some (qi_release i) ∧
       is_Some (qi_downloaded i) ∧ is_Some (qi_displayed i) ∧ about (qi_id i) [Ack DISPLAY_COMPLETED] (demo_run shown_run)) ∧
  ∃ l, events (demo_run shown_run) = events household ++ l ∧ pointer_from household (demo_run shown_run) l.
Proof.
  split; [vm_compute; reflexivity|].
  exact (displays_rest_on_evidence no_text utc_only shown_run household household_wf household_evidence).
Defined.

#[local] Abbreviation before_display := (demo_run (queued ++ downloads ++ [ack "DISPLAY_STARTED" "k5" 34])).
#[local] Abbreviation display_payload := (ack_payload "DISPLAY_COMPLETED" "k6" "item-1" 1).
#[local] Abbreviation display_result := (queue_ack no_text fresh_name (u "hall") display_payload (seconds 35) before_display).

Definition accepted_reply (r : result dl_exn (ack_reply * ddb)) : bool := match r with Ok (AckCommitted false, _) => true | _ => false end.
Lemma display_check : accepted_reply display_result = true.
Proof. vm_compute. reflexivity. Qed.
Lemma accepted_state r : accepted_reply r = true → ∃ s', r = Ok (AckCommitted false, s').
Proof. destruct r as [[[|[|]] s']|]; try done. by exists s'. Qed.


(** ** Rollouts *)

Definition revive : list request :=
  [TransitionRollout (λ d, u "new" ++ d) (u "campaign") CANARY (u "root") None (seconds 70); EvaluateRollouts fresh_name (seconds 80) 50].

Lemma household_run_rollouts rs : rollout_inv None (demo_run rs).
Proof. apply (kept_run no_text utc_only rs household household_wf household_rollouts). Qed.

Lemma failed_check : bool_decide (status_at (u "campaign") (demo_run rolled_back) = Some RFAILED) = true.
Proof. vm_compute. reflexivity. Qed.

Lemma finished_campaign_is_final_witness : status_at (u "campaign") (after revive (demo_run rolled_back)) = Some RFAILED.
Proof.
  apply (finished_campaign_is_final no_text utc_only revive (demo_run rolled_back) (u "campaign") RFAILED (household_run_wf _)
    (household_run_rollouts _)).
  - exact (proj1 (bool_decide_eq_true _) failed_check).
  - exact (proj1 (bool_decide_eq_true _) (eq_refl : bool_decide (RFAILED ∈ finished_statuses) = true)).
Defined.

(** Two campaigns for the same frames: the second start is refused. *)
Definition rivals : list request := start "one" ++ start "two".
Definition carried (t : target) (s : ddb) : bool :=
  negb (is_null (rt_item t)) && match status_at (rt_rollout t) s with Some st => bool_decide (st ∈ live_statuses) | None => false end.
Lemma carried_check : existsb (λ t, carried t (demo_run rivals)) (targets (demo_run rivals)) = true.
Proof. vm_compute. reflexivity. Qed.
Lemma carried_spec t s : carried t s = true → is_Some (rt_item t) ∧ live_at (rt_rollout t) s.
Proof.
  unfold carried, live_at. intros [Hi Hs]%Bool.andb_true_iff. split; [destruct (rt_item t); [by eexists|done]|].
  destruct (status_at _ s) as [st|]; [|done]. exists st. by apply bool_decide_eq_true in Hs.
Qed.

Lemma one_live_rollout_per_frame_witness :
  ∃ t, t ∈ targets (demo_run rivals) ∧ carried t (demo_run rivals) = true ∧
    ∀ t2, t2 ∈ targets (demo_run rivals) → rt_device t2 = rt_device t → carried t2 (demo_run rivals) = true → t = t2.
Proof.
  destruct (exists_row _ _ carried_check) as (t & Ht & Hc). exists t. split; [exact Ht|]. split; [exact Hc|]. intros t2 H2 Ed Hc2.
  destruct (carried_spec _ _ Hc) as [I1 L1], (carried_spec _ _ Hc2) as [I2 L2].
  exact (one_live_rollout_per_frame no_text utc_only rivals household t t2 household_wf household_rollouts Ht H2 (eq_sym Ed) I1 I2 L1 L2).
Defined.

(** ** Playlists *)

Definition playlist_requests : list request := [prepare "list-1" 100 ["r1"; "r2"]%string; replace].

Lemma playlists_match_their_queue_witness :
  length (slots (demo_run playlist_requests)) = 2%nat ∧
  (∀ o1 o2, o1 ∈ schedules (demo_run playlist_requests) → o2 ∈ schedules (demo_run playlist_requests) → os_device o1 = os_device o2 →
     os_date o1 = os_date o2 → live_schedule o1 → live_schedule o2 → o1 = o2) ∧
  (∀ x, x ∈ slots (demo_run playlist_requests) → linked (demo_run playlist_requests) x) ∧
  NoDup (map sl_item (slots (demo_run playlist_requests))).
Proof.
  split; [vm_compute; reflexivity|].
  exact (playlists_match_their_queue no_text utc_only playlist_requests household household_wf household_playlists).
Defined.

Lemma ready_check : existsb (sstatus_in [SReady]) (schedules (demo_run playlist_requests)) = true.
Proof. vm_compute. reflexivity. Qed.
Lemma ready_spec o : sstatus_in [SReady] o = true → os_status o = SReady.
Proof. unfold sstatus_in. intros H%bool_decide_eq_true. by apply list_elem_of_singleton in H. Qed.

Lemma version_names_content_witness :
  ∃ o times, o ∈ schedules (demo_run playlist_requests) ∧ os_status o = SReady ∧ times_of (os_times o) = Some times ∧
    length times = length (slots_of (os_id o) (demo_run playlist_requests)) ∧
    sn_playlist (os_snapshot o) =
      Some (playlist_version (playlist_of o times (map sl_release (slots_of (os_id o) (demo_run playlist_requests))))).
Proof.
  destruct (exists_row _ _ ready_check) as (o & Ho & Hr). apply ready_spec in Hr.
  destruct (version_names_content no_text utc_only playlist_requests household o household_wf household_playlists Ho Hr) as (times & H).
  exists o, times. exact (conj Ho (conj Hr H)).
Defined.
