(* ===== verification/DeviceUpdateProps.v ===== *)
(** * What changing the settings of a frame does

    The exact effect of [update] on the queue of the frame, and that applying
    the same render inputs again changes nothing. *)

From S2P Require Import Prelude PyStr Json Sql Reservations OfflineSchedule OfflineScheduleProps Devices Delivery OfflineStore OfflinePrepare DeviceUpdate DeliveryLife DeliveryRuns PlaylistProps DeliveryWitness.
Local Open Scope Z_scope.

(** ** The superseded items *)

Definition cancelled (now : Z) (i : queue_item) : queue_item :=
  i <| qi_status := QCancelled |> <| qi_error := Some (u "QUEUE-005") |> <| qi_updated := now |>.

(** An item whose mode no longer fits the frame: after a change of an
    Enhanced frame its own playlists are stale as well. *)
Definition stale_mode (v v' : device) (i : queue_item) : bool :=
  if offline_device v' then negb (qi_offline i) || offline_device v else qi_offline i.

Definition superseded (d : str) (v v' : device) (now : Z) (i : queue_item) : bool :=
  of_device d i && stale_mode v v' i && negb (status_in terminal_statuses i) && _is_future_item (qi_display_after i) now.

Lemma cancelled_twice p q now l :
  (∀ i, q (cancelled now i) = q i) →
  update_where q (cancelled now) (update_where p (cancelled now) l) = update_where (λ i, p i || q i) (cancelled now) l.
Proof.
  intros H. unfold update_where. rewrite map_map. apply map_ext. intros i. destruct (p i); simpl; [rewrite H|done]. by destruct (q i).
Qed.

Lemma supersede_future_item_spec d o n kind tr now i s :
  let s' := supersede_future_item d o n kind tr now i s in
  items s' = update_where (by_key qi_id (qi_id i)) (cancelled now) (items s) ∧ devs s' = devs s ∧ queues s' = queues s.
Proof. intros s'. unfold s', supersede_future_item, ignore_event. by destruct (existsb _ _). Qed.

Lemma supersede_fold_spec d o n kind tr now l s :
  let s' := fold_left (λ s i, supersede_future_item d o n kind tr now i s) l s in
  items s' = update_where (λ i, str_in (qi_id i) (map qi_id l)) (cancelled now) (items s) ∧ devs s' = devs s ∧ queues s' = queues s.
Proof.
  revert s. induction l as [|i l IH]; intros s; cbn zeta; cbn [fold_left].
  { split_and!; [|done..]. symmetry. apply update_where_none. by apply existsb_none. }
  destruct (supersede_future_item_spec d o n kind tr now i s) as (E1 & E2 & E3).
  destruct (IH (supersede_future_item d o n kind tr now i s)) as (-> & -> & ->). rewrite E1, E2, E3, cancelled_twice by done.
  done.
Qed.

Lemma get_queue_update d f s : (∀ q, cq_device (f q) = cq_device q) → get_queue d (update_queue d f s) = f <$> get_queue d s.
Proof.
  intros H. unfold get_queue. change (queues (update_queue d f s)) with (update_where (by_key cq_device d) f (queues s)).
  rewrite get_row_update by done. destruct (get_row cq_device d (queues s)) as [q|] eqn:E; [|done]. apply get_row_Some in E as [_ E].
  cbn. unfold by_key. by rewrite E, str_eqb_refl.
Qed.

Lemma supersede_future_spec p d modes now o n kind tr s :
  keys_unique qi_id (items s) → (∀ i, p i = open_in_modes d modes i && _is_future_item (qi_display_after i) now) →
  let s' := snd (_supersede_future_queue_items d modes now o n kind tr s) in
  items s' = update_where p (cancelled now) (items s) ∧ devs s' = devs s ∧
  ∀ q, get_queue d s = Some q → ∃ q', get_queue d s' = Some q' ∧ cq_version q' = cq_version q + countb p (items s).
Proof.
  intros U Ep s'. unfold s', _supersede_future_queue_items. set (future := List.filter _ (sort_by _ _)). cbv zeta. cbn [snd].
  destruct (supersede_fold_spec d o n kind tr now future s) as (E1 & E2 & E3). set (s1 := fold_left _ future s) in *.
  assert (∀ i, i ∈ items s → str_in (qi_id i) (map qi_id future) = p i) as Hp.
  { intros i Hi. apply eq_true_iff_eq. rewrite str_in_elem, list_elem_of_fmap, Ep. split.
    - intros (j & Ej & Hj). unfold future in Hj. rewrite filter_elem, sort_by_elem, filter_elem in Hj. destruct Hj as [[Hj H1] H2].
      rewrite (keys_unique_inj qi_id (items s) i j U Hi Hj Ej), H1, H2. done.
    - intros [H1 H2]%andb_true_iff. exists i. split; [done|]. unfold future. by rewrite filter_elem, sort_by_elem, filter_elem. }
  assert (Z.of_nat (length future) = countb p (items s)) as Hn.
  { rewrite (countb_ext _ _ _ (λ i _, Ep i)), <- countb_filter. unfold future, countb. rewrite <- sort_by_filter, sort_by_length; [done|..]; intros *; [apply str_leb_total|apply str_leb_trans]. }
  split_and!.
  - transitivity (items s1); [by destruct (0 <? _)|]. rewrite E1. unfold update_where. apply map_ext_in. intros i Hi%list_elem_of_In. by rewrite Hp.
  - transitivity (devs s1); [by destruct (0 <? _)|done].
  - intros q Hq. assert (get_queue d s1 = Some q) as Hq1 by (unfold get_queue; by rewrite E3). rewrite Hn.
    destruct (0 <? countb p (items s)) eqn:E.
    + rewrite get_queue_update, Hq1 by done. by eexists.
    + exists q. split; [done|]. bprop. pose proof (countb_nonneg p (items s)). lia.
Qed.

Lemma supersede_future_devs d modes now o n kind tr s : devs (snd (_supersede_future_queue_items d modes now o n kind tr s)) = devs s.
Proof.
  unfold _supersede_future_queue_items. set (future := List.filter _ (sort_by _ _)). cbv zeta. cbn [snd].
  destruct (supersede_fold_spec d o n kind tr now future s) as (_ & E & _). by destruct (0 <? _).
Qed.

(** ** The effect of an update *)

Lemma delivery_contract mode prefetch explicit m b :
  normalize_delivery_contract mode prefetch explicit = Ok (m, b) →
  m = strip mode ∧ b = is_offline m ∧ str_in m (map u ["legacy_online"; "stock_compat"; "inktime_offline_schedule"]%string) = true.
Proof.
  unfold normalize_delivery_contract. intros (_ & H1%raise_if_ok & H)%rbind_ok. apply negb_false_iff in H1.
  destruct explicit, prefetch as [c|]; try destruct (Bool.eqb _ _); try done; by injection H as <- <-.
Qed.

(** The guards of [plan_update], each with what it established. *)
Lemma plan_update_ok a v p :
  plan_update a v = Ok p →
  ∃ delivery preserved t strategy sync_time,
    normalize_delivery_contract (ua_delivery a) (ua_prefetch a) (negb (is_null (ua_prefetch a))) = Ok (delivery, is_offline delivery) ∧
    is_stock delivery && is_automatic v = false ∧ (30 <=? ua_gap a) && (ua_gap a <=? 360) = true ∧
    store_schedule a (v_config v) delivery = Ok (preserved, t) ∧ (0 <=? ua_lead a) && (ua_lead a <=? 120) = true ∧
    str_in (ua_button a) (map u ["check_new"; "local_next"]%string) = true ∧
    normalize_sync_strategy (Some (ua_sync_strategy a)) (ua_sync_time a) = Ok (strategy, sync_time) ∧
    c_delivery (up_config p) = delivery ∧ c_prefetch_allowed (up_config p) = is_offline delivery.
Proof.
  unfold plan_update. intros ([delivery b] & Hd%of_sched_ok & H)%rbind_ok. pose proof (delivery_contract _ _ _ _ _ Hd) as (_ & -> & _).
  apply rbind_ok in H as (_ & H1%raise_if_ok & (_ & H2%raise_if_ok & ([preserved t] & H3 & H)%rbind_ok)%rbind_ok).
  apply rbind_ok in H as (_ & H4%raise_if_ok & (_ & H5%raise_if_ok & ([strategy sync_time] & H6%of_sched_ok & [= <-])%rbind_ok)%rbind_ok).
  apply negb_false_iff in H2, H4, H5. by exists delivery, preserved, t, strategy, sync_time.
Qed.

Lemma get_device_write a p now d l v :
  get_device l d = Some v → get_device (update_device d (write_device a p now) l) d = Some (write_device a p now v).
Proof.
  intros H. unfold get_device, update_device. rewrite get_row_update by done. unfold get_device in H. rewrite H. cbn. unfold by_key.
  apply get_row_Some in H as [_ ->]. by rewrite str_eqb_refl.
Qed.

Lemma stale_modes (v v' : device) i :
  bool_decide (qi_offline i ∈ incompatible_modes (c_delivery (v_config v)) (c_delivery (v_config v'))) = stale_mode v v' i.
Proof.
  unfold incompatible_modes, stale_mode, offline_device. destruct (is_offline (c_delivery (v_config v'))) eqn:E.
  - unfold is_offline in *. apply str_eqb_eq in E. rewrite E. destruct (str_eqb _ _), (qi_offline i); done.
  - by destruct (qi_offline i).
Qed.

(** What is written as it was asked. *)
Lemma plan_copies a v p :
  plan_update a v = Ok p →
  c_name (up_config p) = strip (ua_name a) ∧ c_timezone (up_config p) = ua_timezone a ∧
  c_panel (up_config p) = ua_panel a ∧ c_rotation (up_config p) = ua_rotation a.
Proof.
  unfold plan_update. intros ([delivery b] & _ & H)%rbind_ok.
  apply rbind_ok in H as (_ & _ & (_ & _ & ([preserved t] & _ & H)%rbind_ok)%rbind_ok).
  by apply rbind_ok in H as (_ & _ & (_ & _ & ([strategy sync_time] & _ & [= <-])%rbind_ok)%rbind_ok).
Qed.

#[export] Instance device_view_eq_dec : EqDecision device_view.
Proof. solve_decision. Defined.

(** Every classified field is a remote setting. *)
Lemma remote_iff a b m :
  remote_config_changed (classify_device_configuration_changes a b m) = negb (bool_decide (a = b)) || m.
Proof.
  assert (∀ l, (∀ f, f ∈ l → f ∈ DEVICE_REMOTE_CONFIG_FIELDS) → remote_config_changed l = negb (bool_decide (l = []))) as Hany.
  { intros [|f l] Hl; [done|]. cbn [remote_config_changed any_of existsb].
    by rewrite bool_decide_eq_true_2 by (apply Hl; left). }
  rewrite Hany.
  - destruct m; [rewrite orb_true_r, bool_decide_eq_false_2; [done|]|].
    { unfold classify_device_configuration_changes. intros E. repeat (apply app_eq_nil in E as [_ E]). done. }
    rewrite orb_false_r. f_equal. apply bool_decide_ext. unfold classify_device_configuration_changes, differs. split.
    + intros E. destruct a, b. simpl in E. repeat (apply app_eq_nil in E as [?H E]).
      repeat match goal with H : (if bool_decide ?P then _ else _) = [] |- _ => destruct (bool_decide_reflect P); [|done]; clear H end.
      by subst.
    + intros ->. by rewrite !bool_decide_eq_true_2 by done.
  - intros f. unfold classify_device_configuration_changes, differs. rewrite !elem_of_app.
    intros H. repeat (match type of H with _ ∨ _ => destruct H as [H|H] end); try (case_match; [by apply elem_of_nil in H|]);
      try (destruct m; [|by apply elem_of_nil in H]); apply list_elem_of_singleton in H as ->; by apply (bool_decide_unpack _).
Qed.

(** What the row will read once written. *)
Definition asks_remote_change (a : update_args) (v v1 : device) : bool :=
  negb (bool_decide (stored_view v = stored_view v1)) || schedule_was_modified a (v_config v).

Lemma plan_remote a v p now :
  plan_update a v = Ok p → remote_config_changed (up_changes p) = asks_remote_change a v (write_device a p now v).
Proof.
  unfold plan_update. intros ([delivery b] & Hd%of_sched_ok & H)%rbind_ok.
  apply rbind_ok in H as (_ & _ & (_ & H2%raise_if_ok & ([preserved t] & H3 & H)%rbind_ok)%rbind_ok).
  apply rbind_ok in H as (_ & _ & (_ & _ & ([strategy sync_time] & _ & [= <-])%rbind_ok)%rbind_ok).
  cbn [up_changes]. rewrite remote_iff. unfold asks_remote_change. do 2 f_equal.
  match goal with |- bool_decide (_ = ?x) = bool_decide (_ = ?y) => assert (y = x) as ->; [|done] end.
  apply negb_false_iff, andb_true_iff in H2 as [H2 _]. apply Z.leb_le in H2. unfold stored_view. cbn.
  f_equal. unfold gap_or_default. by rewrite (proj2 (Z.eqb_neq (ua_gap a) 0)) by lia.
Qed.

(** C19. Changing the settings of a frame, by what is asked for.  The row [v1]
    to be written has the asked name, zone, panel, rotation, delivery mode and
    enabled flag and keeps the delivery contract (prefetch exactly in Enhanced mode).
    When [v1] reads differently from the stored row in one of the remote
    settings, or the schedule was edited, the row is written, its
    configuration version is one higher, and exactly the frame's open items
    whose mode no longer fits and whose display lies in the future are
    cancelled, with the queue's version raised by their number; items that are
    due, or have no display time, stay, though
    docs/resilience/DEVICE_QUEUE_AND_ROLLOUT_ZH_TW.md promises that a mode
    switch cancels every incompatible active delivery.  When only the name
    differs, the row is written under its version and items and queues are as
    before; when nothing differs, nothing is written. *)
Theorem update_replans_the_future zn a d now s changed skipped s' v :
  keys_unique qi_id (items s) → get_device (devs s) d = Some v → update zn a d now s = Ok ((changed, skipped), s') →
  ∃ v1, v_enabled v1 = ua_enabled a ∧ c_name (v_config v1) = strip (ua_name a) ∧ c_timezone (v_config v1) = ua_timezone a ∧
    c_panel (v_config v1) = ua_panel a ∧ c_rotation (v_config v1) = ua_rotation a ∧
    c_delivery (v_config v1) = strip (ua_delivery a) ∧ c_prefetch_allowed (v_config v1) = offline_device v1 ∧
    if asks_remote_change a v v1 then
      changed = true ∧ get_device (devs s') d = Some v1 ∧ v_config_version v1 = v_config_version v + 1 ∧
      items s' = update_where (superseded d v v1 now) (cancelled now) (items s) ∧
      ∀ q, get_queue d s = Some q →
        ∃ q', get_queue d s' = Some q' ∧ cq_version q' = cq_version q + countb (superseded d v v1 now) (items s)
    else if str_eqb (c_name (v_config v)) (strip (ua_name a)) then changed = false ∧ skipped = [] ∧ s' = s
    else changed = true ∧ skipped = [] ∧ get_device (devs s') d = Some v1 ∧ v_config_version v1 = v_config_version v ∧
         items s' = items s ∧ queues s' = queues s.
Proof.
  intros U Hv. unfold update. rewrite Hv. intros (_ & _ & (_ & _ & (p & Hp & H)%rbind_ok)%rbind_ok)%rbind_ok.
  rewrite (plan_remote a v p now Hp) in H. set (v1 := write_device a p now v) in *. exists v1.
  assert (c_name (v_config v1) = strip (ua_name a) ∧ c_timezone (v_config v1) = ua_timezone a ∧
    c_panel (v_config v1) = ua_panel a ∧ c_rotation (v_config v1) = ua_rotation a) as (E1 & E2 & E3 & E4) by (by eapply plan_copies).
  pose proof (plan_update_ok _ _ _ Hp) as (delivery & pr & t & st & sy & (Hm & _)%delivery_contract & _ & _ & _ & _ & _ & _ & Ed & Ep).
  assert (c_delivery (v_config v1) = strip (ua_delivery a)) as E5 by (by rewrite <- Hm, <- Ed).
  assert (c_prefetch_allowed (v_config v1) = offline_device v1) as Hc by (unfold offline_device; cbn; by rewrite Ep, Ed).
  assert (v_config_version v1 = v_config_version v + (if asks_remote_change a v v1 then 1 else 0)) as Ever
    by (unfold v1 at 1; cbn; by rewrite (plan_remote a v p now Hp)).
  split; [done|]. split_and!; [done..|].
  set (s1 := set_with devs _ s) in H.
  assert (get_device (devs s1) d = Some v1) as Hv' by (by apply get_device_write).
  destruct (asks_remote_change a v v1); cbn [negb andb] in H.
  - apply ok_pair in H as [[= <- _] <-].
    match goal with |- context [snd (_supersede_future_queue_items d ?modes now ?o ?n ?kind ?tr s1)] =>
      destruct (supersede_future_spec (superseded d v v1 now) d modes now o n kind tr s1 U) as (F1 & F2 & F3) end.
    { intros i. unfold open_in_modes. change (c_delivery (up_config p)) with (c_delivery (v_config v1)). by rewrite stale_modes. }
    rewrite F2. done.
  - rewrite andb_false_r in H. cbn [andb] in H. destruct (str_eqb _ _); apply ok_pair in H as [[= <- <-] <-]; [done|].
    split_and!; try done. lia.
Qed.

(** ** Applying the same inputs again *)

Lemma contract_again mode prefetch explicit m b :
  normalize_delivery_contract mode prefetch explicit = Ok (m, b) → normalize_delivery_contract m (Some b) true = Ok (m, b).
Proof.
  intros (E & -> & Hin)%delivery_contract. unfold normalize_delivery_contract.
  assert (strip m = m) as -> by (rewrite E; apply strip_idemp). rewrite Hin. cbn [negb raise_if rbind].
  change (str_eqb m (u "inktime_offline_schedule")) with (is_offline m). by destruct (is_offline m).
Qed.

Lemma valid_time_named t : valid_time t = true → t ≠ [].
Proof. intros H ->. done. Qed.

Lemma sync_again strategy time s t :
  normalize_sync_strategy strategy time = Ok (s, t) → str_or (Some s) (u "first_display_lead") = s ∧ normalize_sync_strategy (Some s) t = Ok (s, t).
Proof.
  unfold normalize_sync_strategy. intros (_ & H1%raise_if_ok & H)%rbind_ok. apply negb_false_iff in H1.
  set (s0 := strip (str_or strategy _)) in *. assert (strip s0 = s0) as Es by apply strip_idemp. clearbody s0.
  assert (s = s0) as ->.
  { destruct (str_eqb s0 _), time as [[|c time]|]; try done; try destruct (valid_time _); try done; by injection H as <- <-. }
  assert (str_or (Some s0) (u "first_display_lead") = s0) as Hs by (by destruct s0). split; [done|]. rewrite Hs, Es, H1. cbn [negb raise_if rbind].
  destruct (str_eqb s0 _).
  - destruct time as [[|c time]|]; try done; by injection H as <-.
  - destruct time as [[|c time]|]; try done. destruct (valid_time _) eqn:Ev; [|done]. injection H as <-.
    destruct (strip (c :: time)) as [|x r] eqn:E; [done|]. by rewrite <- E, strip_idemp, E, Ev.
Qed.

Lemma classify_same a : classify_device_configuration_changes a a false = [].
Proof. unfold classify_device_configuration_changes, differs. by rewrite !bool_decide_eq_true_2. Qed.

Lemma render_unmodified v c p o l f :
  c = v_config v → schedule_was_modified (render_args v p o l f) c = false.
Proof. intros ->. unfold schedule_was_modified. cbn. by rewrite str_eqb_refl, Z.eqb_refl. Qed.

Lemma as_times_texts l : as_times (map JStr l) = l.
Proof. unfold as_times. rewrite map_map. apply map_id. Qed.

(** Neither argument names a schedule, and the second row stores what the
    first call decided. *)
Lemma store_again a a' c c' delivery preserved t :
  store_schedule a c delivery = Ok (preserved, t) → schedule_was_modified a c = false → schedule_was_modified a' c' = false →
  explicit_schedule a' = None → ua_schedule a' = st_schedule t → ua_enabled a' = ua_enabled a → ua_gap a' = ua_gap a →
  c_capability c' = c_capability c → c_max_slots c' = c_max_slots c →
  c_schedule c' = st_schedule t → c_offline_schedule c' = st_offline t → c_schedule_times c' = st_times t →
  store_schedule a' c' delivery = Ok (preserved, t).
Proof.
  unfold store_schedule, quarantined. intros H M1 M2 Hx Hs He Hg Hc Hm Es Eo Et.
  rewrite M2, He, Hg, Hc, Hm, Es, Eo, Et. rewrite M1 in H. cbn [negb] in *. rewrite !andb_true_r in *.
  apply rbind_ok in H as (u0 & Hq & H). rewrite Hq. cbn [rbind].
  match goal with |- (if ?b then _ else _) = _ => destruct b end.
  - injection H as <- <-. unfold existing_schedule. by rewrite Et, Eo.
  - apply rbind_ok in H as (values & Hv%of_sched_ok & [= <- <-]). apply validate_accepted in Hv.
    cbn [st_values st_schedule st_offline st_times] in *.
    assert (selected_schedule a' c' = values) as ->.
    { unfold selected_schedule, existing_schedule. rewrite Hx, Et. cbn [stored_schedule_state]. destruct values as [|x values].
      - destruct Hv as [_ Hn _ _ _ _ _]. cbn in Hn. lia.
      - cbn [map]. change (JStr x :: map JStr values) with (map JStr (x :: values)). rewrite as_times_texts. by destruct values; [rewrite Hs|]. }
    by rewrite (accepted_again _ _ _ _ Hv).
Qed.

Lemma str_or_again t d : str_or (Some (str_or (Some t) d)) d = str_or (Some t) d.
Proof. by destruct t, d. Qed.

Definition wanted_view (a : update_args) (c : dconfig) (delivery strategy : str) (sync_time : option str) : device_view :=
  mk_device_view (ua_timezone a) (ua_rotation a) (ua_panel a) delivery (is_offline delivery) (ua_enabled a) (ua_lead a) (ua_button a)
    (ua_gap a) strategy (text_or_none sync_time) (text_or_none (ua_stock a)) (default (c_orientation c) (ua_orientation a))
    (default (c_layout c) (ua_layout a)) (default (c_fit c) (ua_fit a)).

Lemma plan_update_intro a v delivery preserved t strategy sync_time :
  normalize_delivery_contract (ua_delivery a) (ua_prefetch a) (negb (is_null (ua_prefetch a))) = Ok (delivery, is_offline delivery) →
  is_stock delivery && is_automatic v = false → negb ((30 <=? ua_gap a) && (ua_gap a <=? 360)) = false →
  store_schedule a (v_config v) delivery = Ok (preserved, t) → negb ((0 <=? ua_lead a) && (ua_lead a <=? 120)) = false →
  negb (str_in (ua_button a) (map u ["check_new"; "local_next"]%string)) = false →
  normalize_sync_strategy (Some (ua_sync_strategy a)) (ua_sync_time a) = Ok (strategy, sync_time) →
  ∃ plan, plan_update a v = Ok plan ∧
    up_changes plan = classify_device_configuration_changes (stored_view v) (wanted_view a (v_config v) delivery strategy sync_time)
                        (schedule_was_modified a (v_config v)).
Proof.
  intros H1 H2 H3 H4 H5 H6 H7. unfold plan_update. rewrite H1. cbn [of_sched rbind]. rewrite H2, H3, H4. cbn [raise_if rbind].
  rewrite H5, H6, H7. cbn [raise_if of_sched rbind]. by eexists.
Qed.

Lemma plan_again v p o l f now plan v' :
  v' = write_device (render_args v p o l f) plan now v → plan_update (render_args v p o l f) v = Ok plan →
  ∃ plan', plan_update (render_args v' p o l f) v' = Ok plan' ∧ up_changes plan' = [] ∧ strip (c_name (v_config v')) = c_name (v_config v').
Proof.
  intros Ev. unfold plan_update at 1. rewrite render_unmodified by done.
  intros ([delivery b] & Hd%of_sched_ok & (_ & Hst%raise_if_ok & (_ & Hg%raise_if_ok & ([preserved t] & Ht & H)%rbind_ok)%rbind_ok)%rbind_ok)%rbind_ok.
  apply rbind_ok in H as (_ & Hl%raise_if_ok & (_ & Hb%raise_if_ok & ([strategy sync_time] & Hs%of_sched_ok & [= <-])%rbind_ok)%rbind_ok).
  set (a := render_args v p o l f) in *. set (a' := render_args v' p o l f).
  assert (gap_or_default (ua_gap a) = ua_gap a) as Hgap. { unfold gap_or_default. bprop. destruct (ua_gap a =? 0) eqn:E; bprop; lia. }
  pose proof (contract_again _ _ _ _ _ Hd) as Hd'. destruct (delivery_contract _ _ _ _ _ Hd) as (_ & -> & _). apply sync_again in Hs as [Hs1 Hs2].
  assert (store_schedule a' (v_config v') delivery = Ok (preserved, t)) as Ht'.
  { eapply store_again; [exact Ht|by apply render_unmodified|by apply render_unmodified|unfold a'; rewrite ?Ev; solve [done|exact Hgap]..]. }
  assert (ua_gap a' = ua_gap a) as Eg by (unfold a'; rewrite Ev; exact Hgap).
  assert (ua_button a' = ua_button a) as Eb by (unfold a'; rewrite Ev; apply str_or_again).
  assert (ua_sync_strategy a' = strategy) as Es by (unfold a'; rewrite Ev; exact Hs1).
  destruct (plan_update_intro a' v' delivery preserved t strategy sync_time) as (plan' & E1 & E2).
  - unfold a'. rewrite Ev. exact Hd'.
  - rewrite Ev. unfold is_automatic. cbn. destruct (is_stock delivery); [done|]. by rewrite andb_false_l.
  - by rewrite Eg.
  - done.
  - unfold a'. rewrite Ev. exact Hl.
  - by rewrite Eb.
  - rewrite Es. unfold a'. rewrite Ev. exact Hs2.
  - exists plan'. split; [done|]. split; [|rewrite Ev; apply strip_idemp]. rewrite E2, (render_unmodified v' (v_config v') p o l f eq_refl : schedule_was_modified a' _ = false).
    assert (stored_view v' = wanted_view a' (v_config v') delivery strategy sync_time) as ->; [|apply classify_same].
    unfold wanted_view. rewrite Eg, Eb. unfold a'. rewrite Ev. unfold stored_view.
    f_equal; try reflexivity; [by destruct p|exact Hgap|by destruct o|by destruct l|by destruct f].
Qed.

(** C20. Setting render inputs settles: once a frame has taken a panel
    profile, orientation, layout and fit, setting them again, at any later
    time, reports no change and writes nothing, so that neither the
    configuration version nor the queue moves and no prepared playlist is
    thrown away. *)
Theorem render_inputs_settle zn d p o l f now s r s' now' :
  update_render_inputs zn d p o l f now s = Ok (r, s') → update_render_inputs zn d p o l f now' s' = Ok ((false, []), s').
Proof.
  unfold update_render_inputs. destruct (get_device (devs s) d) as [v|] eqn:Ev; [|done]. unfold update at 1. rewrite Ev.
  intros (_ & _ & (_ & _ & (plan & Hp & H)%rbind_ok)%rbind_ok)%rbind_ok.
  destruct (negb (remote_config_changed _) && _) eqn:E; apply ok_pair in H as [<- <-].
  - rewrite Ev. unfold update. rewrite Ev. cbn [ua_expected_version ua_expected_updated render_args raise_if rbind]. by rewrite Hp; cbn [rbind]; rewrite E.
  - set (v' := write_device (render_args v p o l f) plan now v).
    match goal with |- context [get_device (devs ?x) d] => set (s1 := x); assert (get_device (devs s1) d = Some v') as Ev' end.
    { unfold s1. destruct (remote_config_changed _); [rewrite supersede_future_devs|]; by apply get_device_write. }
    destruct (plan_again v p o l f now plan v' eq_refl Hp) as (plan' & Hp' & Ec & En). clearbody s1 v'.
    rewrite Ev'. unfold update. rewrite Ev', Hp'.
    cbn [ua_expected_version ua_expected_updated render_args raise_if rbind]. rewrite Ec. cbn [remote_config_changed any_of existsb negb andb ua_name].
    change (ua_name (render_args v' p o l f)) with (c_name (v_config v')). by rewrite En, str_eqb_refl.
Qed.

(** An item without a display time is never superseded, whatever its mode:
    the items of [enqueue_release] and of rollouts usually have none. *)
Lemma undated_items_kept zn a d now s r s' i :
  keys_unique qi_id (items s) → update zn a d now s = Ok (r, s') → i ∈ items s → qi_display_after i = None → i ∈ items s'.
Proof.
  intros U H Hi Hd. unfold update in H. destruct (get_device _ _) as [v|]; [|done].
  apply rbind_ok in H as (_ & _ & (_ & _ & (p & _ & H)%rbind_ok)%rbind_ok). destruct (negb _ && str_eqb _ _); apply ok_pair in H as [_ <-]; [done|].
  destruct (remote_config_changed _); [|done]. set (s1 := set_with devs _ s).
  match goal with |- context [snd (_supersede_future_queue_items d ?modes now ?o ?n ?kind ?tr s1)] =>
    destruct (supersede_future_spec _ d modes now o n kind tr s1 U (λ i, eq_refl)) as (-> & _ & _) end.
  apply update_where_elem. exists i. split; [done|]. by rewrite Hd, andb_false_r.
Qed.

(** ** The frame with a playlist gets another panel *)

Definition prepared : ddb := run no_text utc_only playlist_requests household.
Definition attic_row : device := default (demo_device "attic" true) (get_device (devs prepared) (u "attic")).
Definition repaint_args : update_args := render_args attic_row (Some (u "panel-b")) None None None.
Definition repainted : ddb := state_of (update utc_only repaint_args (u "attic") (seconds 300) prepared) prepared.

Lemma attic_found : get_device (devs prepared) (u "attic") = Some attic_row.
Proof. vm_compute. reflexivity. Qed.
Lemma repaint_ok : update utc_only repaint_args (u "attic") (seconds 300) prepared = Ok ((true, []), repainted).
Proof. vm_compute. reflexivity. Qed.
Lemma prepared_unique : keys_unique qi_id (items prepared).
Proof. apply (wf_items _ (household_run_wf playlist_requests)). Qed.

Lemma update_replans_the_future_witness :
  map qi_status (items prepared) = [QReady; QReady] ∧ map qi_status (items repainted) = [QCancelled; QCancelled] ∧
  ∃ v1, c_panel (v_config v1) = u "panel-b" ∧ get_device (devs repainted) (u "attic") = Some v1 ∧
    v_config_version v1 = v_config_version attic_row + 1 ∧
    items repainted = update_where (superseded (u "attic") attic_row v1 (seconds 300)) (cancelled (seconds 300)) (items prepared).
Proof.
  split; [vm_compute; reflexivity|]. split; [vm_compute; reflexivity|].
  destruct (update_replans_the_future utc_only repaint_args (u "attic") (seconds 300) prepared true [] repainted attic_row
              prepared_unique attic_found repaint_ok) as (v1 & _ & _ & _ & Hp & _ & _ & _ & H).
  exists v1. split; [exact Hp|].
  destruct (asks_remote_change repaint_args attic_row v1) eqn:E; [destruct H as (_ & H1 & H2 & H3 & _); exact (conj H1 (conj H2 H3))|].
  unfold asks_remote_change in E. apply orb_false_iff in E as [E _]. apply negb_false_iff, bool_decide_eq_true in E.
  apply (f_equal dv_panel) in E. cbn [dv_panel stored_view] in E. rewrite Hp in E. vm_compute in E. discriminate E.
Defined.

Lemma render_inputs_settle_witness :
  update_render_inputs utc_only (u "attic") (Some (u "panel-b")) None None None (seconds 300) prepared = Ok ((true, []), repainted) ∧
  update_render_inputs utc_only (u "attic") (Some (u "panel-b")) None None None (seconds 400) repainted = Ok ((false, []), repainted).
Proof.
  assert (update_render_inputs utc_only (u "attic") (Some (u "panel-b")) None None None (seconds 300) prepared = Ok ((true, []), repainted)) as H.
  { unfold update_render_inputs. rewrite attic_found. exact repaint_ok. }
  split; [exact H|]. exact (render_inputs_settle utc_only _ _ _ _ _ _ _ _ _ (seconds 400) H).
Defined.

(** The documented promise that a mode switch cancels the deliveries that no
    longer fit fails for an ordinary online item, which has no display time. *)
Example switch_keeps_online_item :
  let s := run no_text utc_only queued household in
  let a := mk_update (u "hall") true (u "UTC") (u "08:00") (u "inktime_offline_schedule") None None None None 5 (u "check_new") 60
             (u "first_display_lead") None None 0 (u "panel-a") None None None None None in
  ∃ s', update utc_only a (u "hall") (seconds 300) s = Ok ((true, []), s') ∧
    map (λ i, (qi_offline i, qi_status i)) (items s') = [(false, QReady)] ∧
    map (λ d, (v_id d, offline_device d)) (devs s') = [(u "hall", true); (u "attic", true)].
Proof. cbv zeta. eexists. split; [vm_compute; reflexivity|]. vm_compute. done. Qed.
