(* ===== verification/DeviceStatus.v ===== *)
(** * What a frame reports (repositories/devices.py)

    [record_status], [record_download] and [record_stock_upload_event].  The
    columns of the table devices that only these write are a table of their
    own here ([status_row], one row for each row of [devs]); the tables
    device_events and device_power_samples are lists of rows. *)

From S2P Require Import Prelude PyStr PyFloat Json Sql Reservations OfflineSchedule Devices Delivery OfflineStore.
Local Open Scope Z_scope.

Record status_row := mk_status {
  ds_device : str; ds_rssi : option Z; ds_battery : option f64; ds_heap : option Z; ds_psram : option Z; ds_error : option str;
  ds_message : option str; ds_status_at : option Z; ds_sequence : option Z; ds_wake : option str; ds_acked : Z; ds_ack_at : option Z;
  ds_applied : Z; ds_applied_at : option Z; ds_success : Z; ds_failure : Z; ds_download_at : option Z; ds_release : option str }.

Record device_event := mk_device_event {
  de_device : str; de_level : string; de_event : string; de_error : option str; de_message : str; de_details : list (str * json); de_at : Z }.

Record power_sample := mk_sample {
  pw_device : str; pw_voltage : option json; pw_percent : option f64; pw_estimated : option bool; pw_usb : option bool;
  pw_refresh : option json; pw_wake_duration : option json; pw_updated : bool; pw_temperature : option json; pw_humidity : option json;
  pw_rssi : option Z; pw_wake : option str; pw_at : Z }.

Record frames := mk_frames { fr_db : ddb; fr_status : list status_row; fr_events : list device_event; fr_samples : list power_sample }.

(** The body of a status report; [sr_reported] is the parsed
    status_reported_at ([Some None] when it does not parse). *)
Record report := mk_report {
  sr_firmware : str; sr_rssi : option Z; sr_battery : option f64; sr_heap : option Z; sr_psram : option Z; sr_error : str; sr_message : str;
  sr_wake : str; sr_config : option Z; sr_schedule : option Z; sr_sequence : option Z; sr_reported : option (option Z);
  sr_details : list (str * json) }.

Definition _MAX_STATUS_FUTURE_SKEW : Z := minutes 5.

(** [text[:n] or None] *)
Definition cut_text (n : nat) (t : str) : option str := match take n t with [] => None | x => Some x end.
(** [details.get(key)] *)
Definition detail (r : report) (key : string) : option json :=
  match assoc_get (u key) (sr_details r) with Some JNull | None => None | Some j => Some j end.

(** The time of the report; [None] when it lies too far ahead. *)
Definition status_time (r : report) (now : Z) : result dl_exn (option Z) :=
  match sr_reported r with
  | None => Ok (Some now)
  | Some None => Raise (DValue "DEVICE-004")
  | Some (Some t) => Ok (if now + _MAX_STATUS_FUTURE_SKEW <? t then None else Some (Z.min t now))
  end.

Definition stale_report (r : report) (status_at : Z) (c : status_row) : bool :=
  match sr_sequence r, ds_sequence c with
  | Some n, Some m => n <=? m
  | Some _, None => false
  | None, Some _ => true
  | None, None => match ds_status_at c with Some t => status_at <=? t | None => false end
  end.

Definition advertised_slots (r : report) : option Z :=
  match assoc_get (u "offline_schedule_max_slots") (sr_details r) with
  | Some (JInt n) => if (n =? 12) || (n =? 16) || (n =? 24) then Some n else None
  | _ => None
  end.

Definition downgraded (r : report) (v : device) : bool :=
  match advertised_slots r with Some n => n <? c_max_slots (v_config v) | None => false end.

(** Fail closed: schedules and versions stay for the administrator. *)
Definition quarantine (v : device) : device :=
  let c := v_config v in
  v <| v_config := mk_dconfig (c_name c) (c_timezone c) (c_schedule c) (c_rotation c) (c_panel c) (c_orientation c) (c_layout c) (c_fit c)
                     (c_delivery c) (c_prefetch_allowed c) (c_offline_schedule c) (c_offline_version c) (c_schedule_times c)
                     (c_prefetch_lead c) (c_button c) (c_gap c) (c_sync_strategy c) (c_sync_time c) (c_stock_host c) 12
                     (u "legacy_ambiguous") None |>.

(** A reported version counts when it is new and the server knows it. *)
Definition version_acked (reported : option Z) (acked current : Z) : bool :=
  match reported with Some n => (acked <? n) && (n <=? current) | None => false end.
Definition acked_to (reported : option Z) (acked current : Z) : Z :=
  if version_acked reported acked current then default acked reported else acked.

Definition reported_status (r : report) (v : device) (status_at now : Z) (c : status_row) : status_row :=
  mk_status (ds_device c) (sr_rssi r) (sr_battery r) (sr_heap r) (sr_psram r) (cut_text 64 (sr_error r)) (cut_text 500 (sr_message r))
    (Some status_at) (match sr_sequence r with Some n => Some n | None => ds_sequence c end) (cut_text 64 (sr_wake r))
    (acked_to (sr_config r) (ds_acked c) (v_config_version v))
    (if version_acked (sr_config r) (ds_acked c) (v_config_version v) then Some now else ds_ack_at c)
    (acked_to (sr_schedule r) (ds_applied c) (c_offline_version (v_config v)))
    (if version_acked (sr_schedule r) (ds_applied c) (c_offline_version (v_config v)) then Some now else ds_applied_at c)
    (ds_success c) (ds_failure c) (ds_download_at c) (ds_release c).

Definition flag (j : option json) : option bool := (λ x, truthy x) <$> j.
Definition has_energy (r : report) : bool :=
  existsb (λ k, negb (is_null (detail r k)))
    ["battery_voltage"; "usb_power"; "last_refresh_duration_ms"; "wake_duration_ms"; "temperature_c"; "humidity_percent"]%string
  || negb (is_null (sr_battery r)).

Definition sample_of (d : str) (r : report) (now : Z) : power_sample :=
  mk_sample d (detail r "battery_voltage") (sr_battery r) (flag (detail r "battery_percent_estimated")) (flag (detail r "usb_power"))
    (detail r "last_refresh_duration_ms") (detail r "wake_duration_ms") (default false (flag (detail r "display_updated")))
    (detail r "temperature_c") (detail r "humidity_percent") (sr_rssi r) (cut_text 64 (sr_wake r)) now.

Definition add_sample (d : str) (r : report) (now : Z) (l : list power_sample) : list power_sample :=
  if has_energy r
  then List.filter (λ x, negb (str_eqb (pw_device x) d && (pw_at x <? now - 400 * day))) (l ++ [sample_of d r now])
  else l.

Definition status_event (d : str) (r : report) (now : Z) : device_event :=
  mk_device_event d (match sr_error r with [] => "info" | _ => "error" end) "status_report" (cut_text 64 (sr_error r))
    (match sr_message r with [] => u "裝置狀態正常" | m => take 500 m end) (sr_details r) now.

Definition conflict_event (d : str) (stored advertised now : Z) : device_event :=
  mk_device_event d "warning" "offline_schedule_capability_quarantined" (Some (u "DEVICE-CAPABILITY-CONFLICT"))
    (u "裝置回報較低離線容量；已保留排程並隔離，請重新配對或 Repair")
    [(u "stored_max_slots", JInt stored); (u "advertised_max_slots", JInt advertised)] now.

Definition get_status (d : str) (s : frames) : option status_row := get_row ds_device d (fr_status s).
Definition with_firmware (r : report) (now : Z) (v : device) : device :=
  v <| v_firmware_version := cut_text 64 (sr_firmware r) |> <| v_updated := now |>.

Definition accept_report (d : str) (r : report) (v : device) (status_at now : Z) (s : frames) : frames :=
  let low := downgraded r v in
  let write x := with_firmware r now (if low then quarantine x else x) in
  mk_frames ((fr_db s) <| devs := update_device d write (devs (fr_db s)) |>)
    (update_where (by_key ds_device d) (reported_status r v status_at now) (fr_status s))
    (fr_events s ++ (if low then [conflict_event d (c_max_slots (v_config v)) (default 0 (advertised_slots r)) now] else [])
     ++ [status_event d r now])
    (add_sample d r now (fr_samples s)).

Definition record_status (d : str) (r : report) (now : Z) (s : frames) : result dl_exn (bool * frames) :=
  let* t := status_time r now in
  match t with
  | None => Ok (false, s)
  | Some status_at =>
      match get_device (devs (fr_db s)) d, get_status d s with
      | Some v, Some c => if stale_report r status_at c then Ok (false, s) else Ok (true, accept_report d r v status_at now s)
      | _, _ => Raise DKey
      end
  end.

Definition downloaded (release : str) (succeeded : bool) (now : Z) (c : status_row) : status_row :=
  mk_status (ds_device c) (ds_rssi c) (ds_battery c) (ds_heap c) (ds_psram c) (ds_error c) (ds_message c) (ds_status_at c) (ds_sequence c)
    (ds_wake c) (ds_acked c) (ds_ack_at c) (ds_applied c) (ds_applied_at c) (ds_success c + (if succeeded then 1 else 0))
    (ds_failure c + (if succeeded then 0 else 1)) (Some now) (if succeeded then Some release else ds_release c).

Definition record_download (d release : str) (succeeded : bool) (now : Z) (s : frames) : frames :=
  mk_frames ((fr_db s) <| devs := update_device d (λ v, v <| v_updated := now |>) (devs (fr_db s)) |>)
    (update_where (by_key ds_device d) (downloaded release succeeded now) (fr_status s)) (fr_events s) (fr_samples s).

Definition record_stock_upload_event (d release file : str) (bytes : Z) (code : option Z) (accepted : bool) (error : option str) (now : Z)
    (s : frames) : frames :=
  mk_frames (fr_db s) (fr_status s)
    (fr_events s
     ++ [mk_device_event d (if accepted then "info" else "warning") "stock_upload" (cut_text 64 (str_or error []))
           (if accepted then u "Stock Payload 已上傳" else u "Stock Payload 上傳未被接受")
           [(u "release_id", JStr (take 128 release)); (u "file_name", JStr (take 128 file));
            (u "payload_bytes", JInt (Z.max 0 (Z.min bytes 2147483647)));
            (u "status_code", match code with Some n => JInt (Z.max 100 (Z.min n 599)) | None => JNull end);
            (u "upload_accepted", JBool accepted); (u "display_completed", JBool false)] now]) (fr_samples s).
