(* ===== verification/DeviceStatusProps.v ===== *)
(** * Reports only move forward

    Status reports, downloads and changes of settings in any order: what is
    known of a frame never goes back, and a frame that lost slots is served
    no further playlist. *)

From S2P Require Import Prelude PyStr PyFloat Json Sql Reservations OfflineSchedule Devices Delivery OfflineStore OfflinePrepare DeviceUpdate DeliveryLife DeliveryRuns DeliveryWitness DeviceUpdateProps DeviceStatus.
Local Open Scope Z_scope.

Inductive frame_request :=
| Report (d : str) (r : report) (now : Z)
| Download (d release : str) (succeeded : bool) (now : Z)
| StockUpload (d release file : str) (bytes : Z) (code : option Z) (accepted : bool) (error : option str) (now : Z)
| Settings (a : update_args) (d : str) (now : Z)
| RenderInputs (d : str) (panel : option str) (orientation layout fit : option (option str)) (now : Z).

Section frame_runs.
Context (zone_named : str → option zone).

Definition with_db (db : ddb) (s : frames) : frames := mk_frames db (fr_status s) (fr_events s) (fr_samples s).

Definition frame_apply (q : frame_request) (s : frames) : frames :=
  match q with
  | Report d r now => match record_status d r now s with Ok (_, s') => s' | Raise _ => s end
  | Download d release succeeded now => record_download d release succeeded now s
  | StockUpload d release file bytes code accepted error now => record_stock_upload_event d release file bytes code accepted error now s
  | Settings a d now => with_db (state_of (update zone_named a d now (fr_db s)) (fr_db s)) s
  | RenderInputs d panel orientation layout fit now =>
      with_db (state_of (update_render_inputs zone_named d panel orientation layout fit now (fr_db s)) (fr_db s)) s
  end.

Definition frame_run (qs : list frame_request) (s : frames) : frames := fold_left (λ s q, frame_apply q s) qs s.

(** ** The rows of devices *)

(** What no request lowers. *)
Record device_le (v v' : device) : Prop := mk_device_le {
  dl_id : v_id v' = v_id v;
  dl_version : v_config_version v ≤ v_config_version v';
  dl_offline : c_offline_version (v_config v) ≤ c_offline_version (v_config v');
  dl_quarantine : quarantined (v_config v) = true → quarantined (v_config v') = true }.

#[export] Instance device_le_preorder : PreOrder device_le.
Proof. split; [by constructor|]. intros a b c [] []. constructor; [congruence|lia|lia|auto]. Qed.

(** The table after a request: the same rows in the same order, each later. *)
Definition devices_le : list device → list device → Prop := Forall2 device_le.

#[export] Instance devices_le_preorder : PreOrder devices_le.
Proof. unfold devices_le. apply _. Qed.

Lemma devices_le_update p f l : (∀ v, v ∈ l → p v = true → device_le v (f v)) → devices_le l (update_where p f l).
Proof.
  intros H. unfold devices_le, update_where. induction l as [|v l IH]; [constructor|]. simpl. constructor.
  - destruct (p v) eqn:E; [apply H; [left|done]|done].
  - apply IH. intros x Hx. apply H. by right.
Qed.

Lemma devices_le_ids l l' : devices_le l l' → map v_id l' = map v_id l.
Proof. induction 1 as [|v v' l l' [E _ _ _] _ IH]; simpl; [done|by rewrite E, IH]. Qed.

Lemma devices_le_elem l l' v' : devices_le l l' → v' ∈ l' → ∃ v, v ∈ l ∧ device_le v v'.
Proof.
  induction 1 as [|x x' l l' Hx _ IH]; [intros Hv; inversion Hv|]. rewrite elem_of_cons. intros [->|Hv].
  - exists x. split; [left|done].
  - destruct (IH Hv) as (v & ? & ?). exists v. split; [by right|done].
Qed.

(** Every plan raises versions and leaves the capability alone. *)
Lemma plan_le a v p now : plan_update a v = Ok p → device_le v (write_device a p now v).
Proof.
  unfold plan_update. intros ([de b] & _ & (_ & _ & (_ & _ & ([pr t] & _ & (_ & _ & (_ & _ & ([st sy] & _ & [= <-])%rbind_ok)%rbind_ok)%rbind_ok)%rbind_ok)%rbind_ok)%rbind_ok)%rbind_ok.
  constructor; [done|..|done]; cbn [write_device v_config_version v_config up_config up_changes c_offline_version]; case_match; lia.
Qed.

Lemma update_devices_le a d now s r s' :
  keys_unique v_id (devs s) → update zone_named a d now s = Ok (r, s') → devices_le (devs s) (devs s').
Proof.
  intros U. unfold update. destruct (get_device (devs s) d) as [v|] eqn:Ev; [|done].
  intros (_ & _ & (_ & _ & (p & Hp & H)%rbind_ok)%rbind_ok)%rbind_ok. destruct (negb _ && str_eqb _ _); apply ok_pair in H as [_ <-]; [done|].
  assert (devices_le (devs s) (update_device d (write_device a p now) (devs s))) as Hle.
  { apply devices_le_update. intros x Hx Hk. unfold get_device in Ev. rewrite (by_key_elem _ _ _ _ U Hx Hk) in Ev. injection Ev as ->. by apply plan_le. }
  destruct (remote_config_changed _); [by rewrite supersede_future_devs|done].
Qed.

Lemma quarantine_le v : device_le v (quarantine v).
Proof. constructor; cbn; try done; lia. Qed.

Lemma frame_apply_devices q s : keys_unique v_id (devs (fr_db s)) → devices_le (devs (fr_db s)) (devs (fr_db (frame_apply q s))).
Proof.
  intros U. destruct q; cbn [frame_apply].
  - unfold record_status. destruct (status_time r now) as [[t|]|]; [|done..]. cbn [rbind].
    destruct (get_device _ _) as [v|]; [|done]. destruct (get_status d s) as [c|]; [|done]. destruct (stale_report r t c); [done|].
    apply devices_le_update. intros x _ _. transitivity (if downgraded r v then quarantine x else x); [destruct (downgraded r v); [apply quarantine_le|done]|].
    constructor; cbn; try done; lia.
  - apply devices_le_update. intros v _ _. constructor; cbn; try done; lia.
  - done.
  - unfold state_of. destruct (update _ _ _ _ _) as [[b s']|] eqn:E; [|done]. by eapply update_devices_le.
  - unfold state_of, update_render_inputs. destruct (get_device _ _) as [v|]; [|done].
    destruct (update _ _ _ _ _) as [[b s']|] eqn:E; [|done]. by eapply update_devices_le.
Qed.

Lemma frame_run_devices qs s : keys_unique v_id (devs (fr_db s)) → devices_le (devs (fr_db s)) (devs (fr_db (frame_run qs s))).
Proof.
  unfold frame_run. revert s. induction qs as [|q qs IH]; intros s U; cbn [fold_left]; [done|].
  pose proof (frame_apply_devices q s U) as H. etrans; [exact H|]. apply IH. unfold keys_unique. by rewrite (devices_le_ids _ _ H).
Qed.

(** ** The rows of status *)

(** [c'] is a later state of the row [c]. *)
Record status_le (c c' : status_row) : Prop := mk_status_le {
  sl_device : ds_device c' = ds_device c;
  sl_sequence : ∀ n, ds_sequence c = Some n → ∃ m, ds_sequence c' = Some m ∧ n ≤ m;
  sl_acked : ds_acked c ≤ ds_acked c';
  sl_applied : ds_applied c ≤ ds_applied c';
  sl_success : ds_success c ≤ ds_success c';
  sl_failure : ds_failure c ≤ ds_failure c' }.

#[export] Instance status_le_preorder : PreOrder status_le.
Proof.
  split; [intros c; constructor; try lia; [done|eauto with lia]|]. intros a b c [] []. constructor; try lia; [congruence|].
  intros n Hn. destruct (sl_sequence0 n Hn) as (m & Hm & ?). destruct (sl_sequence1 m Hm) as (k & Hk & ?). exists k. split; [done|lia].
Qed.

(** No acknowledged version is ahead of the server's. *)
Definition in_step (l : list device) (c : status_row) : Prop :=
  ∀ v, v ∈ l → v_id v = ds_device c → ds_acked c ≤ v_config_version v ∧ ds_applied c ≤ c_offline_version (v_config v).

Record status_inv (s : frames) : Prop := mk_status_inv {
  si_devices : keys_unique v_id (devs (fr_db s));
  si_status : keys_unique ds_device (fr_status s);
  si_step : ∀ c, c ∈ fr_status s → in_step (devs (fr_db s)) c }.

Lemma in_step_le l l' c : devices_le l l' → in_step l c → in_step l' c.
Proof.
  intros H Hc v' Hv' Ek. destruct (devices_le_elem _ _ _ H Hv') as (v & Hv & []). destruct (Hc v Hv) as [? ?]; [congruence|]. lia.
Qed.

Lemma acked_to_bounds n acked current : acked ≤ current → acked ≤ acked_to n acked current ≤ current.
Proof. intros H. unfold acked_to, version_acked. destruct n as [n|]; [|lia]. destruct (_ && _) eqn:E; [|lia]. bprop. cbn. lia. Qed.

Lemma reported_later r v t now c :
  stale_report r t c = false → ds_acked c ≤ v_config_version v → ds_applied c ≤ c_offline_version (v_config v) →
  status_le c (reported_status r v t now c).
Proof.
  intros Hs Ha Hp. constructor; cbn; try lia; [done| |by apply acked_to_bounds..].
  intros n Hn. unfold stale_report in Hs. rewrite Hn in Hs. destruct (sr_sequence r) as [m|]; [|done]. exists m. split; [done|]. bprop. lia.
Qed.

(** One request: the invariant holds and every row has a later state. *)
Lemma frame_apply_status q s :
  status_inv s → status_inv (frame_apply q s) ∧ ∀ c, c ∈ fr_status s → ∃ c', c' ∈ fr_status (frame_apply q s) ∧ status_le c c'.
Proof.
  intros [U1 U2 I]. pose proof (frame_apply_devices q s U1) as Hd.
  assert (∀ p f, fr_status (frame_apply q s) = update_where p f (fr_status s) →
    (∀ c, c ∈ fr_status s → p c = true → status_le c (f c) ∧ in_step (devs (fr_db s)) (f c)) →
    status_inv (frame_apply q s) ∧ ∀ c, c ∈ fr_status s → ∃ c', c' ∈ fr_status (frame_apply q s) ∧ status_le c c') as Hgen.
  { intros p f E Hf. split; [split|].
    - unfold keys_unique. by rewrite (devices_le_ids _ _ Hd).
    - rewrite E. apply unique_map_ids; [|done]. intros c Hc Ep. by destruct (Hf c Hc Ep) as [[] _].
    - rewrite E. intros c' (c & Hc & ->)%update_where_elem. apply (in_step_le _ _ _ Hd). destruct (p c) eqn:Ep; [by apply Hf|by apply I].
    - intros c Hc. exists (if p c then f c else c). rewrite E. split; [apply update_where_elem; by exists c|].
      destruct (p c) eqn:Ep; [by apply Hf|done]. }
  assert (fr_status (frame_apply q s) = fr_status s →
    status_inv (frame_apply q s) ∧ ∀ c, c ∈ fr_status s → ∃ c', c' ∈ fr_status (frame_apply q s) ∧ status_le c c') as Hsame.
  { intros E. apply (Hgen (λ _, false) id); [|done]. rewrite E. symmetry. by apply update_where_none, existsb_none. }
  destruct q; try by apply Hsame.
  - cbn [frame_apply] in *. unfold record_status in *. destruct (status_time r now) as [[t|]|]; [|by apply Hsame..]. cbn [rbind] in *.
    destruct (get_device _ _) as [v|] eqn:Ev; [|by apply Hsame]. destruct (get_status d s) as [c0|] eqn:Ec; [|by apply Hsame].
    destruct (stale_report r t c0) eqn:Es; [by apply Hsame|]. eapply Hgen; [reflexivity|]. intros c Hc Ek.
    unfold get_status in Ec. rewrite (by_key_elem _ _ _ _ U2 Hc Ek) in Ec. injection Ec as <-. unfold by_key in Ek. bprop.
    apply get_row_Some in Ev as [Hv Ev]. destruct (I c Hc v Hv) as [Ha Hp]; [congruence|]. split; [by apply reported_later|].
    intros v2 Hv2 E2. cbn in E2. assert (v2 = v) as -> by (apply (keys_unique_inj v_id _ _ _ U1 Hv2 Hv); congruence). cbn.
    split; by apply acked_to_bounds.
  - eapply Hgen; [reflexivity|]. intros c Hc _. split; [|intros v Hv Ek; by apply (I c Hc v Hv)].
    constructor; cbn; try lia; [done|eauto with lia|destruct succeeded; lia..].
Qed.

(** C21. What the server knows of a frame only moves forward.  Reports,
    downloads and changes of settings in any order: a status row is never
    lost, its sequence number and the acknowledged configuration and schedule
    versions never fall, the download counters only grow, and no acknowledged
    version is ahead of the one the server has issued, however late or forged
    a report is. *)
Theorem reports_only_move_forward qs s c :
  status_inv s → c ∈ fr_status s →
  ∃ c', c' ∈ fr_status (frame_run qs s) ∧ status_le c c' ∧ in_step (devs (fr_db (frame_run qs s))) c'.
Proof.
  unfold frame_run. revert s c. induction qs as [|q qs IH]; intros s c I Hc; cbn [fold_left].
  - exists c. split; [done|]. split; [done|by apply I].
  - destruct (frame_apply_status q s I) as [I' H]. destruct (H c Hc) as (c1 & H1 & L1). destruct (IH _ c1 I' H1) as (c2 & H2 & L2 & S2).
    exists c2. split; [done|]. split; [by etrans|done].
Qed.

(** ** Quarantine *)

Lemma quarantined_rows_stay qs s d :
  keys_unique v_id (devs (fr_db s)) → (∀ v, v ∈ devs (fr_db s) → v_id v = d → quarantined (v_config v) = true) →
  ∀ v, v ∈ devs (fr_db (frame_run qs s)) → v_id v = d → quarantined (v_config v) = true.
Proof.
  intros U H v Hv Ek. destruct (devices_le_elem _ _ _ (frame_run_devices qs s U) Hv) as (v0 & Hv0 & []). apply dl_quarantine0, H; [done|congruence].
Qed.

Lemma quarantined_unusable c : quarantined c = true → offline_schedule_capability_is_usable (Some (c_capability c)) = false.
Proof. unfold quarantined. intros ->%str_eqb_eq. done. Qed.

Lemma quarantined_not_prepared zn w f d date ids ex now s :
  (∀ v, v ∈ devs s → v_id v = d → quarantined (v_config v) = true) → ∀ x, prepare_day zn w f d date ids ex now s ≠ Ok x.
Proof.
  intros Hq x (_ & _ & (_ & _ & (_ & _ & (p & Hp & _)%rbind_ok)%rbind_ok)%rbind_ok)%rbind_ok. unfold plan_day, enabled_device in Hp.
  destruct (get_device (devs s) d) as [v|] eqn:Ev; [|done]. destruct (v_enabled v); [|done]. apply get_row_Some in Ev as [Hv Ek].
  rewrite (quarantined_unusable _ (Hq v Hv Ek)) in Hp. by apply rbind_ok in Hp as (_ & _ & (_ & _ & Hp)%rbind_ok).
Qed.

(** C22. A frame that reports room for fewer slots than the server has stored
    is quarantined: from the moment the report is accepted, whatever reports,
    downloads and changes of settings follow, no playlist is prepared for it
    and the scheduler does not list it as due. *)
Theorem quarantine_stops_preparation qs d r now s s' v zn w f date ids ex t limit :
  keys_unique v_id (devs (fr_db s)) → get_device (devs (fr_db s)) d = Some v → downgraded r v = true →
  record_status d r now s = Ok (true, s') →
  (∀ x, prepare_day zn w f d date ids ex t (fr_db (frame_run qs s')) ≠ Ok x) ∧
  ∀ y, y ∈ fst (due_prefetch_devices limit t (fr_db (frame_run qs s'))) → v_id y ≠ d.
Proof.
  intros U Hv Hd H. assert (devices_le (devs (fr_db s)) (devs (fr_db s'))) as Hle.
  { pose proof (frame_apply_devices (Report d r now) s U) as Hle. cbn [frame_apply] in Hle. by rewrite H in Hle. }
  assert (∀ y, y ∈ devs (fr_db (frame_run qs s')) → v_id y = d → quarantined (v_config y) = true) as Hq.
  { apply quarantined_rows_stay; [unfold keys_unique; by rewrite (devices_le_ids _ _ Hle)|]. unfold record_status in H.
    apply rbind_ok in H as ([ts|] & _ & H); [|done]. rewrite Hv in H. destruct (get_status d s) as [c|]; [|done].
    destruct (stale_report r ts c); [done|]. apply ok_pair in H as [_ <-]. intros y (x & Hx & ->)%update_where_elem Ek.
    unfold by_key in Ek |- *. rewrite Hd in Ek |- *. destruct (str_eqb (v_id x) d) eqn:E; [done|]. cbn in Ek. subst d. by rewrite str_eqb_refl in E. }
  split; [by apply quarantined_not_prepared|]. intros y Hy Ek. unfold due_prefetch_devices in Hy. cbn [fst] in Hy.
  apply elem_of_take in Hy as (i & Hy%list_elem_of_lookup_2 & _). apply elem_of_take in Hy as (j & Hy%list_elem_of_lookup_2 & _).
  rewrite sort_by_elem, filter_elem in Hy. destruct Hy as [Hy Hdue]. apply Hq, quarantined_unusable in Hy; [|done].
  unfold prepare_due, offline_ready_device in Hdue. unfold offline_schedule_capability_is_usable in Hy. rewrite Hy, andb_false_r in Hdue. done.
Qed.
End frame_runs.

(** ** Examples *)

Definition quiet_status (d : string) : status_row :=
  mk_status (u d) None None None None None None None None None 0 None 0 None 0 0 None None.
Definition attic_frames : frames := mk_frames household [quiet_status "hall"; quiet_status "attic"] [] [].
Definition status_report (sequence : Z) (config : option Z) (details : list (str * json)) : report :=
  mk_report (u "fw-1") (Some (-60)) None None None [] [] (u "timer") config None (Some sequence) None details.

Lemma attic_frames_inv : status_inv attic_frames.
Proof.
  split; [by apply (bool_decide_unpack _)..|]. intros c Hc v Hv _.
  change (v ∈ [demo_device "hall" false; demo_device "attic" true]) in Hv. change (c ∈ [quiet_status "hall"; quiet_status "attic"]) in Hc.
  rewrite !elem_of_cons in Hc. rewrite !elem_of_cons in Hv.
  destruct Hc as [->|[->|Hc]]; [..|inversion Hc]; (destruct Hv as [->|[->|Hv]]; [..|inversion Hv]); cbn; lia.
Qed.

Definition hall_requests : list frame_request :=
  [Report (u "hall") (status_report 7 (Some 1) []) (seconds 10); Report (u "hall") (status_report 5 (Some 9) []) (seconds 20);
   Download (u "hall") (u "r1") true (seconds 30)].

Lemma reports_only_move_forward_witness :
  map (λ c, (ds_sequence c, ds_acked c, ds_success c)) (fr_status (frame_run utc_only hall_requests attic_frames))
    = [(Some 7, 1, 1); (None, 0, 0)] ∧
  ∃ c', c' ∈ fr_status (frame_run utc_only hall_requests attic_frames) ∧ status_le (quiet_status "hall") c' ∧
    in_step (devs (fr_db (frame_run utc_only hall_requests attic_frames))) c'.
Proof.
  split; [vm_compute; reflexivity|].
  exact (reports_only_move_forward utc_only hall_requests attic_frames (quiet_status "hall") attic_frames_inv (list_elem_of_here _ _)).
Defined.

(** The attic frame was confirmed for 24 slots and reports 12. *)
Definition roomy_attic : device :=
  let v := demo_device "attic" true in
  let c := v_config v in
  v <| v_config := mk_dconfig (c_name c) (c_timezone c) (c_schedule c) (c_rotation c) (c_panel c) (c_orientation c) (c_layout c) (c_fit c)
                     (c_delivery c) (c_prefetch_allowed c) (c_offline_schedule c) (c_offline_version c) (c_schedule_times c)
                     (c_prefetch_lead c) (c_button c) (c_gap c) (c_sync_strategy c) (c_sync_time c) (c_stock_host c) 24
                     (u "confirmed_24") (Some 0) |>.
Definition roomy_frames : frames := mk_frames (household <| devs := [demo_device "hall" false; roomy_attic] |>) [quiet_status "attic"] [] [].
Definition fewer_slots : report := status_report 1 None [(u "offline_schedule_max_slots", JInt 12)].
Definition quarantined_frames : frames :=
  match record_status (u "attic") fewer_slots (seconds 10) roomy_frames with Ok (_, s) => s | Raise _ => roomy_frames end.

Lemma roomy_unique : keys_unique v_id (devs (fr_db roomy_frames)).
Proof. by apply (bool_decide_unpack _). Qed.
Lemma roomy_found : get_device (devs (fr_db roomy_frames)) (u "attic") = Some roomy_attic.
Proof. vm_compute. reflexivity. Qed.
Lemma roomy_downgraded : downgraded fewer_slots roomy_attic = true.
Proof. vm_compute. reflexivity. Qed.
Lemma roomy_reported : record_status (u "attic") fewer_slots (seconds 10) roomy_frames = Ok (true, quarantined_frames).
Proof. vm_compute. reflexivity. Qed.

Lemma quarantine_stops_preparation_witness :
  length (fst (due_prefetch_devices 10 (seconds 20) (fr_db roomy_frames))) = 1%nat ∧
  (∀ x, prepare_day utc_only weekly_off (DeliveryWitness.ids "list") (u "attic") 100 (map u ["r1"; "r2"]%string) None (seconds 20)
          (fr_db (frame_run utc_only hall_requests quarantined_frames)) ≠ Ok x) ∧
  ∀ y, y ∈ fst (due_prefetch_devices 10 (seconds 20) (fr_db (frame_run utc_only hall_requests quarantined_frames))) → v_id y ≠ u "attic".
Proof.
  split; [vm_compute; reflexivity|].
  exact (quarantine_stops_preparation utc_only hall_requests (u "attic") fewer_slots (seconds 10) roomy_frames quarantined_frames roomy_attic
           utc_only weekly_off (DeliveryWitness.ids "list") 100 (map u ["r1"; "r2"]%string) None (seconds 20) 10
           roomy_unique roomy_found roomy_downgraded roomy_reported).
Defined.
