(* ===== verification/Pairing.v ===== *)
(** * Device pairing (services/device_pairing.py)

    The enrolment of a frame: request, approval by an administrator (or by the
    server itself on a trusted LAN), claim of a fresh secret, confirmation by
    the device, and rejection, revocation and repair.  Each handler is one
    transaction: one that raises leaves the tables alone, except [claim], whose
    rejection of a wrong nonce is committed first ([ClaimDenied]).

    Arguments: the pepper, whether the LAN is trusted, which time zone names
    the system knows, and the Fernet cipher as [seal] and [unseal] on the
    envelope's JSON value.  JSON columns hold their value.  Random identifiers
    and the clock come in a [world].  An administrator is the name of an
    account: no code deletes one, so the foreign key of approved_by holds. *)

From S2P Require Import Prelude PyStr Json Sql Store Reservations Sha256 Hmac OfflineSchedule Schema Devices.
Local Open Scope Z_scope.

Inductive pexn := PairError (status : Z) (code : string) | PairKey | PairIntegrity.
Definition pair_004 {A} : result pexn A := Raise (PairError 400 "PAIR-004").

Definition PAIRING_TTL : Z := 5 * minute.
Definition LAN_PAIRING_TTL : Z := 1440 * minute.
Definition PAIRING_CLAIM_ATTEMPT_LIMIT : Z := 5.
Definition PAIRING_RATE_LIMIT : Z := 5.
Definition PAIRING_RATE_WINDOW : Z := 5 * minute.
Definition PAIRING_MAX_PENDING : Z := 100.
Definition PAIRING_RETENTION : Z := 1440 * minute.
Definition REPAIR_PERMISSION_TTL : Z := 10 * minute.

(** ** Input texts *)

(** [d.get(key)], and with a default. *)
Definition jget (m : list (str * json)) (key : string) : json := default JNull (assoc_get (u key) m).
Definition jget_or (m : list (str * json)) (key : string) (d : json) : json := default d (assoc_get (u key) m).

Definition _validate_text (value : json) (maximum : Z) (required : bool) : result pexn str :=
  let* text := match value with JNull => Ok [] | JStr s => Ok (strip s) | _ => pair_004 end in
  raise_if (required && match text with [] => true | _ => false end) (PairError 400 "PAIR-004") ;;;
  raise_if (maximum <? slen text) (PairError 400 "PAIR-004") ;;;
  Ok text.

Definition alnum (c : Z) : bool :=
  ((65 <=? c) && (c <=? 90)) || ((97 <=? c) && (c <=? 122)) || ((48 <=? c) && (c <=? 57)).
(** DEVICE_ID_PATTERN *)
Definition device_id_ok (s : str) : bool :=
  match s with
  | c :: s' => alnum c && forallb (λ c, alnum c || (c =? 46) || (c =? 95) || (c =? 58) || (c =? 45)) s' && (slen s' <=? 127)
  | [] => false
  end.
Definition _validate_device_id (value : json) : result pexn str :=
  let* id := _validate_text value 128 true in
  raise_if (negb (device_id_ok id)) (PairError 400 "PAIR-004") ;;;
  Ok id.

(** The reported capabilities, as the object that is stored. *)
Definition capability_ok (raw : json) : bool :=
  match raw with JStr s => slen s <=? 128 | JBool _ | JInt _ => true | _ => false end.
Fixpoint capabilities_from (members safe : list (str * json)) : result pexn (list (str * json)) :=
  match members with
  | [] => Ok safe
  | (key, raw) :: rest =>
      let name := strip key in
      raise_if (match name with [] => true | _ => 64 <? slen name end || negb (capability_ok raw)) (PairError 400 "PAIR-004") ;;;
      capabilities_from rest (assoc_set name raw safe)
  end.
Definition _capabilities (value : json) : result pexn (list (str * json)) :=
  match value with
  | JObj m =>
      raise_if (32 <? Z.of_nat (length m)) (PairError 400 "PAIR-004") ;;;
      let* safe := capabilities_from m [] in
      Ok (sort_by (λ a b, str_leb (fst a) (fst b)) safe)
  | _ => pair_004
  end.

(** [resolve({"offline_schedule_max_slots": value})] *)
Definition resolve_slots (value : json) : Z :=
  resolve_offline_schedule_max_slots (JObj [(u "offline_schedule_max_slots", value)]).

Definition _capability_conflict (stored advertised : json) (schedule_values : json) : option json :=
  let stored := resolve_slots stored in
  let advertised := resolve_slots advertised in
  match schedule_values with
  | JList l =>
      let n := Z.of_nat (length l) in
      if (stored <=? advertised) || (n <=? advertised) then None
      else Some (JObj [(u "error_code", JStr (u "PAIR-CAPABILITY-CONFLICT")); (u "stored_max_slots", JInt stored);
                       (u "advertised_max_slots", JInt advertised); (u "schedule_count", JInt n);
                       (u "message", JStr (u "裝置目前保留 " ++ z_str stored ++ u "-slot 排程，但本次配對只宣告 "
                          ++ z_str advertised ++ u "-slot capability；已保留設定並等待管理員處理"))])
  | _ => None
  end.

Definition _stored_capability_conflict (config : json) : option json :=
  match config with
  | JObj m =>
      match jget m "capability_conflict" with
      | JObj c => match jget c "error_code" with
                  | JStr s => if str_eqb s (u "PAIR-CAPABILITY-CONFLICT") then Some (JObj c) else None
                  | _ => None
                  end
      | _ => None
      end
  | _ => None
  end.

(** ** Configurations *)

Fixpoint increasing (l : list Z) : bool :=
  match l with a :: ((b :: _) as l') => (a <? b) && increasing l' | _ => true end.

Definition nonempty_texts (l : list str) : list str := List.filter (λ s, match s with [] => false | _ => true end) (map strip l).

Definition _schedule_values (raw : json) (fallback : str) (gap maximum : Z) : result pexn (list str) :=
  let* values := match raw with
                 | JNull => Ok [fallback]
                 | JStr s => Ok (nonempty_texts (split_comma s []))
                 | JList l => match all_strings l with Some ss => Ok (nonempty_texts ss) | None => pair_004 end
                 | _ => pair_004
                 end in
  raise_if (match values with [] => true | _ => false end || (maximum <? Z.of_nat (length values))
            || existsb (λ s, negb (valid_time s)) values) (PairError 400 "PAIR-004") ;;;
  raise_if (negb (increasing (omap time_minutes values))) (PairError 400 "PAIR-004") ;;;
  match validate_offline_schedule values maximum gap with Ok _ => Ok values | Raise _ => pair_004 end.

Record pconfig := mk_pconfig {
  p_name : str; p_timezone : str; p_schedule : str; p_times : list str; p_rotation : Z; p_panel : str; p_delivery : str;
  p_lead : Z; p_button : str; p_gap : Z; p_sync_strategy : str; p_sync_time : option str;
  p_orientation : option str; p_layout : option str; p_fit : option str; p_slots : Z }.

Definition opt_json (o : option str) : json := match o with Some s => JStr s | None => JNull end.
(** The dict that [_normalize_config] returns. *)
Definition config_members (p : pconfig) : list (str * json) :=
  [(u "name", JStr (p_name p)); (u "timezone", JStr (p_timezone p)); (u "schedule", JStr (p_schedule p));
   (u "schedule_times", JList (map JStr (p_times p))); (u "rotation", JInt (p_rotation p));
   (u "panel_profile", JStr (p_panel p)); (u "delivery_mode", JStr (p_delivery p));
   (u "prefetch_lead_minutes", JInt (p_lead p)); (u "button_wake_action", JStr (p_button p));
   (u "minimum_schedule_gap_minutes", JInt (p_gap p)); (u "sync_strategy", JStr (p_sync_strategy p));
   (u "sync_time", opt_json (p_sync_time p)); (u "stock_endpoint_host", JNull);
   (u "frame_orientation", opt_json (p_orientation p)); (u "layout_mode", opt_json (p_layout p));
   (u "fit_mode", opt_json (p_fit p)); (u "offline_schedule_max_slots", JInt (p_slots p))].

(** The arguments of [normalize_sync_strategy] from JSON: [str()] of anything
    but a text is neither a strategy nor a time. *)
Definition strategy_arg (j : json) : option str :=
  match j with JStr s => Some s | _ => if truthy j then Some (u "?") else None end.
Definition time_arg (j : json) : option str :=
  match j with JStr s => Some s | JNull => None | _ => Some (u "?") end.

Definition int_in (j : json) (lower upper : Z) : result pexn Z :=
  match j with
  | JInt n => if (lower <=? n) && (n <=? upper) then Ok n else pair_004
  | _ => pair_004
  end.
(** A text that may be empty or one of the allowed words. *)
Definition optional_word (j : json) (maximum : Z) (allowed : list string) : result pexn (option str) :=
  let* s := _validate_text j maximum false in
  match s with
  | [] => Ok None
  | _ => if str_in s (map u allowed) then Ok (Some s) else pair_004
  end.

Definition layout_words : list string :=
  ["adaptive_memory"; "full"; "postcard"; "photo_info"; "photo_pair"; "calendar"; "weather_sensor"]%string.
Definition fit_words : list string := ["stretch_fill"; "contain"; "cover"]%string.
Definition orientation_words : list string := ["portrait"; "landscape"]%string.
Definition delivery_words : list string := ["legacy_online"; "inktime_offline_schedule"]%string.
Definition button_words : list string := ["check_new"; "local_next"]%string.

(** ** Tables *)

Inductive pstatus := PPending | PApproved | PIssued | PConfirmed | PRejected | PExpired.
#[export] Instance pstatus_eq : EqDecision pstatus.
Proof. solve_decision. Defined.

(** One row of device_pairing_requests. *)
Record prow := mk_prow {
  r_id : str; r_device : str; r_nonce_hash : str; r_firmware_identity : str; r_firmware_version : option str;
  r_panel : option str; r_capabilities : list (str * json); r_config : json; r_expires : Z; r_claim_attempts : Z;
  r_status : pstatus; r_requested : Z; r_approved_at : option Z; r_approved_by : option str; r_issued_at : option Z;
  r_envelope : option str; r_envelope_expires : option Z; r_confirmed_at : option Z }.
Definition prow_eta (r : prow) : prow :=
  mk_prow (r_id r) (r_device r) (r_nonce_hash r) (r_firmware_identity r) (r_firmware_version r) (r_panel r)
    (r_capabilities r) (r_config r) (r_expires r) (r_claim_attempts r) (r_status r) (r_requested r) (r_approved_at r)
    (r_approved_by r) (r_issued_at r) (r_envelope r) (r_envelope_expires r) (r_confirmed_at r).
#[export] Instance set_r_capabilities : Settable r_capabilities := ltac:(derive_setter prow_eta r_capabilities).
#[export] Instance set_r_config : Settable r_config := ltac:(derive_setter prow_eta r_config).
#[export] Instance set_r_claim_attempts : Settable r_claim_attempts := ltac:(derive_setter prow_eta r_claim_attempts).
#[export] Instance set_r_status : Settable r_status := ltac:(derive_setter prow_eta r_status).
#[export] Instance set_r_approved_at : Settable r_approved_at := ltac:(derive_setter prow_eta r_approved_at).
#[export] Instance set_r_approved_by : Settable r_approved_by := ltac:(derive_setter prow_eta r_approved_by).
#[export] Instance set_r_issued_at : Settable r_issued_at := ltac:(derive_setter prow_eta r_issued_at).
#[export] Instance set_r_envelope : Settable r_envelope := ltac:(derive_setter prow_eta r_envelope).
#[export] Instance set_r_envelope_expires : Settable r_envelope_expires := ltac:(derive_setter prow_eta r_envelope_expires).
#[export] Instance set_r_confirmed_at : Settable r_confirmed_at := ltac:(derive_setter prow_eta r_confirmed_at).

(** A row of device_pairing_rate_limits, and of the two audit tables. *)
Record limit_row := mk_limit { l_scope : str; l_hash : str; l_at : Z }.
Record activity := mk_activity {
  e_source : str; e_severity : str; e_event : str; e_message : str; e_device : option str; e_error : option str; e_at : Z }.

Record pdb := mk_pdb {
  pdevices : list device; requests : list prow; limits : list limit_row; activities : list activity;
  device_events : list activity }.
Definition pdb_eta (s : pdb) : pdb := mk_pdb (pdevices s) (requests s) (limits s) (activities s) (device_events s).
#[export] Instance set_pdevices : Settable pdevices := ltac:(derive_setter pdb_eta pdevices).
#[export] Instance set_requests : Settable requests := ltac:(derive_setter pdb_eta requests).
#[export] Instance set_limits : Settable limits := ltac:(derive_setter pdb_eta limits).
#[export] Instance set_activities : Settable activities := ltac:(derive_setter pdb_eta activities).
#[export] Instance set_device_events : Settable device_events := ltac:(derive_setter pdb_eta device_events).

(** The clock of the handler and of the audit row, and the random texts. *)
Record world := mk_world { w_now : Z; w_log : Z; w_id : str; w_secret : str; w_placeholder : str }.

Definition active_statuses : list pstatus := [PPending; PApproved; PIssued].
Definition status_in (l : list pstatus) (r : prow) : bool := bool_decide (r_status r ∈ l).
Definition is_active (r : prow) : bool := status_in active_statuses r.
Definition get_request (s : pdb) (k : str) : option prow := get_row r_id k (requests s).
Definition update_request (k : str) (f : prow → prow) (s : pdb) : pdb :=
  s <| requests := update_where (by_key r_id k) f (requests s) |>.
Definition update_pdevice (k : str) (f : device → device) (s : pdb) : pdb :=
  s <| pdevices := update_device k f (pdevices s) |>.
Definition drop_envelope (r : prow) : prow := r <| r_envelope := None |> <| r_envelope_expires := None |>.

(** [_stored_lan_request] *)
Definition _stored_lan_request (r : prow) : bool :=
  match jget (r_capabilities r) "_enrollment_mode" with JStr s => str_eqb s (u "trusted_lan") | _ => false end.

(** [_activity]: INSERT OR IGNORE by source id, and the device's own event. *)
Definition _activity (w : world) (device_id : option str) (source event message : str) (error : option str) (warning : bool)
    (s : pdb) : pdb :=
  let row severity src := mk_activity src severity (take 128 event) (take 500 message) device_id (take 64 <$> error) (w_log w) in
  let source := take 128 source in
  let s := if existsb (λ a, str_eqb (e_source a) source) (activities s) then s
           else s <| activities := activities s ++ [row (if warning then u "WARNING" else u "INFO") source] |> in
  match device_id with
  | Some _ => s <| device_events := device_events s ++ [row (if warning then u "warning" else u "info") []] |>
  | None => s
  end.

Section service.
Context (pepper : str) (trusted_lan : bool) (zone_known : str → bool) (seal : json → str) (unseal : str → option json).

Definition _normalize_config (source : list (str * json)) (fallback_name : str) (slots : Z) : result pexn pconfig :=
  let maximum := resolve_slots (JInt slots) in
  let* name := _validate_text (jget source "name") 100 false in
  let name := match name with [] => fallback_name | _ => name end in
  let* zone := _validate_text (jget_or source "timezone" (JStr (u "Asia/Taipei"))) 64 false in
  raise_if (negb (zone_known zone)) (PairError 400 "PAIR-004") ;;;
  let* schedule := _validate_text (jget_or source "schedule" (JStr (u "08:00"))) 5 true in
  raise_if (negb (valid_time schedule)) (PairError 400 "PAIR-004") ;;;
  let* gap := int_in (jget_or source "minimum_schedule_gap_minutes" (JInt MINIMUM_SCHEDULE_GAP_MINUTES)) 30 360 in
  let* sync := match normalize_sync_strategy
                       (strategy_arg (jget_or source "sync_strategy" (JStr (u "first_display_lead"))))
                       (time_arg (jget source "sync_time")) with Ok r => Ok r | Raise _ => pair_004 end in
  let* times := _schedule_values (jget source "schedule_times") schedule gap maximum in
  let* rotation := match jget_or source "rotation" (JInt 0) with
                   | JInt n => if (n =? 0) || (n =? 180) then Ok n else pair_004 | _ => pair_004 end in
  let* panel := _validate_text (jget_or source "panel_profile" (JStr (u "safe_4c"))) 128 true in
  let* delivery := _validate_text (jget_or source "delivery_mode" (JStr (u "legacy_online"))) 64 false in
  raise_if (negb (str_in delivery (map u delivery_words))) (PairError 409 "PAIR-003") ;;;
  let* lead := int_in (jget_or source "prefetch_lead_minutes" (JInt 5)) 0 120 in
  let* button := _validate_text (jget_or source "button_wake_action" (JStr (u "check_new"))) 64 false in
  raise_if (negb (str_in button (map u button_words))) (PairError 400 "PAIR-004") ;;;
  let* orientation := optional_word (jget source "frame_orientation") 32 orientation_words in
  let* layout := optional_word (jget source "layout_mode") 64 layout_words in
  let* fit := optional_word (jget source "fit_mode") 32 fit_words in
  let schedule := if str_in schedule times then schedule else match times with t :: _ => t | [] => schedule end in
  Ok (mk_pconfig name zone schedule times rotation panel delivery lead button gap (fst sync) (snd sync) orientation layout
        fit maximum).

(** ** Rate limits and expiry *)

Definition _rate_scope (scope value : str) (now : Z) (s : pdb) : result pexn pdb :=
  let cutoff := now - PAIRING_RATE_WINDOW in
  let digest := hash_pairing_scope scope value pepper in
  raise_if (PAIRING_RATE_LIMIT <=? countb (λ l, str_eqb (l_scope l) scope && str_eqb (l_hash l) digest && (cutoff <=? l_at l)) (limits s))
    (PairError 429 "PAIR-002") ;;;
  Ok (s <| limits := limits s ++ [mk_limit scope digest now] |>).
Definition _rate_limit (ip device_id : str) (now : Z) (s : pdb) : result pexn pdb :=
  let s := s <| limits := List.filter (λ l, negb (l_at l <? now - PAIRING_RATE_WINDOW)) (limits s) |> in
  let* s := _rate_scope (u "ip") (take 128 ip) now s in
  _rate_scope (u "device") (take 128 device_id) now s.

(** Whether [_expire_requests] closes the row. *)
Definition lapsed_request (now : Z) (r : prow) : bool :=
  is_active r
  && ((r_expires r <=? now)
      || (status_in [PIssued] r && match r_envelope_expires r with Some t => t <=? now | None => false end)
      || (negb trusted_lan && _stored_lan_request r)).

Definition expire_device (now : Z) (d : device) : device :=
  if has_state PairingPending d
  then d <| v_auth := if is_null (a_revoked_at (v_auth d)) then (v_auth d) <| a_state := PairingExpired |> else v_auth d |>
         <| v_pairing_expires := None |> <| v_updated := now |>
  else d.
Definition expire_one (now : Z) (s : pdb) (r : prow) : pdb :=
  update_pdevice (r_device r) (expire_device now)
    (update_request (r_id r) (λ x, (drop_envelope x) <| r_status := PExpired |>) s).
Definition _expire_requests (now : Z) (s : pdb) : pdb :=
  let s := fold_left (expire_one now) (List.filter (lapsed_request now) (requests s)) s in
  s <| requests := List.filter (λ r, negb (status_in [PRejected; PExpired] r && (r_expires r <? now - PAIRING_RETENTION))) (requests s) |>.

(** ORDER BY requested_at DESC LIMIT 1 *)
Definition _active_request (s : pdb) (device_id : str) : option prow :=
  head (sort_by (λ a b, r_requested b <=? r_requested a)
          (List.filter (λ r, str_eqb (r_device r) device_id && is_active r) (requests s))).

(** INSERT: the primary key and the unique active request per device. *)
Definition insert_request (r : prow) (s : pdb) : result pexn pdb :=
  raise_if (has_key r_id (r_id r) (requests s)
            || existsb (λ x, str_eqb (r_device x) (r_device r) && is_active x) (requests s)) PairIntegrity ;;;
  Ok (s <| requests := requests s ++ [r] |>).

Definition default_name (device_id : str) : str := u "InkTime 相框 " ++ drop (length device_id - 6) device_id.

(** ** Approval *)

Definition or_text (s d : str) : str := match s with [] => d | _ => s end.
(** [value or other] of JSON values *)
Definition or_json (a b : json) : json := if truthy a then a else b.
Definition merge_members (a b : list (str * json)) : list (str * json) := fold_left (λ m kv, assoc_set (fst kv) (snd kv) m) b a.
Definition members_of (j : json) : list (str * json) := match j with JObj m => m | _ => [] end.
Definition refused_states : list pairing_state := [Paired; Revoked; AuthInvalid].
Definition refused (d : device) : bool := bool_decide (a_state (v_auth d) ∈ refused_states).
Definition not_pairable (d : device) : bool :=
  token_mode d || str_eqb (c_delivery (v_config d)) (u "stock_compat") || refused d.
Definition enrollment_mode : str := if trusted_lan then u "trusted_lan" else u "administrator".
Definition mark_enrollment (caps : list (str * json)) : list (str * json) :=
  assoc_set (u "_enrollment_mode") (JStr enrollment_mode) caps.

Definition _approve_request (w : world) (r : prow) (administrator : option str) (device_config : list (str * json)) (s : pdb)
  : result pexn pdb :=
  let dev := get_device (pdevices s) (r_device r) in
  raise_if (match dev with Some d => not_pairable d | None => false end) (PairError 409 "PAIR-003") ;;;
  let merged := merge_members (members_of (r_config r)) device_config in
  let merged :=
    match dev with
    | Some d =>
        assoc_set (u "panel_profile") (or_json (or_json (JStr (c_panel (v_config d))) (jget merged "panel_profile")) (JStr (u "safe_4c")))
          (assoc_set (u "name") (or_json (JStr (c_name (v_config d))) (jget merged "name")) merged)
    | None => merged
    end in
  let maximum := resolve_offline_schedule_max_slots (JObj (r_capabilities r)) in
  let stored := match dev with Some d => c_max_slots (v_config d) | None => maximum end in
  raise_if (negb (is_null (_capability_conflict (JInt stored) (JInt maximum) (jget merged "schedule_times"))))
    (PairError 409 "PAIR-CAPABILITY-CONFLICT") ;;;
  let* config := _normalize_config merged (default_name (r_device r)) maximum in
  Ok (_activity w (if is_null dev then None else Some (r_device r)) (r_id r ++ u ":approved") (u "pairing_approved")
        (if trusted_lan then u "內網裝置已自動註冊" else u "管理員已核准裝置加入") None false
        (update_request (r_id r)
           (λ x, x <| r_status := PApproved |> <| r_approved_at := Some (w_now w) |> <| r_approved_by := take 128 <$> administrator |>
                   <| r_config := JObj (config_members config) |>
                   <| r_capabilities := mark_enrollment (r_capabilities r) |>) s)).

Definition approve (w : world) (pairing_id : json) (administrator : str) (device_config : list (str * json)) (s : pdb)
  : result pexn (pstatus * pdb) :=
  let* id := _validate_text pairing_id 128 true in
  let s := _expire_requests (w_now w) s in
  match get_request s id with
  | None => Raise (PairError 404 "PAIR-003")
  | Some r =>
      if status_in [PApproved; PIssued; PConfirmed] r then Ok (r_status r, s)
      else
        raise_if (negb (status_in [PPending] r)) (PairError 410 "PAIR-007") ;;;
        let* s := _approve_request w r (Some administrator) device_config s in
        Ok (PApproved, s)
  end.

(** ** Request *)

Record preply := mk_preply { rp_code : Z; rp_status : pstatus; rp_id : str; rp_expires_in : Z; rp_reused : bool; rp_conflict : option json }.

Definition seconds_of (t : Z) : Z := t / 1000000.
Definition pairing_ttl : Z := if trusted_lan then LAN_PAIRING_TTL else PAIRING_TTL.

(** The first stored schedule that is a non-empty list. *)
Definition stored_schedule (d : device) : option (list json) :=
  match c_schedule_times (v_config d) with
  | JList ((_ :: _) as l) => Some l
  | _ => match c_offline_schedule (v_config d) with JList ((_ :: _) as l) => Some l | _ => None end
  end.
Definition config_source (d : device) : list (str * json) :=
  let c := v_config d in
  [(u "name", JStr (c_name c)); (u "timezone", JStr (or_text (c_timezone c) (u "Asia/Taipei")));
   (u "schedule", JStr (or_text (c_schedule c) (u "08:00"))); (u "rotation", JInt (c_rotation c));
   (u "panel_profile", JStr (or_text (c_panel c) (u "safe_4c")));
   (u "delivery_mode", JStr (or_text (c_delivery c) (u "legacy_online"))); (u "prefetch_lead_minutes", JInt (c_prefetch_lead c));
   (u "button_wake_action", JStr (or_text (c_button c) (u "check_new"))); (u "minimum_schedule_gap_minutes", JInt (c_gap c));
   (u "sync_strategy", JStr (or_text (c_sync_strategy c) (u "first_display_lead"))); (u "sync_time", opt_json (c_sync_time c));
   (u "frame_orientation", opt_json (c_orientation c)); (u "layout_mode", opt_json (c_layout c)); (u "fit_mode", opt_json (c_fit c))]
  ++ match stored_schedule d with Some l => [(u "schedule_times", JList l)] | None => [] end.

(** Why an existing device may not ask. *)
Definition request_refused (now : Z) (d : device) : bool :=
  str_eqb (c_delivery (v_config d)) (u "stock_compat") || token_mode d || refused d
  || (has_state PairingPending d && negb (is_null (a_revoked_at (v_auth d)))
      && negb (match a_repair_until (v_auth d) with Some t => now <? t | None => false end)).

Definition nullif (s : str) : option str := match s with [] => None | _ => Some s end.
Definition coalesce_text (s : str) (old : option str) : option str := match s with [] => old | _ => Some s end.

(** What the request says of itself. *)
Record pair_claims := mk_pair_claims {
  q_device : str; q_nonce : str; q_identity : str; q_version : str; q_panel : str; q_name : str; q_caps : list (str * json) }.
Definition read_request (payload : list (str * json)) : result pexn pair_claims :=
  let* device_id := _validate_device_id (jget payload "device_id") in
  let* nonce := _validate_text (jget payload "pairing_nonce") 256 true in
  raise_if (slen nonce <? 16) (PairError 400 "PAIR-004") ;;;
  let* identity := _validate_text (jget payload "firmware_identity") 256 false in
  let* version := _validate_text (jget payload "firmware_version") 64 false in
  let* panel := _validate_text (jget payload "panel_profile") 128 false in
  let* name := _validate_text (jget payload "device_name") 100 false in
  let* caps := _capabilities (jget_or payload "capabilities" (JObj [])) in
  Ok (mk_pair_claims device_id nonce identity version panel name (mark_enrollment caps)).

Definition new_request (w : world) (q : pair_claims) (config : json) : prow :=
  mk_prow (w_id w) (q_device q) (hash_pairing_nonce (q_nonce q) pepper) (q_identity q) (nullif (q_version q)) (nullif (q_panel q))
    (q_caps q) config (w_now w + pairing_ttl) 0 PPending (w_now w) None None None None None None.

(** The device repeats a request it has already made. *)
Definition reuse_request (w : world) (q : pair_claims) (r : prow) (s : pdb) : result pexn (preply * pdb) :=
  raise_if (negb (str_eqb (r_nonce_hash r) (hash_pairing_nonce (q_nonce q) pepper))) (PairError 409 "PAIR-003") ;;;
  let remaining := Z.max 1 (seconds_of (r_expires r - w_now w)) in
  let conflict := _stored_capability_conflict (r_config r) in
  let* rs := if trusted_lan && status_in [PPending] r && is_null conflict
             then let* s := _approve_request w r None [] s in
                  match get_request s (r_id r) with Some r' => Ok (r', s) | None => Raise PairIntegrity end
             else Ok (r, s) in
  Ok (mk_preply 200 (r_status (fst rs)) (r_id r) (Z.min remaining (seconds_of pairing_ttl)) true conflict, snd rs).

(** A new request for a device that may ask. *)
Definition open_request (w : world) (q : pair_claims) (dev : option device) (s : pdb) : result pexn (preply * pdb) :=
  let maximum := resolve_offline_schedule_max_slots (JObj (q_caps q)) in
  let source := match dev with
                | Some d => config_source d
                | None => [(u "name", opt_json (nullif (q_name q))); (u "panel_profile", JStr (or_text (q_panel q) (u "safe_4c")))]
                end in
  let schedule := match dev with Some d => stored_schedule d | None => None end in
  let stored := match dev with Some d => resolve_slots (JInt (c_max_slots (v_config d))) | None => maximum end in
  match _capability_conflict (JInt stored) (JInt maximum) (match schedule with Some l => JList l | None => JNull end) with
  | Some conflict =>
      let config := assoc_set (u "capability_conflict") conflict (assoc_set (u "offline_schedule_max_slots") (JInt stored) source) in
      let* s := insert_request (new_request w q (JObj config)) s in
      Ok (mk_preply 201 PPending (w_id w) (seconds_of pairing_ttl) false (Some conflict),
          _activity w (Some (q_device q)) (w_id w ++ u ":capability-conflict") (u "pairing_capability_conflict")
            (match conflict with JObj c => match jget c "message" with JStr m => m | _ => [] end | _ => [] end)
            (Some (u "PAIR-CAPABILITY-CONFLICT")) true s)
  | None =>
      let* config := _normalize_config source (or_text (q_name q) (default_name (q_device q))) maximum in
      let r := new_request w q (JObj (config_members config)) in
      let* s := insert_request r s in
      let* s := if trusted_lan then _approve_request w r None [] s else Ok s in
      let s := match dev with
               | Some d =>
                   if has_state PairingPending d
                   then update_pdevice (q_device q)
                          (λ x, x <| v_auth := (v_auth x) <| a_repair_until := None |> |> <| v_pairing_requested := Some (w_now w) |>
                                  <| v_firmware_identity := nullif (q_identity q) |>
                                  <| v_firmware_version := coalesce_text (q_version q) (v_firmware_version x) |> <| v_updated := w_now w |>) s
                   else s
               | None => s
               end in
      Ok (mk_preply 201 (if trusted_lan then PApproved else PPending) (w_id w) (seconds_of pairing_ttl) false None,
          _activity w (if is_null dev then None else Some (q_device q)) (w_id w ++ u ":requested") (u "pairing_requested")
            (u "裝置已提出加入請求") None false s)
  end.

Definition request_pairing (w : world) (payload : list (str * json)) (ip : str) (s : pdb) : result pexn (preply * pdb) :=
  let* q := read_request payload in
  let s := _expire_requests (w_now w) s in
  match _active_request s (q_device q) with
  | Some r => reuse_request w q r s
  | None =>
      raise_if (PAIRING_MAX_PENDING <=? countb is_active (requests s)) (PairError 429 "PAIR-002") ;;;
      let* s := _rate_limit ip (q_device q) (w_now w) s in
      let dev := get_device (pdevices s) (q_device q) in
      raise_if (match dev with Some d => request_refused (w_now w) d | None => false end) (PairError 409 "PAIR-003") ;;;
      open_request w q dev s
  end.

(** ** Claim *)

Definition envelope_members (device_id secret : str) (version : Z) (config : pconfig) (r : prow) (slots : Z) : list (str * json) :=
  [(u "device_id", JStr device_id); (u "device_secret", JStr secret); (u "credential_version", JInt version);
   (u "config", JObj (config_members config)); (u "firmware_version", JStr (coalesce (r_firmware_version r)));
   (u "firmware_identity", JStr (r_firmware_identity r)); (u "offline_schedule_max_slots", JInt slots)].

Definition _decode_envelope (r : prow) (now : Z) : result pexn (list (str * json)) :=
  raise_if (negb (match r_envelope_expires r with Some t => now <? t | None => false end)) (PairError 410 "PAIR-007") ;;;
  match r_envelope r with
  | None => Raise (PairError 409 "PAIR-009")
  | Some c =>
      match unseal c with
      | Some (JObj m) => match jget m "device_secret" with JStr _ => Ok m | _ => Raise (PairError 409 "PAIR-009") end
      | _ => Raise (PairError 409 "PAIR-009")
      end
  end.

(** What the device receives. *)
Inductive claim_reply :=
| ClaimDenied | ClaimPending | ClaimIssued (device_id secret : str) (version : Z) (config : json).
Definition text_member (m : list (str * json)) (key : string) : str := match jget m key with JStr s => s | _ => [] end.
Definition int_member (m : list (str * json)) (key : string) : Z := match jget m key with JInt n => n | _ => 0 end.
Definition _claim_response (m : list (str * json)) : claim_reply :=
  ClaimIssued (text_member m "device_id") (text_member m "device_secret") (int_member m "credential_version") (jget m "config").

(** A wrong nonce counts; the fifth closes the request. *)
Definition count_attempt (r x : prow) : prow :=
  let attempts := r_claim_attempts r + 1 in
  if PAIRING_CLAIM_ATTEMPT_LIMIT <=? attempts
  then (drop_envelope x) <| r_claim_attempts := attempts |> <| r_status := PRejected |>
  else x <| r_claim_attempts := attempts |> <| r_status := r_status r |>.

(** An approved request gets its secret. *)
Definition issue (w : world) (r : prow) (s : pdb) : result pexn (claim_reply * pdb) :=
  let dev := get_device (pdevices s) (r_device r) in
  raise_if (match dev with Some d => token_mode d || refused d | None => false end) (PairError 409 "PAIR-003") ;;;
  let version := match dev with Some d => Z.max 1 (a_version (v_auth d) + 1) | None => 1 end in
  let maximum := resolve_offline_schedule_max_slots (JObj (r_capabilities r)) in
  let* config := _normalize_config (members_of (r_config r)) (default_name (r_device r)) maximum in
  let m := envelope_members (r_device r) (w_secret w) version config r maximum in
  let expires := Z.min (r_expires r) (w_now w + pairing_ttl) in
  let s := update_request (r_id r)
             (λ x, x <| r_status := PIssued |> <| r_issued_at := Some (w_now w) |> <| r_envelope := Some (seal (JObj m)) |>
                     <| r_envelope_expires := Some expires |>) s in
  let s := if is_null dev then s
           else update_pdevice (r_device r)
                  (λ x, x <| v_auth := (v_auth x) <| a_state := PairingPending |> |> <| v_pairing_expires := Some expires |>
                          <| v_claim_attempts := 0 |> <| v_updated := w_now w |>) s in
  Ok (_claim_response m,
      _activity w (if is_null dev then None else Some (r_device r)) (r_id r ++ u ":credential-issued") (u "pairing_credential_issued")
        (u "配對 credential 已暫存等待裝置確認") None false s).

Definition claim (w : world) (pairing_id pairing_nonce : json) (s : pdb) : result pexn (claim_reply * pdb) :=
  let* id := _validate_text pairing_id 128 true in
  let* nonce := _validate_text pairing_nonce 256 true in
  let s := _expire_requests (w_now w) s in
  match get_request s id with
  | None => Raise (PairError 404 "PAIR-003")
  | Some r =>
      raise_if (status_in [PConfirmed] r) (PairError 409 "PAIR-009") ;;;
      raise_if (status_in [PExpired; PRejected] r) (PairError 410 "PAIR-007") ;;;
      if negb (str_eqb (r_nonce_hash r) (hash_pairing_nonce nonce pepper))
      then Ok (ClaimDenied, update_request id (count_attempt r) s)
      else if status_in [PPending] r && negb trusted_lan then Ok (ClaimPending, s)
      else if status_in [PIssued] r then let* m := _decode_envelope r (w_now w) in Ok (_claim_response m, s)
      else
        let* rs := if status_in [PPending] r
                   then let* s := _approve_request w r None [] s in
                        match get_request s id with Some r' => Ok (r', s) | None => Raise PairIntegrity end
                   else Ok (r, s) in
        issue w (fst rs) (snd rs)
  end.
(** ** Confirmation *)

Definition _secret_matches (stored : option str) (secret : str) : bool :=
  hash_is stored (hash_device_secret secret pepper) || hash_is stored (hash_device_token secret pepper).

Definition times_json (p : pconfig) : json := JList (map JStr (p_times p)).

(** The settings a confirmed configuration writes; [version] is the offline
    schedule's. *)
Definition confirmed_config (p : pconfig) (slots version : Z) : dconfig :=
  let offline := is_offline (p_delivery p) in
  mk_dconfig (p_name p) (p_timezone p) (p_schedule p) (p_rotation p) (p_panel p) (p_orientation p) (p_layout p) (p_fit p)
    (p_delivery p) offline (times_json p) version (times_json p) (p_lead p) (p_button p) (p_gap p) (p_sync_strategy p)
    (p_sync_time p) None slots (offline_schedule_capability_state slots) (if offline then Some bootstrap else None).

Definition confirmed_auth (m : list (str * json)) (token_hash : str) (now : Z) : dauth :=
  mk_dauth Automatic Paired (int_member m "credential_version") token_hash
    (Some (hash_device_secret (text_member m "device_secret") pepper)) (Some now) None None None.

Definition envelope_config (device_id : str) (m : list (str * json)) : result pexn (pconfig * Z) :=
  let slots := resolve_slots (jget m "offline_schedule_max_slots") in
  let* p := _normalize_config (members_of (jget m "config")) (default_name device_id) slots in
  Ok (p, slots).

Definition _insert_confirmed_device (w : world) (device_id : str) (m : list (str * json)) (s : pdb) : result pexn pdb :=
  let* ps := envelope_config device_id m in
  let '(p, slots) := ps in
  let digest := hash_device_token (u "auto-placeholder-" ++ w_placeholder w) pepper in
  let d := mk_device device_id true (confirmed_config p slots (if is_offline (p_delivery p) then 1 else 0))
             (confirmed_auth m digest (w_now w)) (nullif (text_member m "firmware_version"))
             (nullif (text_member m "firmware_identity")) None 0 None 1 None None (w_now w) (w_now w) in
  match insert_device d (pdevices s) with
  | Ok l => Ok (s <| pdevices := l |>)
  | Raise _ => Raise PairIntegrity
  end.

Definition _update_confirmed_device (w : world) (device_id : str) (m : list (str * json)) (s : pdb) : result pexn pdb :=
  match get_device (pdevices s) device_id with
  | None => _insert_confirmed_device w device_id m s
  | Some d =>
      raise_if (token_mode d || str_eqb (c_delivery (v_config d)) (u "stock_compat")) (PairError 409 "PAIR-003") ;;;
      let* ps := envelope_config device_id m in
      let '(p, slots) := ps in
      Ok (update_pdevice device_id
            (λ x, mk_device (v_id x) true (confirmed_config p slots (c_offline_version (v_config x) + 1))
                    (confirmed_auth m (a_token_hash (v_auth x)) (w_now w))
                    (coalesce_text (text_member m "firmware_version") (v_firmware_version x))
                    (coalesce_text (text_member m "firmware_identity") (v_firmware_identity x))
                    None 0 None (v_config_version x + 1) (v_last_seen x) (v_last_ip x) (v_created x) (w_now w)) s)
  end.

Inductive confirm_reply := Confirmed | AlreadyConfirmed | ConfirmPending.

Definition confirm (w : world) (pairing_id device_id pairing_nonce device_secret : json) (version : json) (s : pdb)
  : result pexn (confirm_reply * pdb) :=
  let* id := _validate_text pairing_id 128 true in
  let* device_id := _validate_device_id device_id in
  let* nonce := _validate_text pairing_nonce 256 true in
  let* secret := _validate_text device_secret 256 true in
  raise_if (negb (starts_with (u "ids_") secret) || (slen secret <? 32)) (PairError 401 "PAIR-008") ;;;
  let* version := match version with JInt n => if n <? 1 then Raise (PairError 401 "PAIR-008") else Ok n
                                   | _ => Raise (PairError 401 "PAIR-008") end in
  let s := _expire_requests (w_now w) s in
  match get_request s id with
  | None => Raise (PairError 404 "PAIR-003")
  | Some r =>
      raise_if (negb (str_eqb (r_device r) device_id)) (PairError 404 "PAIR-003") ;;;
      raise_if (negb (str_eqb (r_nonce_hash r) (hash_pairing_nonce nonce pepper))) (PairError 401 "PAIR-008") ;;;
      if status_in [PConfirmed] r then
        match get_device (pdevices s) device_id with
        | Some d => raise_if (negb (a_version (v_auth d) =? version) || negb (_secret_matches (a_secret_hash (v_auth d)) secret))
                      (PairError 401 "PAIR-008") ;;;
                    Ok (AlreadyConfirmed, s)
        | None => Raise (PairError 401 "PAIR-008")
        end
      else
        raise_if (status_in [PRejected; PExpired] r) (PairError 410 "PAIR-007") ;;;
        if status_in [PPending] r then Ok (ConfirmPending, s)
        else
          raise_if (negb (status_in [PIssued] r)) (PairError 409 "PAIR-009") ;;;
          let* m := _decode_envelope r (w_now w) in
          raise_if (negb (str_eqb (text_member m "device_id") device_id) || negb (int_member m "credential_version" =? version)
                    || negb (str_eqb (text_member m "device_secret") secret)) (PairError 401 "PAIR-008") ;;;
          let* s := _update_confirmed_device w device_id m s in
          Ok (Confirmed,
              _activity w (Some device_id) (id ++ u ":confirmed") (u "pairing_confirmed") (u "裝置已完成 credential confirm") None false
                (update_request id (λ x, (drop_envelope x) <| r_status := PConfirmed |> <| r_confirmed_at := Some (w_now w) |>) s))
  end.

(** ** Rejection, revocation and repair *)

Definition reject_row (x : prow) : prow := (drop_envelope x) <| r_status := PRejected |>.
(** UPDATE .. WHERE device_id=? AND status IN (active) *)
Definition reject_active (device_id : str) (s : pdb) : pdb :=
  s <| requests := update_where (λ r, str_eqb (r_device r) device_id && is_active r) reject_row (requests s) |>.

Definition reject_device (now : Z) (d : device) : device :=
  if has_state PairingPending d
  then let open := is_null (a_revoked_at (v_auth d)) in
       d <| v_auth := (v_auth d) <| a_state := if open then Unpaired else Revoked |> <| a_repair_until := None |> |>
         <| v_enabled := if open then false else v_enabled d |> <| v_pairing_expires := None |> <| v_updated := now |>
  else d.

Definition reject (w : world) (pairing_id : json) (administrator : str) (s : pdb) : result pexn pdb :=
  let* id := _validate_text pairing_id 128 true in
  match get_request s id with
  | None => Raise PairKey
  | Some r =>
      raise_if (negb (is_active r)) (PairError 410 "PAIR-007") ;;;
      let s := update_pdevice (r_device r) (reject_device (w_now w)) (update_request id reject_row s) in
      Ok (_activity w (if is_null (get_device (pdevices s) (r_device r)) then None else Some (r_device r)) (id ++ u ":rejected")
            (u "pairing_rejected") (u "管理員 " ++ take 128 administrator ++ u " 已拒絕裝置配對") None false s)
  end.

(** The audit row's source id carries the time, a unique text per call. *)
Definition revoke (w : world) (device_id : json) (administrator stamp : str) (s : pdb) : result pexn pdb :=
  let* id := _validate_device_id device_id in
  match get_device (pdevices s) id with
  | None => Raise PairKey
  | Some d =>
      raise_if (token_mode d) (PairError 409 "PAIR-003") ;;;
      let s := update_pdevice id (λ x, x <| v_auth := (v_auth x) <| a_state := Revoked |> <| a_revoked_at := Some (w_now w) |>
                                                        <| a_repair_until := None |> |> <| v_updated := w_now w |>) s in
      Ok (_activity w (Some id) (id ++ u ":" ++ stamp ++ u ":revoked") (u "credential_revoked")
            (u "管理員 " ++ take 128 administrator ++ u " 已撤銷裝置 credential") None false (reject_active id s))
  end.

Definition start_repair (w : world) (device_id : json) (administrator stamp : str) (s : pdb) : result pexn pdb :=
  let* id := _validate_device_id device_id in
  match get_device (pdevices s) id with
  | None => Raise PairKey
  | Some d =>
      raise_if (token_mode d) (PairError 409 "PAIR-003") ;;;
      let s := update_pdevice id
                 (λ x, x <| v_auth := (v_auth x) <| a_state := PairingPending |> <| a_revoked_at := Some (w_now w) |>
                                        <| a_repair_until := Some (w_now w + REPAIR_PERMISSION_TTL) |> |>
                         <| v_pairing_expires := None |> <| v_claim_attempts := 0 |> <| v_pairing_requested := None |>
                         <| v_updated := w_now w |>) s in
      Ok (_activity w (Some id) (id ++ u ":" ++ stamp ++ u ":repair") (u "pairing_repair_enabled")
            (u "管理員 " ++ take 128 administrator ++ u " 已允許重新配對") None false (reject_active id s))
  end.

(** ** The administrator's list *)

(** One entry; a request of a device the server does not know has no state. *)
Record admin_row := mk_admin_row {
  ar_id : str; ar_automatic : bool; ar_device : str; ar_display : str; ar_name : str; ar_version : str; ar_identity : str;
  ar_panel : str; ar_expires : Z; ar_claim_attempts : Z; ar_status : pstatus; ar_state : option pairing_state;
  ar_capabilities : list (str * json); ar_config : list (str * json); ar_conflict : option json }.

Definition display_id (id : str) : str :=
  if 16 <? slen id then take 8 id ++ u "…" ++ drop (length id - 6) id else id.

Definition admin_entry (s : pdb) (r : prow) : admin_row :=
  let dev := get_device (pdevices s) (r_device r) in
  let config := members_of (r_config r) in
  mk_admin_row (r_id r) trusted_lan (r_device r) (display_id (r_device r))
    (or_text (text_member config "name") (match dev with Some d => c_name (v_config d) | None => [] end))
    (or_text (coalesce (r_firmware_version r))
       (or_text (match dev with Some d => coalesce (v_firmware_version d) | None => [] end) (u "未知")))
    (r_firmware_identity r)
    (or_text (text_member config "panel_profile")
       (or_text (coalesce (r_panel r)) (match dev with Some d => c_panel (v_config d) | None => [] end)))
    (r_expires r) (r_claim_attempts r) (r_status r) (a_state ∘ v_auth <$> dev) (r_capabilities r) config
    (match jget config "capability_conflict" with JObj c => Some (JObj c) | _ => None end).

(** ORDER BY requested_at DESC, id DESC *)
Definition newest_request (a b : prow) : bool :=
  (r_requested b <? r_requested a) || ((r_requested a =? r_requested b) && str_leb (r_id b) (r_id a)).

Definition pending_for_admin (w : world) (s : pdb) : list admin_row * pdb :=
  let s := _expire_requests (w_now w) s in
  (map (admin_entry s) (take 100 (sort_by newest_request (List.filter is_active (requests s)))), s).
End service.
