(* ===== verification/PairingInv.v ===== *)
(** * The invariant of the pairing tables

    One active request per device, at most [PAIRING_MAX_PENDING] of them, each
    with fewer wrong claims than the limit; an approved request names its
    administrator or is marked as made in a trusted LAN; a device that is
    paired, revoked or invalid has no active request; a device with a secret has
    a confirmed request; an issued envelope carries the next version.  Every
    handler preserves it, in either mode of the LAN. *)

From stdpp Require Import sets.
From S2P Require Import Prelude PyStr Json Sql Store Reservations Sha256 Hmac OfflineSchedule Schema Devices Pairing.
Local Open Scope Z_scope.

(** Membership of a status in a list of statuses. *)
Ltac st_solver :=
  repeat match goal with
  | H : context [active_statuses] |- _ => unfold active_statuses in H
  | H : _ ∈ _ :: _ |- _ => rewrite !elem_of_cons, elem_of_nil in H
  | H : _ ∉ _ :: _ |- _ => rewrite !elem_of_cons, elem_of_nil in H
  end; unfold active_statuses; rewrite ?elem_of_cons, ?elem_of_nil; intuition (try congruence).

(** ** Rows *)

Lemma ok_snd {E A B} (a a' : A) (b b' : B) : Ok (E := E) (a, b) = Ok (a', b') → b' = b.
Proof. congruence. Qed.
Lemma if_ok {E A} (b : bool) (m : result E A) (x y : A) :
  (if b then m else Ok x) = Ok y → (b = true ∧ m = Ok y) ∨ (b = false ∧ y = x).
Proof. destruct b; [by left|]. intros [= <-]. by right. Qed.
Lemma ok_val {E A} (a a' : A) : Ok (E := E) a = Ok a' → a' = a.
Proof. congruence. Qed.

Definition has_status (st : pstatus) (r : prow) : Prop := r_status r = st.

Lemma status_in_true l r : status_in l r = true ↔ r_status r ∈ l.
Proof. apply bool_decide_eq_true. Qed.
Lemma status_in_false l r : status_in l r = false ↔ r_status r ∉ l.
Proof. apply bool_decide_eq_false. Qed.

Lemma active_not_confirmed r : is_active r = true → r_status r ≠ PConfirmed.
Proof. unfold is_active. rewrite status_in_true. intros H E. rewrite E in H. set_solver. Qed.
Lemma issued_active r : r_status r = PIssued → is_active r = true.
Proof. intros E. unfold is_active. rewrite status_in_true, E. set_solver. Qed.

Section pairing.
Context (seal : json → str).

(** The version the next credential of a device gets. *)
Definition next_version (devs : list device) (id : str) : Z :=
  match get_device devs id with Some d => Z.max 1 (a_version (v_auth d) + 1) | None => 1 end.

(** An issued envelope belongs to its device and carries that version. *)
Definition envelope_ok (devs : list device) (r : prow) : Prop :=
  ∃ m secret, r_envelope r = Some (seal (JObj m)) ∧ jget m "device_id" = JStr (r_device r) ∧ jget m "device_secret" = JStr secret ∧
              jget m "credential_version" = JInt (next_version devs (r_device r)).

(** Approval leaves its trace: the administrator, or the mark of a trusted LAN. *)
Definition admitted (r : prow) : Prop :=
  r_status r ∈ [PApproved; PIssued; PConfirmed] → is_Some (r_approved_at r) ∧ (_stored_lan_request r = false → is_Some (r_approved_by r)).

Definition attempts_ok (r : prow) : Prop :=
  0 ≤ r_claim_attempts r ∧ (is_active r = true → r_claim_attempts r < PAIRING_CLAIM_ATTEMPT_LIMIT).

Definition idle (reqs : list prow) (id : str) : Prop := ∀ r, r ∈ reqs → r_device r = id → is_active r = false.

Record pinv (reqs : list prow) (devs : list device) : Prop := {
  pi_requests : keys_unique r_id reqs;
  pi_devices : keys_unique v_id devs;
  pi_active : ∀ r1 r2, r1 ∈ reqs → r2 ∈ reqs → is_active r1 = true → is_active r2 = true → r_device r1 = r_device r2 → r1 = r2;
  pi_bound : countb is_active reqs ≤ PAIRING_MAX_PENDING;
  pi_admitted : ∀ r, r ∈ reqs → admitted r ∧ attempts_ok r;
  pi_idle : ∀ d, d ∈ devs → is_automatic d = true → refused d = true → idle reqs (v_id d);
  pi_paired : ∀ d, d ∈ devs → is_automatic d = true → is_Some (a_secret_hash (v_auth d)) →
              ∃ r, r ∈ reqs ∧ r_device r = v_id d ∧ r_status r = PConfirmed;
  pi_envelope : ∀ r, r ∈ reqs → r_status r = PIssued → envelope_ok devs r }.

Definition PInv (s : pdb) : Prop := pinv (requests s) (pdevices s).

Lemma countb_update_le {A} (q p : A → bool) (f : A → A) l :
  (∀ r, r ∈ l → p r = true → q (f r) = true → q r = true) → countb q (update_where p f l) ≤ countb q l.
Proof.
  induction l as [|r l IH]; intros H; [done|]. unfold update_where in *. cbn [map]. rewrite !countb_cons.
  specialize (IH ltac:(intros x Hx; apply H; by right)). specialize (H r ltac:(by left)).
  destruct (p r); [|lia]. destruct (q (f r)); [rewrite H by done|destruct (q r)]; lia.
Qed.

(** ** Updating one request *)

Record request_update (devs : list device) (r r' : prow) : Prop := {
  ru_device : r_device r' = r_device r;
  ru_admitted : admitted r' ∧ attempts_ok r';
  ru_active : is_active r' = true → is_active r = true;
  ru_confirmed : r_status r = PConfirmed → r_status r' = PConfirmed;
  ru_envelope : r_status r' = PIssued → envelope_ok devs r' }.

Lemma pinv_update_requests p f reqs devs :
  (∀ r, r_id (f r) = r_id r) → (∀ r, r ∈ reqs → p r = true → request_update devs r (f r)) →
  pinv reqs devs → pinv (update_where p f reqs) devs.
Proof.
  intros Hid Hf [].
  assert (∀ r', r' ∈ update_where p f reqs → ∃ r, r ∈ reqs ∧ request_update devs r r') as Hback.
  { intros r' (r & Hr & ->)%update_where_elem. exists r. split; [done|]. destruct (p r) eqn:E; [by apply Hf|split; auto]. }
  assert (∀ r, r ∈ reqs → ∃ r', r' ∈ update_where p f reqs ∧ request_update devs r r') as Hforth.
  { intros r Hr. exists (if p r then f r else r). split; [apply update_where_elem; by exists r|].
    destruct (p r) eqn:E; [by apply Hf|split; auto]. }
  split; [| |intros r1 r2 H1 H2 Ha1 Ha2 Ed| |intros r' Hr'|intros d Hd Ha Hr r' Hr' Ed|intros d Hd Ha Hp|intros r' Hr' Hs]; try done.
  - by apply keys_unique_update.
  - assert (∀ r', r' ∈ update_where p f reqs → ∃ r, r ∈ reqs ∧ r_device r' = r_device r
      ∧ (is_active r' = true → is_active r = true) ∧ r' = if p r then f r else r) as Hb.
    { intros r' (r & Hr & ->)%update_where_elem. exists r. split; [done|].
      destruct (p r) eqn:E; [|done]. destruct (Hf r Hr E). done. }
    destruct (Hb _ H1) as (x1 & Hx1 & E1 & A1 & ->). destruct (Hb _ H2) as (x2 & Hx2 & E2 & A2 & ->).
    assert (x1 = x2) as -> by (apply pi_active0; auto; congruence). done.
  - etrans; [|exact pi_bound0]. apply countb_update_le. intros r Hr Hpr. by apply Hf.
  - destruct (Hback _ Hr') as (r & Hr & []). done.
  - destruct (Hback _ Hr') as (r & Hr0 & []). destruct (is_active r') eqn:E; [|done].
    assert (is_active r = false) by (apply (pi_idle0 d); auto; congruence). rewrite ru_active0 in H by done. done.
  - destruct (pi_paired0 d Hd Ha Hp) as (r & Hr & E & Hc). destruct (Hforth r Hr) as (r' & Hr' & []). exists r'. split; [done|]. split; [congruence|auto].
  - destruct (Hback _ Hr') as (r & Hr & []). auto.
Qed.

Lemma pinv_update_request k f reqs devs :
  (∀ r, r_id (f r) = r_id r) → (∀ r, r ∈ reqs → r_id r = k → request_update devs r (f r)) →
  pinv reqs devs → pinv (update_where (by_key r_id k) f reqs) devs.
Proof. intros Hid Hf. apply pinv_update_requests; [done|]. intros r Hr E%str_eqb_eq. auto. Qed.

(** Closing a request that is not confirmed. *)
Lemma close_update devs r r' st :
  r_device r' = r_device r → r_status r' = st → st ∈ [PRejected; PExpired] → 0 ≤ r_claim_attempts r' →
  r_status r ≠ PConfirmed → request_update devs r r'.
Proof.
  intros Ed Es Hst Ha Hc. rewrite elem_of_cons, list_elem_of_singleton in Hst.
  assert (is_active r' = false) as Hi by (apply status_in_false; rewrite Es; destruct Hst as [->| ->]; st_solver).
  split; [done|split|congruence|congruence|].
  - intros H. rewrite Es in H. destruct Hst as [->| ->]; st_solver.
  - split; [done|congruence].
  - rewrite Es. destruct Hst as [->| ->]; done.
Qed.

(** ** Updating one device *)

Record device_update (reqs : list prow) (d d' : device) : Prop := {
  du_idle : is_automatic d' = true → refused d' = true → idle reqs (v_id d);
  du_paired : is_automatic d' = true → is_Some (a_secret_hash (v_auth d')) → ∃ r, r ∈ reqs ∧ r_device r = v_id d ∧ r_status r = PConfirmed;
  du_version : a_version (v_auth d') = a_version (v_auth d) ∨ idle reqs (v_id d) }.

Lemma get_device_update k f devs id : (∀ d, v_id (f d) = v_id d) →
  get_device (update_device k f devs) id = (λ d, if str_eqb (v_id d) k then f d else d) <$> get_device devs id.
Proof. intros Hid. unfold get_device, update_device. rewrite get_row_update by done. done. Qed.

Lemma envelope_ok_same devs devs' r : next_version devs' (r_device r) = next_version devs (r_device r) → envelope_ok devs r → envelope_ok devs' r.
Proof. intros E (m & x & H1 & H2 & H3 & H4). exists m, x. by rewrite E. Qed.

Lemma pinv_update_device k f reqs devs :
  (∀ d, v_id (f d) = v_id d) → (∀ d, d ∈ devs → v_id d = k → device_update reqs d (f d)) →
  pinv reqs devs → pinv reqs (update_device k f devs).
Proof.
  intros Hid Hf [].
  assert (∀ d', d' ∈ update_device k f devs → ∃ d, d ∈ devs ∧ v_id d' = v_id d ∧ device_update reqs d d') as Hback.
  { intros d' (d & Hd & ->)%update_where_elem. exists d. split; [done|].
    destruct (by_key _ _ _) eqn:E; [split; [done|apply Hf; [done|by apply str_eqb_eq in E]]|]. split; [done|]. split; auto. }
  split; [done| |done|done|done| | |].
  - by apply keys_unique_update.
  - intros d' Hd' Ha Hr. destruct (Hback _ Hd') as (d & Hd & -> & []). auto.
  - intros d' Hd' Ha Hp. destruct (Hback _ Hd') as (d & Hd & -> & []). auto.
  - intros r Hr Hs. specialize (pi_envelope0 r Hr Hs). eapply envelope_ok_same; [|exact pi_envelope0].
    unfold next_version. rewrite get_device_update by done. destruct (get_device devs (r_device r)) as [d|] eqn:E; [|done]. simpl.
    destruct (str_eqb (v_id d) k) eqn:Ek; [|done]. apply str_eqb_eq in Ek. apply get_row_Some in E as [Hd Ed].
    destruct (Hf d Hd Ek) as [_ _ [->|Hidle]]; [done|]. exfalso.
    specialize (Hidle r Hr (eq_sym Ed)). by rewrite issued_active in Hidle.
Qed.

Lemma pinv_insert_device d reqs devs l :
  insert_device d devs = Ok l → device_update reqs d d → (a_version (v_auth d) = 0 ∨ idle reqs (v_id d)) → pinv reqs devs → pinv reqs l.
Proof.
  unfold insert_device. intros ([] & Hn%raise_if_ok & [= <-])%rbind_ok Hu Hv []. apply Bool.orb_false_iff in Hn as [Hn _].
  split; [done| |done|done|done| | |].
  - by apply keys_unique_insert.
  - intros d' [Hd|Hd%list_elem_of_singleton]%elem_of_app; [by apply pi_idle0|subst d'; apply Hu].
  - intros d' [Hd|Hd%list_elem_of_singleton]%elem_of_app; [by apply pi_paired0|subst d'; apply Hu].
  - intros r Hr Hs. eapply envelope_ok_same; [|by apply pi_envelope0]. unfold next_version, get_device.
    destruct (str_eqb (r_device r) (v_id d)) eqn:E.
    + apply str_eqb_eq in E. rewrite E.
      destruct Hv as [Hv|Hi]; [|specialize (Hi r Hr E); by rewrite issued_active in Hi].
      destruct (get_row v_id (v_id d) devs) as [x|] eqn:Eg.
      { apply get_row_Some in Eg as [Hx Ex]. exfalso. unfold has_key in Hn. rewrite existsb_none in Hn. specialize (Hn x Hx).
        unfold by_key in Hn. by rewrite Ex, str_eqb_refl in Hn. }
      rewrite get_row_app_fresh, Eg, str_eqb_refl, Hv. done.
    + rewrite get_row_app_fresh. destruct (get_row _ _ _); [done|]. destruct (str_eqb (v_id d) (r_device r)) eqn:E'; [|done].
      apply str_eqb_eq in E'. by rewrite E', str_eqb_refl in E.
Qed.

(** ** The parts of a handler *)

Lemma insert_request_inv r s s' :
  insert_request r s = Ok s' → r_status r = PPending → r_claim_attempts r = 0 → countb is_active (requests s) < PAIRING_MAX_PENDING →
  (∀ d, get_device (pdevices s) (r_device r) = Some d → is_automatic d = true → refused d = false) → PInv s → PInv s'.
Proof.
  unfold insert_request. intros ([] & Hn%raise_if_ok & [= <-])%rbind_ok Hs Ha Hb Hd []. apply Bool.orb_false_iff in Hn as [Hk Hn].
  rewrite existsb_none in Hn.
  assert (∀ x, x ∈ requests s → is_active x = true → r_device x ≠ r_device r) as Hfree.
  { intros x Hx Hact E. specialize (Hn x Hx). by rewrite E, str_eqb_refl, Hact in Hn. }
  split; cbn [requests pdevices set_with set_requests]; try done.
  - by apply keys_unique_insert.
  - intros r1 r2 [H1|H1%list_elem_of_singleton]%elem_of_app [H2|H2%list_elem_of_singleton]%elem_of_app A1 A2 E; subst; auto.
    + by destruct (Hfree r1).
    + by destruct (Hfree r2).
  - change (countb is_active (requests s ++ [r]) ≤ PAIRING_MAX_PENDING). rewrite countb_app, countb_cons, countb_nil. destruct (is_active r); lia.
  - intros x [Hx|Hx%list_elem_of_singleton]%elem_of_app; [auto|]. subst x. split.
    + intros H. rewrite Hs in H. st_solver.
    + unfold attempts_ok. rewrite Ha. done.
  - intros d Hin Hau Hr x [Hx|Hx%list_elem_of_singleton]%elem_of_app E; [by apply (pi_idle0 d)|]. subst x. exfalso.
    assert (get_device (pdevices s) (r_device r) = Some d) as Eg by (unfold get_device; rewrite E; by apply get_row_elem).
    by rewrite (Hd d Eg Hau) in Hr.
  - intros d Hin Hau Hp. destruct (pi_paired0 d Hin Hau Hp) as (x & Hx & E). exists x. split; [apply elem_of_app; by left|done].
  - intros x [Hx|Hx%list_elem_of_singleton]%elem_of_app Hi; [auto|]. subst x. congruence.
Qed.

Lemma activity_frame w dev src ev msg err warn s :
  requests (_activity w dev src ev msg err warn s) = requests s ∧ pdevices (_activity w dev src ev msg err warn s) = pdevices s.
Proof. unfold _activity. destruct (existsb _ _), dev; done. Qed.

Lemma activity_inv w dev src ev msg err warn s : PInv s → PInv (_activity w dev src ev msg err warn s).
Proof. unfold PInv. destruct (activity_frame w dev src ev msg err warn s) as [-> ->]. done. Qed.

(** Only rows that are not confirmed are closed by expiry. *)
Definition not_confirmed (reqs : list prow) (k : str) : Prop := ∀ r, r ∈ reqs → r_id r = k → r_status r ≠ PConfirmed.

Lemma expire_device_fields now d :
  v_id (expire_device now d) = v_id d ∧ is_automatic (expire_device now d) = is_automatic d ∧
  a_version (v_auth (expire_device now d)) = a_version (v_auth d) ∧
  a_secret_hash (v_auth (expire_device now d)) = a_secret_hash (v_auth d) ∧
  (a_state (v_auth (expire_device now d)) = a_state (v_auth d) ∨ a_state (v_auth (expire_device now d)) = PairingExpired).
Proof.
  unfold expire_device. destruct (has_state _ d); [|split_and!; auto]. destruct d as [i e c a fv fi pe ca pr cv ls li cr up].
  unfold is_automatic. simpl. destruct (is_null _); simpl; split_and!; auto.
Qed.

Lemma expire_one_inv now s r : PInv s → not_confirmed (requests s) (r_id r) → PInv (expire_one now s r).
Proof.
  intros Hi Hc. unfold expire_one, PInv. cbn [requests pdevices update_pdevice update_request set_with set_requests set_pdevices].
  assert (pinv (update_where (by_key r_id (r_id r)) (λ x, (drop_envelope x) <| r_status := PExpired |>) (requests s)) (pdevices s)) as H1.
  { apply pinv_update_request; [done| |done]. intros x Hx Ex. apply (close_update _ _ _ PExpired); [done|done|st_solver| |by apply Hc].
    destruct (pi_admitted _ _ Hi x Hx) as [_ [Ha _]]. done. }
  apply pinv_update_device; [intros d; apply expire_device_fields| |done].
  intros d Hd _. destruct (expire_device_fields now d) as (_ & Ea & Ev & Esec & Est). split.
  - rewrite Ea. intros Hau Hr. apply (pi_idle _ _ H1 d Hd Hau). unfold refused in *. destruct Est as [<-|E]; [done|].
    rewrite E in Hr. done.
  - rewrite Ea, Esec. by apply (pi_paired _ _ H1 d).
  - by left.
Qed.

Lemma expire_one_not_confirmed now s r k : not_confirmed (requests s) k → not_confirmed (requests (expire_one now s r)) k.
Proof.
  intros H x (y & Hy & ->)%update_where_elem. destruct (by_key _ _ _); [done|]. by apply H.
Qed.

Lemma expire_fold_inv now rs s : PInv s → Forall (λ r, not_confirmed (requests s) (r_id r)) rs → PInv (fold_left (expire_one now) rs s).
Proof.
  revert s. induction rs as [|r rs IH]; intros s Hi Hrs; simpl; [done|]. apply Forall_cons in Hrs as [Hr Hrs].
  apply IH; [by apply expire_one_inv|]. eapply Forall_impl; [exact Hrs|]. intros x. apply expire_one_not_confirmed.
Qed.

Lemma request_keys_filter (p : prow → bool) reqs : keys_unique r_id reqs → keys_unique r_id (List.filter p reqs).
Proof.
  unfold keys_unique. induction reqs as [|r reqs IH]; simpl; [done|]. intros [Hr Hn]%NoDup_cons. destruct (p r); [|auto]. simpl.
  constructor; [|auto]. intros (x & Ex & [Hx _]%filter_elem)%list_elem_of_fmap. apply Hr. apply list_elem_of_fmap. by exists x.
Qed.

(** Deleting closed rows. *)
Lemma pinv_filter (p : prow → bool) reqs devs :
  (∀ r, r ∈ reqs → r_status r = PConfirmed → p r = true) → pinv reqs devs → pinv (List.filter p reqs) devs.
Proof.
  intros Hp [].
  split; [by apply request_keys_filter|done|intros r1 r2 [H1 _]%filter_elem [H2 _]%filter_elem; auto|etrans; [apply countb_filter_le|done]|intros r [H _]%filter_elem; auto| | |].
  - intros d Hd Ha Hr x [Hx _]%filter_elem. by apply (pi_idle0 d).
  - intros d Hd Ha Hs. destruct (pi_paired0 d Hd Ha Hs) as (r & Hr & E & Hc). exists r. split; [|done]. apply filter_elem. auto.
  - intros r [Hr _]%filter_elem. auto.
Qed.

(** ** Rejection, revocation and repair *)

(** The row a handler has read is the row that is updated. *)
Lemma get_request_elem s k r : get_request s k = Some r → r ∈ requests s ∧ r_id r = k.
Proof. apply get_row_Some. Qed.

Lemma request_unique s r x : PInv s → r ∈ requests s → x ∈ requests s → r_id x = r_id r → x = r.
Proof. intros Hi Hr Hx E. eapply keys_unique_inj; [apply (pi_requests _ _ Hi)|done|done|done]. Qed.

(** Closing the active request of a device leaves the device without one. *)
Lemma idle_after_close f s r : PInv s → r ∈ requests s → is_active r = true → is_active (f r) = false → r_device (f r) = r_device r →
  idle (update_where (by_key r_id (r_id r)) f (requests s)) (r_device r).
Proof.
  intros Hi Hr Ha Hf Hd x (y & Hy & ->)%update_where_elem. unfold by_key. destruct (str_eqb (r_id y) (r_id r)) eqn:E.
  - apply str_eqb_eq in E. by rewrite (request_unique s r y).
  - intros Ed. destruct (is_active y) eqn:Ea; [|done]. rewrite (pi_active _ _ Hi y r) in E by done. by rewrite str_eqb_refl in E.
Qed.

Lemma reject_row_update devs x : 0 ≤ r_claim_attempts x → r_status x ≠ PConfirmed → request_update devs x (reject_row x).
Proof. intros Ha Hc. apply (close_update _ _ _ PRejected); [done|done|st_solver|done|done]. Qed.

Lemma reject_inv w id admin s s' : reject w id admin s = Ok s' → PInv s → PInv s'.
Proof.
  unfold reject. intros (k & _ & H)%rbind_ok Hi. destruct (get_request s k) as [r|] eqn:Eg; [|done].
  apply get_request_elem in Eg as [Hr <-]. apply rbind_ok in H as ([] & Ha%raise_if_ok & ->%ok_val). apply Bool.negb_false_iff in Ha.
  apply activity_inv. unfold PInv. cbn [requests pdevices update_pdevice update_request set_with set_pdevices set_requests].
  assert (pinv (update_where (by_key r_id (r_id r)) reject_row (requests s)) (pdevices s)) as H1.
  { apply pinv_update_request; [done| |done]. intros x Hx E. rewrite (request_unique s r x) by done.
    apply reject_row_update; [apply (pi_admitted _ _ Hi r Hr)|by apply active_not_confirmed]. }
  assert (idle (update_where (by_key r_id (r_id r)) reject_row (requests s)) (r_device r)) as Hid by (by apply idle_after_close).
  apply pinv_update_device; [intros d; unfold reject_device; by destruct (has_state _ d)| |done].
  intros d Hd E. split; [intros _ _; by rewrite E| |right; by rewrite E].
  unfold reject_device. destruct (has_state _ d) eqn:Es; by apply (pi_paired _ _ H1 d).
Qed.

Lemma reject_active_inv id s : PInv s → PInv (reject_active id s) ∧ idle (requests (reject_active id s)) id.
Proof.
  intros Hi. split.
  - unfold PInv. cbn [requests pdevices reject_active set_with set_requests]. apply pinv_update_requests; [done| |done].
    intros r Hr [_ Ha]%andb_true_iff. apply reject_row_update; [apply (pi_admitted _ _ Hi r Hr)|by apply active_not_confirmed].
  - intros x (y & Hy & ->)%update_where_elem. destruct (_ && _) eqn:E; [done|]. intros Ed.
    rewrite Ed, str_eqb_refl in E. done.
Qed.

(** Revocation and repair change the device and close its requests. *)
Lemma close_device_inv f id s : (∀ d, v_id (f d) = v_id d) → (∀ d, is_automatic (f d) = is_automatic d ∧ a_secret_hash (v_auth (f d)) = a_secret_hash (v_auth d)) →
  PInv s → PInv (reject_active id (update_pdevice id f s)).
Proof.
  intros Hid Hf Hi. destruct (reject_active_inv id s Hi) as [H1 H2]. unfold PInv.
  change (pinv (requests (reject_active id s)) (update_device id f (pdevices (reject_active id s)))).
  apply pinv_update_device; [done| |done]. intros d Hd E. destruct (Hf d) as [Ea Es].
  split; [intros _ _; by rewrite E|rewrite Ea, Es; by apply (pi_paired _ _ H1 d)|right; by rewrite E].
Qed.

Lemma revoke_inv w id admin stamp s s' : revoke w id admin stamp s = Ok s' → PInv s → PInv s'.
Proof.
  unfold revoke. intros (k & _ & H)%rbind_ok Hi. destruct (get_device _ k) as [d|]; [|done].
  apply rbind_ok in H as ([] & _ & ->%ok_val). apply activity_inv. by apply close_device_inv.
Qed.

Lemma start_repair_inv w id admin stamp s s' : start_repair w id admin stamp s = Ok s' → PInv s → PInv s'.
Proof.
  unfold start_repair. intros (k & _ & H)%rbind_ok Hi. destruct (get_device _ k) as [d|]; [|done].
  apply rbind_ok in H as ([] & _ & ->%ok_val). apply activity_inv. by apply close_device_inv.
Qed.
(** ** Expiry *)

Context (trusted_lan : bool).

Lemma expire_inv now s : PInv s → PInv (_expire_requests trusted_lan now s).
Proof.
  intros Hi. unfold _expire_requests. set (s1 := fold_left _ _ _).
  assert (PInv s1) as H1.
  { apply expire_fold_inv; [done|]. apply Forall_forall. intros r [Hr Hl]%filter_elem. intros x Hx Ex.
    assert (x = r) as -> by (eapply keys_unique_inj; [apply (pi_requests _ _ Hi)|done|done|done]).
    apply active_not_confirmed. unfold lapsed_request in Hl. by apply andb_true_iff in Hl as [Hl _]. }
  apply pinv_filter; [|done]. intros r _ E. apply Bool.negb_true_iff. apply Bool.andb_false_iff. left. apply status_in_false.
  rewrite E. st_solver.
Qed.

(** ** Approval and issue *)

Context (zone_known : str → bool).

Definition approved_row (w : world) (admin : option str) (config : pconfig) (caps : list (str * json)) (x : prow) : prow :=
  x <| r_status := PApproved |> <| r_approved_at := Some (w_now w) |> <| r_approved_by := take 128 <$> admin |>
    <| r_config := JObj (config_members config) |> <| r_capabilities := mark_enrollment trusted_lan caps |>.

Lemma approve_request_shape w r admin cfg s s' :
  _approve_request trusted_lan zone_known w r admin cfg s = Ok s' →
  ∃ config, requests s' = update_where (by_key r_id (r_id r)) (approved_row w admin config (r_capabilities r)) (requests s)
            ∧ pdevices s' = pdevices s
            ∧ ∃ source, _normalize_config zone_known source (default_name (r_device r))
                          (resolve_offline_schedule_max_slots (JObj (r_capabilities r))) = Ok config.
Proof.
  unfold _approve_request. intros ([] & _ & H)%rbind_ok. apply rbind_ok in H as ([] & _ & H).
  apply rbind_ok in H as (config & Hc & H). injection H as <-. exists config.
  match goal with |- requests (_activity ?w ?d ?a ?b ?c ?e ?f ?g) = _ ∧ _ => destruct (activity_frame w d a b c e f g) as [-> ->] end.
  split_and!; [done|done|]. by eexists.
Qed.

(** The mode under which a request is approved is stored with it. *)
Lemma stored_lan_approved w admin config caps x : _stored_lan_request (approved_row w admin config caps x) = trusted_lan.
Proof.
  unfold _stored_lan_request, approved_row, mark_enrollment, jget.
  change (match default JNull (assoc_get (u "_enrollment_mode") (assoc_set (u "_enrollment_mode") (JStr (enrollment_mode trusted_lan)) caps))
          with JStr s => str_eqb s (u "trusted_lan") | _ => false end = trusted_lan).
  rewrite assoc_get_set. unfold enrollment_mode. by case trusted_lan.
Qed.

Lemma approve_request_inv w r admin cfg s s' :
  _approve_request trusted_lan zone_known w r admin cfg s = Ok s' → r ∈ requests s → r_status r = PPending →
  (trusted_lan = false → is_Some admin) → PInv s → PInv s'.
Proof.
  intros (config & Er & Ed & _)%approve_request_shape Hr Hs Ha Hi. unfold PInv. rewrite Er, Ed.
  apply pinv_update_request; [done| |done]. intros x Hx E. rewrite (request_unique s r x) by done.
  destruct (pi_admitted _ _ Hi r Hr) as [_ [Hn Hlt]].
  assert (is_active r = true) as Hact by (apply status_in_true; rewrite Hs; st_solver).
  split; [done| |done|rewrite Hs; done|done]. split; [|split; [done|intros _; by apply Hlt]].
  intros _. split; [by eexists|]. rewrite stored_lan_approved. intros Ht. destruct (Ha Ht) as [a ->]. by eexists.
Qed.

Lemma get_request_approved w r admin cfg s s' r' :
  _approve_request trusted_lan zone_known w r admin cfg s = Ok s' → get_request s (r_id r) = Some r → get_request s' (r_id r) = Some r' →
  r_status r' = PApproved ∧ r_device r' = r_device r ∧ r_nonce_hash r' = r_nonce_hash r ∧ r_expires r' = r_expires r.
Proof.
  intros (config & Er & Ed & _)%approve_request_shape Hg Hg'. unfold get_request in *. rewrite Er, get_row_update in Hg' by done.
  rewrite Hg in Hg'. simpl in Hg'. unfold by_key in Hg'. rewrite str_eqb_refl in Hg'. injection Hg' as <-. done.
Qed.

Lemma issue_inv w r s reply s' :
  issue trusted_lan zone_known seal w r s = Ok (reply, s') → r ∈ requests s → r_status r = PApproved → PInv s → PInv s'.
Proof.
  unfold issue. intros ([] & _ & H)%rbind_ok Hr Hs Hi. apply rbind_ok in H as (config & _ & H). injection H as _ <-.
  apply activity_inv. set (m := envelope_members _ _ _ _ _ _). set (exp := Z.min _ _).
  destruct (pi_admitted _ _ Hi r Hr) as [Had [Hn Hlt]].
  assert (is_active r = true) as Hact by (apply status_in_true; rewrite Hs; st_solver).
  match goal with |- context [update_request (r_id r) ?f s] => set (f1 := f) end.
  assert (PInv (update_request (r_id r) f1 s)) as H1.
  { unfold PInv. cbn [requests pdevices update_request set_with set_requests].
    apply pinv_update_request; [done| |done]. intros x Hx E. rewrite (request_unique s r x) by done.
    split; [done| |done|rewrite Hs; done|].
    - split; [|split; [done|intros _; by apply Hlt]]. intros _. apply Had. rewrite Hs. st_solver.
    - intros _. exists m, (w_secret w). split_and!; reflexivity. }
  destruct (is_null _); [done|]. unfold PInv. cbn [requests pdevices update_pdevice set_with set_pdevices].
  apply pinv_update_device; [done| |done]. intros d Hd Ed. split; [done|by apply (pi_paired _ _ H1 d)|by left].
Qed.

(** ** The handlers *)

Lemma approve_inv w id admin cfg s st s' : approve trusted_lan zone_known w id admin cfg s = Ok (st, s') → PInv s → PInv s'.
Proof.
  unfold approve. intros (k & _ & H)%rbind_ok Hi%(expire_inv (w_now w)). destruct (get_request _ k) as [r|] eqn:Eg; [|done].
  apply get_request_elem in Eg as [Hr _]. destruct (status_in _ r); [by injection H as _ <-|].
  apply rbind_ok in H as ([] & Hp%raise_if_ok & H). apply Bool.negb_false_iff, status_in_true, list_elem_of_singleton in Hp.
  apply rbind_ok in H as (s1 & H1 & [= _ <-]). by eapply approve_request_inv.
Qed.

Lemma active_request_elem s id r : _active_request s id = Some r → r ∈ requests s ∧ r_device r = id ∧ is_active r = true.
Proof.
  unfold _active_request. destruct (sort_by _ _) as [|x l] eqn:E; [done|]. intros [= ->].
  assert (r ∈ r :: l) as Hr by left. rewrite <- E, sort_by_elem, filter_elem in Hr. destruct Hr as [Hr [Hd Ha]%andb_true_iff].
  apply str_eqb_eq in Hd. done.
Qed.

Context (pepper : str).

Lemma rate_limit_frame ip id now s s' : _rate_limit pepper ip id now s = Ok s' → requests s' = requests s ∧ pdevices s' = pdevices s.
Proof.
  unfold _rate_limit, _rate_scope. intros (s1 & H1 & H)%rbind_ok. apply rbind_ok in H1 as ([] & _ & [= <-]).
  apply rbind_ok in H as ([] & _ & [= <-]). done.
Qed.

Lemma reuse_inv w q r s reply s' : reuse_request pepper trusted_lan zone_known w q r s = Ok (reply, s') →
  r ∈ requests s → PInv s → PInv s'.
Proof.
  unfold reuse_request. intros ([] & _ & H)%rbind_ok Hr Hi. apply rbind_ok in H as ([r' s1] & H1 & [= _ <-]). simpl.
  destruct (trusted_lan && _ && _) eqn:E; [|by injection H1 as _ <-].
  apply andb_true_iff in E as [[Ht Hp]%andb_true_iff _]. apply status_in_true, list_elem_of_singleton in Hp.
  apply rbind_ok in H1 as (s2 & H2 & H1). destruct (get_request _ _); [|done]. injection H1 as _ <-.
  eapply approve_request_inv; [exact H2|done|done|congruence|done].
Qed.

Lemma open_inv w q dev s reply s' : open_request pepper trusted_lan zone_known w q dev s = Ok (reply, s') →
  dev = get_device (pdevices s) (q_device q) → (∀ d, dev = Some d → is_automatic d = true → refused d = false) →
  countb is_active (requests s) < PAIRING_MAX_PENDING → PInv s → PInv s'.
Proof.
  unfold open_request. intros H -> Hd Hb Hi. destruct (_capability_conflict _ _ _) as [c|].
  - apply rbind_ok in H as (s1 & H1 & ->%ok_snd). apply activity_inv. eapply insert_request_inv; [exact H1|done|done|done|apply Hd|done].
  - apply rbind_ok in H as (config & _ & H). apply rbind_ok in H as (s1 & H1 & H). apply rbind_ok in H as (s2 & H2 & ->%ok_snd).
    assert (PInv s1) as Hi1 by (eapply insert_request_inv; [exact H1|done|done|done|apply Hd|done]).
    assert (PInv s2) as Hi2.
    { apply if_ok in H2 as [[Et H2]|[_ ->]]; [|done]. eapply approve_request_inv; [exact H2| |done|congruence|done].
      unfold insert_request in H1. apply rbind_ok in H1 as ([] & _ & ->%ok_val). apply elem_of_app. right. by apply list_elem_of_singleton. }
    apply activity_inv. destruct (get_device (pdevices s) _) as [d|]; [|done]. destruct (has_state _ d); [|done].
    unfold PInv. cbn [requests pdevices update_pdevice set_with set_pdevices]. apply pinv_update_device; [done| |done].
    intros x Hx Ex. split; [by apply (pi_idle _ _ Hi2 x)|by apply (pi_paired _ _ Hi2 x)|by left].
Qed.

Lemma request_pairing_inv w payload ip s reply s' :
  request_pairing pepper trusted_lan zone_known w payload ip s = Ok (reply, s') → PInv s → PInv s'.
Proof.
  unfold request_pairing. intros (q & _ & H)%rbind_ok Hi%(expire_inv (w_now w)). destruct (_active_request _ _) as [r|] eqn:Ea.
  - apply active_request_elem in Ea as [Hr _]. by eapply reuse_inv.
  - apply rbind_ok in H as ([] & Hb%raise_if_ok & H). apply Z.leb_gt in Hb. apply rbind_ok in H as (s1 & [E1 E2]%rate_limit_frame & H).
    apply rbind_ok in H as ([] & Hd%raise_if_ok & H). eapply open_inv; [exact H|done| |by rewrite E1|unfold PInv; by rewrite E1, E2].
    intros d Eg Hau. rewrite Eg in Hd. unfold request_refused in Hd.
    by apply Bool.orb_false_iff in Hd as [[_ Hd]%Bool.orb_false_iff _].
Qed.

Lemma count_attempt_inv k r s : PInv s → get_request s k = Some r → is_active r = true →
  PInv (update_request k (count_attempt r) s).
Proof.
  intros Hi [Hr Ek]%get_request_elem Ha. unfold PInv. cbn [requests pdevices update_request set_with set_requests].
  assert (∀ x, r_id (count_attempt r x) = r_id x) as Hid by (intros x; unfold count_attempt; by destruct (_ <=? _)).
  apply pinv_update_request; [done| |done]. intros x Hx E. rewrite (request_unique s r x) by (done || congruence).
  destruct (pi_admitted _ _ Hi r Hr) as [Had [Hn Hlt]]. unfold count_attempt. destruct (Z.leb_spec PAIRING_CLAIM_ATTEMPT_LIMIT (r_claim_attempts r + 1)).
  - apply (close_update _ _ _ PRejected); [done|done|st_solver|simpl; lia|by apply active_not_confirmed].
  - split; [done| |done|done|].
    + split; [done|]. split; [simpl; lia|intros _; simpl; lia].
    + intros Hs. apply (pi_envelope _ _ Hi r Hr Hs).
Qed.

Context (unseal : str → option json).

Lemma claim_pair_inv w id nonce s reply s' :
  claim pepper trusted_lan zone_known seal unseal w id nonce s = Ok (reply, s') → PInv s → PInv s'.
Proof.
  unfold claim. intros (k & _ & H)%rbind_ok Hi%(expire_inv (w_now w)). apply rbind_ok in H as (n & _ & H).
  set (s1 := _expire_requests trusted_lan (w_now w) s) in *. destruct (get_request s1 k) as [r|] eqn:Eg; [|done].
  apply rbind_ok in H as ([] & Hc%raise_if_ok & H). apply rbind_ok in H as ([] & Hx%raise_if_ok & H).
  apply status_in_false in Hc, Hx. pose proof (get_request_elem _ _ _ Eg) as [Hr Ek].
  destruct (negb (str_eqb _ _)).
  { injection H as _ <-. apply count_attempt_inv; [done|done|]. apply status_in_true. destruct (r_status r); st_solver. }
  destruct (status_in [PPending] r && _) eqn:Ep; [by injection H as _ <-|].
  destruct (status_in [PIssued] r) eqn:Ei; [by apply rbind_ok in H as (m & _ & [= _ <-])|]. apply status_in_false in Ei.
  apply rbind_ok in H as ([r' s2] & H2 & H). simpl in H. destruct (status_in [PPending] r) eqn:Ep'.
  - apply rbind_ok in H2 as (s3 & H3 & H2). destruct (get_request s3 k) as [r3|] eqn:E3; [|done]. injection H2 as <- <-.
    pose proof E3 as E3'. rewrite <- Ek in Eg, E3'. destruct (get_request_approved _ _ _ _ _ _ _ H3 Eg E3') as [Hst _].
    eapply issue_inv; [exact H|by eapply get_request_elem|done|].
    apply status_in_true, list_elem_of_singleton in Ep'. eapply approve_request_inv; [exact H3|done|done| |done].
    intros Et. rewrite Et in Ep. done.
  - injection H2 as <- <-. apply status_in_false in Ep'. eapply issue_inv; [exact H|done| |done]. destruct (r_status r); st_solver.
Qed.

Definition confirmed_row (now : Z) (x : prow) : prow := (drop_envelope x) <| r_status := PConfirmed |> <| r_confirmed_at := Some now |>.

(** The tables after the request is confirmed, before the device is written. *)
Lemma confirm_request_inv now s r : PInv s → r ∈ requests s → r_status r = PIssued →
  let reqs := update_where (by_key r_id (r_id r)) (confirmed_row now) (requests s) in
  pinv reqs (pdevices s) ∧ idle reqs (r_device r) ∧ ∃ x, x ∈ reqs ∧ r_device x = r_device r ∧ r_status x = PConfirmed.
Proof.
  intros Hi Hr Hs reqs. pose proof (issued_active r Hs) as Ha. split; [|split].
  - apply pinv_update_request; [done| |done]. intros x Hx E. rewrite (request_unique s r x) by done.
    destruct (pi_admitted _ _ Hi r Hr) as [Had [Hn _]]. split; [done| |done|done|done].
    split; [|split; [done|done]]. intros _. apply Had. rewrite Hs. st_solver.
  - by apply idle_after_close.
  - exists (confirmed_row now r). split; [|done]. apply update_where_elem. exists r. split; [done|]. unfold by_key. by rewrite str_eqb_refl.
Qed.

Lemma device_update_confirmed reqs d d' : v_id d' = v_id d → idle reqs (v_id d) →
  (∃ x, x ∈ reqs ∧ r_device x = v_id d ∧ r_status x = PConfirmed) → device_update reqs d d'.
Proof. intros E Hi Hx. split; auto. Qed.

Lemma update_confirmed_inv w id m s s' reqs :
  _update_confirmed_device pepper zone_known w id m s = Ok s' → pinv reqs (pdevices s) → idle reqs id →
  (∃ x, x ∈ reqs ∧ r_device x = id ∧ r_status x = PConfirmed) → requests s' = requests s ∧ pinv reqs (pdevices s').
Proof.
  unfold _update_confirmed_device. intros H Hi Hid Hx. destruct (get_device (pdevices s) id) as [d|] eqn:Eg.
  - apply rbind_ok in H as ([] & _ & H). apply rbind_ok in H as ([p slots] & _ & ->%ok_val). split; [done|].
    cbn [pdevices update_pdevice set_with set_pdevices]. apply pinv_update_device; [done| |done].
    intros x Hd Ex. apply device_update_confirmed; [done|by rewrite Ex|by rewrite Ex].
  - unfold _insert_confirmed_device in H. apply rbind_ok in H as ([p slots] & _ & H).
    destruct (insert_device _ _) as [l|] eqn:Ei; [|done]. apply ok_val in H as ->. split; [done|]. cbn [pdevices set_with set_pdevices].
    eapply pinv_insert_device; [exact Ei|by apply device_update_confirmed|by right|done].
Qed.

Lemma confirm_shape w id dev nonce secret version s reply s' :
  confirm pepper trusted_lan zone_known unseal w id dev nonce secret version s = Ok (reply, s') →
  let s1 := _expire_requests trusted_lan (w_now w) s in
  s' = s1 ∨ ∃ r m s2, r ∈ requests s1 ∧ r_status r = PIssued ∧ _decode_envelope unseal r (w_now w) = Ok m ∧
    _update_confirmed_device pepper zone_known w (r_device r) m s1 = Ok s2 ∧
    requests s' = update_where (by_key r_id (r_id r)) (confirmed_row (w_now w)) (requests s2) ∧ pdevices s' = pdevices s2.
Proof.
  intros H s1. unfold confirm in H. apply rbind_ok in H as (k & _ & H). apply rbind_ok in H as (d & _ & H). apply rbind_ok in H as (n & _ & H).
  apply rbind_ok in H as (sec & _ & H). apply rbind_ok in H as ([] & _ & H). apply rbind_ok in H as (v & _ & H).
  fold s1 in H. destruct (get_request s1 k) as [r|] eqn:Eg; [|done]. apply get_request_elem in Eg as [Hr <-].
  apply rbind_ok in H as ([] & Hd%raise_if_ok & H). apply Bool.negb_false_iff, str_eqb_eq in Hd as <-.
  apply rbind_ok in H as ([] & _ & H). destruct (status_in [PConfirmed] r).
  { destruct (get_device _ _); [|done]. apply rbind_ok in H as ([] & _ & ->%ok_snd). by left. }
  apply rbind_ok in H as ([] & _ & H). destruct (status_in [PPending] r); [apply ok_snd in H as ->; by left|].
  apply rbind_ok in H as ([] & Hs%raise_if_ok & H). apply Bool.negb_false_iff, status_in_true, list_elem_of_singleton in Hs.
  apply rbind_ok in H as (m & Hm & H). apply rbind_ok in H as ([] & _ & H). apply rbind_ok in H as (s2 & H2 & ->%ok_snd).
  right. exists r, m, s2. split_and!; try done.
  all: match goal with |- context [_activity ?w ?d ?a ?b ?c ?e ?f ?g] => destruct (activity_frame w d a b c e f g) as [E1 E2] end;
    by rewrite ?E1, ?E2.
Qed.

Lemma confirm_inv w id dev nonce secret version s reply s' :
  confirm pepper trusted_lan zone_known unseal w id dev nonce secret version s = Ok (reply, s') → PInv s → PInv s'.
Proof.
  intros H Hi%(expire_inv (w_now w)). destruct (confirm_shape _ _ _ _ _ _ _ _ _ H) as [->|(r & m & s2 & Hr & Hs & _ & H2 & E1 & E2)]; [done|].
  destruct (confirm_request_inv (w_now w) _ r Hi Hr Hs) as (H1 & Hidle & Hx).
  destruct (update_confirmed_inv _ _ _ _ _ _ H2 H1 Hidle Hx) as [Er Hp]. unfold PInv. by rewrite E1, E2, Er.
Qed.

End pairing.
