(* ===== verification/PairingProps.v ===== *)
(** * Theorems on device pairing

    A run of the enrolment service: any sequence of its operations, with any
    clock and random texts, and with the LAN trusted or not at each of them.
    Every frame the server lets in was admitted, requests stay bounded, a
    revoked frame stays out until an administrator repairs it, and a credential
    is never valid again after a newer one. *)

From stdpp Require Import sets.
From S2P Require Import Prelude PyStr Json Sql Store Reservations Sha256 Hmac OfflineSchedule Schema Devices Pairing PairingInv.
Local Open Scope Z_scope.

(** ** Runs *)

Record frames := mk_frames { pairing : pdb; auth_failures : list auth_failure }.
Definition no_frames : frames := mk_frames (mk_pdb [] [] [] [] []) [].

Inductive act :=
| ARequest (payload : list (str * json)) (ip : str)
| AList
| AApprove (id : json) (administrator : str) (config : list (str * json))
| AClaim (id nonce : json)
| AConfirm (id device nonce secret version : json)
| AReject (id : json) (administrator : str)
| ARevoke (device : json) (administrator stamp : str)
| ARepair (device : json) (administrator stamp : str)
| ACreate (args : create_args) (id token placeholder : str)
| ARegenerate (id token : str)
| AAuthenticate (token ip : str) (version : option Z) (allow_repair : bool).

(** One operation: whether the LAN is trusted, the clock and the texts. *)
Record event := mk_event { ev_lan : bool; ev_world : world; ev_act : act }.

Section run.
Context (pepper : str) (zone_known : str → bool) (seal : json → str) (unseal : str → option json).

(** A handler that raises leaves the tables as they were. *)
Definition commit {E} (m : result E pdb) (s : pdb) : pdb := match m with Ok s' => s' | Raise _ => s end.
Definition commit_snd {E A} (m : result E (A * pdb)) (s : pdb) : pdb := match m with Ok (_, s') => s' | Raise _ => s end.

Definition pair_act (e : event) (s : pdb) : pdb :=
  let w := ev_world e in
  let lan := ev_lan e in
  match ev_act e with
  | ARequest payload ip => commit_snd (request_pairing pepper lan zone_known w payload ip s) s
  | AList => snd (pending_for_admin lan w s)
  | AApprove id admin cfg => commit_snd (approve lan zone_known w id admin cfg s) s
  | AClaim id nonce => commit_snd (claim pepper lan zone_known seal unseal w id nonce s) s
  | AConfirm id dev nonce secret version => commit_snd (confirm pepper lan zone_known unseal w id dev nonce secret version s) s
  | AReject id admin => commit (reject w id admin s) s
  | ARevoke dev admin stamp => commit (revoke w dev admin stamp s) s
  | ARepair dev admin stamp => commit (start_repair w dev admin stamp s) s
  | ACreate args id token placeholder =>
      match create pepper args id token placeholder (w_now w) (pdevices s) with Ok (_, l) => s <| pdevices := l |> | Raise _ => s end
  | ARegenerate id token =>
      match regenerate pepper id token (w_now w) (pdevices s) with Ok l => s <| pdevices := l |> | Raise _ => s end
  | AAuthenticate _ _ _ _ => s
  end.

Definition run_act (s : frames) (e : event) : frames :=
  match ev_act e with
  | AAuthenticate token ip version repair =>
      match authenticate pepper token ip version repair (w_now (ev_world e)) (mk_devdb (pdevices (pairing s)) (auth_failures s)) with
      | Ok (_, db) => mk_frames ((pairing s) <| pdevices := devices db |>) (failures db)
      | Raise _ => s
      end
  | _ => mk_frames (pair_act e (pairing s)) (auth_failures s)
  end.
Definition run (es : list event) (s : frames) : frames := fold_left run_act es s.

(** ** How a device changes *)

(** The device an operation repairs. *)
Definition repairs (e : event) (k : str) : Prop :=
  match ev_act e with ARepair dev _ _ => _validate_device_id dev = Ok k | _ => False end.

(** An automatic device stays automatic, keeps its credential or gets one of a
    higher version, and stays revoked. *)
Record keeps (d d' : device) : Prop := {
  k_id : v_id d' = v_id d;
  k_mode : is_automatic d' = is_automatic d;
  k_credential : is_automatic d = true →
                 (a_version (v_auth d') = a_version (v_auth d) ∧ a_secret_hash (v_auth d') = a_secret_hash (v_auth d))
                 ∨ a_version (v_auth d) < a_version (v_auth d') }.
Definition stays_revoked (d d' : device) : Prop := is_automatic d = true → a_state (v_auth d) = Revoked → a_state (v_auth d') = Revoked.

#[local] Instance keeps_preorder : PreOrder keeps.
Proof.
  split; [split; auto|]. intros x y z [] []. split; [congruence|congruence|]. intros H. rewrite k_mode0 in k_credential1.
  destruct (k_credential0 H) as [[E1 E2]|?], (k_credential1 H) as [[E3 E4]|?]; [left; split; congruence|right; lia|right; lia|right; lia].
Qed.
#[local] Instance stays_revoked_refl : Reflexive stays_revoked.
Proof. intros d _ H. exact H. Qed.

(** Every device of the first table is in the second, changed as told. *)
Definition evolve (R : device → device → Prop) (l l' : list device) : Prop :=
  ∀ d, d ∈ l → ∃ d', d' ∈ l' ∧ R d d'.

Definition step (r : str → Prop) (d d' : device) : Prop := keeps d d' ∧ (¬ r (v_id d) → stays_revoked d d').
Definition anyone_else : str → Prop := λ _, False.

#[local] Instance step_preorder r : PreOrder (step r).
Proof.
  split; [intros d; split; reflexivity|]. intros x y z [K1 S1] [K2 S2]. split; [by etrans|]. intros H Ha Hs. pose proof (S1 H Ha Hs) as H1.
  rewrite <- (k_id _ _ K1) in H. apply S2; [done|by rewrite (k_mode _ _ K1)|done].
Qed.
#[local] Instance evolve_preorder r : PreOrder (evolve (step r)).
Proof.
  split; [intros l d Hd; exists d; split; [done|reflexivity]|]. intros l1 l2 l3 H12 H23 d Hd. destruct (H12 d Hd) as (d2 & H2 & R2).
  destruct (H23 d2 H2) as (d3 & H3 & R3). exists d3. split; [done|by etrans].
Qed.

Lemma evolve_update r k f l : (∀ d, d ∈ l → v_id d = k → step r d (f d)) → evolve (step r) l (update_device k f l).
Proof.
  intros Hf d Hd. exists (if str_eqb (v_id d) k then f d else d). split; [apply update_where_elem; by exists d|].
  destruct (str_eqb (v_id d) k) eqn:E; [|reflexivity]. apply str_eqb_eq in E. by apply Hf.
Qed.

Lemma evolve_insert r d l l' : insert_device d l = Ok l' → evolve (step r) l l'.
Proof.
  unfold insert_device. intros ([] & _ & [= <-])%rbind_ok x Hx. exists x. split; [|reflexivity]. apply elem_of_app. by left.
Qed.

(** An update that leaves the credential, and no revoked device, alone. *)
Lemma step_same r d d' :
  v_id d' = v_id d → is_automatic d' = is_automatic d → a_version (v_auth d') = a_version (v_auth d) →
  a_secret_hash (v_auth d') = a_secret_hash (v_auth d) → (a_state (v_auth d) = Revoked → a_state (v_auth d') = Revoked) → step r d d'.
Proof. intros H1 H2 H3 H4 H5. split; [split; auto|]. intros _ _. exact H5. Qed.

Lemma has_state_other st d : has_state st d = true → st ≠ Revoked → a_state (v_auth d) = Revoked → False.
Proof. intros H%bool_decide_eq_true. congruence. Qed.

Lemma evolve_expire lan r now s : evolve (step r) (pdevices s) (pdevices (_expire_requests lan now s)).
Proof.
  unfold _expire_requests. cbn [pdevices set_with set_requests]. generalize (List.filter (lapsed_request lan now) (requests s)).
  intros rs. revert s. induction rs as [|x rs IH]; intros s; cbn [fold_left]; [reflexivity|]. etrans; [|apply IH].
  unfold expire_one. cbn [pdevices update_pdevice update_request set_with set_requests set_pdevices].
  apply evolve_update. intros d Hd _. destruct (expire_device_fields now d) as (H1 & H2 & H3 & H4 & _). apply step_same; try done.
  unfold expire_device. destruct (has_state _ d) eqn:E; [|done]. intros Hr. by destruct (has_state_other _ _ E).
Qed.

Lemma evolve_activity r w dev src ev msg err warn s l : evolve (step r) l (pdevices s) → evolve (step r) l (pdevices (_activity w dev src ev msg err warn s)).
Proof. by destruct (activity_frame w dev src ev msg err warn s) as [_ ->]. Qed.

Lemma approve_request_devices lan w x admin cfg s s' : _approve_request lan zone_known w x admin cfg s = Ok s' → pdevices s' = pdevices s.
Proof. by intros (c & _ & -> & _)%approve_request_shape. Qed.

Lemma approve_evolve lan r w id admin cfg s st s' :
  approve lan zone_known w id admin cfg s = Ok (st, s') → evolve (step r) (pdevices s) (pdevices s').
Proof.
  intros H. etrans; [apply (evolve_expire lan r (w_now w))|]. unfold approve in H. apply rbind_ok in H as (k & _ & H).
  destruct (get_request _ k) as [x|]; [|done]. destruct (status_in _ x); [apply ok_snd in H as ->; reflexivity|].
  apply rbind_ok in H as ([] & _ & H). apply rbind_ok in H as (s1 & H1%approve_request_devices & ->%ok_snd). by rewrite H1.
Qed.

Lemma insert_request_devices x s s' : insert_request x s = Ok s' → pdevices s' = pdevices s.
Proof. unfold insert_request. by intros ([] & _ & ->%ok_val)%rbind_ok. Qed.

Lemma open_evolve lan r w q dev s reply s' :
  open_request pepper lan zone_known w q dev s = Ok (reply, s') → evolve (step r) (pdevices s) (pdevices s').
Proof.
  unfold open_request. intros H. destruct (_capability_conflict _ _ _) as [c|].
  - apply rbind_ok in H as (s1 & H1%insert_request_devices & ->%ok_snd). apply evolve_activity. by rewrite H1.
  - apply rbind_ok in H as (config & _ & H). apply rbind_ok in H as (s1 & H1%insert_request_devices & H).
    apply rbind_ok in H as (s2 & H2 & ->%ok_snd). apply evolve_activity. rewrite <- H1.
    assert (pdevices s2 = pdevices s1) as <- by (apply if_ok in H2 as [[_ H2%approve_request_devices]|[_ ->]]; done).
    destruct dev as [d|]; [|reflexivity]. destruct (has_state _ d); [|reflexivity].
    cbn [pdevices update_pdevice set_with set_pdevices]. apply evolve_update. intros x Hx _. by apply step_same.
Qed.

Lemma request_evolve lan r w payload ip s reply s' :
  request_pairing pepper lan zone_known w payload ip s = Ok (reply, s') → evolve (step r) (pdevices s) (pdevices s').
Proof.
  intros H. etrans; [apply (evolve_expire lan r (w_now w))|]. unfold request_pairing in H. apply rbind_ok in H as (q & _ & H).
  destruct (_active_request _ _) as [x|].
  - unfold reuse_request in H. apply rbind_ok in H as ([] & _ & H). apply rbind_ok in H as ([x' s1] & H1 & ->%ok_snd). cbn [snd].
    destruct (_ && _); [|apply ok_snd in H1 as ->; reflexivity]. apply rbind_ok in H1 as (s2 & H2%approve_request_devices & H1).
    destruct (get_request s2 _); [|done]. apply ok_snd in H1 as ->. by rewrite H2.
  - apply rbind_ok in H as ([] & _ & H). apply rbind_ok in H as (s1 & [_ E2]%rate_limit_frame & H).
    apply rbind_ok in H as ([] & _ & H). rewrite <- E2. by eapply open_evolve.
Qed.

Lemma issue_evolve lan r w x s reply s' : keys_unique v_id (pdevices s) →
  issue lan zone_known seal w x s = Ok (reply, s') → evolve (step r) (pdevices s) (pdevices s').
Proof.
  intros Hu. unfold issue. intros ([] & Hg%raise_if_ok & H)%rbind_ok. apply rbind_ok in H as (config & _ & ->%ok_snd). apply evolve_activity.
  destruct (get_device (pdevices s) (r_device x)) as [d|] eqn:Eg; cbn [is_null]; [|reflexivity].
  cbn [pdevices update_pdevice update_request set_with set_pdevices set_requests]. apply evolve_update. intros y Hy Ey.
  apply get_row_Some in Eg as [Hd Ed]. assert (y = d) as -> by (eapply keys_unique_inj; [exact Hu|done|done|congruence]).
  apply step_same; try done. intros E. apply Bool.orb_false_iff in Hg as [_ Hg]. unfold refused in Hg. by rewrite E in Hg.
Qed.

Lemma claim_evolve lan r w id nonce s reply s' : PInv seal s →
  claim pepper lan zone_known seal unseal w id nonce s = Ok (reply, s') → evolve (step r) (pdevices s) (pdevices s').
Proof.
  intros Hi H. etrans; [apply (evolve_expire lan r (w_now w))|]. pose proof (expire_inv seal lan (w_now w) s Hi) as [_ Hu _ _ _ _ _ _].
  unfold claim in H. apply rbind_ok in H as (k & _ & H). apply rbind_ok in H as (n & _ & H).
  destruct (get_request _ k) as [x|]; [|done]. apply rbind_ok in H as ([] & _ & H). apply rbind_ok in H as ([] & _ & H).
  destruct (negb _); [apply ok_snd in H as ->; reflexivity|]. destruct (_ && _); [apply ok_snd in H as ->; reflexivity|].
  destruct (status_in [PIssued] x); [apply rbind_ok in H as (m & _ & ->%ok_snd); reflexivity|].
  apply rbind_ok in H as ([x' s2] & H2 & H). cbn [fst snd] in H.
  assert (pdevices s2 = pdevices (_expire_requests lan (w_now w) s)) as E2.
  { apply if_ok in H2 as [[_ H2]|[_ [= _ ->]]]; [|done]. apply rbind_ok in H2 as (s3 & H3%approve_request_devices & H2).
    destruct (get_request s3 k); [|done]. apply ok_snd in H2 as ->. done. }
  rewrite <- E2 in Hu |- *. by eapply issue_evolve.
Qed.

Lemma get_device_elem l k d : keys_unique v_id l → d ∈ l → v_id d = k → get_device l k = Some d.
Proof. intros Hu Hd <-. by apply get_row_elem. Qed.

Section sealed.
Context (unseal_seal : ∀ j, unseal (seal j) = Some j).

(** The envelope that is opened is the one that was issued. *)
Lemma decoded_version s x m now : PInv seal s → x ∈ requests s → r_status x = PIssued → _decode_envelope unseal x now = Ok m →
  int_member m "credential_version" = next_version (pdevices s) (r_device x) ∧ text_member m "device_id" = r_device x.
Proof.
  intros Hi Hx Hs H. destruct (pi_envelope _ _ _ Hi x Hx Hs) as (m0 & sec & E0 & E1 & E2 & E3).
  unfold _decode_envelope in H. rewrite E0, unseal_seal, E2 in H. apply rbind_ok in H as ([] & _ & ->%ok_val).
  unfold int_member, text_member. by rewrite E1, E3.
Qed.

Lemma confirm_evolve lan r w id dev nonce secret version s reply s' : PInv seal s →
  confirm pepper lan zone_known unseal w id dev nonce secret version s = Ok (reply, s') → evolve (step r) (pdevices s) (pdevices s').
Proof.
  intros Hi H. etrans; [apply (evolve_expire lan r (w_now w))|]. pose proof (expire_inv seal lan (w_now w) s Hi) as Hi1.
  apply confirm_shape in H. set (s1 := _expire_requests lan (w_now w) s) in *.
  destruct H as [->|(x & m & s2 & Hx & Hs & Hm & H2 & _ & ->)]; [reflexivity|].
  destruct (decoded_version s1 x m _ Hi1 Hx Hs Hm) as [Hv _]. unfold _update_confirmed_device in H2.
  destruct (get_device (pdevices s1) (r_device x)) as [d|] eqn:Eg.
  - apply rbind_ok in H2 as ([] & Hg%raise_if_ok & H2). apply rbind_ok in H2 as ([p slots] & _ & ->%ok_val).
    cbn [pdevices update_pdevice set_with set_pdevices]. apply evolve_update. intros y Hy Ey.
    assert (y = d) as -> by (apply (get_device_elem _ _ y (pi_devices _ _ _ Hi1) Hy) in Ey; congruence).
    apply Bool.orb_false_iff in Hg as [Hg _]. apply Bool.negb_false_iff in Hg.
    split; [split; [done|by rewrite Hg|]|].
    + intros _. right. cbn. rewrite Hv. unfold next_version. rewrite Eg. lia.
    + intros _ _ E. assert (is_active x = false) as Hf.
      { eapply (pi_idle _ _ _ Hi1 d); [done|done| |done|done]. unfold refused. by rewrite E. }
      by rewrite issued_active in Hf.
  - unfold _insert_confirmed_device in H2. apply rbind_ok in H2 as ([p slots] & _ & H2).
    destruct (insert_device _ _) as [l|] eqn:Ei; [|done]. apply ok_val in H2 as ->. cbn [pdevices set_with set_pdevices].
    by eapply evolve_insert.
Qed.
End sealed.

Lemma reject_evolve r w id admin s s' : reject w id admin s = Ok s' → evolve (step r) (pdevices s) (pdevices s').
Proof.
  unfold reject. intros (k & _ & H)%rbind_ok. destruct (get_request s k) as [x|]; [|done].
  apply rbind_ok in H as ([] & _ & ->%ok_val). apply evolve_activity.
  cbn [pdevices update_pdevice update_request set_with set_pdevices set_requests]. apply evolve_update.
  intros d Hd _. unfold reject_device. destruct (has_state _ d) eqn:E; [|reflexivity].
  apply step_same; try done. intros Hr. by destruct (has_state_other _ _ E).
Qed.

Lemma revoke_evolve r w id admin stamp s s' : revoke w id admin stamp s = Ok s' → evolve (step r) (pdevices s) (pdevices s').
Proof.
  unfold revoke. intros (k & _ & H)%rbind_ok. destruct (get_device _ k) as [d|]; [|done].
  apply rbind_ok in H as ([] & _ & ->%ok_val). apply evolve_activity.
  cbn [pdevices reject_active update_pdevice set_with set_pdevices set_requests]. apply evolve_update.
  intros x Hx _. by apply step_same.
Qed.

Lemma repair_evolve w id admin stamp s s' : start_repair w id admin stamp s = Ok s' →
  evolve (step (λ k, _validate_device_id id = Ok k)) (pdevices s) (pdevices s').
Proof.
  unfold start_repair. intros (k & Hk & H)%rbind_ok. destruct (get_device _ k) as [d|]; [|done].
  apply rbind_ok in H as ([] & _ & ->%ok_val). apply evolve_activity.
  cbn [pdevices reject_active update_pdevice set_with set_pdevices set_requests]. apply evolve_update.
  intros x Hx Ex. split; [split; [done|done|by left]|]. rewrite Ex. done.
Qed.

(** ** Devices outside the pairing service *)

Lemma create_shape args id token placeholder now l o l' : create pepper args id token placeholder now l = Ok (o, l') →
  ∃ d, insert_device d l = Ok l' ∧ a_version (v_auth d) = 0 ∧ a_secret_hash (v_auth d) = None ∧ (is_automatic d = true → refused d = false).
Proof.
  unfold create. destruct (mode_of _) as [mode|]; [|done]. intros ([delivery prefetch] & _ & H)%rbind_ok.
  apply rbind_ok in H as ([] & _ & H). apply rbind_ok in H as (times & _ & H). apply rbind_ok in H as ([] & _ & H).
  apply rbind_ok in H as ([] & _ & H). apply rbind_ok in H as (sync & _ & H). apply rbind_ok in H as (l1 & H1 & ->%ok_snd).
  eexists. split; [exact H1|]. split; [done|]. split; [done|]. unfold is_automatic, refused. simpl. by intros ->.
Qed.

Lemma create_inv args id token placeholder now s o l : create pepper args id token placeholder now (pdevices s) = Ok (o, l) →
  PInv seal s → PInv seal (s <| pdevices := l |>).
Proof.
  intros (d & H & Hv & Hsec & Hr)%create_shape Hi. eapply pinv_insert_device; [exact H| |by left|exact Hi].
  split; [intros Ha; by rewrite Hr|rewrite Hsec; by intros _ [? ?]|by left].
Qed.

Definition renewed (digest : str) (now : Z) (x : device) : device :=
  x <| v_auth := (v_auth x) <| a_token_hash := digest |>
                  <| a_mode := match a_mode (v_auth x) with StockToken => StockToken | _ => LegacyToken end |> |> <| v_updated := now |>.
Lemma regenerate_shape id token now l l' : regenerate pepper id token now l = Ok l' →
  (∃ d, get_device l id = Some d ∧ is_automatic d = false) ∧ l' = update_device id (renewed (hash_device_token token pepper) now) l.
Proof.
  unfold regenerate. destruct (get_device l id) as [d|]; [|done]. intros ([] & Ha%raise_if_ok & H)%rbind_ok.
  apply rbind_ok in H as ([] & _ & ->%ok_val). split; [by exists d|done].
Qed.
Lemma renewed_token digest now x : is_automatic (renewed digest now x) = false.
Proof. unfold is_automatic. simpl. by destruct (a_mode (v_auth x)). Qed.

Lemma seen_same now ip last d : let d' := seen now ip last d in
  v_id d' = v_id d ∧ is_automatic d' = is_automatic d ∧ a_version (v_auth d') = a_version (v_auth d) ∧
  a_secret_hash (v_auth d') = a_secret_hash (v_auth d) ∧ a_state (v_auth d') = a_state (v_auth d).
Proof. unfold seen. simpl. destruct (match last with Some _ => _ | None => _ end); done. Qed.

(** What [authenticate] does to the table, and whom it returns. *)
Lemma authenticate_shape token ip version repair now db o db' : authenticate pepper token ip version repair now db = Ok (o, db') →
  match o with
  | None => devices db' = devices db
  | Some d => d ∈ devices db ∧ v_enabled d = true ∧
              accepts (hash_device_token token pepper) (hash_device_secret token pepper) version repair now d = true ∧
              devices db' = update_device (v_id d) (seen now ip (a_last_auth (v_auth d))) (devices db)
  end.
Proof.
  unfold authenticate. destruct (find_where _ _) as [d|] eqn:E.
  - intros [= <- <-]. apply find_where_Some in E as [Hd Ha]. apply sort_by_elem, filter_elem in Hd as [Hd Hc].
    apply andb_true_iff in Hc as [Hc _]. done.
  - by intros ([] & _ & [= <- <-])%rbind_ok.
Qed.

Lemma seen_update reqs devs now ip last d : d ∈ devs → pinv seal reqs devs → device_update reqs d (seen now ip last d).
Proof.
  intros Hd Hi. destruct (seen_same now ip last d) as (_ & Ha & Hv & Hs & Hst). split.
  - unfold refused. rewrite Ha, Hst. intros Hau Hr. by apply (pi_idle _ _ _ Hi d).
  - rewrite Ha, Hs. by apply (pi_paired _ _ _ Hi d).
  - by left.
Qed.

Lemma regenerate_inv id token now s l : regenerate pepper id token now (pdevices s) = Ok l → PInv seal s → PInv seal (s <| pdevices := l |>).
Proof.
  intros [_ ->]%regenerate_shape Hi. apply pinv_update_device; [done| |exact Hi]. intros x Hx _. split; [by rewrite renewed_token..|by left].
Qed.

Lemma pair_act_inv e s : PInv seal s → PInv seal (pair_act e s).
Proof.
  intros Hi. unfold pair_act, commit, commit_snd. destruct (ev_act e).
  - destruct (request_pairing _ _ _ _ _ _ _) as [[]|] eqn:E; [by eapply request_pairing_inv|done].
  - by apply expire_inv.
  - destruct (approve _ _ _ _ _ _ _) as [[]|] eqn:E; [by eapply approve_inv|done].
  - destruct (claim _ _ _ _ _ _ _ _ _) as [[]|] eqn:E; [by eapply claim_pair_inv|done].
  - destruct (confirm _ _ _ _ _ _ _ _ _ _ _) as [[]|] eqn:E; [by eapply confirm_inv|done].
  - destruct (reject _ _ _ _) eqn:E; [by eapply reject_inv|done].
  - destruct (revoke _ _ _ _ _) eqn:E; [by eapply revoke_inv|done].
  - destruct (start_repair _ _ _ _ _) eqn:E; [by eapply start_repair_inv|done].
  - destruct (create _ _ _ _ _ _ _) as [[]|] eqn:E; [by eapply create_inv|done].
  - destruct (regenerate _ _ _ _ _) eqn:E; [by eapply regenerate_inv|done].
  - done.
Qed.

Lemma run_act_inv s e : PInv seal (pairing s) → PInv seal (pairing (run_act s e)).
Proof.
  intros Hi. unfold run_act. pose proof (pair_act_inv e (pairing s) Hi) as Hp.
  destruct (ev_act e); try done. destruct (authenticate _ _ _ _ _ _ _) as [[o db]|] eqn:E; [|done].
  apply authenticate_shape in E. cbn [pairing]. unfold PInv. cbn [requests pdevices set_with set_pdevices].
  destruct o as [d|]; [|by rewrite E]. destruct E as (Hd & _ & _ & ->). cbn [devices] in *.
  apply pinv_update_device; [intros x; apply seen_same| |done]. intros x Hx _. by eapply seen_update.
Qed.

Lemma run_inv_from es s : PInv seal (pairing s) → PInv seal (pairing (run es s)).
Proof. revert s. induction es as [|e es IH]; intros s Hi; [done|]. apply IH. by apply run_act_inv. Qed.

Lemma no_frames_inv : PInv seal (pairing no_frames).
Proof.
  split; try by intros ? ?%elem_of_nil.
  - constructor.
  - constructor.
  - by intros ? ? ?%elem_of_nil.
  - vm_compute; congruence.
Qed.

Lemma run_inv es : PInv seal (pairing (run es no_frames)).
Proof. apply run_inv_from, no_frames_inv. Qed.

Lemma run_act_evolve s e : (∀ j, unseal (seal j) = Some j) → PInv seal (pairing s) →
  evolve (step (repairs e)) (pdevices (pairing s)) (pdevices (pairing (run_act s e))).
Proof.
  intros Hus Hi. unfold run_act, repairs, pair_act, commit, commit_snd. destruct (ev_act e); cbn [pairing].
  - destruct (request_pairing _ _ _ _ _ _ _) as [[]|] eqn:E; [by eapply request_evolve|reflexivity].
  - apply evolve_expire.
  - destruct (approve _ _ _ _ _ _ _) as [[]|] eqn:E; [by eapply approve_evolve|reflexivity].
  - destruct (claim _ _ _ _ _ _ _ _ _) as [[]|] eqn:E; [by eapply claim_evolve|reflexivity].
  - destruct (confirm _ _ _ _ _ _ _ _ _ _ _) as [[]|] eqn:E; [by eapply confirm_evolve|reflexivity].
  - destruct (reject _ _ _ _) eqn:E; [by eapply reject_evolve|reflexivity].
  - destruct (revoke _ _ _ _ _) eqn:E; [by eapply revoke_evolve|reflexivity].
  - destruct (start_repair _ _ _ _ _) eqn:E; [by eapply repair_evolve|reflexivity].
  - destruct (create _ _ _ _ _ _ _) as [[]|] eqn:E; [|reflexivity]. apply create_shape in E as (d & E & _). by eapply evolve_insert.
  - destruct (regenerate _ _ _ _ _) eqn:E; [|reflexivity]. apply regenerate_shape in E as [(d & Eg & Ha) ->].
    apply evolve_update. intros x Hx Ex. rewrite (get_device_elem _ _ x (pi_devices _ _ _ Hi) Hx Ex) in Eg. injection Eg as ->.
    split; [split; [done|by rewrite renewed_token|congruence]|]. intros _. unfold stays_revoked. congruence.
  - destruct (authenticate _ _ _ _ _ _ _) as [[o db]|] eqn:E; [|reflexivity]. apply authenticate_shape in E. cbn [pairing pdevices set_with set_pdevices].
    destruct o as [d|]; [|by rewrite E]. destruct E as (Hd & _ & _ & ->). cbn [devices]. apply evolve_update. intros x Hx _.
    destruct (seen_same (w_now (ev_world e)) ip (a_last_auth (v_auth d)) x) as (H1 & H2 & H3 & H4 & H5). apply step_same; congruence.
Qed.

(** Over a run, for every device that no operation of it repairs. *)
Lemma run_evolve es s : (∀ j, unseal (seal j) = Some j) → PInv seal (pairing s) →
  evolve (step (λ k, Exists (λ e, repairs e k) es)) (pdevices (pairing s)) (pdevices (pairing (run es s))).
Proof.
  intros Hus. revert s. induction es as [|e es IH]; intros s Hi; [reflexivity|]. intros d Hd.
  destruct (run_act_evolve s e Hus Hi d Hd) as (d1 & H1 & K1 & S1). destruct (IH _ (run_act_inv s e Hi) d1 H1) as (d2 & H2 & K2 & S2).
  exists d2. split; [done|]. split; [by etrans|]. rewrite Exists_cons. intros Hn Ha Hr.
  rewrite (k_id _ _ K1) in S2. apply S2; [tauto|by rewrite (k_mode _ _ K1)|]. apply S1; tauto.
Qed.

(** ** Admission *)

(** An automatic device is accepted by its own secret. *)
Lemma accepts_automatic legacy secret version repair now d : accepts legacy secret version repair now d = true → is_automatic d = true →
  is_Some (a_secret_hash (v_auth d)) ∧ version = Some (a_version (v_auth d)) ∧ (a_state (v_auth d) ∈ [Paired; PairingPending]).
Proof.
  unfold accepts, token_mode. intros H Ha. rewrite Ha, Bool.andb_false_r in H. cbn [andb negb] in H.
  destruct (repair && _) eqn:Er; [done|]. destruct (negb (has_state Paired d) && _) eqn:Ep; [done|].
  apply andb_true_iff in H as [Hs Hv]. split_and!.
  - destruct (a_secret_hash (v_auth d)); [done|]. done.
  - destruct version as [n|]; [|done]. by apply Z.eqb_eq in Hv as ->.
  - apply Bool.andb_false_iff in Ep as [Ep|Ep]; apply Bool.negb_false_iff in Ep.
    + apply bool_decide_eq_true in Ep as ->. set_solver.
    + apply andb_true_iff in Ep as [[[_ Ep]%andb_true_iff _]%andb_true_iff _]. apply bool_decide_eq_true in Ep as ->. set_solver.
Qed.

(** Every automatic frame the server lets in, by its secret or for a
    repair, after any run of the service, has completed an enrolment: one of
    its requests is confirmed, was approved, and names the administrator who
    approved it unless it is marked as made in a trusted LAN. *)
Theorem paired_frame_was_admitted es token ip version repair now d db :
  let s := run es no_frames in
  authenticate pepper token ip version repair now (mk_devdb (pdevices (pairing s)) (auth_failures s)) = Ok (Some d, db) →
  is_automatic d = true →
  ∃ r, r ∈ requests (pairing s) ∧ r_device r = v_id d ∧ r_status r = PConfirmed ∧ is_Some (r_approved_at r) ∧
       (_stored_lan_request r = false → is_Some (r_approved_by r)).
Proof.
  intros s (Hd & _ & Ha & _)%authenticate_shape Hau. pose proof (run_inv es) as Hi. fold s in Hi.
  destruct (accepts_automatic _ _ _ _ _ _ Ha Hau) as (Hsec & _). cbn [devices] in Hd.
  destruct (pi_paired _ _ _ Hi d Hd Hau Hsec) as (r & Hr & E & Hc). exists r. split_and!; try done.
  all: destruct (pi_admitted _ _ _ Hi r Hr) as [Had _]; apply Had; rewrite Hc; set_solver.
Qed.

(** What expiry leaves of the active requests. *)
Lemma expire_fold_active now rs s x : x ∈ requests (fold_left (expire_one now) rs s) → is_active x = true →
  x ∈ requests s ∧ Forall (λ r, r_id r ≠ r_id x) rs.
Proof.
  revert s. induction rs as [|r rs IH]; intros s Hx Ha; [by split|]. destruct (IH _ Hx Ha) as [H1 H2].
  unfold expire_one in H1. cbn [requests update_pdevice update_request set_with set_pdevices set_requests] in H1.
  apply update_where_elem in H1 as (y & Hy & Ey). unfold by_key in Ey. destruct (str_eqb (r_id y) (r_id r)) eqn:E.
  - subst x. done.
  - subst x. split; [done|]. constructor; [|done]. intros E'. by rewrite E', str_eqb_refl in E.
Qed.

Lemma expire_active lan now s x : x ∈ requests (_expire_requests lan now s) → is_active x = true →
  x ∈ requests s ∧ lapsed_request lan now x = false.
Proof.
  unfold _expire_requests. cbn [requests set_with set_requests]. intros [Hx _]%filter_elem Ha.
  destruct (expire_fold_active _ _ _ _ Hx Ha) as [H1 H2]. split; [done|]. destruct (lapsed_request lan now x) eqn:E; [|done].
  exfalso. rewrite Forall_forall in H2. apply (H2 x); [|done]. apply filter_elem. auto.
Qed.

(** C29. A server that is not on a trusted LAN completes an enrolment only
    for a request an administrator approved, and only before it expires, even
    for requests that were opened and approved while its LAN was trusted. *)
Theorem confirmation_needs_administrator es w id dev nonce secret version s' :
  let s := pairing (run es no_frames) in
  confirm pepper false zone_known unseal w id dev nonce secret version s = Ok (Confirmed, s') →
  ∃ r, r ∈ requests s ∧ _validate_text id 128 true = Ok (r_id r) ∧ _validate_device_id dev = Ok (r_device r) ∧
       r_status r = PIssued ∧ is_Some (r_approved_by r) ∧ w_now w < r_expires r.
Proof.
  intros s H. pose proof (run_inv es) as Hi. fold s in Hi. unfold confirm in H.
  apply rbind_ok in H as (k & Hk & H). apply rbind_ok in H as (d & Hd & H). apply rbind_ok in H as (n & _ & H).
  apply rbind_ok in H as (sec & _ & H). apply rbind_ok in H as ([] & _ & H). apply rbind_ok in H as (v & _ & H).
  destruct (get_request _ k) as [r|] eqn:Eg; [|done]. apply get_request_elem in Eg as [Hr <-].
  apply rbind_ok in H as ([] & He%raise_if_ok & H). apply Bool.negb_false_iff, str_eqb_eq in He as <-.
  apply rbind_ok in H as ([] & _ & H). destruct (status_in [PConfirmed] r).
  { destruct (get_device _ _); [|done]. by apply rbind_ok in H as ([] & _ & [= ?]). }
  apply rbind_ok in H as ([] & _ & H). destruct (status_in [PPending] r); [by injection H|].
  apply rbind_ok in H as ([] & Hs%raise_if_ok & _). apply Bool.negb_false_iff, status_in_true, list_elem_of_singleton in Hs.
  destruct (expire_active _ _ _ _ Hr (issued_active r Hs)) as [H1 H2]. exists r. split_and!; try done.
  - destruct (pi_admitted _ _ _ Hi r H1) as [Had _]. apply Had; [rewrite Hs; set_solver|].
    unfold lapsed_request in H2. rewrite (issued_active r Hs) in H2. by apply Bool.orb_false_iff in H2 as [_ H2].
  - unfold lapsed_request in H2. rewrite (issued_active r Hs) in H2. apply Bool.orb_false_iff in H2 as [[H2 _]%Bool.orb_false_iff _].
    by apply Z.leb_gt in H2.
Qed.

(** However many requests arrive, a device has one active request, at
    most a hundred are active, none survives five wrong claims, and the
    administrator's list of a hundred entries shows every one of them. *)
Theorem pairing_requests_bounded es lan w :
  let s := pairing (run es no_frames) in
  (∀ r1 r2, r1 ∈ requests s → r2 ∈ requests s → is_active r1 = true → is_active r2 = true → r_device r1 = r_device r2 → r1 = r2) ∧
  countb is_active (requests s) ≤ 100 ∧
  (∀ r, r ∈ requests s → is_active r = true → 0 ≤ r_claim_attempts r < 5) ∧
  (let '(rows, s') := pending_for_admin lan w s in ∀ r, r ∈ requests s' → is_active r = true → r_id r ∈ map ar_id rows).
Proof.
  intros s. pose proof (run_inv es) as Hi. fold s in Hi. split_and!.
  - apply (pi_active _ _ _ Hi).
  - apply (pi_bound _ _ _ Hi).
  - intros r Hr Ha. destruct (pi_admitted _ _ _ Hi r Hr) as [_ [H1 H2]]. split; [done|]. by apply H2.
  - unfold pending_for_admin. intros r Hr Ha. rewrite map_map. set (s1 := _expire_requests lan (w_now w) s) in *.
    pose proof (pi_bound _ _ _ (expire_inv seal lan (w_now w) s Hi)) as Hb. fold s1 in Hb. rewrite take_ge.
    + apply list_elem_of_fmap. exists r. split; [done|]. apply sort_by_elem, filter_elem. done.
    + rewrite sort_by_length. unfold countb in Hb. change PAIRING_MAX_PENDING with 100 in Hb. lia.
Qed.

(** ** Revocation and versions *)

Section cipher.
Context (unseal_seal : ∀ j, unseal (seal j) = Some j).

(** The one device that has an identifier. *)
Lemma evolved_device r s s' d x : PInv seal (pairing s') → evolve (step r) (pdevices (pairing s)) (pdevices (pairing s')) →
  d ∈ pdevices (pairing s) → x ∈ pdevices (pairing s') → v_id x = v_id d → step r d x.
Proof.
  intros Hi He Hd Hx E. destruct (He d Hd) as (d' & Hd' & R).
  assert (x = d') as -> by (eapply keys_unique_inj; [apply (pi_devices _ _ _ Hi)|done|done|]; rewrite E; symmetry; apply R). done.
Qed.

(** C30. A revoked frame stays out: whatever requests, approvals, claims,
    confirmations and other operations follow, with whatever secrets, the
    server does not authenticate it again until an administrator has started
    its repair. *)
Theorem revoked_frame_stays_out es d es' token ip version repair now x db :
  let s := run es no_frames in
  let s' := run es' s in
  d ∈ pdevices (pairing s) → is_automatic d = true → a_state (v_auth d) = Revoked →
  Forall (λ e, ¬ repairs e (v_id d)) es' →
  authenticate pepper token ip version repair now (mk_devdb (pdevices (pairing s')) (auth_failures s')) = Ok (Some x, db) →
  v_id x ≠ v_id d.
Proof using unseal_seal.
  intros s s' Hd Ha Hr Hn (Hx & _ & Hacc & _)%authenticate_shape E. cbn [devices] in Hx.
  pose proof (run_inv_from es' s (run_inv es)) as Hi'. pose proof (run_evolve es' s unseal_seal (run_inv es)) as Hev. fold s' in Hi', Hev.
  destruct (evolved_device _ _ _ d x Hi' Hev Hd Hx E) as [K S].
  assert (a_state (v_auth x) = Revoked) as Hrx.
  { apply S; [|done|done]. intros (e & He & Hre)%Exists_exists. rewrite Forall_forall in Hn. by apply (Hn e). }
  assert (is_automatic x = true) as Hax by (by rewrite (k_mode _ _ K)).
  destruct (accepts_automatic _ _ _ _ _ _ Hacc Hax) as (_ & _ & Hst). rewrite Hrx in Hst. set_solver.
Qed.

(** Credential versions only grow, and a version is one secret: after any
    further operations the credential of a frame is unchanged or has a higher
    version, so a credential of a version below the current one never
    authenticates the frame again. *)
Theorem superseded_credential_refused es d es' token ip n repair now x db :
  let s := run es no_frames in
  let s' := run es' s in
  d ∈ pdevices (pairing s) → is_automatic d = true →
  authenticate pepper token ip (Some n) repair now (mk_devdb (pdevices (pairing s')) (auth_failures s')) = Ok (Some x, db) →
  v_id x = v_id d →
  a_version (v_auth d) ≤ n ∧ (n = a_version (v_auth d) → a_secret_hash (v_auth x) = a_secret_hash (v_auth d)).
Proof using unseal_seal.
  intros s s' Hd Ha (Hx & _ & Hacc & _)%authenticate_shape E. cbn [devices] in Hx.
  pose proof (run_inv_from es' s (run_inv es)) as Hi'. pose proof (run_evolve es' s unseal_seal (run_inv es)) as Hev. fold s' in Hi', Hev.
  destruct (evolved_device _ _ _ d x Hi' Hev Hd Hx E) as [K _].
  assert (is_automatic x = true) as Hax by (by rewrite (k_mode _ _ K)).
  destruct (accepts_automatic _ _ _ _ _ _ Hacc Hax) as (_ & [= En] & _).
  destruct (k_credential _ _ K Ha) as [[Ev Es]|Hlt]; [|split; lia]. split; [lia|by intros _].
Qed.
End cipher.
End run.
