(* ===== verification/PairingConfig.v ===== *)
(** * The normal form of a frame's configuration

    [_normalize_config] runs when a request is opened, when it is approved,
    when its secret is issued and when it is confirmed.  Its result is a normal
    form: the later runs accept it and return it unchanged, so a request that
    was approved cannot fail on its configuration. *)

From S2P Require Import Prelude PyStr Json Sql Store Schema OfflineSchedule SchedulesProps Devices Pairing PairingInv.
Local Open Scope Z_scope.

(** ** Texts *)

Lemma validate_text_fix j n req s : _validate_text j n req = Ok s → _validate_text (JStr s) n req = Ok s.
Proof.
  unfold _validate_text. intros (t & Ht & H)%rbind_ok. apply rbind_ok in H as ([] & H1%raise_if_ok & H).
  apply rbind_ok in H as ([] & H2%raise_if_ok & [= ->]).
  assert (strip s = s) as -> by (destruct j; simplify_eq/=; [done|apply strip_idemp]).
  cbn [rbind]. by rewrite H1, H2.
Qed.

Lemma validate_text_required j n s : _validate_text j n true = Ok s → s ≠ [].
Proof.
  unfold _validate_text. intros (t & _ & H)%rbind_ok. apply rbind_ok in H as ([] & H1%raise_if_ok & H).
  apply rbind_ok in H as ([] & _ & [= ->]). by destruct s.
Qed.

Lemma optional_word_fix j n ws o : optional_word j n ws = Ok o → optional_word (opt_json o) n ws = Ok o.
Proof.
  unfold optional_word. intros (s & Hs & H)%rbind_ok. pose proof (validate_text_fix _ _ _ _ Hs) as Hf.
  destruct s as [|c s]; simplify_eq/=.
  - change (_validate_text JNull n false) with (_validate_text (JStr []) n false). by rewrite Hf.
  - destruct (str_in _ _) eqn:E; [|done]. simplify_eq. cbn [opt_json]. rewrite Hf. cbn [rbind]. by rewrite E.
Qed.

(** ** Times *)

Lemma decimal_not_space c d : decimal c = Some d → is_space c = false.
Proof.
  unfold decimal. destruct (List.find _ _) as [z|] eqn:E; [|done]. intros _. apply List.find_some in E as [Hz E]. bprop.
  assert (forallb (λ z, forallb (λ i, negb (is_space (z + i))) [0; 1; 2; 3; 4; 5; 6; 7; 8; 9]) decimal_zeros = true) as H by (by vm_compute).
  rewrite forallb_forall in H. specialize (H z Hz). rewrite forallb_forall in H.
  specialize (H (c - z)). replace (z + (c - z)) with c in H by lia. apply Bool.negb_true_iff, H. simpl. lia.
Qed.

(** Texts that neither start nor end with white space. *)
Lemma strip_fix c s d : is_space c = false → is_space d = false → List.last (c :: s) 0 = d → strip (c :: s) = c :: s.
Proof.
  intros Hc Hd Hl. unfold strip. rewrite (lstrip_fix (c :: s)) by done. unfold rstrip.
  destruct (List.exists_last (l := c :: s)) as (l & x & E); [done|]. rewrite E in *. rewrite List.last_last in Hl. subst x.
  rewrite rev_app_distr. cbn [rev app]. rewrite lstrip_fix by done. cbn [rev]. by rewrite rev_involutive.
Qed.

Lemma valid_time_fix s : valid_time s = true → strip s = s ∧ length s = 5%nat.
Proof.
  unfold valid_time, time_minutes. intros H. destruct s as [|a [|b [|c [|d [|e [|]]]]]]; try done. split; [|done].
  destruct (c =? 58); [|done]. unfold slot_hour, slot_minute in H.
  assert (is_space a = false).
  { destruct ((48 <=? a) && (a <=? 49)) eqn:E1.
    - assert (a = 48 ∨ a = 49) as [->| ->] by (bprop; lia); done.
    - destruct ((a =? 50) && _ && _) eqn:E2; [|done]. assert (a = 50) as -> by (bprop; lia). done. }
  assert (∃ v, decimal e = Some v) as [v Hv].
  { destruct (if _ : bool then _ else _) as [h|]; [|done]. destruct ((48 <=? d) && _); [|done]. destruct (decimal e); [by eexists|done]. }
  eapply strip_fix; [done|by eapply decimal_not_space|done].
Qed.

Lemma valid_time_text s : valid_time s = true → _validate_text (JStr s) 5 true = Ok s.
Proof.
  intros [E El]%valid_time_fix. unfold _validate_text. rewrite E. destruct s; [done|]. cbn [rbind raise_if andb].
  unfold slen. by rewrite El.
Qed.

Lemma nonempty_texts_fix l : Forall (λ s, valid_time s = true) l → nonempty_texts l = l.
Proof.
  unfold nonempty_texts. induction 1 as [|s l [E El]%valid_time_fix _ IH]; [done|]. cbn [map List.filter]. rewrite E.
  destruct s; [done|]. by rewrite IH.
Qed.

Lemma schedule_values_fix j fb gap maximum l : _schedule_values j fb gap maximum = Ok l →
  (∀ fb', _schedule_values (JList (map JStr l)) fb' gap maximum = Ok l) ∧ Forall (λ s, valid_time s = true) l ∧ l ≠ [].
Proof.
  unfold _schedule_values. intros (vs & _ & H)%rbind_ok. apply rbind_ok in H as ([] & H1%raise_if_ok & H).
  apply rbind_ok in H as ([] & H2%raise_if_ok & H). destruct (validate_offline_schedule _ _ _) eqn:E; [|done]. apply ok_val in H as ->.
  pose proof H1 as H1'. apply Bool.orb_false_iff in H1' as [[Hn _]%Bool.orb_false_iff Hv].
  assert (Forall (λ s, valid_time s = true) vs) as Hf.
  { apply Forall_forall. intros s Hs. rewrite existsb_none in Hv. apply Hv in Hs. by apply Bool.negb_false_iff. }
  split_and!; [|done|by destruct vs]. intros fb'. rewrite all_strings_map, (nonempty_texts_fix _ Hf). cbn [rbind].
  rewrite H1. cbn [raise_if rbind]. rewrite H2. cbn [raise_if rbind]. by rewrite E.
Qed.

Lemma sync_fix strategy time p : normalize_sync_strategy strategy time = Ok p →
  normalize_sync_strategy (Some (fst p)) (snd p) = Ok p.
Proof.
  unfold normalize_sync_strategy at 1. intros ([] & H1%raise_if_ok & H)%rbind_ok. apply Bool.negb_false_iff, str_in_elem in H1.
  cbn [map] in H1. rewrite !elem_of_cons, elem_of_nil in H1. set (s := strip _) in *. clearbody s.
  destruct (match time with None => None | Some [] => None | Some x => Some (strip x) end) as [t|] eqn:Et.
  - destruct H1 as [->|[->|[]]]; [done|]. change (str_eqb (u "fixed_daily") (u "first_display_lead")) with false in H. cbv match in H.
    destruct (valid_time t) eqn:Ev; [|done]. apply ok_val in H as ->. cbn [fst snd]. unfold normalize_sync_strategy.
    destruct (valid_time_fix t Ev) as [Es El]. destruct t as [|c t]; [done|].
    change (strip (str_or (Some (u "fixed_daily")) (u "first_display_lead"))) with (u "fixed_daily"). cbv zeta.
    rewrite Es. cbn [rbind]. by rewrite Ev.
  - destruct H1 as [->|[->|[]]]; [|done]. change (str_eqb (u "first_display_lead") (u "first_display_lead")) with true in H. cbv match in H.
    apply ok_val in H as ->. reflexivity.
Qed.

Lemma int_in_fix j lo hi n : int_in j lo hi = Ok n → int_in (JInt n) lo hi = Ok n.
Proof. unfold int_in. destruct j; try done. destruct (_ && _) eqn:E; [|done]. intros [= ->]. by rewrite E. Qed.

Lemma resolve_slots_idemp j : resolve_slots (JInt (resolve_slots j)) = resolve_slots j.
Proof.
  unfold resolve_slots, resolve_offline_schedule_max_slots. cbn [assoc_get]. rewrite str_eqb_refl.
  destruct j as [| |v| | | |]; try reflexivity. destruct ((v =? 16) || (v =? MAX_OFFLINE_SLOTS)) eqn:E; [by rewrite E|reflexivity].
Qed.

(** ** The normal form *)

(** What a run of [_normalize_config] on [config_members p] computes. *)
Record config_ok (zone_known : str → bool) (slots : Z) (p : pconfig) : Prop := {
  co_name : _validate_text (JStr (p_name p)) 100 false = Ok (p_name p);
  co_named : p_name p ≠ [];
  co_zone : _validate_text (JStr (p_timezone p)) 64 false = Ok (p_timezone p);
  co_known : zone_known (p_timezone p) = true;
  co_schedule : valid_time (p_schedule p) = true;
  co_gap : int_in (JInt (p_gap p)) 30 360 = Ok (p_gap p);
  co_sync : normalize_sync_strategy (Some (p_sync_strategy p)) (p_sync_time p) = Ok (p_sync_strategy p, p_sync_time p);
  co_times : ∀ fb, _schedule_values (JList (map JStr (p_times p))) fb (p_gap p) (resolve_slots (JInt slots)) = Ok (p_times p);
  co_listed : str_in (p_schedule p) (p_times p) = true;
  co_rotation : (p_rotation p =? 0) || (p_rotation p =? 180) = true;
  co_panel : _validate_text (JStr (p_panel p)) 128 true = Ok (p_panel p);
  co_delivery : _validate_text (JStr (p_delivery p)) 64 false = Ok (p_delivery p);
  co_delivery_word : str_in (p_delivery p) (map u delivery_words) = true;
  co_lead : int_in (JInt (p_lead p)) 0 120 = Ok (p_lead p);
  co_button : _validate_text (JStr (p_button p)) 64 false = Ok (p_button p);
  co_button_word : str_in (p_button p) (map u button_words) = true;
  co_orientation : optional_word (opt_json (p_orientation p)) 32 orientation_words = Ok (p_orientation p);
  co_layout : optional_word (opt_json (p_layout p)) 64 layout_words = Ok (p_layout p);
  co_fit : optional_word (opt_json (p_fit p)) 32 fit_words = Ok (p_fit p);
  co_slots : p_slots p = resolve_slots (JInt slots) }.

Section normal_form.
Context (zone_known : str → bool).

(** A name that may stand for an empty one. *)
Definition fallback_ok (name : str) : Prop := name ≠ [] ∧ _validate_text (JStr name) 100 false = Ok name.

Lemma normalize_config_ok source name slots p : fallback_ok name →
  _normalize_config zone_known source name slots = Ok p → config_ok zone_known slots p.
Proof.
  intros [Hn Hnv] H. unfold _normalize_config in H.
  apply rbind_ok in H as (n & H1%validate_text_fix & H). apply rbind_ok in H as (z & H2%validate_text_fix & H).
  apply rbind_ok in H as ([] & H3%raise_if_ok%Bool.negb_false_iff & H). apply rbind_ok in H as (sch & _ & H).
  apply rbind_ok in H as ([] & H4%raise_if_ok%Bool.negb_false_iff & H). apply rbind_ok in H as (gap & H5%int_in_fix & H).
  apply rbind_ok in H as (sync & H6 & H). destruct (normalize_sync_strategy _ _) as [sy|] eqn:Es; [|done].
  apply ok_val in H6 as ->. apply sync_fix in Es.
  apply rbind_ok in H as (times & H7 & H). destruct (schedule_values_fix _ _ _ _ _ H7) as (Ht & Hv & Hne). clear H7.
  apply rbind_ok in H as (rot & H8 & H). apply rbind_ok in H as (panel & H9%validate_text_fix & H).
  apply rbind_ok in H as (del & H10%validate_text_fix & H). apply rbind_ok in H as ([] & H11%raise_if_ok%Bool.negb_false_iff & H).
  apply rbind_ok in H as (lead & H12%int_in_fix & H). apply rbind_ok in H as (but & H13%validate_text_fix & H).
  apply rbind_ok in H as ([] & H14%raise_if_ok%Bool.negb_false_iff & H). apply rbind_ok in H as (ori & H15%optional_word_fix & H).
  apply rbind_ok in H as (lay & H16%optional_word_fix & H). apply rbind_ok in H as (fit & H17%optional_word_fix & H).
  apply ok_val in H as ->. split; cbn [p_name p_timezone p_schedule p_times p_rotation p_panel p_delivery p_lead p_button p_gap
    p_sync_strategy p_sync_time p_orientation p_layout p_fit p_slots]; try done.
  - by destruct n.
  - by destruct n.
  - destruct (str_in sch times); [done|]. destruct times as [|t ts]; [done|]. by apply Forall_cons in Hv as [Hv _].
  - by destruct sy.
  - destruct (str_in sch times) eqn:E; [done|]. destruct times as [|t ts]; [done|]. apply str_in_elem. by left.
  - destruct (jget_or source "rotation" (JInt 0)); try done. destruct (_ || _) eqn:E; [|done]. by apply ok_val in H8 as ->.
Qed.

Lemma normalize_config_fix name slots p : config_ok zone_known slots p → _normalize_config zone_known (config_members p) name slots = Ok p.
Proof.
  intros []. unfold _normalize_config.
  change (jget (config_members p) "name") with (JStr (p_name p)). rewrite co_name0. cbn [rbind].
  change (jget_or (config_members p) "timezone" (JStr (u "Asia/Taipei"))) with (JStr (p_timezone p)). rewrite co_zone0. cbn [rbind].
  rewrite co_known0. cbn [negb raise_if rbind].
  change (jget_or (config_members p) "schedule" (JStr (u "08:00"))) with (JStr (p_schedule p)). rewrite valid_time_text by done. cbn [rbind].
  rewrite co_schedule0. cbn [negb raise_if rbind].
  change (jget_or (config_members p) "minimum_schedule_gap_minutes" (JInt MINIMUM_SCHEDULE_GAP_MINUTES)) with (JInt (p_gap p)). rewrite co_gap0. cbn [rbind].
  change (strategy_arg (jget_or (config_members p) "sync_strategy" (JStr (u "first_display_lead")))) with (Some (p_sync_strategy p)).
  assert (time_arg (jget (config_members p) "sync_time") = p_sync_time p) as ->.
  { change (jget (config_members p) "sync_time") with (opt_json (p_sync_time p)). by destruct (p_sync_time p). }
  rewrite co_sync0. cbn [rbind]. change (jget (config_members p) "schedule_times") with (JList (map JStr (p_times p))). rewrite co_times0. cbn [rbind].
  change (jget_or (config_members p) "rotation" (JInt 0)) with (JInt (p_rotation p)). cbv beta match. rewrite co_rotation0. cbn [rbind].
  change (jget_or (config_members p) "panel_profile" (JStr (u "safe_4c"))) with (JStr (p_panel p)). rewrite co_panel0. cbn [rbind].
  change (jget_or (config_members p) "delivery_mode" (JStr (u "legacy_online"))) with (JStr (p_delivery p)). rewrite co_delivery0. cbn [rbind].
  rewrite co_delivery_word0. cbn [negb raise_if rbind].
  change (jget_or (config_members p) "prefetch_lead_minutes" (JInt 5)) with (JInt (p_lead p)). rewrite co_lead0. cbn [rbind].
  change (jget_or (config_members p) "button_wake_action" (JStr (u "check_new"))) with (JStr (p_button p)). rewrite co_button0. cbn [rbind].
  rewrite co_button_word0. cbn [negb raise_if rbind].
  change (jget (config_members p) "frame_orientation") with (opt_json (p_orientation p)). rewrite co_orientation0. cbn [rbind].
  change (jget (config_members p) "layout_mode") with (opt_json (p_layout p)). rewrite co_layout0. cbn [rbind].
  change (jget (config_members p) "fit_mode") with (opt_json (p_fit p)). rewrite co_fit0. cbn [rbind]. rewrite co_listed0, <- co_slots0.
  destruct p as [nm ? ? ? ? ? ? ? ? ? ? ? ? ? ? ?]; cbn in *. by destruct nm.
Qed.

(** The configuration stored with a request is a normal form: reading it
    back, as approval, issue and confirmation do, with the same capability
    and any fallback name, accepts it and returns the same configuration. *)
Theorem config_normal_form source name slots p name' :
  fallback_ok name → _normalize_config zone_known source name slots = Ok p →
  _normalize_config zone_known (config_members p) name' slots = Ok p.
Proof. intros Hn H%normalize_config_ok; [|done]. by apply normalize_config_fix. Qed.
End normal_form.
