(* ===== verification/PairingLive.v ===== *)
(** * Enrolments complete

    In any reachable state an approved request that has not lapsed can be
    claimed with its nonce; an issued one can be claimed again with the same
    answer and confirmed with the secret that was issued, and the frame then
    authenticates with it.  What makes it true is an invariant of the rows: the
    configuration of an approved request, and the one in an issued envelope, are
    normal forms. *)

From S2P Require Import Prelude PyStr Json Sql Store Reservations Sha256 Hmac OfflineSchedule Schema Devices Pairing PairingInv PairingProps PairingConfig.
Local Open Scope Z_scope.

(** ** Identifiers and names *)

Lemma id_char_not_space c : alnum c || (c =? 46) || (c =? 95) || (c =? 58) || (c =? 45) = true → is_space c = false.
Proof. unfold alnum, is_space. intros H. bprop. lia. Qed.

Definition id_ok (id : str) : Prop := _validate_device_id (JStr id) = Ok id.

Lemma validate_device_id_fix j id : _validate_device_id j = Ok id → id_ok id.
Proof.
  unfold id_ok, _validate_device_id. intros (t & Ht%validate_text_fix & H)%rbind_ok. apply rbind_ok in H as ([] & Hd & ->%ok_val).
  rewrite Ht. cbn [rbind]. by rewrite Hd.
Qed.

Lemma id_ok_chars id : id_ok id → id ≠ [] ∧ Forall (λ c, is_space c = false) id.
Proof.
  unfold id_ok, _validate_device_id. intros (t & _ & H)%rbind_ok. apply rbind_ok in H as ([] & Hd%raise_if_ok & H). apply ok_val in H as <-.
  apply Bool.negb_false_iff in Hd. destruct id as [|c id]; [done|]. split; [done|]. cbn [device_id_ok] in Hd.
  apply andb_true_iff in Hd as [[Hc Hs]%andb_true_iff _]. constructor.
  - apply id_char_not_space. by rewrite Hc.
  - apply Forall_forall. intros x Hx. apply id_char_not_space. rewrite forallb_forall in Hs. apply Hs. by apply list_elem_of_In.
Qed.

Lemma last_app_ne {A} (l1 l2 : list A) d : l2 ≠ [] → List.last (l1 ++ l2) d = List.last l2 d.
Proof.
  intros H. destruct (List.exists_last H) as (l & x & ->). by rewrite app_assoc, !List.last_last.
Qed.
Lemma last_in {A} (l : list A) d : l ≠ [] → List.last l d ∈ l.
Proof. intros H. destruct (List.exists_last H) as (l' & x & ->). rewrite List.last_last. apply elem_of_app. right. by left. Qed.

(** The name a frame gets by default is itself a valid name. *)
Lemma default_name_ok id : id_ok id → fallback_ok (default_name id).
Proof.
  intros [Hne Hc]%id_ok_chars. unfold fallback_ok, default_name. set (t := drop _ id).
  assert (t ≠ []) as Ht. { intros E. apply (f_equal length) in E. unfold t in E. rewrite length_drop in E. destruct id; [done|]. simpl in E. lia. }
  assert (is_space (List.last t 0) = false) as Hl.
  { apply (Forall_drop _ (length id - 6)) in Hc. rewrite Forall_forall in Hc. apply Hc. by apply last_in. }
  split; [done|]. unfold _validate_text.
  assert (strip (u "InkTime 相框 " ++ t) = u "InkTime 相框 " ++ t) as ->.
  { change (u "InkTime 相框 " ++ t) with (73 :: (tail (u "InkTime 相框 ") ++ t)). eapply strip_fix; [done|exact Hl|].
    change (73 :: (tail (u "InkTime 相框 ") ++ t)) with ((73 :: tail (u "InkTime 相框 ")) ++ t). by apply last_app_ne. }
  cbn [rbind andb raise_if]. assert ((100 <? slen (u "InkTime 相框 " ++ t)) = false) as ->; [|done].
  apply Z.ltb_ge. unfold slen. rewrite length_app. unfold t. rewrite length_drop.
  change (length (u "InkTime 相框 ")) with 11%nat. lia.
Qed.

(** ** The invariant of the rows *)

Section rows.
Context (pepper : str) (zone_known : str → bool) (seal : json → str) (unseal : str → option json).

Definition slots_of (caps : list (str * json)) : Z := resolve_offline_schedule_max_slots (JObj caps).

(** The configuration of an approved request. *)
Definition stored_ok (r : prow) : Prop :=
  ∃ p, r_config r = JObj (config_members p) ∧ config_ok zone_known (slots_of (r_capabilities r)) p.

(** The content of an issued envelope. *)
Record envelope_for (id : str) (m : list (str * json)) (secret : str) (version : Z) (p : pconfig) (slots : Z) : Prop := {
  ef_device : jget m "device_id" = JStr id;
  ef_secret : jget m "device_secret" = JStr secret;
  ef_version : jget m "credential_version" = JInt version;
  ef_positive : 1 ≤ version;
  ef_config : jget m "config" = JObj (config_members p);
  ef_slots : jget m "offline_schedule_max_slots" = JInt slots;
  ef_ok : config_ok zone_known (resolve_slots (JInt slots)) p }.
Definition sealed_ok (r : prow) : Prop :=
  ∃ m secret version p slots, r_envelope r = Some (seal (JObj m)) ∧ is_Some (r_envelope_expires r) ∧
                              envelope_for (r_device r) m secret version p slots.

Record row_ok (r : prow) : Prop := {
  ro_id : id_ok (r_device r);
  ro_stored : r_status r = PApproved → stored_ok r;
  ro_sealed : r_status r = PIssued → sealed_ok r }.
Definition rows (s : pdb) : Prop := ∀ r, r ∈ requests s → row_ok r.

(** A row that is neither approved nor issued. *)
Lemma row_ok_other r : id_ok (r_device r) → r_status r ≠ PApproved → r_status r ≠ PIssued → row_ok r.
Proof. intros H1 H2 H3. by split. Qed.

Lemma rows_update p f s l : rows s → l = update_where p f (requests s) → (∀ r, r ∈ requests s → p r = true → row_ok r → row_ok (f r)) →
  ∀ r, r ∈ l → row_ok r.
Proof.
  intros Hr -> Hf x (r & Hin & ->)%update_where_elem. destruct (p r) eqn:E; [apply Hf|]; auto.
Qed.

Lemma rows_activity w dev src ev msg err warn s : rows s → rows (_activity w dev src ev msg err warn s).
Proof. unfold rows. by destruct (activity_frame w dev src ev msg err warn s) as [-> _]. Qed.

Lemma expire_rows lan now s : rows s → rows (_expire_requests lan now s).
Proof.
  intros Hr x. unfold _expire_requests. cbn [requests set_with set_requests]. intros [Hx _]%filter_elem. revert x Hx.
  generalize (List.filter (lapsed_request lan now) (requests s)). intros rs. revert s Hr.
  induction rs as [|y rs IH]; intros s Hr; [done|]. apply IH. unfold rows, expire_one.
  cbn [requests update_pdevice update_request set_with set_pdevices set_requests].
  apply (rows_update (by_key r_id (r_id y)) (λ x, (drop_envelope x) <| r_status := PExpired |>) s); [done|done|].
  intros r _ _ []. by apply row_ok_other.
Qed.

Lemma slots_mark lan caps : slots_of (mark_enrollment lan caps) = slots_of caps.
Proof.
  unfold slots_of, resolve_offline_schedule_max_slots, mark_enrollment. by rewrite assoc_get_set_ne by done.
Qed.

Lemma resolve_slots_of caps : resolve_slots (JInt (slots_of caps)) = slots_of caps.
Proof.
  unfold slots_of, resolve_slots, resolve_offline_schedule_max_slots. cbn [assoc_get]. rewrite str_eqb_refl.
  destruct (assoc_get _ caps) as [[| |v| | | |]|]; try reflexivity.
  destruct ((v =? 16) || (v =? MAX_OFFLINE_SLOTS)) eqn:E; [by rewrite E|reflexivity].
Qed.

Lemma approve_request_rows lan w r admin cfg s s' : _approve_request lan zone_known w r admin cfg s = Ok s' →
  r ∈ requests s → rows s → rows s'.
Proof.
  intros (config & Er & _ & source & Hc)%approve_request_shape Hin Hr. unfold rows. eapply rows_update; [exact Hr|exact Er|].
  intros x Hx _ []. apply normalize_config_ok in Hc; [|by apply default_name_ok, Hr]. split; [done| |done].
  intros _. exists config. split; [done|]. change (config_ok zone_known (slots_of (mark_enrollment lan (r_capabilities r))) config).
  by rewrite slots_mark.
Qed.

Lemma issue_rows lan w r s reply s' : issue lan zone_known seal w r s = Ok (reply, s') → PInv seal s →
  r ∈ requests s → r_status r = PApproved → rows s → rows s'.
Proof.
  unfold issue. intros ([] & _ & H)%rbind_ok Hi Hin Hs Hr. apply rbind_ok in H as (config & Hc & ->%ok_snd). apply rows_activity.
  destruct (ro_stored r (Hr r Hin) Hs) as (p & Ep & Hp). rewrite Ep in Hc. cbn [members_of] in Hc.
  rewrite normalize_config_fix in Hc by exact Hp. apply ok_val in Hc as ->.
  match goal with |- context [update_request (r_id r) ?f s] => set (f1 := f) end.
  assert (rows (update_request (r_id r) f1 s)) as H1.
  { unfold rows. eapply rows_update; [exact Hr|reflexivity|]. intros x Hx E%str_eqb_eq Hok.
    rewrite (request_unique seal s r x) in * by done. split; [apply Hok|done|]. intros _.
    do 5 eexists. split; [reflexivity|]. split; [by eexists|]. split; try reflexivity.
    - destruct (get_device _ _); lia.
    - change (config_ok zone_known (resolve_slots (JInt (slots_of (r_capabilities r)))) p). rewrite resolve_slots_of. exact Hp. }
  by destruct (is_null _).
Qed.

Lemma insert_request_rows r s s' : insert_request r s = Ok s' → row_ok r → rows s → rows s'.
Proof.
  unfold insert_request. intros ([] & _ & ->%ok_val)%rbind_ok Hok Hr x [Hx|Hx%list_elem_of_singleton]%elem_of_app; [by apply Hr|].
  by subst x.
Qed.

Lemma insert_request_elem r s s' : insert_request r s = Ok s' → r ∈ requests s'.
Proof. unfold insert_request. intros ([] & _ & ->%ok_val)%rbind_ok. apply elem_of_app. right. by left. Qed.

Lemma read_request_id lan payload q : read_request lan payload = Ok q → id_ok (q_device q).
Proof.
  unfold read_request. intros (id & Hid%validate_device_id_fix & H)%rbind_ok. apply rbind_ok in H as (? & _ & H).
  apply rbind_ok in H as ([] & _ & H). do 5 (apply rbind_ok in H as (? & _ & H)). by apply ok_val in H as ->.
Qed.

Lemma request_rows lan w payload ip s reply s' :
  request_pairing pepper lan zone_known w payload ip s = Ok (reply, s') → rows s → rows s'.
Proof.
  unfold request_pairing. intros (q & Hq%read_request_id & H)%rbind_ok Hr%(expire_rows lan (w_now w)).
  destruct (_active_request _ _) as [r|] eqn:Ea.
  - apply active_request_elem in Ea as [Hin _]. unfold reuse_request in H. apply rbind_ok in H as ([] & _ & H).
    apply rbind_ok in H as ([r' s1] & H1 & ->%ok_snd). cbn [snd].
    destruct (_ && _); [|by apply ok_snd in H1 as ->]. apply rbind_ok in H1 as (s2 & H2 & H1).
    destruct (get_request _ _); [|done]. apply ok_snd in H1 as ->. by eapply approve_request_rows.
  - apply rbind_ok in H as ([] & _ & H). apply rbind_ok in H as (s1 & [E1 _]%rate_limit_frame & H). apply rbind_ok in H as ([] & _ & H).
    assert (rows s1) as Hr1 by (unfold rows; by rewrite E1). unfold open_request in H. destruct (_capability_conflict _ _ _) as [c|].
    + apply rbind_ok in H as (s2 & H2 & ->%ok_snd). apply rows_activity. eapply insert_request_rows; [exact H2|by apply row_ok_other|done].
    + apply rbind_ok in H as (config & _ & H). apply rbind_ok in H as (s2 & H2 & H). apply rbind_ok in H as (s3 & H3 & ->%ok_snd).
      apply rows_activity.
      assert (rows s2) as Hr2 by (eapply insert_request_rows; [exact H2|by apply row_ok_other|done]).
      assert (rows s3) as Hr3.
      { apply if_ok in H3 as [[_ H3]|[_ ->]]; [|done]. eapply approve_request_rows; [exact H3|by eapply insert_request_elem|done]. }
      destruct (get_device _ _) as [d|]; [|done]. by destruct (has_state _ d).
Qed.

Lemma approve_rows lan w id admin cfg s st s' : approve lan zone_known w id admin cfg s = Ok (st, s') → rows s → rows s'.
Proof.
  unfold approve. intros (k & _ & H)%rbind_ok Hr%(expire_rows lan (w_now w)). destruct (get_request _ k) as [r|] eqn:Eg; [|done].
  apply get_request_elem in Eg as [Hin _]. destruct (status_in _ r); [by apply ok_snd in H as ->|].
  apply rbind_ok in H as ([] & _ & H). apply rbind_ok in H as (s1 & H1 & ->%ok_snd). by eapply approve_request_rows.
Qed.

Lemma claim_rows lan w id nonce s reply s' : claim pepper lan zone_known seal unseal w id nonce s = Ok (reply, s') →
  PInv seal s → rows s → rows s'.
Proof.
  unfold claim. intros (k & _ & H)%rbind_ok Hi%(expire_inv seal lan (w_now w)) Hr%(expire_rows lan (w_now w)).
  apply rbind_ok in H as (n & _ & H). set (s1 := _expire_requests lan (w_now w) s) in *. destruct (get_request s1 k) as [r|] eqn:Eg; [|done].
  apply rbind_ok in H as ([] & Hc%raise_if_ok & H). apply rbind_ok in H as ([] & Hx%raise_if_ok & H).
  apply status_in_false in Hc, Hx. pose proof (get_request_elem _ _ _ Eg) as [Hin Ek].
  destruct (negb (str_eqb _ _)).
  { apply ok_snd in H as ->. unfold rows. eapply rows_update; [exact Hr|reflexivity|]. intros x Hx' E%str_eqb_eq [].
    rewrite (request_unique seal s1 r x) in * by (done || congruence). unfold count_attempt. destruct (_ <=? _).
    - by apply row_ok_other.
    - by split. }
  destruct (status_in [PPending] r && _) eqn:Ep; [by apply ok_snd in H as ->|].
  destruct (status_in [PIssued] r) eqn:Ei; [by apply rbind_ok in H as (m & _ & ->%ok_snd)|]. apply status_in_false in Ei.
  apply rbind_ok in H as ([r' s2] & H2 & H). cbn [fst snd] in H. destruct (status_in [PPending] r) eqn:Ep'.
  - apply rbind_ok in H2 as (s3 & H3 & H2). destruct (get_request s3 k) as [r3|] eqn:E3; [|done]. injection H2 as <- <-.
    pose proof E3 as E3'. rewrite <- Ek in Eg, E3'. destruct (get_request_approved _ _ _ _ _ _ _ _ _ H3 Eg E3') as [Hst _].
    eapply issue_rows; [exact H| |by eapply get_request_elem|done|by eapply approve_request_rows].
    apply status_in_true, list_elem_of_singleton in Ep'. eapply approve_request_inv; [exact H3|done|done| |done].
    intros Et. rewrite Et in Ep. done.
  - injection H2 as <- <-. apply status_in_false in Ep'. eapply issue_rows; [exact H|done|done| |done].
    destruct (r_status r); st_solver.
Qed.

Lemma confirm_rows lan w id dev nonce secret version s reply s' :
  confirm pepper lan zone_known unseal w id dev nonce secret version s = Ok (reply, s') → rows s → rows s'.
Proof.
  intros H Hr%(expire_rows lan (w_now w)). destruct (confirm_shape _ _ _ _ _ _ _ _ _ _ _ _ _ H) as [->|(r & m & s2 & Hin & Hs & _ & H2 & E1 & _)]; [done|].
  assert (requests s2 = requests (_expire_requests lan (w_now w) s)) as E2.
  { unfold _update_confirmed_device, _insert_confirmed_device in H2. destruct (get_device _ _).
    - apply rbind_ok in H2 as ([] & _ & H2). by apply rbind_ok in H2 as ([p slots] & _ & ->%ok_val).
    - apply rbind_ok in H2 as ([p slots] & _ & H2). destruct (insert_device _ _); [|done]. by apply ok_val in H2 as ->. }
  rewrite E2 in E1. unfold rows. eapply rows_update; [exact Hr|exact E1|]. intros x _ _ []. by apply row_ok_other.
Qed.

Lemma reject_active_rows id s : rows s → rows (reject_active id s).
Proof. intros Hr. unfold rows. eapply rows_update; [exact Hr|reflexivity|]. intros x _ _ []. by apply row_ok_other. Qed.

Lemma run_act_rows s e : PInv seal (pairing s) → rows (pairing s) → rows (pairing (run_act pepper zone_known seal unseal s e)).
Proof.
  intros Hi Hr. unfold run_act, pair_act, commit, commit_snd. destruct (ev_act e); cbn [pairing].
  - destruct (request_pairing _ _ _ _ _ _ _) as [[]|] eqn:E; [by eapply request_rows|done].
  - by apply expire_rows.
  - destruct (approve _ _ _ _ _ _ _) as [[]|] eqn:E; [by eapply approve_rows|done].
  - destruct (claim _ _ _ _ _ _ _ _ _) as [[]|] eqn:E; [by eapply claim_rows|done].
  - destruct (confirm _ _ _ _ _ _ _ _ _ _ _) as [[]|] eqn:E; [by eapply confirm_rows|done].
  - destruct (reject _ _ _ _) eqn:E; [|done]. unfold reject in E. apply rbind_ok in E as (k & _ & E). destruct (get_request _ k); [|done].
    apply rbind_ok in E as ([] & _ & ->%ok_val). apply rows_activity. unfold rows. eapply rows_update; [exact Hr|reflexivity|].
    intros x _ _ []. by apply row_ok_other.
  - destruct (revoke _ _ _ _ _) eqn:E; [|done]. unfold revoke in E. apply rbind_ok in E as (k & _ & E). destruct (get_device _ k); [|done].
    apply rbind_ok in E as ([] & _ & ->%ok_val). by apply rows_activity, reject_active_rows.
  - destruct (start_repair _ _ _ _ _) eqn:E; [|done]. unfold start_repair in E. apply rbind_ok in E as (k & _ & E). destruct (get_device _ k); [|done].
    apply rbind_ok in E as ([] & _ & ->%ok_val). by apply rows_activity, reject_active_rows.
  - by destruct (create _ _ _ _ _ _ _) as [[]|].
  - by destruct (regenerate _ _ _ _ _).
  - by destruct (authenticate _ _ _ _ _ _ _) as [[o db]|].
Qed.

Lemma run_rows es : rows (pairing (run pepper zone_known seal unseal es no_frames)).
Proof.
  assert (∀ s, PInv seal (pairing s) → rows (pairing s) → rows (pairing (run pepper zone_known seal unseal es s))) as H.
  { induction es as [|e es IH]; intros s Hi Hr; [done|]. apply IH; [by apply run_act_inv|by apply run_act_rows]. }
  apply H; [apply no_frames_inv|]. by intros r ?%elem_of_nil.
Qed.

(** ** Expiry and the other rows *)

Lemma expire_devices_keep (P : device → Prop) lan now s : (∀ d, P d → P (expire_device now d)) →
  (∀ d, d ∈ pdevices s → P d) → ∀ d, d ∈ pdevices (_expire_requests lan now s) → P d.
Proof.
  intros HP. unfold _expire_requests. cbn [pdevices set_with set_requests]. generalize (List.filter (lapsed_request lan now) (requests s)).
  intros rs. revert s. induction rs as [|x rs IH]; intros s Hs; [done|]. apply IH. unfold expire_one.
  cbn [pdevices update_pdevice update_request set_with set_pdevices set_requests].
  intros d (y & Hy & ->)%update_where_elem. destruct (by_key _ _ _); auto.
Qed.

(** A request that has not lapsed survives expiry as it is. *)
Lemma expire_get lan now s k r : get_request s k = Some r → is_active r = true → lapsed_request lan now r = false → PInv seal s →
  get_request (_expire_requests lan now s) k = Some r.
Proof.
  intros Hg Ha Hl Hi. pose proof (get_request_elem _ _ _ Hg) as [Hin Hk]. subst k.
  apply get_row_elem; [apply (pi_requests _ _ _ (expire_inv seal lan now s Hi))|].
  unfold _expire_requests. cbn [requests set_with set_requests]. apply filter_elem. split.
  - assert (Forall (λ x, r_id x ≠ r_id r) (List.filter (lapsed_request lan now) (requests s))) as Hf.
    { apply Forall_forall. intros x [Hx Hlx]%filter_elem E. rewrite (request_unique seal s r x) in Hlx by done. congruence. }
    revert Hf. generalize (List.filter (lapsed_request lan now) (requests s)). intros rs. clear Hg Hi. revert s Hin.
    induction rs as [|x rs IH]; intros s Hin Hf; [done|]. apply Forall_cons in Hf as [Hx Hf]. apply IH; [|done]. unfold expire_one.
    cbn [requests update_pdevice update_request set_with set_pdevices set_requests]. apply update_where_elem. exists r. split; [done|].
    unfold by_key. destruct (str_eqb (r_id r) (r_id x)) eqn:E; [|done]. apply str_eqb_eq in E. by destruct Hx.
  - apply Bool.negb_true_iff, Bool.andb_false_iff. left. apply status_in_false. unfold is_active in Ha. apply status_in_true in Ha.
    destruct (r_status r); st_solver.
Qed.

(** A device that may be enrolled automatically. *)
Definition pairable (id : str) (d : device) : Prop :=
  v_id d = id → is_automatic d = true ∧ str_eqb (c_delivery (v_config d)) (u "stock_compat") = false.
Lemma pairable_expire id now d : pairable id d → pairable id (expire_device now d).
Proof.
  unfold pairable, expire_device, is_automatic. destruct (has_state _ d); [|done]. destruct d as [i e c a fv fi pe ca pr cv ls li cr up].
  simpl. by destruct (is_null _).
Qed.
Lemma token_expire h now d : a_token_hash (v_auth d) ≠ h → a_token_hash (v_auth (expire_device now d)) ≠ h.
Proof.
  unfold expire_device. destruct (has_state _ d); [|done]. destruct d as [i e c a fv fi pe ca pr cv ls li cr up]. simpl. by destruct (is_null _).
Qed.

(** No frame but [id] stores a hash of the secret. *)
Definition others_lack (secret id : str) (d : device) : Prop :=
  v_id d ≠ id → auth_candidate (hash_device_token secret pepper) (hash_device_secret secret pepper) d = false.
Lemma others_lack_expire secret id now d : others_lack secret id d → others_lack secret id (expire_device now d).
Proof.
  unfold others_lack, expire_device, auth_candidate. destruct (has_state _ d); [|done]. destruct d as [i e c a fv fi pe ca pr cv ls li cr up].
  simpl. by destruct (is_null _).
Qed.

(** The device of an active request may be enrolled. *)
Lemma active_not_refused s r d : PInv seal s → r ∈ requests s → is_active r = true → (∀ x, x ∈ pdevices s → pairable (r_device r) x) →
  get_device (pdevices s) (r_device r) = Some d →
  is_automatic d = true ∧ refused d = false ∧ str_eqb (c_delivery (v_config d)) (u "stock_compat") = false.
Proof.
  intros Hi Hin Ha Hp [Hd Ed]%get_row_Some. destruct (Hp d Hd Ed) as [Hau Hst]. split_and!; [done| |done].
  destruct (refused d) eqn:E; [|done]. by rewrite (pi_idle _ _ _ Hi d Hd Hau E r Hin (eq_sym Ed)) in Ha.
Qed.

(** The tables after a run. *)
Definition reach (es : list event) : pdb := pairing (run pepper zone_known seal unseal es no_frames).

(** No interleaving strands an approved frame: in every reachable state
    an approved request that has not lapsed is answered, on its nonce, with a
    fresh secret under a positive version, provided its device, if it exists,
    is one that enrols automatically. *)
Theorem approved_request_claimable es lan w id nonce k n r :
  _validate_text id 128 true = Ok k → _validate_text nonce 256 true = Ok n →
  get_request (reach es) k = Some r → r_status r = PApproved → lapsed_request lan (w_now w) r = false →
  r_nonce_hash r = hash_pairing_nonce n pepper → (∀ d, d ∈ pdevices (reach es) → pairable (r_device r) d) →
  ∃ v config s', claim pepper lan zone_known seal unseal w id nonce (reach es) = Ok (ClaimIssued (r_device r) (w_secret w) v config, s') ∧ 1 ≤ v.
Proof.
  intros Hk Hn Hg Hs Hl Hh Hp. pose proof (run_inv pepper zone_known seal unseal es) as Hi. pose proof (run_rows es) as Hr.
  fold (reach es) in Hi, Hr. set (s := reach es) in *.
  assert (is_active r = true) as Ha by (apply status_in_true; rewrite Hs; st_solver).
  unfold claim. rewrite Hk, Hn. cbn [rbind]. rewrite (expire_get lan (w_now w) s k r) by done.
  unfold status_in. rewrite Hs, Hh, str_eqb_refl. cbn [rbind raise_if].
  change (bool_decide (PApproved ∈ [PConfirmed])) with false. change (bool_decide (PApproved ∈ [PExpired; PRejected])) with false.
  change (bool_decide (PApproved ∈ [PPending])) with false. change (bool_decide (PApproved ∈ [PIssued])) with false. cbn [rbind raise_if negb andb fst snd].
  set (s1 := _expire_requests lan (w_now w) s). pose proof (expire_get lan (w_now w) s k r Hg Ha Hl Hi) as Hg1. fold s1 in Hg1.
  pose proof (expire_inv seal lan (w_now w) s Hi) as Hi1. fold s1 in Hi1. apply get_request_elem in Hg as [Hin _]. apply get_request_elem in Hg1 as [Hin1 _].
  assert (∀ d, d ∈ pdevices s1 → pairable (r_device r) d) as Hp1 by (apply expire_devices_keep; [intros d; apply pairable_expire|done]).
  destruct (ro_stored r (Hr r Hin) Hs) as (p & Ep & Hpok). unfold issue.
  assert (match get_device (pdevices s1) (r_device r) with Some d => token_mode d || refused d | None => false end = false) as ->.
  { destruct (get_device _ _) as [d|] eqn:Eg; [|done]. destruct (active_not_refused s1 r d Hi1 Hin1 Ha Hp1 Eg) as (H1 & H2 & _).
    unfold token_mode. by rewrite H1, H2. }
  cbn [raise_if rbind]. rewrite Ep. cbn [members_of]. rewrite normalize_config_fix by exact Hpok. cbn [rbind].
  exists (next_version (pdevices s1) (r_device r)). do 2 eexists. split; [reflexivity|]. unfold next_version. destruct (get_device _ _); lia.
Qed.

(** A device the tables hold, enabled, paired and with that secret, is accepted. *)
Lemma paired_accepted l fs secret v d ip now : d ∈ l → v_enabled d = true → is_automatic d = true → a_state (v_auth d) = Paired →
  a_version (v_auth d) = v → a_secret_hash (v_auth d) = Some (hash_device_secret secret pepper) →
  (∀ x, x ∈ l → others_lack secret (v_id d) x) →
  ∃ x db, authenticate pepper secret ip (Some v) false now (mk_devdb l fs) = Ok (Some x, db) ∧ v_id x = v_id d.
Proof.
  intros Hd He Ha Hs Hv Hh Ho. unfold authenticate, others_lack in *. cbn [devices failures].
  set (legacy := hash_device_token secret pepper) in *. set (sec := hash_device_secret secret pepper) in *.
  destruct (find_where _ _) as [x|] eqn:E.
  { do 2 eexists. split; [reflexivity|]. apply find_where_Some in E as [[Hx Hc]%sort_by_elem%filter_elem _].
    destruct (decide (v_id x = v_id d)) as [|Hne]; [done|]. by rewrite (Ho x Hx Hne) in Hc. }
  exfalso.
  assert (accepts legacy sec (Some v) false now d = true) as Hacc.
  { unfold accepts, token_mode, has_state. rewrite Ha, Hs, Hh, Hv. cbn. rewrite Z.eqb_refl, Bool.andb_true_r.
    assert (sec ≠ []) as Hne by (intros E0; pose proof (hmac_hex_length pepper (u "device-secret-v1" ++ [0] ++ secret)) as Hlen;
      change (length sec = 64%nat) in Hlen; by rewrite E0 in Hlen).
    unfold hash_is. destruct sec; [done|]. by rewrite str_eqb_refl. }
  rewrite (find_where_None _ _ d E) in Hacc; [done|]. apply sort_by_elem, filter_elem. split; [done|].
  unfold auth_candidate. rewrite He, Hh. apply andb_true_iff. split; [done|]. apply orb_true_iff. right. apply str_in_elem. right. by left.
Qed.

(** The device that confirmation writes. *)
Lemma update_confirmed_ok w id m secret v p slots s : keys_unique v_id (pdevices s) → envelope_for id m secret v p slots →
  (∀ d, get_device (pdevices s) id = Some d → is_automatic d = true ∧ str_eqb (c_delivery (v_config d)) (u "stock_compat") = false) →
  (∀ d, d ∈ pdevices s → a_token_hash (v_auth d) ≠ hash_device_token (u "auto-placeholder-" ++ w_placeholder w) pepper) →
  ∃ s' d, _update_confirmed_device pepper zone_known w id m s = Ok s' ∧ d ∈ pdevices s' ∧ v_id d = id ∧ v_enabled d = true ∧ is_automatic d = true ∧
    a_state (v_auth d) = Paired ∧ a_version (v_auth d) = v ∧ a_secret_hash (v_auth d) = Some (hash_device_secret secret pepper) ∧
    ∀ x, x ∈ pdevices s' → v_id x ≠ id → x ∈ pdevices s.
Proof.
  intros Hu [] Hd Hfresh. unfold _update_confirmed_device, _insert_confirmed_device, envelope_config, confirmed_auth, int_member, text_member.
  rewrite ef_config0, ef_slots0, ef_version0, ef_secret0. cbn [members_of]. rewrite normalize_config_fix by exact ef_ok0. cbn [rbind].
  destruct (get_device (pdevices s) id) as [d|] eqn:Eg.
  - destruct (Hd d eq_refl) as [Ha Hst]. unfold token_mode. rewrite Ha, Hst. cbn [negb orb raise_if rbind].
    do 2 eexists. split; [reflexivity|]. split.
    + apply update_where_elem. exists d. apply get_row_Some in Eg as [Hin Ed]. split; [done|]. unfold by_key. rewrite Ed, str_eqb_refl. reflexivity.
    + apply get_row_Some in Eg as [_ Ed]. cbn. split_and!; try done. intros x (y & Hy & ->)%update_where_elem. unfold by_key.
      destruct (str_eqb (v_id y) id) eqn:E; [|done]. apply str_eqb_eq in E. by intros [].
  - unfold insert_device. cbn [v_id v_auth a_token_hash].
    assert (has_key v_id id (pdevices s) = false) as ->.
    { unfold has_key. apply existsb_none. intros d Hin. apply (find_where_None _ _ _ Eg Hin). }
    match goal with |- context [existsb ?f (pdevices s)] => assert (existsb f (pdevices s) = false) as -> end.
    { apply existsb_none. intros d Hin. apply Bool.not_true_is_false. intros E%str_eqb_eq. by apply (Hfresh d). }
    cbn [orb raise_if rbind]. do 2 eexists. split; [reflexivity|]. split; [apply elem_of_app; right; by left|]. cbn. split_and!; try done.
    intros x [Hx|Hx%list_elem_of_singleton]%elem_of_app; [done|]. subst x. by intros [].
Qed.

(** What the device must send back: the secret as the server made it. *)
Definition secret_ok (secret : str) : Prop :=
  _validate_text (JStr secret) 256 true = Ok secret ∧ starts_with (u "ids_") secret = true ∧ 32 ≤ slen secret.

Lemma decode_issued r now m secret v p slots : (∀ j, unseal (seal j) = Some j) → r_envelope r = Some (seal (JObj m)) →
  envelope_for (r_device r) m secret v p slots → match r_envelope_expires r with Some t => now <? t | None => false end = true →
  _decode_envelope unseal r now = Ok m.
Proof. intros Hus He [] Ht. unfold _decode_envelope. rewrite Ht, He, Hus, ef_secret0. done. Qed.

Lemma issued_not_lapsed lan now r : r_status r = PIssued → is_Some (r_envelope_expires r) → lapsed_request lan now r = false →
  match r_envelope_expires r with Some t => now <? t | None => false end = true.
Proof.
  intros Hs [t Et] H. unfold lapsed_request in H. rewrite (issued_active r Hs) in H. cbn [andb] in H.
  apply Bool.orb_false_iff in H as [[_ H]%Bool.orb_false_iff _]. unfold status_in in H. rewrite Hs in H.
  change (bool_decide (PIssued ∈ [PIssued])) with true in H. cbn [andb] in H. rewrite Et in H |- *. apply Z.ltb_lt. apply Z.leb_gt in H. lia.
Qed.

(** C31. An enrolment that was issued completes.  In every reachable state the
    nonce of an issued request that has not lapsed fetches its credential,
    again and without changing it; when that secret has the form the server
    makes and no other frame stores a hash of it, sending it back confirms the
    request, after which authenticating with it under its version finds the
    very frame of the request.  This holds for a frame whose row, if it has
    one, enrols automatically and is not a stock frame, and a placeholder whose
    token hash no row has yet; decrypting inverts encrypting. *)
Theorem issued_request_completes es lan w id nonce k n r ip now failures :
  (∀ j, unseal (seal j) = Some j) →
  _validate_text id 128 true = Ok k → _validate_text nonce 256 true = Ok n →
  get_request (reach es) k = Some r → r_status r = PIssued → lapsed_request lan (w_now w) r = false →
  r_nonce_hash r = hash_pairing_nonce n pepper → (∀ d, d ∈ pdevices (reach es) → pairable (r_device r) d) →
  (∀ d, d ∈ pdevices (reach es) → a_token_hash (v_auth d) ≠ hash_device_token (u "auto-placeholder-" ++ w_placeholder w) pepper) →
  ∃ secret v config,
    claim pepper lan zone_known seal unseal w id nonce (reach es)
      = Ok (ClaimIssued (r_device r) secret v config, _expire_requests lan (w_now w) (reach es)) ∧
    (secret_ok secret → (∀ d, d ∈ pdevices (reach es) → others_lack secret (r_device r) d) →
     ∃ s' d db, confirm pepper lan zone_known unseal w id (JStr (r_device r)) nonce (JStr secret) (JInt v) (reach es) = Ok (Confirmed, s') ∧
                authenticate pepper secret ip (Some v) false now (mk_devdb (pdevices s') failures) = Ok (Some d, db) ∧
                v_id d = r_device r).
Proof.
  intros Hus Hk Hn Hg Hs Hl Hh Hp Hfresh. pose proof (run_inv pepper zone_known seal unseal es) as Hi. pose proof (run_rows es) as Hr.
  fold (reach es) in Hi, Hr. set (s := reach es) in *. pose proof (issued_active r Hs) as Ha.
  pose proof (expire_get lan (w_now w) s k r Hg Ha Hl Hi) as Hg1. pose proof (expire_inv seal lan (w_now w) s Hi) as Hi1.
  apply get_request_elem in Hg as [Hin _]. pose proof (get_request_elem _ _ _ Hg1) as [Hin1 _].
  destruct (ro_sealed r (Hr r Hin) Hs) as (m & secret & v & p & slots & He & Ht & Hef).
  pose proof (decode_issued r (w_now w) m secret v p slots Hus He Hef (issued_not_lapsed _ _ _ Hs Ht Hl)) as Hm.
  assert (∀ d, d ∈ pdevices (_expire_requests lan (w_now w) s) → pairable (r_device r) d) as Hp1
    by (apply expire_devices_keep; [intros d; apply pairable_expire|done]).
  pose proof (expire_devices_keep _ lan (w_now w) s (λ d, token_expire _ _ d) Hfresh) as Hf1.
  set (s1 := _expire_requests lan (w_now w) s) in *.
  exists secret, v, (JObj (config_members p)). split.
  - unfold claim. rewrite Hk, Hn. cbn [rbind]. fold s1. rewrite Hg1. unfold status_in. rewrite Hs, Hh, str_eqb_refl.
    change (bool_decide (PIssued ∈ [PConfirmed])) with false. change (bool_decide (PIssued ∈ [PExpired; PRejected])) with false.
    change (bool_decide (PIssued ∈ [PPending])) with false. change (bool_decide (PIssued ∈ [PIssued])) with true.
    cbn [rbind raise_if negb andb]. rewrite Hm. cbn [rbind]. unfold _claim_response, text_member, int_member. destruct Hef.
    by rewrite ef_device0, ef_secret0, ef_version0, ef_config0.
  - intros (Hsec & Hids & Hlen) Ho.
    pose proof (expire_devices_keep _ lan (w_now w) s (λ d, others_lack_expire _ _ _ d) Ho) as Ho1. fold s1 in Ho1.
    destruct (update_confirmed_ok w (r_device r) m secret v p slots s1 (pi_devices _ _ _ Hi1) Hef) as
      (s2 & d & H2 & Hd & Hid & Hen & Hau & Hst & Hv & Hsh & Hold); [|done|].
    { intros d Hgd. destruct (active_not_refused s1 r d Hi1 Hin1 Ha Hp1 Hgd) as (H1 & _ & H3). done. }
    match goal with |- context [confirm ?a ?b ?c ?e ?f ?g ?h ?i ?j ?x s] =>
      assert (∃ s', confirm a b c e f g h i j x s = Ok (Confirmed, s') ∧ pdevices s' = pdevices s2) as (s' & Hc & Ed) end.
    { unfold confirm. rewrite Hk, (ro_id r (Hr r Hin)), Hn, Hsec. cbn [rbind]. rewrite Hids. cbn [negb orb].
      rewrite (proj2 (Z.ltb_ge (slen secret) 32)) by done. cbn [raise_if rbind]. destruct Hef.
      rewrite (proj2 (Z.ltb_ge v 1)) by done. cbn [rbind]. fold s1. rewrite Hg1, str_eqb_refl, Hh, str_eqb_refl. unfold status_in. rewrite Hs.
      change (bool_decide (PIssued ∈ [PConfirmed])) with false. change (bool_decide (PIssued ∈ [PRejected; PExpired])) with false.
      change (bool_decide (PIssued ∈ [PPending])) with false. change (bool_decide (PIssued ∈ [PIssued])) with true.
      cbn [rbind raise_if negb andb]. rewrite Hm. cbn [rbind]. unfold text_member, int_member.
      rewrite ef_device0, ef_secret0, ef_version0, !str_eqb_refl, Z.eqb_refl. cbn [negb orb raise_if rbind]. rewrite H2. cbn [rbind].
      eexists. split; [reflexivity|].
      match goal with |- context [_activity ?w ?d ?a ?b ?c ?e ?f ?g] => by destruct (activity_frame w d a b c e f g) as [_ ->] end. }
    destruct (paired_accepted (pdevices s') failures secret v d ip now) as (x & db & Hx & Ex); [by rewrite Ed|done..| |].
    { rewrite Ed, Hid. intros x Hx Hne. by apply (Ho1 x); [apply Hold|]. }
    exists s', x, db. by rewrite Ex, Hid.
Qed.
End rows.
