(* ===== verification/PairingWitness.v ===== *)
(** * Concrete enrolments

    A cipher on JSON values (an injective coding, for evaluation only) and the
    run of one frame: request, approval, claim, confirmation, revocation.  The
    theorems on pairing are instantiated on its states. *)

From stdpp Require Import countable.
From S2P Require Import Prelude PyStr PyFloat Json Sql Store Reservations Sha256 Hmac OfflineSchedule Schema Devices Pairing PairingInv PairingProps PairingConfig PairingLive.
Local Open Scope Z_scope.

(** ** A cipher *)

Definition leaf : Type := (unit + bool) + (Z + str) + (bool + bool) + (unit + (bool * positive * Z)).
Fixpoint to_tree (j : json) : gen_tree leaf :=
  match j with
  | JNull => GenLeaf (inl (inl (inl (inl tt))))
  | JBool b => GenLeaf (inl (inl (inl (inr b))))
  | JInt z => GenLeaf (inl (inl (inr (inl z))))
  | JStr s => GenLeaf (inl (inl (inr (inr s))))
  | JFloat (SpecFloat.S754_zero b) => GenLeaf (inl (inr (inl b)))
  | JFloat (SpecFloat.S754_infinity b) => GenLeaf (inl (inr (inr b)))
  | JFloat SpecFloat.S754_nan => GenLeaf (inr (inl tt))
  | JFloat (SpecFloat.S754_finite b m e) => GenLeaf (inr (inr (b, m, e)))
  | JList l => GenNode 0 (map to_tree l)
  | JObj m => GenNode 1 (map (λ kv, GenNode 2 [GenLeaf (inl (inl (inr (inr (fst kv))))); to_tree (snd kv)]) m)
  end.
Fixpoint of_tree (t : gen_tree leaf) : json :=
  match t with
  | GenLeaf (inl (inl (inl (inl tt)))) => JNull
  | GenLeaf (inl (inl (inl (inr b)))) => JBool b
  | GenLeaf (inl (inl (inr (inl z)))) => JInt z
  | GenLeaf (inl (inl (inr (inr s)))) => JStr s
  | GenLeaf (inl (inr (inl b))) => JFloat (SpecFloat.S754_zero b)
  | GenLeaf (inl (inr (inr b))) => JFloat (SpecFloat.S754_infinity b)
  | GenLeaf (inr (inl tt)) => JFloat SpecFloat.S754_nan
  | GenLeaf (inr (inr (b, m, e))) => JFloat (SpecFloat.S754_finite b m e)
  | GenNode 0 l => JList (map of_tree l)
  | GenNode _ l =>
      JObj (map (λ x, match x with GenNode _ [GenLeaf (inl (inl (inr (inr k)))); v] => (k, of_tree v) | _ => ([], JNull) end) l)
  end.

Lemma of_to_tree j : of_tree (to_tree j) = j.
Proof.
  induction j as [| | |f| |l IH|m IH] using json_nested_ind; try done.
  - by destruct f.
  - simpl. f_equal. rewrite map_map. induction IH as [|x l Hx _ IHl]; [done|]. simpl. by rewrite Hx, IHl.
  - simpl. f_equal. rewrite map_map. induction IH as [|[k v] m Hx _ IHm]; [done|]. simpl in *. by rewrite Hx, IHm.
Qed.

Definition demo_seal (j : json) : str := [Zpos (encode (to_tree j))].
Definition demo_unseal (s : str) : option json :=
  match s with [Zpos p] => of_tree <$> decode p | _ => None end.

Lemma demo_unseal_seal j : demo_unseal (demo_seal j) = Some j.
Proof. unfold demo_unseal, demo_seal. rewrite decode_encode. simpl. by rewrite of_to_tree. Qed.

(** ** A frame's enrolment *)

Definition demo_pepper : str := u "pepper".
Definition demo_zone (s : str) : bool := str_eqb s (u "Asia/Taipei").
Definition demo_nonce : str := u "nonce-0123456789abcdef".
Definition demo_secret : str := u "ids_0123456789abcdef0123456789abcdef".
Definition demo_world (t : Z) : world := mk_world (t * 1000000) (t * 1000000) (u "req-1") demo_secret (u "ph-1").
Definition demo_payload : list (str * json) :=
  [(u "device_id", JStr (u "frame-1")); (u "pairing_nonce", JStr demo_nonce); (u "device_name", JStr (u "Kitchen"))].

Definition e_request : event := mk_event false (demo_world 10) (ARequest demo_payload (u "10.0.0.2")).
Definition e_approve : event := mk_event false (demo_world 20) (AApprove (JStr (u "req-1")) (u "root") []).
Definition e_claim : event := mk_event false (demo_world 30) (AClaim (JStr (u "req-1")) (JStr demo_nonce)).
Definition e_confirm : event :=
  mk_event false (demo_world 40) (AConfirm (JStr (u "req-1")) (JStr (u "frame-1")) (JStr demo_nonce) (JStr demo_secret) (JInt 1)).
Definition e_revoke : event := mk_event false (demo_world 50) (ARevoke (JStr (u "frame-1")) (u "root") (u "50")).

#[local] Abbreviation demo_run := (run demo_pepper demo_zone demo_seal demo_unseal).
#[local] Abbreviation demo_frames es := (demo_run es no_frames).
Definition demo_table (es : list event) : list (str * pairing_state * Z) :=
  map (λ d, (v_id d, a_state (v_auth d), a_version (v_auth d))) (pdevices (pairing (demo_frames es))).

Example enrolled : demo_table [e_request; e_approve; e_claim; e_confirm] = [(u "frame-1", Paired, 1)].
Proof. vm_compute. reflexivity. Qed.

(** ** Evaluated facts *)

Definition paired_run : list event := [e_request; e_approve; e_claim; e_confirm].
Definition revoked_run : list event := paired_run ++ [e_revoke].

(** A second frame is enrolled while the first one stays revoked. *)
Definition demo_secret2 : str := u "ids_fedcba9876543210fedcba9876543210".
Definition demo_world2 (t : Z) : world := mk_world (t * 1000000) (t * 1000000) (u "req-2") demo_secret2 (u "ph-2").
Definition second_run : list event :=
  [mk_event false (demo_world2 110) (ARequest [(u "device_id", JStr (u "frame-2")); (u "pairing_nonce", JStr demo_nonce)] (u "10.0.0.3"));
   mk_event false (demo_world2 120) (AApprove (JStr (u "req-2")) (u "root") []);
   mk_event false (demo_world2 130) (AClaim (JStr (u "req-2")) (JStr demo_nonce));
   mk_event false (demo_world2 140)
     (AConfirm (JStr (u "req-2")) (JStr (u "frame-2")) (JStr demo_nonce) (JStr demo_secret2) (JInt 1))].

#[local] Abbreviation auth_in s secret version t :=
  (authenticate demo_pepper secret (u "10.0.0.2") version false t (mk_devdb (pdevices (pairing s)) (auth_failures s))).

(** The checks that are evaluated. *)
Definition lets_in (m : result dev_exn (option device * devdb)) : bool :=
  match m with Ok (Some d, _) => is_automatic d | _ => false end.
Definition lets_in_frame (id : str) (m : result dev_exn (option device * devdb)) : bool :=
  match m with Ok (Some d, _) => str_eqb (v_id d) id | _ => false end.
Lemma lets_in_frame_true id m : lets_in_frame id m = true → ∃ d db, m = Ok (Some d, db) ∧ v_id d = id.
Proof. destruct m as [[[d|] db]|]; [|done..]. intros H%str_eqb_eq. by exists d, db. Qed.
Definition is_confirmed (m : result pexn (confirm_reply * pdb)) : bool := match m with Ok (Confirmed, _) => true | _ => false end.
Lemma lets_in_true m : lets_in m = true → ∃ d db, m = Ok (Some d, db) ∧ is_automatic d = true.
Proof. destruct m as [[[d|] db]|]; [|done..]. intros H. by exists d, db. Qed.
Lemma is_confirmed_true m : is_confirmed m = true → ∃ s, m = Ok (Confirmed, s).
Proof. destruct m as [[[] s]|]; [|done..]. intros _. by exists s. Qed.

Definition device_check (es : list event) (p : device → bool) : bool :=
  match pdevices (pairing (demo_frames es)) with [] => false | d :: _ => p d end.
Lemma device_check_true es p : device_check es p = true → ∃ d, d ∈ pdevices (pairing (demo_frames es)) ∧ p d = true.
Proof. unfold device_check. destruct (pdevices _) as [|d l]; [done|]. intros H. exists d. split; [by left|done]. Qed.

Lemma auth_paired : lets_in (auth_in (demo_frames paired_run) demo_secret (Some 1) 60000000) = true.
Proof. vm_compute. reflexivity. Qed.
Lemma auth_second : lets_in (auth_in (demo_run second_run (demo_frames revoked_run)) demo_secret2 (Some 1) 150000000) = true.
Proof. vm_compute. reflexivity. Qed.
Lemma revoked_check : device_check revoked_run (λ d, str_eqb (v_id d) (u "frame-1") && is_automatic d && has_state Revoked d) = true.
Proof. vm_compute. reflexivity. Qed.
Lemma paired_check : device_check paired_run (λ d, str_eqb (v_id d) (u "frame-1") && is_automatic d && (a_version (v_auth d) =? 1)) = true.
Proof. vm_compute. reflexivity. Qed.

Definition before_confirm : list event := [e_request; e_approve; e_claim].
#[local] Abbreviation demo_confirm :=
  (confirm demo_pepper false demo_zone demo_unseal (demo_world 40) (JStr (u "req-1")) (JStr (u "frame-1")) (JStr demo_nonce)
    (JStr demo_secret) (JInt 1) (pairing (demo_frames before_confirm))).
Lemma confirm_check : is_confirmed demo_confirm = true.
Proof. vm_compute. reflexivity. Qed.

Definition later_run : list event := [mk_event true (demo_world 55) (AAuthenticate demo_secret (u "10.0.0.2") (Some 1) false)].
Lemma auth_later : lets_in_frame (u "frame-1") (auth_in (demo_run later_run (demo_frames paired_run)) demo_secret (Some 1) 60000000) = true.
Proof. vm_compute. reflexivity. Qed.

#[local] Abbreviation demo_reach := (reach demo_pepper demo_zone demo_seal demo_unseal).
(** The request of the frame in a state without devices. *)
Definition request_check (es : list event) (st : pstatus) (now : Z) : bool :=
  match get_request (demo_reach es) (u "req-1") with
  | Some r => bool_decide (r_status r = st) && negb (lapsed_request false now r)
              && str_eqb (r_nonce_hash r) (hash_pairing_nonce demo_nonce demo_pepper) && str_eqb (r_device r) (u "frame-1")
  | None => false
  end && match pdevices (demo_reach es) with [] => true | _ => false end.
Lemma request_check_true es st now : request_check es st now = true →
  (∃ r, get_request (demo_reach es) (u "req-1") = Some r ∧ r_status r = st ∧ lapsed_request false now r = false ∧
        r_nonce_hash r = hash_pairing_nonce demo_nonce demo_pepper ∧ r_device r = u "frame-1") ∧
  pdevices (demo_reach es) = [].
Proof.
  unfold request_check. intros [H1 H2]%andb_true_iff. split; [|by destruct (pdevices _)].
  destruct (get_request _ _) as [r|]; [|done]. apply andb_true_iff in H1 as [[[H1 H3]%andb_true_iff H4]%andb_true_iff H5].
  exists r. split_and!; [done|by apply bool_decide_eq_true in H1|by apply Bool.negb_true_iff in H3|by apply str_eqb_eq|by apply str_eqb_eq].
Qed.
Lemma approved_check : request_check [e_request; e_approve] PApproved (w_now (demo_world 30)) = true.
Proof. vm_compute. reflexivity. Qed.
Lemma issued_check : request_check before_confirm PIssued (w_now (demo_world 40)) = true.
Proof. vm_compute. reflexivity. Qed.
Lemma req_text : _validate_text (JStr (u "req-1")) 128 true = Ok (u "req-1").
Proof. vm_compute. reflexivity. Qed.
Lemma nonce_text : _validate_text (JStr demo_nonce) 256 true = Ok demo_nonce.
Proof. vm_compute. reflexivity. Qed.
Lemma config_check : _normalize_config demo_zone [] (u "Frame") 6
  = Ok (mk_pconfig (u "Frame") (u "Asia/Taipei") (u "08:00") [u "08:00"] 0 (u "safe_4c") (u "legacy_online") 5 (u "check_new") 60
          (u "first_display_lead") None None None None 12).
Proof. vm_compute. reflexivity. Qed.

Lemma no_repair k : Forall (λ e, ¬ repairs e k) second_run.
Proof. unfold second_run. rewrite !Forall_cons, Forall_nil. repeat split; intros H; exact H. Qed.

(** ** Witnesses *)

(** The paired frame is let in, and its request names its administrator. *)
Lemma paired_frame_was_admitted_witness :
  ∃ r, r ∈ requests (pairing (demo_frames paired_run)) ∧ r_status r = PConfirmed ∧ is_Some (r_approved_at r) ∧
       (_stored_lan_request r = false → is_Some (r_approved_by r)).
Proof.
  destruct (lets_in_true _ auth_paired) as (d & db & E & Ha).
  destruct (paired_frame_was_admitted demo_pepper demo_zone demo_seal demo_unseal paired_run demo_secret (u "10.0.0.2") (Some 1) false
    60000000 d db E Ha) as (r & H1 & _ & H3). exact (ex_intro _ r (conj H1 H3)).
Defined.

(** The confirmation of the demonstration. *)
Lemma confirmation_needs_administrator_witness :
  ∃ r, r ∈ requests (pairing (demo_frames before_confirm)) ∧ r_status r = PIssued ∧ is_Some (r_approved_by r).
Proof.
  destruct (is_confirmed_true _ confirm_check) as [s' E].
  destruct (confirmation_needs_administrator demo_pepper demo_zone demo_seal demo_unseal before_confirm (demo_world 40)
              (JStr (u "req-1")) (JStr (u "frame-1")) (JStr demo_nonce) (JStr demo_secret) (JInt 1) s' E) as (r & H1 & _ & _ & H2 & H3 & _).
  exact (ex_intro _ r (conj H1 (conj H2 H3))).
Defined.

(** The second frame, which is let in, is not the revoked one. *)
Lemma revoked_frame_stays_out_witness :
  ∃ d x db, d ∈ pdevices (pairing (demo_frames revoked_run)) ∧ auth_in (demo_run second_run (demo_frames revoked_run)) demo_secret2 (Some 1) 150000000 = Ok (Some x, db) ∧ v_id x ≠ v_id d.
Proof.
  destruct (device_check_true _ _ revoked_check) as (d & Hd & [[_ Ha]%andb_true_iff Hr%bool_decide_eq_true]%andb_true_iff).
  destruct (lets_in_true _ auth_second) as (x & db & E & _).
  exists d, x, db. split; [exact Hd|]. split; [exact E|].
  apply (revoked_frame_stays_out demo_pepper demo_zone demo_seal demo_unseal demo_unseal_seal revoked_run d second_run demo_secret2
           (u "10.0.0.2") (Some 1) false 150000000 x db Hd Ha Hr (no_repair _) E).
Defined.

(** The credential of the paired frame is still its first one. *)
Lemma superseded_credential_refused_witness :
  ∃ d x, d ∈ pdevices (pairing (demo_frames paired_run)) ∧ v_id x = v_id d ∧ a_version (v_auth d) ≤ 1 ∧
         (1 = a_version (v_auth d) → a_secret_hash (v_auth x) = a_secret_hash (v_auth d)).
Proof.
  destruct (device_check_true _ _ paired_check) as (d & Hd & [[Hid%str_eqb_eq Ha]%andb_true_iff _]%andb_true_iff).
  destruct (lets_in_frame_true _ _ auth_later) as (x & db & E & Hx). exists d, x. split; [exact Hd|]. split; [exact (eq_trans Hx (eq_sym Hid))|].
  exact (superseded_credential_refused demo_pepper demo_zone demo_seal demo_unseal demo_unseal_seal paired_run d later_run demo_secret
           (u "10.0.0.2") 1 false 60000000 x db Hd Ha E (eq_trans Hx (eq_sym Hid))).
Defined.

Lemma config_normal_form_witness :
  ∃ p, _normalize_config demo_zone [] (u "Frame") 6 = Ok p ∧ _normalize_config demo_zone (config_members p) [] 6 = Ok p.
Proof.
  eexists. split; [exact config_check|]. eapply (config_normal_form demo_zone [] (u "Frame") 6); [|exact config_check].
  split; [discriminate|vm_compute; reflexivity].
Defined.

Lemma approved_request_claimable_witness :
  ∃ v config s', claim demo_pepper false demo_zone demo_seal demo_unseal (demo_world 30) (JStr (u "req-1")) (JStr demo_nonce)
    (reach demo_pepper demo_zone demo_seal demo_unseal [e_request; e_approve]) = Ok (ClaimIssued (u "frame-1") (w_secret (demo_world 30)) v config, s') ∧ 1 ≤ v.
Proof.
  destruct (request_check_true _ _ _ approved_check) as [(r & Hg & Hs & Hl & Hh & Hd) Hn]. rewrite <- Hd.
  refine (approved_request_claimable demo_pepper demo_zone demo_seal demo_unseal [e_request; e_approve] false (demo_world 30) (JStr (u "req-1"))
    (JStr demo_nonce) (u "req-1") demo_nonce r req_text nonce_text Hg Hs Hl Hh _).
  intros d Hin. rewrite Hn in Hin. destruct (proj1 (elem_of_nil d) Hin).
Defined.

(** A second frame is paired first; the first one then waits to confirm. *)
Definition waiting_run : list event :=
  second_run ++
  [mk_event false (demo_world 210) (ARequest demo_payload (u "10.0.0.2"));
   mk_event false (demo_world 220) (AApprove (JStr (u "req-1")) (u "root") []);
   mk_event false (demo_world 230) (AClaim (JStr (u "req-1")) (JStr demo_nonce))].
Definition open_check (es : list event) (st : pstatus) (now : Z) : bool :=
  match get_request (demo_reach es) (u "req-1") with
  | Some r => bool_decide (r_status r = st) && negb (lapsed_request false now r)
              && str_eqb (r_nonce_hash r) (hash_pairing_nonce demo_nonce demo_pepper) && str_eqb (r_device r) (u "frame-1")
  | None => false
  end.
Lemma open_check_true es st now : open_check es st now = true →
  ∃ r, get_request (demo_reach es) (u "req-1") = Some r ∧ r_status r = st ∧ lapsed_request false now r = false ∧
       r_nonce_hash r = hash_pairing_nonce demo_nonce demo_pepper ∧ r_device r = u "frame-1".
Proof.
  unfold open_check. intros H1. destruct (get_request _ _) as [r|]; [|done].
  apply andb_true_iff in H1 as [[[H1 H3]%andb_true_iff H4]%andb_true_iff H5].
  exists r. split_and!; [done|by apply bool_decide_eq_true in H1|by apply Bool.negb_true_iff in H3|by apply str_eqb_eq|by apply str_eqb_eq].
Qed.
Lemma waiting_check : open_check waiting_run PIssued (w_now (demo_world 240)) = true.
Proof. vm_compute. reflexivity. Qed.

(** There is another frame, and its row holds neither the placeholder nor the
    new secret. *)
Definition others_check (placeholder legacy secret : str) (l : list device) : bool :=
  forallb (λ d, str_eqb (v_id d) (u "frame-2") && negb (str_eqb (a_token_hash (v_auth d)) placeholder)
                && negb (auth_candidate legacy secret d)) l
  && negb (bool_decide (length l = 0%nat)).
Lemma others_check_true placeholder legacy secret l d : others_check placeholder legacy secret l = true → d ∈ l →
  v_id d = u "frame-2" ∧ a_token_hash (v_auth d) ≠ placeholder ∧ auth_candidate legacy secret d = false.
Proof.
  intros [H _]%andb_true_iff Hd%list_elem_of_In. rewrite forallb_forall in H.
  specialize (H d Hd). apply andb_true_iff in H as [[H1 H2]%andb_true_iff H3]. apply str_eqb_eq in H1.
  apply Bool.negb_true_iff in H2, H3. split_and!; [done| |done]. intros E. by rewrite E, str_eqb_refl in H2.
Qed.
Lemma waiting_devices :
  others_check (hash_device_token (u "auto-placeholder-" ++ w_placeholder (demo_world 240)) demo_pepper)
    (hash_device_token demo_secret demo_pepper) (hash_device_secret demo_secret demo_pepper) (pdevices (demo_reach waiting_run)) = true.
Proof. vm_compute. reflexivity. Qed.

Definition fetches (secret : str) (v : Z) (m : result pexn (claim_reply * pdb)) : bool :=
  match m with Ok (ClaimIssued _ s n _, _) => str_eqb s secret && (n =? v) | _ => false end.
Lemma fetches_true secret v dev s n config db : fetches secret v (Ok (ClaimIssued dev s n config, db)) = true → s = secret ∧ n = v.
Proof. cbn [fetches]. intros [H1 H2]%andb_true_iff. split; [by apply str_eqb_eq|by apply Z.eqb_eq]. Qed.
Lemma waiting_claim_check :
  fetches demo_secret 1 (claim demo_pepper false demo_zone demo_seal demo_unseal (demo_world 240) (JStr (u "req-1")) (JStr demo_nonce)
                           (demo_reach waiting_run)) = true.
Proof. vm_compute. reflexivity. Qed.
Lemma demo_secret_ok : secret_ok demo_secret.
Proof. split; [vm_compute; reflexivity|]. split; [vm_compute; reflexivity|]. vm_compute. discriminate. Qed.

(** The waiting frame confirms with the secret it fetched and is let in as itself. *)
Lemma issued_request_completes_witness :
  ∃ s' d db, confirm demo_pepper false demo_zone demo_unseal (demo_world 240) (JStr (u "req-1")) (JStr (u "frame-1")) (JStr demo_nonce)
      (JStr demo_secret) (JInt 1) (demo_reach waiting_run) = Ok (Confirmed, s') ∧
    authenticate demo_pepper demo_secret (u "10.0.0.2") (Some 1) false 250000000 (mk_devdb (pdevices s') []) = Ok (Some d, db) ∧
    v_id d = u "frame-1".
Proof.
  destruct (open_check_true _ _ _ waiting_check) as (r & Hg & Hs & Hl & Hh & Hd). pose proof waiting_claim_check as Hc. rewrite <- Hd.
  destruct (issued_request_completes demo_pepper demo_zone demo_seal demo_unseal waiting_run false (demo_world 240) (JStr (u "req-1"))
    (JStr demo_nonce) (u "req-1") demo_nonce r (u "10.0.0.2") 250000000 [] demo_unseal_seal req_text nonce_text Hg Hs Hl Hh)
    as (secret & v & config & H & Hdone).
  - intros d Hin E. destruct (others_check_true _ _ _ _ d waiting_devices Hin) as [E2 _]. rewrite Hd, E2 in E. discriminate E.
  - intros d Hin. exact (proj1 (proj2 (others_check_true _ _ _ _ d waiting_devices Hin))).
  - rewrite H in Hc. apply fetches_true in Hc as [Hc1 Hc2]. rewrite Hc1, Hc2 in Hdone. apply (Hdone demo_secret_ok).
    intros d Hin _. exact (proj2 (proj2 (others_check_true _ _ _ _ d waiting_devices Hin))).
Defined.
