(* ===== verification/Auth.v ===== *)
(** * Accounts and sessions (repositories/auth.py, domain/auth.py, api/auth.py)

    The table users with its unique names, the login attempts, every operation
    of [AuthRepository], and the web handlers that open a session ([setup],
    [login]) and resolve it again ([find_session_user], which the server calls
    before each request).

    Arguments: Unicode's NFKC, case folding and control category (unicodedata),
    and werkzeug's salted password hash ([generate] with its salt, [check]).
    Input values are JSON values.  Identifiers and salts are arguments; each
    operation is one transaction, so one that raises changes nothing. *)

From S2P Require Import Prelude PyStr Json Sql Store Reservations.
Local Open Scope Z_scope.

Inductive role := Administrator | Viewer.
#[export] Instance role_eq : EqDecision role.
Proof. solve_decision. Defined.

Record user := mk_user {
  u_id : str; u_name : str; u_norm : str; u_hash : str; u_role : role; u_enabled : bool; u_failed : Z; u_locked : option Z;
  u_changed : Z; u_created : Z; u_login : option Z; u_version : Z; u_disabled : option Z }.
Definition user_eta (x : user) : user :=
  mk_user (u_id x) (u_name x) (u_norm x) (u_hash x) (u_role x) (u_enabled x) (u_failed x) (u_locked x) (u_changed x)
    (u_created x) (u_login x) (u_version x) (u_disabled x).
#[export] Instance set_u_hash : Settable u_hash := ltac:(derive_setter user_eta u_hash).
#[export] Instance set_u_role : Settable u_role := ltac:(derive_setter user_eta u_role).
#[export] Instance set_u_enabled : Settable u_enabled := ltac:(derive_setter user_eta u_enabled).
#[export] Instance set_u_failed : Settable u_failed := ltac:(derive_setter user_eta u_failed).
#[export] Instance set_u_locked : Settable u_locked := ltac:(derive_setter user_eta u_locked).
#[export] Instance set_u_changed : Settable u_changed := ltac:(derive_setter user_eta u_changed).
#[export] Instance set_u_login : Settable u_login := ltac:(derive_setter user_eta u_login).
#[export] Instance set_u_version : Settable u_version := ltac:(derive_setter user_eta u_version).
#[export] Instance set_u_disabled : Settable u_disabled := ltac:(derive_setter user_eta u_disabled).

Record attempt := mk_attempt { at_name : str; at_ip : str; at_ok : bool; at_time : Z }.
Record auth_db := mk_auth_db { users : list user; attempts : list attempt }.

(** The errors, by their code. *)
Inductive auth_exn := AuthValidation (code : string) | SetupAlreadyCompleted | LastAdministratorRequired.
Definition invalid {A} (code : string) : result auth_exn A := Raise (AuthValidation code).

Definition USERNAME_MIN_LENGTH : Z := 3.
Definition USERNAME_MAX_LENGTH : Z := 64.
Definition PASSWORD_MIN_LENGTH : Z := 1.
Definition PASSWORD_MAX_LENGTH : Z := 128.

(** The pattern [_USERNAME]. *)
Definition name_first (c : Z) : bool :=
  ((65 <=? c) && (c <=? 90)) || ((97 <=? c) && (c <=? 122)) || ((48 <=? c) && (c <=? 57)).
Definition name_rest (c : Z) : bool := name_first c || (c =? 46) || (c =? 95) || (c =? 45).
Definition _USERNAME (s : str) : bool :=
  match s with c :: s' => name_first c && forallb name_rest s' && (2 <=? slen s') && (slen s' <=? 63) | [] => false end.

Definition validate_role (value : json) : result auth_exn role :=
  match value with
  | JStr s => if str_eqb s (u "administrator") then Ok Administrator else if str_eqb s (u "viewer") then Ok Viewer else invalid "role_invalid"
  | _ => invalid "role_invalid"
  end.

Definition validate_password (value : json) : result auth_exn str :=
  match value with
  | JStr s =>
      raise_if (existsb (Z.eqb 0) s) (AuthValidation "password_contains_nul") ;;;
      raise_if ((slen s <? PASSWORD_MIN_LENGTH) || match strip s with [] => true | _ => false end) (AuthValidation "password_too_short") ;;;
      raise_if (PASSWORD_MAX_LENGTH <? slen s) (AuthValidation "password_too_long") ;;;
      Ok s
  | _ => invalid "password_invalid_type"
  end.

(** COLLATE NOCASE folds the ASCII letters. *)
Definition nocase (s : str) : str := map (λ c, if (65 <=? c) && (c <=? 90) then c + 32 else c) s.

Section auth.
Context (nfkc casefold : str → str) (control : Z → bool) (generate : str → str → str) (check : str → str → bool).

Definition normalize_username (value : str) : str := casefold (nfkc (strip value)).

Definition validate_username (value : json) : result auth_exn (str * str) :=
  match value with
  | JStr s =>
      let display := nfkc (strip s) in
      raise_if (match display with [] => true | _ => false end) (AuthValidation "username_blank") ;;;
      raise_if (slen display <? USERNAME_MIN_LENGTH) (AuthValidation "username_too_short") ;;;
      raise_if (USERNAME_MAX_LENGTH <? slen display) (AuthValidation "username_too_long") ;;;
      raise_if (existsb control display) (AuthValidation "username_control_character") ;;;
      raise_if (negb (_USERNAME display)) (AuthValidation "username_invalid_characters") ;;;
      Ok (display, normalize_username display)
  | _ => invalid "username_invalid_type"
  end.

Definition hash_password (salt : str) (password : json) : result auth_exn str :=
  let* p := validate_password password in Ok (generate salt p).
Definition verify_password (password_hash password : str) : bool := check password_hash password.

(** ** The repository *)

Definition find_by_id (id : str) (s : auth_db) : option user := get_row u_id id (users s).

(** INSERT with the primary key and the two unique names. *)
Definition _insert_user (id name norm hash : str) (r : role) (now : Z) (s : auth_db) : result auth_exn auth_db :=
  raise_if (existsb (λ x, str_eqb (u_id x) id || str_eqb (nocase (u_name x)) (nocase name) || str_eqb (u_norm x) norm) (users s))
    (AuthValidation "username_taken") ;;;
  Ok (mk_auth_db (users s ++ [mk_user id name norm hash r true 0 None now now None 1 None]) (attempts s)).

Definition create_user (id salt : str) (username password r : json) (now : Z) (s : auth_db) : result auth_exn (str * auth_db) :=
  let* n := validate_username username in
  let* r := validate_role r in
  let* hash := hash_password salt password in
  let* s := _insert_user id (fst n) (snd n) hash r now s in
  Ok (id, s).

Definition create_initial_administrator (id salt : str) (username password : json) (now : Z) (s : auth_db)
  : result auth_exn (str * auth_db) :=
  let* n := validate_username username in
  let* hash := hash_password salt password in
  raise_if (negb (Z.of_nat (length (users s)) =? 0)) SetupAlreadyCompleted ;;;
  let* s := _insert_user id (fst n) (snd n) hash Administrator now s in
  Ok (id, s).

Definition find_session_user (id : str) (version : json) (s : auth_db) : option user :=
  match version with
  | JInt v => find_where (λ x, str_eqb (u_id x) id && u_enabled x && (u_version x =? v)) (users s)
  | _ => None
  end.

(** The SELECT has no order: the row found first. *)
Definition names (username : str) (x : user) : bool :=
  str_eqb (u_norm x) (normalize_username username) || str_eqb (nocase (u_name x)) (nocase (strip username)).
Definition authenticate (username password : json) (s : auth_db) : option user :=
  match username, password with
  | JStr name, JStr p =>
      match find_where (names name) (users s) with
      | Some x => if u_enabled x && verify_password (u_hash x) p then Some x else None
      | None => None
      end
  | _, _ => None
  end.

Definition LOGIN_WINDOW : Z := 15 * 60000000.
Definition ip_blocked (ip : str) (now : Z) (s : auth_db) : bool :=
  5 <=? countb (λ a, str_eqb (at_ip a) ip && negb (at_ok a) && (now - LOGIN_WINDOW <=? at_time a)) (attempts s).

Definition record_login (username ip : str) (ok : bool) (id : option str) (now : Z) (s : auth_db) : auth_db :=
  let name := take 128 username in
  let ip := take 64 ip in
  let added := attempts s ++ [mk_attempt name ip ok now] in
  match ok, id with
  | true, Some ((_ :: _) as id) =>
      mk_auth_db (update_where (by_key u_id id) (λ x, x <| u_login := Some now |> <| u_failed := 0 |> <| u_locked := None |>) (users s))
        (List.filter (λ a, negb (str_eqb (at_name a) name && str_eqb (at_ip a) ip && negb (at_ok a))) added)
  | _, _ => mk_auth_db (users s) added
  end.

(** A new password revokes the sessions. *)
Definition with_password (hash : str) (now : Z) (x : user) : user :=
  x <| u_hash := hash |> <| u_changed := now |> <| u_version := u_version x + 1 |>.

Definition change_password (salt id : str) (current new_password : json) (now : Z) (s : auth_db) : result auth_exn auth_db :=
  match current with
  | JStr old =>
      let* hash := hash_password salt new_password in
      match find_where (λ x, str_eqb (u_id x) id && u_enabled x) (users s) with
      | Some x =>
          raise_if (negb (verify_password (u_hash x) old)) (AuthValidation "current_password_invalid") ;;;
          Ok (mk_auth_db (update_where (by_key u_id id) (with_password hash now) (users s)) (attempts s))
      | None => invalid "current_password_invalid"
      end
  | _ => invalid "current_password_invalid"
  end.

Definition active_admin (x : user) : bool := u_enabled x && bool_decide (u_role x = Administrator).

(** [None] of the source is [JNull]. *)
Definition update_user_security_state (id : str) (enabled r : json) (now : Z) (s : auth_db) : result auth_exn (user * auth_db) :=
  raise_if (match enabled, r with JNull, JNull => true | _, _ => false end) (AuthValidation "user_update_invalid") ;;;
  let* enabled := match enabled with JNull => Ok None | JBool b => Ok (Some b) | _ => invalid "enabled_invalid_type" end in
  let* r := match r with JNull => Ok None | _ => let* r := validate_role r in Ok (Some r) end in
  match find_by_id id s with
  | None => invalid "user_not_found"
  | Some x =>
      let final_enabled := default (u_enabled x) enabled in
      let final_role := default (u_role x) r in
      let others := countb (λ y, negb (str_eqb (u_id y) id) && active_admin y) (users s) in
      raise_if (others + (if final_enabled && bool_decide (final_role = Administrator) then 1 else 0) =? 0) LastAdministratorRequired ;;;
      let enabled_changed := negb (is_null enabled) && negb (Bool.eqb final_enabled (u_enabled x)) in
      let role_changed := negb (is_null r) && negb (bool_decide (final_role = u_role x)) in
      let s :=
        if enabled_changed || role_changed
        then mk_auth_db (update_where (by_key u_id id)
               (λ y, y <| u_enabled := final_enabled |> <| u_role := final_role |>
                       <| u_disabled := if final_enabled then None else if enabled_changed then Some now else u_disabled x |>
                       <| u_version := u_version y + 1 |>) (users s)) (attempts s)
        else s in
      match find_by_id id s with Some y => Ok (y, s) | None => invalid "user_not_found" end
  end.

Definition set_enabled (id : str) (enabled : bool) (now : Z) (s : auth_db) : result auth_exn auth_db :=
  let* r := update_user_security_state id (JBool enabled) JNull now s in Ok (snd r).
Definition set_role (id : str) (r : json) (now : Z) (s : auth_db) : result auth_exn auth_db :=
  let* _ := validate_role r in
  let* r := update_user_security_state id JNull r now s in Ok (snd r).

Definition reset_password (salt id : str) (new_password : json) (now : Z) (s : auth_db) : result auth_exn auth_db :=
  let* hash := hash_password salt new_password in
  raise_if (negb (has_key u_id id (users s))) (AuthValidation "user_not_found") ;;;
  Ok (mk_auth_db (update_where (by_key u_id id) (with_password hash now) (users s)) (attempts s)).

(** ** The handlers that open a session *)

(** The two members of the session cookie. *)
Record session := mk_session { ss_id : str; ss_version : Z }.

(** [g.user], which the server computes before each request. *)
Definition session_user (c : session) (s : auth_db) : option user := find_session_user (ss_id c) (JInt (ss_version c)) s.

Inductive setup_reply := SetupDone | SetupMismatch | SetupError (code : string) | SetupOpened (c : session).
Definition setup (id salt username password confirmation : str) (now : Z) (s : auth_db) : setup_reply * auth_db :=
  if 0 <? Z.of_nat (length (users s)) then (SetupDone, s)
  else if negb (str_eqb password confirmation) then (SetupMismatch, s)
  else match create_initial_administrator id salt (JStr username) (JStr password) now s with
       | Ok (id, s') => (SetupOpened (mk_session id 1), s')
       | Raise SetupAlreadyCompleted => (SetupDone, s)
       | Raise (AuthValidation code) => (SetupError code, s)
       | Raise LastAdministratorRequired => (SetupError "last_administrator_required", s)
       end.

(** [request.remote_addr or "unknown"] *)
Definition remote (ip : str) : str := match ip with [] => u "unknown" | _ => ip end.

Inductive login_reply := LoginSetup | LoginBlocked | LoginRefused | LoginOpened (c : session).
Definition login (username password ip : str) (now : Z) (s : auth_db) : login_reply * auth_db :=
  if Z.of_nat (length (users s)) =? 0 then (LoginSetup, s)
  else
    let ip := remote ip in
    if ip_blocked ip now s then (LoginBlocked, s)
    else
      let x := authenticate (JStr username) (JStr password) s in
      let s := record_login username ip (negb (is_null x)) (u_id <$> x) now s in
      match x with
      | None => (LoginRefused, s)
      | Some x => (LoginOpened (mk_session (u_id x) (u_version x)), s)
      end.
End auth.
