(* ===== verification/AuthProps.v ===== *)
(** * Theorems on accounts and sessions

    Over any run of the operations on accounts: an enabled administrator
    always remains and setup happens once; revoked sessions stay revoked; a
    login names at most one account, and a created account can log in; guessing
    a password is throttled. *)

From S2P Require Import Prelude PyStr Json Sql Store Reservations Auth.
Local Open Scope Z_scope.

(** ** Runs *)

Inductive account_act :=
| ASetup (id salt username password confirmation : str)
| ALogin (username password ip : str)
| ACreateUser (id salt : str) (username password role : json)
| AChangePassword (salt id : str) (current new_password : json)
| AUpdateUser (id : str) (enabled role : json)
| ASetEnabled (id : str) (enabled : bool)
| ASetRole (id : str) (role : json)
| AResetPassword (salt id : str) (new_password : json).
Record account_event := mk_account_event { ae_now : Z; ae_act : account_act }.

Definition no_accounts : auth_db := mk_auth_db [] [].

Section accounts.
Context (nfkc casefold : str → str) (control : Z → bool) (generate : str → str → str) (check : str → str → bool).

Definition keep {A} (m : result auth_exn (A * auth_db)) (s : auth_db) : auth_db := match m with Ok (_, s') => s' | Raise _ => s end.
Definition keep_ok (m : result auth_exn auth_db) (s : auth_db) : auth_db := match m with Ok s' => s' | Raise _ => s end.

Definition account_step (s : auth_db) (e : account_event) : auth_db :=
  let now := ae_now e in
  match ae_act e with
  | ASetup id salt name p c => snd (setup nfkc casefold control generate id salt name p c now s)
  | ALogin name p ip => snd (login nfkc casefold check name p ip now s)
  | ACreateUser id salt name p r => keep (create_user nfkc casefold control generate id salt name p r now s) s
  | AChangePassword salt id old p => keep_ok (change_password generate check salt id old p now s) s
  | AUpdateUser id enabled r => keep (update_user_security_state id enabled r now s) s
  | ASetEnabled id enabled => keep_ok (set_enabled id enabled now s) s
  | ASetRole id r => keep_ok (set_role id r now s) s
  | AResetPassword salt id p => keep_ok (reset_password generate salt id p now s) s
  end.
Definition accounts (es : list account_event) (s : auth_db) : auth_db := fold_left account_step es s.

(** ** What an operation does to the table of users *)

(** The rows are kept with their names; a version never falls, and rises when
    the password, the role or the state of the account changes. *)
Record user_step (x y : user) : Prop := {
  us_id : u_id y = u_id x;
  us_name : u_name y = u_name x;
  us_norm : u_norm y = u_norm x;
  us_version : u_version x ≤ u_version y;
  us_same : u_version y = u_version x → u_hash y = u_hash x ∧ u_role y = u_role x ∧ u_enabled y = u_enabled x }.

#[local] Instance user_step_preorder : PreOrder user_step.
Proof.
  split; [by split|]. intros x y z [] []. split; [congruence..|lia|]. intros E.
  destruct us_same0 as (? & ? & ?); [lia|]. destruct us_same1 as (? & ? & ?); [lia|]. split_and!; congruence.
Qed.

(** The three ways the table changes. *)
Inductive table_step (l l' : list user) : Prop :=
| ts_update p f (H : l' = update_where p f l) (Hf : ∀ x, x ∈ l → p x = true → user_step x (f x))
    (Ha : existsb active_admin l = true → existsb active_admin l' = true)
| ts_insert x (H : l' = l ++ [x])
    (Hx : existsb (λ y, str_eqb (u_id y) (u_id x) || str_eqb (nocase (u_name y)) (nocase (u_name x)) || str_eqb (u_norm y) (u_norm x)) l = false)
    (Hn : ∃ j, validate_username nfkc casefold control j = Ok (u_name x, u_norm x)) (Hv : u_version x = 1).

Lemma ts_refl l : table_step l l.
Proof.
  apply (ts_update _ _ (λ _, false) id); [|done|done]. symmetry. apply update_where_none. by apply existsb_none.
Qed.

Lemma existsb_update (q p : user → bool) f l : (∀ x, x ∈ l → p x = true → q x = true → q (f x) = true) → existsb q l = true → existsb q (update_where p f l) = true.
Proof.
  intros H (x & Hx & Hq)%existsb_elem. apply existsb_elem. exists (if p x then f x else x). split; [apply update_where_elem; by exists x|].
  destruct (p x) eqn:E; auto.
Qed.

Lemma insert_user_step id j nn hash r now s s' : validate_username nfkc casefold control j = Ok nn →
  _insert_user id (fst nn) (snd nn) hash r now s = Ok s' → table_step (users s) (users s') ∧ attempts s' = attempts s.
Proof.
  intros Hj. unfold _insert_user. intros ([] & H%raise_if_ok & [= <-])%rbind_ok. split; [|done].
  eapply ts_insert; [reflexivity|exact H|exists j; by destruct nn|done].
Qed.

Lemma with_password_step id hash now l : table_step l (update_where (by_key u_id id) (with_password hash now) l).
Proof.
  eapply ts_update; [reflexivity| |].
  - intros x _ _. split; [done|done|done|simpl; lia|simpl; lia].
  - by apply existsb_update.
Qed.

(** Two rows of one identifier are one row. *)
Lemma update_state_step id enabled r now s y s' : keys_unique u_id (users s) →
  update_user_security_state id enabled r now s = Ok (y, s') →
  table_step (users s) (users s').
Proof.
  intros Hu. unfold update_user_security_state. intros ([] & _ & H)%rbind_ok. apply rbind_ok in H as (en & _ & H).
  apply rbind_ok in H as (ro & _ & H). destruct (find_by_id id s) as [x|] eqn:Eg; [|done]. apply get_row_Some in Eg as [Hx Ex].
  apply rbind_ok in H as ([] & Hc%raise_if_ok & H). apply Z.eqb_neq in Hc.
  set (fe := default (u_enabled x) en) in *. set (fr := default (u_role x) ro) in *.
  set (ec := negb (is_null en) && negb (Bool.eqb fe (u_enabled x))) in *. set (rc := negb (is_null ro) && negb (bool_decide (fr = u_role x))) in *.
  destruct (ec || rc) eqn:E; destruct (find_by_id _ _) as [z|]; try done; injection H as <- <-; [|apply ts_refl].
  cbn [users]. eapply ts_update; [reflexivity| |].
  - intros z' _ _. split; [done|done|done|simpl; lia|simpl; lia].
  - intros _. set (f := λ y, _).
    destruct (Z.eq_dec (countb (λ y0, negb (str_eqb (u_id y0) id) && active_admin y0) (users s)) 0) as [E0|E0].
    + apply existsb_elem. exists (f x). split.
      * apply update_where_elem. exists x. split; [done|]. unfold by_key. by rewrite Ex, str_eqb_refl.
      * unfold active_admin. simpl. destruct fe; [|cbn in Hc; lia]. destruct (bool_decide (fr = Administrator)); [done|cbn in Hc; lia].
    + pose proof (countb_nonneg (λ y0, negb (str_eqb (u_id y0) id) && active_admin y0) (users s)).
      assert (0 < countb (λ y0, negb (str_eqb (u_id y0) id) && active_admin y0) (users s)) as Hp by lia.
      apply countb_pos, existsb_elem in Hp as (a & Ha & [Hn Hact]%andb_true_iff). apply existsb_elem. exists a. split; [|done].
      apply update_where_elem. exists a. split; [done|]. unfold by_key. apply Bool.negb_true_iff in Hn. by rewrite Hn.
Qed.

Lemma update_state_attempts id enabled r now s y s' : update_user_security_state id enabled r now s = Ok (y, s') → attempts s' = attempts s.
Proof.
  unfold update_user_security_state. intros ([] & _ & H)%rbind_ok. apply rbind_ok in H as (en & _ & H).
  apply rbind_ok in H as (ro & _ & H). destruct (find_by_id id s) as [x|]; [|done]. apply rbind_ok in H as ([] & _ & H).
  destruct (_ || _) in H; destruct (find_by_id _ _) in H; try done; by injection H as <- <-.
Qed.

Lemma login_update_step id now l :
  table_step l (update_where (by_key u_id id) (λ x, x <| u_login := Some now |> <| u_failed := 0 |> <| u_locked := None |>) l).
Proof. eapply ts_update; [reflexivity|by split|]. by apply existsb_update. Qed.

Lemma step_table s e : keys_unique u_id (users s) → table_step (users s) (users (account_step s e)).
Proof.
  intros Hu. unfold account_step, keep, keep_ok. destruct (ae_act e) as [id salt name p c|name p ip|id salt name p r|salt id old p|id en r|id en|id r|salt id p].
  - unfold setup. destruct (0 <? _); [apply ts_refl|]. destruct (negb _); [apply ts_refl|].
    destruct (create_initial_administrator _ _ _ _ _ _ _ _ _ _) as [[i s']|[]] eqn:E; try apply ts_refl.
    unfold create_initial_administrator in E. apply rbind_ok in E as (nn & Hn & E). apply rbind_ok in E as (h & _ & E).
    apply rbind_ok in E as ([] & _ & E). apply rbind_ok in E as (s1 & E & [= <- <-]). by eapply insert_user_step in E as [? _].
  - unfold login. destruct (_ =? 0); [apply ts_refl|]. destruct (ip_blocked _ _ _); [apply ts_refl|].
    destruct (authenticate _ _ _ _ _ _) as [x|]; cbn [snd record_login negb is_null fmap option_fmap option_map]; [|apply ts_refl].
    destruct (u_id x); [apply ts_refl|apply login_update_step].
  - destruct (create_user _ _ _ _ _ _ _ _ _ _ _) as [[i s']|] eqn:E; [|apply ts_refl]. unfold create_user in E.
    apply rbind_ok in E as (nn & Hn & E). apply rbind_ok in E as (ro & _ & E). apply rbind_ok in E as (h & _ & E).
    apply rbind_ok in E as (s1 & E & [= <- <-]). by eapply insert_user_step in E as [? _].
  - destruct (change_password _ _ _ _ _ _ _ _) as [s'|] eqn:E; [|apply ts_refl]. unfold change_password in E. destruct old; try done.
    apply rbind_ok in E as (h & _ & E). destruct (find_where _ _); [|done]. apply rbind_ok in E as ([] & _ & [= <-]). apply with_password_step.
  - destruct (update_user_security_state _ _ _ _ _) as [[y s']|] eqn:E; [|apply ts_refl]. by apply update_state_step in E.
  - destruct (set_enabled _ _ _ _) as [s'|] eqn:E; [|apply ts_refl]. unfold set_enabled in E.
    apply rbind_ok in E as ([y s1] & E & [= <-]). by apply update_state_step in E.
  - destruct (set_role _ _ _ _) as [s'|] eqn:E; [|apply ts_refl]. unfold set_role in E. apply rbind_ok in E as (? & _ & E).
    apply rbind_ok in E as ([y s1] & E & [= <-]). by apply update_state_step in E.
  - destruct (reset_password _ _ _ _ _ _) as [s'|] eqn:E; [|apply ts_refl]. unfold reset_password in E.
    apply rbind_ok in E as (h & _ & E). apply rbind_ok in E as ([] & _ & [= <-]). apply with_password_step.
Qed.

(** ** The invariant *)

Record accounts_ok (l : list user) : Prop := {
  ao_ids : keys_unique u_id l;
  ao_names : NoDup (map (λ x, nocase (u_name x)) l);
  ao_norms : NoDup (map u_norm l);
  ao_valid : ∀ x, x ∈ l → ∃ j, validate_username nfkc casefold control j = Ok (u_name x, u_norm x) }.

Lemma nodup_insert {B} (f : user → B) l x : (∀ y, y ∈ l → f y ≠ f x) → NoDup (map f l) → NoDup (map f (l ++ [x])).
Proof.
  intros Hx Hl. rewrite map_app. cbn [map]. apply NoDup_app. split; [done|]. split; [|apply NoDup_singleton].
  intros y (z & Ey & Hz)%list_elem_of_fmap Hy%list_elem_of_singleton. apply (Hx z Hz). congruence.
Qed.

Lemma table_step_ok l l' : table_step l l' → accounts_ok l → accounts_ok l'.
Proof.
  intros [p f -> Hf _|x -> Hx Hn _] [].
  - assert (∀ (B : Type) (g : user → B), (∀ a b, user_step a b → g b = g a) → map g (update_where p f l) = map g l) as Hm.
    { intros B g Hg. unfold update_where. rewrite map_map. apply map_ext_in. intros a Ha%list_elem_of_In. destruct (p a) eqn:E; [|done]. by apply Hg, Hf. }
    split.
    + unfold keys_unique. rewrite Hm; [done|]. by intros a b [].
    + rewrite Hm; [done|]. intros a b []. congruence.
    + rewrite Hm; [done|]. by intros a b [].
    + intros y (z & Hz & ->)%update_where_elem. destruct (p z) eqn:E; [|auto]. destruct (Hf z Hz E) as [_ -> -> _ _]. auto.
  - assert (∀ y, y ∈ l → u_id y ≠ u_id x ∧ nocase (u_name y) ≠ nocase (u_name x) ∧ u_norm y ≠ u_norm x) as Hfresh.
    { intros y Hy. rewrite existsb_none in Hx. specialize (Hx y Hy). apply Bool.orb_false_iff in Hx as [[H1 H2]%Bool.orb_false_iff H3].
      by rewrite !str_eqb_neq in *. }
    split.
    + apply nodup_insert; [|done]. intros y Hy. by apply Hfresh.
    + apply nodup_insert; [|done]. intros y Hy. by apply Hfresh.
    + apply nodup_insert; [|done]. intros y Hy. by apply Hfresh.
    + intros y [Hy|Hy%list_elem_of_singleton]%elem_of_app; [auto|by subst y].
Qed.

Lemma accounts_ok_run es s : accounts_ok (users s) → accounts_ok (users (accounts es s)).
Proof.
  revert s. induction es as [|e es IH]; intros s Hs; [done|]. apply IH. eapply table_step_ok; [apply step_table, Hs|done].
Qed.
Lemma accounts_ok_init : accounts_ok (users no_accounts).
Proof. split; try constructor. by intros x ?%elem_of_nil. Qed.

(** ** Administrators *)

Lemma admin_kept l l' : table_step l l' → existsb active_admin l = true → existsb active_admin l' = true.
Proof. intros [p f -> _ Ha|x -> _ _ _] H; [auto|]. rewrite existsb_app. by rewrite H. Qed.

Lemma admin_kept_run es s : accounts_ok (users s) → existsb active_admin (users s) = true →
  existsb active_admin (users (accounts es s)) = true.
Proof.
  revert s. induction es as [|e es IH]; intros s Hs H; [done|]. pose proof (step_table s e (ao_ids _ Hs)) as Ht.
  apply IH; [by eapply table_step_ok|by eapply admin_kept].
Qed.

(** C28. Setup happens once and an administrator always remains: after the
    setup page has created the first account, whatever operations follow,
    disabling and demoting accounts included, some enabled account is an
    administrator, and the setup page never creates another one. *)
Theorem administrator_always_remains es id salt name p c now opened s1 es' :
  setup nfkc casefold control generate id salt name p c now (accounts es no_accounts) = (SetupOpened opened, s1) →
  let s2 := accounts es' s1 in
  existsb active_admin (users s2) = true ∧
  ∀ id' salt' name' p' c' now', setup nfkc casefold control generate id' salt' name' p' c' now' s2 = (SetupDone, s2).
Proof.
  intros H s2. pose proof (accounts_ok_run es no_accounts accounts_ok_init) as Hok.
  set (e := mk_account_event now (ASetup id salt name p c)). set (s := accounts es no_accounts) in *.
  assert (account_step s e = s1) as Es by (unfold account_step, e; cbn [ae_act ae_now]; by rewrite H).
  pose proof (step_table s e (ao_ids _ Hok)) as Ht. rewrite Es in Ht.
  assert (existsb active_admin (users s1) = true) as Ha.
  { unfold setup in H. destruct (0 <? _); [done|]. destruct (negb _); [done|].
    destruct (create_initial_administrator _ _ _ _ _ _ _ _ _ _) as [[i s']|[]] eqn:E; [|done..]. injection H as _ <-.
    unfold create_initial_administrator in E. apply rbind_ok in E as (nn & _ & E). apply rbind_ok in E as (h & _ & E).
    apply rbind_ok in E as ([] & _ & E). apply rbind_ok in E as (s0 & E & [= _ <-]). unfold _insert_user in E.
    apply rbind_ok in E as ([] & _ & [= <-]). cbn [users]. rewrite existsb_app. simpl. by rewrite Bool.orb_true_r. }
  assert (existsb active_admin (users s2) = true) as Ha2 by (apply admin_kept_run; [by eapply table_step_ok|done]).
  split; [done|]. intros. unfold setup. apply existsb_elem in Ha2 as (x & Hx & _). destruct (users s2); [by apply elem_of_nil in Hx|done].
Qed.

(** ** Sessions *)

Lemma table_step_row l l' x y : table_step l l' → accounts_ok l → x ∈ l → y ∈ l' → u_id y = u_id x → user_step x y.
Proof.
  intros [p f -> Hf _|z -> Hz _ _] Hok Hx Hy E.
  - apply update_where_elem in Hy as (w & Hw & ->).
    assert (u_id w = u_id x) as Ew by (destruct (p w) eqn:Ep; [by rewrite <- E, (us_id _ _ (Hf w Hw Ep))|done]).
    rewrite (keys_unique_inj u_id l w x (ao_ids _ Hok) Hw Hx Ew) in *. destruct (p x) eqn:Ep; [by apply Hf|reflexivity].
  - apply elem_of_app in Hy as [Hy|Hy%list_elem_of_singleton].
    + rewrite (keys_unique_inj u_id l y x (ao_ids _ Hok) Hy Hx E). reflexivity.
    + subst z. rewrite existsb_none in Hz. specialize (Hz x Hx). rewrite E, str_eqb_refl in Hz. done.
Qed.

Lemma table_step_keeps l l' x : table_step l l' → x ∈ l → ∃ y, y ∈ l' ∧ u_id y = u_id x.
Proof.
  intros [p f -> Hf _|z -> _ _ _] Hx.
  - exists (if p x then f x else x). split; [apply update_where_elem; by exists x|]. destruct (p x) eqn:E; [by destruct (Hf x Hx E)|done].
  - exists x. split; [apply elem_of_app; by left|done].
Qed.

Lemma account_row es s x y : accounts_ok (users s) → x ∈ users s → y ∈ users (accounts es s) → u_id y = u_id x → user_step x y.
Proof.
  revert s x. induction es as [|e es IH]; intros s x Hok Hx Hy E.
  - rewrite (keys_unique_inj u_id _ y x (ao_ids _ Hok) Hy Hx E). reflexivity.
  - pose proof (step_table s e (ao_ids _ Hok)) as Ht. destruct (table_step_keeps _ _ x Ht Hx) as (z & Hz & Ez).
    etrans; [by eapply (table_step_row _ _ x z)|]. apply (IH (account_step s e)); [by eapply table_step_ok|done|done|congruence].
Qed.

Lemma session_user_row c s x : session_user c s = Some x → x ∈ users s ∧ u_id x = ss_id c ∧ u_version x = ss_version c ∧ u_enabled x = true.
Proof.
  unfold session_user, find_session_user. intros [Hx H]%find_where_Some. apply andb_true_iff in H as [[H1 H2]%andb_true_iff H3].
  apply str_eqb_eq in H1. apply Z.eqb_eq in H3. done.
Qed.

(** Sessions are revoked for good: once the password, the role or the
    state of an account differs from what it was while a session of it was
    valid, that session is refused then and in every later state, even when
    the account is enabled or given its role again. *)
Theorem revoked_session_stays_revoked es c x es1 y es2 :
  let s := accounts es no_accounts in
  let s1 := accounts es1 s in
  session_user c s = Some x → y ∈ users s1 → u_id y = u_id x →
  (u_hash y ≠ u_hash x ∨ u_role y ≠ u_role x ∨ u_enabled y ≠ u_enabled x) →
  session_user c (accounts es2 s1) = None.
Proof.
  intros s s1 (Hx & Eid & Ev & _)%session_user_row Hy E Hd. pose proof (accounts_ok_run es no_accounts accounts_ok_init) as Hok. fold s in Hok.
  destruct (account_row es1 s x y Hok Hx Hy E) as [_ _ _ Hle Hsame].
  assert (u_version x < u_version y) as Hlt.
  { destruct (Z.eq_dec (u_version y) (u_version x)) as [Ee|]; [|lia]. destruct (Hsame Ee) as (? & ? & ?). by destruct Hd as [?|[?|?]]. }
  destruct (session_user c (accounts es2 s1)) as [z|] eqn:Ez; [|done]. apply session_user_row in Ez as (Hz & Ezid & Ezv & _).
  destruct (account_row es2 s1 y z (accounts_ok_run es1 s Hok) Hy Hz) as [_ _ _ Hle2 _]; [congruence|]. lia.
Qed.

(** ** Names *)

Definition ascii_text (t : str) : Prop := Forall (λ c, 0 ≤ c < 128) t.

Lemma name_rest_ascii c : name_rest c = true → 0 ≤ c < 128 ∧ is_space c = false.
Proof. unfold name_rest, name_first, is_space. intros H. bprop; lia. Qed.

Lemma username_text t : _USERNAME t = true → ascii_text t ∧ strip t = t.
Proof.
  destruct t as [|c t]; [done|]. cbn [_USERNAME]. intros [[[Hc Ht]%andb_true_iff _]%andb_true_iff _]%andb_true_iff.
  assert (Forall (λ c, name_rest c = true) (c :: t)) as Hf.
  { constructor; [unfold name_rest; by rewrite Hc|]. apply Forall_forall. intros x Hx%list_elem_of_In. rewrite forallb_forall in Ht. auto. }
  split.
  - eapply Forall_impl; [exact Hf|]. intros x Hx. by apply name_rest_ascii.
  - assert (Forall (λ c, is_space c = false) (c :: t)) as Hs by (eapply Forall_impl; [exact Hf|]; intros x Hx; by apply name_rest_ascii).
    unfold strip. rewrite (lstrip_fix (c :: t)) by (by inversion Hs). unfold rstrip.
    assert (Forall (λ c, is_space c = false) (rev (c :: t))) as Hr.
    { rewrite Forall_forall in Hs |- *. intros x Hx. apply Hs, list_elem_of_In, in_rev. by apply list_elem_of_In. }
    rewrite (lstrip_fix (rev (c :: t))); [apply rev_involutive|]. destruct (rev (c :: t)); [done|]. by inversion Hr.
Qed.

Lemma nocase_ascii t t' : nocase t = nocase t' → ascii_text t → ascii_text t'.
Proof.
  revert t'. induction t as [|c t IH]; intros [|c' t']; try done. cbn [nocase map]. intros [= E1 E2] [Hc Ht]%Forall_cons.
  constructor; [|by eapply IH]. destruct ((65 <=? c) && (c <=? 90)) eqn:Ec, ((65 <=? c') && (c' <=? 90)) eqn:Ec'; bprop; lia.
Qed.

(** ** Login *)

Section login.
Context (nfkc_ascii : ∀ t, ascii_text t → nfkc t = t).
Context (casefold_ascii : ∀ t, ascii_text t → casefold t = nocase t).
Context (check_generate : ∀ salt p, check (generate salt p) p = true).

Lemma validate_username_shape j n m : validate_username nfkc casefold control j = Ok (n, m) →
  ascii_text n ∧ m = nocase n ∧ ∃ t, j = JStr t ∧ n = nfkc (strip t).
Proof using nfkc_ascii casefold_ascii.
  unfold validate_username. destruct j as [| | | |t| |]; try done. intros ([] & _ & H)%rbind_ok.
  apply rbind_ok in H as ([] & _ & H). apply rbind_ok in H as ([] & _ & H). apply rbind_ok in H as ([] & _ & H).
  apply rbind_ok in H as ([] & Hu%raise_if_ok & H). apply Bool.negb_false_iff in Hu. injection H as <- <-.
  destruct (username_text _ Hu) as [Ha Hs]. split; [done|]. split; [|by exists t].
  unfold normalize_username. rewrite Hs, nfkc_ascii by done. by apply casefold_ascii.
Qed.

(** A text names at most one account. *)
Lemma names_unique l t x y : accounts_ok l → x ∈ l → y ∈ l → names nfkc casefold t x = true → names nfkc casefold t y = true → x = y.
Proof using nfkc_ascii casefold_ascii.
  intros [] Hx Hy Nx Ny.
  assert (∀ z, z ∈ l → names nfkc casefold t z = true → u_norm z = casefold (nfkc (strip t))) as Hn.
  { intros z Hz [H|H]%orb_true_iff; apply str_eqb_eq in H; [done|]. destruct (ao_valid0 z Hz) as (j & Hj).
    destruct (validate_username_shape _ _ _ Hj) as (Ha & -> & _). pose proof (nocase_ascii _ _ H Ha) as Ht.
    rewrite nfkc_ascii, casefold_ascii by done. done. }
  assert (u_norm x = u_norm y) as E by (rewrite (Hn x), (Hn y); done).
  by apply (keys_unique_inj u_norm l).
Qed.

(** An account that has been created can log in, and no other one can by
    that name: in every reachable state the account of a successful creation
    is found by the name and the password it was given, and every row the
    login query matches is that account. *)
Theorem created_account_logs_in es id salt name p r now i s' :
  create_user nfkc casefold control generate id salt (JStr name) (JStr p) r now (accounts es no_accounts) = Ok (i, s') →
  ∃ x, authenticate nfkc casefold check (JStr name) (JStr p) s' = Some x ∧ u_id x = i ∧
       ∀ y, y ∈ users s' → names nfkc casefold name y = true → y = x.
Proof using nfkc_ascii casefold_ascii check_generate.
  intros H. pose proof (accounts_ok_run es no_accounts accounts_ok_init) as Hok. set (s := accounts es no_accounts) in *.
  pose proof (step_table s (mk_account_event now (ACreateUser id salt (JStr name) (JStr p) r)) (ao_ids _ Hok)) as Ht.
  unfold account_step in Ht. cbn [ae_act ae_now] in Ht. rewrite H in Ht. cbn [keep] in Ht. pose proof (table_step_ok _ _ Ht Hok) as Hok'.
  unfold create_user in H. apply rbind_ok in H as ([n m] & Hn & H). apply rbind_ok in H as (ro & _ & H). apply rbind_ok in H as (h & Hh & H).
  apply rbind_ok in H as (s1 & H & [= <- <-]). unfold _insert_user in H. apply rbind_ok in H as ([] & _ & [= <-]). cbn [fst snd] in *.
  destruct (validate_username_shape _ _ _ Hn) as (Ha & -> & t & [= <-] & ->).
  unfold hash_password in Hh. apply rbind_ok in Hh as (p' & Hp & [= <-]). unfold validate_password in Hp.
  apply rbind_ok in Hp as ([] & _ & Hp). apply rbind_ok in Hp as ([] & _ & Hp). apply rbind_ok in Hp as ([] & _ & [= <-]).
  set (x := mk_user _ _ _ _ _ _ _ _ _ _ _ _ _) in *.
  assert (x ∈ users s ++ [x]) as Hx by (apply elem_of_app; right; by left).
  assert (names nfkc casefold name x = true) as Nx.
  { unfold names, normalize_username. simpl. rewrite casefold_ascii by done. by rewrite str_eqb_refl. }
  exists x. cbn [users] in *. split; [|split; [done|]].
  - unfold authenticate. cbn [users]. destruct (find_where _ _) as [z|] eqn:Ez.
    + apply find_where_Some in Ez as [Hz Nz]. rewrite (names_unique _ name z x Hok' Hz Hx Nz Nx). simpl. unfold verify_password.
      by rewrite check_generate.
    + by rewrite (find_where_None _ _ x Ez Hx) in Nx.
  - intros y Hy Ny. by apply (names_unique _ name y x Hok').
Qed.
End login.

(** ** Guessing *)

(** The logins of a run: name, address and reply. *)
Fixpoint logins (es : list account_event) (s : auth_db) : list (str * str * login_reply) :=
  match es with
  | [] => []
  | e :: es' =>
      match ae_act e with
      | ALogin name p ip => (name, remote ip, fst (login nfkc casefold check name p ip (ae_now e) s)) :: logins es' (account_step s e)
      | _ => logins es' (account_step s e)
      end
  end.
Definition wrong (name ip : str) (t : str * str * login_reply) : bool :=
  match t with (n, i, LoginRefused) => str_eqb n name && str_eqb i ip | _ => false end.
Definition opened_by (name ip : str) (t : str * str * login_reply) : bool :=
  match t with (n, i, LoginOpened _) => str_eqb (take 128 n) (take 128 name) && str_eqb (take 64 i) ip | _ => false end.

(** The failures that count against a name and an address. *)
Definition failed_since (t0 : Z) (name ip : str) (a : attempt) : bool :=
  str_eqb (at_name a) (take 128 name) && str_eqb (at_ip a) ip && negb (at_ok a) && (t0 <=? at_time a).

Lemma attempts_kept s e : match ae_act e with ALogin _ _ _ => False | _ => True end → attempts (account_step s e) = attempts s.
Proof.
  intros Hl. unfold account_step, keep, keep_ok. destruct (ae_act e) as [id salt name p c|name p ip|id salt name p r|salt id old p|id en r|id en|id r|salt id p]; try done.
  - unfold setup. destruct (0 <? _); [done|]. destruct (negb _); [done|].
    destruct (create_initial_administrator _ _ _ _ _ _ _ _ _ _) as [[i s']|[]] eqn:E; try done.
    unfold create_initial_administrator in E. apply rbind_ok in E as (nn & Hn & E). apply rbind_ok in E as (h & _ & E).
    apply rbind_ok in E as ([] & _ & E). apply rbind_ok in E as (s1 & E & [= <- <-]). by eapply insert_user_step in E as [_ ?].
  - destruct (create_user _ _ _ _ _ _ _ _ _ _ _) as [[i s']|] eqn:E; [|done]. unfold create_user in E.
    apply rbind_ok in E as (nn & Hn & E). apply rbind_ok in E as (ro & _ & E). apply rbind_ok in E as (h & _ & E).
    apply rbind_ok in E as (s1 & E & [= <- <-]). by eapply insert_user_step in E as [_ ?].
  - destruct (change_password _ _ _ _ _ _ _ _) as [s'|] eqn:E; [|done]. unfold change_password in E. destruct old; try done.
    apply rbind_ok in E as (h & _ & E). destruct (find_where _ _); [|done]. by apply rbind_ok in E as ([] & _ & [= <-]).
  - destruct (update_user_security_state _ _ _ _ _) as [[y s']|] eqn:E; [|done]. by apply update_state_attempts in E.
  - destruct (set_enabled _ _ _ _) as [s'|] eqn:E; [|done]. unfold set_enabled in E.
    apply rbind_ok in E as ([y s1] & E & [= <-]). by apply update_state_attempts in E.
  - destruct (set_role _ _ _ _) as [s'|] eqn:E; [|done]. unfold set_role in E. apply rbind_ok in E as (? & _ & E).
    apply rbind_ok in E as ([y s1] & E & [= <-]). by apply update_state_attempts in E.
  - destruct (reset_password _ _ _ _ _ _) as [s'|] eqn:E; [|done]. unfold reset_password in E.
    apply rbind_ok in E as (h & _ & E). by apply rbind_ok in E as ([] & _ & [= <-]).
Qed.

Lemma countb_filter_keep {A} (q p : A → bool) l : (∀ x, x ∈ l → q x = true → p x = true) → countb q (List.filter p l) = countb q l.
Proof.
  induction l as [|x l IH]; intros H; [done|]. cbn [List.filter]. specialize (IH ltac:(intros y Hy; apply H; by right)).
  specialize (H x ltac:(by left)). destruct (p x) eqn:E; rewrite !countb_cons, IH; [done|]. destruct (q x); [discriminate (H eq_refl)|lia].
Qed.

(** One login against the count of failures. *)
Lemma login_counts name ip t0 n p i now s :
  slen ip ≤ 64 → t0 ≤ now ≤ t0 + LOGIN_WINDOW →
  let r := login nfkc casefold check n p i now s in
  opened_by name ip (n, remote i, fst r) = false →
  let f s := countb (failed_since t0 name ip) (attempts s) in
  f s + (if wrong name ip (n, remote i, fst r) then 1 else 0) ≤ f (snd r) ∧
  (wrong name ip (n, remote i, fst r) = true → f s < 5).
Proof.
  intros Hip Hnow r Ho f. unfold r, login in *. destruct (_ =? 0); [cbn; split; [lia|done]|].
  destruct (ip_blocked (remote i) now s) eqn:Eb; [cbn; split; [lia|done]|].
  destruct (authenticate nfkc casefold check (JStr n) (JStr p) s) as [x|] eqn:Ea; cbn [fst snd negb is_null fmap option_fmap option_map] in *.
  - split; [|done]. cbn [wrong]. rewrite Z.add_0_r. unfold f, record_login.
    assert (countb (failed_since t0 name ip) (attempts s) ≤ countb (failed_since t0 name ip) (attempts s ++ [mk_attempt (take 128 n) (take 64 (remote i)) true now])) as Hle.
    { rewrite countb_app. pose proof (countb_nonneg (failed_since t0 name ip) [mk_attempt (take 128 n) (take 64 (remote i)) true now]). lia. }
    destruct (u_id x); [exact Hle|]. cbn [attempts]. rewrite countb_filter_keep; [exact Hle|].
    intros a _ Ha. unfold failed_since in Ha. apply andb_true_iff in Ha as [[[H1 H2]%andb_true_iff H3]%andb_true_iff _].
    apply str_eqb_eq in H1, H2. apply Bool.negb_true_iff. cbn [opened_by] in Ho. apply Bool.andb_false_iff. left.
    rewrite H1, H2. destruct (str_eqb (take 128 name) (take 128 n)) eqn:E1; [|done]. apply str_eqb_eq in E1.
    rewrite E1, str_eqb_refl in Ho. cbn [andb] in Ho |- *. apply str_eqb_neq. apply str_eqb_neq in Ho. congruence.
  - unfold f, record_login. cbn [attempts]. rewrite countb_app, countb_cons, countb_nil. cbn [wrong].
    destruct (str_eqb n name && str_eqb (remote i) ip) eqn:E; [|split; [destruct (failed_since _ _ _ _); lia|done]].
    apply andb_true_iff in E as [->%str_eqb_eq E%str_eqb_eq]. rewrite E in *.
    assert (failed_since t0 name ip (mk_attempt (take 128 name) (take 64 ip) false now) = true) as ->.
    { unfold failed_since. cbn [at_name at_ip at_ok at_time]. rewrite str_eqb_refl, take_ge by (unfold slen in Hip; lia).
      rewrite str_eqb_refl. cbn. apply Z.leb_le. lia. }
    split; [lia|]. intros _. unfold ip_blocked in Eb. apply Z.leb_gt in Eb. eapply Z.le_lt_trans; [|exact Eb].
    apply countb_mono. intros a _ Ha. unfold failed_since in Ha. apply andb_true_iff in Ha as [[[_ H2]%andb_true_iff H3]%andb_true_iff H4].
    rewrite H2, H3. cbn [andb]. apply Z.leb_le in H4. apply Z.leb_le. lia.
Qed.

(** Guessing is throttled: in any quarter of an hour, whatever else
    happens, an address gets at most five wrong passwords for a name tested
    as long as it does not log in by that name; from then on it is blocked,
    also when it logs in to another account in between. *)
Theorem guessing_is_throttled es name ip t0 s :
  slen ip ≤ 64 → Forall (λ e, t0 ≤ ae_now e ≤ t0 + LOGIN_WINDOW) es → existsb (opened_by name ip) (logins es s) = false →
  countb (wrong name ip) (logins es s) ≤ 5.
Proof.
  intros Hip Ht Ho. pose proof (countb_nonneg (failed_since t0 name ip) (attempts s)) as H0.
  assert (countb (wrong name ip) (logins es s) ≤ Z.max 0 (5 - countb (failed_since t0 name ip) (attempts s))) as H; [|lia].
  clear H0. revert s Ho. induction Ht as [|e es He _ IH]; intros s Ho; [cbn [logins]; rewrite countb_nil; lia|]. cbn [logins] in *.
  destruct (ae_act e) as [id salt n p c|n p i|id salt n p r|salt id old p|id en r|id en|id r|salt id p] eqn:Ee.
  all: try (specialize (IH (account_step s e) Ho); rewrite attempts_kept in IH by (by rewrite Ee); done).
  cbn [existsb] in Ho. apply Bool.orb_false_iff in Ho as [Ho1 Ho2]. specialize (IH (account_step s e) Ho2).
  destruct (login_counts name ip t0 n p i (ae_now e) s Hip He Ho1) as [H1 H2]. cbv zeta beta in H1, H2. rewrite countb_cons.
  assert (snd (login nfkc casefold check n p i (ae_now e) s) = account_step s e) as E by (unfold account_step; by rewrite Ee).
  rewrite E in H1. destruct (wrong name ip _); [specialize (H2 eq_refl)|]; lia.
Qed.
End accounts.

(** ** Concrete accounts *)

Definition demo_hash (salt p : str) : str := salt ++ [36] ++ p.
Definition demo_check (h p : str) : bool := str_eqb (drop (length h - length p) h) p.
Definition demo_control (c : Z) : bool := c <? 32.
Definition demo_nfkc (s : str) : str := s.

Lemma demo_check_hash salt p : demo_check (demo_hash salt p) p = true.
Proof.
  unfold demo_check, demo_hash. rewrite app_assoc, length_app.
  replace (length (salt ++ [36%Z]) + length p - length p)%nat with (length (salt ++ [36%Z])) by lia.
  rewrite drop_app_length. apply str_eqb_refl.
Qed.

#[local] Abbreviation demo_from := (accounts demo_nfkc nocase demo_control demo_hash demo_check).
#[local] Abbreviation demo_accounts es := (demo_from es no_accounts).
Definition a_setup : account_event := mk_account_event 1 (ASetup (u "u1") (u "s1") (u "Root") (u "pw") (u "pw")).
Definition a_second : account_event := mk_account_event 2 (ACreateUser (u "u2") (u "s2") (JStr (u "Second")) (JStr (u "pw2")) (JStr (u "administrator"))).
Definition a_disable : account_event := mk_account_event 3 (ASetEnabled (u "u1") false).
Definition a_enable : account_event := mk_account_event 4 (ASetEnabled (u "u1") true).
Definition a_last : account_event := mk_account_event 5 (ASetEnabled (u "u2") false).

Lemma administrator_always_remains_witness :
  existsb active_admin (users (demo_from [a_second; a_disable; a_last] (demo_accounts [a_setup]))) = true.
Proof.
  apply (administrator_always_remains demo_nfkc nocase demo_control demo_hash demo_check [] (u "u1") (u "s1") (u "Root") (u "pw") (u "pw") 1
    (mk_session (u "u1") 1) (demo_accounts [a_setup]) [a_second; a_disable; a_last]). vm_compute. reflexivity.
Defined.

(** The first administrator's session after the account was disabled and enabled again. *)
Lemma revoked_session_stays_revoked_witness :
  session_user (mk_session (u "u1") 1) (demo_from [a_enable] (demo_from [a_second; a_disable] (demo_accounts [a_setup]))) = None.
Proof.
  eapply (revoked_session_stays_revoked demo_nfkc nocase demo_control demo_hash demo_check [a_setup] (mk_session (u "u1") 1) _ [a_second; a_disable] _ [a_enable]).
  - vm_compute. reflexivity.
  - vm_compute. by left.
  - vm_compute. reflexivity.
  - right. right. vm_compute. discriminate.
Defined.

Lemma created_account_logs_in_witness :
  ∃ x, authenticate demo_nfkc nocase demo_check (JStr (u "Second")) (JStr (u "pw2")) (demo_accounts [a_setup; a_second]) = Some x ∧ u_id x = u "u2".
Proof.
  destruct (created_account_logs_in demo_nfkc nocase demo_control demo_hash demo_check (λ t _, eq_refl) (λ t _, eq_refl) demo_check_hash
    [a_setup] (u "u2") (u "s2") (u "Second") (u "pw2") (JStr (u "administrator")) 2 (u "u2") (demo_accounts [a_setup; a_second])) as (x & H1 & H2 & _).
  - vm_compute. reflexivity.
  - exists x. split; [exact H1|exact H2].
Defined.

(** Seven wrong passwords with a login to another account in between. *)
Definition guesses : list account_event :=
  let guess t := mk_account_event t (ALogin (u "Root") (u "no") (u "10.0.0.9")) in
  map guess [10; 11; 12] ++ [mk_account_event 13 (ALogin (u "Second") (u "pw2") (u "10.0.0.9"))] ++ map guess [14; 15; 16; 17].
Example five_guesses : countb (wrong (u "Root") (u "10.0.0.9")) (logins demo_nfkc nocase demo_control demo_hash demo_check guesses (demo_accounts [a_setup; a_second])) = 5.
Proof. vm_compute. reflexivity. Qed.
Lemma guessing_is_throttled_witness :
  countb (wrong (u "Root") (u "10.0.0.9")) (logins demo_nfkc nocase demo_control demo_hash demo_check guesses (demo_accounts [a_setup; a_second])) ≤ 5.
Proof.
  apply (guessing_is_throttled demo_nfkc nocase demo_control demo_hash demo_check guesses (u "Root") (u "10.0.0.9") 0).
  - vm_compute. discriminate.
  - repeat (constructor; [vm_compute; split; discriminate|]). constructor.
  - vm_compute. reflexivity.
Defined.
