(* ===== verification/Layout.v ===== *)
(** * Frame geometry

    Models [inktime/app/domain/rendering/layout_geometry.py]: the rectangles
    of every layout in the logical 480x800 frame.  Whatever the layout, the
    orientation and the caption ratio, the photo and caption slots lie inside
    the canvas, are not empty and do not overlap. *)

From S2P Require Import Prelude PyStr PyFloat.
Local Open Scope Z_scope.

Record Rect := mk_rect { x : Z; y : Z; width : Z; height : Z }.
Definition right (r : Rect) : Z := x r + width r.
Definition bottom (r : Rect) : Z := y r + height r.

Inductive orientation_t : Type := Portrait | Landscape.
#[export] Instance orientation_eq_dec : EqDecision orientation_t.
Proof. solve_decision. Defined.

Inductive layout_t : Type :=
| Full | AutoPhoto | PhotoInfo | Postcard | PhotoPair | PhotoPairCaption | AdaptiveMemory
| Calendar | WeatherSensor.

#[export] Instance layout_eq_dec : EqDecision layout_t.
Proof. solve_decision. Defined.

Definition portrait_only (l : layout_t) : bool :=
  match l with Calendar | WeatherSensor => true | _ => false end.

Record LayoutGeometry := mk_geometry {
  layout : layout_t; orientation : orientation_t; canvas_width : Z; canvas_height : Z;
  primary_photo : option Rect; secondary_photo : option Rect;
  primary_caption : option Rect; secondary_caption : option Rect;
  info : list Rect; gutter : Z }.

(** [photo_rects], [caption_rects] *)
Definition photo_rects (g : LayoutGeometry) : list Rect :=
  omap id [primary_photo g; secondary_photo g].
Definition caption_rects (g : LayoutGeometry) : list Rect :=
  omap id [primary_caption g; secondary_caption g].

(** The local function [split] of [with_photo_date_footers]. *)
Definition split (rect existing_caption : option Rect) (bottom_limit : option Z)
  : option Rect * option Rect :=
  match rect with
  | None => (None, None)
  | Some r =>
      let b := match existing_caption with Some c => bottom c | None => bottom r end in
      let b := match bottom_limit with Some l => Z.min b l | None => b end in
      let h := b - y r in
      let footer := Z.min 28 (Z.max 1 (h / 4)) in
      let photo := mk_rect (x r) (y r) (width r) (h - footer) in
      (Some photo, Some (mk_rect (x r) (bottom photo) (width r) footer))
  end.

Definition with_photo_date_footers (g : LayoutGeometry) : LayoutGeometry :=
  let stacked := match orientation g with Portrait => true | Landscape => false end
                 && match secondary_photo g with Some _ => true | None => false end in
  let primary_limit :=
    match secondary_photo g with
    | Some s => if stacked then Some (y s - gutter g) else None
    | None => None
    end in
  let '(primary, primary_date) := split (primary_photo g) (primary_caption g) primary_limit in
  let '(secondary, secondary_date) := split (secondary_photo g) (secondary_caption g) None in
  let primary_date :=
    match stacked, secondary, primary_date with
    | true, Some s, Some d =>
        let shift := Z.min 4 (Z.max 0 ((y s - bottom d) / 2)) in
        Some (mk_rect (x d) (y d + shift) (width d) (height d))
    | _, _, _ => primary_date
    end in
  mk_geometry (layout g) (orientation g) (canvas_width g) (canvas_height g) primary secondary
    primary_date secondary_date (info g) (gutter g).

Inductive layout_exn : Type := BadSizes | BadOrientation | BadCanvas | UnsupportedLayout.

(** [resolve_compact_pair_geometry]: two full-height slots, widths by aspect. *)
Definition resolve_compact_pair_geometry (s1 s2 : Z * Z) (compact : bool) : result layout_exn LayoutGeometry :=
  raise_if ((Z.min s1.1 s1.2 <=? 0) || (Z.min s2.1 s2.2 <=? 0)) BadSizes ;;;
  let '(caption_width, inner_gap, gutter_, outer_margin) :=
    if compact then (44, 2, 4, 0) else (44, 6, 8, 4) in
  let available := 800 - 2 * (caption_width + inner_gap + outer_margin) - gutter_ in
  let ratio s := fmax (fdiv (f64_of_Z s.1) (f64_of_Z s.2)) (dec 35 100) in
  let share := fdiv (fmul (f64_of_Z available) (ratio s1)) (fadd (fadd f0 (ratio s1)) (ratio s2)) in
  let first := Z.max 1 (Z.min (available - 1) (ftrunc share)) in
  let second := available - first in
  let x1 := outer_margin in
  let x2 := x1 + (caption_width + inner_gap + first + gutter_) in
  Ok (mk_geometry PhotoPair Landscape 800 480
        (Some (mk_rect (x1 + caption_width + inner_gap) 0 first 480))
        (Some (mk_rect (x2 + caption_width + inner_gap) 0 second 480))
        (Some (mk_rect x1 0 caption_width 480)) (Some (mk_rect x2 0 caption_width 480)) [] gutter_).

Definition normalized_canvas (o : orientation_t) (w h : Z) : result layout_exn (Z * Z) :=
  raise_if (negb ((Z.min w h =? 480) && (Z.max w h =? 800))) BadCanvas ;;;
  match o with
  | Portrait => if h <? w then Ok (h, w) else Ok (w, h)
  | Landscape => if w <? h then Ok (h, w) else Ok (w, h)
  end.

Definition single_info_geometry (l : layout_t) (o : orientation_t) (w h : Z) : result layout_exn LayoutGeometry :=
  let info_layout :=
    let info_height := match o with Landscape => 76 | Portrait => 96 end in
    let photo := mk_rect 0 0 w (h - info_height) in
    Ok (mk_geometry l o w h (Some photo) None None None [mk_rect 0 (bottom photo) w info_height] 0) in
  match l with
  | Full => Ok (mk_geometry l o w h (Some (mk_rect 0 0 w h)) None None None [] 0)
  | AutoPhoto =>
      Ok (with_photo_date_footers (mk_geometry l o w h (Some (mk_rect 0 0 w h)) None None None [] 0))
  | PhotoInfo => info_layout
  | Postcard =>
      let footer := match o with Landscape => 122 | Portrait => 142 end in
      Ok (mk_geometry l o w h (Some (mk_rect 24 24 (w - 48) (h - footer - 24))) None None None
            [mk_rect 24 (h - footer) (w - 48) footer] 0)
  | Calendar =>
      Ok (mk_geometry l o w h (Some (mk_rect 20 312 440 420)) None
            (Some (mk_rect 22 754 (Z.max 1 (w - 44)) (Z.max 1 (h - 754)))) None
            [mk_rect 0 0 w 312] 0)
  | WeatherSensor =>
      Ok (mk_geometry l o w h (Some (mk_rect 0 0 w 505)) None
            (Some (mk_rect 24 746 (Z.max 1 (w - 48)) (Z.max 1 (h - 746)))) None
            [mk_rect 0 505 w (h - 505)] 0)
  | AdaptiveMemory => info_layout
  | PhotoPair | PhotoPairCaption => Raise UnsupportedLayout
  end.

(** [int(n * r)] for an integer [n] and a float [r]. *)
Definition scaled (n : Z) (r : f64) : Z := ftrunc (fmul (f64_of_Z n) r).

Definition caption_size (n : Z) (low : f64) (r : f64) : Z :=
  Z.max (scaled n low) (Z.min (scaled n (dec 25 100)) (scaled n r)).

Definition resolve_layout_geometry (l : layout_t) (o : orientation_t) (cw ch : Z) (caption_ratio : f64)
  : result layout_exn LayoutGeometry :=
  let o := if portrait_only l then Portrait else o in
  let* wh := normalized_canvas o cw ch in
  let '(w, h) := wh in
  let ratio := if fltb f0 caption_ratio && fltb caption_ratio (f64_of_Z 1) then caption_ratio
               else dec 20 100 in
  match l with
  | PhotoPair | PhotoPairCaption =>
      let g := 8 in
      match o with
      | Landscape =>
          let card := (w - g) / 2 in
          let ch := caption_size h (dec 15 100) ratio in
          let ih := h - ch in
          let pc := mk_rect 0 ih card ch in
          let sc := mk_rect (card + g) ih (w - card - g) ch in
          Ok (mk_geometry l o w h (Some (mk_rect 0 0 card ih))
                (Some (mk_rect (card + g) 0 (w - card - g) ih)) (Some pc) (Some sc) [pc; sc] g)
      | Portrait =>
          let card := (h - g) / 2 in
          let ch := caption_size card (dec 15 100) ratio in
          let ih := card - ch in
          let pc := mk_rect 0 ih w ch in
          let sc := mk_rect 0 (card + g + ih) w ch in
          Ok (mk_geometry l o w h (Some (mk_rect 0 0 w ih)) (Some (mk_rect 0 (card + g) w ih))
                (Some pc) (Some sc) [pc; sc] g)
      end
  | _ => single_info_geometry l o w h
  end.

Definition resolve_adaptive_pair_geometry (o : orientation_t) (cw ch : Z) (caption_ratio : f64)
  : result layout_exn LayoutGeometry :=
  let* wh := normalized_canvas o cw ch in
  let '(w, h) := wh in
  let ratio := if fleb (dec 18 100) caption_ratio && fleb caption_ratio (dec 25 100) then caption_ratio
               else dec 20 100 in
  let g := 8 in
  match o with
  | Portrait =>
      let* p := resolve_layout_geometry PhotoPairCaption o w h ratio in
      Ok (mk_geometry AdaptiveMemory o w h (primary_photo p) (secondary_photo p) (primary_caption p)
            (secondary_caption p) (info p) (gutter p))
  | Landscape =>
      let card := (w - g) / 2 in
      let cw := caption_size card (dec 18 100) ratio in
      let pc := mk_rect 0 0 cw h in
      let sx := card + g in
      let sc := mk_rect sx 0 cw h in
      Ok (mk_geometry AdaptiveMemory o w h
            (Some (mk_rect (right pc + g) 0 (card - cw - g) h))
            (Some (mk_rect (right sc + g) 0 (w - right sc - g) h)) (Some pc) (Some sc) [pc; sc] g)
  end.

(** ** The slots of a frame *)

Definition in_canvas (g : LayoutGeometry) (r : Rect) : Prop :=
  0 ≤ x r ∧ 0 ≤ y r ∧ 0 < width r ∧ 0 < height r ∧ right r ≤ canvas_width g ∧ bottom r ≤ canvas_height g.

Definition disjoint (a b : Rect) : Prop :=
  right a ≤ x b ∨ right b ≤ x a ∨ bottom a ≤ y b ∨ bottom b ≤ y a.

Fixpoint pairwise (l : list Rect) : Prop :=
  match l with [] => True | a :: l' => Forall (disjoint a) l' ∧ pairwise l' end.

Definition slots (g : LayoutGeometry) : list Rect := photo_rects g ++ caption_rects g.

Record sound (g : LayoutGeometry) : Prop := mk_sound {
  sound_slots : Forall (in_canvas g) (slots g);
  sound_disjoint : pairwise (slots g);
  sound_info : Forall (in_canvas g) (info g);
  sound_photo : photo_rects g ≠ [] }.

Ltac Zify.zify_post_hook ::= Z.div_mod_to_equations.

Ltac geometry :=
  split; [| | |done];
  cbn [slots photo_rects caption_rects with_photo_date_footers split omap list_omap id app pairwise
       primary_photo secondary_photo primary_caption secondary_caption info orientation gutter andb];
  rewrite ?Forall_cons, ?Forall_nil; unfold in_canvas, disjoint, right, bottom;
  cbn [x y width height canvas_width canvas_height]; lia.

Lemma caption_size_bounds n low r a b :
  scaled n low = a → scaled n (dec 25 100) = b → a ≤ b → a ≤ caption_size n low r ≤ b.
Proof. unfold caption_size. intros -> ->. lia. Qed.

Lemma canvas_cases o cw ch w h :
  normalized_canvas o cw ch = Ok (w, h) → (w, h) = match o with Portrait => (480, 800) | Landscape => (800, 480) end.
Proof.
  unfold normalized_canvas. intros (_ & H%raise_if_ok & E)%rbind_ok. bprop. destruct H as [H1 H2].
  destruct o; case_in E; bprop; injection E as <- <-; f_equal; lia.
Qed.

(** Slots and their version with date footers, for one geometry. *)
Definition sound_both (g : LayoutGeometry) : Prop := sound g ∧ sound (with_photo_date_footers g).

Lemma pair_landscape_sound l c :
  72 ≤ c ≤ 120 →
  sound_both (mk_geometry l Landscape 800 480 (Some (mk_rect 0 0 396 (480 - c)))
    (Some (mk_rect 404 0 396 (480 - c))) (Some (mk_rect 0 (480 - c) 396 c))
    (Some (mk_rect 404 (480 - c) 396 c)) [mk_rect 0 (480 - c) 396 c; mk_rect 404 (480 - c) 396 c] 8).
Proof. intros Hc. split; geometry. Qed.

Lemma pair_portrait_sound l c :
  59 ≤ c ≤ 99 →
  sound_both (mk_geometry l Portrait 480 800 (Some (mk_rect 0 0 480 (396 - c)))
    (Some (mk_rect 0 404 480 (396 - c))) (Some (mk_rect 0 (396 - c) 480 c))
    (Some (mk_rect 0 (404 + (396 - c)) 480 c))
    [mk_rect 0 (396 - c) 480 c; mk_rect 0 (404 + (396 - c)) 480 c] 8).
Proof. intros Hc. split; geometry. Qed.

Lemma adaptive_landscape_sound c :
  71 ≤ c ≤ 99 →
  sound_both (mk_geometry AdaptiveMemory Landscape 800 480 (Some (mk_rect (0 + c + 8) 0 (396 - c - 8) 480))
    (Some (mk_rect (404 + c + 8) 0 (800 - (404 + c) - 8) 480)) (Some (mk_rect 0 0 c 480))
    (Some (mk_rect 404 0 c 480)) [mk_rect 0 0 c 480; mk_rect 404 0 c 480] 8).
Proof. intros Hc. split; geometry. Qed.

Lemma single_info_sound l o w h g :
  (w, h) = match o with Portrait => (480, 800) | Landscape => (800, 480) end →
  (portrait_only l = true → o = Portrait) →
  single_info_geometry l o w h = Ok g → sound g.
Proof.
  intros E Ho H. destruct o; injection E as -> ->; destruct l; try discriminate H;
    try (by specialize (Ho eq_refl)); injection H as <-; geometry.
Qed.

(** The caption sizes that occur, whatever the ratio. *)
Lemma caption_480 r : 72 ≤ caption_size 480 (dec 15 100) r ≤ 120.
Proof. apply caption_size_bounds; by vm_compute. Qed.
Lemma caption_396 r : 59 ≤ caption_size 396 (dec 15 100) r ≤ 99.
Proof. apply caption_size_bounds; by vm_compute. Qed.
Lemma caption_396_side r : 71 ≤ caption_size 396 (dec 18 100) r ≤ 99.
Proof. apply caption_size_bounds; by vm_compute. Qed.

Lemma pair_sound l o r g :
  (l = PhotoPair ∨ l = PhotoPairCaption) →
  (∃ cw ch, resolve_layout_geometry l o cw ch r = Ok g) → sound_both g.
Proof.
  intros Hl (cw & ch & H). unfold resolve_layout_geometry in H.
  apply rbind_ok in H as ([w h] & Hc%canvas_cases & H).
  match type of H with context [if ?b then r else ?e] =>
    generalize dependent (if b then r else e) end; intros ratio H.
  assert (portrait_only l = false) as Hp by (by destruct Hl as [-> | ->]). rewrite Hp in *.
  destruct o; injection Hc as -> ->.
  - pose proof (caption_396 ratio) as Hr.
    destruct Hl as [-> | ->]; injection H as <-; change ((800 - 8) / 2) with 396;
      generalize dependent (caption_size 396 (dec 15 100) ratio); intros c Hr;
      exact (pair_portrait_sound _ c Hr).
  - pose proof (caption_480 ratio) as Hr.
    destruct Hl as [-> | ->]; injection H as <-; change ((800 - 8) / 2) with 396;
      generalize dependent (caption_size 480 (dec 15 100) ratio); intros c Hr;
      exact (pair_landscape_sound _ c Hr).
Qed.

(** C39. Every supported layout is drawable on the panel: whatever the
    orientation, the canvas order and the caption ratio (even NaN), the photo
    and caption slots are non-empty rectangles inside the frame that do not
    overlap, and the information bands are inside it too. *)
Theorem resolve_layout_geometry_sound l o cw ch r g :
  resolve_layout_geometry l o cw ch r = Ok g → sound g.
Proof.
  intros H. destruct (decide (l = PhotoPair ∨ l = PhotoPairCaption)) as [Hl|Hl].
  - apply (pair_sound l o r g Hl). eauto.
  - unfold resolve_layout_geometry in H. apply rbind_ok in H as ([w h] & Hc%canvas_cases & H).
    apply (single_info_sound l (if portrait_only l then Portrait else o) w h); [done| |].
    + by intros ->.
    + destruct l; try exact H; exfalso; auto.
Qed.

(** So is the two-photo Adaptive Memory frame, with its captions beside
    or below the photos, and also after the date footers were cut out of it. *)
Theorem adaptive_pair_geometry_sound o cw ch r g :
  resolve_adaptive_pair_geometry o cw ch r = Ok g → sound g ∧ sound (with_photo_date_footers g).
Proof.
  unfold resolve_adaptive_pair_geometry. intros ([w h] & Hc%canvas_cases & H)%rbind_ok.
  match type of H with context [if ?b then r else ?e] =>
    generalize dependent (if b then r else e) end; intros ratio H.
  destruct o; injection Hc as -> ->.
  - apply rbind_ok in H as (p & Hp & H). injection H as <-.
    destruct (pair_sound PhotoPairCaption Portrait ratio p) as [[A B C D] [A' B' C' D']]; [by right|eauto|].
    unfold resolve_layout_geometry in Hp. apply rbind_ok in Hp as ([w h] & Hc%canvas_cases & Hp).
    injection Hc as -> ->. injection Hp as <-. by split; split.
  - injection H as <-. change ((800 - 8) / 2) with 396. pose proof (caption_396_side ratio) as Hr.
    generalize dependent (caption_size 396 (dec 18 100) ratio). intros c Hr.
    exact (adaptive_landscape_sound c Hr).
Qed.

(** The compact pair fills the panel edge to edge: for any two positive
    source sizes both photos get at least one column, all slots are disjoint
    and inside the 800x480 frame, and the last photo ends at the outer margin. *)
Theorem compact_pair_sound s1 s2 compact g :
  resolve_compact_pair_geometry s1 s2 compact = Ok g →
  sound g ∧ ∃ p, secondary_photo g = Some p ∧ right p = 800 - (if compact then 0 else 4).
Proof.
  unfold resolve_compact_pair_geometry. intros (_ & _ & H)%rbind_ok.
  destruct compact; injection H as <-;
    match goal with |- context [ftrunc ?e] => generalize (ftrunc e) end; intros f;
    (split; [|eexists; split; [reflexivity|unfold right; cbn [x width]; lia]]); geometry.
Qed.

Lemma resolve_layout_geometry_sound_witness :
  ∃ g, resolve_layout_geometry PhotoPair Portrait 800 480 (dec 20 100) = Ok g ∧ sound g.
Proof.
  eexists. split; [reflexivity|].
  apply (resolve_layout_geometry_sound PhotoPair Portrait 800 480 (dec 20 100)). reflexivity.
Defined.

Lemma adaptive_pair_geometry_sound_witness :
  ∃ g, resolve_adaptive_pair_geometry Landscape 800 480 (dec 20 100) = Ok g ∧ sound g.
Proof.
  eexists. split; [reflexivity|].
  apply (adaptive_pair_geometry_sound Landscape 800 480 (dec 20 100)). reflexivity.
Defined.

Lemma compact_pair_sound_witness :
  ∃ g, resolve_compact_pair_geometry (4000, 3000) (3000, 4000) true = Ok g ∧ sound g.
Proof.
  eexists. split; [reflexivity|].
  apply (compact_pair_sound (4000, 3000) (3000, 4000) true). reflexivity.
Defined.
