(* ===== verification/Panel.v ===== *)
(** * Panel palettes and packing

    Models the integer core of [inktime/app/domain/rendering/palette.py]: the
    display profiles, the Waveshare six-colour quantizer with its error
    diffusion, and the packing of palette indexes into the panel's binary
    format.  A bytearray is a [list Z] of bytes.  The float colour maths
    (OkLab, Lab, Pillow and numpy filters) is not modelled. *)

From S2P Require Import Prelude PyStr PyFloat.
Local Open Scope Z_scope.

Inductive pixel_format : Type := F2bpp | FIndexed4.

Record PaletteColor := mk_color { code : Z; color_name : string; rgb : Z * Z * Z }.

Record DisplayProfile := mk_profile {
  key : string; pixel_format_of : pixel_format; colors : list PaletteColor }.

Definition safe_4c : DisplayProfile := mk_profile "safe_4c" F2bpp
  [mk_color 0 "black" (0, 0, 0); mk_color 1 "white" (255, 255, 255);
   mk_color 2 "red" (220, 30, 30); mk_color 3 "yellow" (245, 190, 25)].

Definition six_colors : list PaletteColor :=
  [mk_color 0 "black" (0, 0, 0); mk_color 1 "white" (255, 255, 255);
   mk_color 2 "green" (25, 155, 70); mk_color 3 "blue" (30, 85, 170);
   mk_color 4 "red" (210, 35, 35); mk_color 5 "yellow" (240, 195, 25)].

Definition gdep073e01_6c : DisplayProfile := mk_profile "gdep073e01_6c" FIndexed4 six_colors.
Definition gdey073d46_7c : DisplayProfile := mk_profile "gdey073d46_7c" FIndexed4
  (six_colors ++ [mk_color 6 "orange" (240, 110, 20)]).

Definition get_display_profile (k : string) : option DisplayProfile :=
  List.find (λ p, String.eqb (key p) k) [safe_4c; gdep073e01_6c; gdey073d46_7c].

(** Pixels per byte and bits per pixel. *)
Definition per_byte (f : pixel_format) : nat := match f with F2bpp => 4 | FIndexed4 => 2 end.
Definition bits (f : pixel_format) : Z := match f with F2bpp => 2 | FIndexed4 => 4 end.

Definition bytes_per_image (f : pixel_format) : Z := 480 * 800 / Z.of_nat (per_byte f).

(** [6 - (index % 4) * 2], or [4 if index % 2 == 0 else 0] *)
Definition shift_of (f : pixel_format) (index : nat) : Z :=
  match f with
  | F2bpp => 6 - Z.of_nat (index mod 4) * 2
  | FIndexed4 => if (index mod 2 =? 0)%nat then 4 else 0
  end.

(** One turn of the packing loop: [payload[index // n] |= code << shift]. *)
Definition pack_step (f : pixel_format) (payload : list Z) (ic : nat * Z) : list Z :=
  alter (λ b, Z.lor b (Z.shiftl ic.2 (shift_of f ic.1))) (ic.1 / per_byte f)%nat payload.

Definition pack_codes (f : pixel_format) (codes : list Z) : list Z :=
  fold_left (pack_step f) (zip (seq 0 (length codes)) codes)
    (replicate ((length codes + (per_byte f - 1)) / per_byte f)%nat 0).

(** The tail of [encode_image]; an index outside the palette is an IndexError. *)
Definition encode_indexes (p : DisplayProfile) (indexes : list nat) : option (list Z) :=
  match mapM (λ i, code <$> colors p !! i) indexes with
  | Some codes => Some (pack_codes (pixel_format_of p) codes)
  | None => None
  end.

(** The pixel at one index of [_unpack_indices]: [(payload[index // n] >> shift) & mask],
    an IndexError outside the payload. *)
Definition unpack_code (f : pixel_format) (payload : list Z) (index : nat) : option Z :=
  b ← payload !! (index / per_byte f)%nat;
  Some (Z.land (Z.shiftr b (shift_of f index)) (2 ^ bits f - 1)).

(** ** The Waveshare six-colour quantizer *)

Definition waveshare_six_color_index (red green blue : Z) : nat :=
  if 128 <=? blue then
    if 128 <=? red then
      if (128 <=? green) || ((255 <=? red + green) && (255 <=? blue + green)) then 1
      else if blue <=? red then 3 else 4
    else if 128 <=? green then
      if (255 <=? red + green) && (255 <=? red + blue) then 1
      else if green <=? blue then 4 else 5
    else 4
  else if 128 <=? red then if 128 <=? green then 2 else 3
  else if 128 <=? green then 5 else 0.

Definition waveshare_colors : list (Z * Z * Z) :=
  [(0, 0, 0); (255, 255, 255); (255, 255, 0); (255, 0, 0); (0, 0, 255); (0, 255, 0)].
Definition waveshare_logical : list nat := [0; 1; 5; 4; 3; 2]%nat.

(** [np.clip(np.rint(value + error * numerator / 16), 0, 255)]: the quotient by
    16 is exact in binary64, [rint] rounds ties to even. *)
Definition diffused (numerator error value : Z) : Z :=
  Z.max 0 (Z.min 255 (rdiv_even (16 * value + error * numerator) 16)).

Abbreviation pixel := (Z * Z * Z)%type.

Definition diffuse_pixel (numerator : Z) (e p : pixel) : pixel :=
  let '(er, eg, eb) := e in
  let '(r, g, b) := p in
  (diffused numerator er r, diffused numerator eg g, diffused numerator eb b).

(** The neighbours that exist, with their weights, in the order of the code. *)
Definition neighbors (w h px py : nat) : list (nat * Z) :=
  let o := (py * w + px)%nat in
  (if (px + 1 <? w)%nat then [((o + 1)%nat, 7)] else [])
  ++ (if (py + 1 <? h)%nat
      then (if (0 <? px)%nat then [((o + w - 1)%nat, 3)] else []) ++ [((o + w)%nat, 5)]
           ++ (if (px + 1 <? w)%nat then [((o + w + 1)%nat, 1)] else [])
      else []).

(** One pixel of the loop: the work buffer (as pixels) and the indexes so far. *)
Definition quantize_step (w h : nat) (acc : list pixel * list nat) (o : nat) : list pixel * list nat :=
  let '(work, out) := acc in
  match work !! o with
  | None => acc
  | Some (r, g, b) =>
      let chosen := waveshare_six_color_index r g b in
      let '(cr, cg, cb) := default (0, 0, 0) (waveshare_colors !! chosen) in
      let e := (r - cr, g - cg, b - cb) in
      (fold_left (λ l nb, alter (diffuse_pixel nb.2 e) nb.1 l) (neighbors w h (o mod w) (o / w)) work,
       out ++ [default 0%nat (waveshare_logical !! chosen)])
  end.

Definition quantize_waveshare_six_color (w h : nat) (image : list pixel) : list nat :=
  (fold_left (quantize_step w h) (seq 0 (w * h)) (image, [])).2.

(** ** Packing loses nothing *)

Definition code_ok (f : pixel_format) (c : Z) : Prop := 0 ≤ c < 2 ^ bits f.

Lemma shift_slots f i j c :
  code_ok f c →
  Z.land (Z.shiftr (Z.shiftl c (shift_of f i)) (shift_of f j)) (2 ^ bits f - 1) =
  if bool_decide (i mod per_byte f = j mod per_byte f)%nat then c else 0.
Proof.
  unfold code_ok, shift_of. intros Hc. destruct f; cbn [per_byte bits] in *.
  - pose proof (Nat.mod_upper_bound i 4 ltac:(lia)). pose proof (Nat.mod_upper_bound j 4 ltac:(lia)).
    change (2 ^ 2) with 4 in *. assert (c = 0 ∨ c = 1 ∨ c = 2 ∨ c = 3) as Hcs by lia.
    assert (∀ n, (n < 4)%nat → n = 0%nat ∨ n = 1%nat ∨ n = 2%nat ∨ n = 3%nat) as H4 by lia.
    destruct (H4 (i mod 4)%nat) as [->|[->|[->| ->]]]; [done|..];
      destruct (H4 (j mod 4)%nat) as [->|[->|[->| ->]]]; try done;
      destruct Hcs as [->|[->|[->| ->]]]; reflexivity.
  - pose proof (Nat.mod_upper_bound i 2 ltac:(lia)). pose proof (Nat.mod_upper_bound j 2 ltac:(lia)).
    change (2 ^ 4) with 16 in *.
    assert (c ∈ map Z.of_nat (seq 0 16)) as Hcs.
    { apply list_elem_of_fmap. exists (Z.to_nat c). split; [lia|]. apply elem_of_seq. lia. }
    assert (∀ n, (n < 2)%nat → n = 0%nat ∨ n = 1%nat) as H2 by lia.
    destruct (H2 (i mod 2)%nat) as [->| ->]; [done|..]; destruct (H2 (j mod 2)%nat) as [->| ->]; try done;
      simpl in Hcs; rewrite ?elem_of_cons, ?elem_of_nil in Hcs;
      repeat destruct Hcs as [->|Hcs]; reflexivity || done.
Qed.

(** Bits already written elsewhere in the byte are kept. *)
Lemma or_slot f b c i j :
  code_ok f c →
  Z.land (Z.shiftr (Z.lor b (Z.shiftl c (shift_of f i))) (shift_of f j)) (2 ^ bits f - 1) =
  Z.lor (Z.land (Z.shiftr b (shift_of f j)) (2 ^ bits f - 1))
    (if bool_decide (i mod per_byte f = j mod per_byte f)%nat then c else 0).
Proof. intros Hc. by rewrite Z.shiftr_lor, Z.land_lor_distr_l, shift_slots. Qed.

Lemma same_slot f i j :
  (i / per_byte f = j / per_byte f)%nat → (i mod per_byte f = j mod per_byte f)%nat → i = j.
Proof.
  intros Hd Hm. assert (per_byte f ≠ 0)%nat as Hn by (by destruct f).
  rewrite (Nat.div_mod i _ Hn), (Nat.div_mod j _ Hn). congruence.
Qed.

(** After [n] turns: the first [n] codes can be read back, the rest reads 0. *)
Definition packed_upto (f : pixel_format) (codes : list Z) (n : nat) (payload : list Z) : Prop :=
  ∀ i, (i < length codes)%nat →
    unpack_code f payload i = Some (if (i <? n)%nat then nth i codes 0 else 0).

Lemma pack_step_unpack f codes n c payload :
  codes !! n = Some c → code_ok f c → packed_upto f codes n payload →
  packed_upto f codes (S n) (pack_step f payload (n, c)).
Proof.
  intros Hn Hc Hp i Hi. specialize (Hp i Hi). unfold pack_step, unpack_code in *. cbn [fst snd].
  assert (nth n codes 0 = c) as Hnth by (by apply nth_lookup_Some).
  destruct (decide (n / per_byte f = i / per_byte f)%nat) as [E|E].
  - rewrite E, list_lookup_alter, decide_True by done. destruct (payload !! (i / per_byte f)%nat) as [b|]; [|done].
    cbn [mbind option_bind fmap option_fmap option_map] in *. injection Hp as Hp. f_equal.
    rewrite or_slot by done. rewrite Hp.
    destruct (decide (n = i)) as [->|Hne].
    + rewrite bool_decide_eq_true_2 by done. rewrite (proj2 (Nat.ltb_ge i i)) by lia.
      rewrite (proj2 (Nat.ltb_lt i (S i))) by lia. by rewrite Z.lor_0_l.
    + rewrite bool_decide_eq_false_2 by (intros Hm; by apply Hne, (same_slot f)).
      rewrite Z.lor_0_r. destruct (Nat.ltb_spec i n), (Nat.ltb_spec i (S n)); try done; lia.
  - rewrite list_lookup_alter_ne by done. rewrite Hp. f_equal.
    destruct (Nat.ltb_spec i n), (Nat.ltb_spec i (S n)); try done; [lia|].
    assert (i = n) as -> by lia. done.
Qed.

Lemma pack_fold_unpack f codes m n payload :
  Forall (code_ok f) codes → (n + m = length codes)%nat → packed_upto f codes n payload →
  packed_upto f codes (length codes)
    (fold_left (pack_step f) (zip (seq n m) (drop n codes)) payload).
Proof.
  intros Hc. revert n payload. induction m as [|m IH]; intros n payload Hl Hp.
  { assert (n = length codes) as -> by lia. done. }
  destruct (lookup_lt_is_Some_2 codes n) as [c Hn]; [lia|].
  rewrite (drop_S codes c n Hn). simpl. apply IH; [lia|].
  apply pack_step_unpack; [done| |done]. rewrite Forall_forall in Hc. by eapply Hc, list_elem_of_lookup_2.
Qed.

Lemma pack_length f codes : length (pack_codes f codes) = ((length codes + (per_byte f - 1)) / per_byte f)%nat.
Proof.
  unfold pack_codes. set (p := replicate _ 0). assert (length p = ((length codes + (per_byte f - 1)) / per_byte f)%nat)
    as <- by apply length_replicate. clearbody p. revert p. generalize (zip (seq 0 (length codes)) codes).
  intros l. induction l as [|ic l IH]; intros p; [done|]. simpl. rewrite IH. apply length_alter.
Qed.

Lemma pack_unpack f codes i :
  Forall (code_ok f) codes → (i < length codes)%nat → unpack_code f (pack_codes f codes) i = codes !! i.
Proof.
  intros Hc Hi.
  assert (packed_upto f codes 0 (replicate ((length codes + (per_byte f - 1)) / per_byte f)%nat 0)) as H0.
  { intros j Hj. unfold unpack_code. rewrite lookup_replicate_2.
    - simpl. by rewrite Z.shiftr_0_l.
    - assert (per_byte f ≠ 0)%nat as Hn by (by destruct f). apply Nat.Div0.div_lt_upper_bound.
      pose proof (Nat.div_mod (length codes + (per_byte f - 1)) _ Hn).
      pose proof (Nat.mod_upper_bound (length codes + (per_byte f - 1)) _ Hn). lia. }
  pose proof (pack_fold_unpack f codes (length codes) 0 _ Hc eq_refl H0 i Hi) as H. rewrite drop_0 in H.
  unfold pack_codes. rewrite H, (proj2 (Nat.ltb_lt i (length codes))) by done.
  destruct (codes !! i) eqn:E; [by rewrite (nth_lookup_Some _ _ _ _ E)|]. apply lookup_ge_None in E. lia.
Qed.

(** ** The quantizer picks the nearest vertex *)

Definition distance2 (r g b : Z) (c : Z * Z * Z) : Z :=
  let '(cr, cg, cb) := c in (r - cr) * (r - cr) + (g - cg) * (g - cg) + (b - cb) * (b - cb).

Definition channel (v : Z) : Prop := 0 ≤ v ≤ 255.

(** For every 8-bit colour, the chosen palette vertex is nearest in RGB
    among the six, and the first such in palette order. *)
Theorem waveshare_index_nearest r g b :
  channel r → channel g → channel b →
  let i := waveshare_six_color_index r g b in
  ∃ c, waveshare_colors !! i = Some c ∧
    (∀ j c', waveshare_colors !! j = Some c' → distance2 r g b c ≤ distance2 r g b c') ∧
    (∀ j c', (j < i)%nat → waveshare_colors !! j = Some c' → distance2 r g b c < distance2 r g b c').
Proof.
  unfold channel, waveshare_six_color_index. intros Hr Hg Hb. cbv zeta.
  assert (∀ j c' (P : nat → Z * Z * Z → Prop), waveshare_colors !! j = Some c' →
    P 0%nat (0, 0, 0) → P 1%nat (255, 255, 255) → P 2%nat (255, 255, 0) → P 3%nat (255, 0, 0) →
    P 4%nat (0, 0, 255) → P 5%nat (0, 255, 0) → P j c') as Hall.
  { intros j c' P Hj ??????. do 6 (destruct j as [|j]; [by injection Hj as <-|]). by destruct j. }
  repeat match goal with |- context [if ?b then _ else _] => destruct b eqn:? end; bprop;
    (eexists; split; [reflexivity|]); (split; [intros j c' Hj|intros j c' Hlt Hj; revert Hlt]);
    apply (Hall j c' (λ j c, _) Hj); unfold distance2; intros; lia.
Qed.

Lemma waveshare_index_nearest_witness :
  ∃ c, waveshare_colors !! waveshare_six_color_index 200 180 40 = Some c ∧ c = (255, 255, 0).
Proof.
  destruct (waveshare_index_nearest 200 180 40) as (c & Hc & _); [unfold channel; lia..|].
  exists c. split; [exact Hc|]. injection Hc as <-. reflexivity.
Defined.

(** ** Error diffusion stays within a byte and yields panel codes *)

Definition pixel_ok (p : pixel) : Prop := let '(r, g, b) := p in channel r ∧ channel g ∧ channel b.

Lemma diffused_channel n e v : channel (diffused n e v).
Proof. unfold channel, diffused. lia. Qed.

Lemma diffuse_pixel_ok n e p : pixel_ok (diffuse_pixel n e p).
Proof. destruct e as [[er eg] eb], p as [[r g] b]. repeat split; apply diffused_channel. Qed.

Lemma alter_ok n e i l : Forall pixel_ok l → Forall pixel_ok (alter (diffuse_pixel n e) i l).
Proof.
  intros Hl. apply Forall_lookup. intros j p Hp. rewrite list_lookup_alter in Hp.
  rewrite Forall_lookup in Hl. case_decide; [|by eapply Hl].
  apply fmap_Some in Hp as (q & _ & ->). apply diffuse_pixel_ok.
Qed.

Definition work_ok (n : nat) (l : list pixel) : Prop := length l = n ∧ Forall pixel_ok l.

Lemma diffusion_ok n e nbs l :
  work_ok n l → work_ok n (fold_left (λ l nb, alter (diffuse_pixel nb.2 e) nb.1 l) nbs l).
Proof.
  revert l. induction nbs as [|nb nbs IH]; intros l [Hn Hl]; [done|]. simpl. apply IH.
  split; [by rewrite length_alter|by apply alter_ok].
Qed.

Lemma index_in_palette r g b : (default 0 (waveshare_logical !! waveshare_six_color_index r g b) < 6)%nat.
Proof. unfold waveshare_six_color_index. repeat case_goal; simpl; lia. Qed.

Lemma quantize_step_ok w h work out o :
  work_ok (w * h) work → Forall (λ i, i < 6)%nat out → (o < w * h)%nat →
  let '(work', out') := quantize_step w h (work, out) o in
  work_ok (w * h) work' ∧ Forall (λ i, i < 6)%nat out' ∧ length out' = S (length out).
Proof.
  intros Hw Ho Hlt. unfold quantize_step.
  destruct (lookup_lt_is_Some_2 work o) as [[[r g] b] E]; [by rewrite (proj1 Hw)|]. rewrite E.
  destruct (default (0, 0, 0) (waveshare_colors !! waveshare_six_color_index r g b)) as [[cr cg] cb].
  split; [by apply diffusion_ok|]. split.
  - apply Forall_app. split; [done|]. constructor; [apply index_in_palette|constructor].
  - rewrite length_app. simpl. lia.
Qed.

Lemma quantize_fold_ok w h os work out :
  work_ok (w * h) work → Forall (λ i, i < 6)%nat out → Forall (λ o, o < w * h)%nat os →
  let r := (fold_left (quantize_step w h) os (work, out)).2 in
  Forall (λ i, i < 6)%nat r ∧ length r = (length out + length os)%nat.
Proof.
  revert work out. induction os as [|o os IH]; intros work out Hw Ho Hos; cbn [fold_left]; [split; [done|simpl; lia]|].
  apply Forall_cons in Hos as [Hlt Hos]. pose proof (quantize_step_ok w h work out o Hw Ho Hlt) as H.
  destruct (quantize_step w h (work, out) o) as [work' out']. destruct H as (Hw' & Ho' & Hl).
  destruct (IH work' out' Hw' Ho' Hos) as [Hr Hlen]. split; [exact Hr|]. rewrite Hlen, Hl. simpl. lia.
Qed.

Lemma codes_of_indexes idx :
  Forall (λ i, i < 6)%nat idx → mapM (λ i, code <$> colors gdep073e01_6c !! i) idx = Some (map Z.of_nat idx).
Proof.
  intros H. apply mapM_Some, Forall2_fmap_r, Forall_Forall2_diag.
  eapply Forall_impl; [exact H|]. intros i Hi. cbn [colors gdep073e01_6c].
  do 6 (destruct i as [|i]; [done|]). lia.
Qed.

(** Quantizing any 8-bit image for the six-colour panel always yields a
    frame the panel can show: encoding succeeds, and every pixel of the
    payload reads back as one of the six codes. *)
Theorem waveshare_frame_encodes w h image :
  length image = (w * h)%nat → Forall pixel_ok image →
  ∃ payload, encode_indexes gdep073e01_6c (quantize_waveshare_six_color w h image) = Some payload ∧
    ∀ i, (i < w * h)%nat → ∃ c, unpack_code FIndexed4 payload i = Some c ∧ 0 ≤ c ≤ 5.
Proof.
  intros Hl Hp. unfold quantize_waveshare_six_color.
  destruct (quantize_fold_ok w h (seq 0 (w * h)) image []) as [Hr Hlen]; [done|done| |].
  { apply Forall_forall. intros o Ho. apply elem_of_seq in Ho. lia. }
  rewrite length_seq in Hlen. simpl in Hlen. set (idx := (fold_left _ _ _).2) in *. clearbody idx.
  unfold encode_indexes. rewrite codes_of_indexes by done. eexists. split; [reflexivity|].
  intros i Hi. cbn [pixel_format_of gdep073e01_6c]. rewrite pack_unpack.
  - destruct (lookup_lt_is_Some_2 idx i) as [n Hn]; [lia|]. exists (Z.of_nat n).
    rewrite list_lookup_fmap, Hn. split; [done|]. rewrite Forall_lookup in Hr. apply Hr in Hn. lia.
  - apply Forall_fmap. eapply Forall_impl; [exact Hr|]. unfold code_ok. simpl. intros x Hx. lia.
  - rewrite length_map. lia.
Qed.

Lemma waveshare_frame_encodes_witness :
  ∃ payload, encode_indexes gdep073e01_6c
    (quantize_waveshare_six_color 2 2 [(250, 10, 10); (100, 100, 100); (0, 0, 200); (255, 255, 255)]) = Some payload.
Proof.
  destruct (waveshare_frame_encodes 2 2 [(250, 10, 10); (100, 100, 100); (0, 0, 200); (255, 255, 255)])
    as (p & Hp & _); [reflexivity|repeat constructor; unfold channel; lia|].
  exists p. exact Hp.
Defined.
