(* ===== verification/Stock.v ===== *)
(** * The Stock PhotoPainter protocol

    Models [inktime/app/domain/photopainter/stock_protocol.py]: reading the
    packed production frame, the portrait-to-physical transform, and the
    mode-byte-plus-BMP24 body of [/dataUP].  An RGB888 buffer is the list of
    its pixels in row-major order (three bytes each); the frame size is a
    parameter of the loops, 480x800 in the code. *)

From S2P Require Import Prelude PyStr PyFloat Panel.
Local Open Scope Z_scope.

Inductive stock_exn : Type :=
| OutOfRange | BadBinSize | UnknownCode | RgbMismatch | BadMode | IndexError.

Definition read_indexed4 (payload : list Z) (i : nat) : result stock_exn Z :=
  match payload !! (i / 2)%nat with
  | Some b => Ok (if (i mod 2 =? 0)%nat then Z.shiftr b 4 else Z.land b 15)
  | None => Raise OutOfRange
  end.

Definition read_2bpp (payload : list Z) (i : nat) : result stock_exn Z :=
  match payload !! (i / 4)%nat with
  | Some b => Ok (Z.land (Z.shiftr b (6 - Z.of_nat (i mod 4) * 2)) 3)
  | None => Raise OutOfRange
  end.

Definition reader (f : pixel_format) : list Z → nat → result stock_exn Z :=
  match f with FIndexed4 => read_indexed4 | F2bpp => read_2bpp end.

(** [_unpack_indices]: the size must be that of a frame that fills its bytes. *)
Definition _unpack_indices (f : pixel_format) (width height : nat) (payload : list Z) : result stock_exn (list Z) :=
  let pixels := (width * height)%nat in
  raise_if (negb (length payload =? pixels / per_byte f)%nat) BadBinSize ;;;
  match mapM (unpack_code f payload) (seq 0 pixels) with Some indices => Ok indices | None => Raise IndexError end.

Definition stock_palette (f : pixel_format) : list (Z * Z * Z) :=
  match f with
  | FIndexed4 => [(0, 0, 0); (255, 255, 255); (0, 255, 0); (0, 0, 255); (255, 0, 0); (255, 255, 0)]
  | F2bpp => [(0, 0, 0); (255, 255, 255); (255, 0, 0); (255, 255, 0)]
  end.

Definition color_of (f : pixel_format) (c : Z) : option (Z * Z * Z) :=
  if 0 <=? c then stock_palette f !! Z.to_nat c else None.

(** [portrait_to_physical] on a [w] by [h] logical frame: the physical frame
    is [h] wide and [w] high. *)
Definition portrait_to_physical (w h px py : nat) (rotate180 : bool) : nat * nat :=
  if rotate180 then (py, w - 1 - px)%nat else (h - 1 - py, px)%nat.

(** The offset of a logical pixel in the physical buffer. *)
Definition physical_index (w h : nat) (rotate180 : bool) (i : nat) : nat :=
  let '(qx, qy) := portrait_to_physical w h (i mod w) (i / w) rotate180 in (qy * h + qx)%nat.

(** The double loop of [packed_to_rgb888], row by row. *)
Fixpoint paint (f : pixel_format) (w h : nat) (rotate180 : bool) (payload : list Z)
    (is_ : list nat) (out : list (Z * Z * Z)) : result stock_exn (list (Z * Z * Z)) :=
  match is_ with
  | [] => Ok out
  | i :: is' =>
      let* c := reader f payload i in
      match color_of f c with
      | None => Raise UnknownCode
      | Some rgb => paint f w h rotate180 payload is' (<[physical_index w h rotate180 i := rgb]> out)
      end
  end.

Definition packed_to_rgb888 (f : pixel_format) (w h : nat) (rotate180 : bool) (payload : list Z)
  : result stock_exn (list (Z * Z * Z)) :=
  raise_if (negb (length payload =? w * h / per_byte f)%nat) BadBinSize ;;;
  paint f w h rotate180 payload (seq 0 (w * h)) (replicate (w * h) (0, 0, 0)).

(** ** BMP24 *)

Definition le (n : nat) (v : Z) : list Z := map (λ k, (v / 256 ^ Z.of_nat k) mod 256) (seq 0 n).

Definition stride (w : nat) : Z := Z.land (Z.of_nat w * 3 + 3) (Z.lnot 3).

Definition bmp_header (w h : nat) : list Z :=
  let pixel_bytes := stride w * Z.of_nat h in
  [66; 77] ++ le 4 (54 + pixel_bytes) ++ le 2 0 ++ le 2 0 ++ le 4 54 ++ le 4 40
  ++ le 4 (Z.of_nat w) ++ le 4 (Z.of_nat h) ++ le 2 1 ++ le 2 24 ++ le 4 0 ++ le 4 pixel_bytes
  ++ le 4 2835 ++ le 4 2835 ++ le 4 0 ++ le 4 0.

Definition bgr (p : Z * Z * Z) : list Z := let '(r, g, b) := p in [b; g; r].

(** One output row: the pixels of row [py], then the padding. *)
Definition bmp_row (rgb : list (Z * Z * Z)) (w py : nat) : list Z :=
  flat_map bgr (take w (drop (py * w) rgb)) ++ replicate (Z.to_nat (stride w) - 3 * w) 0.

(** [for y in range(height - 1, -1, -1)] *)
Definition bmp_body (rgb : list (Z * Z * Z)) (w h : nat) : list Z :=
  flat_map (bmp_row rgb w) (reverse (seq 0 h)).

Definition encode_bmp24 (rgb : list (Z * Z * Z)) (w h : nat) : result stock_exn (list Z) :=
  raise_if ((w =? 0)%nat || (h =? 0)%nat || negb (length rgb =? w * h)%nat) RgbMismatch ;;;
  Ok (bmp_header w h ++ bmp_body rgb w h).

(** [stock_dataup_payload] *)
Definition stock_dataup_payload (f : pixel_format) (w h : nat) (rotate180 : bool) (network_mode : Z)
    (payload : list Z) : result stock_exn (list Z) :=
  raise_if (negb ((network_mode =? 0) || (network_mode =? 1))) BadMode ;;;
  let* rgb := packed_to_rgb888 f w h rotate180 payload in
  let* bmp := encode_bmp24 rgb h w in
  Ok (network_mode :: bmp).

(** ** The transform is a bijection *)

Lemma physical_index_bound w h rot i : (i < w * h)%nat → (physical_index w h rot i < w * h)%nat.
Proof.
  intros Hi. assert (w ≠ 0)%nat as Hw by lia. pose proof (Nat.mod_upper_bound i w Hw) as Hx.
  assert (i / w < h)%nat as Hy by (apply Nat.Div0.div_lt_upper_bound; lia).
  unfold physical_index, portrait_to_physical. destruct rot; nia.
Qed.

Lemma physical_index_inj w h rot i j :
  (i < w * h)%nat → (j < w * h)%nat → physical_index w h rot i = physical_index w h rot j → i = j.
Proof.
  intros Hi Hj. assert (w ≠ 0)%nat as Hw by lia.
  pose proof (Nat.mod_upper_bound i w Hw). pose proof (Nat.mod_upper_bound j w Hw).
  assert (i / w < h)%nat by (apply Nat.Div0.div_lt_upper_bound; lia).
  assert (j / w < h)%nat by (apply Nat.Div0.div_lt_upper_bound; lia).
  pose proof (Nat.div_mod i w Hw) as Di. pose proof (Nat.div_mod j w Hw) as Dj.
  unfold physical_index, portrait_to_physical. destruct rot; intros E;
    rewrite !(Nat.mul_comm _ h) in E; apply Nat.div_mod_unique in E as [E1 E2]; try lia.
  - assert (i mod w = j mod w ∧ i / w = j / w)%nat as [Em Ed] by lia. by rewrite Di, Dj, Em, Ed.
Qed.

(** ** Painting *)

Lemma paint_length f w h rot payload is_ out out' :
  paint f w h rot payload is_ out = Ok out' → length out' = length out.
Proof.
  revert out. induction is_ as [|i is_ IH]; intros out H; simpl in H; [by injection H as <-|].
  apply rbind_ok in H as (c & _ & H). destruct (color_of f c); [|done]. apply IH in H.
  by rewrite length_insert in H.
Qed.

Lemma paint_keeps f w h rot payload is_ out out' k :
  paint f w h rot payload is_ out = Ok out' → k ∉ map (physical_index w h rot) is_ → out' !! k = out !! k.
Proof.
  revert out. induction is_ as [|i is_ IH]; intros out H Hk; simpl in H; [by injection H as <-|].
  simpl in Hk. rewrite not_elem_of_cons in Hk. destruct Hk as [Hne Hk].
  apply rbind_ok in H as (c & _ & H). destruct (color_of f c); [|done].
  rewrite (IH _ H Hk). by apply list_lookup_insert_ne.
Qed.

Lemma paint_sets f w h rot payload is_ out out' i :
  paint f w h rot payload is_ out = Ok out' → NoDup is_ → Forall (λ i, i < w * h)%nat is_ →
  length out = (w * h)%nat → i ∈ is_ →
  ∃ c rgb, reader f payload i = Ok c ∧ color_of f c = Some rgb ∧
           out' !! physical_index w h rot i = Some rgb.
Proof.
  revert out. induction is_ as [|j is_ IH]; intros out H Hn Hb Hl Hi; [by apply not_elem_of_nil in Hi|].
  apply NoDup_cons in Hn as [Hj Hn]. apply Forall_cons in Hb as [Hjb Hb]. simpl in H.
  apply rbind_ok in H as (c & Hc & H). destruct (color_of f c) as [rgb|] eqn:Ec; [|done].
  apply elem_of_cons in Hi as [->|Hi].
  - exists c, rgb. split; [done|]. split; [done|]. rewrite (paint_keeps _ _ _ _ _ _ _ _ _ H).
    + apply list_lookup_insert_eq. rewrite Hl. by apply physical_index_bound.
    + intros (j' & E & Hj')%list_elem_of_fmap. apply Hj. rewrite Forall_forall in Hb.
      by rewrite (physical_index_inj w h rot j j' Hjb (Hb j' Hj') E).
  - eapply IH; [exact H|done|done|by rewrite length_insert|done].
Qed.

(** A frame whose codes are all known paints. *)
Definition readable (f : pixel_format) (payload : list Z) (n : nat) : Prop :=
  ∀ i, (i < n)%nat → ∃ c, reader f payload i = Ok c ∧ is_Some (color_of f c).

Lemma paint_total f w h rot payload is_ out :
  (∀ i, i ∈ is_ → ∃ c, reader f payload i = Ok c ∧ is_Some (color_of f c)) →
  ∃ out', paint f w h rot payload is_ out = Ok out'.
Proof.
  revert out. induction is_ as [|i is_ IH]; intros out H; simpl; [by eexists|].
  destruct (H i ltac:(left)) as (c & -> & rgb & Hc). simpl. rewrite Hc. apply IH. intros j Hj. apply H. by right.
Qed.

(** Converting a production frame of the right size with known codes
    always succeeds, and places every logical pixel, whatever the rotation, at
    its own physical position: the output has one pixel per position and
    pixel (x, y) carries the colour of its code. *)
Lemma packed_to_rgb888_correct f w h rot payload :
  length payload = (w * h / per_byte f)%nat → readable f payload (w * h) →
  ∃ out, packed_to_rgb888 f w h rot payload = Ok out ∧ length out = (w * h)%nat ∧
    ∀ i, (i < w * h)%nat → ∃ c rgb, reader f payload i = Ok c ∧ color_of f c = Some rgb ∧
      out !! physical_index w h rot i = Some rgb.
Proof.
  intros Hl Hr. unfold packed_to_rgb888. rewrite (proj2 (Nat.eqb_eq _ _) Hl). simpl.
  destruct (paint_total f w h rot payload (seq 0 (w * h)) (replicate (w * h) (0, 0, 0))) as [out Ho].
  { intros i Hi%elem_of_seq. apply Hr. lia. }
  exists out. split; [done|]. pose proof (paint_length _ _ _ _ _ _ _ _ Ho) as Hlen.
  rewrite length_replicate in Hlen. split; [done|]. intros i Hi.
  eapply paint_sets; [exact Ho|apply NoDup_seq| |apply length_replicate|apply elem_of_seq; lia].
  apply Forall_forall. intros j Hj%elem_of_seq. lia.
Qed.

(** ** The bitmap *)

Lemma stride_eq w : stride w = 4 * ((Z.of_nat w * 3 + 3) / 4).
Proof.
  unfold stride. rewrite <- Z.ldiff_land. change 3 with (Z.ones 2) at 3.
  rewrite Z.ldiff_ones_r, Z.shiftl_mul_pow2, Z.shiftr_div_pow2 by lia. change (2 ^ 2) with 4. lia.
Qed.

Lemma stride_bounds w : Z.of_nat w * 3 ≤ stride w < Z.of_nat w * 3 + 4.
Proof.
  rewrite stride_eq. pose proof (Z.div_mod (Z.of_nat w * 3 + 3) 4 ltac:(lia)).
  pose proof (Z.mod_pos_bound (Z.of_nat w * 3 + 3) 4 ltac:(lia)). lia.
Qed.

Lemma flat_map_lookup {A B} (f : A → list B) n l q r :
  (∀ a, a ∈ l → length (f a) = n) → (r < n)%nat → flat_map f l !! (q * n + r)%nat = l !! q ≫= λ a, f a !! r.
Proof.
  intros Hn Hr. revert q. induction l as [|a l IH]; intros q; simpl; [done|].
  assert (length (f a) = n) as Ha by (apply Hn; left). destruct q as [|q]; simpl.
  - by rewrite lookup_app_l by lia.
  - rewrite lookup_app_r by lia. replace (n + q * n + r - length (f a))%nat with (q * n + r)%nat by lia.
    apply IH. intros b Hb. apply Hn. by right.
Qed.

Lemma flat_map_length {A B} (f : A → list B) n l :
  (∀ a, a ∈ l → length (f a) = n) → length (flat_map f l) = (length l * n)%nat.
Proof.
  induction l as [|a l IH]; intros Hn; simpl; [done|]. rewrite length_app, IH by (intros; apply Hn; by right).
  by rewrite (Hn a) by left.
Qed.

Lemma bgr_length p : length (bgr p) = 3%nat.
Proof. by destruct p as [[r g] b]. Qed.

Lemma bmp_row_length rgb w py h :
  length rgb = (w * h)%nat → (py < h)%nat → length (bmp_row rgb w py) = Z.to_nat (stride w).
Proof.
  intros Hl Hy. unfold bmp_row. pose proof (stride_bounds w).
  rewrite length_app, length_replicate, (flat_map_length bgr 3) by (intros; apply bgr_length).
  rewrite length_take, length_drop, Hl. assert (w ≤ w * h - py * w)%nat by nia. lia.
Qed.

Lemma header_length w h : length (bmp_header w h) = 54%nat.
Proof. reflexivity. Qed.

Lemma bmp_rows_length rgb w h :
  length rgb = (w * h)%nat → ∀ py, py ∈ reverse (seq 0 h) → length (bmp_row rgb w py) = Z.to_nat (stride w).
Proof.
  intros Hl py Hin. apply elem_of_reverse, elem_of_seq in Hin.
  apply (bmp_row_length rgb w py h); [done|lia].
Qed.

Lemma rev_seq_lookup h k : (k < h)%nat → reverse (seq 0 h) !! k = Some (h - 1 - k)%nat.
Proof.
  intros Hk. rewrite reverse_lookup by (by rewrite length_seq).
  rewrite length_seq, lookup_seq_lt by lia. f_equal. lia.
Qed.

Lemma bmp_row_pixel rgb w h px py k p :
  length rgb = (w * h)%nat → (px < w)%nat → (py < h)%nat → (k < 3)%nat → rgb !! (py * w + px)%nat = Some p →
  bmp_row rgb w py !! (px * 3 + k)%nat = bgr p !! k.
Proof.
  intros Hl Hx Hy Hk Hp. unfold bmp_row.
  assert (length (flat_map bgr (take w (drop (py * w) rgb))) = (w * 3)%nat) as Hlen.
  { rewrite (flat_map_length bgr 3) by (intros; apply bgr_length). rewrite length_take, length_drop, Hl.
    assert (w ≤ w * h - py * w)%nat by nia. lia. }
  rewrite lookup_app_l by (rewrite Hlen; nia).
  rewrite (flat_map_lookup bgr 3) by (done || intros; apply bgr_length).
  rewrite lookup_take_lt by done. rewrite lookup_drop, Hp. done.
Qed.

(** The bitmap is a well-formed bottom-up BMP24: a 54-byte header, rows
    padded to four bytes, and the pixel at (x, y) of the source stored as
    blue, green, red at its place in row [h - 1 - y]. *)
Lemma encode_bmp24_correct rgb w h :
  (0 < w)%nat → (0 < h)%nat → length rgb = (w * h)%nat →
  ∃ out, encode_bmp24 rgb w h = Ok out ∧
    length out = (54 + h * Z.to_nat (stride w))%nat ∧
    ∀ px py k p, (px < w)%nat → (py < h)%nat → (k < 3)%nat → rgb !! (py * w + px)%nat = Some p →
      out !! (54 + ((h - 1 - py) * Z.to_nat (stride w) + (px * 3 + k)))%nat = bgr p !! k.
Proof.
  intros Hw Hh Hl. unfold encode_bmp24. rewrite (proj2 (Nat.eqb_neq w 0)), (proj2 (Nat.eqb_neq h 0)) by lia.
  rewrite (proj2 (Nat.eqb_eq _ _) Hl). simpl raise_if. cbn [rbind]. eexists. split; [reflexivity|]. split.
  - rewrite length_app, header_length. unfold bmp_body.
    rewrite (flat_map_length _ (Z.to_nat (stride w))) by (by apply (bmp_rows_length rgb w h)).
    by rewrite length_reverse, length_seq.
  - intros px py k p Hx Hy Hk Hp. rewrite lookup_app_r by (rewrite header_length; apply Nat.le_add_r).
    rewrite header_length, (Nat.add_comm 54), Nat.add_sub.
    pose proof (stride_bounds w). unfold bmp_body.
    rewrite (flat_map_lookup _ (Z.to_nat (stride w))).
    + rewrite rev_seq_lookup by lia. simpl. replace (h - 1 - (h - 1 - py))%nat with py by lia.
      by apply (bmp_row_pixel rgb w h).
    + by apply (bmp_rows_length rgb w h).
    + lia.
Qed.

(** ** From palette codes to the request body *)

Definition is_byte (b : Z) : Prop := 0 ≤ b < 256.

Lemma lor_byte a b : is_byte a → is_byte b → is_byte (Z.lor a b).
Proof.
  unfold is_byte. intros [Ha Ha'] [Hb Hb']. assert (0 ≤ Z.lor a b) as Hn by (by apply Z.lor_nonneg).
  split; [done|]. destruct (Z.eq_dec (Z.lor a b) 0) as [->|Hz]; [lia|].
  change 256 with (2 ^ 8). apply Z.log2_lt_pow2; [lia|]. rewrite Z.log2_lor by done.
  assert (∀ x, 0 ≤ x < 256 → Z.log2 x < 8) as Hlog.
  { intros x Hx. destruct (Z.eq_dec x 0) as [->|]; [done|]. apply Z.log2_lt_pow2; [lia|]. change (2 ^ 8) with 256. lia. }
  apply Z.max_lub_lt; by apply Hlog.
Qed.

Lemma shifted_byte f c i : code_ok f c → is_byte (Z.shiftl c (shift_of f i)).
Proof.
  unfold code_ok, is_byte, shift_of. intros Hc. destruct f; cbn [bits] in Hc.
  - pose proof (Nat.mod_upper_bound i 4 ltac:(lia)).
    assert (∀ n, (n < 4)%nat → n = 0%nat ∨ n = 1%nat ∨ n = 2%nat ∨ n = 3%nat) as H4 by lia.
    destruct (H4 (i mod 4)%nat) as [->|[->|[->| ->]]]; [done|..]; rewrite Z.shiftl_mul_pow2 by lia; simpl in *; lia.
  - rewrite Z.shiftl_mul_pow2 by (by destruct (_ =? _)%nat). destruct (i mod 2 =? 0)%nat; simpl in *; lia.
Qed.

Lemma pack_bytes f codes : Forall (code_ok f) codes → Forall is_byte (pack_codes f codes).
Proof.
  intros Hc. unfold pack_codes. set (p := replicate _ 0).
  assert (Forall is_byte p) as Hp by (apply Forall_replicate; unfold is_byte; lia). clearbody p.
  assert (Forall (λ ic, code_ok f ic.2) (zip (seq 0 (length codes)) codes)) as Hz.
  { apply Forall_forall. intros [i c] Hin. apply elem_of_zip_r in Hin. rewrite Forall_forall in Hc. by apply Hc. }
  revert p Hp. generalize dependent (zip (seq 0 (length codes)) codes). intros l Hl.
  induction Hl as [|[i c] l Hic _ IH]; intros p Hp; [done|]. cbn [fold_left]. apply IH.
  apply Forall_lookup. intros k b Hb. unfold pack_step in Hb. rewrite list_lookup_alter in Hb.
  rewrite Forall_lookup in Hp. case_decide; [|by eapply Hp].
  apply fmap_Some in Hb as (b0 & Hb0 & ->). apply lor_byte; [by eapply Hp|by apply shifted_byte].
Qed.

Lemma nibble_high b : is_byte b → Z.land (Z.shiftr b 4) 15 = Z.shiftr b 4.
Proof.
  intros Hb. change 15 with (Z.ones 4). rewrite Z.land_ones by lia. apply Z.mod_small.
  rewrite Z.shiftr_div_pow2 by lia. change (2 ^ 4) with 16. unfold is_byte in Hb.
  split; [apply Z.div_pos; lia|apply Z.div_lt_upper_bound; lia].
Qed.

(** The readers of the protocol agree with the packing of the renderer. *)
Lemma reader_unpack f payload i c :
  Forall is_byte payload → unpack_code f payload i = Some c → reader f payload i = Ok c.
Proof.
  unfold unpack_code. intros Hb H. destruct (payload !! (i / per_byte f)%nat) as [b|] eqn:E; [|done].
  cbn [mbind option_bind] in H. injection H as <-. rewrite Forall_lookup in Hb. apply Hb in E as Hbyte.
  destruct f; cbn [reader per_byte bits shift_of] in *.
  - unfold read_2bpp. by rewrite E.
  - unfold read_indexed4. rewrite E. f_equal. change (2 ^ 4 - 1) with 15.
    destruct (i mod 2 =? 0)%nat; [symmetry; by apply nibble_high|by rewrite Z.shiftr_0_r].
Qed.

Lemma known_color f c : 0 ≤ c < Z.of_nat (length (stock_palette f)) → is_Some (color_of f c).
Proof.
  intros Hc. unfold color_of. rewrite (proj2 (Z.leb_le 0 c)) by lia. apply lookup_lt_is_Some. lia.
Qed.

Lemma packed_reads f codes i c :
  Forall (code_ok f) codes → codes !! i = Some c → reader f (pack_codes f codes) i = Ok c.
Proof.
  intros Hc Hi. apply reader_unpack; [by apply pack_bytes|]. rewrite pack_unpack; [done|done|].
  by apply lookup_lt_Some in Hi.
Qed.

(** The size of the payload, by whether the frame fills its last byte. *)
Lemma packed_size f n :
  ((n + (per_byte f - 1)) / per_byte f = n / per_byte f + (if n mod per_byte f =? 0 then 0 else 1))%nat.
Proof.
  assert (per_byte f ≠ 0)%nat as Hn by (by destruct f). pose proof (Nat.mod_upper_bound n (per_byte f) Hn).
  rewrite (Nat.div_mod n (per_byte f) Hn) at 1. rewrite (Nat.mul_comm (per_byte f)), <- Nat.add_assoc, Nat.div_add_l by done.
  f_equal. destruct (Nat.eqb_spec (n mod per_byte f) 0) as [->|Hne]; [apply Nat.div_small; lia|].
  symmetry. apply (Nat.div_unique _ _ _ (n mod per_byte f - 1)%nat); lia.
Qed.

(** C40. A frame of palette codes survives packing, in both formats.  The
    payload is bytes, one per four (two) pixels, rounded up.  Unpacking a
    frame of [w] by [h] pixels gives the very codes back when the frame fills
    its last byte, as every 480x800 frame does; otherwise the size check
    refuses it.  The pixel readers of the Stock protocol give every code back
    in either case. *)
Theorem pack_roundtrip f w h codes :
  Forall (code_ok f) codes → length codes = (w * h)%nat →
  Forall is_byte (pack_codes f codes) ∧
  length (pack_codes f codes) = ((w * h + (per_byte f - 1)) / per_byte f)%nat ∧
  _unpack_indices f w h (pack_codes f codes) = (if (w * h mod per_byte f =? 0)%nat then Ok codes else Raise BadBinSize) ∧
  ∀ i c, codes !! i = Some c → reader f (pack_codes f codes) i = Ok c.
Proof.
  intros Hc Hl. pose proof (pack_length f codes) as Hlen. rewrite Hl in Hlen.
  split_and!; [by apply pack_bytes|done| |intros i c Hi; by apply packed_reads].
  unfold _unpack_indices. rewrite Hlen, packed_size. destruct (Nat.eqb_spec (w * h mod per_byte f) 0) as [_|Hne].
  - rewrite Nat.add_0_r, Nat.eqb_refl. cbn [negb raise_if rbind].
    assert (mapM (unpack_code f (pack_codes f codes)) (seq 0 (w * h)) = Some codes) as ->; [|done].
    apply mapM_Some, Forall2_same_length_lookup_2; [by rewrite length_seq|].
    intros i j c Hj Hi. apply lookup_seq in Hj as [-> Hlt]. rewrite Nat.add_0_l, pack_unpack; [done|done|lia].
  - rewrite (proj2 (Nat.eqb_neq _ _)) by lia. done.
Qed.

(** A 4x1 frame comes back; a 3x1 frame, packed in as many bytes, does not. *)
Lemma pack_roundtrip_witness :
  pack_codes FIndexed4 [5; 2; 4; 1] = [82; 65] ∧ _unpack_indices FIndexed4 4 1 [82; 65] = Ok [5; 2; 4; 1] ∧
  pack_codes FIndexed4 [5; 2; 4] = [82; 64] ∧ _unpack_indices FIndexed4 3 1 [82; 64] = Raise BadBinSize ∧
  reader FIndexed4 [82; 64] 2 = Ok 4.
Proof.
  split; [reflexivity|]. split.
  { apply (pack_roundtrip FIndexed4 4 1 [5; 2; 4; 1]); [|reflexivity]. repeat constructor; simpl; lia. }
  split; [reflexivity|].
  destruct (pack_roundtrip FIndexed4 3 1 [5; 2; 4]) as (_ & _ & H1 & H2); [repeat constructor; simpl; lia|reflexivity|].
  split; [exact H1|exact (H2 2%nat 4 eq_refl)].
Defined.

(** A rendered frame survives the trip to a Stock device: for any frame
    of known palette codes, either rotation and mode byte 0 or 1, the request
    body is the mode byte followed by a bitmap of the exact size in which
    every logical pixel appears, at its rotated position, with its colour. *)
Theorem stock_payload_correct f w h rot mode codes :
  (0 < w)%nat → (0 < h)%nat → length codes = (w * h)%nat → (w * h mod per_byte f = 0)%nat →
  Forall (λ c, 0 ≤ c < Z.of_nat (length (stock_palette f))) codes → mode = 0 ∨ mode = 1 →
  ∃ bmp, stock_dataup_payload f w h rot mode (pack_codes f codes) = Ok (mode :: bmp) ∧
    length (mode :: bmp) = (55 + w * Z.to_nat (stride h))%nat ∧
    ∀ px py c k, (px < w)%nat → (py < h)%nat → (k < 3)%nat → codes !! (py * w + px)%nat = Some c →
      ∃ rgb, color_of f c = Some rgb ∧
        let '(qx, qy) := portrait_to_physical w h px py rot in
        bmp !! (54 + ((w - 1 - qy) * Z.to_nat (stride h) + (qx * 3 + k)))%nat = bgr rgb !! k.
Proof.
  intros Hw Hh Hl Hm Hc Hmode.
  assert (Forall (code_ok f) codes) as Hok.
  { eapply Forall_impl; [exact Hc|]. unfold code_ok. destruct f; simpl; lia. }
  assert (length (pack_codes f codes) = (w * h / per_byte f)%nat) as Hlen.
  { rewrite pack_length, Hl, packed_size, Hm. simpl. lia. }
  assert (readable f (pack_codes f codes) (w * h)) as Hr.
  { intros i Hi. destruct (lookup_lt_is_Some_2 codes i) as [c Hi']; [lia|]. exists c.
    split; [by apply packed_reads|]. apply known_color. rewrite Forall_forall in Hc.
    by eapply Hc, list_elem_of_lookup_2. }
  destruct (packed_to_rgb888_correct f w h rot _ Hlen Hr) as (out & Ho & Hol & Hpix).
  destruct (encode_bmp24_correct out h w Hh Hw) as (bmp & Hb & Hbl & Hbp); [lia|].
  exists bmp. split; [|split].
  - unfold stock_dataup_payload. rewrite Ho. simpl rbind.
    assert ((mode =? 0) || (mode =? 1) = true) as -> by (destruct Hmode as [-> | ->]; done).
    simpl. by rewrite Hb.
  - simpl. by rewrite Hbl.
  - intros px py c k Hx Hy Hk Hi. assert (py * w + px < w * h)%nat as Hlt by nia.
    destruct (Hpix _ Hlt) as (c' & rgb & Hc' & Hcol & Hout). rewrite (packed_reads f codes _ c Hok Hi) in Hc'.
    injection Hc' as <-. exists rgb. split; [done|].
    unfold physical_index in Hout. rewrite Nat.add_comm, Nat.Div0.mod_add, Nat.div_add in Hout by lia.
    rewrite Nat.mod_small, Nat.div_small in Hout by done. rewrite Nat.add_0_l in Hout.
    assert (∀ qx qy, portrait_to_physical w h px py rot = (qx, qy) → (qx < h ∧ qy < w)%nat) as Hq.
    { unfold portrait_to_physical. intros qx qy. destruct rot; intros [= <- <-]; lia. }
    destruct (portrait_to_physical w h px py rot) as [qx qy]. destruct (Hq qx qy eq_refl) as [Hqx Hqy].
    by apply Hbp.
Qed.

(** A 2x2 frame, turned for the panel. *)
Lemma stock_payload_correct_witness :
  ∃ bmp, stock_dataup_payload FIndexed4 2 2 false 1 (pack_codes FIndexed4 [4; 1; 2; 3]) = Ok (1 :: bmp) ∧
    length (1 :: bmp) = 71%nat.
Proof.
  destruct (stock_payload_correct FIndexed4 2 2 false 1 [4; 1; 2; 3]) as (bmp & H & Hl & _);
    [lia|lia|reflexivity|reflexivity|repeat constructor; simpl; lia|by right|].
  exists bmp. split; [exact H|exact Hl].
Defined.
